(* ===== verification/_CoqProject ===== *)
-Q . S2P
Prelude.v
XixiList.v
XixiHashMap.v
Lookup3.v
Util.v
CurrTime.v
Pdu.v
Stats.v
Watch.v
Slab.v
Cache.v
CacheInv.v
CacheSpec.v
CacheOps.v
CacheData.v
CacheSweep.v
CacheStore.v
CacheLoad.v
CacheRun.v
CacheFrame.v
CacheProps.v
Buffers.v
Auth.v
Settings.v
Peer.v
PeerFacts.v
PeerFrame.v
PeerRun.v
PeerServe.v
PeerAnswer.v
PeerProps.v
Server.v
ServerRun.v
ServerProps.v
Main.v
Http.v
HttpParse.v
HttpServe.v
HttpFiles.v
HttpRun.v
HttpReads.v
HttpLife.v
HttpProps.v
