(* ===== verification/Prelude.v ===== *)
(** * Xixibase: a verification library of the server core

    Xixibase is a cache server in C++: clients store items - bytes under a key of a
    group - with flags, an expiration and a version, the cache id, and may watch
    items for changes.  This library is a model of the part of it that decides what
    a client gets, with the theorems that make it right.

    ** The program and its parts

    [src/src/server.cpp] accepts connections and gives each to a [Peer_Cache]
    (binary protocol) or a [Peer_Http].  A peer reads requests, calls the one
    [Cache_Mgr] and writes responses; the cache keeps its items in a hash map and in
    lists by expiration, cuts its memory into size classes, counts events in [Stats]
    and tells watches, through [Cache_Watch_Sink], of what changes.  A call of the
    cache runs under its [cache_lock_], a handler of a peer under its [lock_]: each
    is one step of the model, and an interleaving is a sequence of steps.  [main]
    reads the command line and the configuration, makes the cache, listens and runs
    asio's services in threads.

    ** The files, from the bottom up

    - [Prelude]: machine integers with their wrap-around; the state monad [ST], where
      [None] is what has no defined behaviour or does not end; [wp], the reasoning
      about it; lemmas on lists.
    - [XixiList] ([xixi_list.hpp]) and [XixiHashMap] ([xixi_hash_map.hpp]): the
      containers, on the level of pointers, and as sequences ([Buckets]).
    - [Lookup3] ([lookup3.cpp], [hash.h]): the hash functions.
    - [Util] ([util.h], [util.cpp]): byte order, numbers in text, comparisons.
    - [CurrTime] ([currtime.h], [currtime.cpp]): the clock and expiration times.
    - [Pdu] ([peer_pdu.h], [peer_pdu.cpp], [peer_cache_pdu.h]): requests decoded,
      responses encoded.
    - [Stats] ([stats.h], [stats.cpp]): the counters, by group and class.
    - [Watch] ([cache.h], [cache.cpp] 31-131): one watch.
    - [Slab] ([cache.cpp] 150-200): the size classes.
    - [Cache] ([cache.h], [cache.cpp]): items, their memory, and every operation of
      [Cache_Mgr], on a heap of items and lists of pointers.  The intrusive links
      are the sequences that [XixiList] and [XixiHashMap] show them to implement.
    - [CacheInv], [CacheSpec], [CacheOps], [CacheData], [CacheSweep], [CacheStore],
      [CacheLoad]: the invariant [inv] of the cache, the reference - a finite map from keys to
      entries with the watches, [model_of] - and, operation by operation, that the
      invariant is kept and the reference is followed.  [CacheStore] has what a peer
      does around an update, and [start]; [CacheLoad] the loading of a file.
    - [CacheFrame]: what an operation leaves alone: items that are in no list.
    - [CacheRun]: the operations as requests ([request], [run_request]), what the
      reference does for each ([spec_step]), the references that clients hold, and
      runs of both.  [CacheProps]: the properties of the cache.
    - [Buffers] ([cache_buffer.hpp], [util.h], [peer.h]): the buffers of a peer and
      the tables of ids.
    - [Auth] ([auth.cpp]): the login, over Boost's decoding of base64.
    - [Peer] ([peer_cache.h], [peer_cache.cpp]): a connection of the binary protocol,
      the handlers of its requests, the state machine [process], and the handlers of
      the completions of asio.
    - [PeerFacts] (handlers), [PeerRun] (rounds of [process], its end, completions):
      the invariant [node_ok] of a connection and its cache.  [PeerServe] and
      [PeerAnswer]: from the bytes of a request to the bytes of its response.
      [PeerProps]: the life of a connection and its properties.  [PeerFrame]: what a
      handler of one connection leaves to the others.
    - [Settings] ([settings.h], [settings.cpp]): the configuration and the tables of
      mime types, with their theorems.
    - [Http] ([peer_http.h], [peer_http.cpp]): a connection of the HTTP protocol: the
      texts, the parsers, the handlers of commands, static files and compression, the
      state machine and the completions.
    - [Server] ([server.cpp], [io_service_pool.cpp], [handler_allocator.hpp]): the
      services, the first bytes of a connection, in the clear and over SSL, the
      acceptors and their accepts, the timer; and the whole, a [system]: the server,
      its cache and every connection there is, with a step for every [event].
      [ServerRun]: its invariant [sys_ok] and that every event keeps it.
      [ServerProps]: the properties.
    - [Main] ([main.cpp]): the command line, the files and the start.
    - [HttpParse] (what is read from a url, a header, a request), [HttpServe] (what each
      handler does to the cache and the page it queues), [HttpFiles] (paths, files and
      welcome files), [HttpRun] (a request through [handle_read] and [handle_write]),
      [HttpReads] (what is sent is parsed), [HttpLife] (the invariant [web_ok] of a
      connection, the end of its loop, its completions), [HttpProps]: the properties.

    ** What is shown

    What the program is made for is a condition of each theorem, [CacheRun.allowed],
    [benign_run], [possible_event], and what happens outside of it is, where the code
    does harm, a theorem of its own (the last item of this list).

    - The cache, for every sequence of [allowed] requests: it refines the finite map; it
      does not fail; memory and references are accounted for; a set is found by the get after it, an
      expired entry is not, a flush empties its group and nothing else.
    - A connection, in whatever parts bytes come: no handler fails or hangs on what it is
      made for, what it holds is accounted for, and a request on the wire is the request of the
      reference, its response the encoding of the reply.  Together with the theorem
      on the cache this goes from the socket to the map.
    - The server, with any number of connections in any order of events that it is made
      for: it does not fail; the references that all connections hold together are the counts of the
      items; the body that one receives is not touched by the others; it goes on
      accepting until it is stopped; every connection comes to the peer of its
      protocol with all its bytes.  From the command line: the process ends with the
      error that it met, or has an acceptor for every connector and is such a server, or
      the table of classes is too short for what is configured.
    - A connection over HTTP: the text of any command in a url, with its arguments and
      headers, is the request of the same reference, and what is written is the page of its reply;
      arguments survive their escapes, pages tell a client where they end, a path never
      leads above its start, a path that is no key is served from its file or the
      welcome file of its directory, compressed data can be restored.  And in whatever
      parts bytes come, with bodies and files: no handler fails or hangs on what it is
      made for, and what it holds is accounted for.
    - The configuration: whatever the files say, the settings that are left are
      well-formed - but for a growth factor that is a NaN, which passes - and a mime type is found if and only if it is configured.
    - The parts: the containers refine sequences and finite sets; decoding inverts
      the wire format and encoding fills exactly what was reserved; a watch loses no
      update; the class of a size is the least that fits; hashing by words is hashing
      by bytes; a receive buffer is a queue, blocks of a response buffer are disjoint.
    - What the code does that it should not, as theorems: references lost on a
      mismatch, on a connection that ends in the middle of an update; an update whose
      size wraps; a watch lost by an append; an item that must not expire and does; an
      authentication that takes the connection; a pipelined request that waits; parsers
      that read past their data; a table of classes written past its end; counters
      that count the wrong thing; a header longer than its buffer; a pipelined request
      over HTTP with the arguments of the one before; a mime type that depends on how
      many others there are; an accept that uses an acceptor [stop] deleted; a greeting
      that is never answered; services that no thread runs.

    ** Bounds and fuel

    Loops of the code that are not structural carry fuel and are [None] without it;
    each theorem that a run returns something shows that there was enough.  [process]
    has 8 rounds for every byte that can come and 8 more ([process_fuel]), which
    [PeerRun.process_ends] shows to suffice.  [ref_count] has 16 bits: the theorems ask
    that no item has 2^15 references, minus the 68 that one run of [process] can take, and
    the 2 of one over HTTP ([HttpLife.web_loop_ends] shows the rounds to suffice there).
    Sizes of items and of the cache are bounded by 2^30 and 2^35 bytes in [reaches].

    Parameters are what is not in [src/src]: [malloc] ([Item_Malloc], [Table_Malloc],
    [Buffer_Malloc], [Block_Malloc]), the values of uninitialised variables
    ([unassigned]), which sinks are alive, what sockets deliver, what TinyXML parses
    ([xml_node]), [atof] ([C_Library]), the file system ([Web_Files], [Main.world]),
    Boost's base64 and tokens ([Auth_Library]), what the system answers to a listen
    ([Server.answers]) and zlib ([Zlib]).  The theorems on
    connections assume that the blocks of [Cache_Buffer] are found, since the
    code uses them unchecked, and that no request meets one of the defects above
    ([PeerRun.benign_run] and [HttpLife.benign_run], both decidable).

    ** Not modelled

    - [Peer_Http::process_auth_req_pdu_extras], which nothing calls.  [web_request_served] is
      on requests in a url; of the bodies of POST [web_never_fails] shows that they are parsed
      and done, not what each of their texts asks for.
    - [log.cpp], the usage texts and [printf_system_info]: what is printed.  A signal is
      the event [Stopped]; that its handler runs on a thread of the program, which may
      hold the lock of the log, is not.
    - Threads: the handlers of different connections run one after the other, as the
      locks of the cache and of the peers make the calls; what is between two calls
      of the cache in one handler concerns that connection only.
    - In the [system] a peer of HTTP is what it asks of the cache and the references it
      holds; its own state is in [Http].
    - [Cache_Mgr::load_from_file] has the contents of the file as a parameter.
    - [src/3rd], [src/client], [src/benchmark]: libraries, clients and measurements. *)

From stdpp Require Export base gmap sets list strings.
From Stdlib Require Export ZArith Lia.
From coqutil Require Export Datatypes.RecordSettersUsingExistingGetters.

#[global] Open Scope Z_scope.
Arguments const {E} newValue _ /.
Arguments Z.add _ _ : simpl never.
Arguments Z.sub _ _ : simpl never.
Arguments Z.mul _ _ : simpl never.
Arguments Z.pow _ _ : simpl never.
Arguments Z.modulo _ _ : simpl never.
Arguments Z.div _ _ : simpl never.

(** ** Machine integers

    An unsigned [w]-bit integer is the [Z] in [[0, 2^w)]; every C operation
    that can leave the range is followed by an explicit wrap.  A signed one is
    the two's complement reading of the wrapped value. *)

Definition wrap (w z : Z) : Z := z mod 2 ^ w.
Definition swrap (w z : Z) : Z :=
  let u := wrap w z in if u <? 2 ^ (w - 1) then u else u - 2 ^ w.

Arguments wrap : simpl never.
Arguments swrap : simpl never.

Abbreviation u8 := (wrap 8).
Abbreviation u16 := (wrap 16).
Abbreviation u32 := (wrap 32).
Abbreviation u64 := (wrap 64).
Abbreviation s8 := (swrap 8).
Abbreviation s32 := (swrap 32).
Abbreviation s64 := (swrap 64).

(** A byte, and a string of bytes, as the memory of the program holds them. *)
Definition is_byte (b : Z) : Prop := 0 <= b < 256.
Abbreviation bytes := (list Z).

#[export] Instance is_byte_dec b : Decision (is_byte b).
Proof. unfold is_byte. apply _. Defined.

Create HintDb ints.
Create Rewrite HintDb ints.

Lemma wrap_small w z : 0 <= z < 2 ^ w -> wrap w z = z.
Proof. apply Z.mod_small. Qed.

Lemma wrap_range w z : 0 <= w -> 0 <= wrap w z < 2 ^ w.
Proof. intros. apply Z.mod_pos_bound, Z.pow_pos_nonneg; lia. Qed.

Lemma wrap_wrap w z : wrap w (wrap w z) = wrap w z.
Proof. apply Zmod_mod. Qed.

Lemma wrap_le w v z : 0 <= w <= v -> wrap w (wrap v z) = wrap w z.
Proof.
  intros. unfold wrap. apply Z.mod_mod_divide.
  exists (2 ^ (v - w)). rewrite <- Z.pow_add_r by lia. f_equal. lia.
Qed.

Lemma wrap_add_l w a b : wrap w (wrap w a + b) = wrap w (a + b).
Proof. apply Zplus_mod_idemp_l. Qed.

Lemma wrap_add_r w a b : wrap w (a + wrap w b) = wrap w (a + b).
Proof. apply Zplus_mod_idemp_r. Qed.

Lemma wrap_sub_l w a b : wrap w (wrap w a - b) = wrap w (a - b).
Proof. apply Zminus_mod_idemp_l. Qed.

Lemma wrap_sub_r w a b : wrap w (a - wrap w b) = wrap w (a - b).
Proof. apply Zminus_mod_idemp_r. Qed.

Lemma swrap_small w z : 0 < w -> - 2 ^ (w - 1) <= z < 2 ^ (w - 1) -> swrap w z = z.
Proof.
  intros Hw Hz. unfold swrap, wrap.
  assert (2 ^ w = 2 * 2 ^ (w - 1)) as E.
  { rewrite <- Z.pow_succ_r by lia. f_equal. lia. }
  destruct (Z.ltb_spec (z mod 2 ^ w) (2 ^ (w - 1)));
  destruct (Z.le_gt_cases 0 z).
  - apply Z.mod_small. lia.
  - rewrite <- (Z.mod_unique z (2 ^ w) (-1) (z + 2 ^ w)) in * by lia. lia.
  - rewrite Z.mod_small in * by lia. lia.
  - rewrite <- (Z.mod_unique z (2 ^ w) (-1) (z + 2 ^ w)) by lia. lia.
Qed.

Lemma swrap_range w z : 0 < w -> - 2 ^ (w - 1) <= swrap w z < 2 ^ (w - 1).
Proof.
  intros Hw. unfold swrap. pose proof (wrap_range w z ltac:(lia)).
  assert (2 ^ w = 2 * 2 ^ (w - 1)) as E.
  { rewrite <- Z.pow_succ_r by lia. f_equal. lia. }
  destruct (Z.ltb_spec (wrap w z) (2 ^ (w - 1))); lia.
Qed.

Lemma swrap_wrap w z : swrap w (wrap w z) = swrap w z.
Proof. unfold swrap. by rewrite wrap_wrap. Qed.

Lemma wrap_swrap w z : wrap w (swrap w z) = wrap w z.
Proof.
  unfold swrap. case_match; [apply wrap_wrap|].
  unfold wrap. replace (z mod 2 ^ w - 2 ^ w) with (z mod 2 ^ w + -1 * 2 ^ w) by lia.
  by rewrite Z_mod_plus_full, Zmod_mod.
Qed.

(** [solve_range] closes bounds on wrapped values of literal width. *)
Ltac solve_range :=
  repeat match goal with
    | |- context [wrap ?w ?z] =>
        lazymatch goal with
        | _ : 0 <= wrap w z < _ |- _ => fail
        | _ => pose proof (wrap_range w z ltac:(lia))
        end
    | H : context [wrap ?w ?z] |- _ =>
        lazymatch goal with
        | _ : 0 <= wrap w z < _ |- _ => fail
        | _ => pose proof (wrap_range w z ltac:(lia))
        end
    end; lia.

#[export] Hint Resolve wrap_range swrap_range : ints.
#[export] Hint Rewrite wrap_wrap wrap_add_l wrap_add_r wrap_sub_l wrap_sub_r
  swrap_wrap wrap_swrap : ints.

(** ** State and failure

    [ST S A] is a computation over a state [S] that returns an [A], or [None]
    where the code has no defined behaviour: a failed [assert], or a pointer
    that is dereferenced while it does not point to a live object. *)

Definition ST (S A : Type) : Type := S -> option (A * S).

#[export] Instance ST_ret S : MRet (ST S) := fun A a s => Some (a, s).
#[export] Instance ST_bind S : MBind (ST S) := fun A B k m s =>
  match m s with Some (a, s') => k a s' | None => None end.

Definition gets {S A} (f : S -> A) : ST S A := fun s => Some (f s, s).
Definition modify {S} (f : S -> S) : ST S unit := fun s => Some (tt, f s).
Definition the {S A} (o : option A) : ST S A := fun s =>
  match o with Some a => Some (a, s) | None => None end.
Definition assert_ {S} (b : bool) : ST S unit := fun s =>
  if b then Some (tt, s) else None.

(** The value of a run that has one. *)
Definition run {S A} (m : ST S A) (s : S) (r : A * S) : Prop := m s = Some r.

(** A computation of a component, in the state that holds the component. *)
Definition on {S T A} (get : T -> S) (put : S -> T -> T) (m : ST S A) : ST T A := fun t =>
  match m (get t) with Some (a, s) => Some (a, put s t) | None => None end.

(** [for (x in l) f(x);] *)
Fixpoint for_each {S A} (f : A -> ST S unit) (l : list A) : ST S unit :=
  match l with
  | [] => mret tt
  | x :: l => f x;; for_each f l
  end.

(** Weakest precondition: the computation is defined and its result and final
    state satisfy the postcondition. *)
Definition wp {S A} (m : ST S A) (s : S) (Q : A -> S -> Prop) : Prop :=
  match m s with Some (a, s') => Q a s' | None => False end.

Section wp.
Context {S : Type}.
Implicit Types s : S.

Lemma wp_ret {A} (a : A) s Q : Q a s -> wp (mret a) s Q.
Proof. done. Qed.

Lemma wp_bind {A B} (m : ST S A) (k : A -> ST S B) s Q :
  wp m s (fun a s' => wp (k a) s' Q) -> wp (m ≫= k) s Q.
Proof. unfold wp, mbind, ST_bind. destruct (m s) as [[??]|]; done. Qed.

Lemma wp_bind_inv {A B} (m : ST S A) (k : A -> ST S B) s Q : wp (m ≫= k) s Q -> wp m s (fun a s' => wp (k a) s' Q).
Proof. unfold wp, mbind, ST_bind. destruct (m s) as [[??]|]; done. Qed.
Lemma wp_assoc {A B C} (m : ST S A) (f : A -> ST S B) (g : B -> ST S C) s Q :
  wp ((m ≫= f) ≫= g) s Q -> wp (m ≫= fun a => f a ≫= g) s Q.
Proof. unfold wp, mbind, ST_bind. destruct (m s) as [[??]|]; done. Qed.

Lemma wp_mono {A} (m : ST S A) s (P Q : A -> S -> Prop) :
  wp m s P -> (forall a s', P a s' -> Q a s') -> wp m s Q.
Proof. unfold wp. destruct (m s) as [[??]|]; auto. Qed.

Lemma wp_gets {A} (f : S -> A) s Q : Q (f s) s -> wp (gets f) s Q.
Proof. done. Qed.

Lemma wp_modify (f : S -> S) s Q : Q tt (f s) -> wp (modify f) s Q.
Proof. done. Qed.

Lemma wp_the {A} (o : option A) a s Q : o = Some a -> Q a s -> wp (the o) s Q.
Proof. by intros ->. Qed.

Lemma wp_assert (b : bool) s Q : b = true -> Q tt s -> wp (assert_ b) s Q.
Proof. by intros ->. Qed.

Lemma wp_on {T A} (get : T -> S) put (m : ST S A) (t : T) Q :
  wp m (get t) (fun a s => Q a (put s t)) -> wp (on get put m) t Q.
Proof. unfold wp, on. destruct (m (get t)) as [[??]|]; done. Qed.

Lemma wp_for_each {A} (f : A -> ST S unit) l s (I : list A -> S -> Prop) :
  I l s -> (forall x l s, I (x :: l) s -> wp (f x) s (fun _ s' => I l s')) ->
  wp (for_each f l) s (fun _ s' => I [] s').
Proof.
  intros H0 Hstep. revert s H0. induction l as [|x l IH]; intros s H0; [done|].
  apply wp_bind. eapply wp_mono; [by apply Hstep|]. auto.
Qed.

Lemma wp_run {A} (m : ST S A) s Q :
  wp m s Q <-> exists a s', m s = Some (a, s') /\ Q a s'.
Proof.
  unfold wp. destruct (m s) as [[a s']|]; split; intros H; try done.
  - eauto.
  - by destruct H as (?&?&[=<- <-]&?).
  - by destruct H as (?&?&[=]&?).
Qed.

Lemma wp_and {A} (m : ST S A) s (P Q : A -> S -> Prop) :
  wp m s P -> wp m s Q -> wp m s (fun a s' => P a s' /\ Q a s').
Proof. unfold wp. destruct (m s) as [[??]|]; auto. Qed.
End wp.

(** One step of symbolic execution; [wp_steps] runs to the next call that is
    not a primitive of the monad. *)
Ltac wp_step :=
  lazymatch goal with
  | |- wp (mret _) _ _ => apply wp_ret
  | |- wp (_ ≫= _) _ _ => apply wp_bind
  | |- wp (gets _) _ _ => apply wp_gets
  | |- wp (modify _) _ _ => apply wp_modify
  | |- wp (the _) _ _ => eapply wp_the; [eassumption|]
  | |- wp (assert_ _) _ _ => apply wp_assert; [solve [eauto]|]
  end; cbn beta.
Ltac wp_steps := repeat wp_step.

(** ** Lists *)
Lemma elem_of_concat {A} (x : A) (ls : list (list A)) :
  x ∈ concat ls <-> exists i l, ls !! i = Some l /\ x ∈ l.
Proof.
  rewrite list_elem_of_In, in_concat. split.
  - intros (l&Hl&Hx). apply list_elem_of_In, list_elem_of_lookup in Hl as [i Hi]. exists i, l.
    by rewrite list_elem_of_In.
  - intros (i&l&Hi&Hx). exists l. split; [|by apply list_elem_of_In].
    apply list_elem_of_In. by eapply list_elem_of_lookup_2.
Qed.

Lemma concat_lookup {A} (ls : list (list A)) i l l' :
  ls !! i = Some l -> exists r, concat ls ≡ₚ l ++ r /\ concat (<[i := l']> ls) ≡ₚ l' ++ r.
Proof.
  intros Hi. exists (concat (take i ls) ++ concat (drop (S i) ls)).
  pose proof (lookup_lt_Some _ _ _ Hi).
  rewrite insert_take_drop by done.
  rewrite <- (take_drop_middle ls i l) at 1 by done.
  rewrite !concat_app. cbn. rewrite !(Permutation_app_swap_app _ (concat (take i ls))). done.
Qed.
