(* ===== verification/XixiList.v ===== *)
(** * The intrusive doubly-linked list, [src/src/xixi_list.hpp]

    [xixi::list<T, INDEX, size_type>] threads a list through the [next_] and
    [prev_] members of the elements themselves.  This file has

    - [node], [lst]: the links of every element and the three members of a
      list, over a memory that other lists may share;
    - one definition per member function, statement by statement, with every
      [assert] and every pointer dereference explicit ([None] is a failed
      assertion or a bad dereference);
    - [lrep]: a memory and a list object represent a sequence of elements;
    - for each member function, that it refines the operation on sequences of
      module [Seq], leaves the links of every other element alone (so two
      lists that share the memory do not disturb each other), and fails no
      assertion. *)

From S2P Require Import Prelude.

Abbreviation ptr := positive.

(** ** The sequences a list stands for *)
Module Seq.
Section seq.
Context {A : Type} `{EqDecision A}.
Implicit Types (p : A) (xs : list A).

Definition push_front p xs := p :: xs.
Definition push_back p xs := xs ++ [p].
Definition pop_front xs := (head xs, tail xs).
Definition pop_back xs := (last xs, take (length xs - 1) xs).
(** Removes the element itself, which occurs once in a list. *)
Definition remove p xs := filter (fun q => q <> p) xs.
Definition move_to_front p xs := p :: remove p xs.
Definition move_to_back p xs := remove p xs ++ [p].

Lemma remove_not_in p xs : p ∉ xs -> remove p xs = xs.
Proof.
  unfold remove. induction xs as [|x xs IH]; [done|]. intros ?.
  rewrite filter_cons_True by set_solver. f_equal. set_solver.
Qed.

Lemma remove_app p xs ys : remove p (xs ++ ys) = remove p xs ++ remove p ys.
Proof. apply filter_app. Qed.

Lemma remove_cons_eq p xs : remove p (p :: xs) = remove p xs.
Proof. unfold remove. rewrite filter_cons_False; auto. Qed.

Lemma remove_middle p xs ys :
  NoDup (xs ++ p :: ys) -> remove p (xs ++ p :: ys) = xs ++ ys.
Proof.
  intros (?&Hd&[??]%NoDup_cons)%NoDup_app.
  rewrite remove_app, remove_cons_eq, !remove_not_in; try done.
  intros ?. apply (Hd p); [done|]. by left.
Qed.

Lemma elem_of_remove p q xs : q ∈ remove p xs <-> q ∈ xs /\ q <> p.
Proof. unfold remove. rewrite list_elem_of_filter. naive_solver. Qed.

Lemma NoDup_remove p xs : NoDup xs -> NoDup (remove p xs).
Proof. apply NoDup_filter. Qed.

Lemma remove_Permutation p xs :
  NoDup xs -> p ∈ xs -> xs ≡ₚ p :: remove p xs.
Proof.
  intros Hn (l1&l2&->)%list_elem_of_split.
  rewrite remove_middle by done. by rewrite Permutation_middle.
Qed.

#[export] Instance remove_proper p :
  Proper ((≡ₚ) ==> (≡ₚ)) (remove p).
Proof. intros ?? H. unfold remove. by rewrite H. Qed.
End seq.
Arguments remove : simpl never.
End Seq.

(** ** The data of the program *)

(** [list_node_base<T, 1>]: the links of one element, lines 25-57. *)
Record node := mknode { next_ : option ptr; prev_ : option ptr }.

(** The constructor and [reset_list_node_base], lines 27-37. *)
Definition reset_list_node_base : node := mknode None None.

(** [list<T>], with the memory its elements live in, lines 313-315. *)
Record lst := mklst {
  mem : gmap ptr node;
  head_ : option ptr;
  tail_ : option ptr;
  size_ : Z
}.

(** ** Primitives: member access through a pointer *)

Abbreviation L := (ST lst).

Definition get_next (p : ptr) : L (option ptr) :=
  n ← gets (fun s => mem s !! p) ≫= the; mret (next_ n).
Definition get_prev (p : ptr) : L (option ptr) :=
  n ← gets (fun s => mem s !! p) ≫= the; mret (prev_ n).
Definition put_next (p : ptr) (v : option ptr) : L unit :=
  n ← gets (fun s => mem s !! p) ≫= the;
  modify (fun s => s <| mem ::= <[p := n <| next_ := v |>]> |>).
Definition put_prev (p : ptr) (v : option ptr) : L unit :=
  n ← gets (fun s => mem s !! p) ≫= the;
  modify (fun s => s <| mem ::= <[p := n <| prev_ := v |>]> |>).
Definition put_head (v : option ptr) : L unit := modify (fun s => s <| head_ := v |>).
Definition put_tail (v : option ptr) : L unit := modify (fun s => s <| tail_ := v |>).
Definition put_size (f : Z -> Z) : L unit := modify (fun s => s <| size_ ::= f |>).

(** [if (o != NULL) { k(o); }] *)
Definition if_some {S A} (o : option A) (k : A -> ST S unit) : ST S unit :=
  match o with Some a => k a | None => mret tt end.
Definition is_null {A} (o : option A) : bool :=
  match o with Some _ => false | None => true end.
Definition deref {S A} (o : option A) : ST S A := the o.


(** ** The member functions *)
Module XList.

Definition empty : L bool := h ← gets head_; mret (is_null h).

Definition is_linked (p : ptr) : L bool :=
  n ← get_next p; v ← get_prev p; h ← gets head_; t ← gets tail_;
  mret (negb (is_null n) || negb (is_null v)
        || (bool_decide (Some p = h) && bool_decide (Some p = t))).

Definition front : L (option ptr) := gets head_.
Definition back : L (option ptr) := gets tail_.

Definition next (p : option ptr) : L (option ptr) :=
  match p with Some p => get_next p | None => mret None end.
Definition prev (p : option ptr) : L (option ptr) :=
  match p with Some p => get_prev p | None => mret None end.

Definition size : L Z := gets size_.

Definition push_front (p : ptr) : L unit :=
  v ← get_prev p; assert_ (is_null v);;
  n ← get_next p; assert_ (is_null n);;
  h ← gets head_;
  if_some h (fun h => put_prev h (Some p));;
  put_prev p None;;
  put_next p h;;
  put_head (Some p);;
  t ← gets tail_;
  (if is_null t then put_tail (Some p) else mret tt);;
  put_size (fun n => u32 (n + 1)).

Definition push_back (p : ptr) : L unit :=
  v ← get_prev p; assert_ (is_null v);;
  n ← get_next p; assert_ (is_null n);;
  t ← gets tail_;
  if_some t (fun t => put_next t (Some p));;
  put_next p None;;
  put_prev p t;;
  put_tail (Some p);;
  h ← gets head_;
  (if is_null h then put_head (Some p) else mret tt);;
  put_size (fun n => u32 (n + 1)).

Definition pop_front : L (option ptr) :=
  h ← gets head_;
  match h with
  | Some p =>
      n ← get_next p; put_head n;;
      if_some n (fun h => put_prev h None);;
      t ← gets tail_;
      (if bool_decide (t = Some p) then put_tail None else mret tt);;
      put_size (fun n => u32 (n - 1));;
      put_next p None;;
      mret (Some p)
  | None => mret None
  end.

Definition pop_back : L (option ptr) :=
  t ← gets tail_;
  match t with
  | Some p =>
      v ← get_prev p; put_tail v;;
      if_some v (fun t => put_next t None);;
      h ← gets head_;
      (if bool_decide (h = Some p) then put_head None else mret tt);;
      put_size (fun n => u32 (n - 1));;
      put_prev p None;;
      mret (Some p)
  | None => mret None
  end.

Definition remove (p : ptr) : L unit :=
  n ← get_next p; assert_ (negb (bool_decide (n = Some p)));;
  v ← get_prev p; assert_ (negb (bool_decide (v = Some p)));;
  h ← gets head_;
  (if bool_decide (h = Some p) then
     assert_ (is_null v);; put_head n
   else mret tt);;
  t ← gets tail_;
  (if bool_decide (t = Some p) then
     assert_ (is_null n);; put_tail v
   else mret tt);;
  if_some n (fun q => put_prev q v);;
  v ← get_prev p;
  if_some v (fun q => n ← get_next p; put_next q n);;
  put_prev p None;; put_next p None;;
  put_size (fun n => u32 (n - 1)).

Definition move_to_front (p : ptr) : L unit :=
  n ← get_next p; assert_ (negb (bool_decide (n = Some p)));;
  v ← get_prev p; assert_ (negb (bool_decide (v = Some p)));;
  h ← gets head_;
  if bool_decide (h = Some p) then mret tt else
  t ← gets tail_;
  (if bool_decide (t = Some p) then
     assert_ (is_null n);; put_tail v
   else
     assert_ (negb (is_null n));; q ← deref n; put_prev q v);;
  v ← get_prev p; assert_ (negb (is_null v));;
  q ← deref v; n ← get_next p; put_next q n;;
  put_prev p None;;
  put_next p h;;
  h ← deref h; put_prev h (Some p);;
  put_head (Some p).

Definition move_to_back (p : ptr) : L unit :=
  n ← get_next p; assert_ (negb (bool_decide (n = Some p)));;
  v ← get_prev p; assert_ (negb (bool_decide (v = Some p)));;
  t ← gets tail_;
  if bool_decide (t = Some p) then mret tt else
  h ← gets head_;
  (if bool_decide (h = Some p) then
     assert_ (is_null v);; put_head n
   else
     assert_ (negb (is_null v));; q ← deref v; put_next q n);;
  n ← get_next p; assert_ (negb (is_null n));;
  q ← deref n; v ← get_prev p; put_prev q v;;
  put_next p None;;
  put_prev p t;;
  t ← deref t; put_next t (Some p);;
  put_tail (Some p).
End XList.

(** ** Representation *)

(** First element of [ys] or else [nn]; last element of [xs] or else [pp]. *)
Definition fst_or (nn : option ptr) (ys : list ptr) : option ptr :=
  match ys with [] => nn | y :: _ => Some y end.
Fixpoint lst_or (pp : option ptr) (xs : list ptr) : option ptr :=
  match xs with [] => pp | x :: xs => lst_or (Some x) xs end.

(** The elements [xs] are linked in this order; [pp] is what the first one
    points back to and [nn] what the last one points on to. *)
Fixpoint dseg (m : gmap ptr node) (pp : option ptr) (xs : list ptr)
    (nn : option ptr) : Prop :=
  match xs with
  | [] => True
  | x :: ys => m !! x = Some (mknode (fst_or nn ys) pp) /\ dseg m (Some x) ys nn
  end.

(** The list object represents [xs]. *)
Record lrep (s : lst) (xs : list ptr) : Prop := {
  lrep_seg : dseg (mem s) None xs None;
  lrep_nodup : NoDup xs;
  lrep_head : head_ s = head xs;
  lrep_tail : tail_ s = last xs;
  lrep_size : size_ s = u32 (Z.of_nat (length xs))
}.

(** Links of elements outside [xs] are the same in both memories. *)
Definition unchanged (xs : list ptr) (s s' : lst) : Prop :=
  forall q, q ∉ xs -> mem s' !! q = mem s !! q.

(** ** Segment lemmas *)

Lemma lst_or_snoc pp xs x : lst_or pp (xs ++ [x]) = Some x.
Proof. revert pp. induction xs; intros; cbn; auto. Qed.

Lemma fst_or_app nn xs ys : fst_or nn (xs ++ ys) = fst_or (fst_or nn ys) xs.
Proof. by destruct xs. Qed.

Lemma lst_or_cons pp x xs : lst_or pp (x :: xs) = lst_or (Some x) xs.
Proof. done. Qed.

Lemma dseg_app m pp xs ys nn :
  dseg m pp (xs ++ ys) nn <->
  dseg m pp xs (fst_or nn ys) /\ dseg m (lst_or pp xs) ys nn.
Proof.
  revert pp. induction xs as [|x xs IH]; intros pp; [naive_solver|].
  cbn [app dseg]. rewrite IH, fst_or_app, lst_or_cons. naive_solver.
Qed.

Lemma dseg_frame m m' pp xs nn :
  (forall x, x ∈ xs -> m' !! x = m !! x) -> dseg m pp xs nn -> dseg m' pp xs nn.
Proof.
  revert pp. induction xs as [|x xs IH]; intros pp Hm; [done|].
  intros [? ?]. split.
  - rewrite Hm; [done|]. by left.
  - apply IH; [|done]. intros. apply Hm. by right.
Qed.

Lemma dseg_elem m pp xs nn p :
  p ∈ xs -> dseg m pp xs nn -> is_Some (m !! p).
Proof.
  intros (l1&l2&->)%list_elem_of_split (_&?&_)%dseg_app. eauto.
Qed.

(** Symbolic execution of the member functions: the goal's state is kept a
    record constructor, so that every member access computes. *)
Ltac wp_l :=
  repeat first
    [ progress (cbn [lst_or fst_or mem head_ tail_ size_ next_ prev_ set const
                     get_next get_prev put_next put_prev put_head put_tail put_size
                     if_some is_null deref])
    | wp_step
    | lazymatch goal with
      | |- wp (get_next _) _ _ => unfold get_next
      | |- wp (get_prev _) _ _ => unfold get_prev
      | |- wp (put_next _ _) _ _ => unfold put_next
      | |- wp (put_prev _ _) _ _ => unfold put_prev
      | |- wp (put_head _) _ _ => unfold put_head
      | |- wp (put_tail _) _ _ => unfold put_tail
      | |- wp (put_size _) _ _ => unfold put_size
      | |- wp (deref _) _ _ => unfold deref
      | |- wp (the _) _ _ => eapply wp_the; [by simplify_map_eq|]
      | |- wp (assert_ _) _ _ => apply wp_assert; [by rewrite ?bool_decide_eq_false_2 by (simpl in *; congruence)|]
      | |- context [bool_decide ?P] =>
          first [ rewrite (bool_decide_eq_true_2 P) by (first [congruence | simpl; congruence])
                | rewrite (bool_decide_eq_false_2 P) by (first [congruence | simpl; congruence]) ]
      end ].

Lemma is_null_last_snoc {A} (xs : list A) x : is_null (last (xs ++ [x])) = false.
Proof. by rewrite last_snoc. Qed.

(** A free element: linked nowhere, as [push_front] and [push_back] require. *)
Definition unlinked (s : lst) (p : ptr) : Prop :=
  mem s !! p = Some reset_list_node_base.

Lemma is_null_last_cons {A} (x : A) xs : is_null (last (x :: xs)) = false.
Proof. rewrite last_cons. by destruct (last xs). Qed.
Lemma last_head_single {A} (xs : list A) p :
  NoDup xs -> head xs = Some p -> last xs = Some p -> xs = [p].
Proof.
  destruct xs as [|x xs]; [done|]. intros [Hx _]%NoDup_cons [= ->].
  destruct xs as [|y xs] using rev_ind; [done|]. rewrite app_comm_cons, last_snoc.
  intros [= ->]. set_solver.
Qed.

Lemma NoDup_snoc {A} (xs : list A) p : NoDup xs -> p ∉ xs -> NoDup (xs ++ [p]).
Proof. intros. apply NoDup_app. split_and!; [done| |apply NoDup_singleton]. set_solver. Qed.
Lemma u32_succ n : u32 (u32 (Z.of_nat n) + 1) = u32 (Z.of_nat (S n)).
Proof. rewrite wrap_add_l. f_equal. lia. Qed.
Lemma u32_pred n : u32 (u32 (Z.of_nat (S n)) - 1) = u32 (Z.of_nat n).
Proof. rewrite wrap_sub_l. f_equal. lia. Qed.

Lemma length_move {A} (l1 l2 : list A) p :
  length (p :: l1 ++ l2) = length (l1 ++ p :: l2).
Proof. cbn. rewrite !length_app. cbn. lia. Qed.
Ltac same_length :=
  do 2 f_equal; cbn [length]; repeat (rewrite length_app; cbn [length]); lia.
(** Segments over a memory after some writes to elements outside them. *)
Ltac dseg_frames :=
  cbn [lst_or dseg fst_or fst snd] in *; repeat match goal with
  | |- dseg _ _ (_ ++ _) _ => apply dseg_app
  | |- dseg _ _ (_ :: _) _ => cbn [dseg fst_or]
  | |- dseg _ _ [] _ => exact I
  | |- True => exact I
  | |- _ /\ _ => split
  | H : dseg ?m ?pp ?xs ?nn |- dseg _ ?pp ?xs ?nn =>
      apply (dseg_frame m); [|exact H]; intros ??;
      rewrite !lookup_insert_ne by set_solver; done
  | |- context [lst_or _ (_ ++ [_])] => rewrite lst_or_snoc
  | |- context [fst_or _ (_ ++ _)] => rewrite fst_or_app; cbn [fst_or]
  | |- _ !! _ = Some _ => by simplify_map_eq
  end.
Ltac links_unchanged :=
  let q := fresh in let Hq := fresh in intros q Hq; cbn;
  by rewrite ?lookup_insert_ne by set_solver.

(** ** Each member function refines its operation on sequences *)
Section refinement.
Implicit Types (xs : list ptr) (p : ptr).
Lemma push_front_wp s xs p :
  lrep s xs -> p ∉ xs -> unlinked s p ->
  wp (XList.push_front p) s (fun _ s' =>
    lrep s' (Seq.push_front p xs) /\ unchanged (p :: xs) s s').
Proof.
  intros [Hseg Hnd Hh Ht Hn] Hp Hu. destruct s as [m h t n]. cbn [mem head_ tail_ size_] in *. subst h t n.
  unfold unlinked, reset_list_node_base in Hu. cbn in Hu.
  unfold XList.push_front. destruct xs as [|x xs]; cbn [head].
  - cbn; wp_l. split; [|links_unchanged].
    split; cbn; try done; [by simplify_map_eq|apply NoDup_singleton].
  - destruct Hseg as [Hx Hseg]. assert (p ≠ x) by set_solver.
    apply NoDup_cons in Hnd as Hnd'; destruct Hnd' as [Hxs _].
    wp_l. rewrite is_null_last_cons. wp_l. split; [|links_unchanged]. 
    split; cbn.
    + dseg_frames.
    + by constructor.
    + done.
    + done.
    + apply u32_succ.
Qed.
Lemma push_back_wp s xs p :
  lrep s xs -> p ∉ xs -> unlinked s p ->
  wp (XList.push_back p) s (fun _ s' =>
    lrep s' (Seq.push_back p xs) /\ unchanged (p :: xs) s s').
Proof.
  intros [Hseg Hnd Hh Ht Hn] Hp Hu. destruct s as [m h t n]. cbn [mem head_ tail_ size_] in *. subst h t n.
  unfold unlinked, reset_list_node_base in Hu. cbn in Hu.
  unfold XList.push_back. destruct xs as [|x xs _] using rev_ind; cbn [head last].
  - cbn; wp_l. split; [|links_unchanged].
    split; cbn; try done; [by simplify_map_eq|apply NoDup_singleton].
  - apply dseg_app in Hseg as [Hseg [Hx _]]. assert (p ≠ x) by set_solver. rewrite last_snoc.
    assert (x ∉ xs) by (apply NoDup_app in Hnd; set_solver). wp_l. 
    assert (is_null (head (xs ++ [x])) = false) as -> by by destruct xs.
    wp_l. split; [|links_unchanged]. 
    split; cbn. unfold Seq.push_back.
    + dseg_frames.
    + by apply NoDup_snoc.
    + by destruct xs.
    + unfold Seq.push_back. by rewrite last_snoc.
    + rewrite u32_succ. unfold Seq.push_back. rewrite !length_app. do 2 f_equal. cbn. lia.
Qed.

Lemma pop_front_wp s xs :
  lrep s xs ->
  wp XList.pop_front s (fun r s' =>
    r = (Seq.pop_front xs).1 /\ lrep s' (Seq.pop_front xs).2
    /\ unchanged xs s s' /\ (forall p, r = Some p -> unlinked s' p)).
Proof.
  intros [Hseg Hnd Hh Ht Hn]. destruct s as [m h t n]. cbn [mem head_ tail_ size_] in *. subst h t n.
  unfold XList.pop_front. destruct xs as [|x [|y xs]]; cbn [head tail fst snd dseg fst_or] in *.
  - wp_l. split_and!; try done. 
  - destruct Hseg as [Hx _]. wp_l. split_and!; [done| |links_unchanged|].
    + split; cbn; try done. apply NoDup_nil_2.
    + intros ? [= <-]. unfold unlinked. by simplify_map_eq.
  - destruct Hseg as (Hx&Hy&Hseg).
    assert (x ≠ y /\ x ∉ xs /\ y ∉ xs) as (?&?&?) by (rewrite !NoDup_cons in Hnd; set_solver).
    wp_l. 
    assert (last (x :: y :: xs) <> Some x).
    { rewrite !last_cons. destruct (last xs) as [z|] eqn:E; [|congruence]. apply last_Some_elem_of in E. set_solver. }
    wp_l. split_and!; [done| |links_unchanged|].
    + split; cbn; try done. 
      * dseg_frames.
      * by apply NoDup_cons in Hnd as [_ ?].
      * apply u32_pred.
    + intros ? [= <-]. unfold unlinked. by simplify_map_eq.
Qed.

Lemma pop_back_snoc xs p : Seq.pop_back (xs ++ [p]) = (Some p, xs).
Proof.
  unfold Seq.pop_back.
  rewrite last_snoc, length_app, take_app_length'; [done|cbn; lia].
Qed.

Lemma pop_back_wp s xs :
  lrep s xs ->
  wp XList.pop_back s (fun r s' =>
    r = (Seq.pop_back xs).1 /\ lrep s' (Seq.pop_back xs).2
    /\ unchanged xs s s' /\ (forall p, r = Some p -> unlinked s' p)).
Proof.
  intros [Hseg Hnd Hh Ht Hn]. destruct s as [m h t n].
  cbn [mem head_ tail_ size_] in *. subst h t n.
  unfold XList.pop_back. destruct xs as [|x xs _] using rev_ind.
  { cbn [last]. wp_l. split_and!; try done. }
  rewrite pop_back_snoc.
  assert (x ∉ xs /\ NoDup xs) as [Hx Hnd'] by (apply NoDup_app in Hnd; set_solver).
  apply dseg_app in Hseg as [Hseg [Hn _]]. cbn [fst_or] in *.
  rewrite last_snoc, length_app, Nat.add_1_r.
  destruct xs as [|y xs _] using rev_ind.
  - cbn in *. cbn [lst_or] in *. wp_l. split_and!; [done| |links_unchanged|].
    + by split.
    + intros ? [= <-]. unfold unlinked. by simplify_map_eq.
  - apply dseg_app in Hseg as [Hseg [Hy _]]. rewrite lst_or_snoc in *. cbn [fst_or] in *.
    assert (y ∉ xs /\ x ≠ y) as [??] by (apply NoDup_app in Hnd'; set_solver).
    wp_l. 
    assert (head ((xs ++ [y]) ++ [x]) <> Some x) by (destruct xs; set_solver).
    wp_l. split_and!; [done| |links_unchanged|].
    + split; cbn [mem head_ tail_ size_ set const].
      * dseg_frames.
      * done.
      * by destruct xs.
      * cbn [snd]; by rewrite last_snoc.
      * apply u32_pred.
    + intros ? [= <-]. unfold unlinked. by simplify_map_eq.
Qed.
Lemma remove_wp s xs p :
  lrep s xs -> p ∈ xs ->
  wp (XList.remove p) s (fun _ s' =>
    lrep s' (Seq.remove p xs) /\ unchanged xs s s' /\ unlinked s' p).
Proof.
  intros [Hseg Hnd Hh Ht Hn] (l1&l2&->)%list_elem_of_split.
  rewrite Seq.remove_middle by done.
  destruct s as [m h t n]. cbn [mem head_ tail_ size_] in *. subst h t n.
  assert (p ∉ l1 ++ l2 /\ NoDup (l1 ++ l2)) as [Hp Hnd'].
  { rewrite <- Permutation_middle in Hnd. by apply NoDup_cons in Hnd. }
  apply dseg_app in Hseg as (Hseg1&Hpm&Hseg2). cbn [fst_or] in *.
  unfold XList.remove.
  destruct l1 as [|a l1 _] using rev_ind; destruct l2 as [|b l2];
    rewrite ?lst_or_snoc in *; cbn [fst_or] in *;
    try change (lst_or None []) with (@None ptr) in *.
  - cbn. wp_l. split_and!; [|links_unchanged|unfold unlinked; by simplify_map_eq].
    split; try done.
  - cbn [app lst_or head].
    assert (last (p :: b :: l2) <> Some p).
    { rewrite last_cons_cons. intros ?%last_Some_elem_of. set_solver. }
    assert (p ≠ b) by set_solver. assert (b ∉ l2) by (apply NoDup_cons in Hnd'; tauto).
    cbn [dseg] in Hseg2. destruct Hseg2 as [Hb Hseg2].
    wp_l. split_and!; [|links_unchanged|unfold unlinked; by simplify_map_eq].
    split; cbn [mem head_ tail_ size_ set const app].
    + dseg_frames.
    + done.
    + done.
    + done.
    + apply u32_pred.
  - rewrite last_snoc.
    assert (head ((l1 ++ [a]) ++ [p]) <> Some p) by (destruct l1; set_solver).
    assert (p ≠ a) by set_solver. assert (a ∉ l1) by (rewrite app_nil_r in Hnd'; apply NoDup_app in Hnd'; set_solver).
    apply dseg_app in Hseg1 as (Hseg1&Ha&_). cbn [fst_or] in *.
    wp_l. split_and!; [|links_unchanged|unfold unlinked; by simplify_map_eq].
    split; cbn [mem head_ tail_ size_ set const app]; rewrite ?app_nil_r in *.
    + dseg_frames.
    + done.
    + by destruct l1.
    + by rewrite last_snoc.
    + rewrite !length_app. cbn [length]. rewrite (Nat.add_comm _ 1). cbn. apply u32_pred.
  - assert (head ((l1 ++ [a]) ++ p :: b :: l2) <> Some p) by (destruct l1; set_solver).
    assert (last ((l1 ++ [a]) ++ p :: b :: l2) <> Some p).
    { rewrite last_app_cons, last_cons_cons. intros ?%last_Some_elem_of. set_solver. }
    assert (a ∉ l1 /\ b ∉ l2 /\ a ≠ b /\ a ∉ l2 /\ b ∉ l1) as (?&?&?&?&?).
    { rewrite !NoDup_app, !NoDup_cons in Hnd'. set_solver. }
    assert (p ≠ a) by set_solver. assert (p ≠ b) by set_solver.
    apply dseg_app in Hseg1 as (Hseg1&Ha&_). cbn [fst_or dseg] in *.
    destruct Hseg2 as [Hb Hseg2].
    wp_l. split_and!; [|links_unchanged|unfold unlinked; by simplify_map_eq].
    split; cbn [mem head_ tail_ size_ set const]; rewrite <- ?app_assoc in *; cbn [app] in *.
    + dseg_frames.
    + done.
    + by destruct l1.
    + by rewrite !last_app_cons, !last_cons_cons.
    + rewrite !length_app. cbn [length]. rewrite <- !plus_n_Sm. apply u32_pred.
Qed.

Lemma move_to_front_wp s xs p :
  lrep s xs -> p ∈ xs ->
  wp (XList.move_to_front p) s (fun _ s' =>
    lrep s' (Seq.move_to_front p xs) /\ unchanged xs s s').
Proof.
  intros [Hseg Hnd Hh Ht Hn] (l1&l2&->)%list_elem_of_split.
  unfold Seq.move_to_front. rewrite Seq.remove_middle by done.
  destruct s as [m h t n]. cbn [mem head_ tail_ size_] in *. subst h t n.
  assert (p ∉ l1 ++ l2 ∧ NoDup (l1 ++ l2)) as [Hp Hnd'].
  { rewrite <- Permutation_middle in Hnd. by apply NoDup_cons in Hnd. }
  assert (NoDup (p :: l1 ++ l2)) by by constructor.
  pose proof (length_move l1 l2 p) as Hlen.
  pose proof Hseg as (_&Hpm&_)%dseg_app.
  unfold XList.move_to_front. destruct l1 as [|h l1].
  { apply dseg_app in Hseg as (_&_&Hseg2). cbn [fst_or] in *. cbn [app head] in *.
    change (lst_or None []) with (@None ptr) in *.
    destruct l2 as [|b l2]; [|assert (p ≠ b) by set_solver]; cbn [fst_or] in *; wp_l;
      (split; [by split|links_unchanged]). }
  assert (h <> p) by set_solver. cbn [app head] in *.
  assert (h ∉ l1 ++ l2 ∧ NoDup (l1 ++ l2)) as [? Hnd2] by by apply NoDup_cons in Hnd'.
  cbn [dseg] in Hseg. destruct Hseg as [Hhm Hseg].
  destruct l1 as [|a l1 _] using rev_ind; destruct l2 as [|b l2]; cbn [lst_or app fst_or] in *.
  - cbn. wp_l. split; [|links_unchanged]. 
    split; cbn [mem head_ tail_ size_ set const]; [dseg_frames|done..].
  - cbn [dseg] in Hseg. destruct Hseg as (_&Hbm&Hseg2).
    rewrite !last_cons_cons in *.
    assert (last (b :: l2) <> Some p) by (intros ?%last_Some_elem_of; set_solver).
    assert (p ≠ b) by set_solver. assert (h ≠ b) by set_solver.
    assert (b ∉ l2) by (apply NoDup_cons in Hnd2; tauto).
    wp_l. split; [|links_unchanged].
    split; cbn [mem head_ tail_ size_ set const]; [dseg_frames|done..].
  - rewrite app_nil_r in *. apply dseg_app in Hseg as (Hseg&_).
    apply dseg_app in Hseg as (Hseg&Ham&_). cbn [fst_or] in *.
    assert (a ∉ l1) by (apply NoDup_app in Hnd2; set_solver).
    assert (a ≠ p) by set_solver. assert (a ≠ h) by set_solver.
    assert (lst_or (Some h) (l1 ++ [a]) = Some a) as Ela by apply lst_or_snoc.
    rewrite app_comm_cons, last_snoc. 
    rewrite lst_or_snoc in Hpm.
    wp_l. split; [|links_unchanged].
    split; cbn [mem head_ tail_ size_ set const]; [|done|done| |].
    + rewrite !fst_or_app in *. dseg_frames.
    + by rewrite !last_cons, last_snoc.
    + same_length.
  - rewrite <- !app_assoc in *. cbn [app] in *.
    apply dseg_app in Hseg as (Hseg&Ham&_&Hseg2). cbn [fst_or lst_or dseg] in *.
    destruct Hseg2 as [Hbm Hseg2].
    assert (a ∉ l1 ∧ b ∉ l2 ∧ a ≠ b ∧ a ∉ l2 ∧ b ∉ l1) as (?&?&?&?&?).
    { rewrite !NoDup_app, !NoDup_cons in Hnd2. set_solver. }
    assert (a ≠ p) by set_solver. assert (a ≠ h) by set_solver.
    assert (p ≠ b) by set_solver. assert (h ≠ b) by set_solver.
    rewrite lst_or_snoc in Hpm.
    rewrite app_comm_cons, last_app_cons, !last_cons_cons.
    assert (last (b :: l2) <> Some p) by (intros ?%last_Some_elem_of; set_solver).
    wp_l. split; [|links_unchanged].
    split; cbn [mem head_ tail_ size_ set const]; [|done|done| |].
    + rewrite !fst_or_app in *. dseg_frames.
    + by rewrite !app_comm_cons, last_app_cons, last_cons_cons.
    + same_length.
Qed.

Lemma move_to_back_wp s xs p :
  lrep s xs -> p ∈ xs ->
  wp (XList.move_to_back p) s (fun _ s' =>
    lrep s' (Seq.move_to_back p xs) /\ unchanged xs s s').
Proof.
  intros Hrep (l1&l2&->)%list_elem_of_split. pose proof Hrep as [Hseg Hnd Hh Ht Hn].
  unfold Seq.move_to_back. rewrite Seq.remove_middle by done.
  destruct s as [m h t n]. cbn [mem head_ tail_ size_] in *. subst h t n.
  assert (p ∉ l1 ++ l2 ∧ NoDup (l1 ++ l2)) as [Hp Hnd'].
  { rewrite <- Permutation_middle in Hnd. by apply NoDup_cons in Hnd. }
  assert (NoDup ((l1 ++ l2) ++ [p])) by by apply NoDup_snoc.
  apply dseg_app in Hseg as (Hseg1&Hpm&Hseg2). cbn [fst_or lst_or] in *.
  unfold XList.move_to_back. destruct l2 as [|t l2 _] using rev_ind.
  { rewrite !last_snoc, !app_nil_r in *.
    destruct l1 as [|b l1 _] using rev_ind; [|assert (p ≠ b) by set_solver];
      rewrite ?lst_or_snoc in *; cbn [fst_or lst_or] in *; wp_l;
      (split; [exact Hrep|links_unchanged]). }
  assert (t <> p) by set_solver.
  rewrite app_comm_cons, (app_assoc l1 (p :: l2)) in *. rewrite last_snoc.
  rewrite (app_assoc l1 l2) in *.
  assert (t ∉ l1 ++ l2 ∧ NoDup (l1 ++ l2)) as [? Hnd2] by (apply NoDup_app in Hnd'; set_solver).
  apply dseg_app in Hseg2 as (Hseg2&Htm&_). cbn [fst_or] in *.
  destruct l1 as [|a l1 _] using rev_ind; destruct l2 as [|b l2]; cbn [lst_or app fst_or head] in *.
  - wp_l. split; [|links_unchanged]. 
    split; cbn [mem head_ tail_ size_ set const]; [dseg_frames|done..].
  - cbn [dseg] in Hseg2. destruct Hseg2 as [Hbm Hseg2].
    assert (p ≠ b) by set_solver. assert (t ≠ b) by set_solver.
    assert (b ∉ l2) by (apply NoDup_cons in Hnd2; tauto).
    wp_l. split; [|links_unchanged].
    split; cbn [mem head_ tail_ size_ set const]; [|done|done| |].
    + rewrite <- app_assoc. cbn [app]. dseg_frames.
    + by rewrite ?last_cons, last_snoc.
    + same_length.
  - rewrite app_nil_r in *. apply dseg_app in Hseg1 as (Hseg1&Ham&_). cbn [fst_or] in *.
    assert (a ∉ l1) by (apply NoDup_app in Hnd2; set_solver).
    assert (a ≠ p) by set_solver. assert (a ≠ t) by set_solver.
    assert (head (((l1 ++ [a]) ++ [p]) ++ [t]) <> Some p) by (destruct l1; set_solver).
    rewrite lst_or_snoc in *.
    wp_l. split; [|links_unchanged].
    split; cbn [mem head_ tail_ size_ set const]; [|done| | |].
    + rewrite <- !app_assoc. cbn [app]. dseg_frames.
    + by destruct l1.
    + by rewrite ?last_cons, last_snoc.
    + same_length.
  - apply dseg_app in Hseg1 as (Hseg1&Ham&_). cbn [fst_or dseg] in *.
    destruct Hseg2 as [Hbm Hseg2].
    assert (a ∉ l1 ∧ b ∉ l2 ∧ a ≠ b ∧ a ∉ l2 ∧ b ∉ l1) as (?&?&?&?&?).
    { rewrite !NoDup_app, !NoDup_cons in Hnd2. set_solver. }
    assert (a ≠ p) by set_solver. assert (a ≠ t) by set_solver.
    assert (p ≠ b) by set_solver. assert (t ≠ b) by set_solver.
    assert (head (((l1 ++ [a]) ++ p :: b :: l2) ++ [t]) <> Some p) by (destruct l1; set_solver).
    rewrite lst_or_snoc in *.
    wp_l. split; [|links_unchanged].
    split; cbn [mem head_ tail_ size_ set const]; [|done| | |].
    + rewrite <- !app_assoc. cbn [app]. dseg_frames.
    + by destruct l1.
    + by rewrite ?last_cons, last_snoc.
    + same_length.
Qed.
End refinement.

(** ** The list as a component: its operations, their specification on
    sequences, and the simulation between the two *)

Inductive list_op :=
  | OpPushFront (p : ptr) | OpPushBack (p : ptr) | OpPopFront | OpPopBack
  | OpRemove (p : ptr) | OpMoveToFront (p : ptr) | OpMoveToBack (p : ptr)
  | OpFront | OpBack | OpNext (p : ptr) | OpPrev (p : ptr)
  | OpSize | OpEmpty | OpIsLinked (p : ptr).

Inductive list_val :=
  | VUnit | VPtr (o : option ptr) | VSize (n : Z) | VBool (b : bool).

Definition list_exec (o : list_op) : L list_val :=
  match o with
  | OpPushFront p => XList.push_front p;; mret VUnit
  | OpPushBack p => XList.push_back p;; mret VUnit
  | OpPopFront => r ← XList.pop_front; mret (VPtr r)
  | OpPopBack => r ← XList.pop_back; mret (VPtr r)
  | OpRemove p => XList.remove p;; mret VUnit
  | OpMoveToFront p => XList.move_to_front p;; mret VUnit
  | OpMoveToBack p => XList.move_to_back p;; mret VUnit
  | OpFront => r ← XList.front; mret (VPtr r)
  | OpBack => r ← XList.back; mret (VPtr r)
  | OpNext p => r ← XList.next (Some p); mret (VPtr r)
  | OpPrev p => r ← XList.prev (Some p); mret (VPtr r)
  | OpSize => r ← XList.size; mret (VSize r)
  | OpEmpty => r ← XList.empty; mret (VBool r)
  | OpIsLinked p => r ← XList.is_linked p; mret (VBool r)
  end.

(** The element after (before) [p] in a sequence. *)
Fixpoint succ_in (p : ptr) (xs : list ptr) : option ptr :=
  match xs with
  | [] => None
  | x :: xs => if bool_decide (x = p) then head xs else succ_in p xs
  end.
Definition pred_in (p : ptr) (xs : list ptr) : option ptr := succ_in p (reverse xs).

Definition list_spec (o : list_op) (xs : list ptr) : list_val * list ptr :=
  match o with
  | OpPushFront p => (VUnit, Seq.push_front p xs)
  | OpPushBack p => (VUnit, Seq.push_back p xs)
  | OpPopFront => (VPtr (Seq.pop_front xs).1, (Seq.pop_front xs).2)
  | OpPopBack => (VPtr (Seq.pop_back xs).1, (Seq.pop_back xs).2)
  | OpRemove p => (VUnit, Seq.remove p xs)
  | OpMoveToFront p => (VUnit, Seq.move_to_front p xs)
  | OpMoveToBack p => (VUnit, Seq.move_to_back p xs)
  | OpFront => (VPtr (head xs), xs)
  | OpBack => (VPtr (last xs), xs)
  | OpNext p => (VPtr (succ_in p xs), xs)
  | OpPrev p => (VPtr (pred_in p xs), xs)
  | OpSize => (VSize (u32 (Z.of_nat (length xs))), xs)
  | OpEmpty => (VBool (bool_decide (xs = [])), xs)
  | OpIsLinked p => (VBool (bool_decide (p ∈ xs)), xs)
  end.

(** What a caller owes: an element is pushed only when it is in no list, and
    removed, moved or followed only when it is in this one. *)
Definition list_pre (o : list_op) (xs : list ptr) : Prop :=
  match o with
  | OpPushFront p | OpPushBack p => p ∉ xs
  | OpRemove p | OpMoveToFront p | OpMoveToBack p | OpNext p | OpPrev p => p ∈ xs
  | _ => True
  end.

Definition op_elem (o : list_op) : option ptr :=
  match o with
  | OpPushFront p | OpPushBack p | OpRemove p | OpMoveToFront p | OpMoveToBack p
  | OpNext p | OpPrev p | OpIsLinked p => Some p
  | _ => None
  end.

Definition op_elems (o : list_op) : list ptr :=
  match op_elem o with Some p => [p] | None => [] end.

(** The list represents [xs], and the elements of [us] that are not in it are
    free. *)
Definition lworld (us : list ptr) (s : lst) (xs : list ptr) : Prop :=
  lrep s xs /\ (forall p, p ∈ us -> p ∉ xs -> unlinked s p).

Section simulation.
Implicit Types (xs us : list ptr) (p : ptr).

Lemma succ_in_middle p l1 l2 : p ∉ l1 -> succ_in p (l1 ++ p :: l2) = head l2.
Proof.
  induction l1 as [|x l1 IH]; intros Hp; cbn.
  - by rewrite bool_decide_eq_true_2.
  - rewrite bool_decide_eq_false_2 by set_solver. apply IH. set_solver.
Qed.

Lemma head_reverse (l : list ptr) : head (reverse l) = lst_or None l.
Proof.
  destruct l as [|x l _] using rev_ind; [done|].
  by rewrite reverse_app, lst_or_snoc.
Qed.

Lemma lookup_links s xs p :
  lrep s xs -> p ∈ xs -> mem s !! p = Some (mknode (succ_in p xs) (pred_in p xs)).
Proof.
  intros [Hseg Hnd _ _ _] (l1&l2&->)%list_elem_of_split.
  apply dseg_app in Hseg as (_&Hp&_).
  assert (p ∉ l1 /\ p ∉ l2) as [H1 H2].
  { rewrite NoDup_app, NoDup_cons in Hnd. set_solver. }
  unfold pred_in. rewrite reverse_app, reverse_cons, <- app_assoc. cbn [app].
  rewrite !succ_in_middle by set_solver. rewrite head_reverse, Hp.
  by destruct l2.
Qed.

Lemma is_linked_wp s xs p us :
  lworld us s xs -> p ∈ us \/ p ∈ xs ->
  wp (XList.is_linked p) s (fun r s' => r = bool_decide (p ∈ xs) /\ s' = s).
Proof.
  intros [Hr Hu] Hp. unfold XList.is_linked. destruct (decide (p ∈ xs)) as [Hin|Hn].
  - pose proof (lookup_links _ _ _ Hr Hin) as Hl. wp_l. split; [|done].
    rewrite (bool_decide_eq_true_2 (p ∈ xs)) by done.
    destruct (succ_in p xs) eqn:Es; [done|]; destruct (pred_in p xs) eqn:Ep; [done|].
    destruct Hr as [Hseg Hnd -> -> _].
    apply list_elem_of_split in Hin as (l1&l2&->).
    assert (p ∉ l1 /\ p ∉ l2) as [H1 H2].
    { rewrite NoDup_app, NoDup_cons in Hnd. set_solver. }
    rewrite succ_in_middle in Es by done. unfold pred_in in Ep.
    rewrite reverse_app, reverse_cons, <- app_assoc in Ep. cbn [app] in Ep.
    rewrite succ_in_middle, head_reverse in Ep by set_solver.
    destruct l2; [|done]. destruct l1 as [|x l1 _] using rev_ind; [|by rewrite lst_or_snoc in Ep].
    cbn. by rewrite !bool_decide_eq_true_2.
  - destruct Hp as [Hp|]; [|done]. specialize (Hu p Hp Hn).
    unfold unlinked in Hu. wp_l. split; [|done].
    rewrite (bool_decide_eq_false_2 (p ∈ xs)) by done. cbn.
    destruct Hr as [_ _ -> _ _]. rewrite bool_decide_eq_false_2; [done|].
    intros E. apply Hn. destruct xs; [done|]. injection E as ->. by left.
Qed.

(** From an unchanged memory outside, free elements stay free. *)
Lemma unlinked_unchanged s s' xs xs' us ys :
  lworld us s xs -> lrep s' xs' -> unchanged ys s s' ->
  (forall p, p ∈ ys -> p ∉ xs' -> unlinked s' p) -> (forall p, p ∈ xs -> p ∈ xs' \/ p ∈ ys) ->
  lworld us s' xs'.
Proof.
  intros [Hr Hu] Hr' Hun Hys Hxs. split; [done|]. intros p Hp Hp'.
  destruct (decide (p ∈ ys)); [by apply Hys|].
  unfold unlinked. rewrite Hun by done. apply Hu; [done|].
  intros Hin. destruct (Hxs p Hin); done.
Qed.

Lemma unchanged_sub xs ys s s' :
  (forall p, p ∈ xs -> p ∈ ys) -> unchanged xs s s' -> unchanged ys s s'.
Proof. intros Hsub Hun q Hq. apply Hun. auto. Qed.

Lemma lrep_frame s t ys :
  lrep t ys -> (forall q, q ∈ ys -> mem s !! q = mem t !! q) ->
  lrep (t <| mem := mem s |>) ys.
Proof.
  intros [Hseg ????] Hm. split; try done. cbn. by eapply dseg_frame.
Qed.

Lemma list_exec_wp us s xs o :
  lworld us s xs -> list_pre o xs ->
  (forall p, op_elem o = Some p -> p ∈ us \/ p ∈ xs) ->
  wp (list_exec o) s (fun r s' =>
    (r = (list_spec o xs).1 /\ lworld us s' (list_spec o xs).2)
    /\ unchanged (op_elems o ++ xs) s s').
Proof.
  intros Hw Hpre Hel. pose proof Hw as [Hr Hu].
  assert (forall p, p ∉ xs -> p ∈ us \/ p ∈ xs -> unlinked s p) as Hfree.
  { intros p Hp [?|?]; [|done]. by apply Hu. }
  destruct o; cbn [list_exec list_spec list_pre op_elems op_elem fst snd app] in *; apply wp_bind.
  - eapply wp_mono; [apply push_front_wp; eauto|]. intros [] s' [? Hun].
    apply wp_ret. split; [split; [done|]|by eapply unchanged_sub; [|eassumption]; set_solver]. eapply unlinked_unchanged; eauto; set_solver.
  - eapply wp_mono; [apply push_back_wp; eauto|]. intros [] s' [? Hun].
    apply wp_ret. split; [split; [done|]|by eapply unchanged_sub; [|eassumption]; set_solver]. eapply unlinked_unchanged; eauto; set_solver.
  - eapply wp_mono; [apply pop_front_wp; eauto|]. intros r s' (->&?&?&Hf).
    apply wp_ret. split; [split; [done|]|by eapply unchanged_sub; [|eassumption]; set_solver]. eapply unlinked_unchanged; eauto.
    intros p Hp Hp'. apply Hf. destruct xs; [set_solver|]. cbn in *.
    f_equal. set_solver.
  - eapply wp_mono; [apply pop_back_wp; eauto|]. intros r s' (->&?&?&Hf).
    apply wp_ret. split; [split; [done|]|by eapply unchanged_sub; [|eassumption]; set_solver]. eapply unlinked_unchanged; eauto.
    intros p Hp Hp'. apply Hf. destruct xs as [|x xs _] using rev_ind; [set_solver|].
    rewrite pop_back_snoc in *. cbn in *. f_equal. set_solver.
  - eapply wp_mono; [apply remove_wp; eauto|]. intros [] s' (?&?&?).
    apply wp_ret. split; [split; [done|]|by eapply unchanged_sub; [|eassumption]; set_solver]. eapply unlinked_unchanged; eauto.
    intros q Hq. rewrite Seq.elem_of_remove. destruct (decide (q = p)) as [->|]; naive_solver.
  - eapply wp_mono; [apply move_to_front_wp; eauto|]. intros [] s' (?&?).
    apply wp_ret. split; [split; [done|]|by eapply unchanged_sub; [|eassumption]; set_solver]. eapply unlinked_unchanged; eauto;
    intros q Hq; unfold Seq.move_to_front; rewrite elem_of_cons, Seq.elem_of_remove;
      destruct (decide (q = p)); naive_solver.
  - eapply wp_mono; [apply move_to_back_wp; eauto|]. intros [] s' (?&?).
    apply wp_ret. split; [split; [done|]|by eapply unchanged_sub; [|eassumption]; set_solver]. eapply unlinked_unchanged; eauto;
    intros q Hq; unfold Seq.move_to_back; rewrite elem_of_app, list_elem_of_singleton, Seq.elem_of_remove;
      destruct (decide (q = p)); naive_solver.
  - wp_steps. unfold XList.front. wp_steps. split; [split; [|done]|done]. by destruct Hr as [_ _ -> _ _].
  - wp_steps. unfold XList.back. wp_steps. split; [split; [|done]|done]. by destruct Hr as [_ _ _ -> _].
  - pose proof (lookup_links _ _ _ Hr Hpre). unfold XList.next. wp_l. by split.
  - pose proof (lookup_links _ _ _ Hr Hpre). unfold XList.prev. wp_l. by split.
  - wp_steps. unfold XList.size. wp_steps. split; [split; [|done]|done]. by destruct Hr as [_ _ _ _ ->].
  - wp_steps. unfold XList.empty. wp_steps. split; [split; [|done]|done]. destruct Hr as [_ _ -> _ _].
    destruct xs; [by rewrite bool_decide_eq_true_2|by rewrite bool_decide_eq_false_2].
  - eapply wp_mono; [eapply is_linked_wp; eauto|]. intros r s' (->&->).
    apply wp_ret. by split.
Qed.

(** Running a sequence of operations. *)
Fixpoint list_run (os : list list_op) : L (list list_val) :=
  match os with
  | [] => mret []
  | o :: os => v ← list_exec o; vs ← list_run os; mret (v :: vs)
  end.
Fixpoint spec_run (os : list list_op) (xs : list ptr) : list list_val * list ptr :=
  match os with
  | [] => ([], xs)
  | o :: os =>
      let '(v, xs1) := list_spec o xs in
      let '(vs, xs2) := spec_run os xs1 in (v :: vs, xs2)
  end.
Fixpoint run_pre (us : list ptr) (os : list list_op) (xs : list ptr) : Prop :=
  match os with
  | [] => True
  | o :: os => list_pre o xs /\ (forall p, op_elem o = Some p -> p ∈ us)
               /\ run_pre us os (list_spec o xs).2
  end.

Lemma list_run_wp us s xs os :
  lworld us s xs -> run_pre us os xs ->
  wp (list_run os) s (fun vs s' =>
    vs = (spec_run os xs).1 /\ lworld us s' (spec_run os xs).2).
Proof.
  revert s xs. induction os as [|o os IH]; intros s xs Hw; cbn [run_pre]; [by intros _|].
  intros (Hpre&Hel&Hrest). cbn [list_run spec_run]. apply wp_bind.
  eapply wp_mono; [apply list_exec_wp; eauto|]. intros v s1 [[-> Hw1] _].
  destruct (list_spec o xs) as [v xs1]. cbn in *. apply wp_bind.
  eapply wp_mono; [apply IH; eauto|]. intros vs s2 [-> Hw2].
  destruct (spec_run os xs1) as [vs xs2]. by apply wp_ret.
Qed.
End simulation.

(** A newly constructed list object over memory whose elements are free. *)
Definition list_init (us : list ptr) : lst :=
  mklst (list_to_map (map (fun p => (p, reset_list_node_base)) us)) None None 0.

Lemma list_init_world us : lworld us (list_init us) [].
Proof.
  split.
  - split; try done. apply NoDup_nil_2.
  - intros p Hp _. unfold unlinked, list_init. cbn.
    induction us as [|q us IH]; [set_solver|]. cbn.
    destruct (decide (p = q)) as [->|]; [by simplify_map_eq|].
    rewrite lookup_insert_ne by done. apply IH. set_solver.
Qed.

(** ** Properties *)

(** C18. Every member function of [xixi::list] refines its sequence operation:
    from a newly constructed list over free elements, any run of operations
    whose callers keep their side ([list_pre]) fails no assertion, dereferences
    no bad pointer, returns exactly what the sequence operations return, and
    ends in a list object that represents the resulting sequence, with every
    element outside it free again. *)
Theorem list_refines_sequence us os :
  run_pre us os [] ->
  exists s', run (list_run os) (list_init us) ((spec_run os []).1, s')
    /\ lworld us s' (spec_run os []).2.
Proof.
  intros Hpre.
  pose proof (list_run_wp us _ _ os (list_init_world us) Hpre) as H.
  apply wp_run in H as (vs&s'&Hr&->&Hw). by exists s'.
Qed.

Definition demo_ops : list list_op :=
  [OpPushBack 1; OpPushFront 2; OpPushBack 3; OpMoveToFront 1; OpRemove 2;
   OpIsLinked 2; OpNext 1; OpPrev 3; OpMoveToBack 1; OpPopFront; OpSize; OpPopBack; OpEmpty]%positive.

Lemma list_refines_sequence_witness :
  exists s', run (list_run demo_ops) (list_init [1; 2; 3]%positive)
    ([VUnit; VUnit; VUnit; VUnit; VUnit; VBool false; VPtr (Some 3%positive);
      VPtr (Some 1%positive); VUnit; VPtr (Some 3%positive); VSize 1;
      VPtr (Some 1%positive); VBool true], s').
Proof.
  destruct (list_refines_sequence [1; 2; 3]%positive demo_ops) as (s'&Hr&_).
  - cbn. repeat split; try (intros ? [= <-]); try done;
      by apply (bool_decide_eq_true_1 _); vm_compute.
  - exists s'. exact Hr.
Defined.

(** Two lists that thread the same memory do not disturb each other: an
    operation on one list leaves another list, with no element in common,
    representing the sequence it represented. *)
Theorem list_op_frame us s t xs ys o :
  lworld us s xs -> list_pre o xs ->
  (forall p, op_elem o = Some p -> p ∈ us \/ p ∈ xs) ->
  lrep t ys -> mem t = mem s -> op_elems o ++ xs ## ys ->
  wp (list_exec o) s (fun _ s' => lrep (t <| mem := mem s' |>) ys).
Proof.
  intros Hw Hpre Hel Ht Hm Hd. eapply wp_mono; [by apply list_exec_wp|].
  intros _ s' [_ Hun]. apply lrep_frame; [done|]. intros q Hq.
  rewrite Hm. apply Hun. set_solver.
Qed.

Lemma list_op_frame_witness :
  let s := list_init [1; 2; 3]%positive in
  let t := mklst (mem s) (Some 2%positive) (Some 2%positive) 1 in
  wp (list_exec (OpPushBack 1)) s (fun _ s' => lrep (t <| mem := mem s' |>) [2%positive]).
Proof.
  apply (list_op_frame [1; 2; 3]%positive _ _ []).
  - apply list_init_world.
  - cbn. set_solver.
  - intros ? [= <-]. set_solver.
  - split; try done; apply NoDup_singleton.
  - done.
  - cbn. set_solver.
Defined.
