(* ===== verification/XixiHashMap.v ===== *)
(** * The intrusive chained hash map, [src/src/xixi_hash_map.hpp]

    [xixi::hash_map<K, T, PK>] chains the elements themselves through their
    [hash_next_] member and keeps the array of chain heads.  This file has

    - module [HMap]: the map as the program lays it out, a memory of nodes and
      an array of pointers, with every loop of the source a loop with fuel;
    - module [Buckets]: the same operations on the chains read as sequences,
      which the cache manager is modelled against;
    - that [HMap] implements [Buckets] operation by operation (so no loop runs
      out of fuel), and that [Buckets] implements a finite collection of
      elements with unique keys. *)

From S2P Require Import Prelude.
From S2P Require Import XixiList.

(** [default_PK::is_key]: the template parameter that compares a key with an
    element, lines 63-66. *)
Class PK (K T : Type) := is_key : K -> T -> bool.

(** Whether [malloc] grants the new array of an expansion of that many
    buckets. *)
Class Table_Malloc := malloc_table : Z -> bool.

(** [next_bucket_size], lines 89-101. *)
Definition bucket_sizes : list Z :=
  [3; 7; 13; 23; 53; 97; 193; 389; 769; 1543; 3079; 6151; 12289; 24593;
   49157; 98317; 196613; 393241; 786433; 1572869; 3145739; 6291469;
   12582917; 25165843].
Definition next_bucket_size (size : Z) : Z :=
  match list_find (fun s => s > size) bucket_sizes with
  | Some (_, s) => s
  | None => u32 (size * 2)
  end.

(** The member [expand_size_] for a number of buckets, lines 73 and 212. *)
Definition expand_size_of (bucket_size : Z) : Z := u32 (bucket_size * 3) / 2.

(** ** The map over chains read as sequences *)
Module Buckets.
Record buckets := mkbuckets {
  bucket_size_ : Z;
  expand_size_ : Z;
  table_ : list (list ptr);
  size_ : Z
}.

(** The constructor, lines 70-81. *)
Definition init (bucket_size : Z) : buckets :=
  mkbuckets bucket_size (expand_size_of bucket_size)
    (replicate (Z.to_nat bucket_size) []) 0.

Definition slot (b : buckets) (hash_value : Z) : nat :=
  Z.to_nat (hash_value mod bucket_size_ b).
Definition chain (b : buckets) (hash_value : Z) : list ptr :=
  default [] (table_ b !! slot b hash_value).

Section ops.
Context (hash_value_ : ptr -> Z) `{Table_Malloc}.

(** First element of a chain that passes the test. *)
Fixpoint first (test : ptr -> bool) (l : list ptr) : option ptr :=
  match l with
  | [] => None
  | p :: l => if test p then Some p else first test l
  end.

(** The chain without its first element that passes the test. *)
Fixpoint drop_first (test : ptr -> bool) (l : list ptr) : list ptr :=
  match l with
  | [] => []
  | p :: l => if test p then l else p :: drop_first test l
  end.

Definition find (test : ptr -> bool) (hash_value : Z) (b : buckets) : option ptr :=
  first test (chain b hash_value).

(** One step of the re-hash: [p] goes to the front of its new chain. *)
Definition rehash_step (n : Z) (t : list (list ptr)) (p : ptr) : list (list ptr) :=
  let i := Z.to_nat (hash_value_ p mod n) in
  <[i := p :: default [] (t !! i)]> t.
Definition rehash (n : Z) (chains : list (list ptr)) : list (list ptr) :=
  foldl (rehash_step n) (replicate (Z.to_nat n) []) (concat chains).

Definition expand (b : buckets) : buckets :=
  let n := next_bucket_size (bucket_size_ b) in
  if malloc_table n then
    mkbuckets n (expand_size_of n) (rehash n (table_ b)) (size_ b)
  else b.

(** [p] becomes the head of its chain ([hash_value_] already maps [p] to
    [hash_value]), and the map expands when it has grown too full. *)
Definition push (p : ptr) (hash_value : Z) (b : buckets) : buckets :=
  b <| table_ := <[slot b hash_value := p :: chain b hash_value]> (table_ b) |>
    <| size_ := u32 (size_ b + 1) |>.
Definition insert (p : ptr) (hash_value : Z) (b : buckets) : buckets :=
  let b1 := push p hash_value b in
  if size_ b1 >? expand_size_ b1 then expand b1 else b1.

Definition remove (test : ptr -> bool) (hash_value : Z) (b : buckets)
    : option ptr * buckets :=
  match first test (chain b hash_value) with
  | Some p =>
      (Some p,
       b <| table_ := <[slot b hash_value := drop_first test (chain b hash_value)]> (table_ b) |>
         <| size_ := u32 (size_ b - 1) |>)
  | None => (None, b)
  end.
End ops.

Definition contents (b : buckets) : list ptr := concat (table_ b).

(** Well-formedness: every element is in the chain of its hash value, once,
    and the counters agree. *)
Record wf (hash_value_ : ptr -> Z) (b : buckets) : Prop := {
  wf_size : 0 < bucket_size_ b <= 2 ^ 30;
  wf_expand : expand_size_ b = expand_size_of (bucket_size_ b);
  wf_length : length (table_ b) = Z.to_nat (bucket_size_ b);
  wf_slot : forall i l p, table_ b !! i = Some l -> p ∈ l ->
              i = slot b (hash_value_ p);
  wf_nodup : NoDup (contents b);
  wf_count : size_ b = Z.of_nat (length (contents b));
  wf_small : Z.of_nat (length (contents b)) <= 2 ^ 29
}.
End Buckets.

(** ** [Buckets] is a finite collection of elements with a lookup by key *)
Module BucketsFacts.
Import Buckets.
Section facts.
Context (hv : ptr -> Z) `{Table_Malloc}.
Implicit Types (b : buckets) (p q : ptr).

Lemma slot_lt b h : 0 < bucket_size_ b -> (slot b h < Z.to_nat (bucket_size_ b))%nat.
Proof. intros. unfold slot. pose proof (Z.mod_pos_bound h (bucket_size_ b)). lia. Qed.

Lemma chain_lookup b h :
  wf hv b -> table_ b !! slot b h = Some (chain b h).
Proof.
  intros Hwf. destruct (lookup_lt_is_Some_2 (table_ b) (slot b h)) as [l Hl].
  { rewrite (wf_length _ _ Hwf). apply slot_lt, (wf_size _ _ Hwf). }
  unfold chain. by rewrite Hl.
Qed.

Lemma elem_of_chain b p :
  wf hv b -> p ∈ contents b <-> p ∈ chain b (hv p).
Proof.
  intros Hwf. unfold contents. rewrite list_elem_of_In, in_concat. split.
  - intros (l&Hl&Hp). apply list_elem_of_In in Hl, Hp.
    apply list_elem_of_lookup in Hl as [i Hi].
    pose proof (wf_slot _ _ Hwf _ _ _ Hi Hp) as ->. unfold chain. by rewrite Hi.
  - intros Hp. exists (chain b (hv p)). split; apply list_elem_of_In; [|done].
    eapply list_elem_of_lookup_2, chain_lookup. done.
Qed.

Lemma first_Some test l p : first test l = Some p -> p ∈ l /\ test p = true.
Proof.
  induction l as [|q l IH]; cbn; [done|]. destruct (test q) eqn:E; [intros [= ->]|]; set_solver.
Qed.
Lemma first_None test l : first test l = None <-> forall p, p ∈ l -> test p = false.
Proof.
  induction l as [|q l IH]; cbn; [set_solver|]. destruct (test q) eqn:E.
  - split; [done|]. intros Hf. specialize (Hf q). rewrite Hf in E by left. done.
  - rewrite IH. split; [|set_solver]. intros Hf p [->|?]%elem_of_cons; auto.
Qed.
Lemma drop_first_Permutation test l p :
  first test l = Some p -> l ≡ₚ p :: drop_first test l.
Proof.
  induction l as [|q l IH]; cbn; [done|]. destruct (test q); [by intros [= ->]|].
  intros Hf. rewrite (IH Hf) at 1. apply Permutation_swap.
Qed.

Lemma find_Some b test h p :
  wf hv b -> find test h b = Some p ->
  p ∈ contents b /\ test p = true.
Proof.
  intros Hwf [Hp Ht]%first_Some. split; [|done].
  unfold contents. rewrite list_elem_of_In, in_concat. exists (chain b h).
  split; apply list_elem_of_In; [|done]. by eapply list_elem_of_lookup_2, chain_lookup.
Qed.
Lemma find_None b test h p :
  wf hv b -> find test h b = None -> p ∈ contents b -> hv p = h -> test p = false.
Proof.
  intros Hwf Hn Hp <-. unfold find in Hn. rewrite first_None in Hn.
  apply Hn. by rewrite <- elem_of_chain.
Qed.
(** The lookup finds the one element with the key. *)
Lemma find_unique b test h p :
  wf hv b -> p ∈ contents b -> hv p = h -> test p = true ->
  (forall q, q ∈ contents b -> test q = true -> q = p) ->
  find test h b = Some p.
Proof.
  intros Hwf Hp Hh Ht Hu. destruct (find test h b) as [q|] eqn:E.
  - apply find_Some in E as [??]; [|done]. f_equal. auto.
  - rewrite (find_None _ _ _ _ Hwf E Hp Hh) in Ht. done.
Qed.

Lemma concat_insert (t : list (list ptr)) i l l' :
  t !! i = Some l -> exists r, concat t ≡ₚ l ++ r /\ concat (<[i := l']> t) ≡ₚ l' ++ r.
Proof.
  intros Hi. exists (concat (take i t) ++ concat (drop (S i) t)).
  pose proof (lookup_lt_Some _ _ _ Hi).
  rewrite insert_take_drop by done.
  rewrite <- (take_drop_middle t i l) at 1 by done.
  rewrite !concat_app. cbn. rewrite !(Permutation_app_swap_app _ (concat (take i t))). done.
Qed.

(** Every element of the table [t] of [n] chains is in its own chain. *)
Definition slotted (n : Z) (t : list (list ptr)) : Prop :=
  length t = Z.to_nat n /\
  forall i l p, t !! i = Some l -> p ∈ l -> i = Z.to_nat (hv p mod n).

Lemma rehash_step_spec n t p :
  0 < n -> slotted n t ->
  slotted n (rehash_step hv n t p) /\ concat (rehash_step hv n t p) ≡ₚ p :: concat t.
Proof.
  intros Hn [Hlen Hs]. unfold rehash_step. set (i := Z.to_nat (hv p mod n)).
  assert (i < length t)%nat as Hi by (pose proof (Z.mod_pos_bound (hv p) n); lia).
  destruct (lookup_lt_is_Some_2 t i Hi) as [l Hl]. rewrite Hl. cbn.
  split; [split|].
  - by rewrite length_insert.
  - intros j l' q Hj Hq. destruct (decide (i = j)) as [<-|].
    + rewrite list_lookup_insert_eq in Hj by done. injection Hj as <-.
      apply elem_of_cons in Hq as [->|Hq]; [done|]. by eapply Hs.
    + rewrite list_lookup_insert_ne in Hj by done. by eapply Hs.
  - destruct (concat_insert t i l (p :: l) Hl) as (r&->&->). done.
Qed.

Lemma rehash_foldl n ps t :
  0 < n -> slotted n t ->
  slotted n (foldl (rehash_step hv n) t ps)
  /\ concat (foldl (rehash_step hv n) t ps) ≡ₚ ps ++ concat t.
Proof.
  intros Hn. revert t. induction ps as [|p ps IH]; intros t Ht; cbn; [done|].
  destruct (rehash_step_spec n t p Hn Ht) as [Ht' Hc].
  destruct (IH _ Ht') as [? ->]. split; [done|]. rewrite Hc. by rewrite Permutation_middle.
Qed.

Lemma slotted_replicate n : 0 < n -> slotted n (replicate (Z.to_nat n) []).
Proof.
  intros. split; [by rewrite length_replicate|]. intros i l p [-> _]%lookup_replicate. set_solver.
Qed.
Lemma concat_replicate_nil n : concat (replicate n (@nil ptr)) = [].
Proof. induction n; done. Qed.

Lemma wf_slotted b : wf hv b -> slotted (bucket_size_ b) (table_ b).
Proof. intros Hwf. split; [apply Hwf|]. apply (wf_slot _ _ Hwf). Qed.

Lemma next_bucket_size_bound n :
  0 < n -> n <= 2 ^ 29 -> 0 < next_bucket_size n <= 2 ^ 30.
Proof.
  intros. unfold next_bucket_size. destruct (list_find _ _) as [[i s]|] eqn:E.
  - apply list_find_Some in E as (Hi&Hs&_). split; [lia|].
    apply list_elem_of_lookup_2 in Hi. clear Hs. revert s Hi.
    apply Forall_forall. by apply (bool_decide_unpack _).
  - rewrite wrap_small by lia. lia.
Qed.

Lemma next_bucket_size_gt n : 0 < n <= 2 ^ 29 -> n < next_bucket_size n.
Proof.
  intros. unfold next_bucket_size. destruct (list_find _ _) as [[i s]|] eqn:E.
  - apply list_find_Some in E as (_&Hs&_). lia.
  - rewrite wrap_small by lia. lia.
Qed.

(** The element count as the program keeps it, and whether it expands. *)
Lemma rehash_wf b n :
  wf hv b -> 0 < n <= 2 ^ 30 ->
  let b' := mkbuckets n (expand_size_of n) (rehash hv n (table_ b)) (size_ b) in
  wf hv b' /\ contents b' ≡ₚ contents b.
Proof.
  intros Hwf Hn b'.
  destruct (rehash_foldl n (concat (table_ b)) (replicate (Z.to_nat n) []))
    as [[Hlen Hs] Hc]; [lia|by apply slotted_replicate; lia|].
  rewrite concat_replicate_nil, app_nil_r in Hc. change (contents b' ≡ₚ contents b) in Hc.
  destruct Hwf. split; [|done]. split; try done.
  - by rewrite Hc.
  - rewrite Hc. done.
  - by rewrite Hc.
Qed.

(** A map full enough to expand is far from the largest table. *)
Lemma full_bound b :
  wf hv b -> size_ b > expand_size_ b -> bucket_size_ b <= 2 ^ 29.
Proof.
  intros Hwf Hsz. pose proof (wf_size _ _ Hwf). pose proof (wf_small _ _ Hwf).
  rewrite (wf_expand _ _ Hwf), (wf_count _ _ Hwf) in Hsz.
  unfold expand_size_of in Hsz. rewrite wrap_small in Hsz by lia.
  pose proof (Z.div_mod (bucket_size_ b * 3) 2). pose proof (Z.mod_pos_bound (bucket_size_ b * 3) 2). lia.
Qed.

Lemma expand_wf b :
  wf hv b -> size_ b > expand_size_ b ->
  wf hv (expand hv b) /\ contents (expand hv b) ≡ₚ contents b.
Proof.
  intros Hwf Hsz. unfold expand. case_match; [|done]. apply rehash_wf; [done|].
  pose proof (full_bound _ Hwf Hsz). pose proof (wf_size _ _ Hwf).
  apply next_bucket_size_bound; lia.
Qed.

Lemma push_wf b p h :
  wf hv b -> hv p = h -> p ∉ contents b -> Z.of_nat (length (contents b)) < 2 ^ 29 ->
  wf hv (push p h b) /\ contents (push p h b) ≡ₚ p :: contents b.
Proof.
  intros Hwf Hh Hp Hlen. set (b1 := push p h b).
  destruct (concat_insert (table_ b) (slot b h) (chain b h) (p :: chain b h))
    as (r&Hc0&Hc1); [by apply chain_lookup|].
  assert (contents b1 ≡ₚ p :: contents b) as Hc.
  { unfold contents, b1. cbn [table_ set const push]. rewrite Hc1, Hc0. done. }
  split; [|done].
  destruct Hwf as [H1 H2 H3 H4 H5 H6 H7]. split; cbn [bucket_size_ expand_size_ table_ size_ set const b1 push].
  - done.
  - done.
  - by rewrite length_insert.
  - intros i l q Hi Hq. change (slot b1 (hv q)) with (slot b (hv q)).
    destruct (decide (slot b h = i)) as [<-|].
    + rewrite list_lookup_insert_eq in Hi by (rewrite H3; apply slot_lt; lia).
      injection Hi as <-. apply elem_of_cons in Hq as [->|Hq]; [by rewrite Hh|].
      eapply H4; [|done]. apply chain_lookup. by split.
    + rewrite list_lookup_insert_ne in Hi by done. by eapply H4.
  - rewrite Hc. by constructor.
  - rewrite Hc, H6. rewrite wrap_small by lia. cbn. lia.
  - rewrite Hc. cbn. lia.
Qed.

Lemma insert_wf b p h :
  wf hv b -> hv p = h -> p ∉ contents b -> Z.of_nat (length (contents b)) < 2 ^ 29 ->
  wf hv (insert hv p h b) /\ contents (insert hv p h b) ≡ₚ p :: contents b.
Proof.
  intros Hwf Hh Hp Hlen. destruct (push_wf b p h) as [Hwf1 Hc]; try done.
  unfold insert. destruct (Z.gtb_spec (size_ (push p h b)) (expand_size_ (push p h b))); [|done].
  destruct (expand_wf _ Hwf1) as [? ->]; [lia|]. done.
Qed.

Lemma remove_wf b test h p :
  wf hv b -> find test h b = Some p ->
  exists b', remove test h b = (Some p, b') /\ wf hv b' /\ contents b ≡ₚ p :: contents b'.
Proof.
  intros Hwf Hf. unfold remove. unfold find in Hf. rewrite Hf. eexists. split; [done|].
  set (b1 := set size_ _ _).
  destruct (concat_insert (table_ b) (slot b h) (chain b h) (drop_first test (chain b h)))
    as (r&Hc0&Hc1); [by apply chain_lookup|].
  assert (contents b ≡ₚ p :: contents b1) as Hc.
  { unfold contents, b1. cbn [table_ set const]. rewrite Hc1, Hc0.
    by rewrite (drop_first_Permutation _ _ _ Hf) at 1. }
  split; [|done]. pose proof Hwf as [H1 H2 H3 H4 H5 H6 H7].
  rewrite Hc in H5, H6, H7. apply NoDup_cons in H5 as [_ H5]. cbn [length] in *.
  split; cbn [bucket_size_ expand_size_ table_ size_ set const b1]; try done.
  - by rewrite length_insert.
  - intros i l q Hi Hq. change (slot b1 (hv q)) with (slot b (hv q)).
    destruct (decide (slot b h = i)) as [<-|].
    + rewrite list_lookup_insert_eq in Hi by (rewrite H3; apply slot_lt; lia).
      injection Hi as <-. eapply H4; [by apply chain_lookup|].
      rewrite (drop_first_Permutation _ _ _ Hf). by right.
    + rewrite list_lookup_insert_ne in Hi by done. by eapply H4.
  - rewrite H6, wrap_small by lia. lia.
  - lia.
Qed.

Lemma remove_None b test h : find test h b = None -> remove test h b = (None, b).
Proof. unfold find, remove. by intros ->. Qed.
End facts.

(** Well-formedness depends only on the hash values of the contents. *)
Lemma wf_ext hv hv' b :
  (forall p, p ∈ contents b -> hv' p = hv p) -> wf hv b -> wf hv' b.
Proof.
  intros Hext [H1 H2 H3 H4 H5 H6 H7]. split; try done.
  intros i l p Hi Hp. rewrite Hext; [by eapply H4|].
  apply list_elem_of_In, in_concat. exists l. split; apply list_elem_of_In; [|done].
  by eapply list_elem_of_lookup_2.
Qed.

Lemma init_wf hv n : 0 < n <= 2 ^ 30 -> wf hv (init n) /\ contents (init n) = [].
Proof.
  intros Hn. assert (contents (init n) = []) as Hc by apply concat_replicate_nil.
  split; [|done]. split; rewrite ?Hc; try done.
  - unfold init; cbn; by rewrite length_replicate.
  - intros i l p [-> _]%lookup_replicate. set_solver.
  - apply NoDup_nil_2.
Qed.
End BucketsFacts.

(** ** The map as the program lays it out *)
Module HMap.
Section hmap.
Context {K T : Type} `{PK K T} `{Table_Malloc}.

(** [hash_node_base], lines 26-45, with the element it is a base of. *)
Record hnode := mkhnode { hash_next_ : option ptr; hash_value_ : Z; value : T }.

(** The members of [hash_map], lines 216-220, and the memory of the nodes. *)
Record hmap := mkhmap {
  nodes : gmap ptr hnode;
  bucket_size_ : Z;
  expand_size_ : Z;
  hash_table_ : list (option ptr);
  size_ : Z
}.

Definition node (p : ptr) : ST hmap hnode := gets (fun s => nodes s !! p) ≫= the.
Definition put_node (p : ptr) (n : hnode) : ST hmap unit :=
  modify (fun s => s <| nodes ::= <[p := n]> |>).
Definition put_hash_next (p : ptr) (v : option ptr) : ST hmap unit :=
  n ← node p; put_node p (n <| hash_next_ := v |>).
Definition bucket_of (hash_value : Z) : ST hmap nat :=
  gets (fun s => Z.to_nat (hash_value mod bucket_size_ s)).
Definition table_get (i : nat) : ST hmap (option ptr) :=
  gets (fun s => hash_table_ s !! i) ≫= the.
(** Fuel for one chain: more than there are nodes. *)
Definition fuel (s : hmap) : nat := S (size (nodes s)).

(** The constructor, lines 70-81; [malloc] has succeeded (the program exits
    otherwise). *)
Definition init (ns : gmap ptr hnode) (bucket_size : Z) : hmap :=
  mkhmap ns bucket_size (expand_size_of bucket_size)
    (replicate (Z.to_nat bucket_size) None) 0.

Fixpoint find_loop (f : nat) (k : K) (p : option ptr) : ST hmap (option ptr) :=
  match f, p with
  | O, _ => the None
  | S _, None => mret None
  | S f, Some p =>
      n ← node p;
      if is_key k (value n) then mret (Some p) else find_loop f k (hash_next_ n)
  end.

Definition find (k : K) (hash_value : Z) : ST hmap (option ptr) :=
  i ← bucket_of hash_value; p ← table_get i; f ← gets fuel; find_loop f k p.

(** One chain of the re-hash, lines 202-208: [t] is the new array. *)
Fixpoint expand_chain (f : nat) (n : Z) (t : list (option ptr)) (p : option ptr)
    : ST hmap (list (option ptr)) :=
  match f, p with
  | O, _ => the None
  | S _, None => mret t
  | S f, Some p =>
      nd ← node p;
      let bucket := Z.to_nat (hash_value_ nd mod n) in
      let next := hash_next_ nd in
      h ← the (t !! bucket);
      put_hash_next p h;;
      expand_chain f n (<[bucket := Some p]> t) next
  end.

(** The outer loop, lines 201-210, over the old indices from [i] on. *)
Fixpoint expand_loop (k : nat) (i : nat) (n : Z) (t : list (option ptr))
    : ST hmap (list (option ptr)) :=
  match k with
  | O => mret t
  | S k =>
      p ← table_get i;
      f ← gets fuel;
      t ← expand_chain f n t p;
      modify (fun s => s <| hash_table_ ::= <[i := None]> |>);;
      expand_loop k (S i) n t
  end.

Definition expand : ST hmap unit :=
  b ← gets bucket_size_;
  let n := next_bucket_size b in
  if malloc_table n then
    t ← expand_loop (Z.to_nat b) 0 n (replicate (Z.to_nat n) None);
    modify (fun s => s <| bucket_size_ := n |> <| expand_size_ := expand_size_of n |>
                       <| hash_table_ := t |>)
  else mret tt.

Definition insert (p : ptr) (hash_value : Z) : ST hmap unit :=
  n ← node p; put_node p (n <| hash_value_ := hash_value |>);;
  bucket ← bucket_of hash_value;
  h ← table_get bucket;
  put_hash_next p h;;
  modify (fun s => s <| hash_table_ ::= <[bucket := Some p]> |> <| size_ ::= fun n => u32 (n + 1) |>);;
  big ← gets (fun s => size_ s >? expand_size_ s);
  if big : bool then expand else mret tt.

(** The loop of both [remove] functions; [test] is the comparison. *)
Fixpoint remove_loop (f : nat) (test : ptr -> hnode -> bool) (bucket : nat)
    (prev curr : option ptr) : ST hmap (option ptr) :=
  match f, curr with
  | O, _ => the None
  | S _, None => mret None
  | S f, Some c =>
      n ← node c;
      if test c n then
        match prev with
        | Some q => put_hash_next q (hash_next_ n)
        | None => modify (fun s => s <| hash_table_ ::= <[bucket := hash_next_ n]> |>)
        end;;
        put_hash_next c None;;
        modify (fun s => s <| size_ ::= fun n => u32 (n - 1) |>);;
        mret (Some c)
      else remove_loop f test bucket (Some c) (hash_next_ n)
  end.

(** [remove] by key, lines 164-184. *)
Definition remove (k : K) (hash_value : Z) : ST hmap (option ptr) :=
  i ← bucket_of hash_value; p ← table_get i; f ← gets fuel;
  remove_loop f (fun _ n => is_key k (value n)) i None p.

(** [remove] of an element, lines 142-162. *)
Definition remove_node (t : ptr) : ST hmap (option ptr) :=
  n ← node t; i ← bucket_of (hash_value_ n); p ← table_get i; f ← gets fuel;
  remove_loop f (fun c _ => bool_decide (c = t)) i None p.
End hmap.
Arguments hnode : clear implicits.
Arguments hmap : clear implicits.
End HMap.

(** ** [HMap] implements [Buckets], and with it a finite set of elements *)
Module HMapFacts.
Import HMap.
Section facts.
Context {K T : Type} `{PK K T} `{Table_Malloc}.
Abbreviation mem := (gmap ptr (hnode T)).
Implicit Types (m : mem) (s : hmap T) (p q : ptr) (h : option ptr) (l : list ptr).

Definition next_of m p : option (option ptr) := hash_next_ <$> m !! p.
(** The chain from [h] passes the nodes [l] and ends at [t]. *)
Fixpoint lseg m h l (t : option ptr) : Prop :=
  match l with
  | [] => h = t
  | p :: l => h = Some p /\ exists h', next_of m p = Some h' /\ lseg m h' l t
  end.
Definition chains m (t : list (option ptr)) (tb : list (list ptr)) : Prop :=
  Forall2 (fun h l => lseg m h l None) t tb.

(** What the operations on the chains never touch. *)
Definition payload (n : hnode T) := (hash_value_ n, value n).
Definition same m m' : Prop := forall p, payload <$> m' !! p = payload <$> m !! p.
Definition frame m m' l : Prop := forall p, p ∉ l -> next_of m' p = next_of m p.

Definition hv m p : Z := from_option hash_value_ 0 (m !! p).
Definition passes m (test : ptr -> hnode T -> bool) p : bool :=
  from_option (test p) false (m !! p).

Lemma lseg_app m h l1 l2 t :
  lseg m h (l1 ++ l2) t <-> exists x, lseg m h l1 x /\ lseg m x l2 t.
Proof.
  revert h. induction l1 as [|p l1 IH]; intros h; cbn.
  - naive_solver.
  - setoid_rewrite IH. naive_solver.
Qed.
Lemma lseg_snoc m h l q t :
  lseg m h (l ++ [q]) t <-> lseg m h l (Some q) /\ next_of m q = Some t.
Proof. rewrite lseg_app. cbn. naive_solver. Qed.
Lemma lseg_frame m m' h l t l' :
  frame m m' l' -> (forall p, p ∈ l -> p ∉ l') -> lseg m h l t -> lseg m' h l t.
Proof.
  intros Hf. revert h. induction l as [|p l IH]; intros h Hd; cbn; [done|].
  intros (->&h'&Hn&Hl). split; [done|]. exists h'. split.
  - rewrite Hf by (apply Hd; by left). done.
  - apply IH; [set_solver|done].
Qed.
Lemma lseg_dom m h l t p : lseg m h l t -> p ∈ l -> is_Some (m !! p).
Proof.
  revert h. induction l as [|q l IH]; intros h; cbn; [set_solver|].
  intros (_&h'&Hn&Hl) [->|Hp]%elem_of_cons; [|by eapply IH].
  unfold next_of in Hn. destruct (m !! q); [by eexists|done].
Qed.
Lemma lseg_length m h l t : lseg m h l t -> NoDup l -> (length l <= size m)%nat.
Proof.
  intros Hl Hnd. rewrite <- (size_list_to_set (C := gset ptr)) by done.
  rewrite <- size_dom. apply subseteq_size. intros p Hp.
  apply elem_of_list_to_set in Hp. apply elem_of_dom. by eapply lseg_dom.
Qed.
Lemma chains_frame m m' t tb l :
  frame m m' l -> (forall p, p ∈ concat tb -> p ∉ l) -> chains m t tb -> chains m' t tb.
Proof.
  intros Hf Hd. induction 1 as [|h c t tb Hc Hcs IH]; constructor.
  - eapply lseg_frame; [done| |done]. intros p Hp. apply Hd. cbn. set_solver.
  - apply IH. intros p Hp. apply Hd. cbn. set_solver.
Qed.

Lemma same_refl m : same m m.
Proof. done. Qed.
Lemma same_trans m1 m2 m3 : same m1 m2 -> same m2 m3 -> same m1 m3.
Proof. intros H1 H2 p. by rewrite H2, H1. Qed.
Lemma frame_refl m l : frame m m l.
Proof. done. Qed.
Lemma frame_trans m1 m2 m3 l1 l2 l :
  l1 ⊆ l -> l2 ⊆ l -> frame m1 m2 l1 -> frame m2 m3 l2 -> frame m1 m3 l.
Proof. intros Hs1 Hs2 H1 H2 p Hp. rewrite H2, H1; set_solver. Qed.
Lemma same_hv m m' p : same m m' -> hv m' p = hv m p.
Proof.
  intros Hs. specialize (Hs p). unfold hv.
  destruct (m !! p), (m' !! p); cbn in *; try done. by injection Hs.
Qed.

(** The one write to a link. *)
Lemma put_hash_next_wp p v s Q :
  is_Some (nodes s !! p) ->
  (forall m', same (nodes s) m' -> frame (nodes s) m' [p] -> next_of m' p = Some v ->
     size m' = size (nodes s) -> Q tt (s <| nodes := m' |>)) ->
  wp (put_hash_next p v) s Q.
Proof.
  intros [n Hn] HQ. unfold put_hash_next, node. repeat wp_step. unfold put_node. wp_step.
  set (n' := n <| hash_next_ := v |>).
  change (Q tt (s <| nodes := <[p := n']> (nodes s) |>)). apply HQ.
  - intros q. destruct (decide (p = q)) as [<-|].
    + rewrite lookup_insert_eq, Hn. done.
    + by rewrite lookup_insert_ne.
  - intros q Hq. unfold next_of. rewrite lookup_insert_ne; [done|]. set_solver.
  - unfold next_of. by rewrite lookup_insert_eq.
  - rewrite map_size_insert_Some; [done|]. by eexists.
Qed.

Lemma slotted_ext (hv1 hv2 : ptr -> Z) n tb :
  (forall p, hv1 p = hv2 p) -> BucketsFacts.slotted hv1 n tb -> BucketsFacts.slotted hv2 n tb.
Proof. intros He [? Hs]. split; [done|]. intros i l p. rewrite <- He. apply Hs. Qed.
Lemma rehash_foldl_ext (hv1 hv2 : ptr -> Z) n tb l :
  (forall p, hv1 p = hv2 p) ->
  foldl (Buckets.rehash_step hv1 n) tb l = foldl (Buckets.rehash_step hv2 n) tb l.
Proof.
  intros He. revert tb. induction l as [|p l IH]; intros tb; cbn; [done|].
  rewrite IH. unfold Buckets.rehash_step. by rewrite He.
Qed.

Lemma expand_chain_wp f n l : forall (p : option ptr) t tb s,
  0 < n -> lseg (nodes s) p l None -> chains (nodes s) t tb ->
  BucketsFacts.slotted (hv (nodes s)) n tb ->
  NoDup (l ++ concat tb) -> (length l < f)%nat ->
  wp (expand_chain f n t p) s (fun t' s' => exists m',
    s' = s <| nodes := m' |> /\ same (nodes s) m' /\ frame (nodes s) m' l /\ size m' = size (nodes s) /\
    chains m' t' (foldl (Buckets.rehash_step (hv (nodes s)) n) tb l)).
Proof.
  revert l. induction f as [|f IH]; intros l p t tb s Hn Hl Hc Hs Hnd Hf; [lia|].
  destruct l as [|q l]; cbn in Hl.
  { subst p. cbn [expand_chain foldl]. apply wp_ret. exists (nodes s). by destruct s. }
  destruct Hl as (->&h'&Hnx&Hl). unfold next_of in Hnx.
  destruct (nodes s !! q) as [nd|] eqn:Hq; [|done]. injection Hnx as <-.
  cbn [expand_chain]. unfold node. repeat wp_step.
  set (i := Z.to_nat (hash_value_ nd mod n)).
  assert (Hi : i = Z.to_nat (hv (nodes s) q mod n)) by (unfold hv; by rewrite Hq).
  assert (Hlen := Forall2_length _ _ _ Hc). destruct Hs as [Hlen' Hs].
  assert (i < length tb)%nat as Hlt by (pose proof (Z.mod_pos_bound (hash_value_ nd) n); lia).
  destruct (lookup_lt_is_Some_2 t i) as [h Hh]; [lia|].
  destruct (lookup_lt_is_Some_2 tb i) as [c Hci]; [done|].
  wp_steps. apply put_hash_next_wp; [by eexists|]. intros m' Hsame Hframe Hnew Hsz.
  cbn in Hnd. apply NoDup_cons in Hnd as [Hqn Hnd].
  destruct (BucketsFacts.rehash_step_spec (hv (nodes s)) n tb q Hn (conj Hlen' Hs)) as [Hs' Hp'].
  eapply wp_mono; [apply (IH l _ _ (Buckets.rehash_step (hv (nodes s)) n tb q))|]; [done|..].
  - eapply lseg_frame; [done| |done]. set_solver.
  - unfold Buckets.rehash_step. cbn [nodes set const]. rewrite <- Hi, Hci. cbn [default].
    apply Forall2_insert.
    + eapply chains_frame; [done| |done]. set_solver.
    + cbn. split; [done|]. exists h. split; [done|].
      eapply lseg_frame; [done| |exact (Forall2_lookup_lr _ _ _ i h c Hc Hh Hci)].
      intros x Hx. assert (x ∈ concat tb); [|set_solver].
      apply list_elem_of_In, in_concat. exists c. split; apply list_elem_of_In; [|done].
      by eapply list_elem_of_lookup_2.
  - eapply slotted_ext; [|done]. intros x. symmetry. by apply (same_hv (nodes s) m').
  - rewrite Hp'. rewrite <- Permutation_middle. by constructor.
  - cbn in Hf. lia.
  - cbn beta. intros t' s' (m''&->&Hsame'&Hframe'&Hsz'&Hc'). exists m''.
    cbn [nodes set const] in *. split_and!.
    + by destruct s.
    + by eapply same_trans.
    + eapply (frame_trans _ _ _ [q] l); [..|done|done]; set_solver.
    + congruence.
    + cbn [foldl]. erewrite rehash_foldl_ext; [done|]. intros x. symmetry. by apply (same_hv (nodes s) m').
Qed.
Lemma expand_loop_wp n k : forall i t tb rest s,
  0 < n -> length rest = k -> chains (nodes s) (drop i (hash_table_ s)) rest ->
  chains (nodes s) t tb -> BucketsFacts.slotted (hv (nodes s)) n tb ->
  NoDup (concat rest ++ concat tb) ->
  wp (expand_loop k i n t) s (fun t' s' => exists m' tab',
    s' = s <| nodes := m' |> <| hash_table_ := tab' |> /\ same (nodes s) m' /\
    chains m' t' (foldl (Buckets.rehash_step (hv (nodes s)) n) tb (concat rest))).
Proof.
  induction k as [|k IH]; intros i t tb rest s Hn Hk Hr Hc Hs Hnd.
  { destruct rest; [|done]. cbn [expand_loop concat foldl]. apply wp_ret.
    exists (nodes s), (hash_table_ s). by destruct s. }
  destruct rest as [|l rest]; [done|]. injection Hk as Hk.
  cbn [concat] in *. rewrite <- app_assoc in Hnd.
  destruct (drop i (hash_table_ s)) as [|p tl] eqn:Hd; [by inversion Hr|].
  apply Forall2_cons in Hr as [Hl Hr].
  assert (hash_table_ s !! i = Some p) as Hp.
  { rewrite <- (Nat.add_0_r i), <- lookup_drop, Hd. done. }
  assert (tl = drop (S i) (hash_table_ s)) as ->.
  { rewrite <- Nat.add_1_r, <- drop_drop, Hd. done. }
  pose proof Hnd as (Hndl&Hdisj&Hndr)%NoDup_app.
  cbn [expand_loop]. unfold table_get. wp_steps.
  eapply wp_mono; [apply (expand_chain_wp _ n l _ _ tb)|]; try done.
  - eapply NoDup_app. split_and!; [done|set_solver|by apply NoDup_app in Hndr as (?&?&?)].
  - unfold fuel. pose proof (lseg_length _ _ _ _ Hl Hndl). lia.
  - cbn beta. intros t' s' (m'&->&Hsame&Hframe&_&Hc'). wp_steps.
    destruct (BucketsFacts.rehash_foldl (hv (nodes s)) n l tb Hn Hs) as [Hs' Hp'].
    eapply wp_mono; [eapply (IH (S i) t' _ rest)|]; try done.
    + cbn [nodes hash_table_ set const]. rewrite drop_insert_lt by lia.
      eapply chains_frame; [done| |done]. set_solver.
    + cbn [nodes set const]. eapply slotted_ext; [|done]. intros x. symmetry. by apply same_hv.
    + rewrite Hp'. revert Hnd. rewrite (Permutation_app_swap_app (concat rest)). done.
    + cbn [nodes set const]. intros t'' s'' (m''&tab''&->&Hsame'&Hc''). exists m'', tab''.
      split_and!; [by destruct s|by eapply same_trans|].
      rewrite foldl_app. erewrite rehash_foldl_ext; [done|]. intros x. symmetry. by apply same_hv.
Qed.

(** ** The representation of [Buckets] *)
Record hrep s (b : Buckets.buckets) : Prop := {
  h_bs : bucket_size_ s = Buckets.bucket_size_ b;
  h_es : expand_size_ s = Buckets.expand_size_ b;
  h_sz : size_ s = Buckets.size_ b;
  h_tab : chains (nodes s) (hash_table_ s) (Buckets.table_ b)
}.

Lemma hrep_lookup s b (h : Z) :
  hrep s b -> Buckets.wf (hv (nodes s)) b ->
  exists x, hash_table_ s !! Buckets.slot b h = Some x /\ lseg (nodes s) x (Buckets.chain b h) None
    /\ (length (Buckets.chain b h) <= size (nodes s))%nat.
Proof.
  intros [_ _ _ Ht] Hwf. pose proof (BucketsFacts.chain_lookup _ b h Hwf) as Hc.
  destruct (Forall2_lookup_r _ _ _ _ _ Ht Hc) as (x&Hx&Hl). exists x. split_and!; [done..|].
  eapply lseg_length; [done|]. pose proof (Buckets.wf_nodup _ _ Hwf) as Hnd.
  unfold Buckets.contents in Hnd.
  destruct (BucketsFacts.concat_insert _ _ _ [] Hc) as (r&Hr&_).
  rewrite Hr in Hnd. by apply NoDup_app in Hnd as (?&?&?).
Qed.

Lemma expand_wp s b :
  hrep s b -> Buckets.wf (hv (nodes s)) b -> Buckets.bucket_size_ b <= 2 ^ 29 ->
  wp expand s (fun _ s' => same (nodes s) (nodes s') /\ hrep s' (Buckets.expand (hv (nodes s)) b)).
Proof.
  intros Hr Hwf Hsmall. unfold expand, Buckets.expand. pose proof Hr as [Hbs Hes Hsz Ht]. wp_steps.
  rewrite Hbs. destruct (malloc_table _); [|by apply wp_ret]. wp_steps.
  pose proof (Buckets.wf_size _ _ Hwf).
  pose proof (BucketsFacts.next_bucket_size_bound (Buckets.bucket_size_ b)) as Hn.
  set (n := next_bucket_size _) in *.
  eapply wp_mono; [eapply (expand_loop_wp n _ 0 _ (replicate (Z.to_nat n) []) (Buckets.table_ b))|].
  - lia.
  - apply Hwf.
  - done.
  - apply Forall2_replicate. done.
  - apply BucketsFacts.slotted_replicate. lia.
  - rewrite BucketsFacts.concat_replicate_nil, app_nil_r. apply Hwf.
  - cbn beta. intros t' s' (m'&tab'&->&Hs&Hc). wp_steps.
    split; [done|]. by split.
Qed.

Definition hinv s b : Prop := hrep s b /\ Buckets.wf (hv (nodes s)) b.

Lemma same_passes (test : T -> bool) m m' p :
  same m m' -> passes m' (fun _ n => test (value n)) p = passes m (fun _ n => test (value n)) p.
Proof.
  intros Hs. specialize (Hs p). unfold passes.
  destruct (m !! p), (m' !! p); cbn in *; try done. by injection Hs as _ ->.
Qed.
Lemma hinv_same s s' b :
  same (nodes s) (nodes s') -> Buckets.wf (hv (nodes s)) b -> hrep s' b -> hinv s' b.
Proof.
  intros Hs Hwf Hr. split; [done|]. eapply BucketsFacts.wf_ext; [|done].
  intros p _. by apply same_hv.
Qed.

Lemma find_loop_wp f k l : forall (p : option ptr) s,
  lseg (nodes s) p l None -> (length l < f)%nat ->
  wp (find_loop f k p) s (fun r s' =>
    s' = s /\ r = Buckets.first (passes (nodes s) (fun _ n => is_key k (value n))) l).
Proof.
  revert l. induction f as [|f IH]; intros l p s Hl Hf; [lia|].
  destruct l as [|q l]; cbn [lseg] in Hl.
  { subst p. cbn [find_loop]. by apply wp_ret. }
  destruct Hl as (->&h'&Hn&Hl). unfold next_of in Hn.
  destruct (nodes s !! q) as [n|] eqn:Hq; [|done]. injection Hn as <-.
  cbn [find_loop Buckets.first]. unfold node. wp_steps.
  unfold passes at 1. rewrite Hq. cbn [from_option].
  destruct (is_key k (value n)); [by apply wp_ret|]. apply IH; [done|]. cbn in Hf. lia.
Qed.

Lemma find_wp k (h : Z) s b :
  hinv s b ->
  wp (find k h) s (fun r s' =>
    s' = s /\ r = Buckets.find (passes (nodes s) (fun _ n => is_key k (value n))) h b).
Proof.
  intros [Hr Hwf]. destruct (hrep_lookup s b h Hr Hwf) as (x&Hx&Hl&Hlen).
  unfold find, bucket_of, table_get. wp_steps. rewrite (h_bs _ _ Hr).
  change (Z.to_nat (h mod _)) with (Buckets.slot b h). wp_steps.
  apply find_loop_wp; [done|]. unfold fuel. lia.
Qed.

Lemma insert_wp (p : ptr) (h : Z) n s b :
  hinv s b -> nodes s !! p = Some n -> p ∉ Buckets.contents b ->
  Z.of_nat (length (Buckets.contents b)) < 2 ^ 29 ->
  wp (insert p h) s (fun _ s' =>
    same (<[p := n <| hash_value_ := h |>]> (nodes s)) (nodes s') /\
    hinv s' (Buckets.insert (hv (nodes s')) p h b)).
Proof.
  intros [Hr Hwf] Hn Hp Hlen. set (n1 := n <| hash_value_ := h |>).
  set (m1 := <[p := n1]> (nodes s)).
  assert (frame (nodes s) m1 [p]) as Hf1.
  { intros q Hq. unfold next_of, m1. rewrite lookup_insert_ne; [done|]. set_solver. }
  assert (Buckets.wf (hv m1) b) as Hwf1.
  { eapply BucketsFacts.wf_ext; [|done]. intros q Hq. unfold hv, m1.
    rewrite lookup_insert_ne; [done|]. set_solver. }
  destruct (hrep_lookup s b h Hr Hwf) as (x&Hx&Hl&_).
  unfold insert, node. wp_steps. unfold put_node. wp_steps.
  unfold bucket_of, table_get. wp_steps. cbn [bucket_size_ hash_table_ set const].
  rewrite (h_bs _ _ Hr). change (Z.to_nat (h mod _)) with (Buckets.slot b h). wp_steps.
  apply put_hash_next_wp; [cbn; rewrite lookup_insert_eq; by eexists|].
  cbn [nodes set const]. change (<[p := _]> (nodes s)) with m1.
  intros m2 Hs Hf2 Hnew _. wp_steps.
  cbn [size_ expand_size_ bucket_size_ hash_table_ nodes set const].
  set (s2 := set size_ _ _). set (b2 := Buckets.push p h b).
  assert (Buckets.wf (hv m2) b) as Hwf2.
  { eapply BucketsFacts.wf_ext; [|done]. intros q _. by apply same_hv. }
  destruct (BucketsFacts.push_wf (hv m2) b p h) as [Hwfp _]; try done.
  { rewrite (same_hv m1 m2) by done. unfold hv, m1. by rewrite lookup_insert_eq. }
  pose proof Hr as [Hbs Hes Hsz Ht].
  assert (hrep s2 b2) as Hr2.
  { split; unfold s2, b2; cbn [size_ expand_size_ bucket_size_ hash_table_ nodes set const
      Buckets.push Buckets.bucket_size_ Buckets.expand_size_ Buckets.table_ Buckets.size_]; try congruence.
    assert (frame (nodes s) m2 [p]) as Hf by (eapply (frame_trans _ _ _ [p] [p]); done || set_solver).
    apply Forall2_insert.
    - eapply chains_frame; [done| |done]. unfold Buckets.contents in Hp. set_solver.
    - cbn. split; [done|]. exists x. split; [done|]. eapply lseg_frame; [done| |done].
      intros q Hq. assert (q ∈ Buckets.contents b); [|set_solver].
      apply list_elem_of_In, in_concat. exists (Buckets.chain b h).
      split; apply list_elem_of_In; [|done]. by eapply list_elem_of_lookup_2, BucketsFacts.chain_lookup. }
  unfold Buckets.insert. change (Buckets.push p h b) with b2.
  rewrite Hsz, Hes.
  change (u32 (Buckets.size_ b + 1) >? Buckets.expand_size_ b)
    with (Buckets.size_ b2 >? Buckets.expand_size_ b2).
  destruct (Z.gtb_spec (Buckets.size_ b2) (Buckets.expand_size_ b2)) as [Hgt|Hle]; [|by apply wp_ret].
  eapply wp_mono; [apply (expand_wp s2 b2 Hr2 Hwfp)|].
  { eapply BucketsFacts.full_bound; [exact Hwfp|lia]. }
  intros ? s' [Hs' Hr']. split; [by eapply same_trans|].
  assert (Buckets.expand (hv (nodes s')) b2 = Buckets.expand (hv (nodes s2)) b2) as ->.
  { unfold Buckets.expand, Buckets.rehash. case_match; [|done]. f_equal.
    apply rehash_foldl_ext. intros q. by apply same_hv. }
  eapply hinv_same; [done| |done]. apply BucketsFacts.expand_wf; [done|lia].
Qed.

(** The table with the chain of one bucket replaced. *)
Lemma chains_replace m m' t (tb : list (list ptr)) i (l l' : list ptr) h' :
  chains m t tb -> tb !! i = Some l -> NoDup (concat tb) -> frame m m' l ->
  lseg m' h' l' None -> chains m' (<[i := h']> t) (<[i := l']> tb).
Proof.
  intros Hc Hi Hnd Hf Hl. revert i Hi Hnd. induction Hc as [|h c t tb Hh Hc IH]; intros [|i] Hi Hnd; try done.
  - cbn in Hi. injection Hi as ->. cbn. constructor; [done|].
    cbn in Hnd. apply NoDup_app in Hnd as (_&Hd&_).
    eapply chains_frame; [done| |done]. set_solver.
  - cbn. cbn in Hnd. pose proof Hnd as (_&Hd&Hnd')%NoDup_app. constructor; [|by apply IH].
    eapply lseg_frame; [done| |done]. intros q Hq Hql. apply (Hd q Hq).
    apply list_elem_of_In, in_concat. exists l. split; apply list_elem_of_In; [|done].
    by eapply list_elem_of_lookup_2.
Qed.

Lemma remove_loop_wp test i f b s : forall pre l (prev curr : option ptr) x,
  hinv s b -> Buckets.table_ b !! i = Some (pre ++ l) ->
  hash_table_ s !! i = Some x -> lseg (nodes s) x pre curr -> lseg (nodes s) curr l None ->
  prev = last pre -> (length l < f)%nat ->
  wp (remove_loop f test i prev curr) s (fun r s' =>
    r = Buckets.first (passes (nodes s) test) l /\ same (nodes s) (nodes s') /\
    hrep s' (match r with
             | Some _ => b <| Buckets.table_ ::= <[i := pre ++ Buckets.drop_first (passes (nodes s) test) l]> |>
                           <| Buckets.size_ := u32 (Buckets.size_ b - 1) |>
             | None => b
             end)).
Proof.
  induction f as [|f IH]; intros pre l prev curr x Hi Htb Hx Hpre Hl Hprev Hf; [lia|].
  destruct l as [|q l]; cbn [lseg] in Hl.
  { subst curr. cbn [remove_loop]. apply wp_ret. split_and!; [done..|]. apply Hi. }
  destruct Hl as (->&h'&Hn&Hl). unfold next_of in Hn.
  destruct (nodes s !! q) as [n|] eqn:Hq; [|done]. injection Hn as <-.
  cbn [remove_loop Buckets.first Buckets.drop_first]. unfold node. wp_steps.
  unfold passes at 1 3. rewrite Hq. cbn [from_option].
  assert (NoDup (Buckets.contents b)) as Hndc by apply Hi.
  assert (NoDup (pre ++ q :: l)) as Hnd.
  { destruct (BucketsFacts.concat_insert _ _ _ [] Htb) as (r&Hr&_). unfold Buckets.contents in Hndc.
    rewrite Hr in Hndc. by apply NoDup_app in Hndc as (?&?&?). }
  destruct (test q n) eqn:Ht.
  2: { eapply wp_mono; [eapply (IH (pre ++ [q]) l _ _ x)|].
       - done.
       - by rewrite <- app_assoc.
       - done.
       - apply lseg_snoc. split; [done|]. unfold next_of. by rewrite Hq.
       - done.
       - by rewrite last_snoc.
       - cbn in Hf. lia.
       - cbn beta. rewrite <- app_assoc. done. }
  destruct Hi as [[Hbs Hes Hsz Htab] _].
  assert (frame_sub : forall m m' l1 l2, l1 ⊆ l2 -> frame m m' l1 -> frame m m' l2).
  { intros m m' l1 l2 Hsub Hfr y Hy. apply Hfr. set_solver. }
  apply NoDup_app in Hnd as (Hndp&Hdj&Hndq). apply NoDup_cons in Hndq as [Hql _].
  destruct pre as [|q' pre0 _] using rev_ind; cbn [last] in Hprev; subst prev.
  - cbn in Hpre. subst x. wp_steps. apply put_hash_next_wp; [by eexists|].
    cbn [nodes set const]. intros m2 Hs2 Hf2 _ _. wp_steps. split_and!; [done..|].
    split; cbn; try congruence. unfold const. eapply chains_replace; [done..| |].
    + eapply frame_sub; [|done]. set_solver.
    + eapply lseg_frame; [done| |done]. set_solver.
  - rewrite last_snoc. apply lseg_snoc in Hpre as [Hpre Hq'].
    assert (is_Some (nodes s !! q')) as Hq's.
    { unfold next_of in Hq'. destruct (nodes s !! q'); [by eexists|done]. }
    wp_steps. apply put_hash_next_wp; [done|]. intros m1 Hs1 Hf1 Hn1 _. wp_steps.
    assert (q' <> q) by (intros ->; apply (Hdj q); set_solver).
    apply put_hash_next_wp.
    { cbn [nodes set const]. specialize (Hs1 q). rewrite Hq in Hs1.
      destruct (m1 !! q); [by eexists|done]. }
    cbn [nodes set const]. intros m2 Hs2 Hf2 _ _. wp_steps.
    split_and!; [done|by eapply same_trans|].
    assert (frame (nodes s) m2 [q'; q]) as Hf12.
    { eapply (frame_trans _ m1 _ [q'] [q]); [set_solver..|done|done]. }
    split; cbn; try congruence. unfold const.
    rewrite <- (list_insert_id (hash_table_ s) i x) by done.
    eapply chains_replace; [done..| |].
    + eapply frame_sub; [|done]. set_solver.
    + rewrite <- app_assoc. apply NoDup_app in Hndp as (_&Hdq&_).
      apply lseg_app. exists (Some q'). split; [|split; [done|]].
      * eapply lseg_frame; [done| |done]. set_solver.
      * exists (hash_next_ n). split.
        { rewrite Hf2, Hn1; [done|set_solver]. }
        eapply lseg_frame; [done| |done]. intros y Hy. specialize (Hdj q'). set_solver.
Qed.

Lemma first_ext (t1 t2 : ptr -> bool) l :
  (forall p, p ∈ l -> t1 p = t2 p) -> Buckets.first t1 l = Buckets.first t2 l.
Proof.
  induction l as [|q l IH]; cbn; intros He; [done|].
  rewrite He by set_solver. destruct (t2 q); [done|]. apply IH. set_solver.
Qed.

(** Either [remove], once the head of its chain is read. *)
Lemma remove_chain_wp test (h : Z) f s b x :
  hinv s b -> hash_table_ s !! Buckets.slot b h = Some x ->
  (length (Buckets.chain b h) < f)%nat ->
  wp (remove_loop f test (Buckets.slot b h) None x) s
    (fun r s' => same (nodes s) (nodes s') /\
       r = (Buckets.remove (passes (nodes s) test) h b).1 /\
       hinv s' (Buckets.remove (passes (nodes s) test) h b).2).
Proof.
  intros Hi Hx Hf. pose proof Hi as [Hr Hwf].
  destruct (hrep_lookup s b h Hr Hwf) as (x'&Hx'&Hl&_). simplify_eq.
  eapply wp_mono; [eapply (remove_loop_wp test _ _ b s [] (Buckets.chain b h))|]; try done.
  { cbn [app]. by eapply BucketsFacts.chain_lookup. }
  cbn beta. intros r s' (->&Hs&Hr').
  destruct (Buckets.first (passes (nodes s) test) (Buckets.chain b h)) as [p|] eqn:Hfst.
  - destruct (BucketsFacts.remove_wf _ b _ h p Hwf Hfst) as (b'&Hb'&Hwf'&_). rewrite Hb'.
    split_and!; [done..|]. eapply hinv_same; [done|done|].
    unfold Buckets.remove in Hb'. rewrite Hfst in Hb'. injection Hb' as <-. done.
  - rewrite BucketsFacts.remove_None by done. split_and!; [done..|]. by eapply hinv_same.
Qed.

Lemma hremove_wp k (h : Z) s b :
  hinv s b ->
  wp (remove k h) s (fun r s' => same (nodes s) (nodes s') /\
    r = (Buckets.remove (passes (nodes s) (fun _ n => is_key k (value n))) h b).1 /\
    hinv s' (Buckets.remove (passes (nodes s) (fun _ n => is_key k (value n))) h b).2).
Proof.
  intros Hi. destruct (hrep_lookup s b h (proj1 Hi) (proj2 Hi)) as (x&Hx&_&Hlen).
  unfold remove, bucket_of, table_get. wp_steps. rewrite (h_bs _ _ (proj1 Hi)).
  change (Z.to_nat (h mod _)) with (Buckets.slot b h). wp_steps.
  apply remove_chain_wp; [done..|]. unfold fuel. lia.
Qed.

Lemma remove_node_wp t n s b :
  hinv s b -> nodes s !! t = Some n ->
  wp (remove_node t) s (fun r s' => same (nodes s) (nodes s') /\
    r = (Buckets.remove (passes (nodes s) (fun c _ => bool_decide (c = t))) (hash_value_ n) b).1 /\
    hinv s' (Buckets.remove (passes (nodes s) (fun c _ => bool_decide (c = t))) (hash_value_ n) b).2).
Proof.
  intros Hi Hn. destruct (hrep_lookup s b (hash_value_ n) (proj1 Hi) (proj2 Hi)) as (x&Hx&_&Hlen).
  unfold remove_node, node, bucket_of, table_get. wp_steps. rewrite (h_bs _ _ (proj1 Hi)).
  change (Z.to_nat (hash_value_ n mod _)) with (Buckets.slot b (hash_value_ n)). wp_steps.
  apply remove_chain_wp; [done..|]. unfold fuel. lia.
Qed.
End facts.

(** ** The map against finite sets of elements with unique keys

    [val] is the payload of every live element; the client computes the hash
    of an element by [hash_of], the same number as the hash of its key. *)
Section simulation.
Context {K T : Type} `{PK K T} `{Table_Malloc}.
Context (val : ptr -> T) (hash : K -> Z) (hash_of : ptr -> Z) (live : gset ptr).
Implicit Types (E : gset ptr) (s : hmap T) (p q : ptr).

Inductive hop := Find (k : K) | Insert (p : ptr) | Remove (k : K) | RemoveNode (p : ptr).

Definition hexec (o : hop) : ST (hmap T) (option ptr) :=
  match o with
  | Find k => find k (hash k)
  | Insert p => insert p (hash_of p);; mret None
  | Remove k => remove k (hash k)
  | RemoveNode p => remove_node p
  end.

Definition with_key (k : K) E : option ptr :=
  head (filter (fun p => is_key k (val p) = true) (elements E)).
Definition hspec (o : hop) E : option ptr * gset ptr :=
  match o with
  | Find k => (with_key k E, E)
  | Insert p => (None, {[p]} ∪ E)
  | Remove k => match with_key k E with Some p => (Some p, E ∖ {[p]}) | None => (None, E) end
  | RemoveNode p => if decide (p ∈ E) then (Some p, E ∖ {[p]}) else (None, E)
  end.
(** The caller's side: an inserted element is live and new, its key is new,
    and there are fewer than [2^29] elements. *)
Definition hpre (o : hop) E : Prop :=
  match o with
  | Find _ | Remove _ => True
  | Insert p => p ∈ live /\ p ∉ E /\ Z.of_nat (size E) < 2 ^ 29 /\
      forall k q, q ∈ E -> is_key k (val p) = true -> is_key k (val q) = false
  | RemoveNode p => p ∈ live
  end.

Definition unique_keys E : Prop :=
  forall k p q, p ∈ E -> q ∈ E -> is_key k (val p) = true -> is_key k (val q) = true -> p = q.

Record hworld s E : Prop := {
  hw_rep : exists b, hinv s b /\ forall p, p ∈ Buckets.contents b <-> p ∈ E;
  hw_val : forall p, p ∈ live -> value <$> nodes s !! p = Some (val p);
  hw_hash : forall p, p ∈ E -> hv (nodes s) p = hash_of p;
  hw_live : E ⊆ live;
  hw_uniq : unique_keys E
}.

Lemma hworld_size s E : hworld s E -> size_ s = Z.of_nat (size E).
Proof.
  intros [(b&[Hr Hwf]&Hc) _ _ _ _]. rewrite (h_sz _ _ Hr), (Buckets.wf_count _ _ Hwf).
  f_equal. rewrite <- (size_list_to_set (C := gset ptr)) by apply Hwf.
  f_equal. apply set_eq. intros p. by rewrite elem_of_list_to_set.
Qed.
Lemma hworld_length s E b :
  Buckets.wf (hv (nodes s)) b -> (forall p, p ∈ Buckets.contents b <-> p ∈ E) ->
  length (Buckets.contents b) = size E.
Proof.
  intros Hwf Hc. rewrite <- (size_list_to_set (C := gset ptr)) by apply Hwf.
  f_equal. apply set_eq. intros p. by rewrite elem_of_list_to_set.
Qed.

Lemma same_val (m m' : gmap ptr (hnode T)) p : same m m' -> value <$> m' !! p = value <$> m !! p.
Proof.
  intros Hs. specialize (Hs p). destruct (m !! p), (m' !! p); cbn in *; try done.
  by injection Hs as _ ->.
Qed.
Lemma passes_val s E (g : ptr -> T -> bool) p :
  hworld s E -> p ∈ E -> passes (nodes s) (fun q n => g q (value n)) p = g p (val p).
Proof.
  intros Hw Hp. pose proof (hw_val _ _ Hw p (hw_live _ _ Hw p Hp)) as Hv.
  unfold passes. destruct (nodes s !! p); [|done]. injection Hv as <-. done.
Qed.

Lemma with_key_Some k E p : with_key k E = Some p -> p ∈ E /\ is_key k (val p) = true.
Proof.
  unfold with_key. intros Hh. destruct (filter _ _) as [|q l] eqn:Hf; [done|].
  injection Hh as ->.
  assert (p ∈ filter (fun p => is_key k (val p) = true) (elements E)) as [??]%list_elem_of_filter
    by (rewrite Hf; by left).
  split; [by apply elem_of_elements|done].
Qed.
Lemma with_key_None k E p : with_key k E = None -> p ∈ E -> is_key k (val p) = false.
Proof.
  unfold with_key. intros Hh Hp. destruct (filter _ _) as [|q l] eqn:Hf; [|done].
  destruct (is_key k (val p)) eqn:Hk; [|done].
  assert (p ∈ filter (fun p => is_key k (val p) = true) (elements E)) as Hin
    by (apply list_elem_of_filter; by rewrite elem_of_elements).
  rewrite Hf in Hin. set_solver.
Qed.

(** A new map over live elements. *)
Lemma init_world ns n :
  0 < n <= 2 ^ 30 -> (forall p, p ∈ live -> value <$> ns !! p = Some (val p)) ->
  hworld (init ns n) ∅.
Proof.
  intros Hn Hv. destruct (BucketsFacts.init_wf (hv ns) n Hn) as [Hwf Hc].
  split; [|done|intros p Hp; by apply not_elem_of_empty in Hp|apply empty_subseteq|intros k p q Hp; by apply not_elem_of_empty in Hp]. exists (Buckets.init n). rewrite Hc.
  split; [split; [|done]|set_solver]. split; try done. apply Forall2_replicate. done.
Qed.

Context (hash_key : forall k p, is_key k (val p) = true -> hash_of p = hash k).

Definition the_one (g : ptr -> T -> bool) (h : Z) E (o : option ptr) : Prop :=
  match o with
  | Some p => p ∈ E /\ g p (val p) = true /\ hash_of p = h /\
              forall q, q ∈ E -> g q (val q) = true -> q = p
  | None => forall q, q ∈ E -> g q (val q) = false
  end.

Lemma with_key_the_one k E : unique_keys E -> the_one (fun _ => is_key k) (hash k) E (with_key k E).
Proof.
  intros Hu. destruct (with_key k E) as [p|] eqn:Hk; cbn.
  - apply with_key_Some in Hk as [Hp Hk]. eauto 8.
  - intros q. by apply with_key_None.
Qed.

Lemma find_the_one g h E o s b :
  hworld s E -> Buckets.wf (hv (nodes s)) b -> (forall p, p ∈ Buckets.contents b <-> p ∈ E) ->
  the_one g h E o ->
  Buckets.find (passes (nodes s) (fun q n => g q (value n))) h b = o.
Proof.
  intros Hw Hwf Hc Ho. destruct o as [p|]; cbn in Ho.
  - destruct Ho as (Hp&Hg&Hh&Hu). eapply BucketsFacts.find_unique; [done|by apply Hc|..].
    + by rewrite (hw_hash _ _ Hw).
    + by rewrite (passes_val s E).
    + intros q Hq. apply Hc in Hq. rewrite (passes_val s E) by done. auto.
  - destruct (Buckets.find _ h b) as [p|] eqn:Hf; [|done].
    apply (BucketsFacts.find_Some (hv (nodes s))) in Hf as [Hp Ht]; [|done].
    apply Hc in Hp. rewrite (passes_val s E), Ho in Ht by done. done.
Qed.

Lemma hworld_shrink s s' E E' b :
  hworld s E -> same (nodes s) (nodes s') -> E' ⊆ E -> hinv s' b ->
  (forall p, p ∈ Buckets.contents b <-> p ∈ E') -> hworld s' E'.
Proof.
  intros [_ Hv Hh Hl Hu] Hs Hsub Hi Hc. split; [by exists b|..].
  - intros p Hp. rewrite (same_val (nodes s) _ _ Hs). auto.
  - intros p Hp. rewrite (same_hv (nodes s) _ _ Hs). auto.
  - set_solver.
  - intros k p q ??. apply Hu; auto.
Qed.

(** What a removal by a test that only one element passes does. *)
Lemma remove_the_one g h E o s s' b r :
  hworld s E -> Buckets.wf (hv (nodes s)) b -> (forall p, p ∈ Buckets.contents b <-> p ∈ E) ->
  the_one g h E o -> same (nodes s) (nodes s') ->
  r = (Buckets.remove (passes (nodes s) (fun q n => g q (value n))) h b).1 ->
  hinv s' (Buckets.remove (passes (nodes s) (fun q n => g q (value n))) h b).2 ->
  r = o /\ hworld s' (match o with Some p => E ∖ {[p]} | None => E end).
Proof.
  intros Hw Hwf Hc Ho Hs Hr Hi.
  pose proof (find_the_one _ _ _ _ _ _ Hw Hwf Hc Ho) as Hf. destruct o as [p|].
  - destruct (BucketsFacts.remove_wf _ _ _ _ _ Hwf Hf) as (b'&Hb&Hwf'&Hp). rewrite Hb in Hr, Hi.
    split; [done|]. eapply hworld_shrink; [done..|set_solver|done|].
    assert (NoDup (p :: Buckets.contents b')) as [Hnin _]%NoDup_cons by (rewrite <- Hp; apply Hwf).
    intros q. rewrite elem_of_difference, <- Hc, Hp. set_solver.
  - rewrite BucketsFacts.remove_None in Hr, Hi by done.
    split; [done|]. by eapply hworld_shrink.
Qed.

Lemma hexec_wp o s E :
  hworld s E -> hpre o E ->
  wp (hexec o) s (fun r s' => r = (hspec o E).1 /\ hworld s' (hspec o E).2).
Proof.
  intros Hw Hpre. pose proof Hw as [(b&Hi&Hc) Hv Hh Hl Hu]. pose proof (proj2 Hi) as Hwf.
  destruct o as [k|p|k|p]; cbn [hexec hspec hpre] in *.
  - eapply wp_mono; [by apply find_wp|]. intros r s' [-> ->]. split; [|done].
    eapply (find_the_one (fun _ => is_key k)); [done..|]. by apply with_key_the_one.
  - destruct Hpre as (Hlive&Hnew&Hsz&Hkeys). apply wp_bind.
    destruct (nodes s !! p) as [n|] eqn:Hn; [|specialize (Hv p Hlive); by rewrite Hn in Hv].
    assert (p ∉ Buckets.contents b) as Hpb by (by rewrite Hc).
    eapply wp_mono; [eapply insert_wp; [done|done|done|by rewrite (hworld_length s E)]|].
    intros [] s' [Hs Hi']. apply wp_ret. split; [done|].
    set (m1 := <[p := _]> (nodes s)) in Hs. destruct Hi' as [Hr' Hwf'].
    assert (hv (nodes s') p = hash_of p) as Hhp.
    { rewrite (same_hv m1) by done. unfold hv, m1. by rewrite lookup_insert_eq. }
    assert (forall q, q <> p -> hv (nodes s') q = hv (nodes s) q) as Hhq.
    { intros q Hq. rewrite (same_hv m1) by done. unfold hv, m1. by rewrite lookup_insert_ne. }
    destruct (BucketsFacts.insert_wf (hv (nodes s')) b p (hash_of p)) as [_ Hc']; try done.
    { eapply BucketsFacts.wf_ext; [|done]. intros q Hq. apply Hhq. set_solver. }
    { by rewrite (hworld_length s E). }
    split; cbn [snd].
    + exists (Buckets.insert (hv (nodes s')) p (hash_of p) b). split; [by split|].
      intros q. rewrite Hc'. set_solver.
    + intros q Hq. rewrite (same_val m1) by done. unfold m1.
      destruct (decide (p = q)) as [<-|]; [|by rewrite lookup_insert_ne; auto].
      rewrite lookup_insert_eq. rewrite <- (Hv p), Hn by done. done.
    + intros q. destruct (decide (q = p)) as [->|]; [done|]. rewrite Hhq by done. set_solver.
    + set_solver.
    + intros k q1 q2 H1 H2 Hk1 Hk2. rewrite elem_of_union, elem_of_singleton in H1, H2.
      destruct H1 as [->|H1], H2 as [->|H2]; [done| | |by eapply Hu].
      * by rewrite (Hkeys k q2) in Hk2.
      * by rewrite (Hkeys k q1) in Hk1.
  - eapply wp_mono; [by apply hremove_wp|]. intros r s' (Hs&Hr&Hi').
    destruct (remove_the_one (fun _ => is_key k) (hash k) E (with_key k E) s s' b r) as [-> ?];
      try done; [by apply with_key_the_one|]. destruct (with_key k E); done.
  - destruct (nodes s !! p) as [n|] eqn:Hn; [|specialize (Hv p Hpre); by rewrite Hn in Hv].
    eapply wp_mono; [by eapply remove_node_wp|]. intros r s' (Hs&Hr&Hi').
    destruct (remove_the_one (fun c _ => bool_decide (c = p)) (hash_value_ n) E
      (if decide (p ∈ E) then Some p else None) s s' b r) as [-> ?]; try done.
    + destruct (decide (p ∈ E)) as [Hp|Hp]; cbn.
      * split_and!; [done|by apply bool_decide_eq_true| |].
        { rewrite <- Hh by done. unfold hv. by rewrite Hn. }
        intros q _ ->%bool_decide_eq_true. done.
      * intros q Hq. apply bool_decide_eq_false. by intros ->.
    + by destruct (decide (p ∈ E)).
Qed.

Fixpoint hrun (os : list hop) : ST (hmap T) (list (option ptr)) :=
  match os with
  | [] => mret []
  | o :: os => v ← hexec o; vs ← hrun os; mret (v :: vs)
  end.
Fixpoint hspec_run (os : list hop) E : list (option ptr) * gset ptr :=
  match os with
  | [] => ([], E)
  | o :: os => let r := hspec_run os (hspec o E).2 in ((hspec o E).1 :: r.1, r.2)
  end.
Fixpoint hrun_pre (os : list hop) E : Prop :=
  match os with
  | [] => True
  | o :: os => hpre o E /\ hrun_pre os (hspec o E).2
  end.

Lemma hrun_wp os s E :
  hworld s E -> hrun_pre os E ->
  wp (hrun os) s (fun rs s' => rs = (hspec_run os E).1 /\ hworld s' (hspec_run os E).2).
Proof.
  revert s E. induction os as [|o os IH]; intros s E Hw; cbn [hrun hrun_pre hspec_run]; [by intros _|].
  intros [Hpre Hrest]. apply wp_bind. eapply wp_mono; [by apply hexec_wp|].
  intros r s1 [-> Hw1]. apply wp_bind. eapply wp_mono; [by apply IH|].
  intros rs s2 [-> Hw2]. by apply wp_ret.
Qed.

End simulation.

(** ** Properties *)

(** C17. The pointer-level hash map is a finite set of elements with a lookup by
    key: from a new map over live elements, any run of [find], [insert] and both
    [remove]s that keeps the caller's side ([hrun_pre]) returns exactly what the
    set of inserted and not yet removed elements answers, across every expansion
    and every refused expansion; no loop runs out of fuel, no link leaves the
    live elements, and [size()] is the number of elements. *)
Theorem hash_map_is_finite_map {K T : Type} `{PK K T} `{Table_Malloc}
    (val : ptr -> T) (hash : K -> Z) (hash_of : ptr -> Z) (live : gset ptr) ns n os :
  (forall k p, is_key k (val p) = true -> hash_of p = hash k) ->
  (forall p, p ∈ live -> value <$> ns !! p = Some (val p)) ->
  0 < n <= 2 ^ 30 ->
  hrun_pre val live os ∅ ->
  exists s', run (hrun hash hash_of os) (init ns n) ((hspec_run val os ∅).1, s')
    /\ hworld val hash_of live s' (hspec_run val os ∅).2
    /\ size_ s' = Z.of_nat (size (hspec_run val os ∅).2).
Proof.
  intros Hk Hv Hn Hpre. pose proof (init_world val hash_of live ns n Hn Hv) as Hw.
  pose proof (hrun_wp val hash hash_of live Hk os _ _ Hw Hpre) as Hr.
  apply wp_run in Hr as (rs&s'&Hr&->&Hw'). exists s'. split_and!; [done..|].
  by eapply hworld_size.
Qed.

(** Six elements whose keys are their numbers, all with the hash 1 or 0, in a
    table of one bucket: every insertion of the run collides or expands. *)
#[local] Instance demo_pk : PK Z Z := Z.eqb.
#[local] Instance demo_malloc : Table_Malloc := fun n => n <=? 100.
Definition demo_val (p : ptr) : Z := Zpos p.
Definition demo_hash (k : Z) : Z := k mod 2.
Definition demo_nodes : gmap ptr (hnode Z) :=
    list_to_map (map (fun p => (p, mkhnode None 0 (Zpos p))) [1; 2; 3; 4; 5; 6]%positive).
Definition demo_hops : list (@hop Z) :=
    [Insert 1; Insert 2; Insert 3; Insert 4; Insert 5; Find 3%Z; Remove 3%Z; Find 3%Z;
     RemoveNode 5; Insert 6; RemoveNode 5; Find 6%Z; Find 1%Z]%positive.

Lemma hash_map_is_finite_map_witness :
  exists s', run (hrun demo_hash (fun p => Zpos p mod 2) demo_hops) (init demo_nodes 1)
    ([None; None; None; None; None; Some 3; Some 3; None; Some 5; None; None; Some 6; Some 1]%positive, s')
    /\ size_ s' = 4.
Proof.
  destruct (hash_map_is_finite_map demo_val demo_hash (fun p => Zpos p mod 2)
    (list_to_set [1; 2; 3; 4; 5; 6]%positive) demo_nodes 1 demo_hops) as (s'&Hr&_&Hs).
  - intros k p ->%Z.eqb_eq. done.
  - apply (bool_decide_eq_true_1 (set_Forall _ (list_to_set [1; 2; 3; 4; 5; 6]%positive : gset ptr))).
    vm_compute. done.
  - lia.
  - cbn [demo_hops hrun_pre hpre]. split_and!; try done; try (vm_compute; done);
      intros k q; intros Hq Hk%Z.eqb_eq; apply Z.eqb_neq; intros Hk'; subst k;
      injection Hk' as <-; revert Hq; apply (bool_decide_eq_false_1 _); vm_compute; done.
  - exists s'. split; [exact Hr|exact Hs].
Defined.

(** The load bound of [insert]: while [malloc] grants the expansions, an
    insertion keeps the number of elements at most half again the number of
    buckets, and it never shrinks the table. *)
Theorem insert_keeps_load (hv : ptr -> Z) `{Table_Malloc} p h b :
  Buckets.wf hv b -> Z.of_nat (length (Buckets.contents b)) < 2 ^ 29 ->
  (forall n, malloc_table n = true) ->
  Buckets.size_ b <= Buckets.expand_size_ b ->
  Buckets.size_ (Buckets.insert hv p h b) <= Buckets.expand_size_ (Buckets.insert hv p h b)
  /\ Buckets.bucket_size_ b <= Buckets.bucket_size_ (Buckets.insert hv p h b).
Proof.
  intros Hwf Hlen Hm Hload. pose proof (Buckets.wf_size _ _ Hwf).
  pose proof (Buckets.wf_expand _ _ Hwf) as He. pose proof (Buckets.wf_count _ _ Hwf) as Hc.
  assert (forall m, 0 < m <= 2 ^ 30 -> expand_size_of m = m * 3 / 2) as Hexp.
  { intros m Hm'. unfold expand_size_of. rewrite wrap_small by lia. done. }
  unfold Buckets.insert. set (b1 := Buckets.push p h b).
  assert (Buckets.size_ b1 = Buckets.size_ b + 1) as Hs1.
  { unfold b1. cbn. rewrite wrap_small by lia. done. }
  change (Buckets.expand_size_ b1) with (Buckets.expand_size_ b).
  destruct (Z.gtb_spec (Buckets.size_ b1) (Buckets.expand_size_ b)) as [Hgt|Hle].
  2: { split; [exact Hle|]. cbn. lia. }
  unfold Buckets.expand. rewrite Hm. cbn [Buckets.size_ Buckets.expand_size_ Buckets.bucket_size_].
  change (Buckets.bucket_size_ b1) with (Buckets.bucket_size_ b).
  rewrite Hexp in He by lia.
  assert (Buckets.bucket_size_ b <= 2 ^ 29) as Hb29.
  { pose proof (Z.div_mod (Buckets.bucket_size_ b * 3) 2).
    pose proof (Z.mod_pos_bound (Buckets.bucket_size_ b * 3) 2). lia. }
  pose proof (BucketsFacts.next_bucket_size_bound (Buckets.bucket_size_ b) ltac:(lia) Hb29) as Hn.
  pose proof (BucketsFacts.next_bucket_size_gt (Buckets.bucket_size_ b) ltac:(lia)) as Hgt'.
  rewrite Hexp by lia. split; [|lia].
  pose proof (Z.div_le_mono (Buckets.bucket_size_ b * 3 + 1 * 2)
    (next_bucket_size (Buckets.bucket_size_ b) * 3) 2 ltac:(lia) ltac:(lia)) as Hd.
  rewrite Z.div_add in Hd by lia. lia.
Qed.

Lemma insert_keeps_load_witness :
  let b := Buckets.insert (fun _ => 5) (H := fun _ => true) 1%positive 5 (Buckets.init 1) in
  Buckets.size_ (Buckets.insert (fun _ => 5) (H := fun _ => true) 2%positive 5 b)
    <= Buckets.expand_size_ (Buckets.insert (fun _ => 5) (H := fun _ => true) 2%positive 5 b).
Proof.
  intros b.
  assert (Buckets.wf (fun _ => 5) b /\ Buckets.contents b ≡ₚ [1%positive]) as [Hwf Hc].
  { destruct (BucketsFacts.init_wf (fun _ => 5) 1) as [Hi He]; [lia|].
    destruct (BucketsFacts.insert_wf (H := fun _ => true) (fun _ => 5) (Buckets.init 1) 1%positive 5)
      as [Hw Hp]; rewrite ?He in *; try done. set_solver. }
  apply (insert_keeps_load (fun _ => 5) (H := fun _ => true) 2%positive 5 b).
  - exact Hwf.
  - rewrite Hc. done.
  - done.
  - vm_compute. done.
Defined.
End HMapFacts.
