(* ===== verification/Lookup3.v ===== *)
(** * Bob Jenkins' hash functions, [src/src/lookup3.cpp] and [src/src/hash.h]

    The key is read from a memory of bytes, [m : Z -> Z], at an address.
    [hashlittle] reads it by 32-bit words, 16-bit words or bytes, by the
    alignment of the address; every one of these paths is a definition here,
    and the theorems show that they compute the same function of the bytes of
    the key, the documented relations between the six hash functions, and that
    the mixing steps lose no information. *)

From S2P Require Import Prelude.

(** [HASH_LITTLE_ENDIAN] and [HASH_BIG_ENDIAN], lines 53-67. *)
Inductive endian := LittleEndian | BigEndian | UnknownEndian.
Definition HASH_LITTLE_ENDIAN (e : endian) : bool :=
  match e with LittleEndian => true | _ => false end.
Definition HASH_BIG_ENDIAN (e : endian) : bool :=
  match e with BigEndian => true | _ => false end.

(** The internal state [uint32_t a, b, c]. *)
Record abc := mkabc { a_ : Z; b_ : Z; c_ : Z }.

(** ** The mixing macros *)

(** [rot], line 71. *)
Definition rot (x k : Z) : Z := Z.lor (u32 (Z.shiftl x k)) (Z.shiftr x (32 - k)).

(** [mix], lines 117-125. *)
Definition mix (s : abc) : abc :=
  let '(mkabc a b c) := s in
  let a := u32 (a - c) in let a := Z.lxor a (rot c 4) in let c := u32 (c + b) in
  let b := u32 (b - a) in let b := Z.lxor b (rot a 6) in let a := u32 (a + c) in
  let c := u32 (c - b) in let c := Z.lxor c (rot b 8) in let b := u32 (b + a) in
  let a := u32 (a - c) in let a := Z.lxor a (rot c 16) in let c := u32 (c + b) in
  let b := u32 (b - a) in let b := Z.lxor b (rot a 19) in let a := u32 (a + c) in
  let c := u32 (c - b) in let c := Z.lxor c (rot b 4) in let b := u32 (b + a) in
  mkabc a b c.

(** [final], lines 152-161. *)
Definition final (s : abc) : abc :=
  let '(mkabc a b c) := s in
  let c := Z.lxor c b in let c := u32 (c - rot b 14) in
  let a := Z.lxor a c in let a := u32 (a - rot c 11) in
  let b := Z.lxor b a in let b := u32 (b - rot a 25) in
  let c := Z.lxor c b in let c := u32 (c - rot b 16) in
  let a := Z.lxor a c in let a := u32 (a - rot c 4) in
  let b := Z.lxor b a in let b := u32 (b - rot a 14) in
  let c := Z.lxor c b in let c := u32 (c - rot b 24) in
  mkabc a b c.

(** [a += x; b += y; c += z;] *)
Definition add3 (s : abc) (x y z : Z) : abc :=
  mkabc (u32 (a_ s + x)) (u32 (b_ s + y)) (u32 (c_ s + z)).

(** [a = b = c = 0xdeadbeef + (uint32_t)length + initval] *)
Definition seed (length initval : Z) : abc :=
  let x := u32 (u32 (0xdeadbeef + u32 length) + initval) in mkabc x x x.

(** ** Keys of 32-bit words *)

(** [while (length > 3) { ..; length -= 3; k += 3; }] *)
Fixpoint while3 (step : Z -> abc -> abc) (length : nat) (k : Z) (s : abc) : abc * nat * Z :=
  match length with
  | S (S (S (S _ as l))) => while3 step l (k + 3) (step k s)
  | _ => (s, length, k)
  end.

Section words.
Context (w : Z -> Z).

(** The loop body and the last three words of [hashword], lines 187-206. *)
Definition word_block (k : Z) (s : abc) : abc :=
  mix (add3 s (w k) (w (k + 1)) (w (k + 2))).
Definition word_tail (length : nat) (k : Z) (s : abc) : abc :=
  match length with
  | 3%nat => final (add3 s (w k) (w (k + 1)) (w (k + 2)))
  | 2%nat => final (add3 s (w k) (w (k + 1)) 0)
  | 1%nat => final (add3 s (w k) 0 0)
  | _ => s
  end.

(** Lines 176-209. *)
Definition hashword (k : Z) (length : nat) (initval : Z) : Z :=
  let x := u32 (u32 (0xdeadbeef + u32 (Z.shiftl (u32 (Z.of_nat length)) 2)) + initval) in
  let '(s, l, k) := while3 word_block length k (mkabc x x x) in
  c_ (word_tail l k s).

(** Lines 220-255: the pair of hashes left in the two seeds. *)
Definition hashword2 (k : Z) (length : nat) (pc pb : Z) : Z * Z :=
  let x := u32 (u32 (0xdeadbeef + u32 (u64 (Z.shiftl (Z.of_nat length) 2))) + pc) in
  let '(s, l, k) := while3 word_block length k (mkabc x x (u32 (x + pb))) in
  let s := word_tail l k s in (c_ s, b_ s).
End words.

(** ** Keys of bytes *)

(** [while (length > 12) { ..; length -= 12; k += 12 bytes; }] *)
Fixpoint while12 (step : Z -> abc -> abc) (length : nat) (k : Z) (s : abc) : abc * nat * Z :=
  match length with
  | S (S (S (S (S (S (S (S (S (S (S (S (S _ as l)))))))))))) => while12 step l (k + 12) (step k s)
  | _ => (s, length, k)
  end.

Section bytes.
Context (m : Z -> Z).

(** Reads of a little-endian and of a big-endian machine. *)
Definition k8 (p : Z) : Z := m p.
Definition k16 (p : Z) : Z := m p + 2 ^ 8 * m (p + 1).
Definition k32 (p : Z) : Z := m p + 2 ^ 8 * m (p + 1) + 2 ^ 16 * m (p + 2) + 2 ^ 24 * m (p + 3).
Definition k32be (p : Z) : Z := 2 ^ 24 * m p + 2 ^ 16 * m (p + 1) + 2 ^ 8 * m (p + 2) + m (p + 3).
(** [k[i] + (((uint32_t)k[i+1])<<16)] of 16-bit reads. *)
Definition k16x2 (p : Z) : Z := u32 (k16 p + Z.shiftl (k16 (p + 2)) 16).

(** Aligned reads, lines 299-336. *)
Definition block32 (k : Z) (s : abc) : abc :=
  mix (add3 s (k32 k) (k32 (k + 4)) (k32 (k + 8))).
Definition tail32 (length : nat) (k : Z) (s : abc) : option abc :=
  match length with
  | 12%nat => Some (add3 s (k32 k) (k32 (k + 4)) (k32 (k + 8)))
  | 11%nat => Some (add3 s (k32 k) (k32 (k + 4)) (Z.land (k32 (k + 8)) 0xffffff))
  | 10%nat => Some (add3 s (k32 k) (k32 (k + 4)) (Z.land (k32 (k + 8)) 0xffff))
  | 9%nat => Some (add3 s (k32 k) (k32 (k + 4)) (Z.land (k32 (k + 8)) 0xff))
  | 8%nat => Some (add3 s (k32 k) (k32 (k + 4)) 0)
  | 7%nat => Some (add3 s (k32 k) (Z.land (k32 (k + 4)) 0xffffff) 0)
  | 6%nat => Some (add3 s (k32 k) (Z.land (k32 (k + 4)) 0xffff) 0)
  | 5%nat => Some (add3 s (k32 k) (Z.land (k32 (k + 4)) 0xff) 0)
  | 4%nat => Some (add3 s (k32 k) 0 0)
  | 3%nat => Some (add3 s (Z.land (k32 k) 0xffffff) 0 0)
  | 2%nat => Some (add3 s (Z.land (k32 k) 0xffff) 0 0)
  | 1%nat => Some (add3 s (Z.land (k32 k) 0xff) 0 0)
  | _ => None
  end.

(** 16-bit aligned reads, lines 365-405. *)
Definition block16 (k : Z) (s : abc) : abc :=
  mix (add3 s (k16x2 k) (k16x2 (k + 4)) (k16x2 (k + 8))).
Definition tail16 (length : nat) (k : Z) (s : abc) : option abc :=
  match length with
  | 12%nat => Some (add3 s (k16x2 k) (k16x2 (k + 4)) (k16x2 (k + 8)))
  | 11%nat => Some (add3 (add3 s 0 0 (Z.shiftl (k8 (k + 10)) 16)) (k16x2 k) (k16x2 (k + 4)) (k16 (k + 8)))
  | 10%nat => Some (add3 s (k16x2 k) (k16x2 (k + 4)) (k16 (k + 8)))
  | 9%nat => Some (add3 (add3 s 0 0 (k8 (k + 8))) (k16x2 k) (k16x2 (k + 4)) 0)
  | 8%nat => Some (add3 s (k16x2 k) (k16x2 (k + 4)) 0)
  | 7%nat => Some (add3 (add3 s 0 (Z.shiftl (k8 (k + 6)) 16) 0) (k16x2 k) (k16 (k + 4)) 0)
  | 6%nat => Some (add3 s (k16x2 k) (k16 (k + 4)) 0)
  | 5%nat => Some (add3 (add3 s 0 (k8 (k + 4)) 0) (k16x2 k) 0 0)
  | 4%nat => Some (add3 s (k16x2 k) 0 0)
  | 3%nat => Some (add3 (add3 s (Z.shiftl (k8 (k + 2)) 16) 0 0) (k16 k) 0 0)
  | 2%nat => Some (add3 s (k16 k) 0 0)
  | 1%nat => Some (add3 s (k8 k) 0 0)
  | _ => None
  end.

(** Byte by byte, lines 411-447; the cases of the switch fall through. *)
Definition block8 (k : Z) (s : abc) : abc :=
  let s := add3 s (k8 k) 0 0 in
  let s := add3 s (Z.shiftl (k8 (k + 1)) 8) 0 0 in
  let s := add3 s (Z.shiftl (k8 (k + 2)) 16) 0 0 in
  let s := add3 s (Z.shiftl (k8 (k + 3)) 24) 0 0 in
  let s := add3 s 0 (k8 (k + 4)) 0 in
  let s := add3 s 0 (Z.shiftl (k8 (k + 5)) 8) 0 in
  let s := add3 s 0 (Z.shiftl (k8 (k + 6)) 16) 0 in
  let s := add3 s 0 (Z.shiftl (k8 (k + 7)) 24) 0 in
  let s := add3 s 0 0 (k8 (k + 8)) in
  let s := add3 s 0 0 (Z.shiftl (k8 (k + 9)) 8) in
  let s := add3 s 0 0 (Z.shiftl (k8 (k + 10)) 16) in
  let s := add3 s 0 0 (Z.shiftl (k8 (k + 11)) 24) in
  mix s.
Definition tail8 (length : nat) (k : Z) (s : abc) : option abc :=
  let case i s' s := if (i <=? length)%nat then s' s else s in
  if (length =? 0)%nat then None else
  let s := case 12%nat (fun s => add3 s 0 0 (Z.shiftl (k8 (k + 11)) 24)) s in
  let s := case 11%nat (fun s => add3 s 0 0 (Z.shiftl (k8 (k + 10)) 16)) s in
  let s := case 10%nat (fun s => add3 s 0 0 (Z.shiftl (k8 (k + 9)) 8)) s in
  let s := case 9%nat (fun s => add3 s 0 0 (k8 (k + 8))) s in
  let s := case 8%nat (fun s => add3 s 0 (Z.shiftl (k8 (k + 7)) 24) 0) s in
  let s := case 7%nat (fun s => add3 s 0 (Z.shiftl (k8 (k + 6)) 16) 0) s in
  let s := case 6%nat (fun s => add3 s 0 (Z.shiftl (k8 (k + 5)) 8) 0) s in
  let s := case 5%nat (fun s => add3 s 0 (k8 (k + 4)) 0) s in
  let s := case 4%nat (fun s => add3 s (Z.shiftl (k8 (k + 3)) 24) 0 0) s in
  let s := case 3%nat (fun s => add3 s (Z.shiftl (k8 (k + 2)) 16) 0 0) s in
  let s := case 2%nat (fun s => add3 s (Z.shiftl (k8 (k + 1)) 8) 0 0) s in
  Some (add3 s (k8 k) 0 0).

(** One path: the loop, the last block and, unless no byte is left, [final]. *)
Definition path (block : Z -> abc -> abc) (tail : nat -> Z -> abc -> option abc)
    (k : Z) (length : nat) (s : abc) : abc :=
  let '(s, l, k) := while12 block length k s in
  match tail l k s with Some s => final s | None => s end.

(** The choice of the path by the alignment of [key], lines 294, 360 and 407. *)
Definition hashlittle_path (e : endian) (key : Z) : nat -> abc -> abc :=
  if HASH_LITTLE_ENDIAN e && (Z.land key 3 =? 0) then path block32 tail32 key
  else if HASH_LITTLE_ENDIAN e && (Z.land key 1 =? 0) then path block16 tail16 key
  else path block8 tail8 key.

(** Lines 285-452. *)
Definition hashlittle (e : endian) (key : Z) (length : nat) (initval : Z) : Z :=
  c_ (hashlittle_path e key length (seed (Z.of_nat length) initval)).

(** Lines 465-637. *)
Definition hashlittle2 (e : endian) (key : Z) (length : nat) (pc pb : Z) : Z * Z :=
  let s := seed (Z.of_nat length) pc in
  let s := hashlittle_path e key length (mkabc (a_ s) (b_ s) (u32 (c_ s + pb))) in
  (c_ s, b_ s).

(** [hashbig] on a big-endian machine, aligned: lines 661-698. *)
Definition block32be (k : Z) (s : abc) : abc :=
  mix (add3 s (k32be k) (k32be (k + 4)) (k32be (k + 8))).
Definition tail32be (length : nat) (k : Z) (s : abc) : option abc :=
  match length with
  | 12%nat => Some (add3 s (k32be k) (k32be (k + 4)) (k32be (k + 8)))
  | 11%nat => Some (add3 s (k32be k) (k32be (k + 4)) (Z.land (k32be (k + 8)) 0xffffff00))
  | 10%nat => Some (add3 s (k32be k) (k32be (k + 4)) (Z.land (k32be (k + 8)) 0xffff0000))
  | 9%nat => Some (add3 s (k32be k) (k32be (k + 4)) (Z.land (k32be (k + 8)) 0xff000000))
  | 8%nat => Some (add3 s (k32be k) (k32be (k + 4)) 0)
  | 7%nat => Some (add3 s (k32be k) (Z.land (k32be (k + 4)) 0xffffff00) 0)
  | 6%nat => Some (add3 s (k32be k) (Z.land (k32be (k + 4)) 0xffff0000) 0)
  | 5%nat => Some (add3 s (k32be k) (Z.land (k32be (k + 4)) 0xff000000) 0)
  | 4%nat => Some (add3 s (k32be k) 0 0)
  | 3%nat => Some (add3 s (Z.land (k32be k) 0xffffff00) 0 0)
  | 2%nat => Some (add3 s (Z.land (k32be k) 0xffff0000) 0 0)
  | 1%nat => Some (add3 s (Z.land (k32be k) 0xff000000) 0 0)
  | _ => None
  end.

(** Byte by byte, lines 726-762. *)
Definition block8be (k : Z) (s : abc) : abc :=
  let s := add3 s (Z.shiftl (k8 k) 24) 0 0 in
  let s := add3 s (Z.shiftl (k8 (k + 1)) 16) 0 0 in
  let s := add3 s (Z.shiftl (k8 (k + 2)) 8) 0 0 in
  let s := add3 s (k8 (k + 3)) 0 0 in
  let s := add3 s 0 (Z.shiftl (k8 (k + 4)) 24) 0 in
  let s := add3 s 0 (Z.shiftl (k8 (k + 5)) 16) 0 in
  let s := add3 s 0 (Z.shiftl (k8 (k + 6)) 8) 0 in
  let s := add3 s 0 (k8 (k + 7)) 0 in
  let s := add3 s 0 0 (Z.shiftl (k8 (k + 8)) 24) in
  let s := add3 s 0 0 (Z.shiftl (k8 (k + 9)) 16) in
  let s := add3 s 0 0 (Z.shiftl (k8 (k + 10)) 8) in
  let s := add3 s 0 0 (k8 (k + 11)) in
  mix s.
Definition tail8be (length : nat) (k : Z) (s : abc) : option abc :=
  let case i s' s := if (i <=? length)%nat then s' s else s in
  if (length =? 0)%nat then None else
  let s := case 12%nat (fun s => add3 s 0 0 (k8 (k + 11))) s in
  let s := case 11%nat (fun s => add3 s 0 0 (Z.shiftl (k8 (k + 10)) 8)) s in
  let s := case 10%nat (fun s => add3 s 0 0 (Z.shiftl (k8 (k + 9)) 16)) s in
  let s := case 9%nat (fun s => add3 s 0 0 (Z.shiftl (k8 (k + 8)) 24)) s in
  let s := case 8%nat (fun s => add3 s 0 (k8 (k + 7)) 0) s in
  let s := case 7%nat (fun s => add3 s 0 (Z.shiftl (k8 (k + 6)) 8) 0) s in
  let s := case 6%nat (fun s => add3 s 0 (Z.shiftl (k8 (k + 5)) 16) 0) s in
  let s := case 5%nat (fun s => add3 s 0 (Z.shiftl (k8 (k + 4)) 24) 0) s in
  let s := case 4%nat (fun s => add3 s (k8 (k + 3)) 0 0) s in
  let s := case 3%nat (fun s => add3 s (Z.shiftl (k8 (k + 2)) 8) 0 0) s in
  let s := case 2%nat (fun s => add3 s (Z.shiftl (k8 (k + 1)) 16) 0 0) s in
  Some (add3 s (Z.shiftl (k8 k) 24) 0 0).

(** Lines 647-767. *)
Definition hashbig (e : endian) (key : Z) (length : nat) (initval : Z) : Z :=
  let s := seed (Z.of_nat length) initval in
  c_ (if HASH_BIG_ENDIAN e && (Z.land key 3 =? 0) then path block32be tail32be key length s
      else path block8be tail8be key length s).

(** [hash32] of [hash.h], for a machine with [ENDIAN_LITTLE] or without. *)
Definition hash32 (e : endian) (key : Z) (length : nat) (initval : Z) : Z :=
  match e with
  | LittleEndian => hashlittle e key length initval
  | _ => hashbig e key length initval
  end.
End bytes.

(** ** The macros lose no information *)
Section reversible.
Definition abc32 (s : abc) : Prop :=
  0 <= a_ s < 2 ^ 32 /\ 0 <= b_ s < 2 ^ 32 /\ 0 <= c_ s < 2 ^ 32.

(** One line of [mix] is three of these rounds, the roles of the variables
    moving on by one each time; likewise [final]. *)
Definition round (k : Z) (s : abc) : abc :=
  let '(mkabc x y z) := s in
  mkabc y (u32 (z + y)) (Z.lxor (u32 (x - z)) (rot z k)).
Definition unround (k : Z) (s : abc) : abc :=
  let '(mkabc y z' x') := s in
  let z := u32 (z' - y) in mkabc (u32 (Z.lxor x' (rot z k) + z)) y z.
Definition fround (k : Z) (s : abc) : abc :=
  let '(mkabc t r o) := s in mkabc o (u32 (Z.lxor t r - rot r k)) r.
Definition unfround (k : Z) (s : abc) : abc :=
  let '(mkabc o t' r) := s in mkabc (Z.lxor (u32 (t' + rot r k)) r) r o.
Definition flip3 (s : abc) : abc := let '(mkabc x y z) := s in mkabc z y x.

Definition unmix (s : abc) : abc :=
  unround 4 (unround 6 (unround 8 (unround 16 (unround 19 (unround 4 s))))).
Definition unfinal (s : abc) : abc :=
  flip3 (unfround 14 (unfround 11 (unfround 25 (unfround 16 (unfround 4 (unfround 14 (unfround 24
    (let '(mkabc a b c) := s in mkabc a c b)))))))).

Lemma sub_add_32 x y : 0 <= x < 2 ^ 32 -> u32 (u32 (x - y) + y) = x.
Proof. intros. rewrite wrap_add_l. rewrite wrap_small; lia. Qed.
Lemma add_sub_32 x y : 0 <= x < 2 ^ 32 -> u32 (u32 (x + y) - y) = x.
Proof. intros. rewrite wrap_sub_l. rewrite wrap_small; lia. Qed.
Lemma lxor_lxor x y : Z.lxor (Z.lxor x y) y = x.
Proof. by rewrite Z.lxor_assoc, Z.lxor_nilpotent, Z.lxor_0_r. Qed.

Lemma range_iff n x : 0 <= n -> 0 <= x < 2 ^ n <-> 0 <= x /\ Z.shiftr x n = 0.
Proof.
  intros Hn. rewrite Z.shiftr_div_pow2 by done. split; intros [H1 H2].
  - split; [done|]. by apply Z.div_small.
  - split; [done|]. apply Z.div_small_iff in H2; lia.
Qed.
Lemma lxor_range n x y :
  0 <= n -> 0 <= x < 2 ^ n -> 0 <= y < 2 ^ n -> 0 <= Z.lxor x y < 2 ^ n.
Proof.
  intros Hn Hx Hy. rewrite range_iff in * by done. destruct Hx as [Hx Hx'], Hy as [Hy Hy'].
  split; [by apply Z.lxor_nonneg|]. by rewrite Z.shiftr_lxor, Hx', Hy'.
Qed.
Lemma lor_range n x y :
  0 <= n -> 0 <= x < 2 ^ n -> 0 <= y < 2 ^ n -> 0 <= Z.lor x y < 2 ^ n.
Proof.
  intros Hn Hx Hy. rewrite range_iff in * by done. destruct Hx as [Hx Hx'], Hy as [Hy Hy'].
  split; [by apply Z.lor_nonneg|]. by rewrite Z.shiftr_lor, Hx', Hy'.
Qed.
Lemma rot_range x k : 0 <= x < 2 ^ 32 -> 0 <= k <= 32 -> 0 <= rot x k < 2 ^ 32.
Proof.
  intros Hx Hk. unfold rot. apply lor_range; [lia|apply wrap_range; lia|].
  rewrite Z.shiftr_div_pow2 by lia.
  pose proof (Z.pow_pos_nonneg 2 (32 - k)). split; [apply Z.div_pos; lia|].
  apply Z.div_lt_upper_bound; nia.
Qed.

Lemma wrap32_range x : 0 <= u32 x < 2 ^ 32.
Proof. apply wrap_range. lia. Qed.
Lemma lxor32_range x y : 0 <= x < 2 ^ 32 -> 0 <= y < 2 ^ 32 -> 0 <= Z.lxor x y < 2 ^ 32.
Proof. by apply lxor_range. Qed.
End reversible.

#[local] Hint Resolve wrap32_range lxor32_range : abc.
#[local] Hint Extern 1 (0 <= rot _ _ < 2 ^ 32) => apply rot_range; [|lia] : abc.


Lemma round_range k s : 0 <= k <= 32 -> abc32 s -> abc32 (round k s).
Proof. destruct s as [x y z]. intros Hk (?&?&?). cbn in *. (split; [|split]); cbn; auto with abc. Qed.
Lemma unround_range k s : abc32 s -> abc32 (unround k s).
Proof. destruct s as [x y z]. intros (?&?&?). cbn in *. (split; [|split]); cbn; auto with abc. Qed.
Lemma fround_range k s : abc32 s -> abc32 (fround k s).
Proof. destruct s as [x y z]. intros (?&?&?). cbn in *. (split; [|split]); cbn; auto with abc. Qed.
Lemma unfround_range k s : abc32 s -> abc32 (unfround k s).
Proof. destruct s as [x y z]. intros (?&?&?). cbn in *. (split; [|split]); cbn; auto with abc. Qed.
#[local] Hint Resolve round_range unround_range fround_range unfround_range : abc.

Lemma unround_round k s : abc32 s -> unround k (round k s) = s.
Proof.
  destruct s as [x y z]. intros (?&?&?). cbn in *. rewrite (add_sub_32 z y), lxor_lxor by done.
  by rewrite sub_add_32.
Qed.
Lemma round_unround k s : 0 <= k <= 32 -> abc32 s -> round k (unround k s) = s.
Proof.
  destruct s as [y z x]. intros Hk (?&?&?). cbn in *.
  rewrite sub_add_32, add_sub_32, lxor_lxor by auto with abc. done.
Qed.
Lemma unfround_fround k s : 0 <= k <= 32 -> abc32 s -> unfround k (fround k s) = s.
Proof.
  destruct s as [t r o]. intros Hk (?&?&?). cbn in *. rewrite sub_add_32 by auto with abc.
  by rewrite lxor_lxor.
Qed.
Lemma fround_unfround k s : abc32 s -> fround k (unfround k s) = s.
Proof.
  destruct s as [o t r]. intros (?&?&?). cbn in *. rewrite lxor_lxor. by rewrite add_sub_32.
Qed.

Lemma mix_rounds s : mix s = round 4 (round 19 (round 16 (round 8 (round 6 (round 4 s))))).
Proof. by destruct s. Qed.
Lemma final_rounds s :
  final s = let '(mkabc a c b) := fround 24 (fround 14 (fround 4 (fround 16 (fround 25 (fround 11
    (fround 14 (flip3 s))))))) in mkabc a b c.
Proof. by destruct s. Qed.

Lemma mix_range s : abc32 s -> abc32 (mix s).
Proof. intros. rewrite mix_rounds. repeat (apply round_range; [lia|]). done. Qed.
Lemma flip3_range s : abc32 s -> abc32 (flip3 s).
Proof. destruct s. intros (?&?&?). done. Qed.
Lemma final_range s : abc32 s -> abc32 (final s).
Proof.
  intros. rewrite final_rounds. set (t := fround 24 _).
  assert (abc32 t) as Ht by (unfold t; auto 20 using flip3_range with abc).
  destruct t. destruct Ht as (?&?&?). done.
Qed.

Lemma unmix_mix s : abc32 s -> unmix (mix s) = s.
Proof.
  intros. rewrite mix_rounds. unfold unmix.
  by rewrite !unround_round by (repeat (apply round_range; [lia|]); done).
Qed.
Lemma mix_unmix s : abc32 s -> mix (unmix s) = s.
Proof.
  intros. rewrite mix_rounds. unfold unmix.
  rewrite !round_unround by (lia || auto 20 with abc). done.
Qed.
Lemma unfinal_final s : abc32 s -> unfinal (final s) = s.
Proof.
  intros. rewrite final_rounds. unfold unfinal. set (t := fround 24 _).
  replace (let '(mkabc a b c) := let '(mkabc a c b) := t in mkabc a b c in mkabc a c b) with t
    by (by destruct t).
  unfold t. rewrite !unfround_fround by (lia || auto 20 using flip3_range with abc).
  by destruct s.
Qed.
Lemma final_unfinal s : abc32 s -> final (unfinal s) = s.
Proof.
  intros Hs. rewrite final_rounds. unfold unfinal.
  assert (abc32 (let '(mkabc a b c) := s in mkabc a c b)) as Ht
    by (destruct s; destruct Hs as (?&?&?); done).
  set (t := (let '(mkabc a b c) := s in mkabc a c b)) in *.
  set (u := unfround 14 (unfround 11 _)).
  replace (flip3 (flip3 u)) with u by (by destruct u). unfold u.
  rewrite !fround_unfround by auto 20 with abc. unfold t. by destruct s.
Qed.

(** ** The read paths agree *)
Section paths.
Context (m : Z -> Z) (Hm : forall p, is_byte (m p)).

(** The first [n] bytes at [p], four at most, as a little-endian and as a
    big-endian word. *)
Definition le (n : nat) (p : Z) : Z :=
  match n with
  | 0%nat => 0
  | 1%nat => m p
  | 2%nat => m p + 2 ^ 8 * m (p + 1)
  | 3%nat => m p + 2 ^ 8 * m (p + 1) + 2 ^ 16 * m (p + 2)
  | _ => k32 m p
  end.
Definition be (n : nat) (p : Z) : Z :=
  match n with
  | 0%nat => 0
  | 1%nat => 2 ^ 24 * m p
  | 2%nat => 2 ^ 24 * m p + 2 ^ 16 * m (p + 1)
  | 3%nat => 2 ^ 24 * m p + 2 ^ 16 * m (p + 1) + 2 ^ 8 * m (p + 2)
  | _ => k32be m p
  end.

(** The reference: every block adds three words, the last block the words of
    the bytes that are left, padded with zero bytes. *)
Definition ref_block (rd : nat -> Z -> Z) (k : Z) (s : abc) : abc :=
  mix (add3 s (rd 4%nat k) (rd 4%nat (k + 4)) (rd 4%nat (k + 8))).
Definition ref_tail (rd : nat -> Z -> Z) (n : nat) (k : Z) (s : abc) : option abc :=
  if (n =? 0)%nat then None
  else Some (add3 s (rd n k) (rd (n - 4)%nat (k + 4)) (rd (n - 8)%nat (k + 8))).
Definition ref_path (rd : nat -> Z -> Z) := path (ref_block rd) (ref_tail rd).

Lemma while12_unfold step n k s :
  while12 step n k s =
  if (12 <? n)%nat then while12 step (n - 12) (k + 12) (step k s) else (s, n, k).
Proof. do 13 (destruct n as [|n]; [done|]). done. Qed.
Lemma while3_unfold step n k s :
  while3 step n k s =
  if (3 <? n)%nat then while3 step (n - 3) (k + 3) (step k s) else (s, n, k).
Proof. do 4 (destruct n as [|n]; [done|]). done. Qed.

Lemma while12_ext step step' n k s :
  (forall k s, step k s = step' k s) -> while12 step n k s = while12 step' n k s.
Proof.
  intros He. revert k s. induction (lt_wf n) as [n _ IH]. intros k s.
  rewrite (while12_unfold step), (while12_unfold step').
  destruct (Nat.ltb_spec 12 n); [|done]. rewrite He. apply IH. lia.
Qed.
Lemma while12_le step n k s : ((while12 step n k s).1.2 <= 12)%nat.
Proof.
  revert k s. induction (lt_wf n) as [n _ IH]. intros k s. rewrite while12_unfold.
  destruct (Nat.ltb_spec 12 n); [apply IH|cbn]; lia.
Qed.

Lemma path_ext block block' tail tail' k n s :
  (forall k s, block k s = block' k s) ->
  (forall n k s, (n <= 12)%nat -> tail n k s = tail' n k s) ->
  path block tail k n s = path block' tail' k n s.
Proof.
  intros Hb Ht. unfold path. rewrite (while12_ext _ _ _ _ _ Hb).
  pose proof (while12_le block' n k s) as Hl.
  destruct (while12 block' n k s) as [[s' l] k']. cbn in Hl. by rewrite Ht.
Qed.

Lemma land_low n x : 0 <= n -> Z.land x (2 ^ n - 1) = x mod 2 ^ n.
Proof. intros. rewrite <- Z.land_ones by done. by rewrite Z.ones_equiv, Z.sub_1_r. Qed.
Lemma land_high n x :
  0 <= n <= 32 -> 0 <= x < 2 ^ 32 -> Z.land x (2 ^ 32 - 2 ^ n) = x - x mod 2 ^ n.
Proof.
  intros Hn Hx.
  assert (2 ^ 32 - 2 ^ n = Z.ldiff (Z.ones 32) (Z.ones n)) as ->.
  { rewrite Z.ldiff_ones_r, Z.shiftr_div_pow2, Z.shiftl_mul_pow2, Z.ones_equiv by lia.
    replace (2 ^ 32) with (2 ^ (32 - n) * 2 ^ n) by (rewrite <- Z.pow_add_r by lia; f_equal; lia).
    pose proof (Z.pow_pos_nonneg 2 n).
    replace (Z.pred (2 ^ (32 - n) * 2 ^ n)) with ((2 ^ (32 - n) - 1) * 2 ^ n + (2 ^ n - 1)) by lia.
    rewrite Z.div_add_l, Z.div_small by lia. lia. }
  rewrite Z.ldiff_land, Z.land_assoc, <- Z.ldiff_land, Z.land_ones, Z.mod_small by lia.
  rewrite Z.ldiff_ones_r, Z.shiftr_div_pow2, Z.shiftl_mul_pow2 by lia.
  pose proof (Z.div_mod x (2 ^ n)). pose proof (Z.pow_pos_nonneg 2 n). lia.
Qed.

Ltac bytes_at p :=
  pose proof (Hm p); pose proof (Hm (p + 1)); pose proof (Hm (p + 2)); pose proof (Hm (p + 3));
  unfold is_byte in *.
Lemma mod_parts n hi lo : 0 <= lo < 2 ^ n -> (2 ^ n * hi + lo) mod 2 ^ n = lo.
Proof. intros. symmetry. by apply (Z.mod_unique_pos _ _ hi). Qed.

Lemma k32_mask1 p : Z.land (k32 m p) 0xff = le 1 p.
Proof.
  change 0xff with (2 ^ 8 - 1). rewrite land_low by lia. bytes_at p. cbn [le].
  rewrite <- (mod_parts 8 (m (p + 1) + 2 ^ 8 * m (p + 2) + 2 ^ 16 * m (p + 3)) (m p)) by lia.
  f_equal. unfold k32. lia.
Qed.
Lemma k32_mask2 p : Z.land (k32 m p) 0xffff = le 2 p.
Proof.
  change 0xffff with (2 ^ 16 - 1). rewrite land_low by lia. bytes_at p. cbn [le].
  rewrite <- (mod_parts 16 (m (p + 2) + 2 ^ 8 * m (p + 3)) (m p + _)) by lia.
  f_equal. unfold k32. lia.
Qed.
Lemma k32_mask3 p : Z.land (k32 m p) 0xffffff = le 3 p.
Proof.
  change 0xffffff with (2 ^ 24 - 1). rewrite land_low by lia. bytes_at p. cbn [le].
  rewrite <- (mod_parts 24 (m (p + 3)) (m p + _ + _)) by lia.
  f_equal. unfold k32. lia.
Qed.
Lemma k32be_mask1 p : Z.land (k32be m p) 0xff000000 = be 1 p.
Proof.
  change 0xff000000 with (2 ^ 32 - 2 ^ 24). bytes_at p.
  rewrite land_high by (unfold k32be; lia). cbn [be].
  pose proof (mod_parts 24 (m p) (2 ^ 16 * m (p + 1) + 2 ^ 8 * m (p + 2) + m (p + 3)) ltac:(lia)) as E.
  replace (_ + (_ + _ + m (p + 3))) with (k32be m p) in E by (unfold k32be; lia).
  rewrite E. unfold k32be. lia.
Qed.
Lemma k32be_mask2 p : Z.land (k32be m p) 0xffff0000 = be 2 p.
Proof.
  change 0xffff0000 with (2 ^ 32 - 2 ^ 16). bytes_at p.
  rewrite land_high by (unfold k32be; lia). cbn [be].
  pose proof (mod_parts 16 (2 ^ 8 * m p + m (p + 1)) (2 ^ 8 * m (p + 2) + m (p + 3)) ltac:(lia)) as E.
  replace (_ + (2 ^ 8 * m (p + 2) + m (p + 3))) with (k32be m p) in E by (unfold k32be; lia).
  rewrite E. unfold k32be. lia.
Qed.
Lemma k32be_mask3 p : Z.land (k32be m p) 0xffffff00 = be 3 p.
Proof.
  change 0xffffff00 with (2 ^ 32 - 2 ^ 8). bytes_at p.
  rewrite land_high by (unfold k32be; lia). cbn [be].
  pose proof (mod_parts 8 (2 ^ 16 * m p + 2 ^ 8 * m (p + 1) + m (p + 2)) (m (p + 3)) ltac:(lia)) as E.
  replace (_ + m (p + 3)) with (k32be m p) in E by (unfold k32be; lia).
  rewrite E. unfold k32be. lia.
Qed.

Lemma add3_add3 s x y z x' y' z' :
  add3 (add3 s x y z) x' y' z' = add3 s (x + x') (y + y') (z + z').
Proof. unfold add3. cbn. by rewrite !wrap_add_l, !Z.add_assoc. Qed.
Lemma k16x2_k32 p : k16x2 m p = k32 m p.
Proof.
  bytes_at p. unfold k16x2, k16, k32. rewrite Z.shiftl_mul_pow2 by lia.
  replace (p + 2 + 1) with (p + 3) by lia. rewrite wrap_small; lia.
Qed.

(** Addresses [m (p + 4 + 2)] as [m (p + 6)]. *)
Ltac addresses :=
  repeat match goal with
    | |- context [m (?a + Zpos ?b + Zpos ?c)] =>
        let r := eval vm_compute in (Zpos b + Zpos c) in
        replace (a + Zpos b + Zpos c) with (a + r) by lia
    end.
Ltac norm32 :=
  rewrite ?k16x2_k32, ?add3_add3; unfold k16, k8, k32, k32be;
  rewrite ?Z.shiftl_mul_pow2 by lia; f_equal; addresses; lia.
(** Every length of a last block. *)
Ltac each_length_below k :=
  lazymatch k with
  | O => lia
  | S ?k => match goal with n : nat |- _ => destruct n as [|n];
              [cbn [Nat.leb Nat.eqb Nat.sub le be]|each_length_below k] end
  end.
Ltac each_length := each_length_below 13%nat.

Lemma block32_ref k s : block32 m k s = ref_block le k s.
Proof. done. Qed.
Lemma tail32_ref n k s : (n <= 12)%nat -> tail32 m n k s = ref_tail le n k s.
Proof.
  intros Hn. unfold tail32, ref_tail.
  each_length; rewrite ?k32_mask1, ?k32_mask2, ?k32_mask3; done.
Qed.
Lemma block16_ref k s : block16 m k s = ref_block le k s.
Proof. unfold block16, ref_block. f_equal. cbn [le]. norm32. Qed.
Lemma tail16_ref n k s : (n <= 12)%nat -> tail16 m n k s = ref_tail le n k s.
Proof. intros Hn. unfold tail16, ref_tail. each_length; [done|..]; f_equal; norm32. Qed.
Lemma block8_ref k s : block8 m k s = ref_block le k s.
Proof. unfold block8, ref_block. f_equal. cbn [le]. norm32. Qed.
Lemma tail8_ref n k s : (n <= 12)%nat -> tail8 m n k s = ref_tail le n k s.
Proof. intros Hn. unfold tail8, ref_tail. each_length; [done|..]; f_equal; norm32. Qed.
Lemma tail32be_ref n k s : (n <= 12)%nat -> tail32be m n k s = ref_tail be n k s.
Proof.
  intros Hn. unfold tail32be, ref_tail.
  each_length; rewrite ?k32be_mask1, ?k32be_mask2, ?k32be_mask3; done.
Qed.
Lemma block8be_ref k s : block8be m k s = ref_block be k s.
Proof. unfold block8be, ref_block. f_equal. cbn [be]. norm32. Qed.
Lemma tail8be_ref n k s : (n <= 12)%nat -> tail8be m n k s = ref_tail be n k s.
Proof. intros Hn. unfold tail8be, ref_tail. each_length; [done|..]; f_equal; norm32. Qed.

Lemma hashlittle_path_ref e key n s : hashlittle_path m e key n s = ref_path le key n s.
Proof.
  unfold hashlittle_path. repeat case_match; apply path_ext; intros;
    auto using block32_ref, block16_ref, block8_ref, tail32_ref, tail16_ref, tail8_ref.
Qed.
Lemma hashbig_ref e key n i :
  hashbig m e key n i = c_ (ref_path be key n (seed (Z.of_nat n) i)).
Proof.
  unfold hashbig. f_equal. case_match; apply path_ext; intros;
    auto using tail32be_ref, block8be_ref, tail8be_ref.
Qed.
End paths.

Lemma path_unfold block tail k n s :
  path block tail k n s =
  if (12 <? n)%nat then path block tail (k + 12) (n - 12) (block k s)
  else match tail n k s with Some s => final s | None => s end.
Proof. unfold path. rewrite while12_unfold. by destruct (Nat.ltb_spec 12 n). Qed.

(** The bytes of the key, and nothing else, decide the hash. *)
Section agree.
Context (m m' : Z -> Z).
Definition same_key (k k' : Z) (n : nat) : Prop :=
  forall j, 0 <= j < Z.of_nat n -> m (k + j) = m' (k' + j).

Lemma same_key_sub k k' n i l :
  same_key k k' n -> 0 <= i -> i + Z.of_nat l <= Z.of_nat n -> same_key (k + i) (k' + i) l.
Proof.
  intros Hk Hi Hl j Hj. rewrite <- !Z.add_assoc. apply Hk. lia.
Qed.
Lemma same_key_le k k' n : same_key k k' (n `min` 4) -> le m n k = le m' n k' /\ be m n k = be m' n k'.
Proof.
  intros Hk.
  pose proof (Hk 0) as H0. pose proof (Hk 1) as H1. pose proof (Hk 2) as H2. pose proof (Hk 3) as H3.
  rewrite !Z.add_0_r in H0. clear Hk.
  destruct n as [|[|[|[|n]]]]; cbn -[Z.add Z.mul Z.pow] in H0, H1, H2, H3 |- *; unfold k32, k32be; split;
    rewrite ?H0, ?H1, ?H2, ?H3 by lia; done.
Qed.

Context (rd rd' : nat -> Z -> Z)
  (Hrd : forall k k' n, same_key k k' (n `min` 4) -> rd n k = rd' n k').

Lemma ref_path_agree n : forall k k' s,
  same_key k k' n -> ref_path rd k n s = ref_path rd' k' n s.
Proof.
  induction (lt_wf n) as [n _ IH]. intros k k' s Hk. unfold ref_path in *.
  rewrite (path_unfold (ref_block rd)), (path_unfold (ref_block rd')).
  destruct (Nat.ltb_spec 12 n).
  - rewrite (IH (n - 12)%nat ltac:(lia) _ (k' + 12)) by (eapply same_key_sub; [done|lia..]).
    f_equal. unfold ref_block. f_equal.
    rewrite (Hrd k k') by (intros j Hj; apply Hk; lia).
    by rewrite (Hrd (k + 4) (k' + 4)), (Hrd (k + 8) (k' + 8)) by (eapply same_key_sub; [done|lia..]).
  - unfold ref_tail. destruct (Nat.eqb_spec n 0); [done|].
    rewrite (Hrd k k') by (intros j Hj; apply Hk; lia).
    rewrite (Hrd (k + 4) (k' + 4)), (Hrd (k + 8) (k' + 8)); [done|..];
      match goal with |- same_key (_ + ?i) _ ?l => destruct (decide (l = 0%nat)) as [->|] end;
      try (intros j Hj; lia); (eapply same_key_sub; [done|lia..]).
Qed.
End agree.

(** Keys of words. *)
Section words.
Context (w : Z -> Z).
Definition wpath (k : Z) (n : nat) (s : abc) : abc :=
  let '(s, l, k) := while3 (word_block w) n k s in word_tail w l k s.

Lemma wpath_unfold k n s :
  wpath k n s = if (3 <? n)%nat then wpath (k + 3) (n - 3) (word_block w k s) else word_tail w n k s.
Proof. unfold wpath. rewrite while3_unfold. by destruct (Nat.ltb_spec 3 n). Qed.

Lemma wpath_ref rd n : (forall i l, rd (4 + l)%nat i = rd 4%nat i) -> (forall i, rd 0%nat i = 0) ->
  forall k key s, (forall j, 0 <= j < Z.of_nat n -> rd 4%nat (key + 4 * j) = w (k + j)) ->
  wpath k n s = ref_path rd key (4 * n) s.
Proof.
  intros Hrd Hrd0. induction (lt_wf n) as [n _ IH]. intros k key s Hw.
  assert (forall i, 0 <= i < Z.of_nat n -> w (k + i) = rd 4%nat (key + 4 * i)) as W by (intros; by rewrite Hw).
  pose proof (W 0) as W0. pose proof (W 1) as W1. pose proof (W 2) as W2. clear W.
  change (4 * 0) with 0 in W0. change (4 * 1) with 4 in W1. change (4 * 2) with 8 in W2.
  rewrite !Z.add_0_r in W0.
  rewrite wpath_unfold. unfold ref_path. rewrite path_unfold.
  destruct (Nat.ltb_spec 3 n), (Nat.ltb_spec 12 (4 * n)); try lia.
  - rewrite (IH (n - 3)%nat ltac:(lia) _ (key + 12)).
    2: { intros j Hj. rewrite <- !Z.add_assoc, <- Hw by lia. do 2 f_equal. lia. }
    unfold ref_path. replace (4 * n - 12)%nat with (4 * (n - 3))%nat by lia. f_equal.
    unfold word_block, ref_block. by rewrite W0, W1, W2 by lia.
  - assert (n = 0 \/ n = 1 \/ n = 2 \/ n = 3)%nat as [->|[->|[->| ->]]] by lia; [done|..];
      cbn [word_tail]; unfold ref_tail; cbn [Nat.mul Nat.add Nat.eqb Nat.sub];
      rewrite ?Hrd0, ?W0, ?W1, ?W2, ?(Hrd _ 4%nat), ?(Hrd _ 8%nat) by lia; done.
Qed.
End words.

Lemma hash32_same_key m m' e key key' length initval :
  (forall p, is_byte (m p)) -> (forall p, is_byte (m' p)) ->
  same_key m m' key key' length ->
  hash32 m e key length initval = hash32 m' e key' length initval.
Proof.
  intros Hm Hm' Hk. unfold hash32, hashlittle.
  destruct e; rewrite ?hashbig_ref, ?hashlittle_path_ref by done;
    f_equal; eapply ref_path_agree; try done; intros; by apply same_key_le.
Qed.

(** ** Properties *)

(** C29. The hash of a key is a function of its bytes: [hash32] gives the same
    value wherever the key lies, so whichever of its read paths (32-bit, 16-bit
    or byte reads) the alignment selects and whatever the bytes around the key
    that the aligned paths read and mask off. *)
Theorem hash32_only_key_bytes m m' e key key' length initval :
  (forall p, is_byte (m p)) -> (forall p, is_byte (m' p)) ->
  same_key m m' key key' length ->
  hash32 m e key length initval = hash32 m' e key' length initval.
Proof. apply hash32_same_key. Qed.

(** The nine bytes of a key at an odd and at an aligned address, among others. *)
Definition odd_memory (p : Z) : Z := if p <? 101 then 7 else if p <? 110 then p else 9.
Definition even_memory (p : Z) : Z := if p <? 200 then 0 else if p <? 209 then p - 99 else 255.

Lemma hash32_only_key_bytes_witness :
  hash32 odd_memory LittleEndian 101 9 0 = hash32 even_memory LittleEndian 200 9 0.
Proof.
  apply hash32_only_key_bytes.
  - intros p. unfold odd_memory, is_byte. repeat case_match; lia.
  - intros p. unfold even_memory, is_byte. repeat case_match; lia.
  - intros j Hj. unfold odd_memory, even_memory.
    repeat case_match; lia.
Defined.

(** [mix] and [final] are bijections of the 96-bit state, as the comment
    above [mix] claims: both can be undone on either side. *)
Theorem mix_final_reversible s :
  abc32 s ->
  unmix (mix s) = s /\ mix (unmix s) = s /\ unfinal (final s) = s /\ final (unfinal s) = s.
Proof. auto using unmix_mix, mix_unmix, unfinal_final, final_unfinal. Qed.

Lemma mix_final_reversible_witness :
  mix (mkabc 1 2 3) <> mkabc 1 2 3 /\ unmix (mix (mkabc 1 2 3)) = mkabc 1 2 3.
Proof.
  split; [by vm_compute|].
  apply (mix_final_reversible (mkabc 1 2 3)). (split; [|split]); cbn; lia.
Defined.

(** C30. A key of whole words has one hash: [hashword] of the words is
    [hashlittle] of their bytes in little-endian order and [hashbig] of their
    bytes in big-endian order, whatever the machine. *)
Theorem hashword_is_byte_hash w m m' k key e length initval :
  (forall p, is_byte (m p)) -> (forall p, is_byte (m' p)) ->
  (forall j, 0 <= j < Z.of_nat length -> k32 m (key + 4 * j) = w (k + j)) ->
  (forall j, 0 <= j < Z.of_nat length -> k32be m' (key + 4 * j) = w (k + j)) ->
  hashword w k length initval = hashlittle m e key (4 * length) initval
  /\ hashword w k length initval = hashbig m' e key (4 * length) initval.
Proof.
  intros Hm Hm' Hw Hw'.
  assert (hashword w k length initval = c_ (wpath w k length (seed (Z.of_nat (4 * length)) initval))) as ->.
  { unfold hashword, wpath. rewrite Z.shiftl_mul_pow2 by lia. unfold seed.
    replace (u32 (u32 (Z.of_nat length) * 2 ^ 2)) with (u32 (Z.of_nat (4 * length))); [by destruct (while3 _ _ _ _) as [[??]?]|].
    unfold wrap. rewrite Zmult_mod_idemp_l. f_equal. lia. }
  rewrite hashbig_ref by done. unfold hashlittle. rewrite hashlittle_path_ref by done.
  split; f_equal; by apply wpath_ref.
Qed.

Lemma hashword_is_byte_hash_witness :
  hashword (fun _ => 0x01010101) 0 5 7 = hashlittle (fun _ => 1) LittleEndian 3 20 7.
Proof.
  apply (hashword_is_byte_hash (fun _ => 0x01010101) (fun _ => 1) (fun _ => 1) 0 3 LittleEndian 5 7);
    done.
Defined.

(** C27. With a zero second seed, the two-valued hashes extend the one-valued
    ones, as their comments claim. *)
Theorem second_seed_zero w m e k length pc :
  (hashword2 w k length pc 0).1 = hashword w k length pc
  /\ (hashlittle2 m e k length pc 0).1 = hashlittle m e k length pc.
Proof.
  split.
  - unfold hashword2, hashword.
    assert (u32 (Z.shiftl (u32 (Z.of_nat length)) 2) = u32 (u64 (Z.shiftl (Z.of_nat length) 2))) as ->.
    { rewrite wrap_le, !Z.shiftl_mul_pow2 by lia. apply Zmult_mod_idemp_l. }
    rewrite Z.add_0_r, wrap_wrap. by destruct (while3 _ _ _ _) as [[??]?].
  - unfold hashlittle2, hashlittle, seed. cbn [a_ b_ c_]. by rewrite Z.add_0_r, wrap_wrap.
Qed.

(** The bytes of a string in memory from address 0 on. *)
Definition string_memory (s : list Z) (p : Z) : Z := default 0 (s !! Z.to_nat p).
Definition four_score : list Z :=
  [70; 111; 117; 114; 32; 115; 99; 111; 114; 101; 32; 97; 110; 100; 32; 115; 101;
   118; 101; 110; 32; 121; 101; 97; 114; 115; 32; 97; 103; 111].

(** C28. The model computes the known answers of the file's own self test
    ([driver5]) for "Four score and seven years ago" and the empty string. *)
Theorem driver5_vectors :
  let h := hashlittle2 (string_memory four_score) LittleEndian 0 in
  [h 0%nat 0 0; h 0%nat 0 0xdeadbeef; h 0%nat 0xdeadbeef 0xdeadbeef;
   h 30%nat 0 0; h 30%nat 0 1; h 30%nat 1 0]
  = [(0xdeadbeef, 0xdeadbeef); (0xbd5b7dde, 0xdeadbeef); (0x9c093ccd, 0xbd5b7dde);
     (0x17770551, 0xce7226e6); (0xe3607cae, 0xbd371de4); (0xcd628161, 0x6cbea4b3)]
  /\ [hashlittle (string_memory four_score) LittleEndian 0 30 0;
      hashlittle (string_memory four_score) LittleEndian 0 30 1] = [0x17770551; 0xcd628161].
Proof. vm_compute. split; reflexivity. Qed.
