(* ===== verification/Util.v ===== *)
(** * Utilities, [src/src/util.h] and [src/src/util.cpp]

    Byte order ([Swap] and the [ENCODE]/[DECODE] macros), the parsing of
    numbers, searching and comparing byte strings, and the small containers of
    [util.h]. *)

From S2P Require Import Prelude Lookup3.

(** ** Byte order *)
Module Swap.
(** [swap16], [swap32] and [swap64], lines 91-103. *)
Definition swap16 (t : Z) : Z := u16 (Z.lor (Z.shiftl t 8) (Z.shiftr t 8)).
Definition swap32 (t : Z) : Z :=
  let t1 := swap16 (u16 t) in
  let t2 := swap16 (u16 (Z.shiftr t 16)) in
  Z.lor t2 (u32 (Z.shiftl t1 16)).
Definition swap64 (t : Z) : Z :=
  let t1 := swap32 (u32 t) in
  let t2 := swap32 (u32 (Z.shiftr t 32)) in
  Z.lor t2 (u64 (Z.shiftl t1 32)).
End Swap.

Section byte_order.
(** Whether [ENDIAN_LITTLE] is defined; the machine is of that order. *)
Context (little : bool).

(** Lines 106-124; [hton] and [ntoh] are the same functions. *)
Definition hton16 (x : Z) : Z := if little then Swap.swap16 (u16 x) else u16 x.
Definition hton32 (x : Z) : Z := if little then Swap.swap32 (u32 x) else u32 x.
Definition hton64 (x : Z) : Z := if little then Swap.swap64 (u64 x) else u64 x.

(** The machine's own store and load of an [n]-byte integer. *)
Fixpoint store_le (n : nat) (x : Z) : bytes :=
  match n with O => [] | S n => x mod 2 ^ 8 :: store_le n (x / 2 ^ 8) end.
Fixpoint load_le (bs : bytes) : Z :=
  match bs with [] => 0 | b :: bs => b + 2 ^ 8 * load_le bs end.
Definition store (n : nat) (x : Z) : bytes :=
  if little then store_le n x else rev (store_le n x).
Definition load (bs : bytes) : Z :=
  if little then load_le bs else load_le (rev bs).

(** Lines 126-134: what the macros store into and read from a buffer. *)
Definition ENCODE_UINT8 (x : Z) : bytes := [u8 x].
Definition ENCODE_UINT16 (x : Z) : bytes := store 2 (hton16 x).
Definition ENCODE_UINT32 (x : Z) : bytes := store 4 (hton32 x).
Definition ENCODE_UINT64 (x : Z) : bytes := store 8 (hton64 x).
Definition DECODE_UINT8 (b : bytes) : Z := load b.
Definition DECODE_UINT16 (b : bytes) : Z := hton16 (load b).
Definition DECODE_UINT32 (b : bytes) : Z := hton32 (load b).
Definition DECODE_UINT64 (b : bytes) : Z := hton64 (load b).
End byte_order.

(** ** Parsing numbers

    The data is the readable memory from the pointer on, [None] for [NULL].
    The result is [None] where the code has no defined behaviour (it reads past
    the readable memory, or a signed addition overflows), and otherwise what it
    returns: [Some out] for [true], [None] for [false]. *)
Module Parse.
(** [isspace] and [isdigit] of the "C" locale. *)
Definition isspace (c : Z) : bool := (c =? 32) || ((9 <=? c) && (c <=? 13)).
Definition isdigit (c : Z) : bool := (48 <=? c) && (c <=? 57).

Section to_number.
Context (signed : bool) (w : Z).

(** [while (data_len > 0 && isspace( *data))] *)
Fixpoint skip_spaces (data : bytes) (data_len : Z) : option (bytes * Z) :=
  if data_len >? 0 then
    match data with
    | [] => None
    | c :: rest => if isspace c then skip_spaces rest (data_len - 1) else Some (data, data_len)
    end
  else Some (data, data_len).

(** [temp = ret * 10 + v; if (temp < ret) return false;] *)
Definition accumulate (ret v : Z) : option (option Z) :=
  let x := ret * 10 + v in
  if signed then
    if (- 2 ^ (w - 1) <=? x) && (x <? 2 ^ (w - 1)) then
      Some (if x <? ret then None else Some x)
    else None
  else
    let temp := wrap w (wrap w (ret * 10) + v) in
    Some (if temp <? ret then None else Some temp).

(** [while (data_len > 0)], over the digits. *)
Fixpoint digits_loop (data : bytes) (data_len ret : Z) : option (option Z) :=
  if data_len >? 0 then
    match data with
    | [] => None
    | c :: rest =>
        if isdigit c then
          match accumulate ret (c - 48) with
          | Some (Some ret) => digits_loop rest (data_len - 1) ret
          | r => r
          end
        else Some (Some ret)
    end
  else Some (Some ret).

(** The function over the width and the signedness of its result. *)
Definition safe_to (data : option bytes) (data_len : Z) : option (option Z) :=
  match data with
  | None => Some None
  | Some data =>
      if data_len =? 0 then Some None else
      match skip_spaces data data_len with
      | Some (c :: rest, data_len) =>
          if c =? 45 then
            if signed then
              match digits_loop rest (u32 (data_len - 1)) 0 with
              | Some (Some ret) => Some (Some (- ret))
              | r => r
              end
            else Some None
          else if c =? 43 then digits_loop rest (u32 (data_len - 1)) 0
          else digits_loop (c :: rest) data_len 0
      | _ => None
      end
  end.
End to_number.

(** Lines 27-69, 71-116, 118-160 and 162-207 of [util.cpp]. *)
Definition safe_toui64 := safe_to false 64.
Definition safe_toi64 := safe_to true 64.
Definition safe_toui32 := safe_to false 32.
Definition safe_toi32 := safe_to true 32.

(** The decimal digits of a number, as [printf] writes them. *)
Fixpoint decimal_loop (fuel : nat) (n : Z) (acc : bytes) : bytes :=
  match fuel with
  | O => acc
  | S f => if n <? 10 then 48 + n :: acc else decimal_loop f (n / 10) (48 + n mod 10 :: acc)
  end.
Definition decimal (n : Z) : bytes := decimal_loop (S (Z.to_nat (Z.log2 n))) n [].
End Parse.

(** ** Searching and comparing *)
Module Str.
(** [get_suffix], lines 209-219: the offset and the size of the suffix. *)
Fixpoint get_suffix_loop (fuel : nat) (key : bytes) (length i : Z) : option (Z * Z) :=
  match fuel with
  | O => None
  | S fuel =>
      if i >=? 0 then
        if default 0 (key !! Z.to_nat i) =? 46 then Some (i + 1, u32 (length - i - 1))
        else get_suffix_loop fuel key length (i - 1)
      else None
  end.
Definition get_suffix (key : bytes) (length : Z) : option (Z * Z) :=
  get_suffix_loop 10 key length (s32 (length - 1)).

(** [memfind], lines 221-237: the inner loop and the outer one. *)
Fixpoint matches (data sub : bytes) {struct sub} : bool :=
  match sub, data with
  | [], _ => true
  | y :: sub, x :: data => (x =? y) && matches data sub
  | _ :: _, [] => false
  end.
Fixpoint memfind_loop (n : nat) (i : Z) (data sub : bytes) : option Z :=
  match n with
  | O => None
  | S n => if matches data sub then Some i else memfind_loop n (i + 1) (tail data) sub
  end.
Definition memfind (data sub : bytes) : option Z :=
  if (length data <? length sub)%nat then None
  else memfind_loop (S (length data - length sub)) 0 data sub.

(** [char] is signed: bytes from 128 on compare below the others. *)
Definition char (b : Z) : Z := s8 b.
Definition upper (c : Z) : Z := if (97 <=? c) && (c <=? 122) then s8 (c - 32) else c.

(** One comparison of the loops: [None] to continue. *)
Definition compare_chars (b1 b2 : Z) : option Z :=
  let c1 := char b1 in let c2 := char b2 in
  if c1 =? c2 then None else
  let c1 := upper c1 in let c2 := upper c2 in
  if c1 =? c2 then None else if c1 >? c2 then Some 1 else Some (-1).

(** [strcasecmp] of two buffers of the same length, lines 239-265. *)
Fixpoint strcasecmp (s1 s2 : bytes) : Z :=
  match s1, s2 with
  | b1 :: s1, b2 :: s2 =>
      match compare_chars b1 b2 with Some r => r | None => strcasecmp s1 s2 end
  | _, _ => 0
  end.

(** [Util::strcasecmp] of two C strings, [util.h] lines 40-85: the strings
    are given without their final NUL. *)
Fixpoint Util_strcasecmp (s1 s2 : bytes) : Z :=
  match s1, s2 with
  | [], [] => 0
  | [], _ :: _ => -1
  | _ :: _, [] => 1
  | b1 :: s1, b2 :: s2 =>
      match compare_chars b1 b2 with Some r => r | None => Util_strcasecmp s1 s2 end
  end.

(** [to_lower], lines 267-274. *)
Definition lower (b : Z) : Z := if (65 <=? b) && (b <=? 90) then b + 32 else b.
Definition to_lower (buf : bytes) : bytes := lower <$> buf.
End Str.

(** ** Byte order facts *)
Lemma lor_shiftl_add a b n : 0 <= n -> 0 <= a < 2 ^ n -> Z.lor a (Z.shiftl b n) = a + 2 ^ n * b.
Proof.
  intros Hn Ha. rewrite <- Z.add_nocarry_lor.
  - rewrite Z.shiftl_mul_pow2 by done. lia.
  - apply Z.bits_inj'. intros i Hi. rewrite Z.land_spec, Z.bits_0, Z.shiftl_spec by done.
    destruct (Z.lt_ge_cases i n).
    + rewrite (Z.testbit_neg_r b) by lia. apply andb_false_r.
    + rewrite <- (Z.mod_small a (2 ^ n)) by done. by rewrite Z.mod_pow2_bits_high by lia.
Qed.

(** A 2[w]-bit integer in halves. *)
Lemma halves w h l : 0 < w -> 0 <= l < 2 ^ w -> 0 <= h < 2 ^ w ->
  wrap w (l + 2 ^ w * h) = l /\ wrap w (Z.shiftr (l + 2 ^ w * h) w) = h.
Proof.
  intros Hw Hl Hh. rewrite Z.shiftr_div_pow2 by lia. unfold wrap.
  replace (l + 2 ^ w * h) with (h * 2 ^ w + l) by lia.
  rewrite Z.div_add_l, (Z.div_small l), Z.add_0_r by lia.
  rewrite Z.add_comm, Z_mod_plus_full, !Z.mod_small by lia. done.
Qed.

Lemma swap16_bytes b0 b1 : is_byte b0 -> is_byte b1 -> Swap.swap16 (b0 + 2 ^ 8 * b1) = b1 + 2 ^ 8 * b0.
Proof.
  unfold is_byte. intros H0 H1. unfold Swap.swap16.
  rewrite Z.shiftr_div_pow2 by lia.
  replace (b0 + 2 ^ 8 * b1) with (b1 * 2 ^ 8 + b0) by lia.
  rewrite Z.div_add_l, (Z.div_small b0), Z.add_0_r by lia.
  rewrite Z.lor_comm, lor_shiftl_add by lia. unfold wrap.
  rewrite <- (Z.mod_unique_pos (b1 + 2 ^ 8 * (b1 * 2 ^ 8 + b0)) (2 ^ 16) b1 (b1 + 2 ^ 8 * b0)); lia.
Qed.

(** The integer with the bytes [bs], least significant first, is [load_le bs];
    swapping it reverses them. *)
Definition word (n : nat) (bs : bytes) : Prop := length bs = n /\ Forall is_byte bs.

Lemma load_le_range bs : Forall is_byte bs -> 0 <= load_le bs < 2 ^ (8 * Z.of_nat (length bs)).
Proof.
  induction 1 as [|b bs Hb Hbs IH]; cbn [load_le length]; [done|]. unfold is_byte in Hb.
  replace (8 * Z.of_nat (S (length bs))) with (8 + 8 * Z.of_nat (length bs)) by lia.
  rewrite Z.pow_add_r by lia. lia.
Qed.
Lemma load_le_app bs cs : load_le (bs ++ cs) = load_le bs + 2 ^ (8 * Z.of_nat (length bs)) * load_le cs.
Proof.
  induction bs as [|b bs IH]; cbn [load_le length app]; [change (2 ^ (8 * Z.of_nat 0)) with 1; lia|].
  rewrite IH. replace (8 * Z.of_nat (S (length bs))) with (8 + 8 * Z.of_nat (length bs)) by lia.
  rewrite Z.pow_add_r by lia. lia.
Qed.
Lemma load_store_le n x : load_le (store_le n x) = wrap (8 * Z.of_nat n) x.
Proof.
  revert x. induction n as [|n IH]; intros x; cbn [store_le load_le].
  { unfold wrap. by rewrite Z.mod_1_r. }
  rewrite IH. unfold wrap.
  replace (8 * Z.of_nat (S n)) with (8 + 8 * Z.of_nat n) by lia. rewrite Z.pow_add_r by lia.
  pose proof (Z.pow_pos_nonneg 2 (8 * Z.of_nat n)).
  rewrite Z.rem_mul_r by lia. done.
Qed.
Lemma store_load_le bs : Forall is_byte bs -> store_le (length bs) (load_le bs) = bs.
Proof.
  induction 1 as [|b bs Hb Hbs IH]; cbn [load_le length store_le]; [done|]. unfold is_byte in Hb.
  replace (b + 2 ^ 8 * load_le bs) with (load_le bs * 2 ^ 8 + b) by lia.
  rewrite Z.div_add_l, (Z.div_small b), Z.add_0_r, IH by lia. f_equal.
  rewrite Z.add_comm, Z_mod_plus_full. by apply Z.mod_small.
Qed.
Lemma store_le_bytes n x : length (store_le n x) = n /\ Forall is_byte (store_le n x).
Proof.
  revert x. induction n as [|n IH]; intros x; cbn; [by split|].
  destruct (IH (x / 2 ^ 8)). split; [lia|]. constructor; [|done].
  pose proof (Z.mod_pos_bound x (2 ^ 8)). unfold is_byte. lia.
Qed.

(** A swap of the width of two [n]-byte halves, from the swap of the halves. *)
Lemma swap_halves n (sw : Z -> Z) lo hi :
  (0 < n)%nat -> word n lo -> word n hi ->
  sw (load_le lo) = load_le (rev lo) -> sw (load_le hi) = load_le (rev hi) ->
  let w := 8 * Z.of_nat n in let t := load_le (lo ++ hi) in
  Z.lor (sw (wrap w (Z.shiftr t w))) (wrap (2 * w) (Z.shiftl (sw (wrap w t)) w))
  = load_le (rev (lo ++ hi)).
Proof.
  intros Hn [Hlo Blo] [Hhi Bhi] Slo Shi w t. unfold t. rewrite load_le_app, Hlo. fold w.
  pose proof (load_le_range _ Blo) as Rlo. pose proof (load_le_range _ Bhi) as Rhi.
  rewrite Hlo in Rlo. rewrite Hhi in Rhi. fold w in Rlo, Rhi.
  destruct (halves w (load_le hi) (load_le lo)) as [-> ->]; [lia..|].
  rewrite Slo, Shi.
  pose proof (List.Forall_rev Blo) as Blo'. pose proof (List.Forall_rev Bhi) as Bhi'.
  pose proof (load_le_range _ Blo') as Rlo'. pose proof (load_le_range _ Bhi') as Rhi'.
  rewrite length_rev, Hlo in Rlo'. rewrite length_rev, Hhi in Rhi'. fold w in Rlo', Rhi'.
  pose proof (Z.pow_pos_nonneg 2 w).
  rewrite wrap_small.
  - rewrite lor_shiftl_add by lia. rewrite rev_app_distr, load_le_app, length_rev, Hhi. done.
  - rewrite Z.shiftl_mul_pow2 by lia. replace (2 * w) with (w + w) by lia.
    rewrite Z.pow_add_r by lia. nia.
Qed.

Lemma swap8 bs : word 1 bs -> load_le bs = load_le (rev bs).
Proof. intros [Hl _]. by destruct bs as [|b [|]]. Qed.

Lemma word_split n m bs : word (n + m) bs -> exists lo hi, bs = lo ++ hi /\ word n lo /\ word m hi.
Proof.
  intros [Hl Hb]. exists (take n bs), (drop n bs). rewrite take_drop. split; [done|].
  rewrite <- (take_drop n bs) in Hb. apply Forall_app in Hb as [??].
  split; (split; [|done]); rewrite ?length_take, ?length_drop; lia.
Qed.

Lemma swap16_rev bs : word 2 bs -> Swap.swap16 (load_le bs) = load_le (rev bs).
Proof.
  intros [Hl Hb]. destruct bs as [|b0 [|b1 [|]]]; try done. inversion_clear Hb as [|?? H0 H1].
  inversion_clear H1. cbn. rewrite !Z.mul_0_r, !Z.add_0_r. by apply swap16_bytes.
Qed.
Lemma swap32_rev bs : word 4 bs -> Swap.swap32 (load_le bs) = load_le (rev bs).
Proof.
  intros (lo&hi&->&Hlo&Hhi)%(word_split 2 2). unfold Swap.swap32.
  apply (swap_halves 2 Swap.swap16); auto using swap16_rev with lia.
Qed.
Lemma swap64_rev bs : word 8 bs -> Swap.swap64 (load_le bs) = load_le (rev bs).
Proof.
  intros (lo&hi&->&Hlo&Hhi)%(word_split 4 4). unfold Swap.swap64.
  apply (swap_halves 4 Swap.swap32); auto using swap32_rev with lia.
Qed.

(** The macros on any machine: the big-endian bytes of the wrapped argument. *)
Definition be_bytes (n : nat) (x : Z) : bytes := rev (store_le n x).
Definition be_value (bs : bytes) : Z := load_le (rev bs).

Lemma store_hton n (sw : Z -> Z) (little : bool) x :
  (forall bs, word n bs -> sw (load_le bs) = load_le (rev bs)) ->
  store little n (if little then sw (wrap (8 * Z.of_nat n) x) else wrap (8 * Z.of_nat n) x) = be_bytes n x.
Proof.
  intros Hsw. unfold store, be_bytes. destruct (store_le_bytes n x) as [Hl Hb].
  rewrite <- load_store_le. destruct little.
  - rewrite Hsw by done. rewrite <- Hl at 1. rewrite <- (length_rev (store_le n x)).
    apply store_load_le. by apply List.Forall_rev.
  - rewrite <- Hl at 1. by rewrite store_load_le.
Qed.
Lemma load_ntoh n (sw : Z -> Z) (little : bool) bs :
  (forall bs, word n bs -> sw (load_le bs) = load_le (rev bs)) -> word n bs ->
  (if little then sw (wrap (8 * Z.of_nat n) (load little bs)) else wrap (8 * Z.of_nat n) (load little bs))
  = be_value bs.
Proof.
  intros Hsw Hw. pose proof Hw as [Hl Hb]. unfold load, be_value. destruct little.
  - rewrite wrap_small; [by apply Hsw|]. rewrite <- Hl. by apply load_le_range.
  - rewrite wrap_small; [done|]. rewrite <- Hl, <- length_rev. by apply load_le_range, List.Forall_rev.
Qed.

Lemma be_bytes_word n x : word n (be_bytes n x).
Proof.
  destruct (store_le_bytes n x). split; unfold be_bytes; [by rewrite length_rev|by apply List.Forall_rev].
Qed.
Lemma be_value_bytes n x : be_value (be_bytes n x) = wrap (8 * Z.of_nat n) x.
Proof. unfold be_value, be_bytes. rewrite rev_involutive. apply load_store_le. Qed.
Lemma be_bytes_value n bs : word n bs -> be_bytes n (be_value bs) = bs.
Proof.
  intros [Hl Hb]. unfold be_value, be_bytes. rewrite <- Hl, <- length_rev, store_load_le by (by apply List.Forall_rev).
  apply rev_involutive.
Qed.

Section macros.
Context (little : bool).
Lemma encode16_be x : ENCODE_UINT16 little x = be_bytes 2 x.
Proof. apply (store_hton 2 Swap.swap16 little x), swap16_rev. Qed.
Lemma encode32_be x : ENCODE_UINT32 little x = be_bytes 4 x.
Proof. apply (store_hton 4 Swap.swap32 little x), swap32_rev. Qed.
Lemma encode64_be x : ENCODE_UINT64 little x = be_bytes 8 x.
Proof. apply (store_hton 8 Swap.swap64 little x), swap64_rev. Qed.
Lemma decode16_be bs : word 2 bs -> DECODE_UINT16 little bs = be_value bs.
Proof. apply (load_ntoh 2 Swap.swap16 little bs), swap16_rev. Qed.
Lemma decode32_be bs : word 4 bs -> DECODE_UINT32 little bs = be_value bs.
Proof. apply (load_ntoh 4 Swap.swap32 little bs), swap32_rev. Qed.
Lemma decode64_be bs : word 8 bs -> DECODE_UINT64 little bs = be_value bs.
Proof. apply (load_ntoh 8 Swap.swap64 little bs), swap64_rev. Qed.
End macros.

(** ** Parsing what [printf] writes *)
Section parsing.
Import Parse.

Definition digits_value (ds : bytes) (acc : Z) : Z := foldl (fun r d => r * 10 + (d - 48)) acc ds.
Abbreviation all_digits ds := (Forall (fun d => isdigit d = true) ds).

Lemma isdigit_range d : isdigit d = true -> 48 <= d <= 57.
Proof. unfold isdigit. lia. Qed.

Lemma digits_value_mono ds acc : all_digits ds -> 0 <= acc -> acc <= digits_value ds acc.
Proof.
  intros Hd. revert acc. induction Hd as [|d ds Hd%isdigit_range Hds IH]; intros acc Ha; cbn; [lia|].
  etrans; [|apply IH; lia]. lia.
Qed.

(** The largest number the type holds. *)
Definition limit (signed : bool) (w : Z) : Z := if signed then 2 ^ (w - 1) else 2 ^ w.

Lemma accumulate_ok signed w ret v :
  0 < w -> 0 <= ret -> 0 <= v <= 9 -> ret * 10 + v < limit signed w ->
  accumulate signed w ret v = Some (Some (ret * 10 + v)).
Proof.
  intros Hw Hr Hv Hl. unfold accumulate, limit in *. destruct signed.
  - pose proof (Z.pow_pos_nonneg 2 (w - 1)).
    destruct (Z.leb_spec (- 2 ^ (w - 1)) (ret * 10 + v)); [|lia].
    destruct (Z.ltb_spec (ret * 10 + v) (2 ^ (w - 1))); [|lia]. cbn.
    destruct (Z.ltb_spec (ret * 10 + v) ret); [lia|done].
  - rewrite wrap_add_l, wrap_small by lia. destruct (Z.ltb_spec (ret * 10 + v) ret); [lia|done].
Qed.

Lemma digits_loop_ok signed w ds rest acc :
  0 < w -> all_digits ds -> 0 <= acc -> digits_value ds acc < limit signed w ->
  digits_loop signed w (ds ++ rest) (Z.of_nat (length ds)) acc = Some (Some (digits_value ds acc)).
Proof.
  intros Hw Hd. revert acc. induction Hd as [|d ds Hd Hds IH]; intros acc Ha Hl.
  - by destruct rest.
  - cbn [app digits_loop length digits_value foldl] in *. rewrite Hd.
    destruct (Z.gtb_spec (Z.of_nat (S (length ds))) 0); [|lia].
    apply isdigit_range in Hd.
    pose proof (digits_value_mono ds (acc * 10 + (d - 48)) Hds ltac:(lia)) as Hm.
    rewrite accumulate_ok by (unfold digits_value in *; lia).
    replace (Z.of_nat (S (length ds)) - 1) with (Z.of_nat (length ds)) by lia.
    apply IH; [lia|done].
Qed.

(** More data than digits: the loop stops at the first other character. *)
Lemma digits_loop_more signed w ds c rest len acc :
  0 < w -> all_digits ds -> 0 <= acc -> digits_value ds acc < limit signed w ->
  isdigit c = false -> Z.of_nat (length ds) <= len ->
  digits_loop signed w (ds ++ c :: rest) len acc = Some (Some (digits_value ds acc)).
Proof.
  intros Hw Hd. revert acc len. induction Hd as [|d ds Hd Hds IH]; intros acc len Ha Hl Hc Hlen.
  - cbn. rewrite Hc. by destruct (Z.gtb_spec len 0).
  - cbn [app digits_loop length digits_value foldl] in *. rewrite Hd.
    destruct (Z.gtb_spec len 0); [|lia]. apply isdigit_range in Hd.
    pose proof (digits_value_mono ds (acc * 10 + (d - 48)) Hds ltac:(lia)) as Hm.
    rewrite accumulate_ok by (unfold digits_value in *; lia).
    apply IH; [lia|done|done|lia].
Qed.

(** An unsigned parser is defined wherever a terminator ends the memory, for any
    length it is told, and what it answers fits its type. *)
Lemma digits_loop_total w t len acc : 0 < w -> 0 <= acc < 2 ^ w ->
  exists r, digits_loop false w (t ++ [0]) len acc = Some r /\ (forall n, r = Some n -> 0 <= n < 2 ^ w).
Proof.
  intros Hw. revert len acc. induction t as [|c t IH]; intros len acc Ha; cbn [app digits_loop].
  - exists (Some acc). split; [by destruct (len >? 0)|]. by intros n [= <-].
  - destruct (len >? 0); [|by exists (Some acc); split; [|intros n [= <-]]].
    destruct (isdigit c); [|by exists (Some acc); split; [|intros n [= <-]]].
    unfold accumulate. destruct (_ <? acc); [by exists None|]. apply IH, wrap_range. lia.
Qed.
Lemma skip_spaces_total t len :
  exists c rest k, skip_spaces (t ++ [0]) len = Some (c :: rest, k) /\ ((c = 0 /\ rest = []) \/ exists t', rest = t' ++ [0]).
Proof.
  revert len. induction t as [|c t IH]; intros len; cbn [app skip_spaces].
  - exists 0, [], len. split; [by destruct (len >? 0)|by left].
  - destruct (len >? 0); [destruct (isspace c); [apply IH|]|]; by exists c, (t ++ [0]), len; split; [|right; exists t].
Qed.
Lemma safe_to_total w t len : 0 < w ->
  exists r, safe_to false w (Some (t ++ [0])) len = Some r /\ (forall n, r = Some n -> 0 <= n < 2 ^ w).
Proof.
  intros Hw. unfold safe_to. destruct (len =? 0); [by exists None|].
  destruct (skip_spaces_total t len) as (c&rest&k&->&Hr). assert (0 <= 0 < 2 ^ w) as H0 by (pose proof (Z.pow_pos_nonneg 2 w); lia).
  destruct (Z.eqb_spec c 45) as [->|]; [by exists None|]. destruct (Z.eqb_spec c 43) as [->|].
  - destruct Hr as [[? _]|[t' ->]]; [done|]. by apply digits_loop_total.
  - destruct Hr as [[-> ->]|[t' ->]]; [by apply (digits_loop_total w [])|]. by apply (digits_loop_total w (c :: t')).
Qed.

Lemma decimal_loop_spec fuel n acc :
  0 <= n < 10 ^ Z.of_nat fuel -> (0 < fuel)%nat -> all_digits acc ->
  all_digits (decimal_loop fuel n acc) /\ (length acc < length (decimal_loop fuel n acc))%nat /\
  digits_value (decimal_loop fuel n acc) 0 = digits_value acc n.
Proof.
  revert n acc. induction fuel as [|f IH]; intros n acc Hn Hf Ha; [lia|]. cbn [decimal_loop].
  destruct (Z.ltb_spec n 10).
  - split_and!; [|cbn; lia|].
    + constructor; [|done]. unfold isdigit. lia.
    + unfold digits_value. cbn [foldl]. f_equal. lia.
  - replace (Z.of_nat (S f)) with (1 + Z.of_nat f) in Hn by lia. rewrite Z.pow_add_r in Hn by lia. change (10 ^ 1) with 10 in Hn.
    pose proof (Z.div_mod n 10). pose proof (Z.mod_pos_bound n 10).
    assert (0 < f)%nat by (destruct f; [change (10 ^ Z.of_nat 0) with 1 in Hn; lia|lia]).
    destruct (IH (n / 10) (48 + n mod 10 :: acc)) as (A1&A2&A3); [|done| |].
    + split; [apply Z.div_pos; lia|]. apply Z.div_lt_upper_bound; lia.
    + constructor; [|done]. unfold isdigit. lia.
    + split_and!; [done|cbn in A2; lia|]. rewrite A3. unfold digits_value. cbn [foldl]. f_equal. lia.
Qed.

Lemma decimal_loop_length fuel n acc :
  (length (decimal_loop fuel n acc) <= length acc + fuel)%nat.
Proof.
  revert n acc. induction fuel as [|f IH]; intros n acc; cbn [decimal_loop]; [lia|].
  destruct (n <? 10); [cbn; lia|]. etrans; [apply IH|]. cbn. lia.
Qed.

Lemma decimal_spec n :
  0 <= n -> all_digits (decimal n) /\ decimal n <> [] /\ digits_value (decimal n) 0 = n.
Proof.
  intros Hn. destruct (decimal_loop_spec (S (Z.to_nat (Z.log2 n))) n []) as (H1&H2&H3).
  - split; [done|]. destruct (Z.eq_dec n 0) as [->|]; [done|].
    pose proof (Z.log2_spec n ltac:(lia)). pose proof (Z.log2_nonneg n).
    apply Z.lt_le_trans with (2 ^ Z.succ (Z.log2 n)); [lia|].
    replace (Z.of_nat (S (Z.to_nat (Z.log2 n)))) with (Z.succ (Z.log2 n)) by lia.
    apply Z.pow_le_mono_l. lia.
  - lia.
  - done.
  - split_and!; [done| |done]. intros E. unfold decimal in *. rewrite E in H2. cbn in H2. lia.
Qed.

Lemma skip_spaces_ok sp c rest k :
  Forall (fun d => isspace d = true) sp -> isspace c = false -> 0 <= k ->
  skip_spaces (sp ++ c :: rest) (Z.of_nat (length sp) + k) = Some (c :: rest, k).
Proof.
  intros Hs Hc Hk. induction Hs as [|s sp Hs Hsp IH].
  - cbn [app length skip_spaces]. destruct (Z.gtb_spec (Z.of_nat 0 + k) 0); [by rewrite Hc|done].
  - cbn [app length skip_spaces]. rewrite Hs.
    destruct (Z.gtb_spec (Z.of_nat (S (length sp)) + k) 0); [|lia].
    replace (Z.of_nat (S (length sp)) + k - 1) with (Z.of_nat (length sp) + k) by lia. done.
Qed.

Inductive sign := NoSign | Plus | Minus.
Definition sign_bytes (s : sign) : bytes :=
  match s with NoSign => [] | Plus => [43] | Minus => [45] end.
Definition signed_value (s : sign) (n : Z) : Z := match s with Minus => - n | _ => n end.

Lemma safe_to_decimal signed w sp s n rest :
  0 < w -> Forall (fun d => isspace d = true) sp -> (s = Minus -> signed = true) ->
  0 <= n < limit signed w ->
  let text := sp ++ sign_bytes s ++ decimal n in
  Z.of_nat (length text) < 2 ^ 32 ->
  safe_to signed w (Some (text ++ rest)) (Z.of_nat (length text)) = Some (Some (signed_value s n)).
Proof.
  intros Hw Hsp Hs Hn text Hlen. unfold safe_to.
  destruct (decimal_spec n) as (Hd&Hne&Hv); [lia|].
  assert (length (decimal n) <> 0%nat) as Hl0 by (by destruct (decimal n)).
  unfold text in *. rewrite !length_app in *. rewrite !Nat2Z.inj_add in *.
  destruct (Z.eqb_spec (Z.of_nat (length sp) + (Z.of_nat (length (sign_bytes s)) + Z.of_nat (length (decimal n)))) 0); [lia|].
  pose proof (digits_loop_ok signed w (decimal n) rest 0 Hw Hd ltac:(lia)) as Hloop.
  rewrite Hv in Hloop. specialize (Hloop ltac:(lia)).
  rewrite <- !app_assoc.
  destruct s; cbn [sign_bytes app length] in *.
  - destruct (decimal n) as [|d ds] eqn:E; [done|]. cbn [app].
    inversion_clear Hd as [|?? Hd1 Hd2]. apply isdigit_range in Hd1.
    rewrite skip_spaces_ok; [|done|unfold isspace; lia|lia].
    destruct (Z.eqb_spec d 45); [lia|]. destruct (Z.eqb_spec d 43); [lia|]. exact Hloop.
  - rewrite skip_spaces_ok by (done || lia). cbn [Z.eqb Pos.eqb].
    replace (u32 _) with (Z.of_nat (length (decimal n))) by (rewrite wrap_small; lia). exact Hloop.
  - rewrite Hs by done. rewrite skip_spaces_ok by (done || lia). cbn [Z.eqb Pos.eqb].
    replace (u32 _) with (Z.of_nat (length (decimal n))) by (rewrite wrap_small; lia).
    rewrite <- (Hs eq_refl), Hloop. done.
Qed.
End parsing.

(** ** Searching and comparing *)
Section strings.
Import Str.

Lemma matches_prefix data sub : matches data sub = true <-> sub `prefix_of` data.
Proof.
  revert data. induction sub as [|y sub IH]; intros data; cbn.
  { split; [intros _; apply prefix_nil|done]. }
  destruct data as [|x data].
  { split; [done|]. intros Hp. by apply prefix_nil_not in Hp. }
  rewrite andb_true_iff, Z.eqb_eq, IH. split.
  - intros [-> ?]. by apply prefix_cons.
  - intros H. split; [by apply prefix_cons_inv_1 in H|by apply prefix_cons_inv_2 in H].
Qed.

(** The occurrences of [sub] in [data]. *)
Definition occurs (data sub : bytes) (i : Z) : Prop :=
  0 <= i /\ (Z.to_nat i + length sub <= length data)%nat /\ sub `prefix_of` drop (Z.to_nat i) data.

Lemma memfind_loop_spec n : forall i data sub,
  (n + length sub <= S (length data))%nat ->
  match memfind_loop n i data sub with
  | Some r => i <= r < i + Z.of_nat n /\ sub `prefix_of` drop (Z.to_nat (r - i)) data /\
              forall j, i <= j < r -> ~ sub `prefix_of` drop (Z.to_nat (j - i)) data
  | None => forall j, i <= j < i + Z.of_nat n -> ~ sub `prefix_of` drop (Z.to_nat (j - i)) data
  end.
Proof.
  induction n as [|n IH]; intros i data sub Hn; cbn [memfind_loop]; [intros; lia|].
  destruct (matches data sub) eqn:Hm.
  - apply matches_prefix in Hm. split_and!; [lia..| |lia]. by rewrite Z.sub_diag.
  - assert (~ sub `prefix_of` data) as Hnm by (rewrite <- matches_prefix; congruence).
    assert (forall k, drop (Z.to_nat (k - (i + 1))) (tail data) = drop (Z.to_nat (k - i)) data \/ k <= i) as Hdrop.
    { intros k. destruct (Z.le_gt_cases k i); [by right|left].
      replace (Z.to_nat (k - i)) with (S (Z.to_nat (k - (i + 1)))) by lia.
      destruct data; cbn; [by rewrite drop_nil|done]. }
    assert (length (tail data) = (length data - 1)%nat) as Ht by (destruct data; cbn; lia).
    specialize (IH (i + 1) (tail data) sub).
    destruct (memfind_loop n (i + 1) (tail data) sub) as [r|].
    + destruct n as [|n']; [destruct IH; lia|].
      destruct IH as (Hr&Hp&Hmin); [lia|].
      destruct (Hdrop r) as [Hd|]; [|lia]. rewrite Hd in Hp. split_and!; [lia..|done|].
      intros j Hj. destruct (Z.eq_dec j i) as [->|]; [by rewrite Z.sub_diag|].
      destruct (Hdrop j) as [<-|]; [|lia]. apply Hmin. lia.
    + intros j Hj. destruct (Z.eq_dec j i) as [->|]; [by rewrite Z.sub_diag|].
      destruct (Hdrop j) as [<-|]; [|lia]. destruct n as [|n']; [lia|]. apply IH; lia.
Qed.

(** [memfind] finds the first occurrence. *)
Lemma memfind_spec data sub :
  match Str.memfind data sub with
  | Some i => occurs data sub i /\ forall j, occurs data sub j -> i <= j
  | None => forall j, ~ occurs data sub j
  end.
Proof.
  unfold Str.memfind. destruct (Nat.ltb_spec (length data) (length sub)) as [Hl|Hl].
  { intros j (?&?&?). lia. }
  pose proof (memfind_loop_spec (S (length data - length sub)) 0 data sub ltac:(lia)) as Hs.
  destruct (Str.memfind_loop _ 0 data sub) as [r|].
  - destruct Hs as (Hr&Hp&Hm). rewrite Z.sub_0_r in Hp. split; [split_and!; [lia..|done]|].
    intros j (Hj&Hjl&Hjp). destruct (Z.le_gt_cases r j); [done|].
    exfalso. apply (Hm j); [lia|]. by rewrite Z.sub_0_r.
  - intros j (Hj&Hjl&Hjp). apply (Hs j); [lia|]. by rewrite Z.sub_0_r.
Qed.

(** The order [strcasecmp] compares by: the signed upper-case character. *)
Definition fold_case (b : Z) : Z := upper (char b).
Fixpoint lex (xs ys : list Z) : Z :=
  match xs, ys with
  | [], [] => 0
  | [], _ :: _ => -1
  | _ :: _, [] => 1
  | x :: xs, y :: ys => match x ?= y with Eq => lex xs ys | Lt => -1 | Gt => 1 end
  end.

Lemma compare_chars_fold b1 b2 :
  compare_chars b1 b2 =
  match fold_case b1 ?= fold_case b2 with Eq => None | Lt => Some (-1) | Gt => Some 1 end.
Proof.
  unfold compare_chars, fold_case. destruct (Z.eqb_spec (char b1) (char b2)) as [->|].
  { by rewrite Z.compare_refl. }
  destruct (Z.compare_spec (upper (char b1)) (upper (char b2)));
    destruct (Z.eqb_spec (upper (char b1)) (upper (char b2))); try lia; try done.
  - destruct (Z.gtb_spec (upper (char b1)) (upper (char b2))); [lia|done].
  - destruct (Z.gtb_spec (upper (char b1)) (upper (char b2))); [done|lia].
Qed.

Lemma Util_strcasecmp_lex s1 s2 : Util_strcasecmp s1 s2 = lex (fold_case <$> s1) (fold_case <$> s2).
Proof.
  revert s2. induction s1 as [|b1 s1 IH]; intros [|b2 s2]; try done.
  cbn [Util_strcasecmp fmap list_fmap lex]. rewrite compare_chars_fold.
  by destruct (_ ?= _).
Qed.
Lemma strcasecmp_lex s1 s2 :
  length s1 = length s2 -> strcasecmp s1 s2 = lex (fold_case <$> s1) (fold_case <$> s2).
Proof.
  revert s2. induction s1 as [|b1 s1 IH]; intros [|b2 s2] Hl; try done.
  cbn [strcasecmp fmap list_fmap lex]. rewrite compare_chars_fold.
  destruct (_ ?= _); [|done..]. apply IH. cbn in Hl. lia.
Qed.
Lemma lex_refl xs : lex xs xs = 0.
Proof. induction xs as [|x xs IH]; cbn; [done|]. by rewrite Z.compare_refl. Qed.
Lemma lex_zero xs ys : lex xs ys = 0 -> xs = ys.
Proof.
  revert ys. induction xs as [|x xs IH]; intros [|y ys]; cbn; try done.
  destruct (Z.compare_spec x y) as [->| |]; [|done..]. intros ?%IH. congruence.
Qed.
Lemma lex_antisym xs ys : lex ys xs = - lex xs ys.
Proof.
  revert ys. induction xs as [|x xs IH]; intros [|y ys]; cbn; try done.
  rewrite Z.compare_antisym. destruct (x ?= y); cbn; [apply IH|done..].
Qed.

Lemma byte_all (P : Z -> Prop) `{forall b, Decision (P b)} :
  Forall P (seqZ 0 256) -> forall b, is_byte b -> P b.
Proof. intros Hall b Hb. apply (proj1 (Forall_forall _ _) Hall), elem_of_seqZ. unfold is_byte in Hb. lia. Qed.
Lemma fold_lower b : is_byte b -> fold_case (lower b) = fold_case b.
Proof. apply (byte_all (fun b => fold_case (lower b) = fold_case b)). apply (bool_decide_unpack _). vm_compute. exact I. Qed.
Lemma lower_lower b : is_byte b -> lower (lower b) = lower b.
Proof. apply (byte_all (fun b => lower (lower b) = lower b)). apply (bool_decide_unpack _). vm_compute. exact I. Qed.
Lemma lower_fold b : is_byte b -> lower (u8 (fold_case b)) = lower b.
Proof. apply (byte_all (fun b => lower (u8 (fold_case b)) = lower b)). apply (bool_decide_unpack _). vm_compute. exact I. Qed.
(** Equal up to case is equal in lower case. *)
Lemma fold_eq_lower b c : is_byte b -> is_byte c -> fold_case b = fold_case c <-> lower b = lower c.
Proof.
  intros Hb Hc. split; intros E.
  - by rewrite <- lower_fold, E, lower_fold.
  - by rewrite <- fold_lower, E, fold_lower.
Qed.

Lemma fold_case_to_lower s1 s2 :
  Forall is_byte s1 -> Forall is_byte s2 ->
  (fold_case <$> s1 = fold_case <$> s2) <-> to_lower s1 = to_lower s2.
Proof.
  intros H1. revert s2. induction H1 as [|b s1 Hb H1 IH]; intros s2 H2; destruct H2 as [|c s2 Hc H2];
    cbn; try done.
  split; intros [= E Es]; f_equal; (apply fold_eq_lower; done) || (apply IH; done).
Qed.

Lemma get_suffix_loop_spec fuel key len i :
  (forall o n, get_suffix_loop fuel key len i = Some (o, n) ->
     0 < o <= i + 1 /\ n = u32 (len - o) /\ i - o + 1 < Z.of_nat fuel /\
     key !! Z.to_nat (o - 1) = Some 46 /\
     forall j, o <= j <= i -> key !! Z.to_nat j <> Some 46) /\
  (get_suffix_loop fuel key len i = None ->
     forall j, 0 <= j <= i -> i - j < Z.of_nat fuel -> key !! Z.to_nat j <> Some 46).
Proof.
  revert i. induction fuel as [|f IH]; intros i; cbn [get_suffix_loop]; [split; intros; [done|lia]|].
  rewrite Z.geb_leb. destruct (Z.leb_spec 0 i); [|split; intros; [done|lia]].
  destruct (IH (i - 1)) as [IHs IHn].
  destruct (Z.eqb_spec (default 0 (key !! Z.to_nat i)) 46) as [Hd|Hd].
  - split; [|done]. intros o n [= <- <-]. split_and!; [lia|lia|f_equal; lia|lia| |].
    + replace (i + 1 - 1) with i by lia. destruct (key !! Z.to_nat i); [|done]. by cbn in Hd; subst.
    + intros j Hj. lia.
  - assert (key !! Z.to_nat i <> Some 46) as Hni by (intros E; by rewrite E in Hd).
    split.
    + intros o n Hs. destruct (IHs o n Hs) as (?&?&?&?&Hm). split_and!; [lia|lia|done|lia|done|].
      intros j Hj. destruct (Z.eq_dec j i) as [->|]; [done|]. apply Hm. lia.
    + intros Hn j Hj Hf. destruct (Z.eq_dec j i) as [->|]; [done|]. apply IHn; [done|lia|lia].
Qed.
End strings.

(** ** Properties *)

(** The [ENCODE] and [DECODE] macros speak network byte order whatever the
    machine: a value encoded on one machine is the big-endian bytes of its
    integer, and decodes to it, wrapped to its width, on any other; and decoding
    then encoding gives the bytes back. *)
Theorem network_byte_order (sender receiver : bool) x b2 b4 b8 :
  word 2 b2 -> word 4 b4 -> word 8 b8 ->
  (ENCODE_UINT16 sender x = be_bytes 2 x /\ ENCODE_UINT32 sender x = be_bytes 4 x
   /\ ENCODE_UINT64 sender x = be_bytes 8 x)
  /\ (DECODE_UINT16 receiver (ENCODE_UINT16 sender x) = u16 x
      /\ DECODE_UINT32 receiver (ENCODE_UINT32 sender x) = u32 x
      /\ DECODE_UINT64 receiver (ENCODE_UINT64 sender x) = u64 x)
  /\ (ENCODE_UINT16 sender (DECODE_UINT16 receiver b2) = b2
      /\ ENCODE_UINT32 sender (DECODE_UINT32 receiver b4) = b4
      /\ ENCODE_UINT64 sender (DECODE_UINT64 receiver b8) = b8).
Proof.
  intros H2 H4 H8. rewrite !encode16_be, !encode32_be, !encode64_be.
  rewrite !decode16_be, !decode32_be, !decode64_be by (apply be_bytes_word || done).
  rewrite !be_value_bytes. by rewrite !be_bytes_value.
Qed.

Lemma network_byte_order_witness :
  ENCODE_UINT32 true 0x01020304 = [1; 2; 3; 4]
  /\ DECODE_UINT32 false (ENCODE_UINT32 true 0x01020304) = 0x01020304.
Proof.
  split; [by vm_compute|].
  apply (network_byte_order true false 0x01020304 [1; 2] [1; 2; 3; 4] [1; 2; 3; 4; 5; 6; 7; 8]);
    split; try done; repeat (constructor; [by unfold is_byte|]); constructor.
Defined.

(** C34. The four number parsers read back every number that is printed in
    decimal: after any white space and an optional sign (a minus only for the
    signed ones), the digits of a number the type holds give that number,
    whatever follows the [data_len] characters. *)
Theorem parse_decimal sp s n rest :
  Forall (fun c => Parse.isspace c = true) sp -> 0 <= n ->
  let text := sp ++ sign_bytes s ++ Parse.decimal n in
  let len := Z.of_nat (length text) in
  len < 2 ^ 32 ->
  (s <> Minus -> n < 2 ^ 64 -> Parse.safe_toui64 (Some (text ++ rest)) len = Some (Some n))
  /\ (s <> Minus -> n < 2 ^ 32 -> Parse.safe_toui32 (Some (text ++ rest)) len = Some (Some n))
  /\ (n < 2 ^ 63 -> Parse.safe_toi64 (Some (text ++ rest)) len = Some (Some (signed_value s n)))
  /\ (n < 2 ^ 31 -> Parse.safe_toi32 (Some (text ++ rest)) len = Some (Some (signed_value s n))).
Proof.
  intros Hsp Hn text len Hlen.
  assert (s <> Minus -> n = signed_value s n) as Hs by (by destruct s).
  split_and!.
  - intros Hm Hl. replace (Some (Some n)) with (Some (Some (signed_value s n))) by (by rewrite <- Hs).
    by apply safe_to_decimal.
  - intros Hm Hl. replace (Some (Some n)) with (Some (Some (signed_value s n))) by (by rewrite <- Hs).
    by apply safe_to_decimal.
  - intros Hl. by apply safe_to_decimal.
  - intros Hl. by apply safe_to_decimal.
Qed.

(** [" -42x"], of which four characters are the number. *)
Lemma parse_decimal_witness :
  Parse.safe_toi32 (Some [32; 45; 52; 50; 120]) 4 = Some (Some (-42)).
Proof.
  apply (parse_decimal [32] Minus 42 [120]); [by repeat constructor|done..].
Defined.

(** The overflow check [temp < ret] of the unsigned parsers is incomplete:
    the ten digits "9999999999" do not fit 32 bits and are accepted as
    1410065407, and the 64-bit parser accepts "30000000000000000000" as
    11553255926290448384. *)
Theorem parse_overflow_accepted :
  Parse.safe_toui32 (Some (replicate 10 57)) 10 = Some (Some 1410065407)
  /\ Parse.safe_toui64 (Some (51 :: replicate 19 48)) 20 = Some (Some 11553255926290448384).
Proof. vm_compute. split; reflexivity. Qed.

(** The parsers read one byte past the data when it is all white space,
    and if a plus sign is there, [data_len] wraps to [2^32 - 1] and they go on
    to read the digits behind it. *)
Theorem parse_reads_past_the_data n rest :
  0 <= n < 2 ^ 32 ->
  Parse.safe_toui32 (Some [32]) 1 = None
  /\ Parse.safe_toui32 (Some ([32; 43] ++ Parse.decimal n ++ 0 :: rest)) 1 = Some (Some n).
Proof.
  intros Hn. split; [done|].
  destruct (decimal_spec n ltac:(lia)) as (Hd&_&Hv).
  change (Parse.safe_toui32 (Some ([32; 43] ++ Parse.decimal n ++ 0 :: rest)) 1)
    with (Parse.digits_loop false 32 (Parse.decimal n ++ 0 :: rest) (2 ^ 32 - 1) 0).
  rewrite <- Hv at 2. apply digits_loop_more; [done|done|lia|rewrite Hv; cbn [limit]; lia|done|].
  pose proof (decimal_loop_length (S (Z.to_nat (Z.log2 n))) n []) as Hlen. fold (Parse.decimal n) in Hlen.
  assert (Z.log2 n < 32); [|cbn [length Nat.add] in Hlen; lia].
  destruct (Z.eq_dec n 0) as [->|]; [done|]. apply Z.log2_lt_pow2; lia.
Qed.

Lemma parse_reads_past_the_data_witness :
  Parse.safe_toui32 (Some [32; 43; 55; 0]) 1 = Some (Some 7).
Proof. apply (parse_reads_past_the_data 7 []). lia. Defined.

(** C19. [memfind] finds the first occurrence: it returns the least offset at
    which the pattern lies inside the data, and [NULL] if there is none. *)
Theorem memfind_first data sub :
  match Str.memfind data sub with
  | Some i => occurs data sub i /\ forall j, occurs data sub j -> i <= j
  | None => forall j, ~ occurs data sub j
  end.
Proof. apply memfind_spec. Qed.

(** Both [strcasecmp]s compare by the lexicographic order of the upper-case
    signed characters; so they are 0 exactly for strings that are equal in lower
    case, and exchanging the arguments negates the result. *)
Theorem strcasecmp_order s1 s2 :
  Forall is_byte s1 -> Forall is_byte s2 ->
  Str.Util_strcasecmp s1 s2 = lex (fold_case <$> s1) (fold_case <$> s2)
  /\ (length s1 = length s2 -> Str.strcasecmp s1 s2 = Str.Util_strcasecmp s1 s2)
  /\ Str.Util_strcasecmp s2 s1 = - Str.Util_strcasecmp s1 s2
  /\ (Str.Util_strcasecmp s1 s2 = 0 <-> Str.to_lower s1 = Str.to_lower s2).
Proof.
  intros H1 H2. rewrite !Util_strcasecmp_lex. split_and!; [done|apply strcasecmp_lex|apply lex_antisym|].
  rewrite <- fold_case_to_lower by done. split; [apply lex_zero|intros ->; apply lex_refl].
Qed.

Lemma strcasecmp_order_witness :
  Str.Util_strcasecmp [71; 101; 84] [103; 69; 116] = 0.
Proof.
  apply (strcasecmp_order [71; 101; 84] [103; 69; 116]);
    [repeat (constructor; [by unfold is_byte|]); constructor..|done].
Defined.

(** C26. [get_suffix] returns what follows the last dot of the key, if that dot
    is among its last ten characters, and [NULL] otherwise. *)
Theorem get_suffix_last_dot key :
  let len := Z.of_nat (length key) in
  len < 2 ^ 31 ->
  match Str.get_suffix key len with
  | Some (o, n) => 0 < o <= len /\ n = len - o /\ len - o < 10 /\ key !! Z.to_nat (o - 1) = Some 46
                   /\ forall j, o <= j -> key !! Z.to_nat j <> Some 46
  | None => forall j, 0 <= j -> len - 1 - j < 10 -> key !! Z.to_nat j <> Some 46
  end.
Proof.
  intros len Hlen. unfold Str.get_suffix. rewrite swrap_small by lia.
  assert (forall j, len <= j -> key !! Z.to_nat j <> Some 46) as Hend.
  { intros j Hj. rewrite lookup_ge_None_2; [done|]. lia. }
  destruct (get_suffix_loop_spec 10 key len (len - 1)) as [Hs Hn].
  destruct (Str.get_suffix_loop 10 key len (len - 1)) as [[o n]|].
  - destruct (Hs o n eq_refl) as (Ho&->&Hf&Hk&Hm). split_and!; [lia|lia| |lia|done|].
    + rewrite wrap_small; lia.
    + intros j Hj. destruct (Z.lt_ge_cases j len); [apply Hm; lia|by apply Hend].
  - intros j Hj Hf. destruct (Z.lt_ge_cases j len); [apply Hn; [done|lia|lia]|by apply Hend].
Qed.

Lemma get_suffix_last_dot_witness :
  let key := [97; 46; 104; 116; 109] in
  match Str.get_suffix key 5 with
  | Some (o, n) => n = 5 - o /\ forall j, o <= j -> key !! Z.to_nat j <> Some 46
  | None => False
  end.
Proof.
  pose proof (get_suffix_last_dot [97; 46; 104; 116; 109] ltac:(done)) as H. cbn zeta in *.
  change (Z.of_nat (length [97; 46; 104; 116; 109])) with 5 in H.
  destruct (Str.get_suffix [97; 46; 104; 116; 109] 5) as [[o n]|] eqn:E.
  - split; apply H.
  - discriminate E.
Defined.
