(* ===== verification/CurrTime.v ===== *)
(** * The server's clock, [src/src/currtime.h] and [src/src/currtime.cpp]

    [Current_Time] counts seconds from 8 on, by the readings of [time(NULL)]
    the timer makes; a reading is an argument here. *)

From S2P Require Import Prelude.

Module Current_Time.
(** The members, lines 64-66. *)
Record clock := mkclock { start_time_ : Z; current_time_ : Z; last_time_ : Z }.

(** The constructor, lines 22-25. *)
Definition init (now : Z) : clock := mkclock (u32 now) 8 (u32 now).

(** Lines 27-37. *)
Definition set_current_time (now : Z) (s : clock) : clock :=
  let tt := u32 now in
  let s :=
    if tt >? last_time_ s then
      let d := u32 (tt - last_time_ s) in
      let d := if d >? 10 then 10 else d in
      s <| current_time_ ::= fun t => u32 (t + d) |>
    else s in
  s <| last_time_ := tt |>.

Definition get_current_time (s : clock) : Z := current_time_ s.
Definition get_start_time (s : clock) : Z := start_time_ s.

(** Both [realtime]s, lines 32-55. *)
Definition realtime (curr_time expiration : Z) : Z :=
  if expiration =? 0 then 0
  else
    let t := u64 (expiration + curr_time) in
    if t <=? 0xFFFFFFFF then t else 0.

(** Lines 56-61. *)
Definition is_timeout (s : clock) (last_time timeout : Z) : bool :=
  if last_time =? 0 then false else u32 (last_time + timeout) <=? current_time_ s.

Definition ticks (readings : list Z) (s : clock) : clock :=
  foldl (fun s now => set_current_time now s) s readings.
End Current_Time.
Import Current_Time.

Lemma ticks_snoc rs now s : ticks (rs ++ [now]) s = set_current_time now (ticks rs s).
Proof. unfold ticks. by rewrite foldl_app. Qed.

Lemma set_current_time_step now s :
  0 <= last_time_ s < 2 ^ 32 ->
  exists d, 0 <= d <= 10 /\ current_time_ (set_current_time now s) = (if d =? 0 then current_time_ s else u32 (current_time_ s + d))
    /\ last_time_ (set_current_time now s) = u32 now
    /\ (0 <= u32 now - last_time_ s <= 10 -> d = u32 now - last_time_ s)
    /\ (u32 now <= last_time_ s -> d = 0).
Proof.
  intros Hl. unfold set_current_time. destruct (Z.gtb_spec (u32 now) (last_time_ s)) as [Hgt|Hle].
  - pose proof (wrap_range 32 now ltac:(lia)). rewrite (wrap_small 32 (u32 now - _)) by lia.
    set (d := if _ >? 10 then _ else _).
    assert (1 <= d <= 10 /\ (u32 now - last_time_ s <= 10 -> d = u32 now - last_time_ s)) as [Hd Hd'].
    { unfold d. destruct (Z.gtb_spec (u32 now - last_time_ s) 10); lia. }
    exists d. split_and!; [lia..| |done|lia|lia].
    cbn [current_time_ set const]. destruct (Z.eqb_spec d 0); [lia|done].
  - exists 0. split_and!; [lia..|done|done|lia|done].
Qed.

Lemma ticks_range rs s : 0 <= last_time_ s < 2 ^ 32 -> 0 <= last_time_ (ticks rs s) < 2 ^ 32.
Proof.
  intros Hs. induction rs as [|r rs _] using rev_ind; [done|]. rewrite ticks_snoc.
  apply (wrap_range 32). lia.
Qed.

(** The clock is monotone and cannot jump: as long as it has not run into
    its 32 bits, a reading adds between 0 and 10 seconds, nothing if the system
    clock went back, and exactly the difference to the last reading if that is
    at most 10 seconds; after [n] readings it shows at most [8 + 10 n]. *)
Theorem clock_bounded_steps start rs now :
  let s := ticks rs (init start) in
  let s' := set_current_time now s in
  8 + 10 * (Z.of_nat (length rs) + 1) < 2 ^ 32 ->
  8 <= current_time_ s <= 8 + 10 * Z.of_nat (length rs)
  /\ 0 <= current_time_ s' - current_time_ s <= 10
  /\ (u32 now <= last_time_ s -> current_time_ s' = current_time_ s)
  /\ (0 <= u32 now - last_time_ s <= 10 -> current_time_ s' - current_time_ s = u32 now - last_time_ s).
Proof.
  intros s s' Hn.
  assert (forall k, 8 + 10 * Z.of_nat (length k) < 2 ^ 32 ->
    8 <= current_time_ (ticks k (init start)) <= 8 + 10 * Z.of_nat (length k)) as Hb.
  { intros k. induction k as [|r k IH] using rev_ind; intros Hk; [done|].
    rewrite length_app in *. cbn [length] in *. rewrite ticks_snoc.
    destruct (set_current_time_step r (ticks k (init start))) as (d&Hd&->&_).
    { apply ticks_range. apply wrap_range. lia. }
    destruct (Z.eqb_spec d 0); [lia|]. rewrite wrap_small; lia. }
  pose proof (Hb rs ltac:(lia)) as Hs. fold s in Hs. split; [done|].
  destruct (set_current_time_step now s) as (d&Hd&Hc&_&Hd1&Hd2).
  { apply ticks_range. apply wrap_range. lia. }
  fold s' in Hc. destruct (Z.eqb_spec d 0); [|rewrite wrap_small in Hc by lia]; lia.
Qed.

Lemma clock_bounded_steps_witness :
  let s := ticks [105; 103; 200] (init 100) in current_time_ s = 23 /\
  0 <= current_time_ (set_current_time 203 s) - current_time_ s <= 10.
Proof.
  split; [by vm_compute|]. apply (clock_bounded_steps 100 [105; 103; 200] 203). cbn. lia.
Defined.

(** [realtime] is the absolute second of an expiration: 0, which means
    never, for an expiration of 0, and the sum of the clock and the expiration
    otherwise; a sum that does not fit 32 bits becomes 0, never, rather than a
    time in the past. *)
Theorem realtime_spec curr_time expiration :
  0 <= curr_time < 2 ^ 32 -> 0 <= expiration < 2 ^ 32 ->
  0 <= realtime curr_time expiration < 2 ^ 32
  /\ (realtime curr_time expiration = 0 <-> expiration = 0 \/ curr_time + expiration >= 2 ^ 32)
  /\ (realtime curr_time expiration <> 0 -> realtime curr_time expiration = curr_time + expiration).
Proof.
  intros Hc He. unfold realtime. destruct (Z.eqb_spec expiration 0); [lia|].
  rewrite wrap_small by lia. destruct (Z.leb_spec (expiration + curr_time) 0xFFFFFFFF); lia.
Qed.

Lemma realtime_spec_witness : realtime 100 (2 ^ 32 - 100) = 0 /\ realtime 100 60 = 160.
Proof.
  split.
  - apply (realtime_spec 100 (2 ^ 32 - 100)); lia.
  - rewrite (proj2 (proj2 (realtime_spec 100 60 ltac:(lia) ltac:(lia)))); done.
Defined.
