(* ===== verification/Pdu.v ===== *)
(** * The binary protocol, [src/src/peer_pdu.h], [peer_pdu.cpp] and [peer_cache_pdu.h]

    Every request has a choice (category and command) and a body of fixed size,
    which [decode_pdu] reads into the request's structure; every response is
    encoded into a buffer of [calc_encode_size] bytes.  [little] says whether the
    server's machine is little-endian.  The request encoders and the response
    decoders, which live in the clients, are written here as the wire format. *)

From S2P Require Import Prelude Lookup3 Util.

(** ** Choices, [peer_pdu.h] lines 34-51 and [peer_cache_pdu.h] lines 24-66 *)
Definition XIXI_CATEGORY_COMMON : Z := 0x00.
Definition XIXI_CATEGORY_CC : Z := 0x01.
Definition XIXI_CATEGORY_CACHE : Z := 0x02.
Definition XIXI_CATEGORY_HA : Z := 0x03.
Definition XIXI_CHOICE_COMMON_BASE : Z := Z.shiftl XIXI_CATEGORY_COMMON 8.
Definition XIXI_CHOICE_CACHE_BASE : Z := Z.shiftl XIXI_CATEGORY_CACHE 8.
Definition XIXI_CHOICE_ERROR : Z := XIXI_CHOICE_COMMON_BASE + 0.
Definition XIXI_CHOICE_HELLO_REQ : Z := XIXI_CHOICE_COMMON_BASE + 1.
Definition XIXI_CHOICE_HELLO_RES : Z := XIXI_CHOICE_COMMON_BASE + 2.
Definition XIXI_CHOICE_BYE_REQ : Z := XIXI_CHOICE_COMMON_BASE + 3.
Definition XIXI_CHOICE_GET_REQ : Z := XIXI_CHOICE_CACHE_BASE + 1.
Definition XIXI_CHOICE_GET_TOUCH_REQ : Z := XIXI_CHOICE_CACHE_BASE + 2.
Definition XIXI_CHOICE_GET_RES : Z := XIXI_CHOICE_CACHE_BASE + 3.
Definition XIXI_CHOICE_GET_BASE_REQ : Z := XIXI_CHOICE_CACHE_BASE + 4.
Definition XIXI_CHOICE_GET_BASE_RES : Z := XIXI_CHOICE_CACHE_BASE + 5.
Definition XIXI_CHOICE_UPDATE_REQ : Z := XIXI_CHOICE_CACHE_BASE + 6.
Definition XIXI_CHOICE_UPDATE_RES : Z := XIXI_CHOICE_CACHE_BASE + 7.
Definition XIXI_CHOICE_UPDATE_FLAGS_REQ : Z := XIXI_CHOICE_CACHE_BASE + 8.
Definition XIXI_CHOICE_UPDATE_FLAGS_RES : Z := XIXI_CHOICE_CACHE_BASE + 9.
Definition XIXI_CHOICE_UPDATE_EXPIRATION_REQ : Z := XIXI_CHOICE_CACHE_BASE + 10.
Definition XIXI_CHOICE_UPDATE_EXPIRATION_RES : Z := XIXI_CHOICE_CACHE_BASE + 11.
Definition XIXI_CHOICE_DELETE_REQ : Z := XIXI_CHOICE_CACHE_BASE + 12.
Definition XIXI_CHOICE_DELETE_RES : Z := XIXI_CHOICE_CACHE_BASE + 13.
Definition XIXI_CHOICE_DELTA_REQ : Z := XIXI_CHOICE_CACHE_BASE + 14.
Definition XIXI_CHOICE_DELTA_RES : Z := XIXI_CHOICE_CACHE_BASE + 15.
Definition XIXI_CHOICE_FLUSH_REQ : Z := XIXI_CHOICE_CACHE_BASE + 16.
Definition XIXI_CHOICE_FLUSH_RES : Z := XIXI_CHOICE_CACHE_BASE + 17.
Definition XIXI_CHOICE_AUTH_REQ : Z := XIXI_CHOICE_CACHE_BASE + 18.
Definition XIXI_CHOICE_AUTH_RES : Z := XIXI_CHOICE_CACHE_BASE + 19.
Definition XIXI_CHOICE_STATS_REQ : Z := XIXI_CHOICE_CACHE_BASE + 20.
Definition XIXI_CHOICE_STATS_RES : Z := XIXI_CHOICE_CACHE_BASE + 21.
Definition XIXI_CHOICE_CREATE_WATCH_REQ : Z := XIXI_CHOICE_CACHE_BASE + 22.
Definition XIXI_CHOICE_CREATE_WATCH_RES : Z := XIXI_CHOICE_CACHE_BASE + 23.
Definition XIXI_CHOICE_CHECK_WATCH_REQ : Z := XIXI_CHOICE_CACHE_BASE + 24.
Definition XIXI_CHOICE_CHECK_WATCH_RES : Z := XIXI_CHOICE_CACHE_BASE + 25.

Definition XIXI_PDU_CHOICE_LENGTH : Z := 2.

(** The reasons of an error response, [xixibase.h] lines 31-46. *)
Inductive xixi_reason :=
  | XIXI_REASON_SUCCESS | XIXI_REASON_NOT_FOUND | XIXI_REASON_EXISTS | XIXI_REASON_TOO_LARGE
  | XIXI_REASON_INVALID_PARAMETER | XIXI_REASON_INVALID_OPERATION | XIXI_REASON_MISMATCH
  | XIXI_REASON_AUTH_ERROR | XIXI_REASON_UNKNOWN_COMMAND | XIXI_REASON_OUT_OF_MEMORY
  | XIXI_REASON_WATCH_NOT_FOUND | XIXI_REASON_IO_ERROR | XIXI_REASON_MOVED_PERMANENTLY.
#[export] Instance xixi_reason_eq : EqDecision xixi_reason.
Proof. solve_decision. Defined.
Definition reason_code (r : xixi_reason) : Z :=
  match r with
  | XIXI_REASON_SUCCESS => 0 | XIXI_REASON_NOT_FOUND => 1 | XIXI_REASON_EXISTS => 2
  | XIXI_REASON_TOO_LARGE => 3 | XIXI_REASON_INVALID_PARAMETER => 4
  | XIXI_REASON_INVALID_OPERATION => 5 | XIXI_REASON_MISMATCH => 6
  | XIXI_REASON_AUTH_ERROR => 7 | XIXI_REASON_UNKNOWN_COMMAND => 8
  | XIXI_REASON_OUT_OF_MEMORY => 9 | XIXI_REASON_WATCH_NOT_FOUND => 12
  | XIXI_REASON_IO_ERROR => 13 | XIXI_REASON_MOVED_PERMANENTLY => 20
  end.

(** ** Reading at an offset of the buffer *)
Notation "b +> n" := (drop n%nat b) (at level 49, n at level 9, only parsing).
Definition rd8 (little : bool) (buf : bytes) : Z := DECODE_UINT8 little (take 1 buf).
Definition rd16 (little : bool) (buf : bytes) : Z := DECODE_UINT16 little (take 2 buf).
Definition rd32 (little : bool) (buf : bytes) : Z := DECODE_UINT32 little (take 4 buf).
Definition rd64 (little : bool) (buf : bytes) : Z := DECODE_UINT64 little (take 8 buf).

(** [XIXI_Pdu_Header], lines 65-83. *)
Module Header.
Definition encode (little : bool) (choice : Z) : bytes := ENCODE_UINT16 little choice.
Definition decode (little : bool) (buf : bytes) : Z := rd16 little buf.
Definition category (choice : Z) : Z := u8 (Z.shiftr choice 8).
Definition command (choice : Z) : Z := u8 choice.
End Header.

(** ** The bodies of the requests *)

(** [XIXI_Get_Req_Pdu], lines 68-84. *)
Module Get_Req.
Record pdu := mk { group_id : Z; watch_id : Z; key_length : Z }.
Definition get_fixed_body_size : Z := 10.
Definition decode_fixed (little : bool) (buf : bytes) : pdu :=
  mk (rd32 little buf)
    (rd32 little (buf +> 4))
    (rd16 little (buf +> 8)).
(** The wire format the decoder reads, for a client on any machine. *)
Definition encode (p : pdu) : bytes :=
  be_bytes 4 (group_id p) ++ be_bytes 4 (watch_id p) ++ be_bytes 2 (key_length p).
Definition wf (p : pdu) : Prop :=
  0 <= group_id p < 2 ^ 32 /\ 0 <= watch_id p < 2 ^ 32 /\ 0 <= key_length p < 2 ^ 16.
End Get_Req.

(** [XIXI_Get_Touch_Req_Pdu], lines 86-104. *)
Module Get_Touch_Req.
Record pdu := mk { group_id : Z; watch_id : Z; expiration : Z; key_length : Z }.
Definition get_fixed_body_size : Z := 14.
Definition decode_fixed (little : bool) (buf : bytes) : pdu :=
  mk (rd32 little buf)
    (rd32 little (buf +> 4))
    (rd32 little (buf +> 8))
    (rd16 little (buf +> 12)).
(** The wire format the decoder reads, for a client on any machine. *)
Definition encode (p : pdu) : bytes :=
  be_bytes 4 (group_id p) ++ be_bytes 4 (watch_id p) ++ be_bytes 4 (expiration p) ++ be_bytes 2 (key_length p).
Definition wf (p : pdu) : Prop :=
  0 <= group_id p < 2 ^ 32 /\ 0 <= watch_id p < 2 ^ 32 /\ 0 <= expiration p < 2 ^ 32 /\ 0 <= key_length p < 2 ^ 16.
End Get_Touch_Req.

(** [XIXI_Get_Base_Req_Pdu], lines 126-140. *)
Module Get_Base_Req.
Record pdu := mk { group_id : Z; key_length : Z }.
Definition get_fixed_body_size : Z := 6.
Definition decode_fixed (little : bool) (buf : bytes) : pdu :=
  mk (rd32 little buf)
    (rd16 little (buf +> 4)).
(** The wire format the decoder reads, for a client on any machine. *)
Definition encode (p : pdu) : bytes :=
  be_bytes 4 (group_id p) ++ be_bytes 2 (key_length p).
Definition wf (p : pdu) : Prop :=
  0 <= group_id p < 2 ^ 32 /\ 0 <= key_length p < 2 ^ 16.
End Get_Base_Req.

(** [XIXI_Update_Req_Pdu], lines 168-200. *)
Module Update_Req.
Record pdu := mk { op_flag : Z; cache_id : Z; group_id : Z; flags : Z; expiration : Z; watch_id : Z; key_length : Z; data_length : Z }.
Definition get_fixed_body_size : Z := 31.
Definition decode_fixed (little : bool) (buf : bytes) : pdu :=
  mk (rd8 little buf)
    (rd64 little (buf +> 1))
    (rd32 little (buf +> 9))
    (rd32 little (buf +> 13))
    (rd32 little (buf +> 17))
    (rd32 little (buf +> 21))
    (rd16 little (buf +> 25))
    (rd32 little (buf +> 27)).
Definition sub_op (p : pdu) : Z := Z.land (op_flag p) 7.
Definition reply (p : pdu) : bool := true.
(** The wire format the decoder reads, for a client on any machine. *)
Definition encode (p : pdu) : bytes :=
  be_bytes 1 (op_flag p) ++ be_bytes 8 (cache_id p) ++ be_bytes 4 (group_id p) ++ be_bytes 4 (flags p) ++ be_bytes 4 (expiration p) ++ be_bytes 4 (watch_id p) ++ be_bytes 2 (key_length p) ++ be_bytes 4 (data_length p).
Definition wf (p : pdu) : Prop :=
  0 <= op_flag p < 2 ^ 8 /\ 0 <= cache_id p < 2 ^ 64 /\ 0 <= group_id p < 2 ^ 32 /\ 0 <= flags p < 2 ^ 32 /\ 0 <= expiration p < 2 ^ 32 /\ 0 <= watch_id p < 2 ^ 32 /\ 0 <= key_length p < 2 ^ 16 /\ 0 <= data_length p < 2 ^ 32.
End Update_Req.

(** [XIXI_Update_Flags_Req_Pdu], lines 216-238. *)
Module Update_Flags_Req.
Record pdu := mk { op_flag : Z; cache_id : Z; group_id : Z; flags : Z; key_length : Z }.
Definition get_fixed_body_size : Z := 19.
Definition decode_fixed (little : bool) (buf : bytes) : pdu :=
  mk (rd8 little buf)
    (rd64 little (buf +> 1))
    (rd32 little (buf +> 9))
    (rd32 little (buf +> 13))
    (rd16 little (buf +> 17)).
Definition reply (p : pdu) : bool := true.
(** The wire format the decoder reads, for a client on any machine. *)
Definition encode (p : pdu) : bytes :=
  be_bytes 1 (op_flag p) ++ be_bytes 8 (cache_id p) ++ be_bytes 4 (group_id p) ++ be_bytes 4 (flags p) ++ be_bytes 2 (key_length p).
Definition wf (p : pdu) : Prop :=
  0 <= op_flag p < 2 ^ 8 /\ 0 <= cache_id p < 2 ^ 64 /\ 0 <= group_id p < 2 ^ 32 /\ 0 <= flags p < 2 ^ 32 /\ 0 <= key_length p < 2 ^ 16.
End Update_Flags_Req.

(** [XIXI_Update_Expiration_Req_Pdu], lines 254-276. *)
Module Update_Expiration_Req.
Record pdu := mk { op_flag : Z; cache_id : Z; group_id : Z; expiration : Z; key_length : Z }.
Definition get_fixed_body_size : Z := 19.
Definition decode_fixed (little : bool) (buf : bytes) : pdu :=
  mk (rd8 little buf)
    (rd64 little (buf +> 1))
    (rd32 little (buf +> 9))
    (rd32 little (buf +> 13))
    (rd16 little (buf +> 17)).
Definition reply (p : pdu) : bool := true.
(** The wire format the decoder reads, for a client on any machine. *)
Definition encode (p : pdu) : bytes :=
  be_bytes 1 (op_flag p) ++ be_bytes 8 (cache_id p) ++ be_bytes 4 (group_id p) ++ be_bytes 4 (expiration p) ++ be_bytes 2 (key_length p).
Definition wf (p : pdu) : Prop :=
  0 <= op_flag p < 2 ^ 8 /\ 0 <= cache_id p < 2 ^ 64 /\ 0 <= group_id p < 2 ^ 32 /\ 0 <= expiration p < 2 ^ 32 /\ 0 <= key_length p < 2 ^ 16.
End Update_Expiration_Req.

(** [XIXI_Delete_Req_Pdu], lines 294-318. *)
Module Delete_Req.
Record pdu := mk { op_flag : Z; cache_id : Z; group_id : Z; key_length : Z }.
Definition get_fixed_body_size : Z := 15.
Definition decode_fixed (little : bool) (buf : bytes) : pdu :=
  mk (rd8 little buf)
    (rd64 little (buf +> 1))
    (rd32 little (buf +> 9))
    (rd16 little (buf +> 13)).
Definition sub_op (p : pdu) : Z := Z.land (op_flag p) 1.
Definition reply (p : pdu) : bool := true.
(** The wire format the decoder reads, for a client on any machine. *)
Definition encode (p : pdu) : bytes :=
  be_bytes 1 (op_flag p) ++ be_bytes 8 (cache_id p) ++ be_bytes 4 (group_id p) ++ be_bytes 2 (key_length p).
Definition wf (p : pdu) : Prop :=
  0 <= op_flag p < 2 ^ 8 /\ 0 <= cache_id p < 2 ^ 64 /\ 0 <= group_id p < 2 ^ 32 /\ 0 <= key_length p < 2 ^ 16.
End Delete_Req.

(** [XIXI_Auth_Req_Pdu], lines 396-407. *)
Module Auth_Req.
Record pdu := mk { base64_length : Z }.
Definition get_fixed_body_size : Z := 4.
Definition decode_fixed (little : bool) (buf : bytes) : pdu :=
  mk (rd32 little buf).
(** The wire format the decoder reads, for a client on any machine. *)
Definition encode (p : pdu) : bytes :=
  be_bytes 4 (base64_length p).
Definition wf (p : pdu) : Prop :=
  0 <= base64_length p < 2 ^ 32.
End Auth_Req.

(** [XIXI_Delta_Req_Pdu], lines 324-350. *)
Module Delta_Req.
Record pdu := mk { op_flag : Z; cache_id : Z; group_id : Z; delta : Z; key_length : Z }.
Definition get_fixed_body_size : Z := 23.
Definition decode_fixed (little : bool) (buf : bytes) : pdu :=
  mk (rd8 little buf)
    (rd64 little (buf +> 1))
    (rd32 little (buf +> 9))
    (s64 (rd64 little (buf +> 13)))
    (rd16 little (buf +> 21)).
Definition sub_op (p : pdu) : Z := Z.land (op_flag p) 1.
Definition reply (p : pdu) : bool := true.
(** The wire format the decoder reads, for a client on any machine. *)
Definition encode (p : pdu) : bytes :=
  be_bytes 1 (op_flag p) ++ be_bytes 8 (cache_id p) ++ be_bytes 4 (group_id p) ++ be_bytes 8 (delta p) ++ be_bytes 2 (key_length p).
Definition wf (p : pdu) : Prop :=
  0 <= op_flag p < 2 ^ 8 /\ 0 <= cache_id p < 2 ^ 64 /\ 0 <= group_id p < 2 ^ 32 /\ - 2 ^ 63 <= delta p < 2 ^ 63 /\ 0 <= key_length p < 2 ^ 16.
End Delta_Req.

(** [XIXI_Flush_Req_Pdu], lines 367-377. *)
Module Flush_Req.
Record pdu := mk { group_id : Z }.
Definition get_fixed_body_size : Z := 4.
Definition decode_fixed (little : bool) (buf : bytes) : pdu :=
  mk (rd32 little buf).
(** The wire format the decoder reads, for a client on any machine. *)
Definition encode (p : pdu) : bytes :=
  be_bytes 4 (group_id p).
Definition wf (p : pdu) : Prop :=
  0 <= group_id p < 2 ^ 32.
End Flush_Req.

(** [XIXI_Stats_Req_Pdu], lines 430-446. *)
Module Stats_Req.
Record pdu := mk { op_flag : Z; class_id : Z; group_id : Z }.
Definition get_fixed_body_size : Z := 6.
Definition decode_fixed (little : bool) (buf : bytes) : pdu :=
  mk (rd8 little buf)
    (rd8 little (buf +> 1))
    (rd32 little (buf +> 2)).
Definition sub_op (p : pdu) : Z := Z.land (op_flag p) 7.
(** The wire format the decoder reads, for a client on any machine. *)
Definition encode (p : pdu) : bytes :=
  be_bytes 1 (op_flag p) ++ be_bytes 1 (class_id p) ++ be_bytes 4 (group_id p).
Definition wf (p : pdu) : Prop :=
  0 <= op_flag p < 2 ^ 8 /\ 0 <= class_id p < 2 ^ 8 /\ 0 <= group_id p < 2 ^ 32.
End Stats_Req.

(** [XIXI_Create_Watch_Req_Pdu], lines 462-474. *)
Module Create_Watch_Req.
Record pdu := mk { group_id : Z; max_next_check_interval : Z }.
Definition get_fixed_body_size : Z := 8.
Definition decode_fixed (little : bool) (buf : bytes) : pdu :=
  mk (rd32 little buf)
    (rd32 little (buf +> 4)).
(** The wire format the decoder reads, for a client on any machine. *)
Definition encode (p : pdu) : bytes :=
  be_bytes 4 (group_id p) ++ be_bytes 4 (max_next_check_interval p).
Definition wf (p : pdu) : Prop :=
  0 <= group_id p < 2 ^ 32 /\ 0 <= max_next_check_interval p < 2 ^ 32.
End Create_Watch_Req.

(** [XIXI_Check_Watch_Req_Pdu], lines 489-507. *)
Module Check_Watch_Req.
Record pdu := mk { group_id : Z; watch_id : Z; check_timeout : Z; max_next_check_interval : Z; ack_sequence : Z }.
Definition get_fixed_body_size : Z := 20.
Definition decode_fixed (little : bool) (buf : bytes) : pdu :=
  mk (rd32 little buf)
    (rd32 little (buf +> 4))
    (rd32 little (buf +> 8))
    (rd32 little (buf +> 12))
    (rd32 little (buf +> 16)).
(** The wire format the decoder reads, for a client on any machine. *)
Definition encode (p : pdu) : bytes :=
  be_bytes 4 (group_id p) ++ be_bytes 4 (watch_id p) ++ be_bytes 4 (check_timeout p) ++ be_bytes 4 (max_next_check_interval p) ++ be_bytes 4 (ack_sequence p).
Definition wf (p : pdu) : Prop :=
  0 <= group_id p < 2 ^ 32 /\ 0 <= watch_id p < 2 ^ 32 /\ 0 <= check_timeout p < 2 ^ 32 /\ 0 <= max_next_check_interval p < 2 ^ 32 /\ 0 <= ack_sequence p < 2 ^ 32.
End Check_Watch_Req.

(** ** Requests *)
Inductive request :=
  | GetReq (p : Get_Req.pdu)
  | GetTouchReq (p : Get_Touch_Req.pdu)
  | GetBaseReq (p : Get_Base_Req.pdu)
  | UpdateReq (p : Update_Req.pdu)
  | UpdateFlagsReq (p : Update_Flags_Req.pdu)
  | UpdateExpirationReq (p : Update_Expiration_Req.pdu)
  | DeleteReq (p : Delete_Req.pdu)
  | AuthReq (p : Auth_Req.pdu)
  | DeltaReq (p : Delta_Req.pdu)
  | FlushReq (p : Flush_Req.pdu)
  | StatsReq (p : Stats_Req.pdu)
  | HelloReq
  | CreateWatchReq (p : Create_Watch_Req.pdu)
  | CheckWatchReq (p : Check_Watch_Req.pdu).

(** [XIXI_Pdu::decode_pdu], [peer_pdu.cpp] lines 19-67: the structure the body
    is decoded into, [None] for [return false]. *)
Definition decode_pdu (little : bool) (choice : Z) (buf : bytes) : option request :=
  if choice =? XIXI_CHOICE_GET_REQ then Some (GetReq (Get_Req.decode_fixed little buf))
  else if choice =? XIXI_CHOICE_GET_TOUCH_REQ then Some (GetTouchReq (Get_Touch_Req.decode_fixed little buf))
  else if choice =? XIXI_CHOICE_GET_BASE_REQ then Some (GetBaseReq (Get_Base_Req.decode_fixed little buf))
  else if choice =? XIXI_CHOICE_UPDATE_REQ then Some (UpdateReq (Update_Req.decode_fixed little buf))
  else if choice =? XIXI_CHOICE_UPDATE_FLAGS_REQ then Some (UpdateFlagsReq (Update_Flags_Req.decode_fixed little buf))
  else if choice =? XIXI_CHOICE_UPDATE_EXPIRATION_REQ then
    Some (UpdateExpirationReq (Update_Expiration_Req.decode_fixed little buf))
  else if choice =? XIXI_CHOICE_DELETE_REQ then Some (DeleteReq (Delete_Req.decode_fixed little buf))
  else if choice =? XIXI_CHOICE_AUTH_REQ then Some (AuthReq (Auth_Req.decode_fixed little buf))
  else if choice =? XIXI_CHOICE_DELTA_REQ then Some (DeltaReq (Delta_Req.decode_fixed little buf))
  else if choice =? XIXI_CHOICE_FLUSH_REQ then Some (FlushReq (Flush_Req.decode_fixed little buf))
  else if choice =? XIXI_CHOICE_STATS_REQ then Some (StatsReq (Stats_Req.decode_fixed little buf))
  else if choice =? XIXI_CHOICE_HELLO_REQ then Some HelloReq
  else if choice =? XIXI_CHOICE_CREATE_WATCH_REQ then Some (CreateWatchReq (Create_Watch_Req.decode_fixed little buf))
  else if choice =? XIXI_CHOICE_CHECK_WATCH_REQ then Some (CheckWatchReq (Check_Watch_Req.decode_fixed little buf))
  else None.

(** The choice, the body and the body's fixed size of a request, as a client
    sends it. *)
Definition request_choice (r : request) : Z :=
  match r with
  | GetReq _ => XIXI_CHOICE_GET_REQ | GetTouchReq _ => XIXI_CHOICE_GET_TOUCH_REQ
  | GetBaseReq _ => XIXI_CHOICE_GET_BASE_REQ | UpdateReq _ => XIXI_CHOICE_UPDATE_REQ
  | UpdateFlagsReq _ => XIXI_CHOICE_UPDATE_FLAGS_REQ
  | UpdateExpirationReq _ => XIXI_CHOICE_UPDATE_EXPIRATION_REQ
  | DeleteReq _ => XIXI_CHOICE_DELETE_REQ | AuthReq _ => XIXI_CHOICE_AUTH_REQ
  | DeltaReq _ => XIXI_CHOICE_DELTA_REQ | FlushReq _ => XIXI_CHOICE_FLUSH_REQ
  | StatsReq _ => XIXI_CHOICE_STATS_REQ | HelloReq => XIXI_CHOICE_HELLO_REQ
  | CreateWatchReq _ => XIXI_CHOICE_CREATE_WATCH_REQ | CheckWatchReq _ => XIXI_CHOICE_CHECK_WATCH_REQ
  end.
Definition request_body (r : request) : bytes :=
  match r with
  | GetReq p => Get_Req.encode p | GetTouchReq p => Get_Touch_Req.encode p
  | GetBaseReq p => Get_Base_Req.encode p | UpdateReq p => Update_Req.encode p
  | UpdateFlagsReq p => Update_Flags_Req.encode p
  | UpdateExpirationReq p => Update_Expiration_Req.encode p
  | DeleteReq p => Delete_Req.encode p | AuthReq p => Auth_Req.encode p
  | DeltaReq p => Delta_Req.encode p | FlushReq p => Flush_Req.encode p
  | StatsReq p => Stats_Req.encode p | HelloReq => []
  | CreateWatchReq p => Create_Watch_Req.encode p | CheckWatchReq p => Check_Watch_Req.encode p
  end.
Definition request_fixed_size (r : request) : Z :=
  match r with
  | GetReq _ => Get_Req.get_fixed_body_size | GetTouchReq _ => Get_Touch_Req.get_fixed_body_size
  | GetBaseReq _ => Get_Base_Req.get_fixed_body_size | UpdateReq _ => Update_Req.get_fixed_body_size
  | UpdateFlagsReq _ => Update_Flags_Req.get_fixed_body_size
  | UpdateExpirationReq _ => Update_Expiration_Req.get_fixed_body_size
  | DeleteReq _ => Delete_Req.get_fixed_body_size | AuthReq _ => Auth_Req.get_fixed_body_size
  | DeltaReq _ => Delta_Req.get_fixed_body_size | FlushReq _ => Flush_Req.get_fixed_body_size
  | StatsReq _ => Stats_Req.get_fixed_body_size | HelloReq => 0
  | CreateWatchReq _ => Create_Watch_Req.get_fixed_body_size
  | CheckWatchReq _ => Check_Watch_Req.get_fixed_body_size
  end.
Definition request_wf (r : request) : Prop :=
  match r with
  | GetReq p => Get_Req.wf p | GetTouchReq p => Get_Touch_Req.wf p
  | GetBaseReq p => Get_Base_Req.wf p | UpdateReq p => Update_Req.wf p
  | UpdateFlagsReq p => Update_Flags_Req.wf p
  | UpdateExpirationReq p => Update_Expiration_Req.wf p
  | DeleteReq p => Delete_Req.wf p | AuthReq p => Auth_Req.wf p
  | DeltaReq p => Delta_Req.wf p | FlushReq p => Flush_Req.wf p
  | StatsReq p => Stats_Req.wf p | HelloReq => True
  | CreateWatchReq p => Create_Watch_Req.wf p | CheckWatchReq p => Check_Watch_Req.wf p
  end.

(** ** Responses

    The encoders write field after field into the buffer; the result is what
    they write.  Lines 99-132 of [peer_pdu.h] and the [_Res_Pdu] classes of
    [peer_cache_pdu.h]. *)
Section responses.
Context (little : bool).
Abbreviation E8 := ENCODE_UINT8.
Abbreviation E16 := (ENCODE_UINT16 little).
Abbreviation E32 := (ENCODE_UINT32 little).
Abbreviation E64 := (ENCODE_UINT64 little).

Definition Simple_Res_encode (choice : Z) : bytes := E16 choice.
Definition Simple_Res_With_ReqID_encode (request_id choice : Z) : bytes := E16 choice ++ E32 request_id.
Definition Error_Res_encode (reason : xixi_reason) : bytes :=
  E16 XIXI_CHOICE_ERROR ++ E16 (reason_code reason).
Definition Error_Res_With_ReqID_encode (request_id : Z) (reason : xixi_reason) : bytes :=
  E16 XIXI_CHOICE_ERROR ++ E32 request_id ++ E16 (reason_code reason).
Definition Get_Res_encode (cache_id flags expiration data_length : Z) : bytes :=
  E16 XIXI_CHOICE_GET_RES ++ E64 cache_id ++ E32 flags ++ E32 expiration ++ E32 data_length.
Definition Get_Base_Res_encode (cache_id flags expiration data_length : Z) : bytes :=
  E16 XIXI_CHOICE_GET_BASE_RES ++ E64 cache_id ++ E32 flags ++ E32 expiration ++ E32 data_length.
Definition Update_Res_encode (cache_id : Z) : bytes := E16 XIXI_CHOICE_UPDATE_RES ++ E64 cache_id.
Definition Update_Flags_Res_encode (cache_id : Z) : bytes :=
  E16 XIXI_CHOICE_UPDATE_FLAGS_RES ++ E64 cache_id.
Definition Update_Expiration_Res_encode (cache_id : Z) : bytes :=
  E16 XIXI_CHOICE_UPDATE_EXPIRATION_RES ++ E64 cache_id.
Definition Delta_Res_encode (value cache_id : Z) : bytes :=
  E16 XIXI_CHOICE_DELTA_RES ++ E64 cache_id ++ E64 value.
Definition Flush_Res_encode (flush_count flush_size : Z) : bytes :=
  E16 XIXI_CHOICE_FLUSH_RES ++ E32 flush_count ++ E64 flush_size.
Definition Auth_Res_encode (base64_length : Z) : bytes := E16 XIXI_CHOICE_AUTH_RES ++ E32 base64_length.
Definition Stats_Res_encode (result : bytes) (result_length : Z) : bytes :=
  E16 XIXI_CHOICE_STATS_RES ++ E32 result_length ++ take (Z.to_nat result_length) result.
Definition Create_Watch_Res_encode (watch_id : Z) : bytes :=
  E16 XIXI_CHOICE_CREATE_WATCH_RES ++ E32 watch_id.
Definition Check_Watch_Res_encode (sequence : Z) (updates : list (Z * Z)) : bytes :=
  let update_count := u32 (Z.of_nat (length updates)) in
  E16 XIXI_CHOICE_CHECK_WATCH_RES ++ E32 sequence ++ E32 update_count
  ++ concat (map (fun '(id, ty) => E64 id ++ E8 ty) updates).
End responses.

(** The buffer sizes the server reserves for them. *)
Definition XIXI_PDU_SIMPLE_RES_LENGTH : Z := XIXI_PDU_CHOICE_LENGTH.
Definition XIXI_PDU_SIMPLE_RES_WITH_REQID_LENGTH : Z := XIXI_PDU_CHOICE_LENGTH + 4.
Definition XIXI_PDU_ERROR_RES_LENGTH : Z := XIXI_PDU_CHOICE_LENGTH + 2.
Definition XIXI_PDU_ERROR_RES_WITH_REQID_LENGTH : Z := XIXI_PDU_CHOICE_LENGTH + 6.
Definition Get_Res_calc_encode_size : Z := XIXI_PDU_CHOICE_LENGTH + 20.
Definition Get_Base_Res_calc_encode_size : Z := XIXI_PDU_CHOICE_LENGTH + 20.
Definition Update_Res_calc_encode_size : Z := XIXI_PDU_CHOICE_LENGTH + 8.
Definition Update_Flags_Res_calc_encode_size : Z := XIXI_PDU_CHOICE_LENGTH + 8.
Definition Update_Expiration_Res_calc_encode_size : Z := XIXI_PDU_CHOICE_LENGTH + 8.
Definition Delta_Res_calc_encode_size : Z := XIXI_PDU_CHOICE_LENGTH + 16.
Definition Flush_Res_calc_encode_size : Z := XIXI_PDU_CHOICE_LENGTH + 4 + 8.
Definition Auth_Res_calc_encode_size : Z := XIXI_PDU_CHOICE_LENGTH + 4.
Definition Stats_Res_calc_encode_size (result_length : Z) : Z :=
  u32 (XIXI_PDU_CHOICE_LENGTH + 4 + result_length).
Definition Create_Watch_Res_get_body_size : Z := XIXI_PDU_CHOICE_LENGTH + 4.
Definition Check_Watch_Res_calc_encode_size (updated_count : Z) : Z :=
  u32 (XIXI_PDU_CHOICE_LENGTH + 8 + updated_count * (8 + 1)).

(** ** Reading back *)
Lemma be_bytes_length n x : length (be_bytes n x) = n.
Proof. apply be_bytes_word. Qed.

Section reading.
Context (little : bool).
Lemma take_be n x r : take n (be_bytes n x ++ r) = be_bytes n x.
Proof. rewrite take_app_le by (rewrite be_bytes_length; lia). apply take_ge. rewrite be_bytes_length. lia. Qed.
Lemma rd8_be x r : 0 <= x < 2 ^ 8 -> rd8 little (be_bytes 1 x ++ r) = x.
Proof.
  intros Hx. unfold rd8. rewrite take_be. unfold DECODE_UINT8, load, be_bytes.
  destruct little; cbn; rewrite Z.add_0_r; by apply Z.mod_small.
Qed.
Lemma rd16_be x r : 0 <= x < 2 ^ 16 -> rd16 little (be_bytes 2 x ++ r) = x.
Proof.
  intros Hx. unfold rd16. rewrite take_be, decode16_be by apply be_bytes_word.
  rewrite be_value_bytes. by apply wrap_small.
Qed.
Lemma rd32_be x r : 0 <= x < 2 ^ 32 -> rd32 little (be_bytes 4 x ++ r) = x.
Proof.
  intros Hx. unfold rd32. rewrite take_be, decode32_be by apply be_bytes_word.
  rewrite be_value_bytes. by apply wrap_small.
Qed.
Lemma rd64_be x r : rd64 little (be_bytes 8 x ++ r) = u64 x.
Proof.
  unfold rd64. rewrite take_be, decode64_be by apply be_bytes_word. apply be_value_bytes.
Qed.
Lemma rd64_be_small x r : 0 <= x < 2 ^ 64 -> rd64 little (be_bytes 8 x ++ r) = x.
Proof. intros. rewrite rd64_be. by apply wrap_small. Qed.
Lemma rd64_be_signed x r : - 2 ^ 63 <= x < 2 ^ 63 -> s64 (rd64 little (be_bytes 8 x ++ r)) = x.
Proof. intros. rewrite rd64_be, swrap_wrap. by apply swrap_small. Qed.
End reading.

(** Walk over the fields of a body: [drop]s of encoded fields, then reads. *)
Ltac read_fields :=
  rewrite <- ?app_assoc;
  repeat (rewrite ?drop_0; rewrite drop_app_ge by (rewrite be_bytes_length; lia); rewrite be_bytes_length; cbn [Nat.sub]);
  rewrite ?drop_0;
  rewrite ?rd8_be, ?rd16_be, ?rd32_be, ?rd64_be_small, ?rd64_be_signed by done.

#[local] Hint Unfold
  Get_Req.decode_fixed Get_Req.encode Get_Req.wf Get_Req.get_fixed_body_size
  Get_Touch_Req.decode_fixed Get_Touch_Req.encode Get_Touch_Req.wf Get_Touch_Req.get_fixed_body_size
  Get_Base_Req.decode_fixed Get_Base_Req.encode Get_Base_Req.wf Get_Base_Req.get_fixed_body_size
  Update_Req.decode_fixed Update_Req.encode Update_Req.wf Update_Req.get_fixed_body_size
  Update_Flags_Req.decode_fixed Update_Flags_Req.encode Update_Flags_Req.wf Update_Flags_Req.get_fixed_body_size
  Update_Expiration_Req.decode_fixed Update_Expiration_Req.encode Update_Expiration_Req.wf Update_Expiration_Req.get_fixed_body_size
  Delete_Req.decode_fixed Delete_Req.encode Delete_Req.wf Delete_Req.get_fixed_body_size
  Auth_Req.decode_fixed Auth_Req.encode Auth_Req.wf Auth_Req.get_fixed_body_size
  Delta_Req.decode_fixed Delta_Req.encode Delta_Req.wf Delta_Req.get_fixed_body_size
  Flush_Req.decode_fixed Flush_Req.encode Flush_Req.wf Flush_Req.get_fixed_body_size
  Stats_Req.decode_fixed Stats_Req.encode Stats_Req.wf Stats_Req.get_fixed_body_size
  Create_Watch_Req.decode_fixed Create_Watch_Req.encode Create_Watch_Req.wf Create_Watch_Req.get_fixed_body_size
  Check_Watch_Req.decode_fixed Check_Watch_Req.encode Check_Watch_Req.wf Check_Watch_Req.get_fixed_body_size : pdu.

Lemma decode_request little r rest :
  request_wf r -> decode_pdu little (request_choice r) (request_body r ++ rest) = Some r.
Proof.
  destruct r as [p|p|p|p|p|p|p|p|p|p|p| |p|p]; cbn [request_wf request_choice request_body]; intros Hp;
    unfold decode_pdu; cbn -[take drop app be_bytes rd8 rd16 rd32 rd64 swrap Z.pow]; try done;
    do 2 f_equal; destruct p; autounfold with pdu in *;
    repeat match goal with H : _ /\ _ |- _ => destruct H end; read_fields; done.
Qed.
Lemma request_body_length r : Z.of_nat (length (request_body r)) = request_fixed_size r.
Proof.
  destruct r as [p|p|p|p|p|p|p|p|p|p|p| |p|p]; cbn [request_body request_fixed_size];
    autounfold with pdu; rewrite ?length_app, ?be_bytes_length; done.
Qed.

(** Bytes read as a field and written back. *)
Lemma byte_word n (buf : bytes) : Forall is_byte buf -> (n <= length buf)%nat -> word n (take n buf).
Proof. intros Hb Hl. split; [rewrite length_take; lia|by apply Forall_take]. Qed.
Section writing.
Context (little : bool) (buf : bytes) (Hb : Forall is_byte buf).
Lemma be_rd8 : (1 <= length buf)%nat -> be_bytes 1 (rd8 little buf) = take 1 buf.
Proof.
  intros Hl. transitivity (be_bytes 1 (be_value (take 1 buf))); [|by apply be_bytes_value, byte_word].
  unfold rd8, DECODE_UINT8, load, be_value. destruct buf as [|b l]; [cbn in Hl; lia|]. by destruct little.
Qed.
Lemma be_rd16 : (2 <= length buf)%nat -> be_bytes 2 (rd16 little buf) = take 2 buf.
Proof.
  intros Hl. pose proof (byte_word 2 buf Hb Hl). unfold rd16.
  rewrite decode16_be by done. by apply be_bytes_value.
Qed.
Lemma be_rd32 : (4 <= length buf)%nat -> be_bytes 4 (rd32 little buf) = take 4 buf.
Proof.
  intros Hl. pose proof (byte_word 4 buf Hb Hl). unfold rd32.
  rewrite decode32_be by done. by apply be_bytes_value.
Qed.
Lemma be_rd64 : (8 <= length buf)%nat -> be_bytes 8 (rd64 little buf) = take 8 buf.
Proof.
  intros Hl. pose proof (byte_word 8 buf Hb Hl). unfold rd64.
  rewrite decode64_be by done. by apply be_bytes_value.
Qed.
End writing.

Lemma store_le_swrap n x : store_le n (swrap (8 * Z.of_nat n) x) = store_le n (wrap (8 * Z.of_nat n) x).
Proof.
  destruct (store_le_bytes n (swrap (8 * Z.of_nat n) x)) as [Hl Hb].
  destruct (store_le_bytes n (wrap (8 * Z.of_nat n) x)) as [Hl' Hb'].
  rewrite <- (store_load_le _ Hb), <- (store_load_le _ Hb'), Hl, Hl', !load_store_le.
  by rewrite wrap_swrap, wrap_wrap.
Qed.
Lemma be_rd64_signed little buf :
  Forall is_byte buf -> (8 <= length buf)%nat -> be_bytes 8 (s64 (rd64 little buf)) = take 8 buf.
Proof.
  intros Hb Hl. rewrite <- (be_rd64 little buf) by done. unfold be_bytes.
  rewrite (store_le_swrap 8). f_equal.
  destruct (store_le_bytes 8 (wrap (8 * Z.of_nat 8) (rd64 little buf))) as [Hl1 Hb1].
  destruct (store_le_bytes 8 (rd64 little buf)) as [Hl2 Hb2].
  rewrite <- (store_load_le _ Hb1), <- (store_load_le _ Hb2), Hl1, Hl2, !load_store_le.
  by rewrite wrap_wrap.
Qed.

Ltac write_fields :=
  rewrite ?be_rd8, ?be_rd16, ?be_rd32, ?be_rd64, ?be_rd64_signed
    by (first [apply Forall_drop; done | done | rewrite ?length_drop; lia]).

(** Any body of the fixed size is the body of the request it decodes to. *)
Lemma encode_decoded little choice buf r :
  Forall is_byte buf -> decode_pdu little choice buf = Some r ->
  Z.of_nat (length buf) = request_fixed_size r ->
  request_choice r = choice /\ request_body r = buf.
Proof.
  intros Hb Hd Hl. unfold decode_pdu in Hd.
  repeat match type of Hd with
    | (if ?c =? ?d then _ else _) = _ => destruct (Z.eqb_spec c d) as [->|_]
    end; try done; injection Hd as <-; (split; [done|]);
    cbn [request_fixed_size request_body] in *; autounfold with pdu in *;
    cbn -[take drop app be_bytes rd8 rd16 rd32 rd64 swrap Z.pow Z.of_nat] in *;
    write_fields; try (symmetry; apply nil_length_inv; lia);
    rewrite ?app_assoc; repeat (rewrite take_take_drop; cbn [Nat.add]); apply take_ge; lia.
Qed.

(** Fields are in their ranges, whatever the bytes. *)
Section ranges.
Context (little : bool) (buf : bytes) (Hb : Forall is_byte buf).
Lemma be_value_range n : (n <= length buf)%nat -> 0 <= be_value (take n buf) < 2 ^ (8 * Z.of_nat n).
Proof.
  intros Hl. pose proof (byte_word n buf Hb Hl) as Hw.
  rewrite <- (be_bytes_value n (take n buf)), be_value_bytes by done. apply wrap_range. lia.
Qed.
Lemma rd8_range : (1 <= length buf)%nat -> 0 <= rd8 little buf < 2 ^ 8.
Proof.
  intros Hl. assert (rd8 little buf = be_value (take 1 buf)) as ->; [|by apply (be_value_range 1)].
  unfold rd8, DECODE_UINT8, load, be_value. destruct buf as [|b l]; [cbn in Hl; lia|]. by destruct little.
Qed.
Lemma rd16_range : (2 <= length buf)%nat -> 0 <= rd16 little buf < 2 ^ 16.
Proof. intros Hl. unfold rd16. rewrite decode16_be by (by apply byte_word). by apply (be_value_range 2). Qed.
Lemma rd32_range : (4 <= length buf)%nat -> 0 <= rd32 little buf < 2 ^ 32.
Proof. intros Hl. unfold rd32. rewrite decode32_be by (by apply byte_word). by apply (be_value_range 4). Qed.
Lemma rd64_range : (8 <= length buf)%nat -> 0 <= rd64 little buf < 2 ^ 64.
Proof. intros Hl. unfold rd64. rewrite decode64_be by (by apply byte_word). by apply (be_value_range 8). Qed.
End ranges.

Lemma decode_wf little choice buf r :
  Forall is_byte buf -> decode_pdu little choice buf = Some r -> request_fixed_size r <= Z.of_nat (length buf) ->
  request_wf r /\ request_choice r = choice.
Proof.
  intros Hb Hd Hl. unfold decode_pdu in Hd.
  repeat match type of Hd with
    | (if ?c =? ?d then _ else _) = _ => destruct (Z.eqb_spec c d) as [->|_]
    end; try done; injection Hd as <-; (split; [|done]);
    cbn [request_fixed_size request_wf] in *; autounfold with pdu in *;
    cbn -[take drop app be_bytes rd8 rd16 rd32 rd64 swrap Z.pow Z.of_nat] in *; try done; split_and?;
    lazymatch goal with
    | |- context [swrap] => apply (swrap_range 64); done
    | |- context [rd8] => apply rd8_range
    | |- context [rd16] => apply rd16_range
    | |- context [rd32] => apply rd32_range
    | |- context [rd64] => apply rd64_range
    end; first [apply Forall_drop; done | done | rewrite ?length_drop; lia].
Qed.

(** C20. The binary protocol is unambiguous: every well-formed request, as a
    client on any machine writes it, is decoded by the server to exactly that
    request, whatever follows it, and its body has the fixed size the server
    waits for; and every body of that size is the body of the request it is
    decoded to. *)
Theorem decode_pdu_roundtrip little r rest choice buf r' :
  request_wf r ->
  Forall is_byte buf -> decode_pdu little choice buf = Some r' ->
  Z.of_nat (length buf) = request_fixed_size r' ->
  Header.decode little (be_bytes 2 (request_choice r) ++ rest) = request_choice r
  /\ decode_pdu little (request_choice r) (request_body r ++ rest) = Some r
  /\ Z.of_nat (length (request_body r)) = request_fixed_size r /\ request_fixed_size r <= 64
  /\ request_choice r' = choice /\ request_body r' = buf.
Proof.
  intros Hr Hb Hd Hl. split_and!.
  - unfold Header.decode. apply rd16_be. by destruct r.
  - by apply decode_request.
  - apply request_body_length.
  - by destruct r.
  - by apply (encode_decoded little choice buf).
  - by apply (encode_decoded little choice buf).
Qed.

Lemma decode_pdu_roundtrip_witness :
  decode_pdu true XIXI_CHOICE_GET_REQ (request_body (GetReq (Get_Req.mk 7 0x01020304 5)) ++ [104; 105])
  = Some (GetReq (Get_Req.mk 7 0x01020304 5)).
Proof.
  apply (decode_pdu_roundtrip true (GetReq (Get_Req.mk 7 0x01020304 5)) [104; 105]
    XIXI_CHOICE_FLUSH_REQ [0; 0; 0; 9] (FlushReq (Flush_Req.mk 9))); try done.
  repeat (constructor; [by unfold is_byte|]); constructor.
Defined.

(** A request with an unknown choice is refused, and only such a one:
    [decode_pdu] knows the choices of the fourteen requests. *)
Theorem decode_pdu_choices little choice buf :
  decode_pdu little choice buf = None <->
  choice ∉ [XIXI_CHOICE_GET_REQ; XIXI_CHOICE_GET_TOUCH_REQ; XIXI_CHOICE_GET_BASE_REQ;
            XIXI_CHOICE_UPDATE_REQ; XIXI_CHOICE_UPDATE_FLAGS_REQ; XIXI_CHOICE_UPDATE_EXPIRATION_REQ;
            XIXI_CHOICE_DELETE_REQ; XIXI_CHOICE_AUTH_REQ; XIXI_CHOICE_DELTA_REQ; XIXI_CHOICE_FLUSH_REQ;
            XIXI_CHOICE_STATS_REQ; XIXI_CHOICE_HELLO_REQ; XIXI_CHOICE_CREATE_WATCH_REQ;
            XIXI_CHOICE_CHECK_WATCH_REQ].
Proof.
  unfold decode_pdu. rewrite !not_elem_of_cons.
  repeat match goal with
    | |- context [if ?c =? ?d then _ else _] => destruct (Z.eqb_spec c d); [naive_solver|]
    end.
  split; [intros _; split_and!; try done; apply not_elem_of_nil|done].
Qed.

(** C31. Every response fits its buffer: each encoder writes exactly the number
    of bytes that [calc_encode_size] reserves (for a check-watch response as
    long as the count times nine fits 32 bits), the same bytes on every
    machine. *)
Theorem response_sizes little cache_id flags expiration data_length value count size group watch
    sequence reason choice result updates :
  Z.of_nat (length result) < 2 ^ 32 - 6 -> 9 * Z.of_nat (length updates) < 2 ^ 32 - 10 ->
  let len (b : bytes) := Z.of_nat (length b) in
  let n := Z.of_nat (length updates) in
  len (Simple_Res_encode little choice) = XIXI_PDU_SIMPLE_RES_LENGTH
  /\ len (Simple_Res_With_ReqID_encode little group choice) = XIXI_PDU_SIMPLE_RES_WITH_REQID_LENGTH
  /\ len (Error_Res_encode little reason) = XIXI_PDU_ERROR_RES_LENGTH
  /\ len (Error_Res_With_ReqID_encode little group reason) = XIXI_PDU_ERROR_RES_WITH_REQID_LENGTH
  /\ len (Get_Res_encode little cache_id flags expiration data_length) = Get_Res_calc_encode_size
  /\ len (Get_Base_Res_encode little cache_id flags expiration data_length) = Get_Base_Res_calc_encode_size
  /\ len (Update_Res_encode little cache_id) = Update_Res_calc_encode_size
  /\ len (Update_Flags_Res_encode little cache_id) = Update_Flags_Res_calc_encode_size
  /\ len (Update_Expiration_Res_encode little cache_id) = Update_Expiration_Res_calc_encode_size
  /\ len (Delta_Res_encode little value cache_id) = Delta_Res_calc_encode_size
  /\ len (Flush_Res_encode little count size) = Flush_Res_calc_encode_size
  /\ len (Auth_Res_encode little data_length) = Auth_Res_calc_encode_size
  /\ len (Stats_Res_encode little result (len result)) = Stats_Res_calc_encode_size (len result)
  /\ len (Create_Watch_Res_encode little watch) = Create_Watch_Res_get_body_size
  /\ len (Check_Watch_Res_encode little sequence updates) = Check_Watch_Res_calc_encode_size n
  /\ Get_Res_encode little cache_id flags expiration data_length
     = be_bytes 2 XIXI_CHOICE_GET_RES ++ be_bytes 8 cache_id ++ be_bytes 4 flags ++ be_bytes 4 expiration
       ++ be_bytes 4 data_length
  /\ Check_Watch_Res_encode little sequence updates
     = be_bytes 2 XIXI_CHOICE_CHECK_WATCH_RES ++ be_bytes 4 sequence ++ be_bytes 4 n
       ++ concat (map (fun u => be_bytes 8 u.1 ++ [u8 u.2]) updates).
Proof.
  intros Hres Hup len n.
  assert (length (concat (map (fun u : Z * Z => be_bytes 8 u.1 ++ [u8 u.2]) updates)) = 9 * length updates)%nat as Hc.
  { clear. induction updates as [|u us IH]; [done|]. cbn [map concat length].
    rewrite !length_app, IH, be_bytes_length. cbn. lia. }
  assert (Check_Watch_Res_encode little sequence updates
     = be_bytes 2 XIXI_CHOICE_CHECK_WATCH_RES ++ be_bytes 4 sequence ++ be_bytes 4 n
       ++ concat (map (fun u => be_bytes 8 u.1 ++ [u8 u.2]) updates)) as Hcw.
  { unfold Check_Watch_Res_encode. rewrite !encode16_be, !encode32_be, wrap_small by lia. unfold n.
    do 4 f_equal. apply map_ext. intros [id ty]. by rewrite encode64_be. }
  rewrite Hcw. unfold len, n. rewrite !length_app, !be_bytes_length, Hc.
  unfold Stats_Res_calc_encode_size, Check_Watch_Res_calc_encode_size, XIXI_PDU_CHOICE_LENGTH.
  rewrite !wrap_small by lia.
  unfold Simple_Res_encode, Simple_Res_With_ReqID_encode, Error_Res_encode, Error_Res_With_ReqID_encode,
    Get_Res_encode, Get_Base_Res_encode, Update_Res_encode, Update_Flags_Res_encode,
    Update_Expiration_Res_encode, Delta_Res_encode, Flush_Res_encode, Auth_Res_encode, Stats_Res_encode,
    Create_Watch_Res_encode.
  rewrite !encode16_be, !encode32_be, !encode64_be, !length_app, !be_bytes_length, length_take.
  split_and!; try done; lia.
Qed.

Lemma response_sizes_witness :
  Z.of_nat (length (Check_Watch_Res_encode true 3 [(5, 1); (6, 3)])) = 28.
Proof.
  rewrite (proj1 (proj2 (proj2 (proj2 (proj2 (proj2 (proj2 (proj2 (proj2 (proj2 (proj2 (proj2 (proj2 (proj2 (proj2
    (response_sizes true 0 0 0 0 0 0 0 0 0 3 XIXI_REASON_SUCCESS 0 [] [(5, 1); (6, 3)]
       ltac:(done) ltac:(done))))))))))))))))). done.
Defined.
