(* ===== verification/Stats.v ===== *)
(** * Statistics, [src/src/stats.h] and [src/src/stats.cpp]

    Every event of the server bumps counters of the total, [group_sum_], and of
    the item of its group, if that group is being counted.  A counter is named
    here by a constructor; [Class i k] is the member [k] of [cache_stats_[i]] and
    [Group k] a member of [Group_Stats_Item] itself. *)

From S2P Require Import Prelude Lookup3 Util.

(** The members of [Cache_Stats_Item], lines 176-221. *)
Inductive cache_counter :=
  | c_get_hit_no_watch | c_get_hit_watch | c_get_hit_watch_miss | c_get_touch_hit_no_watch
  | c_get_touch_hit_watch | c_get_touch_hit_watch_miss | c_get_base_hit | c_get_base_miss
  | c_update_flags_success | c_update_flags_mismatch | c_update_expiration_success
  | c_update_expiration_mismatch | c_add_success | c_add_success_watch | c_add_watch_miss
  | c_add_fail | c_set_success | c_set_success_watch | c_set_watch_miss | c_set_mismatch
  | c_replace_success | c_replace_success_watch | c_replace_watch_miss | c_replace_mismatch
  | c_append_success | c_append_success_watch | c_append_watch_miss | c_append_mismatch
  | c_append_out_of_memory | c_prepend_success | c_prepend_success_watch | c_prepend_watch_miss
  | c_prepend_mismatch | c_prepend_out_of_memory | c_delete_success | c_delete_mismatch.
#[export] Instance cache_counter_eq : EqDecision cache_counter.
Proof. solve_decision. Defined.

(** The counters of [Group_Stats_Item], lines 312-340. *)
Inductive group_counter :=
  | g_get_miss | g_get_touch_miss | g_get_base_miss | g_update_flags_miss
  | g_update_expiration_miss | g_replace_miss | g_append_miss | g_prepend_miss | g_delete_miss
  | g_incr_success | g_incr_mismatch | g_incr_miss | g_decr_success | g_decr_mismatch
  | g_decr_miss | g_create_watch | g_check_watch | g_check_watch_miss | g_bytes_read
  | g_bytes_write | g_link_items | g_unlink_items | g_link_bytes | g_unlink_bytes | g_flush.
#[export] Instance group_counter_eq : EqDecision group_counter.
Proof. solve_decision. Defined.

(** Every counter has 64 bits, except [flush_]. *)
Definition counter_width (k : group_counter) : Z :=
  match k with g_flush => 32 | _ => 64 end.

Abbreviation Cache_Stats_Item := (cache_counter -> Z).
Record Group_Stats_Item := mkitem {
  counters : group_counter -> Z;
  cache_stats_ : list Cache_Stats_Item
}.

(** [clear], lines 75-122 and 230-264: every member of both classes. *)
Definition Cache_Stats_Item_clear : Cache_Stats_Item := fun _ => 0.
Definition Group_Stats_Item_clear : Group_Stats_Item :=
  mkitem (fun _ => 0) (replicate 200 Cache_Stats_Item_clear).

(** The members of [Stats], lines 922-931. *)
Record stats := mkstats {
  max_class_id_ : Z;
  curr_conns_ : Z;
  total_conns_ : Z;
  group_sum_ : Group_Stats_Item;
  group_map_ : gmap Z Group_Stats_Item
}.

(** ** Counting *)

(** [cache_stats_[class_id].k++] and [k += v]. *)
Inductive step := Class (class_id : Z) (k : cache_counter) | Group (k : group_counter) (v : Z).

(** There are 200 classes; an index past them has no defined behaviour. *)
Definition count (st : step) (it : Group_Stats_Item) : option Group_Stats_Item :=
  match st with
  | Class i k =>
      match cache_stats_ it !! Z.to_nat i with
      | Some c => Some (it <| cache_stats_ ::=
          <[Z.to_nat i := fun k' => if decide (k' = k) then u64 (c k' + 1) else c k']> |>)
      | None => None
      end
  | Group k v =>
      Some (it <| counters ::= fun c k' =>
        if decide (k' = k) then wrap (counter_width k) (c k' + v) else c k' |>)
  end.
Fixpoint count_all (sts : list step) (it : Group_Stats_Item) : option Group_Stats_Item :=
  match sts with
  | [] => Some it
  | st :: sts => match count st it with Some it => count_all sts it | None => None end
  end.

(** [get_group_item], lines 365-371. *)
Definition get_group_item (group_id : Z) (s : stats) : option Group_Stats_Item := group_map_ s !! group_id.

(** The shape of every event: the total, then the item of the group. *)
Definition both (group_id : Z) (total own : list step) : ST stats unit :=
  sum ← gets group_sum_;
  sum ← the (count_all total sum);
  modify (fun s => s <| group_sum_ := sum |>);;
  item ← gets (get_group_item group_id);
  match item with
  | Some it =>
      it ← the (count_all own it);
      modify (fun s => s <| group_map_ ::= <[group_id := it]> |>)
  | None => mret tt
  end.

(** ** The events, lines 373-885 *)
Module Stats.
(** The constructor, [stats.cpp] lines 62-66. *)
Definition init : stats := mkstats 200 0 0 Group_Stats_Item_clear ∅.

Definition get_hit_no_watch (group_id class_id bytes : Z) : ST stats unit :=
  both group_id [Class class_id c_get_hit_no_watch; Group g_bytes_read bytes]
    [Class class_id c_get_hit_no_watch; Group g_bytes_read bytes].
Definition get_hit_watch (group_id class_id bytes : Z) : ST stats unit :=
  both group_id [Class class_id c_get_hit_watch; Group g_bytes_read bytes]
    [Class class_id c_get_hit_watch; Group g_bytes_read bytes].
Definition get_hit_watch_miss (group_id class_id : Z) : ST stats unit :=
  both group_id [Class class_id c_get_hit_watch_miss] [Class class_id c_get_hit_watch_miss].
Definition get_miss (group_id : Z) : ST stats unit :=
  both group_id [Group g_get_miss 1] [Group g_get_miss 1].
Definition get_touch_hit_no_watch (group_id class_id bytes : Z) : ST stats unit :=
  both group_id [Class class_id c_get_touch_hit_no_watch; Group g_bytes_read bytes]
    [Class class_id c_get_touch_hit_no_watch; Group g_bytes_read bytes].
Definition get_touch_hit_watch (group_id class_id bytes : Z) : ST stats unit :=
  both group_id [Class class_id c_get_touch_hit_watch; Group g_bytes_read bytes]
    [Class class_id c_get_touch_hit_watch; Group g_bytes_read bytes].
Definition get_touch_hit_watch_miss (group_id class_id : Z) : ST stats unit :=
  both group_id [Class class_id c_get_touch_hit_watch_miss]
    [Class class_id c_get_touch_hit_watch_miss].
Definition get_touch_miss (group_id : Z) : ST stats unit :=
  both group_id [Group g_get_touch_miss 1] [Group g_get_touch_miss 1].
Definition get_base_hit (group_id class_id : Z) : ST stats unit :=
  both group_id [Class class_id c_get_base_hit] [Class class_id c_get_base_hit].
Definition get_base_miss (group_id : Z) : ST stats unit :=
  both group_id [Group g_get_base_miss 1] [Group g_get_base_miss 1].
Definition update_flags_success (group_id class_id : Z) : ST stats unit :=
  both group_id [Class class_id c_update_flags_success] [Class class_id c_update_flags_success].
Definition update_flags_mismatch (group_id class_id : Z) : ST stats unit :=
  both group_id [Class class_id c_update_flags_mismatch] [Class class_id c_update_flags_mismatch].
Definition update_flags_miss (group_id : Z) : ST stats unit :=
  both group_id [Group g_update_flags_miss 1] [Group g_update_flags_miss 1].
Definition update_expiration_success (group_id class_id : Z) : ST stats unit :=
  both group_id [Class class_id c_update_expiration_success]
    [Class class_id c_update_expiration_success].
Definition update_expiration_mismatch (group_id class_id : Z) : ST stats unit :=
  both group_id [Class class_id c_update_expiration_mismatch]
    [Class class_id c_update_expiration_mismatch].
Definition update_expiration_miss (group_id : Z) : ST stats unit :=
  both group_id [Group g_update_expiration_miss 1] [Group g_update_expiration_miss 1].
Definition add_success (group_id class_id bytes : Z) : ST stats unit :=
  both group_id [Class class_id c_add_success; Group g_bytes_write bytes]
    [Class class_id c_add_success; Group g_bytes_write bytes].
Definition add_success_watch (group_id class_id bytes : Z) : ST stats unit :=
  both group_id [Class class_id c_add_success; Group g_bytes_write bytes]
    [Class class_id c_add_success_watch; Group g_bytes_write bytes].
Definition add_watch_miss (group_id class_id : Z) : ST stats unit :=
  both group_id [Class class_id c_add_success] [Class class_id c_add_watch_miss].
Definition add_fail (group_id class_id : Z) : ST stats unit :=
  both group_id [Class class_id c_add_fail] [Class class_id c_add_fail].
Definition set_success (group_id class_id bytes : Z) : ST stats unit :=
  both group_id [Class class_id c_set_success; Group g_bytes_write bytes]
    [Class class_id c_set_success; Group g_bytes_write bytes].
Definition set_success_watch (group_id class_id bytes : Z) : ST stats unit :=
  both group_id [Class class_id c_set_success; Group g_bytes_write bytes]
    [Class class_id c_set_success_watch; Group g_bytes_write bytes].
Definition set_watch_miss (group_id class_id : Z) : ST stats unit :=
  both group_id [Class class_id c_set_success] [Class class_id c_set_watch_miss].
Definition set_mismatch (group_id class_id : Z) : ST stats unit :=
  both group_id [Class class_id c_set_mismatch] [Class class_id c_set_mismatch].
Definition replace_success (group_id class_id bytes : Z) : ST stats unit :=
  both group_id [Class class_id c_replace_success; Group g_bytes_write bytes]
    [Class class_id c_replace_success; Group g_bytes_write bytes].
Definition replace_success_watch (group_id class_id bytes : Z) : ST stats unit :=
  both group_id [Class class_id c_replace_success; Group g_bytes_write bytes]
    [Class class_id c_replace_success_watch; Group g_bytes_write bytes].
Definition replace_watch_miss (group_id class_id : Z) : ST stats unit :=
  both group_id [Class class_id c_replace_success] [Class class_id c_replace_watch_miss].
Definition replace_mismatch (group_id class_id : Z) : ST stats unit :=
  both group_id [Class class_id c_replace_mismatch] [Class class_id c_replace_mismatch].
Definition replace_miss (group_id : Z) : ST stats unit :=
  both group_id [Group g_replace_miss 1] [Group g_replace_miss 1].
Definition append_success (group_id class_id bytes : Z) : ST stats unit :=
  both group_id [Class class_id c_append_success; Group g_bytes_write bytes]
    [Class class_id c_append_success; Group g_bytes_write bytes].
Definition append_success_watch (group_id class_id bytes : Z) : ST stats unit :=
  both group_id [Class class_id c_append_success; Group g_bytes_write bytes]
    [Class class_id c_append_success_watch; Group g_bytes_write bytes].
Definition append_watch_miss (group_id class_id : Z) : ST stats unit :=
  both group_id [Class class_id c_append_success] [Class class_id c_append_watch_miss].
Definition append_mismatch (group_id class_id : Z) : ST stats unit :=
  both group_id [Class class_id c_append_mismatch] [Class class_id c_append_mismatch].
Definition append_out_of_memory (group_id class_id : Z) : ST stats unit :=
  both group_id [Class class_id c_append_out_of_memory] [Class class_id c_append_out_of_memory].
Definition append_miss (group_id : Z) : ST stats unit :=
  both group_id [Group g_append_miss 1] [Group g_append_miss 1].
Definition prepend_success (group_id class_id bytes : Z) : ST stats unit :=
  both group_id [Class class_id c_prepend_success; Group g_bytes_write bytes]
    [Class class_id c_prepend_success; Group g_bytes_write bytes].
Definition prepend_success_watch (group_id class_id bytes : Z) : ST stats unit :=
  both group_id [Class class_id c_prepend_success; Group g_bytes_write bytes]
    [Class class_id c_prepend_success_watch; Group g_bytes_write bytes].
Definition prepend_watch_miss (group_id class_id : Z) : ST stats unit :=
  both group_id [Class class_id c_prepend_success] [Class class_id c_prepend_watch_miss].
Definition prepend_mismatch (group_id class_id : Z) : ST stats unit :=
  both group_id [Class class_id c_prepend_mismatch] [Class class_id c_prepend_mismatch].
Definition prepend_out_of_memory (group_id class_id : Z) : ST stats unit :=
  both group_id [Class class_id c_prepend_out_of_memory] [Class class_id c_prepend_out_of_memory].
Definition prepend_miss (group_id : Z) : ST stats unit :=
  both group_id [Group g_prepend_miss 1] [Group g_prepend_miss 1].
Definition delete_success (group_id class_id : Z) : ST stats unit :=
  both group_id [Class class_id c_delete_success] [Class class_id c_delete_success].
Definition delete_mismatch (group_id class_id : Z) : ST stats unit :=
  both group_id [Class class_id c_delete_mismatch] [Class class_id c_delete_mismatch].
Definition delete_miss (group_id : Z) : ST stats unit :=
  both group_id [Group g_delete_miss 1] [Group g_delete_miss 1].
Definition incr_success (group_id : Z) : ST stats unit :=
  both group_id [Group g_incr_success 1] [Group g_incr_success 1].
Definition incr_mismatch (group_id : Z) : ST stats unit :=
  both group_id [Group g_incr_mismatch 1] [Group g_incr_mismatch 1].
Definition incr_miss (group_id : Z) : ST stats unit :=
  both group_id [Group g_incr_miss 1] [Group g_incr_miss 1].
Definition decr_success (group_id : Z) : ST stats unit :=
  both group_id [Group g_decr_success 1] [Group g_decr_success 1].
Definition decr_mismatch (group_id : Z) : ST stats unit :=
  both group_id [Group g_decr_mismatch 1] [Group g_decr_mismatch 1].
Definition decr_miss (group_id : Z) : ST stats unit :=
  both group_id [Group g_decr_miss 1] [Group g_decr_miss 1].
Definition create_watch (group_id : Z) : ST stats unit :=
  both group_id [Group g_create_watch 1] [Group g_create_watch 1].
Definition check_watch (group_id : Z) : ST stats unit :=
  both group_id [Group g_check_watch 1] [Group g_check_watch 1].
Definition check_watch_miss (group_id : Z) : ST stats unit :=
  both group_id [Group g_check_watch_miss 1] [Group g_check_watch_miss 1].
Definition flush (group_id : Z) : ST stats unit :=
  both group_id [Group g_flush 1] [Group g_flush 1].
Definition item_link (group_id class_id size : Z) : ST stats unit :=
  both group_id [Group g_link_items 1; Group g_link_bytes size]
    [Group g_link_items 1; Group g_link_bytes size].
Definition item_unlink (group_id class_id size : Z) : ST stats unit :=
  both group_id [Group g_unlink_items 1; Group g_unlink_bytes size]
    [Group g_unlink_items 1; Group g_link_bytes size].

(** Connections and classes, lines 887-902. *)
Definition new_conn : ST stats unit :=
  modify (fun s => s <| curr_conns_ ::= fun n => u32 (n + 1) |> <| total_conns_ ::= fun n => u64 (n + 1) |>).
Definition close_conn : ST stats unit :=
  modify (fun s => s <| curr_conns_ ::= fun n => u32 (n - 1) |>).
Definition set_max_class_id (max_class_id : Z) : ST stats unit :=
  modify (fun s => s <| max_class_id_ := max_class_id |>).

(** [stats.cpp] lines 101-120; [map::insert] keeps an item that is there. *)
Definition add_group (max_stats_group : Z) (group_id : Z) : ST stats bool :=
  m ← gets group_map_;
  if Z.of_nat (size m) <? max_stats_group then
    modify (fun s => s <| group_map_ := <[group_id := default Group_Stats_Item_clear (m !! group_id)]> m |>);;
    mret true
  else mret false.
Definition remove_group (group_id : Z) : ST stats bool :=
  item ← gets (get_group_item group_id);
  match item with
  | Some _ => modify (fun s => s <| group_map_ ::= base.delete group_id |>);; mret true
  | None => mret false
  end.

(** [Cache_Stats_Item::merge], lines 29-73: the counters it adds. *)
Definition merged (k : cache_counter) : bool :=
  match k with
  | c_update_expiration_success | c_update_expiration_mismatch => false
  | _ => true
  end.
Definition merge (it cs : Cache_Stats_Item) : Cache_Stats_Item :=
  fun k => if merged k then u64 (cs k + it k) else cs k.

(** [merage], [stats.cpp] lines 77-81. *)
Definition merage (s : stats) (cs : Cache_Stats_Item) : Cache_Stats_Item :=
  foldl (fun cs it => merge it cs) cs
    (take (Z.to_nat (max_class_id_ s) - 1) (drop 1 (cache_stats_ (group_sum_ s)))).

(** ** Printing *)

(** The bytes of a literal. *)
Fixpoint literal (s : string) : bytes :=
  match s with
  | EmptyString => []
  | String c s => Z.of_N (Ascii.N_of_ascii c) :: literal s
  end.

(** [append], [stats.cpp] lines 26-60. *)
Definition append_class (class_id : Z) (k : string) (v : Z) (out : bytes) : bytes :=
  if v =? 0 then out
  else out ++ literal k ++ Parse.decimal class_id ++ [61] ++ Parse.decimal v ++ [10].
Definition append (k : string) (v : Z) (out : bytes) : bytes :=
  if v =? 0 then out else out ++ literal k ++ [61] ++ Parse.decimal v ++ [10].
Definition append_string (k v : string) (out : bytes) : bytes :=
  out ++ literal k ++ [61] ++ literal v ++ [10].

(** The names and the order of the lines, lines 127-174. *)
Definition cache_lines : list (string * cache_counter) :=
  [("get_hit_no_watch"%string, c_get_hit_no_watch);
   ("get_hit_watch"%string, c_get_hit_watch);
   ("get_hit_watch_miss"%string, c_get_hit_watch_miss);
   ("get_touch_hit_no_watch"%string, c_get_touch_hit_no_watch);
   ("get_touch_hit_watch"%string, c_get_touch_hit_watch);
   ("get_touch_hit_watch_miss"%string, c_get_touch_hit_watch_miss);
   ("get_base_hit"%string, c_get_base_hit); ("get_base_miss"%string, c_get_base_miss);
   ("update_flags_success"%string, c_update_flags_success);
   ("update_flags_mismatch"%string, c_update_flags_mismatch);
   ("update_expiration_success"%string, c_update_expiration_success);
   ("update_expiration_mismatch"%string, c_update_expiration_mismatch);
   ("add_success"%string, c_add_success); ("add_success_watch"%string, c_add_success_watch);
   ("add_watch_miss"%string, c_add_watch_miss); ("add_fail"%string, c_add_fail);
   ("set_success"%string, c_set_success); ("set_success_watch"%string, c_set_success_watch);
   ("set_watch_miss"%string, c_set_watch_miss); ("set_mismatch"%string, c_set_mismatch);
   ("replace_success"%string, c_replace_success);
   ("replace_success_watch"%string, c_replace_success_watch);
   ("replace_watch_miss"%string, c_replace_watch_miss);
   ("replace_mismatch"%string, c_replace_mismatch);
   ("append_success"%string, c_append_success);
   ("append_success_watch"%string, c_append_success_watch);
   ("append_watch_miss"%string, c_append_watch_miss);
   ("append_mismatch"%string, c_append_mismatch);
   ("append_out_of_memory"%string, c_append_out_of_memory);
   ("prepend_success"%string, c_prepend_success);
   ("prepend_success_watch"%string, c_prepend_success_watch);
   ("prepend_watch_miss"%string, c_prepend_watch_miss);
   ("prepend_mismatch"%string, c_prepend_mismatch);
   ("prepend_out_of_memory"%string, c_prepend_out_of_memory);
   ("delete_success"%string, c_delete_success); ("delete_mismatch"%string, c_delete_mismatch)].
Definition Cache_Stats_Item_to_string (class_id : Z) (it : Cache_Stats_Item) (out : bytes) : bytes :=
  foldl (fun out '(k, c) => append_class class_id k (it c) out) out cache_lines.

(** Lines 272-301. *)
Definition group_lines : list (string * group_counter) :=
  [("get_miss"%string, g_get_miss); ("get_touch_miss"%string, g_get_touch_miss);
   ("get_base_miss_"%string, g_get_base_miss);
   ("update_flags_miss"%string, g_update_flags_miss);
   ("update_expiration_miss"%string, g_update_expiration_miss);
   ("replace_miss"%string, g_replace_miss); ("append_miss"%string, g_append_miss);
   ("prepend_miss"%string, g_prepend_miss); ("delete_miss"%string, g_delete_miss);
   ("incr_success"%string, g_incr_success); ("incr_mismatch"%string, g_incr_mismatch);
   ("incr_miss"%string, g_incr_miss); ("decr_success"%string, g_decr_success);
   ("decr_mismatch"%string, g_decr_mismatch); ("decr_miss"%string, g_decr_miss);
   ("create_watch"%string, g_create_watch); ("check_watch"%string, g_check_watch);
   ("check_watch_miss"%string, g_check_watch_miss); ("bytes_read"%string, g_bytes_read);
   ("bytes_write"%string, g_bytes_write); ("link_caches"%string, g_link_items);
   ("unlink_caches"%string, g_unlink_items); ("link_bytes"%string, g_link_bytes);
   ("unlink_bytes"%string, g_unlink_bytes); ("flush"%string, g_flush)].

(** Lines 303-309: one class, or all below [max_class_id]. *)
Definition Group_Stats_Item_to_string (class_id max_class_id : Z) (it : Group_Stats_Item) (out : bytes)
    : option bytes :=
  let out := foldl (fun out '(k, c) => append k (counters it c) out) out group_lines in
  if (0 <? class_id) && (class_id <? 200) then
    match cache_stats_ it !! Z.to_nat class_id with
    | Some c => Some (Cache_Stats_Item_to_string class_id c out)
    | None => None
    end
  else
    foldl (fun out i => match out, cache_stats_ it !! Z.to_nat i with
                        | Some out, Some c => Some (Cache_Stats_Item_to_string i c out)
                        | _, _ => None
                        end) (Some out) (seqZ 1 (max_class_id - 1)).

(** The values of other components that [get_base_stats] prints. *)
Record base_stats := mkbase {
  uptime : Z; max_bytes : Z; num_threads : Z; max_stats_group : Z; mem_limit : Z; mem_used : Z
}.
(** [stats.cpp] lines 122-135. *)
Definition get_base_stats (b : base_stats) (s : stats) (out : bytes) : bytes :=
  let out := append_string "version" "Xixibase/0.7" out in
  let out := append "uptime" (uptime b) out in
  let out := append "max_bytes" (max_bytes b) out in
  let out := append "threads" (num_threads b) out in
  let out := append "max_stats_group" (max_stats_group b) out in
  let out := append "curr_stats_group" (Z.of_nat (size (group_map_ s))) out in
  let out := append "memory_limit" (mem_limit b) out in
  let out := append "memory_used" (mem_used b) out in
  let out := append "curr_conns" (curr_conns_ s) out in
  append "total_conns" (total_conns_ s) out.

(** [stats.cpp] lines 137-169; the result of the call and what it prints. *)
Definition get_stats_group (b : base_stats) (group_id class_id : Z) : ST stats (bool * bytes) :=
  s ← gets id;
  let out := get_base_stats b s [] in
  match get_group_item group_id s with
  | Some it => out ← the (Group_Stats_Item_to_string class_id (max_class_id_ s) it out); mret (true, out)
  | None => mret (false, out)
  end.
Definition get_and_clear_stats_group (b : base_stats) (group_id class_id : Z) : ST stats (bool * bytes) :=
  s ← gets id;
  let out := get_base_stats b s [] in
  match get_group_item group_id s with
  | Some it =>
      out ← the (Group_Stats_Item_to_string class_id (max_class_id_ s) it out);
      modify (fun s => s <| group_map_ ::= <[group_id := Group_Stats_Item_clear]> |>);;
      mret (true, out)
  | None => mret (false, out)
  end.
Definition get_stats_sum (b : base_stats) (class_id : Z) : ST stats (bool * bytes) :=
  s ← gets id;
  out ← the (Group_Stats_Item_to_string class_id (max_class_id_ s) (group_sum_ s) (get_base_stats b s []));
  mret (true, out).
Definition get_and_clear_stats_sum (b : base_stats) (class_id : Z) : ST stats (bool * bytes) :=
  s ← gets id;
  out ← the (Group_Stats_Item_to_string class_id (max_class_id_ s) (group_sum_ s) (get_base_stats b s []));
  modify (fun s => s <| group_sum_ := Group_Stats_Item_clear |>);;
  mret (true, out).
End Stats.

(** The events by name, with the arguments the methods take after the group. *)
Inductive event :=
  | Ev_get_hit_no_watch (class_id bytes : Z) | Ev_get_hit_watch (class_id bytes : Z)
  | Ev_get_hit_watch_miss (class_id : Z) | Ev_get_miss
  | Ev_get_touch_hit_no_watch (class_id bytes : Z)
  | Ev_get_touch_hit_watch (class_id bytes : Z) | Ev_get_touch_hit_watch_miss (class_id : Z)
  | Ev_get_touch_miss | Ev_get_base_hit (class_id : Z) | Ev_get_base_miss
  | Ev_update_flags_success (class_id : Z) | Ev_update_flags_mismatch (class_id : Z)
  | Ev_update_flags_miss | Ev_update_expiration_success (class_id : Z)
  | Ev_update_expiration_mismatch (class_id : Z) | Ev_update_expiration_miss
  | Ev_add_success (class_id bytes : Z) | Ev_add_success_watch (class_id bytes : Z)
  | Ev_add_watch_miss (class_id : Z) | Ev_add_fail (class_id : Z)
  | Ev_set_success (class_id bytes : Z) | Ev_set_success_watch (class_id bytes : Z)
  | Ev_set_watch_miss (class_id : Z) | Ev_set_mismatch (class_id : Z)
  | Ev_replace_success (class_id bytes : Z) | Ev_replace_success_watch (class_id bytes : Z)
  | Ev_replace_watch_miss (class_id : Z) | Ev_replace_mismatch (class_id : Z) | Ev_replace_miss
  | Ev_append_success (class_id bytes : Z) | Ev_append_success_watch (class_id bytes : Z)
  | Ev_append_watch_miss (class_id : Z) | Ev_append_mismatch (class_id : Z)
  | Ev_append_out_of_memory (class_id : Z) | Ev_append_miss
  | Ev_prepend_success (class_id bytes : Z) | Ev_prepend_success_watch (class_id bytes : Z)
  | Ev_prepend_watch_miss (class_id : Z) | Ev_prepend_mismatch (class_id : Z)
  | Ev_prepend_out_of_memory (class_id : Z) | Ev_prepend_miss
  | Ev_delete_success (class_id : Z) | Ev_delete_mismatch (class_id : Z) | Ev_delete_miss
  | Ev_incr_success | Ev_incr_mismatch | Ev_incr_miss | Ev_decr_success | Ev_decr_mismatch
  | Ev_decr_miss | Ev_create_watch | Ev_check_watch | Ev_check_watch_miss
  | Ev_flush
  | Ev_item_link (class_id size : Z) | Ev_item_unlink (class_id size : Z).

Definition record (group_id : Z) (e : event) : ST stats unit :=
  match e with
  | Ev_get_hit_no_watch class_id bytes => Stats.get_hit_no_watch group_id class_id bytes
  | Ev_get_hit_watch class_id bytes => Stats.get_hit_watch group_id class_id bytes
  | Ev_get_hit_watch_miss class_id => Stats.get_hit_watch_miss group_id class_id
  | Ev_get_miss => Stats.get_miss group_id
  | Ev_get_touch_hit_no_watch class_id bytes => Stats.get_touch_hit_no_watch group_id class_id bytes
  | Ev_get_touch_hit_watch class_id bytes => Stats.get_touch_hit_watch group_id class_id bytes
  | Ev_get_touch_hit_watch_miss class_id => Stats.get_touch_hit_watch_miss group_id class_id
  | Ev_get_touch_miss => Stats.get_touch_miss group_id
  | Ev_get_base_hit class_id => Stats.get_base_hit group_id class_id
  | Ev_get_base_miss => Stats.get_base_miss group_id
  | Ev_update_flags_success class_id => Stats.update_flags_success group_id class_id
  | Ev_update_flags_mismatch class_id => Stats.update_flags_mismatch group_id class_id
  | Ev_update_flags_miss => Stats.update_flags_miss group_id
  | Ev_update_expiration_success class_id => Stats.update_expiration_success group_id class_id
  | Ev_update_expiration_mismatch class_id => Stats.update_expiration_mismatch group_id class_id
  | Ev_update_expiration_miss => Stats.update_expiration_miss group_id
  | Ev_add_success class_id bytes => Stats.add_success group_id class_id bytes
  | Ev_add_success_watch class_id bytes => Stats.add_success_watch group_id class_id bytes
  | Ev_add_watch_miss class_id => Stats.add_watch_miss group_id class_id
  | Ev_add_fail class_id => Stats.add_fail group_id class_id
  | Ev_set_success class_id bytes => Stats.set_success group_id class_id bytes
  | Ev_set_success_watch class_id bytes => Stats.set_success_watch group_id class_id bytes
  | Ev_set_watch_miss class_id => Stats.set_watch_miss group_id class_id
  | Ev_set_mismatch class_id => Stats.set_mismatch group_id class_id
  | Ev_replace_success class_id bytes => Stats.replace_success group_id class_id bytes
  | Ev_replace_success_watch class_id bytes => Stats.replace_success_watch group_id class_id bytes
  | Ev_replace_watch_miss class_id => Stats.replace_watch_miss group_id class_id
  | Ev_replace_mismatch class_id => Stats.replace_mismatch group_id class_id
  | Ev_replace_miss => Stats.replace_miss group_id
  | Ev_append_success class_id bytes => Stats.append_success group_id class_id bytes
  | Ev_append_success_watch class_id bytes => Stats.append_success_watch group_id class_id bytes
  | Ev_append_watch_miss class_id => Stats.append_watch_miss group_id class_id
  | Ev_append_mismatch class_id => Stats.append_mismatch group_id class_id
  | Ev_append_out_of_memory class_id => Stats.append_out_of_memory group_id class_id
  | Ev_append_miss => Stats.append_miss group_id
  | Ev_prepend_success class_id bytes => Stats.prepend_success group_id class_id bytes
  | Ev_prepend_success_watch class_id bytes => Stats.prepend_success_watch group_id class_id bytes
  | Ev_prepend_watch_miss class_id => Stats.prepend_watch_miss group_id class_id
  | Ev_prepend_mismatch class_id => Stats.prepend_mismatch group_id class_id
  | Ev_prepend_out_of_memory class_id => Stats.prepend_out_of_memory group_id class_id
  | Ev_prepend_miss => Stats.prepend_miss group_id
  | Ev_delete_success class_id => Stats.delete_success group_id class_id
  | Ev_delete_mismatch class_id => Stats.delete_mismatch group_id class_id
  | Ev_delete_miss => Stats.delete_miss group_id
  | Ev_incr_success => Stats.incr_success group_id
  | Ev_incr_mismatch => Stats.incr_mismatch group_id
  | Ev_incr_miss => Stats.incr_miss group_id
  | Ev_decr_success => Stats.decr_success group_id
  | Ev_decr_mismatch => Stats.decr_mismatch group_id
  | Ev_decr_miss => Stats.decr_miss group_id
  | Ev_create_watch => Stats.create_watch group_id
  | Ev_check_watch => Stats.check_watch group_id
  | Ev_check_watch_miss => Stats.check_watch_miss group_id
  | Ev_flush => Stats.flush group_id
  | Ev_item_link class_id size => Stats.item_link group_id class_id size
  | Ev_item_unlink class_id size => Stats.item_unlink group_id class_id size
  end.

(** What an event is about, by the name of its method. *)
Definition meaning (e : event) : list step :=
  match e with
  | Ev_get_hit_no_watch class_id bytes => [Class class_id c_get_hit_no_watch; Group g_bytes_read bytes]
  | Ev_get_hit_watch class_id bytes => [Class class_id c_get_hit_watch; Group g_bytes_read bytes]
  | Ev_get_hit_watch_miss class_id => [Class class_id c_get_hit_watch_miss]
  | Ev_get_miss => [Group g_get_miss 1]
  | Ev_get_touch_hit_no_watch class_id bytes => [Class class_id c_get_touch_hit_no_watch; Group g_bytes_read bytes]
  | Ev_get_touch_hit_watch class_id bytes => [Class class_id c_get_touch_hit_watch; Group g_bytes_read bytes]
  | Ev_get_touch_hit_watch_miss class_id => [Class class_id c_get_touch_hit_watch_miss]
  | Ev_get_touch_miss => [Group g_get_touch_miss 1]
  | Ev_get_base_hit class_id => [Class class_id c_get_base_hit]
  | Ev_get_base_miss => [Group g_get_base_miss 1]
  | Ev_update_flags_success class_id => [Class class_id c_update_flags_success]
  | Ev_update_flags_mismatch class_id => [Class class_id c_update_flags_mismatch]
  | Ev_update_flags_miss => [Group g_update_flags_miss 1]
  | Ev_update_expiration_success class_id => [Class class_id c_update_expiration_success]
  | Ev_update_expiration_mismatch class_id => [Class class_id c_update_expiration_mismatch]
  | Ev_update_expiration_miss => [Group g_update_expiration_miss 1]
  | Ev_add_success class_id bytes => [Class class_id c_add_success; Group g_bytes_write bytes]
  | Ev_add_success_watch class_id bytes => [Class class_id c_add_success_watch; Group g_bytes_write bytes]
  | Ev_add_watch_miss class_id => [Class class_id c_add_watch_miss]
  | Ev_add_fail class_id => [Class class_id c_add_fail]
  | Ev_set_success class_id bytes => [Class class_id c_set_success; Group g_bytes_write bytes]
  | Ev_set_success_watch class_id bytes => [Class class_id c_set_success_watch; Group g_bytes_write bytes]
  | Ev_set_watch_miss class_id => [Class class_id c_set_watch_miss]
  | Ev_set_mismatch class_id => [Class class_id c_set_mismatch]
  | Ev_replace_success class_id bytes => [Class class_id c_replace_success; Group g_bytes_write bytes]
  | Ev_replace_success_watch class_id bytes => [Class class_id c_replace_success_watch; Group g_bytes_write bytes]
  | Ev_replace_watch_miss class_id => [Class class_id c_replace_watch_miss]
  | Ev_replace_mismatch class_id => [Class class_id c_replace_mismatch]
  | Ev_replace_miss => [Group g_replace_miss 1]
  | Ev_append_success class_id bytes => [Class class_id c_append_success; Group g_bytes_write bytes]
  | Ev_append_success_watch class_id bytes => [Class class_id c_append_success_watch; Group g_bytes_write bytes]
  | Ev_append_watch_miss class_id => [Class class_id c_append_watch_miss]
  | Ev_append_mismatch class_id => [Class class_id c_append_mismatch]
  | Ev_append_out_of_memory class_id => [Class class_id c_append_out_of_memory]
  | Ev_append_miss => [Group g_append_miss 1]
  | Ev_prepend_success class_id bytes => [Class class_id c_prepend_success; Group g_bytes_write bytes]
  | Ev_prepend_success_watch class_id bytes => [Class class_id c_prepend_success_watch; Group g_bytes_write bytes]
  | Ev_prepend_watch_miss class_id => [Class class_id c_prepend_watch_miss]
  | Ev_prepend_mismatch class_id => [Class class_id c_prepend_mismatch]
  | Ev_prepend_out_of_memory class_id => [Class class_id c_prepend_out_of_memory]
  | Ev_prepend_miss => [Group g_prepend_miss 1]
  | Ev_delete_success class_id => [Class class_id c_delete_success]
  | Ev_delete_mismatch class_id => [Class class_id c_delete_mismatch]
  | Ev_delete_miss => [Group g_delete_miss 1]
  | Ev_incr_success => [Group g_incr_success 1]
  | Ev_incr_mismatch => [Group g_incr_mismatch 1]
  | Ev_incr_miss => [Group g_incr_miss 1]
  | Ev_decr_success => [Group g_decr_success 1]
  | Ev_decr_mismatch => [Group g_decr_mismatch 1]
  | Ev_decr_miss => [Group g_decr_miss 1]
  | Ev_create_watch => [Group g_create_watch 1]
  | Ev_check_watch => [Group g_check_watch 1]
  | Ev_check_watch_miss => [Group g_check_watch_miss 1]
  | Ev_flush => [Group g_flush 1]
  | Ev_item_link _ size => [Group g_link_items 1; Group g_link_bytes size]
  | Ev_item_unlink _ size => [Group g_unlink_items 1; Group g_unlink_bytes size]
  end.

(** ** What a trace of events leaves in the counters *)

(** A counter, and its value in an item. *)
Inductive key := KClass (class_id : Z) (k : cache_counter) | KGroup (k : group_counter).
Definition width (k : key) : Z := match k with KClass _ _ => 64 | KGroup k => counter_width k end.
Definition value (it : Group_Stats_Item) (k : key) : Z :=
  match k with
  | KClass i k => from_option (fun c => c k) 0 (cache_stats_ it !! Z.to_nat i)
  | KGroup k => counters it k
  end.

(** What a step adds to a counter. *)
Definition adds (st : step) (k : key) : Z :=
  match st, k with
  | Class i c, KClass j d => if decide (i = j) then if decide (c = d) then 1 else 0 else 0
  | Group c v, KGroup d => if decide (c = d) then v else 0
  | _, _ => 0
  end.
Definition total (sts : list step) (k : key) : Z := foldr (fun st n => adds st k + n) 0 sts.

Definition step_ok (st : step) : Prop := match st with Class i _ => 0 <= i < 200 | Group _ _ => True end.
Definition item_ok (it : Group_Stats_Item) : Prop := length (cache_stats_ it) = 200%nat.
Definition key_ok (k : key) : Prop := match k with KClass i _ => 0 <= i < 200 | KGroup _ => True end.

Lemma count_spec st it :
  item_ok it -> step_ok st ->
  exists it', count st it = Some it' /\ item_ok it' /\
    forall k, key_ok k -> 0 <= value it k < 2 ^ width k ->
      value it' k = wrap (width k) (value it k + adds st k).
Proof.
  intros Hit Hst. destruct st as [i c|c v]; cbn [count step_ok] in *.
  - destruct (lookup_lt_is_Some_2 (cache_stats_ it) (Z.to_nat i)) as [cs Hcs]; [unfold item_ok in Hit; lia|].
    rewrite Hcs. eexists. split; [done|]. split; [unfold item_ok; cbn; by rewrite length_insert|].
    intros [j d|d] Hk Hv; cbn [value adds width key_ok cache_stats_ counters set const] in *.
    + destruct (decide (i = j)) as [->|Hij].
      * rewrite list_lookup_insert_eq by (unfold item_ok in Hit; lia). rewrite Hcs in *. cbn in *.
        destruct (decide (d = c)) as [->|], (decide (c = _)) as [?|]; try done.
        rewrite Z.add_0_r. symmetry. by apply wrap_small.
      * rewrite list_lookup_insert_ne by lia. rewrite Z.add_0_r. symmetry. by apply wrap_small.
    + rewrite Z.add_0_r. symmetry. by apply wrap_small.
  - eexists. split; [done|]. split; [done|].
    intros [j d|d] Hk Hv; cbn [value adds width key_ok cache_stats_ counters set const] in *.
    + rewrite Z.add_0_r. symmetry. by apply wrap_small.
    + destruct (decide (d = c)) as [->|], (decide (c = _)) as [?|]; try done.
      rewrite Z.add_0_r. symmetry. by apply wrap_small.
Qed.

Lemma width_pos k : 0 < width k.
Proof. by destruct k as [|[]]. Qed.

Lemma count_all_spec sts it :
  item_ok it -> Forall step_ok sts ->
  exists it', count_all sts it = Some it' /\ item_ok it' /\
    forall k, key_ok k -> 0 <= value it k < 2 ^ width k ->
      value it' k = wrap (width k) (value it k + total sts k).
Proof.
  intros Hit Hsts. revert it Hit. induction Hsts as [|st sts Hst _ IH]; intros it Hit; cbn [count_all total foldr].
  - exists it. split_and!; [done..|]. intros k _ Hv. rewrite Z.add_0_r. symmetry. by apply wrap_small.
  - destruct (count_spec st it Hit Hst) as (it1&->&Hit1&Hv1).
    destruct (IH it1 Hit1) as (it2&->&Hit2&Hv2). exists it2. split_and!; [done..|].
    intros k Hk Hv. rewrite Hv2 by (done || rewrite Hv1 by done; apply wrap_range; pose proof (width_pos k); lia).
    rewrite Hv1 by done. rewrite wrap_add_l. f_equal. fold (total sts k). lia.
Qed.

(** A well-formed table: every item has its 200 classes and its counters are in
    range. *)
Definition item_wf (it : Group_Stats_Item) : Prop :=
  item_ok it /\ forall k, key_ok k -> 0 <= value it k < 2 ^ width k.
Definition stats_wf (s : stats) : Prop :=
  item_wf (group_sum_ s) /\ map_Forall (fun _ => item_wf) (group_map_ s) /\ max_class_id_ s <= 200.

Lemma clear_wf : item_wf Group_Stats_Item_clear.
Proof.
  split; [done|]. intros [i k|k] Hk; cbn [value key_ok] in *.
  - pose proof (Z.pow_pos_nonneg 2 (width (KClass i k))).
    unfold Group_Stats_Item_clear. cbn [cache_stats_]. rewrite lookup_replicate_2 by lia. unfold Cache_Stats_Item_clear. cbn. lia.
  - pose proof (width_pos (KGroup k)). pose proof (Z.pow_pos_nonneg 2 (width (KGroup k))). cbn in *. lia.
Qed.

(** Printing never leaves the array of classes. *)
Lemma to_string_total cls mx it out :
  item_ok it -> mx <= 200 -> is_Some (Stats.Group_Stats_Item_to_string cls mx it out).
Proof.
  unfold item_ok, Stats.Group_Stats_Item_to_string. intros Hok Hmx. cbn zeta.
  generalize (foldl (fun out '(k, c) => Stats.append k (counters it c) out) out Stats.group_lines). intros o. destruct ((0 <? cls) && (cls <? 200)) eqn:Ec.
  - apply andb_prop in Ec as [?%Z.ltb_lt ?%Z.ltb_lt].
    destruct (lookup_lt_is_Some_2 (cache_stats_ it) (Z.to_nat cls)) as [c ->]; [lia|]. done.
  - assert (Forall (fun i => 0 <= i < 200) (seqZ 1 (mx - 1))) as Hall.
    { apply Forall_forall. intros i Hi%elem_of_seqZ. lia. }
    revert o. induction Hall as [|i l Hi _ IH]; intros o; cbn [foldl]; [done|].
    destruct (lookup_lt_is_Some_2 (cache_stats_ it) (Z.to_nat i)) as [c ->]; [lia|]. apply IH.
Qed.

Lemma group_commands_wf s :
  stats_wf s ->
  (forall mx g, wp (Stats.add_group mx g) s (fun _ s' => stats_wf s')) /\
  (forall g, wp (Stats.remove_group g) s (fun _ s' => stats_wf s')) /\
  (forall b g c, wp (Stats.get_stats_group b g c) s (fun _ s' => s' = s)) /\
  (forall b c, wp (Stats.get_stats_sum b c) s (fun _ s' => s' = s)).
Proof.
  intros (Hsum&Hm&Hmax). split_and!.
  - intros mx g. unfold Stats.add_group. wp_steps. case_match; wp_steps; [|by split_and!].
    split_and!; [done| |done]. cbn. apply map_Forall_insert_2; [|done].
    destruct (group_map_ s !! g) eqn:E; [by apply (Hm g)|apply clear_wf].
  - intros g. unfold Stats.remove_group. wp_steps. case_match; wp_steps; [|by split_and!].
    split_and!; [done| |done]. by apply map_Forall_delete.
  - intros b g c. unfold Stats.get_stats_group, get_group_item. wp_steps. cbn zeta. unfold id.
    destruct (group_map_ s !! g) as [it|] eqn:E; wp_steps; [|done].
    destruct (to_string_total c (max_class_id_ s) it (Stats.get_base_stats b s [])) as [o Ho]; [by apply (Hm g)|done|].
    eapply wp_the; [exact Ho|]. by apply wp_ret.
  - intros b c. unfold Stats.get_stats_sum. wp_steps. unfold id.
    destruct (to_string_total c (max_class_id_ s) (group_sum_ s) (Stats.get_base_stats b s [])) as [o Ho]; [apply Hsum|done|].
    eapply wp_the; [exact Ho|]. by apply wp_ret.
Qed.

Lemma both_wp g fs fi s :
  stats_wf s -> Forall step_ok fs -> Forall step_ok fi ->
  wp (both g fs fi) s (fun _ s' => stats_wf s' /\
    (forall k, key_ok k -> value (group_sum_ s') k = wrap (width k) (value (group_sum_ s) k + total fs k)) /\
    (forall g' it, group_map_ s !! g' = Some it -> exists it', group_map_ s' !! g' = Some it' /\
       forall k, key_ok k -> value it' k =
         wrap (width k) (value it k + if decide (g' = g) then total fi k else 0))).
Proof.
  intros [[Hsum Hsv] [Hm Hmax]] Hfs Hfi. unfold both. wp_steps.
  destruct (count_all_spec fs _ Hsum Hfs) as (sum'&Es&Hsum'&Hv). wp_steps.
  assert (item_wf sum') as Hwf'.
  { split; [done|]. intros k Hk. rewrite Hv by auto. apply wrap_range. pose proof (width_pos k). lia. }
  unfold get_group_item. cbn [group_map_ set const].
  destruct (group_map_ s !! g) as [it|] eqn:Hg.
  - destruct (Hm g it Hg) as [Hit Hitv].
    destruct (count_all_spec fi _ Hit Hfi) as (it'&Ei&Hit'&Hv'). wp_steps.
    cbn [group_sum_ group_map_ set const]. split; [|split].
    + split; [exact Hwf'|]. cbn [group_map_ set const]. split; [|done]. apply map_Forall_insert_2; [|done].
      split; [done|]. intros k Hk. rewrite Hv' by auto. apply wrap_range. pose proof (width_pos k). lia.
    + intros k Hk. auto.
    + intros g' it0 Hg'. destruct (decide (g' = g)) as [->|].
      * rewrite lookup_insert_eq. simplify_eq. exists it'. split; [done|]. intros k Hk. auto.
      * rewrite lookup_insert_ne by done. exists it0. split; [done|]. intros k Hk.
        rewrite Z.add_0_r. symmetry. apply wrap_small. by apply (Hm g' it0 Hg').
  - wp_steps. cbn [group_sum_ group_map_ set const]. split; [by split|split].
    + intros k Hk. auto.
    + intros g' it0 Hg'. exists it0. split; [done|]. intros k Hk.
      destruct (decide (g' = g)) as [->|]; [by simplify_eq|].
      rewrite Z.add_0_r. symmetry. apply wrap_small. by apply (Hm g' it0 Hg').
Qed.

(** ** What the events count *)

(** The item of a group counts what the event means, except that an unlink adds
    its size to [link_bytes_]. *)
Definition own_total (e : event) (k : key) : Z :=
  match e, k with
  | Ev_item_unlink _ size, KGroup g_link_bytes => size
  | Ev_item_unlink _ _, KGroup g_unlink_bytes => 0
  | _, _ => total (meaning e) k
  end.

(** The total counts the successes under a watch, and the watch misses, of the
    five update operations as plain successes. *)
Definition sum_total (e : event) (k : key) : Z :=
  let n := total (meaning e) in
  match k with
  | KClass i c_add_success => n (KClass i c_add_success) + n (KClass i c_add_success_watch) + n (KClass i c_add_watch_miss)
  | KClass i c_set_success => n (KClass i c_set_success) + n (KClass i c_set_success_watch) + n (KClass i c_set_watch_miss)
  | KClass i c_replace_success =>
      n (KClass i c_replace_success) + n (KClass i c_replace_success_watch) + n (KClass i c_replace_watch_miss)
  | KClass i c_append_success =>
      n (KClass i c_append_success) + n (KClass i c_append_success_watch) + n (KClass i c_append_watch_miss)
  | KClass i c_prepend_success =>
      n (KClass i c_prepend_success) + n (KClass i c_prepend_success_watch) + n (KClass i c_prepend_watch_miss)
  | KClass _ (c_add_success_watch | c_add_watch_miss | c_set_success_watch | c_set_watch_miss
              | c_replace_success_watch | c_replace_watch_miss | c_append_success_watch
              | c_append_watch_miss | c_prepend_success_watch | c_prepend_watch_miss) => 0
  | _ => n k
  end.

Definition event_ok (e : event) : Prop := Forall step_ok (meaning e).

Lemma record_both g e :
  exists fs fi, record g e = both g fs fi /\
    (event_ok e -> Forall step_ok fs /\ Forall step_ok fi) /\
    (forall k, total fs k = sum_total e k) /\ (forall k, total fi k = own_total e k).
Proof.
  destruct e; (do 2 eexists; (split; [reflexivity|]); split;
    [ intros He; unfold event_ok in He; cbn [meaning] in He;
      repeat match goal with H : Forall _ (_ :: _) |- _ => apply Forall_cons in H as [? ?] end;
      (split; repeat (constructor; try done))
    | split; intros [j d|d]; destruct d; cbn -[decide]; try reflexivity;
      repeat (destruct (decide _) as [?|?]; try done); lia ]).
Qed.

Fixpoint record_all (tr : list (Z * event)) : ST stats unit :=
  match tr with
  | [] => mret tt
  | (g, e) :: tr => record g e;; record_all tr
  end.
(** The sums over a trace, and over the events of one group in it. *)
Definition trace_sum (tr : list (Z * event)) (k : key) : Z :=
  foldr (fun ge n => sum_total ge.2 k + n) 0 tr.
Definition trace_own (g : Z) (tr : list (Z * event)) (k : key) : Z :=
  foldr (fun ge n => (if decide (g = ge.1) then own_total ge.2 k else 0) + n) 0 tr.

Lemma record_wp g e s :
  stats_wf s -> event_ok e ->
  wp (record g e) s (fun _ s' => stats_wf s' /\
    (forall k, key_ok k -> value (group_sum_ s') k = wrap (width k) (value (group_sum_ s) k + sum_total e k)) /\
    (forall g' it, group_map_ s !! g' = Some it -> exists it', group_map_ s' !! g' = Some it' /\
       forall k, key_ok k -> value it' k =
         wrap (width k) (value it k + if decide (g' = g) then own_total e k else 0))).
Proof.
  intros Hs He. destruct (record_both g e) as (fs&fi&->&Hok&Hfs&Hfi). destruct (Hok He).
  eapply wp_mono; [by apply both_wp|]. intros [] s' (?&Hsum&Hown). split_and!; [by apply H1..| |].
  - intros k Hk. by rewrite Hsum, Hfs.
  - intros g' it Hg. destruct (Hown g' it Hg) as (it'&?&Hv). exists it'. split; [done|].
    intros k Hk. by rewrite Hv, Hfi.
Qed.

Lemma record_all_wp tr s :
  stats_wf s -> Forall (fun ge => event_ok ge.2) tr ->
  wp (record_all tr) s (fun _ s' => stats_wf s' /\
    (forall k, key_ok k -> value (group_sum_ s') k = wrap (width k) (value (group_sum_ s) k + trace_sum tr k)) /\
    (forall g it, group_map_ s !! g = Some it -> exists it', group_map_ s' !! g = Some it' /\
       forall k, key_ok k -> value it' k = wrap (width k) (value it k + trace_own g tr k))).
Proof.
  intros Hs Htr. revert s Hs. induction Htr as [|[g e] tr He _ IH]; intros s Hs; cbn [record_all].
  - apply wp_ret. split; [done|]. destruct Hs as [[_ Hv] [Hm _]]. split.
    + intros k Hk. cbn. rewrite Z.add_0_r. symmetry. apply wrap_small. auto.
    + intros g it Hg. exists it. split; [done|]. intros k Hk. cbn. rewrite Z.add_0_r. symmetry.
      apply wrap_small. by apply (Hm g it Hg).
  - apply wp_bind. eapply wp_mono; [by apply record_wp|]. intros [] s1 (Hs1&Hsum1&Hown1).
    eapply wp_mono; [by apply IH|]. intros [] s2 (Hs2&Hsum2&Hown2). split; [done|]. split.
    + intros k Hk. rewrite Hsum2, Hsum1, wrap_add_l by done. f_equal. change (trace_sum ((g, e) :: tr) k) with (sum_total e k + trace_sum tr k). lia.
    + intros g' it Hg. destruct (Hown1 g' it Hg) as (it1&Hg1&Hv1).
      destruct (Hown2 g' it1 Hg1) as (it2&Hg2&Hv2). exists it2. split; [done|].
      intros k Hk. rewrite Hv2, Hv1, wrap_add_l by done. f_equal.
      change (trace_own g' ((g, e) :: tr) k)
        with ((if decide (g' = g) then own_total e k else 0) + trace_own g' tr k). lia.
Qed.

(** ** Properties *)

(** C28. The counters are sums over the events: after any trace of events of
    valid classes, every counter of the total has grown, modulo its width, by
    [sum_total] of all the events, and every counter of a counted group by
    [own_total] of the events of that group, where both are what the events mean
    by name except in the places [sum_total] and [own_total] single out. *)
Theorem stats_count_events tr s :
  stats_wf s -> Forall (fun ge => event_ok ge.2) tr ->
  exists s', run (record_all tr) s (tt, s') /\
    (forall k, key_ok k -> value (group_sum_ s') k = wrap (width k) (value (group_sum_ s) k + trace_sum tr k)) /\
    (forall g it, group_map_ s !! g = Some it -> exists it', group_map_ s' !! g = Some it' /\
       forall k, key_ok k -> value it' k = wrap (width k) (value it k + trace_own g tr k)).
Proof.
  intros Hs Htr. pose proof (record_all_wp tr s Hs Htr) as Hw.
  apply wp_run in Hw as ([]&s'&Hr&_&Hsum&Hown). by exists s'.
Qed.

Definition demo_stats : stats := Stats.init <| group_map_ := {[ 7 := Group_Stats_Item_clear ]} |>.
Definition demo_trace : list (Z * event) :=
  [(7, Ev_add_success_watch 3 100); (8, Ev_add_success 3 50); (7, Ev_item_link 3 100); (7, Ev_item_unlink 3 100)].

Lemma stats_count_events_witness :
  exists s', run (record_all demo_trace) demo_stats (tt, s') /\
    value (group_sum_ s') (KClass 3 c_add_success) = 2 /\
    exists it', group_map_ s' !! 7 = Some it' /\ value it' (KClass 3 c_add_success_watch) = 1.
Proof.
  destruct (stats_count_events demo_trace demo_stats) as (s'&Hr&Hsum&Hown).
  - split; [apply clear_wf|]. split; [apply map_Forall_singleton, clear_wf|done].
  - repeat constructor; done.
  - exists s'. split; [exact Hr|]. split.
    + rewrite Hsum by (cbn; lia). vm_compute. done.
    + destruct (Hown 7 Group_Stats_Item_clear ltac:(done)) as (it'&Hit&Hv). exists it'.
      split; [done|]. rewrite Hv by (cbn; lia). vm_compute. done.
Defined.

(** What the total and the items get wrong: whatever happens, the total never
    counts a success under a watch or a watch miss as such, the item of a group
    never counts unlinked bytes, and [merge] drops the two counters of
    expiration updates. *)
Theorem stats_miscounts tr s s' g it i cs own :
  stats_wf s -> Forall (fun ge => event_ok ge.2) tr -> 0 <= i < 200 ->
  run (record_all tr) s (tt, s') -> group_map_ s !! g = Some it ->
  (forall k, k ∈ [c_add_success_watch; c_add_watch_miss; c_set_success_watch; c_set_watch_miss;
                  c_replace_success_watch; c_replace_watch_miss; c_append_success_watch;
                  c_append_watch_miss; c_prepend_success_watch; c_prepend_watch_miss] ->
     value (group_sum_ s') (KClass i k) = value (group_sum_ s) (KClass i k))
  /\ (exists it', group_map_ s' !! g = Some it' /\
        value it' (KGroup g_unlink_bytes) = value it (KGroup g_unlink_bytes))
  /\ Stats.merge own cs c_update_expiration_success = cs c_update_expiration_success
  /\ Stats.merge own cs c_update_expiration_mismatch = cs c_update_expiration_mismatch.
Proof.
  intros Hs Htr Hi Hr Hg. pose proof (record_all_wp tr s Hs Htr) as Hw.
  apply wp_run in Hw as ([]&s1&Hr1&_&Hsum&Hown). unfold run in Hr. rewrite Hr in Hr1. injection Hr1 as <-.
  destruct Hs as [[_ Hsv] [Hm _]]. split_and!; [..|done|done].
  - intros k Hk. rewrite Hsum by done.
    assert (trace_sum tr (KClass i k) = 0) as ->.
    { clear -Hk. induction tr as [|[g e] tr IH]; [done|]. cbn [trace_sum foldr snd].
      fold (trace_sum tr (KClass i k)). rewrite IH.
      repeat (apply elem_of_cons in Hk as [->|Hk]; [done|]). by apply elem_of_nil in Hk. }
    rewrite Z.add_0_r. apply wrap_small. by apply Hsv.
  - destruct (Hown g it Hg) as (it'&Hit&Hv). exists it'. split; [done|]. rewrite Hv by done.
    assert (trace_own g tr (KGroup g_unlink_bytes) = 0) as ->.
    { clear. induction tr as [|[g' e] tr IH]; [done|]. cbn [trace_own foldr snd fst].
      fold (trace_own g tr (KGroup g_unlink_bytes)). rewrite IH. destruct (decide _); [|done].
      by destruct e. }
    rewrite Z.add_0_r. apply wrap_small. by apply (Hm g it Hg).
Qed.

Lemma stats_miscounts_witness :
  exists s' it', run (record_all demo_trace) demo_stats (tt, s') /\ group_map_ s' !! 7 = Some it' /\
    value it' (KGroup g_unlink_bytes) = 0 /\ value it' (KGroup g_link_bytes) = 200.
Proof.
  assert (stats_wf demo_stats) as Hwf by (split_and!; [apply clear_wf|apply map_Forall_singleton, clear_wf|done]).
  assert (Forall (fun ge => event_ok ge.2) demo_trace) as Hok by (repeat constructor; done).
  destruct (proj1 (wp_run _ _ _) (record_all_wp demo_trace demo_stats Hwf Hok)) as ([]&s'&Hrun&_&_&Hown).
  destruct (stats_miscounts demo_trace demo_stats s' 7 Group_Stats_Item_clear 3
    Cache_Stats_Item_clear Cache_Stats_Item_clear Hwf Hok ltac:(lia) Hrun ltac:(done)) as (_&(it'&Hit&Hv)&_).
  destruct (Hown 7 Group_Stats_Item_clear ltac:(done)) as (it2&Hit2&Hv2).
  exists s', it'. split; [exact Hrun|]. split; [exact Hit|]. split; [rewrite Hv; done|].
  rewrite Hit in Hit2. injection Hit2 as <-. rewrite Hv2 by done. vm_compute. done.
Defined.
