(* ===== verification/Watch.v ===== *)
(** * Watches, class [Cache_Watch] of [src/src/cache.h] and [src/src/cache.cpp]

    A watch collects the updates of the items it is set on until a peer asks for
    them.  What was handed out stays in the [wait_] lists until the next request
    acknowledges its sequence number; a peer that asks when there is nothing to
    hand out is remembered in [wp_] and called back by the next update.

    A sink is the number of a [Cache_Watch_Sink]; [alive] says whether the weak
    pointer to it can still be locked.  The calls of [on_cache_watch_notify] an
    operation makes are part of its result. *)

From S2P Require Import Prelude.

(** [watch_notify_type], [peer_cache_pdu.h] lines 61-66. *)
Inductive watch_notify_type :=
  | WATCH_NOTIFY_TYPE_BASE_INFO_UPDATED | WATCH_NOTIFY_TYPE_DATA_UPDATED
  | WATCH_NOTIFY_TYPE_DELETED | WATCH_NOTIFY_TYPE_EXPIRED | WATCH_NOTIFY_TYPE_FLUSHED.
#[export] Instance watch_notify_type_eq : EqDecision watch_notify_type.
Proof. solve_decision. Defined.

Abbreviation sink := positive.

Module Cache_Watch.
(** Lines 59-67 of [cache.h]; [max_check_interval_] is never used. *)
Record watch := mkwatch {
  watch_id_ : Z;
  expire_time_ : Z;
  sequence_ : Z;
  updated_list_ : list Z;
  wait_updated_list_ : list Z;
  updated_type_list_ : list watch_notify_type;
  wait_updated_type_list_ : list watch_notify_type;
  wp_ : option sink
}.

(** What the out-parameters of a check hold: [None] for a sequence that is
    not assigned. *)
Record answer := mkanswer {
  sequence : option Z;
  updated_list : list Z;
  updated_type_list : list watch_notify_type
}.

Section watch.
Context (alive : sink -> bool).

(** [wp_.lock()]. *)
Definition lock (w : watch) : option sink :=
  match wp_ w with Some p => if alive p then Some p else None | None => None end.

(** The constructor, lines 32-36 of [cache.cpp]. *)
Definition init (watch_id expire_time : Z) : watch := mkwatch watch_id expire_time 0 [] [] [] [] None.

(** Lines 47-58 of [cache.h]. *)
Definition is_expired (current_time : Z) (w : watch) : bool := current_time >=? expire_time_ w.
Definition next_sequence (w : watch) : watch :=
  let s := u32 (sequence_ w + 1) in w <| sequence_ := if s =? 0 then 1 else s |>.

(** The copying loops: both lists by the index of the first; [None] when the
    second is too short. *)
Definition copy (ids : list Z) (types : list watch_notify_type) (a : answer) : option answer :=
  if (length types <? length ids)%nat then None
  else Some (a <| updated_list ::= fun l => l ++ ids |>
               <| updated_type_list ::= fun l => l ++ take (length ids) types |>).

(** The two [swap]s. *)
Definition swap_lists (w : watch) : watch :=
  w <| updated_list_ := wait_updated_list_ w |> <| wait_updated_list_ := updated_list_ w |>
    <| updated_type_list_ := wait_updated_type_list_ w |>
    <| wait_updated_type_list_ := updated_type_list_ w |>.

(** Lines 38-82; [a] are the lists as the caller passes them. *)
Definition check_and_set_callback (sp : option sink) (ack_sequence expire_time : Z) (a : answer) (w : watch)
    : option (answer * list (sink * Z) * watch) :=
  let w := w <| expire_time_ := expire_time |> in
  let resend := negb (bool_decide (wait_updated_list_ w = [])) && negb (ack_sequence =? sequence_ w) in
  if resend then
    match copy (wait_updated_list_ w) (wait_updated_type_list_ w) a with
    | Some a => Some (a <| sequence := Some (sequence_ w) |>, [], w)
    | None => None
    end
  else
    let w := if bool_decide (wait_updated_list_ w = []) then w
             else w <| wait_updated_list_ := [] |> <| wait_updated_type_list_ := [] |> in
    if (0 <? length (updated_list_ w))%nat then
      match copy (updated_list_ w) (updated_type_list_ w) a with
      | Some a =>
          let w := next_sequence (swap_lists w) in
          Some (a <| sequence := Some (sequence_ w) |>, [], w)
      | None => None
      end
    else
      let calls := match lock w with Some p => [(p, watch_id_ w)] | None => [] end in
      Some (a <| sequence := Some 0 |>, calls, w <| wp_ := sp |>).

(** Lines 84-104. *)
Definition check_and_clear_callback (sp : option sink) (a : answer) (w : watch)
    : option (answer * watch) :=
  if bool_decide (sp = lock w) then
    if (0 <? length (updated_list_ w))%nat && bool_decide (wait_updated_list_ w = []) then
      match copy (updated_list_ w) (updated_type_list_ w) a with
      | Some a =>
          let w := next_sequence (swap_lists w) in
          Some (a <| sequence := Some (sequence_ w) |>, w <| wp_ := None |>)
      | None => None
      end
    else Some (a, w <| wp_ := None |>)
  else Some (a, w).

(** Lines 106-114. *)
Definition notify_watch (cache_id : Z) (type : watch_notify_type) (w : watch) : list (sink * Z) * watch :=
  let w := w <| updated_list_ ::= fun l => l ++ [cache_id] |>
             <| updated_type_list_ ::= fun l => l ++ [type] |> in
  match lock w with
  | Some p => ([(p, watch_id_ w)], w <| wp_ := None |>)
  | None => ([], w)
  end.
End watch.
End Cache_Watch.
Import Cache_Watch.

(** ** No update is lost

    The history of a watch: every update it was notified of, and how many of
    them the peer has acknowledged. *)
Section history.
Context (alive : sink -> bool).
Implicit Types w : watch.

Inductive watch_op :=
  | Notify (cache_id : Z) (type : watch_notify_type)
  | Check (sp : option sink) (ack_sequence expire_time : Z)
  | Clear (sp : option sink).

Definition no_answer : answer := mkanswer None [] [].

(** One operation: the answer of a check, and the callbacks it makes. *)
Definition watch_step (o : watch_op) w : option (answer * list (sink * Z) * watch) :=
  match o with
  | Notify id ty => let '(calls, w) := notify_watch alive id ty w in Some (no_answer, calls, w)
  | Check sp ack e => check_and_set_callback alive sp ack e no_answer w
  | Clear sp => match check_and_clear_callback alive sp no_answer w with
                | Some (a, w) => Some (a, [], w)
                | None => None
                end
  end.

(** The updates the two lists stand for. *)
Definition waiting w : list (Z * watch_notify_type) := zip (wait_updated_list_ w) (wait_updated_type_list_ w).
Definition pending w : list (Z * watch_notify_type) := zip (updated_list_ w) (updated_type_list_ w).

Record watch_wf w : Prop := {
  ww_updated : length (updated_list_ w) = length (updated_type_list_ w);
  ww_wait : length (wait_updated_list_ w) = length (wait_updated_type_list_ w);
  ww_seq : 0 <= sequence_ w < 2 ^ 32;
  ww_seq0 : wait_updated_list_ w <> [] -> sequence_ w <> 0
}.

Definition notified (o : watch_op) : list (Z * watch_notify_type) :=
  match o with Notify id ty => [(id, ty)] | _ => [] end.
(** Whether the operation acknowledges what is waiting. *)
Definition acknowledges (o : watch_op) w : bool :=
  match o with Check _ ack _ => ack =? sequence_ w | _ => false end.

Definition answered (a : answer) : list (Z * watch_notify_type) := zip (updated_list a) (updated_type_list a).

Lemma next_sequence_spec w :
  0 <= sequence_ w < 2 ^ 32 -> 0 < sequence_ (next_sequence w) < 2 ^ 32.
Proof.
  intros Hs. unfold next_sequence. cbn [sequence_ set const].
  pose proof (wrap_range 32 (sequence_ w + 1)). case_match; lia.
Qed.

Lemma copy_all ids types a :
  length ids = length types ->
  copy ids types a = Some (a <| updated_list ::= fun l => l ++ ids |>
                             <| updated_type_list ::= fun l => l ++ types |>).
Proof.
  intros Hl. unfold copy. destruct (Nat.ltb_spec (length types) (length ids)); [lia|].
  by rewrite Hl, firstn_all.
Qed.

(** Handing out the pending updates, when nothing else waits. *)
Lemma hand_out w :
  watch_wf w -> updated_list_ w <> [] -> wait_updated_list_ w = [] ->
  exists a, copy (updated_list_ w) (updated_type_list_ w) no_answer = Some a /\
    updated_list a = updated_list_ w /\ updated_type_list a = updated_type_list_ w /\
    watch_wf (next_sequence (swap_lists w)) /\
    waiting (next_sequence (swap_lists w)) = pending w /\
    pending (next_sequence (swap_lists w)) = [] /\ waiting w = [].
Proof.
  intros [Hu Hw Hs _] Hne He. rewrite copy_all by done. eexists. split; [done|].
  unfold waiting, pending. cbn. rewrite He. split_and!; [done..| |done|done|done].
  pose proof (next_sequence_spec (swap_lists w) Hs). cbn in *.
  rewrite He in Hw. split; cbn; rewrite ?He; done || lia.
Qed.

(** What one operation answers and what it leaves. *)
Lemma watch_step_spec o w :
  watch_wf w ->
  exists a calls w', watch_step o w = Some (a, calls, w') /\ watch_wf w' /\
    (if acknowledges o w then [] else waiting w) ++ pending w ++ notified o = waiting w' ++ pending w' /\
    length (updated_list a) = length (updated_type_list a) /\
    (answered a = [] \/ answered a = waiting w' /\ sequence a = Some (sequence_ w')).
Proof.
  intros Hwf. pose proof Hwf as [Hu Hw Hs Hs0].
  destruct o as [id ty|sp ack e|sp]; cbn [watch_step acknowledges notified].
  - unfold notify_watch. set (w1 := set updated_type_list_ _ _).
    assert (watch_wf w1 /\ waiting w1 ++ pending w1 = waiting w ++ pending w ++ [(id, ty)]) as [Hwf1 Hp].
    { split; [split; cbn; rewrite ?length_app; try done; cbn; lia|].
      unfold waiting, pending, w1. cbn. unfold const. rewrite zip_with_app by done. done. }
    destruct (lock alive w1) as [p|]; (do 3 eexists; split; [done|]); (split; [by destruct Hwf1|]);
      (split; [symmetry; exact Hp|]); (split; [done|by left]).
  - unfold check_and_set_callback. set (w1 := set expire_time_ _ _).
    change (wait_updated_list_ w1) with (wait_updated_list_ w).
    change (sequence_ w1) with (sequence_ w).
    destruct (bool_decide_reflect (wait_updated_list_ w = [])) as [He|Hne]; cbn [negb andb].
    + assert (waiting w = []) as Hwait by (unfold waiting; by rewrite He).
      replace (if ack =? sequence_ w then [] else waiting w) with (waiting w) by (rewrite Hwait; by case_match).
      destruct (Nat.ltb_spec 0 (length (updated_list_ w1))) as [Hl|Hl].
      * destruct (hand_out w1) as (a&->&Ha1&Ha2&Hwf'&Hw'&Hp'&_); [by destruct Hwf|intros E; rewrite E in Hl; cbn in Hl; lia|done|].
        do 3 eexists. split; [done|]. split; [done|]. rewrite Hw', Hp', Hwait, !app_nil_r. cbn [app].
        split; [done|]. split; [cbn; rewrite Ha1, Ha2; apply Hwf|]. right. split; [|done].
        unfold answered. cbn. by rewrite Ha1, Ha2.
      * do 3 eexists. split; [done|]. split; [by destruct Hwf|]. rewrite app_nil_r.
        split; [done|]. split; [done|by left].
    + destruct (Z.eqb_spec ack (sequence_ w)) as [->|Hack]; cbn [negb].
      * set (w2 := set wait_updated_type_list_ _ _).
        assert (watch_wf w2) as Hwf2 by (split; cbn; done).
        destruct (Nat.ltb_spec 0 (length (updated_list_ w2))) as [Hl|Hl].
        -- destruct (hand_out w2) as (a&->&Ha1&Ha2&Hwf'&Hw'&Hp'&_); [done|intros E; rewrite E in Hl; cbn in Hl; lia|done|].
           do 3 eexists. split; [done|]. split; [done|]. rewrite Hw', Hp', !app_nil_r. cbn [app].
           split; [done|]. split; [cbn; rewrite Ha1, Ha2; apply Hwf|]. right. split; [|done].
           unfold answered. cbn. by rewrite Ha1, Ha2.
        -- do 3 eexists. split; [done|]. split; [by destruct Hwf2|]. rewrite app_nil_r.
           split; [done|]. split; [done|by left].
      * change (wait_updated_type_list_ w1) with (wait_updated_type_list_ w).
        rewrite copy_all by done. do 3 eexists. split; [done|]. split; [by destruct Hwf|].
        rewrite app_nil_r. split; [done|]. split; [cbn; done|]. right. done.
  - unfold check_and_clear_callback. destruct (bool_decide_reflect (sp = lock alive w)) as [_|_].
    + destruct (Nat.ltb_spec 0 (length (updated_list_ w))) as [Hl|Hl];
        destruct (bool_decide_reflect (wait_updated_list_ w = [])) as [He|Hne]; cbn [andb].
      * destruct (hand_out w) as (a&->&Ha1&Ha2&Hwf'&Hw'&Hp'&Hwait); [done|intros E; rewrite E in Hl; cbn in Hl; lia|done|].
        do 3 eexists. split; [done|]. split; [by destruct Hwf'|].
        change (waiting (set wp_ _ _)) with (waiting (next_sequence (swap_lists w))).
        change (pending (set wp_ _ _)) with (pending (next_sequence (swap_lists w))).
        rewrite Hw', Hp', Hwait, !app_nil_r. cbn [app].
        split; [done|]. split; [cbn; rewrite Ha1, Ha2; apply Hwf|]. right. split; [|done].
        unfold answered. cbn. by rewrite Ha1, Ha2.
      * do 3 eexists. split; [done|]. split; [by destruct Hwf|]. rewrite app_nil_r. split; [done|]. split; [done|by left].
      * do 3 eexists. split; [done|]. split; [by destruct Hwf|]. rewrite app_nil_r. split; [done|]. split; [done|by left].
      * do 3 eexists. split; [done|]. split; [by destruct Hwf|]. rewrite app_nil_r. split; [done|]. split; [done|by left].
    + do 3 eexists. split; [done|]. split; [done|]. rewrite app_nil_r. split; [done|]. split; [done|by left].
Qed.

(** A run of operations: the answers, each with the updates that were
    acknowledged by then, and the updates acknowledged in all. *)
Fixpoint watch_run (os : list watch_op) w (acked : list (Z * watch_notify_type))
    : option (list (answer * list (Z * watch_notify_type)) * watch * list (Z * watch_notify_type)) :=
  match os with
  | [] => Some ([], w, acked)
  | o :: os =>
      let acked := acked ++ if acknowledges o w then waiting w else [] in
      match watch_step o w with
      | Some (a, _, w) =>
          match watch_run os w acked with
          | Some (rs, w, all) => Some ((a, acked) :: rs, w, all)
          | None => None
          end
      | None => None
      end
  end.

Lemma watch_run_spec os w acked :
  watch_wf w ->
  exists rs w' all, watch_run os w acked = Some (rs, w', all) /\ watch_wf w' /\
    let total := acked ++ waiting w ++ pending w ++ concat (map notified os) in
    total = all ++ waiting w' ++ pending w' /\
    Forall (fun '(a, k) => answered a = [] \/ exists rest, total = k ++ answered a ++ rest) rs.
Proof.
  revert w acked. induction os as [|o os IH]; intros w acked Hwf; cbn [watch_run map concat].
  - exists [], w, acked. rewrite app_nil_r. split_and!; [done|apply Hwf..|done|constructor].
  - destruct (watch_step_spec o w Hwf) as (a&calls&w1&Hst&Hwf1&Hp&_&Ha). rewrite Hst.
    set (acked1 := acked ++ if acknowledges o w then waiting w else []).
    destruct (IH w1 acked1 Hwf1) as (rs&w2&all&Hrun&Hwf2&Htot&Hans). rewrite Hrun.
    exists ((a, acked1) :: rs), w2, all. split; [done|]. split; [done|].
    assert (acked ++ waiting w ++ pending w ++ notified o ++ concat (map notified os)
            = acked1 ++ waiting w1 ++ pending w1 ++ concat (map notified os)) as Heq.
    { unfold acked1. transitivity ((acked ++ (if acknowledges o w then waiting w else [])) ++
        ((if acknowledges o w then [] else waiting w) ++ pending w ++ notified o) ++ concat (map notified os)).
      - by destruct (acknowledges o w); rewrite <- !app_assoc.
      - rewrite Hp. by rewrite <- !app_assoc. }
    cbn zeta. rewrite Heq. split; [done|]. constructor; [|done].
    destruct Ha as [->|[-> _]]; [by left|right]. eexists. done.
Qed.
End history.

(** ** Properties *)

(** C19. A watch loses, reorders and repeats no update: over any run of
    notifications, checks and cleared callbacks on a new watch, the updates it
    was notified of are, in order, those the peer has acknowledged, those handed
    out and not yet acknowledged, and those still pending; and every non-empty
    answer hands out the first updates that were not acknowledged. *)
Theorem watch_no_lost_updates alive watch_id expire_time os :
  exists rs w acked,
    watch_run alive os (init watch_id expire_time) [] = Some (rs, w, acked) /\
    concat (map notified os) = acked ++ waiting w ++ pending w /\
    Forall (fun '(a, k) => answered a = [] \/
              exists rest, concat (map notified os) = k ++ answered a ++ rest) rs.
Proof.
  assert (watch_wf (init watch_id expire_time)) as Hwf by (split; cbn; done || lia).
  destruct (watch_run_spec alive os (init watch_id expire_time) [] Hwf) as (rs&w&all&Hr&_&Ht&Ha).
  exists rs, w, all. split; [done|]. by split.
Qed.

(** A peer that waits is called back: when a check finds nothing to hand
    out, its sink is remembered, the sink that waited before is called, and the
    next update calls the new one, once, if it still lives. *)
Theorem watch_calls_back alive w p ack e id ty id' ty' :
  updated_list_ w = [] -> wait_updated_list_ w = [] \/ ack = sequence_ w ->
  exists a calls w1,
    check_and_set_callback alive (Some p) ack e no_answer w = Some (a, calls, w1) /\
    sequence a = Some 0 /\ calls = match lock alive w with Some q => [(q, watch_id_ w)] | None => [] end /\
    (alive p = true ->
       (notify_watch alive id ty w1).1 = [(p, watch_id_ w)] /\
       (notify_watch alive id' ty' (notify_watch alive id ty w1).2).1 = []).
Proof.
  intros Hu Hw. unfold check_and_set_callback. cbn [wait_updated_list_ sequence_ set const].
  assert (negb (bool_decide (wait_updated_list_ w = [])) && negb (ack =? sequence_ w) = false) as ->.
  { destruct Hw as [-> | ->]; [done|]. rewrite Z.eqb_refl. apply andb_false_r. }
  set (w2 := if bool_decide _ then _ else _).
  assert (updated_list_ w2 = [] /\ watch_id_ w2 = watch_id_ w /\ lock alive w2 = lock alive w) as (Hu2&Hid&Hl).
  { unfold w2. case_match; done. }
  rewrite Hu2. cbn [length Nat.ltb Nat.leb]. do 3 eexists. split; [done|]. split; [done|].
  rewrite Hl, Hid. split; [done|]. intros Hp.
  unfold notify_watch, lock. cbn. rewrite Hp. cbn. by rewrite Hid.
Qed.

Lemma watch_calls_back_witness :
  exists a calls w1,
    check_and_set_callback (fun _ => true) (Some 2%positive) 0 50 no_answer
      ((init 9 30) <| wp_ := Some 1%positive |>) = Some (a, calls, w1) /\ calls = [(1%positive, 9)] /\
    (notify_watch (fun _ => true) 77 WATCH_NOTIFY_TYPE_DELETED w1).1 = [(2%positive, 9)].
Proof.
  destruct (watch_calls_back (fun _ => true) ((init 9 30) <| wp_ := Some 1%positive |>) 2%positive 0 50
    77 WATCH_NOTIFY_TYPE_DELETED 78 WATCH_NOTIFY_TYPE_EXPIRED) as (a&calls&w1&Hc&_&Hcalls&Hn).
  - done.
  - by left.
  - exists a, calls, w1. split; [exact Hc|]. split; [exact Hcalls|]. by apply Hn.
Defined.
