(* ===== verification/Slab.v ===== *)
(** * Size classes, [Cache_Mgr::init] and [Cache_Mgr::get_class_id] of [src/src/cache.cpp]

    Items are allocated in classes of fixed sizes, each about [factor] times the
    one before.  [factor] is a [double]: the arithmetic of the table is binary64
    arithmetic, rounded to nearest, of the library's [SpecFloat]. *)

From S2P Require Import Prelude.
From Stdlib Require Import SpecFloat FloatOps.

(** ** binary64 *)
Module Double.
Definition of_Z (z : Z) : spec_float := binary_normalize 53 1024 z 0 false.
Definition mul : spec_float -> spec_float -> spec_float := SFmul 53 1024.
Definition div : spec_float -> spec_float -> spec_float := SFdiv 53 1024.
Definition leb : spec_float -> spec_float -> bool := SFleb.
(** [(uint32_t)x], for an [x] it can represent; otherwise undefined. *)
Definition to_u32 (x : spec_float) : option Z :=
  let z := match x with
           | S754_zero _ => Some 0
           | S754_finite false m e => Some (if e >=? 0 then Zpos m * 2 ^ e else Zpos m / 2 ^ (- e))
           | _ => None
           end in
  match z with Some z => if z <? 2 ^ 32 then Some z else None | None => None end.
End Double.

Definition sizeof_Cache_Item : Z := 80.
Definition CHUNK_ALIGN_BYTES : Z := 8.
Definition CLASSID_MIN : Z := 1.
Definition CLASSID_MAX : Z := 200.

(** The members of [Cache_Mgr] about classes, [cache.h] lines 270-276. *)
Record slab := mkslab {
  max_size_ : list Z;
  class_id_max_ : Z;
  last_class_id_ : Z;
  free_cache_max_count : list Z
}.

Module Slab.
(** The constructor, lines 118-125 and 140. *)
Definition start : slab :=
  mkslab (replicate 200 0) 0 CLASSID_MIN (replicate 200 0).

(** An assignment to an element of an array; none past its end. *)
Definition assign (l : list Z) (i v : Z) : option (list Z) :=
  if (Z.to_nat i <? length l)%nat then Some (<[Z.to_nat i := v]> l) else None.

(** [size += CHUNK_ALIGN_BYTES - (size % CHUNK_ALIGN_BYTES)], lines 157-159. *)
Definition align (size : Z) : Z :=
  if size mod CHUNK_ALIGN_BYTES =? 0 then size
  else u32 (size + (CHUNK_ALIGN_BYTES - size mod CHUNK_ALIGN_BYTES)).

(** The loop of [init], lines 155-170; it ends at [CLASSID_MAX] at the latest. *)
Fixpoint init_loop (fuel : nat) (limit factor : spec_float) (size : Z) (s : slab) : option slab :=
  match fuel with
  | O => None
  | S fuel =>
      if (class_id_max_ s <? CLASSID_MAX) && Double.leb (Double.of_Z size) limit then
        let size := align size in
        let id := class_id_max_ s in
        let n := 1024 * 1024 / size in
        let n := if n >? 1000 then 1000 else n in
        match assign (max_size_ s) id size, assign (free_cache_max_count s) id n,
              Double.to_u32 (Double.mul (Double.of_Z size) factor) with
        | Some ms, Some fc, Some size =>
            init_loop fuel limit factor size
              (s <| max_size_ := ms |> <| free_cache_max_count := fc |> <| class_id_max_ := id + 1 |>)
        | _, _, _ => None
        end
      else Some s
  end.

(** Lines 146-172, without [mem_limit_]. *)
Definition init (item_size_max item_size_min : Z) (factor : spec_float) (s : slab) : option slab :=
  let size := u32 (sizeof_Cache_Item + item_size_min) in
  let limit := Double.div (Double.of_Z (sizeof_Cache_Item + item_size_max)) factor in
  match init_loop 201 limit factor size (s <| class_id_max_ := CLASSID_MIN |>) with
  | Some s =>
      match assign (max_size_ s) (class_id_max_ s) (u32 (sizeof_Cache_Item + item_size_max)) with
      | Some ms => Some (s <| max_size_ := ms |>)
      | None => None
      end
  | None => None
  end.

(** Reading an element of an array. *)
Definition at_ (l : list Z) (i : Z) : option Z := if i <? 0 then None else l !! Z.to_nat i.

(** [get_class_id], lines 176-199: the two loops, and the function. *)
Fixpoint down (fuel : nat) (ms : list Z) (size class_id : Z) : option Z :=
  match fuel with
  | O => None
  | S fuel =>
      if class_id >=? CLASSID_MIN then
        match at_ ms (class_id - 1) with
        | Some m => if size >? m then Some class_id else down fuel ms size (class_id - 1)
        | None => None
        end
      else Some class_id
  end.
(** The class found, or [Some None] if there is none. *)
Fixpoint up (fuel : nat) (ms : list Z) (id_max size class_id : Z) : option (option Z) :=
  match fuel with
  | O => None
  | S fuel =>
      if class_id <=? id_max then
        match at_ ms class_id with
        | Some m => if size <=? m then Some (Some class_id) else up fuel ms id_max size (class_id + 1)
        | None => None
        end
      else Some None
  end.
Definition get_class_id (size : Z) : ST slab Z :=
  s ← gets id;
  let class_id := last_class_id_ s in
  m ← the (at_ (max_size_ s) class_id);
  if size <? m then
    m1 ← the (at_ (max_size_ s) (class_id - 1));
    if size >? m1 then mret class_id
    else
      class_id ← the (down 201 (max_size_ s) size (class_id - 1));
      modify (fun s => s <| last_class_id_ := class_id |>);;
      mret class_id
  else
    r ← the (up 201 (max_size_ s) (class_id_max_ s) size class_id);
    match r with
    | Some class_id => modify (fun s => s <| last_class_id_ := class_id |>);; mret class_id
    | None => mret 0
    end.
End Slab.

(** ** The table is sound

    The sizes grow strictly from [0] at index 0 to the largest class, and every
    index the code uses is inside the array. *)
Definition size_of (s : slab) (i : Z) : Z := default 0 (max_size_ s !! Z.to_nat i).

Record slab_wf (s : slab) : Prop := {
  wf_length : length (max_size_ s) = 200%nat;
  wf_counts : length (free_cache_max_count s) = 200%nat;
  wf_zero : size_of s 0 = 0;
  wf_max : 1 <= class_id_max_ s <= 199;
  wf_last : 0 <= last_class_id_ s <= class_id_max_ s;
  wf_grow : forall i, 1 <= i <= class_id_max_ s -> size_of s (i - 1) < size_of s i
}.

(** Everything of the table but the class found last. *)
Definition same_classes (s s' : slab) : Prop :=
  s' = s <| last_class_id_ := last_class_id_ s' |>.

(** The class of a size: the least that fits, or 0. *)
Definition class_for (s : slab) (size c : Z) : Prop :=
  (1 <= c <= class_id_max_ s /\ size_of s (c - 1) < size <= size_of s c) \/
  (c = 0 /\ (size = 0 \/ size_of s (class_id_max_ s) < size)).

(** The table as a computation: an interval of classes checked one by one. *)
Fixpoint growing (ms : list Z) (n : nat) : bool :=
  match n, ms with
  | S n, a :: (b :: _) as ms => (a <? b) && growing ms n
  | O, _ => true
  | _, _ => false
  end.
Definition slab_ok (s : slab) : bool :=
  (length (max_size_ s) =? 200)%nat && (length (free_cache_max_count s) =? 200)%nat &&
  (size_of s 0 =? 0) && (1 <=? class_id_max_ s) && (class_id_max_ s <=? 199) &&
  (0 <=? last_class_id_ s) && (last_class_id_ s <=? class_id_max_ s) &&
  growing (max_size_ s) (Z.to_nat (class_id_max_ s)).

Module SlabFacts.
Import Slab.

Lemma at_size_of s i : slab_wf s -> 0 <= i <= class_id_max_ s -> at_ (max_size_ s) i = Some (size_of s i).
Proof.
  intros [Hl _ _ Hm _ _] Hi. unfold at_, size_of. destruct (Z.ltb_spec i 0); [lia|].
  destruct (lookup_lt_is_Some_2 (max_size_ s) (Z.to_nat i)) as [m Hm']; [lia|]. by rewrite Hm'.
Qed.

Lemma size_of_mono s i j : slab_wf s -> 0 <= i <= j -> j <= class_id_max_ s -> size_of s i <= size_of s j.
Proof.
  intros Hwf Hij Hj. replace j with (i + Z.of_nat (Z.to_nat (j - i))) in * by lia.
  set (n := Z.to_nat (j - i)) in *. clearbody n. assert (0 <= i) as Hi by lia. clear Hij.
  induction n as [|n IH]; [by rewrite Z.add_0_r|].
  pose proof (wf_grow _ Hwf (i + Z.of_nat (S n)) ltac:(split; lia)) as Hg.
  replace (i + Z.of_nat (S n) - 1) with (i + Z.of_nat n) in Hg by lia. specialize (IH ltac:(lia)). lia.
Qed.

Lemma growing_at ms n i a b :
  growing ms n = true -> (i < n)%nat -> ms !! i = Some a -> ms !! S i = Some b -> a < b.
Proof.
  revert ms i. induction n as [|n IH]; intros [|x [|y ms]] i Hg Hi Ha Hb; try done; try lia.
  cbn [growing] in Hg. apply andb_prop in Hg as [Hxy Hg]. destruct i as [|i].
  - injection Ha as ->. injection Hb as ->. by apply Z.ltb_lt.
  - eapply (IH (y :: ms) i); [done|lia|exact Ha|exact Hb].
Qed.

Lemma slab_ok_wf s : slab_ok s = true -> slab_wf s.
Proof.
  unfold slab_ok. intros H. repeat (apply andb_prop in H as [H ?]).
  repeat match goal with
         | H : (_ =? _)%nat = true |- _ => apply Nat.eqb_eq in H
         | H : (_ =? _) = true |- _ => apply Z.eqb_eq in H
         | H : (_ <=? _) = true |- _ => apply Z.leb_le in H
         end.
  split; try done. intros i Hi.
  destruct (lookup_lt_is_Some_2 (max_size_ s) (Z.to_nat (i - 1))) as [a Ha]; [lia|].
  destruct (lookup_lt_is_Some_2 (max_size_ s) (Z.to_nat i)) as [b Hb]; [lia|].
  unfold size_of. rewrite Ha, Hb. cbn. eapply (growing_at _ _ (Z.to_nat (i - 1))); [eassumption|lia|exact Ha|].
  by replace (S (Z.to_nat (i - 1))) with (Z.to_nat i) by lia.
Qed.

Lemma down_spec s fuel size c :
  slab_wf s -> 0 <= size -> 0 <= c < class_id_max_ s -> (Z.to_nat c < fuel)%nat -> size <= size_of s c ->
  exists r, down fuel (max_size_ s) size c = Some r /\ 0 <= r <= c /\
    ((r = 0 /\ size = 0) \/ (1 <= r /\ size_of s (r - 1) < size <= size_of s r)).
Proof.
  intros Hwf H0. revert c. induction fuel as [|fuel IH]; intros c Hc Hf Hs; [lia|]. cbn [down].
  unfold CLASSID_MIN. destruct (Z.geb_spec c 1).
  - rewrite at_size_of by (done || lia). destruct (Z.gtb_spec size (size_of s (c - 1))).
    + exists c. split; [done|]. split; [lia|right; lia].
    + destruct (IH (c - 1)) as (r&Hr&Hrc&Hd); [lia..|]. exists r. split; [done|]. split; [lia|done].
  - assert (c = 0) as -> by lia. exists 0. split; [done|]. split; [lia|left].
    rewrite (wf_zero _ Hwf) in Hs. lia.
Qed.

Lemma up_spec s fuel size c :
  slab_wf s -> 0 <= c -> c = 0 \/ size_of s (c - 1) < size ->
  0 < size -> c <= class_id_max_ s + 1 -> (Z.to_nat (class_id_max_ s + 1 - c) < fuel)%nat ->
  exists r, up fuel (max_size_ s) (class_id_max_ s) size c = Some r /\
    match r with
    | Some r => 1 <= r <= class_id_max_ s /\ size_of s (r - 1) < size <= size_of s r
    | None => size_of s (class_id_max_ s) < size
    end.
Proof.
  intros Hwf H0 Hlt Hpos. revert c H0 Hlt. induction fuel as [|fuel IH]; intros c H0 Hlt Hc Hf; [lia|].
  cbn [up]. destruct (Z.leb_spec c (class_id_max_ s)).
  - rewrite at_size_of by (done || lia). destruct (Z.leb_spec size (size_of s c)).
    + exists (Some c). split; [done|]. destruct Hlt as [-> |Hlt]; [rewrite (wf_zero _ Hwf) in *; lia|].
      assert (c <> 0) by (intros ->; rewrite (wf_zero _ Hwf) in *; lia). lia.
    + apply IH; [lia|right; replace (c + 1 - 1) with c by lia; lia|lia..].
  - assert (c = class_id_max_ s + 1) as -> by lia. exists None. split; [done|].
    destruct Hlt as [? |Hlt]; [pose proof (wf_max _ Hwf); lia|].
    by replace (class_id_max_ s + 1 - 1) with (class_id_max_ s) in Hlt by lia.
Qed.

Lemma get_class_id_spec s size :
  slab_wf s -> 0 <= size ->
  wp (get_class_id size) s (fun c s' => slab_wf s' /\ same_classes s s' /\ class_for s size c).
Proof.
  intros Hwf Hpos. pose proof (wf_last _ Hwf) as Hl. pose proof (wf_max _ Hwf) as Hm.
  assert (forall c, 0 <= c <= class_id_max_ s -> slab_wf (s <| last_class_id_ := c |>)) as Hset.
  { intros c Hc. destruct Hwf. by split. }
  unfold get_class_id. do 2 wp_step. unfold id. wp_steps.
  eapply wp_the; [by apply at_size_of|]. destruct (Z.ltb_spec size (size_of s (last_class_id_ s))) as [Hlt|Hge].
  - assert (last_class_id_ s <> 0) by (intros E; rewrite E, (wf_zero _ Hwf) in Hlt; lia).
    wp_steps. eapply wp_the; [apply at_size_of; [done|lia]|].
    destruct (Z.gtb_spec size (size_of s (last_class_id_ s - 1))).
    + wp_steps. split; [done|]. split; [by destruct s|left; lia].
    + destruct (down_spec s 201 size (last_class_id_ s - 1)) as (r&Hr&Hrc&Hd); [done|lia..|].
      wp_steps. split; [apply Hset; lia|]. split; [by destruct s|].
      destruct Hd as [[-> ->]|Hd]; [right; auto|left; lia].
  - destruct (decide (size = 0)) as [-> |Hnz].
    + assert (last_class_id_ s = 0) as E.
      { destruct (decide (last_class_id_ s = 0)); [done|].
        pose proof (size_of_mono s 0 (last_class_id_ s - 1) Hwf ltac:(lia) ltac:(lia)).
        pose proof (wf_grow _ Hwf (last_class_id_ s) ltac:(lia)). rewrite (wf_zero _ Hwf) in *. lia. }
      rewrite E. wp_steps. eapply wp_the.
      { cbn [up]. destruct (Z.leb_spec 0 (class_id_max_ s)); [|lia].
        rewrite at_size_of by (done || lia). rewrite (wf_zero _ Hwf). reflexivity. }
      wp_steps. split; [apply Hset; lia|]. split; [by destruct s|right; auto].
    + destruct (up_spec s 201 size (last_class_id_ s)) as (r&Hr&Hd); [done|lia| |lia|lia|lia|].
      { destruct (decide (last_class_id_ s = 0)); [by left|right].
        pose proof (wf_grow _ Hwf (last_class_id_ s) ltac:(lia)). lia. }
      wp_steps. destruct r as [r|]; wp_steps.
      * split; [apply Hset; lia|]. split; [by destruct s|left; lia].
      * split; [done|]. split; [by destruct s|right; auto].
Qed.
End SlabFacts.

(** ** Properties *)

(** The settings [Settings::init] starts with, [settings.cpp]: items of at most
    5 MiB, at least 48 bytes, classes that grow by a quarter. *)
Definition five_quarters : spec_float := Double.div (Double.of_Z 5) (Double.of_Z 4).
Definition default_slab : option slab := Slab.init (5 * 1024 * 1024) 48 five_quarters Slab.start.

(** With the default settings the table of classes has 48 strictly growing
    sizes, multiples of 8 up to the last, and every index stays inside it. *)
Theorem default_classes_sound :
  exists s, default_slab = Some s /\ slab_wf s /\ class_id_max_ s = 48 /\
    size_of s 1 = sizeof_Cache_Item + 48 /\ size_of s 48 = sizeof_Cache_Item + 5 * 1024 * 1024 /\
    Forall (fun m => m mod CHUNK_ALIGN_BYTES = 0) (max_size_ s).
Proof.
  eexists. split; [by vm_compute|]. split; [apply SlabFacts.slab_ok_wf; by vm_compute|].
  do 3 (split; [by vm_compute|]). apply (bool_decide_unpack _). by vm_compute.
Qed.

(** C27. The class of a size is the least whose items can hold it, or 0 if none
    can, whatever class was asked for before: the search from the last class
    found agrees with a search of the whole table. *)
Theorem get_class_id_least s size :
  slab_wf s -> 0 <= size ->
  wp (Slab.get_class_id size) s (fun c s' =>
    slab_wf s' /\ same_classes s s' /\
    (c = 0 <-> size = 0 \/ forall i, 1 <= i <= class_id_max_ s -> size_of s i < size) /\
    (c <> 0 -> 1 <= c <= class_id_max_ s /\ size <= size_of s c /\
               forall i, 1 <= i < c -> size_of s i < size)).
Proof.
  intros Hwf Hpos. pose proof (wf_max _ Hwf). eapply wp_mono; [by apply SlabFacts.get_class_id_spec|].
  intros c s' (Hwf'&Hs&Hc). split; [done|]. split; [done|].
  pose proof (fun i j => SlabFacts.size_of_mono s i j Hwf) as Hmono.
  destruct Hc as [[Hc Hb]|[-> Hb]].
  - split; [split; [lia|]|].
    + intros [-> |Hall].
      * pose proof (Hmono 0 (c - 1)). rewrite (wf_zero _ Hwf) in *. lia.
      * specialize (Hall c). lia.
    + intros _. split; [done|]. split; [lia|]. intros i Hi. pose proof (Hmono i (c - 1)). lia.
  - split; [|done]. split; [|done]. intros _. destruct Hb as [-> |Hb]; [by left|right].
    intros i Hi. pose proof (Hmono i (class_id_max_ s)). lia.
Qed.

Lemma get_class_id_least_witness :
  exists s, default_slab = Some s /\
    wp (Slab.get_class_id 161) s (fun c _ => c <> 0 -> 161 <= size_of s c).
Proof.
  eexists. split; [by vm_compute|]. eapply wp_mono.
  - apply (get_class_id_least _ 161); [apply SlabFacts.slab_ok_wf; by vm_compute|lia].
  - intros c s' (_&_&_&H) Hc. by apply H.
Defined.

(** [init] writes past the end of [max_size_] when the classes grow too
    slowly: a factor of 1.01, which the settings accept, fills all 200 entries
    and then assigns the size of the largest item to a 201st. *)
Theorem init_slow_factor_out_of_bounds :
  Slab.init (5 * 1024 * 1024) 48 (Double.div (Double.of_Z 101) (Double.of_Z 100)) Slab.start = None.
Proof. by vm_compute. Qed.
