(* ===== verification/Cache.v ===== *)
(** * The cache, class [Cache_Mgr] of [src/src/cache.h] and [src/src/cache.cpp]

    Items live in a heap of allocations; they are found through the hash map of
    chains ([XixiHashMap.Buckets]), wait for their expiry in one of 34 lists, or
    for their reuse in the free list of their class.  The intrusive lists are
    read as sequences, which [XixiList.list_refines_sequence] justifies; an
    operation on a list is defined only where the pointer code is: what is
    linked is in no list, what is unlinked is in that list.

    A computation is [None] where the code has no defined behaviour: a failed
    [assert], a pointer to no live item, a copy outside an item's memory. *)

From S2P Require Import Prelude XixiList XixiHashMap Lookup3 Util CurrTime Pdu Stats Watch Slab.
Import Cache_Watch.

(** ** Items *)

(** [Cache_Item], [cache.h] lines 165-183, with the hash value of its base class
    and the memory from [body] to the end of its allocation.  [watch_item] is
    the set of watches in the order it is iterated. *)
Record Cache_Item := mk_item {
  hash_value_ : Z;
  expire_time : Z;
  watch_item : option (list Z);
  cache_id : Z;
  group_id : Z;
  flags : Z;
  data_size : Z;
  last_update_time : Z;
  ref_count : Z;
  key_length : Z;
  ext_size : Z;
  item_flag : Z;
  class_id : Z;
  expiration_id : Z;
  body : bytes
}.

(** The offset of [body] in an item. *)
Definition offsetof_body : Z := 72.

(** [memcpy] from and to an offset of [body]; none outside of it. *)
Definition mem_read (off n : Z) (b : bytes) : option bytes :=
  if (0 <=? off) && (0 <=? n) && (off + n <=? Z.of_nat (length b))
  then Some (take (Z.to_nat n) (drop (Z.to_nat off) b)) else None.
Definition mem_write (off : Z) (src b : bytes) : option bytes :=
  if (0 <=? off) && (off + Z.of_nat (length src) <=? Z.of_nat (length b))
  then Some (take (Z.to_nat off) b ++ src ++ drop (Z.to_nat off + length src) b) else None.

Module Item.
(** The constructor, lines 99-113; the memory is what [malloc] left there. *)
Definition init (memory : bytes) : Cache_Item :=
  mk_item 0 0 None 0 0 0 0 0 0 0 0 0 0 0 memory.

(** Lines 117-134; the hash value and the memory stay. *)
Definition reset (it : Cache_Item) : Cache_Item :=
  mk_item (hash_value_ it) 0 None 0 0 0 0 0 0 0 0 0 0 0 (body it).

(** The offsets of the data and of the extension, lines 150-151. *)
Definition data_at (it : Cache_Item) : Z := key_length it.
Definition ext_at (it : Cache_Item) : Z := key_length it + data_size it.

(** What the pointers of [get_key], [get_data] and [get_ext] point to, lines
    147-151. *)
Definition get_key (it : Cache_Item) : option bytes := mem_read 0 (key_length it) (body it).
Definition get_data (it : Cache_Item) : option bytes := mem_read (data_at it) (data_size it) (body it).
Definition get_ext (it : Cache_Item) : option bytes := mem_read (ext_at it) (ext_size it) (body it).

(** Line 153. *)
Definition total_size (it : Cache_Item) : Z :=
  u32 (sizeof_Cache_Item + key_length it + data_size it + ext_size it).

(** [is_key], line 146. *)
Definition is_key (group : Z) (key : bytes) (it : Cache_Item) : bool :=
  (group_id it =? group) && (key_length it =? Z.of_nat (length key)) &&
  bool_decide (get_key it = Some key).

Definition write (off : Z) (src : bytes) (it : Cache_Item) : option Cache_Item :=
  match mem_write off src (body it) with Some b => Some (it <| body := b |>) | None => None end.

(** [std::set::insert], and [add_watch], lines 158-163 and 72-74. *)
Fixpoint set_insert (w : Z) (l : list Z) : list Z :=
  match l with
  | [] => [w]
  | x :: l' => if w <? x then w :: l else if w =? x then l else x :: set_insert w l'
  end.
Definition add_watch (watch_id : Z) (it : Cache_Item) : Cache_Item :=
  it <| watch_item := Some (set_insert watch_id (default [] (watch_item it))) |>.
End Item.

(** [hash32] of a key of a group. *)
Definition hash_key (e : endian) (group : Z) (key : bytes) : Z :=
  hash32 (string_memory key) e 0 (length key) group.

Module Item_Key.
Section key.
Context (e : endian).

(** [set_key], [set_key_with_hash], [set_ext], [calc_hash_value]: lines 135-145
    and 155. *)
Definition calc_hash_value (it : Cache_Item) : option Cache_Item :=
  match Item.get_key it with
  | Some key => Some (it <| hash_value_ := hash_key e (group_id it) key |>)
  | None => None
  end.
Definition set_key (key : bytes) (it : Cache_Item) : option Cache_Item :=
  match mem_read 0 (key_length it) key with
  | Some k => match Item.write 0 k it with Some it => calc_hash_value it | None => None end
  | None => None
  end.
Definition set_key_with_hash (key : bytes) (hash_value : Z) (it : Cache_Item) : option Cache_Item :=
  match mem_read 0 (key_length it) key with
  | Some k => match Item.write 0 k it with Some it => Some (it <| hash_value_ := hash_value |>) | None => None end
  | None => None
  end.
Definition set_ext (ext : bytes) (it : Cache_Item) : option Cache_Item :=
  match mem_read 0 (ext_size it) ext with
  | Some x => Item.write (Item.ext_at it) x it
  | None => None
  end.
End key.
End Item_Key.

(** ** The state *)

(** The members of [Cache_Mgr], lines 262-289, its allocations, the clock
    [curr_time_], the counters [stats_], and the calls of
    [on_cache_watch_notify] so far. *)
Record Cache_Mgr := mk_mgr {
  heap : gmap ptr Cache_Item;
  cache_hash_map_ : Buckets.buckets;
  expire_list_ : list (list ptr);
  expire_check_time_ : list Z;
  slab_ : slab;
  free_cache_list_ : list (list ptr);
  flush_cache_list_ : list ptr;
  last_cache_id_ : Z;
  mem_limit_ : Z;
  mem_used_ : Z;
  last_print_stats_time_ : Z;
  last_check_expired_time_ : Z;
  last_watch_id_ : Z;
  watch_map_ : gmap Z watch;
  curr_time_ : Current_Time.clock;
  stats_ : stats;
  notified_ : list (sink * Z)
}.

(** [malloc] of an item: the size asked for; a pointer to none of the live
    allocations and the contents of its [body], or [NULL]. *)
Class Item_Malloc := malloc_item : gset ptr -> Z -> option (ptr * bytes).

Abbreviation M := (ST Cache_Mgr).

(** The lists of items. *)
Inductive list_name := Expire (i : Z) | Free (i : Z) | Flush.

Module Lists.
Definition all (s : Cache_Mgr) : list (list ptr) :=
  expire_list_ s ++ free_cache_list_ s ++ [flush_cache_list_ s].
Definition linked (p : ptr) (s : Cache_Mgr) : bool := existsb (fun l => bool_decide (p ∈ l)) (all s).

Definition get (n : list_name) (s : Cache_Mgr) : option (list ptr) :=
  match n with
  | Expire i => if i <? 0 then None else expire_list_ s !! Z.to_nat i
  | Free i => if i <? 0 then None else free_cache_list_ s !! Z.to_nat i
  | Flush => Some (flush_cache_list_ s)
  end.
Definition put (n : list_name) (l : list ptr) (s : Cache_Mgr) : Cache_Mgr :=
  match n with
  | Expire i => s <| expire_list_ ::= <[Z.to_nat i := l]> |>
  | Free i => s <| free_cache_list_ ::= <[Z.to_nat i := l]> |>
  | Flush => s <| flush_cache_list_ := l |>
  end.
Definition load (n : list_name) : M (list ptr) := l ← gets (get n); the l.

Definition front (n : list_name) : M (option ptr) := l ← load n; mret (head l).
Definition size (n : list_name) : M Z := l ← load n; mret (u32 (Z.of_nat (length l))).
Definition next (n : list_name) (p : ptr) : M (option ptr) :=
  l ← load n; assert_ (bool_decide (p ∈ l));; mret (succ_in p l).
Definition push_front (n : list_name) (p : ptr) : M unit :=
  l ← load n; b ← gets (linked p); assert_ (negb b);; modify (put n (Seq.push_front p l)).
Definition push_back (n : list_name) (p : ptr) : M unit :=
  l ← load n; b ← gets (linked p); assert_ (negb b);; modify (put n (Seq.push_back p l)).
Definition pop_front (n : list_name) : M (option ptr) :=
  l ← load n; modify (put n (Seq.pop_front l).2);; mret (Seq.pop_front l).1.
Definition remove (n : list_name) (p : ptr) : M unit :=
  l ← load n; assert_ (bool_decide (p ∈ l));; modify (put n (Seq.remove p l)).

(** [is_linked]: it has a neighbour, in whatever list, or is all of this one. *)
Definition is_linked (n : list_name) (p : ptr) : M bool :=
  l ← load n; s ← gets id;
  mret (bool_decide (l = [p]) ||
        existsb (fun l => bool_decide (p ∈ l) && (2 <=? length l)%nat) (all s)).
End Lists.

(** What the settings give: [Settings] is read once at start-up. *)
Record settings := mk_settings {
  max_bytes : Z;
  num_threads : Z;
  max_stats_group : Z
}.

(** ** The operations *)
Module Mgr.
Section mgr.
Context (e : endian) `{Table_Malloc} `{Item_Malloc} (alive : sink -> bool) (conf : settings).

Definition now : M Z := c ← gets curr_time_; mret (Current_Time.get_current_time c).
Definition realtime (expiration : Z) : M Z := t ← now; mret (Current_Time.realtime t expiration).
Definition stat (group : Z) (ev : event) : M unit :=
  on stats_ (fun st s => s <| stats_ := st |>) (record group ev).
Definition item (p : ptr) : M Cache_Item := it ← gets (fun s => heap s !! p); the it.
Definition update (p : ptr) (f : Cache_Item -> Cache_Item) : M unit :=
  it ← item p; modify (fun s => s <| heap ::= <[p := f it]> |>).
Definition update_opt (p : ptr) (f : Cache_Item -> option Cache_Item) : M unit :=
  it ← item p; it ← the (f it); modify (fun s => s <| heap ::= <[p := it]> |>).
(** Reading an element of an array member. *)
Definition elem (l : Cache_Mgr -> list Z) (i : Z) : M Z := l ← gets l; the (Slab.at_ l i).

(** [CALC_ITEM_SIZE], a [size_t], as the [uint32_t] it becomes. *)
Definition CALC_ITEM_SIZE (k d x : Z) : Z := u32 (sizeof_Cache_Item + k + d + x).

Definition get_class_id (size : Z) : M Z :=
  on slab_ (fun sl s => s <| slab_ := sl |>) (Slab.get_class_id size).

(** Lines 201-206. *)
Definition get_cache_id : M Z :=
  id ← gets last_cache_id_;
  let id := u64 (id + 1) in
  let id := if id =? 0 then 1 else id in
  modify (fun s => s <| last_cache_id_ := id |>);; mret id.

(** [expiration_time_], lines 133-136, and [get_expiration_id], lines 364-379:
    the loop from [i]. *)
Definition expiration_time_ : list Z := ((fun i => 2 ^ i) <$> seqZ 0 32) ++ [0xFFFFFFFF].
Fixpoint expiration_loop (fuel : nat) (expiration i : Z) : option Z :=
  match fuel with
  | O => None
  | S fuel =>
      if i <? 33 then
        match Slab.at_ expiration_time_ i with
        | Some t => if expiration <? t then Some (i - 1) else expiration_loop fuel expiration (i + 1)
        | None => None
        end
      else Some (i - 1)
  end.
Definition get_expiration_id (curr_time expire_time : Z) : option Z :=
  if expire_time =? 0 then Some 33
  else if expire_time >? curr_time then expiration_loop 33 (expire_time - curr_time) 1
  else Some 0.

(** Lines 299-339. *)
Definition do_alloc (group key_len flags_ expire data_len ext_len : Z) : M (option ptr) :=
  id ← get_class_id (CALC_ITEM_SIZE key_len data_len ext_len);
  if id =? 0 then mret None else
  item_size ← elem (fun s => max_size_ (slab_ s)) id;
  p ← Lists.pop_front (Free id);
  p ← match p with
      | Some p => mret (Some p)
      | None =>
          used ← gets mem_used_; limit ← gets mem_limit_;
          if u64 (used + item_size) <=? limit then
            h ← gets heap;
            match malloc_item (dom h) item_size with
            | Some (p, memory) =>
                modify (fun s => s <| heap ::= <[p := Item.init memory]> |>
                                   <| mem_used_ ::= fun u => u64 (u + item_size) |>);;
                mret (Some p)
            | None => mret None
            end
          else mret None
      end;
  match p with
  | Some p =>
      t ← now;
      x ← the (get_expiration_id t expire);
      update p (fun it => it <| class_id := u8 id |> <| expiration_id := u8 x |> <| ref_count := 1 |>
        <| group_id := group |> <| key_length := u16 key_len |> <| data_size := data_len |>
        <| expire_time := expire |> <| flags := flags_ |> <| ext_size := u8 ext_len |>);;
      mret (Some p)
  | None => mret None
  end.

(** Lines 341-358. *)
Definition free_item (p : ptr) : M unit :=
  it ← item p;
  b ← Lists.is_linked (Expire (expiration_id it)) p;
  assert_ (negb b);;
  assert_ (ref_count it =? 0);;
  let id := class_id it in
  update p Item.reset;;
  n ← Lists.size (Free id);
  m ← elem (fun s => free_cache_max_count (slab_ s)) id;
  if n <? m then Lists.push_front (Free id) p
  else
    item_size ← elem (fun s => max_size_ (slab_ s)) id;
    modify (fun s => s <| heap ::= base.delete p |> <| mem_used_ ::= fun u => u64 (u - item_size) |>).

(** Lines 360-362. *)
Definition item_size_ok (key_len data_len ext_len : Z) : M bool :=
  id ← get_class_id (CALC_ITEM_SIZE key_len data_len ext_len); mret (negb (id =? 0)).

(** The hash map sees the items of the heap. *)
Definition hv (s : Cache_Mgr) (p : ptr) : Z := from_option hash_value_ 0 (heap s !! p).
Definition has_key (group : Z) (key : bytes) (s : Cache_Mgr) (p : ptr) : bool :=
  from_option (Item.is_key group key) false (heap s !! p).
Definition map_find (group : Z) (key : bytes) (hash_value : Z) : M (option ptr) :=
  gets (fun s => Buckets.find (has_key group key s) hash_value (cache_hash_map_ s)).
Definition map_remove (group : Z) (key : bytes) (hash_value : Z) : M unit :=
  modify (fun s => s <| cache_hash_map_ :=
    (Buckets.remove (has_key group key s) hash_value (cache_hash_map_ s)).2 |>).
Definition map_insert (p : ptr) (hash_value : Z) : M unit :=
  update p (fun it => it <| hash_value_ := hash_value |>);;
  modify (fun s => s <| cache_hash_map_ := Buckets.insert (hv s) p hash_value (cache_hash_map_ s) |>).

(** Lines 381-391. *)
Definition do_link (p : ptr) : M unit :=
  it ← item p;
  map_insert p (hash_value_ it);;
  stat (group_id it) (Ev_item_link (class_id it) (Item.total_size it));;
  id ← get_cache_id;
  update p (fun it => it <| cache_id := id |>);;
  t ← now;
  update p (fun it => it <| last_update_time := t |>);;
  update p (fun it => it <| ref_count := u16 (ref_count it + 1) |>);;
  Lists.push_back (Expire (expiration_id it)) p.

(** Lines 1164-1176: the watches of the item in order; those that no longer
    exist are erased from the set. *)
Fixpoint notify_loop (id : Z) (type : watch_notify_type) (ws : list Z) : M (list Z) :=
  match ws with
  | [] => mret []
  | w :: ws =>
      m ← gets watch_map_;
      match m !! w with
      | Some watch =>
          let r := Cache_Watch.notify_watch alive id type watch in
          modify (fun s => s <| watch_map_ ::= <[w := r.2]> |> <| notified_ ::= fun l => l ++ r.1 |>);;
          ws ← notify_loop id type ws; mret (w :: ws)
      | None => notify_loop id type ws
      end
  end.
Definition notify_watch (p : ptr) (type : watch_notify_type) : M unit :=
  it ← item p;
  ws ← the (watch_item it);
  ws ← notify_loop (cache_id it) type ws;
  update p (fun it => it <| watch_item := Some ws |>).

(** Lines 427-433. *)
Definition do_release_reference (p : ptr) : M unit :=
  it ← item p;
  assert_ (ref_count it >? 0);;
  update p (fun it => it <| ref_count := u16 (ref_count it - 1) |>);;
  it ← item p;
  if ref_count it =? 0 then free_item p else mret tt.

(** The part [do_unlink] and [do_unlink_flush] share. *)
Definition take_out (p : ptr) (type : watch_notify_type) : M unit :=
  it ← item p;
  b ← Lists.is_linked (Expire (expiration_id it)) p;
  assert_ b;;
  stat (group_id it) (Ev_item_unlink (class_id it) (Item.total_size it));;
  key ← the (Item.get_key it);
  map_remove (group_id it) key (hash_value_ it);;
  Lists.remove (Expire (expiration_id it)) p;;
  match watch_item it with
  | Some _ => notify_watch p type;; update p (fun it => it <| watch_item := None |>)
  | None => mret tt
  end.
(** Lines 393-409 and 411-425. *)
Definition do_unlink (p : ptr) (type : watch_notify_type) : M unit :=
  take_out p type;; do_release_reference p.
Definition do_unlink_flush (p : ptr) : M unit :=
  take_out p WATCH_NOTIFY_TYPE_FLUSHED;; Lists.push_back Flush p.

(** Lines 435-438. *)
Definition do_replace (p new_p : ptr) : M unit :=
  do_unlink p WATCH_NOTIFY_TYPE_DATA_UPDATED;; do_link new_p.

Definition add_ref (p : ptr) : M unit := update p (fun it => it <| ref_count := u16 (ref_count it + 1) |>).

(** The three ways to get an item, lines 440-452, 454-480 and 482-497. *)
Definition do_get (group : Z) (key : bytes) (hash_value : Z) : M (option ptr) :=
  r ← map_find group key hash_value;
  match r with
  | Some p => add_ref p;; mret (Some p)
  | None => mret None
  end.
(** The item and, with an item, its expiration. *)
Definition do_get_expiration (group : Z) (key : bytes) (hash_value : Z) : M (option (ptr * Z)) :=
  r ← map_find group key hash_value;
  match r with
  | Some p =>
      it ← item p;
      if expire_time it =? 0 then add_ref p;; mret (Some (p, 0))
      else
        t ← now;
        if expire_time it >? t then add_ref p;; mret (Some (p, expire_time it - t))
        else do_unlink p WATCH_NOTIFY_TYPE_EXPIRED;; mret None
  | None => mret None
  end.
Definition do_get_touch (group : Z) (key : bytes) (hash_value expiration : Z) : M (option ptr) :=
  r ← map_find group key hash_value;
  match r with
  | Some p =>
      add_ref p;;
      t ← realtime expiration;
      update p (fun it => it <| expire_time := t |>);;
      mret (Some p)
  | None => mret None
  end.

(** ** Public operations: each holds [cache_lock_] from beginning to end *)

(** Lines 499-506. *)
Definition alloc_item (group key_len flags_ expiration data_len ext_len : Z) : M (option ptr) :=
  t ← realtime expiration;
  do_alloc group key_len flags_ t data_len ext_len.

(** Lines 671-675. *)
Definition release_reference (p : ptr) : M unit := do_release_reference p.

(** Lines 1105-1119. *)
Fixpoint watch_id_loop (n : nat) : M Z :=
  match n with
  | O => mret 0
  | S n =>
      id ← gets last_watch_id_;
      let id := u32 (id + 1) in
      let id := if id =? 0 then 1 else id in
      modify (fun s => s <| last_watch_id_ := id |>);;
      m ← gets watch_map_;
      match m !! id with None => mret id | Some _ => watch_id_loop n end
  end.
Definition get_watch_id : M Z := watch_id_loop 100.
Definition is_valid_watch_id (watch_id : Z) : M bool :=
  gets (fun s => bool_decide (is_Some (watch_map_ s !! watch_id))).
Definition add_watch (p : ptr) (watch_id : Z) : M unit := update p (Item.add_watch watch_id).

(** Lines 508-544: the item, its expiration and the reason. *)
Definition get (group : Z) (key : bytes) (watch_id : Z) (is_base : bool)
    : M (option (ptr * Z) * xixi_reason) :=
  r ← do_get_expiration group key (hash_key e group key);
  match r with
  | Some (p, expiration) =>
      it ← item p;
      if negb (watch_id =? 0) then
        valid ← is_valid_watch_id watch_id;
        if valid : bool then
          add_watch p watch_id;;
          stat group (Ev_get_hit_watch (class_id it) (Item.total_size it));;
          mret (Some (p, expiration), XIXI_REASON_SUCCESS)
        else
          stat group (Ev_get_hit_watch_miss (class_id it));;
          do_release_reference p;;
          mret (None, XIXI_REASON_WATCH_NOT_FOUND)
      else
        stat (if is_base then group_id it else group)
          (if is_base then Ev_get_base_hit (class_id it)
           else Ev_get_hit_no_watch (class_id it) (Item.total_size it));;
        mret (Some (p, expiration), XIXI_REASON_SUCCESS)
  | None =>
      stat group (if is_base then Ev_get_base_miss else Ev_get_miss);;
      mret (None, XIXI_REASON_NOT_FOUND)
  end.

(** Lines 546-577. *)
Definition get_touch (group : Z) (key : bytes) (watch_id expiration : Z)
    : M (option ptr * xixi_reason) :=
  r ← do_get_touch group key (hash_key e group key) expiration;
  match r with
  | Some p =>
      it ← item p;
      if negb (watch_id =? 0) then
        valid ← is_valid_watch_id watch_id;
        if valid : bool then
          add_watch p watch_id;;
          stat group (Ev_get_touch_hit_watch (class_id it) (Item.total_size it));;
          mret (Some p, XIXI_REASON_SUCCESS)
        else
          stat group (Ev_get_touch_hit_watch_miss (class_id it));;
          do_release_reference p;;
          mret (None, XIXI_REASON_WATCH_NOT_FOUND)
      else
        stat group (Ev_get_touch_hit_no_watch (class_id it) (Item.total_size it));;
        mret (Some p, XIXI_REASON_SUCCESS)
  | None =>
      stat group Ev_get_touch_miss;;
      mret (None, XIXI_REASON_NOT_FOUND)
  end.

(** Lines 605-635: success and the cache id; [expected] is [pdu->cache_id]. *)
Definition update_flags (group : Z) (key : bytes) (expected new_flags : Z) : M (bool * Z) :=
  r ← do_get group key (hash_key e group key);
  match r with
  | Some p =>
      it ← item p;
      if (expected =? 0) || (expected =? cache_id it) then
        update p (fun it => it <| flags := new_flags |>);;
        match watch_item it with
        | Some _ => notify_watch p WATCH_NOTIFY_TYPE_BASE_INFO_UPDATED
        | None => mret tt
        end;;
        id ← get_cache_id;
        update p (fun it => it <| cache_id := id |>);;
        t ← now;
        update p (fun it => it <| last_update_time := t |>);;
        stat (group_id it) (Ev_update_flags_success (class_id it));;
        do_release_reference p;;
        mret (true, id)
      else
        stat (group_id it) (Ev_update_flags_mismatch (class_id it));;
        mret (false, cache_id it)
  | None =>
      stat group Ev_update_flags_miss;;
      mret (false, 0)
  end.

(** Lines 637-669. *)
Definition update_expiration (group : Z) (key : bytes) (expected expiration : Z) : M (bool * Z) :=
  r ← do_get group key (hash_key e group key);
  match r with
  | Some p =>
      it ← item p;
      if (expected =? 0) || (expected =? cache_id it) then
        expire ← realtime expiration;
        t ← now;
        x ← the (get_expiration_id t expire);
        (if negb (x =? expiration_id it) then
           Lists.remove (Expire (expiration_id it)) p;;
           update p (fun it => it <| expiration_id := u8 x |>);;
           Lists.push_front (Expire x) p
         else mret tt);;
        update p (fun it => it <| expire_time := expire |>);;
        stat (group_id it) (Ev_update_expiration_success (class_id it));;
        do_release_reference p;;
        mret (true, cache_id it)
      else
        stat (group_id it) (Ev_update_expiration_mismatch (class_id it));;
        mret (false, u64 (-1))
  | None =>
      stat group Ev_update_expiration_miss;;
      mret (false, 0)
  end.

(** The reason of an update, decided by its watch, and its statistics;
    [on_valid] is what else is done for a watch that exists. *)
Definition check_update_watch (on_valid : M unit) (watch_id group hit_group cls hit_cls size : Z)
    (success success_watch : Z -> Z -> event) (watch_miss : Z -> event) : M xixi_reason :=
  if negb (watch_id =? 0) then
    valid ← is_valid_watch_id watch_id;
    if valid : bool then on_valid;; stat group (success_watch cls size);; mret XIXI_REASON_SUCCESS
    else stat group (watch_miss cls);; mret XIXI_REASON_WATCH_NOT_FOUND
  else stat hit_group (success hit_cls size);; mret XIXI_REASON_SUCCESS.

(** The key of an item, as the calls of [do_get] pass it. *)
Definition get_by_item (p : ptr) : M (option ptr) :=
  it ← item p;
  key ← the (Item.get_key it);
  do_get (group_id it) key (hash_value_ it).

Definition item_cache_id (p : ptr) : M Z := it ← item p; mret (cache_id it).

(** The branch of [add], [set] and [load_from_file] that stores a new key. *)
Definition link_new (p : ptr) (watch_id : Z) (success success_watch : Z -> Z -> event)
    (watch_miss : Z -> event) : M xixi_reason :=
  it ← item p;
  reason ← check_update_watch (add_watch p watch_id) watch_id (group_id it) (group_id it)
             (class_id it) (class_id it) (Item.total_size it) success success_watch watch_miss;
  (if decide (reason = XIXI_REASON_SUCCESS) then do_link p else mret tt);;
  mret reason.

(** Lines 756-787: the reason and the cache id, if it is assigned. *)
Definition add (p : ptr) (watch_id : Z) : M (xixi_reason * option Z) :=
  old ← get_by_item p;
  match old with
  | None =>
      reason ← link_new p watch_id Ev_add_success Ev_add_success_watch Ev_add_watch_miss;
      if decide (reason = XIXI_REASON_SUCCESS) then id ← item_cache_id p; mret (reason, Some id)
      else mret (reason, None)
  | Some old_p =>
      do_release_reference old_p;;
      it ← item p;
      stat (group_id it) (Ev_add_fail (class_id it));;
      mret (XIXI_REASON_EXISTS, None)
  end.

(** What follows in [set] and [replace] when the reason is still success. *)
Definition replace_and_watch (old_p p : ptr) (watch_id : Z) : M Z :=
  do_replace old_p p;;
  (if negb (watch_id =? 0) then add_watch p watch_id else mret tt);;
  item_cache_id p.

(** Lines 789-840. *)
Definition set (p : ptr) (watch_id : Z) : M (xixi_reason * option Z) :=
  old ← get_by_item p;
  match old with
  | Some old_p =>
      it ← item p;
      old_it ← item old_p;
      r ← (if (cache_id it =? 0) || (cache_id it =? cache_id old_it) then
             reason ← check_update_watch (mret tt) watch_id (group_id it) (group_id it) (class_id it) (class_id it)
                        (Item.total_size it) Ev_set_success Ev_set_success_watch Ev_set_watch_miss;
             if decide (reason = XIXI_REASON_SUCCESS) then
               id ← replace_and_watch old_p p watch_id; mret (reason, Some id)
             else mret (reason, None)
           else
             stat (group_id it) (Ev_set_mismatch (class_id it));;
             mret (XIXI_REASON_MISMATCH, None));
      do_release_reference old_p;;
      mret r
  | None =>
      reason ← link_new p watch_id Ev_set_success Ev_set_success_watch Ev_set_watch_miss;
      if decide (reason = XIXI_REASON_SUCCESS) then id ← item_cache_id p; mret (reason, Some id)
      else mret (reason, None)
  end.

(** Lines 842-879. *)
Definition replace (p : ptr) (watch_id : Z) : M (xixi_reason * option Z) :=
  old ← get_by_item p;
  it ← item p;
  match old with
  | None =>
      stat (group_id it) Ev_replace_miss;;
      mret (XIXI_REASON_NOT_FOUND, None)
  | Some old_p =>
      old_it ← item old_p;
      if (cache_id it =? 0) || (cache_id it =? cache_id old_it) then
        reason ← check_update_watch (mret tt) watch_id (group_id it) (group_id old_it) (class_id it) (class_id old_it)
                   (Item.total_size it) Ev_replace_success Ev_replace_success_watch Ev_replace_watch_miss;
        r ← (if decide (reason = XIXI_REASON_SUCCESS) then
               id ← replace_and_watch old_p p watch_id; mret (reason, Some id)
             else mret (reason, None));
        do_release_reference old_p;;
        mret r
      else
        stat (group_id it) (Ev_replace_mismatch (class_id it));;
        do_release_reference old_p;;
        mret (XIXI_REASON_MISMATCH, None)
  end.

(** The copies of [append], lines 894-897, [prepend], 945-948, and [delta],
    1041-1043, into a new item. *)
Definition fill_item (new_p : ptr) (key : bytes) (hash_value : Z) (data ext : bytes) : M unit :=
  update_opt new_p (Item_Key.set_key_with_hash key hash_value);;
  update_opt new_p (fun it => Item.write (Item.data_at it) data it);;
  update_opt new_p (Item_Key.set_ext ext).

(** Lines 881-930 and 932-981: [front] tells [prepend]. *)
Definition extend (front : bool) (p : ptr) (watch_id : Z) : M (xixi_reason * option Z) :=
  old ← get_by_item p;
  it ← item p;
  match old with
  | Some old_p =>
      old_it ← item old_p;
      if negb (cache_id it =? 0) && negb (cache_id it =? cache_id old_it) then
        stat (group_id it) (if front then Ev_prepend_mismatch (class_id it) else Ev_append_mismatch (class_id it));;
        mret (XIXI_REASON_MISMATCH, None)
      else
        new ← do_alloc (group_id it) (key_length it) (flags old_it) (expire_time old_it)
                (u32 (data_size it + data_size old_it)) (ext_size old_it);
        r ← match new with
            | Some new_p =>
                key ← the (Item.get_key it);
                data ← the (Item.get_data it);
                old_data ← the (Item.get_data old_it);
                ext ← the (Item.get_ext old_it);
                fill_item new_p key (hash_value_ it) (if front then data ++ old_data else old_data ++ data) ext;;
                reason ← check_update_watch (mret tt) watch_id (group_id it) (group_id old_it)
                           (class_id it) (class_id old_it) (Item.total_size it)
                           (if front then Ev_prepend_success else Ev_append_success)
                           (if front then Ev_prepend_success_watch else Ev_append_success_watch)
                           (if front then Ev_prepend_watch_miss else Ev_append_watch_miss);
                r ← (if decide (reason = XIXI_REASON_SUCCESS) then
                       let watch := if negb (watch_id =? 0) then add_watch p watch_id else mret tt in
                       (if front then watch;; do_replace old_p new_p else do_replace old_p new_p;; watch);;
                       id ← item_cache_id new_p; mret (reason, Some id)
                     else mret (reason, None));
                do_release_reference new_p;;
                mret r
            | None =>
                stat (group_id it) (if front then Ev_prepend_out_of_memory (class_id it)
                                    else Ev_append_out_of_memory (class_id it));;
                mret (XIXI_REASON_OUT_OF_MEMORY, None)
            end;
        do_release_reference old_p;;
        mret r
  | None =>
      stat (group_id it) (if front then Ev_prepend_miss else Ev_append_miss);;
      mret (XIXI_REASON_NOT_FOUND, None)
  end.
Definition append (p : ptr) (watch_id : Z) : M (xixi_reason * option Z) := extend false p watch_id.
Definition prepend (p : ptr) (watch_id : Z) : M (xixi_reason * option Z) := extend true p watch_id.

(** Lines 983-1007. *)
Definition remove (group : Z) (key : bytes) (expected : Z) : M xixi_reason :=
  r ← do_get group key (hash_key e group key);
  match r with
  | Some p =>
      it ← item p;
      reason ← (if (expected =? 0) || (expected =? cache_id it) then
                  stat group (Ev_delete_success (class_id it));;
                  do_unlink p WATCH_NOTIFY_TYPE_DELETED;;
                  mret XIXI_REASON_SUCCESS
                else
                  stat group (Ev_delete_mismatch (class_id it));;
                  mret XIXI_REASON_MISMATCH);
      do_release_reference p;;
      mret reason
  | None =>
      stat group Ev_delete_miss;;
      mret XIXI_REASON_NOT_FOUND
  end.

(** The [int64_t] [value += delta] or [value -= delta], which must not
    overflow, and its [snprintf] with ["%ld"]. *)
Definition add_delta (incr : bool) (value delta : Z) : option Z :=
  let v := if incr then value + delta else value - delta in
  if (- 2 ^ 63 <=? v) && (v <? 2 ^ 63) then Some v else None.
Definition print_i64 (v : Z) : bytes := if v <? 0 then 45 :: Parse.decimal (- v) else Parse.decimal v.

(** Lines 1010-1082: the reason, [cache_id] and [value]. *)
Definition delta (group : Z) (key : bytes) (incr : bool) (delta expected : Z) : M (xixi_reason * Z * Z) :=
  r ← do_get group key (hash_key e group key);
  match r with
  | None =>
      stat group (if incr then Ev_incr_miss else Ev_decr_miss);;
      mret (XIXI_REASON_NOT_FOUND, 0, 0)
  | Some p =>
      it ← item p;
      if (expected =? 0) || (expected =? cache_id it) then
        parsed ← the (Parse.safe_toi64 (Some (drop (Z.to_nat (Item.data_at it)) (body it))) (data_size it));
        value ← the (add_delta incr (default 0 parsed) delta);
        let buf := print_i64 value in
        let size := Z.of_nat (length buf) in
        r ← (if negb (size =? data_size it) then
               new ← do_alloc (group_id it) (key_length it) (flags it) (expire_time it) size (ext_size it);
               match new with
               | None => mret (XIXI_REASON_OUT_OF_MEMORY, expected, value)
               | Some new_p =>
                   key ← the (Item.get_key it);
                   ext ← the (Item.get_ext it);
                   fill_item new_p key (hash_value_ it) buf ext;;
                   do_replace p new_p;;
                   id ← item_cache_id new_p;
                   do_release_reference new_p;;
                   stat group (if incr then Ev_incr_success else Ev_decr_success);;
                   mret (XIXI_REASON_SUCCESS, id, value)
               end
             else
               id ← get_cache_id;
               update p (fun it => it <| cache_id := id |>);;
               t ← now;
               update p (fun it => it <| last_update_time := t |>);;
               update_opt p (fun it => Item.write (Item.data_at it) buf it);;
               stat group (if incr then Ev_incr_success else Ev_decr_success);;
               mret (XIXI_REASON_SUCCESS, id, value));
        do_release_reference p;;
        mret r
      else
        stat group (if incr then Ev_incr_mismatch else Ev_decr_mismatch);;
        do_release_reference p;;
        mret (XIXI_REASON_MISMATCH, 0, 0)
  end.

(** Lines 1084-1103: the walk of one list, and of all of them; the count and
    the size. *)
Fixpoint flush_walk (fuel : nat) (group i : Z) (it : option ptr) (acc : Z * Z) : M (Z * Z) :=
  match it with
  | None => mret acc
  | Some p =>
      match fuel with
      | O => the None
      | S fuel =>
          next ← Lists.next (Expire i) p;
          it ← item p;
          acc ← (if group_id it =? group then
                   do_unlink p WATCH_NOTIFY_TYPE_FLUSHED;;
                   mret (u32 (acc.1 + 1), u64 (acc.2 + Item.total_size it))
                 else mret acc);
          flush_walk fuel group i next acc
      end
  end.
Fixpoint flush_lists (group : Z) (is_ : list Z) (acc : Z * Z) : M (Z * Z) :=
  match is_ with
  | [] => mret acc
  | i :: is_ =>
      it ← Lists.front (Expire i);
      n ← gets (fun s => size (heap s));
      acc ← flush_walk n group i it acc;
      flush_lists group is_ acc
  end.
Definition flush (group : Z) : M (Z * Z) :=
  acc ← flush_lists group (seqZ 0 34) (0, 0);
  stat group Ev_flush;;
  mret acc.

(** Lines 270-297. *)
Fixpoint new_list_loop (n : nat) (expiration : Z) : option (option Z) :=
  match Slab.at_ expiration_time_ (Z.of_nat n) with
  | Some t =>
      if expiration >=? t then Some (Some (Z.of_nat n))
      else match n with O => Some None | S n => new_list_loop n expiration end
  | None => None
  end.
Fixpoint expire_walk (fuel : nat) (curr_time i : Z) (it : option ptr) : M unit :=
  match it with
  | None => mret tt
  | Some p =>
      match fuel with
      | O => the None
      | S fuel =>
          it ← item p;
          next ← Lists.next (Expire i) p;
          (if expire_time it <=? curr_time then do_unlink p WATCH_NOTIFY_TYPE_EXPIRED
           else
             j ← the (new_list_loop (Z.to_nat i) (u32 (expire_time it - curr_time)));
             match j with
             | Some j =>
                 Lists.remove (Expire i) p;;
                 update p (fun it => it <| expiration_id := u8 j |>);;
                 Lists.push_front (Expire j) p
             | None => mret tt
             end);;
          expire_walk fuel curr_time i next
      end
  end.
Definition expire_list (curr_time i : Z) : M unit :=
  check ← elem expire_check_time_ i;
  if curr_time >=? check then
    t ← elem (fun _ => expiration_time_) i;
    modify (fun s => s <| expire_check_time_ ::= <[Z.to_nat i := Current_Time.realtime curr_time t]> |>);;
    it ← Lists.front (Expire i);
    n ← gets (fun s => size (heap s));
    expire_walk n curr_time i it
  else mret tt.
Definition expire_items (curr_time : Z) : M unit := for_each (expire_list curr_time) (seqZ 0 33).

(** Lines 1178-1188: [curr_time >= expire_time_]. *)
Definition expire_watchs (curr_time : Z) : M unit :=
  modify (fun s => s <| watch_map_ ::= filter (fun iw => Cache_Watch.is_expired curr_time iw.2 = false) |>).

(** Lines 1190-1198. *)
Fixpoint free_flushed_walk (fuel : nat) (it : option ptr) : M unit :=
  match it with
  | None => mret tt
  | Some p =>
      match fuel with
      | O => the None
      | S fuel =>
          next ← Lists.next Flush p;
          Lists.remove Flush p;;
          do_release_reference p;;
          free_flushed_walk fuel next
      end
  end.
Definition free_flushed_items : M unit :=
  it ← Lists.front Flush;
  n ← gets (fun s => size (heap s));
  free_flushed_walk n it.

(** Lines 208-220. *)
Definition check_expired : M unit :=
  curr_time ← now;
  last ← gets last_check_expired_time_;
  if negb (curr_time =? last) then
    modify (fun s => s <| last_check_expired_time_ := curr_time |>);;
    expire_watchs curr_time;;
    expire_items curr_time;;
    free_flushed_items
  else mret tt.

(** Lines 1121-1131. *)
Definition create_watch (group max_next_check_interval : Z) : M Z :=
  watch_id ← get_watch_id;
  (if negb (watch_id =? 0) then
     t ← realtime max_next_check_interval;
     modify (fun s => s <| watch_map_ ::= <[watch_id := Cache_Watch.init watch_id t]> |>);;
     stat group Ev_create_watch
   else mret tt);;
  mret watch_id.

(** Lines 1133-1148 and 1150-1162: [None] for [return false]; the lists are
    those the caller passes. *)
Definition check_watch_and_set_callback (sp : option sink) (group watch_id ack_sequence interval : Z)
    (a : answer) : M (option answer) :=
  m ← gets watch_map_;
  match m !! watch_id with
  | Some w =>
      t ← realtime interval;
      r ← the (Cache_Watch.check_and_set_callback alive sp ack_sequence t a w);
      modify (fun s => s <| watch_map_ ::= <[watch_id := r.2]> |> <| notified_ ::= fun l => l ++ r.1.2 |>);;
      stat group Ev_check_watch;;
      mret (Some r.1.1)
  | None =>
      stat group Ev_check_watch_miss;;
      mret None
  end.
Definition check_watch_and_clear_callback (sp : option sink) (watch_id : Z) (a : answer) : M (option answer) :=
  m ← gets watch_map_;
  match m !! watch_id with
  | Some w =>
      r ← the (Cache_Watch.check_and_clear_callback alive sp a w);
      modify (fun s => s <| watch_map_ ::= <[watch_id := r.2]> |>);;
      mret (Some r.1)
  | None => mret None
  end.

(** Lines 222-256; [sub_op] by the constants of [peer_cache_pdu.h] lines
    424-428. *)
Definition base_stats : M Stats.base_stats :=
  s ← gets id;
  mret (Stats.mkbase (Current_Time.get_current_time (curr_time_ s)) (max_bytes conf) (num_threads conf)
          (max_stats_group conf) (mem_limit_ s) (mem_used_ s)).
Definition stats_cmd (sub_op group cls : Z) : M bytes :=
  let in_stats {A} (m : ST stats A) : M A := on stats_ (fun st s => s <| stats_ := st |>) m in
  let answer (b : bool) := Stats.literal (if b then "success" else "fail") in
  if sub_op =? 0 then b ← in_stats (Stats.add_group (max_stats_group conf) group); mret (answer b)
  else if sub_op =? 1 then b ← in_stats (Stats.remove_group group); mret (answer b)
  else if sub_op =? 2 then
    base ← base_stats; r ← in_stats (Stats.get_stats_group base group cls); mret r.2
  else if sub_op =? 4 then
    base ← base_stats; r ← in_stats (Stats.get_stats_sum base cls); mret r.2
  else mret (Stats.literal "unknown sub command").

(** Lines 258-268, without the log. *)
Definition print_stats : M unit :=
  curr_time ← now;
  last ← gets last_print_stats_time_;
  if curr_time >=? u32 (last + 30) then modify (fun s => s <| last_print_stats_time_ := curr_time |>)
  else mret tt.

(** The timer reads the clock. *)
Definition tick (reading : Z) : M unit :=
  modify (fun s => s <| curr_time_ ::= Current_Time.set_current_time reading |>).

(** Lines 678-754.  [file] is what [fopen] and [fread] find under the key, and
    [mime] is [settings_.get_mime_type] of a suffix.  The item is allocated
    before the lock is taken. *)
Definition load_from_file (file : bytes -> option bytes) (mime : bytes -> option bytes)
    (group : Z) (key : bytes) (watch_id expiration : Z) : M (option ptr * xixi_reason) :=
  match file key with
  | None => mret (None, XIXI_REASON_NOT_FOUND)
  | Some content =>
      let suffix := match Str.get_suffix key (Z.of_nat (length key)) with
                    | Some (o, n) => take (Z.to_nat n) (drop (Z.to_nat o) key)
                    | None => []
                    end in
      let type := mime suffix in
      let type_len := Z.of_nat (length (default [] type)) in
      let file_size := u32 (Z.of_nat (length content)) in
      new ← alloc_item group (Z.of_nat (length key)) 0 expiration file_size type_len;
      match new with
      | None =>
          ok ← item_size_ok (Z.of_nat (length key)) file_size type_len;
          mret (None, if ok : bool then XIXI_REASON_OUT_OF_MEMORY else XIXI_REASON_TOO_LARGE)
      | Some p =>
          update_opt p (Item.write 0 key);;
          update_opt p (fun it => Item.write (Item.data_at it) (take (Z.to_nat file_size) content) it);;
          match type with
          | Some t => update_opt p (Item_Key.set_ext t)
          | None => mret tt
          end;;
          update_opt p (Item_Key.calc_hash_value e);;
          it ← item p;
          old ← do_get group key (hash_value_ it);
          match old with
          | None =>
              reason ← link_new p watch_id Ev_add_success Ev_add_success_watch Ev_add_watch_miss;
              if decide (reason = XIXI_REASON_SUCCESS) then mret (Some p, reason)
              else do_release_reference p;; mret (None, reason)
          | Some old_p =>
              do_release_reference p;; mret (Some old_p, XIXI_REASON_SUCCESS)
          end
      end
  end.

(** The constructor, lines 117-142, and [init], lines 146-174, with the clock
    and the counters of the program's start. *)
Definition start (limit item_size_max item_size_min : Z) (factor : SpecFloat.spec_float) (time : Z)
    : option Cache_Mgr :=
  match Slab.init item_size_max item_size_min factor Slab.start with
  | Some sl =>
      Some (mk_mgr ∅ (Buckets.init 7) (replicate 34 []) (replicate 33 0) sl (replicate 200 []) []
              0 limit 0 0 0 0 ∅ (Current_Time.init time)
              (Stats.init <| max_class_id_ := class_id_max_ sl |>) [])
  | None => None
  end.
End mgr.
End Mgr.
