(* ===== verification/CacheInv.v ===== *)
(** * The invariant of the cache and the primitive steps that keep it

    [core] relates the heap of items, the hash map, the lists and the memory
    account, with the references the callers hold; every primitive of
    [Cache.Mgr] is shown to be defined and to keep it. *)

From S2P Require Import Prelude XixiList XixiHashMap Lookup3 Util CurrTime Pdu Stats Watch Slab Cache.
Import Cache_Watch.

(** ** What an item holds *)

Abbreviation key := (Z * bytes)%type.
Definition key_of (it : Cache_Item) : key := (group_id it, take (Z.to_nat (key_length it)) (body it)).
Definition data_of (it : Cache_Item) : bytes :=
  take (Z.to_nat (data_size it)) (drop (Z.to_nat (key_length it)) (body it)).
Definition ext_of (it : Cache_Item) : bytes :=
  take (Z.to_nat (ext_size it)) (drop (Z.to_nat (key_length it + data_size it)) (body it)).

(** What a user of the cache sees of an item. *)
Record entry := mk_entry {
  e_flags : Z;
  e_expire_time : Z;
  e_cache_id : Z;
  e_data : bytes;
  e_ext : bytes;
  e_watches : list Z
}.
Definition entry_of (it : Cache_Item) : entry :=
  mk_entry (flags it) (expire_time it) (cache_id it) (data_of it) (ext_of it) (default [] (watch_item it)).

(** Memory [malloc] hands out is fresh, and as large as asked for. *)
Class Item_Malloc_Ok `{Item_Malloc} : Prop := malloc_ok d n p m :
  malloc_item d n = Some (p, m) -> p ∉ d /\ Z.of_nat (length m) = n - offsetof_body.

(** ** The invariant *)

Abbreviation linked s := (Buckets.contents (cache_hash_map_ s)).
Definition placed (s : Cache_Mgr) : list ptr :=
  concat (expire_list_ s) ++ concat (free_cache_list_ s) ++ flush_cache_list_ s.

(** The references to an item: those the callers hold, and those of the lists. *)
Abbreviation holds := (ptr -> Z).
Definition refs (s : Cache_Mgr) (held : holds) (p : ptr) : Z :=
  held p + (if decide (p ∈ linked s) then 1 else 0) + (if decide (p ∈ flush_cache_list_ s) then 1 else 0).

(** An item in use fits its memory, which is that of its class. *)
Record item_wf (sl : slab) (it : Cache_Item) : Prop := {
  iw_key : 0 <= key_length it < 2 ^ 16;
  iw_data : 0 <= data_size it;
  iw_ext : 0 <= ext_size it < 2 ^ 8;
  iw_class : 1 <= class_id it <= class_id_max_ sl;
  iw_body : Z.of_nat (length (body it)) = size_of sl (class_id it) - offsetof_body;
  iw_fits : sizeof_Cache_Item + key_length it + data_size it + ext_size it <= size_of sl (class_id it);
  iw_expire : 0 <= expire_time it < 2 ^ 32;
  iw_list : 0 <= expiration_id it <= 33
}.

Definition mem_of (h : gmap ptr Cache_Item) : Z :=
  map_fold (fun _ it n => offsetof_body + Z.of_nat (length (body it)) + n) 0 h.

Section core.
Context (e : endian).

Record core (s : Cache_Mgr) (held : holds) : Prop := {
  c_slab : slab_wf (slab_ s);
  c_sizes : sizeof_Cache_Item <= size_of (slab_ s) 1 /\ size_of (slab_ s) (class_id_max_ (slab_ s)) <= 2 ^ 30;
  c_lens : length (expire_list_ s) = 34%nat /\ length (free_cache_list_ s) = 200%nat;
  c_hash : Buckets.wf (Mgr.hv s) (cache_hash_map_ s);
  c_expire : concat (expire_list_ s) ≡ₚ linked s;
  c_nodup : NoDup (placed s);
  c_free : forall i l p, free_cache_list_ s !! i = Some l -> p ∈ l ->
    exists it, heap s !! p = Some it /\ held p = 0 /\ 1 <= Z.of_nat i <= class_id_max_ (slab_ s) /\
      Z.of_nat (length (body it)) = size_of (slab_ s) (Z.of_nat i) - offsetof_body /\
      watch_item it = None /\ cache_id it = 0;
  c_item : forall p it, heap s !! p = Some it -> p ∉ concat (free_cache_list_ s) ->
    item_wf (slab_ s) it /\ ref_count it = refs s held p /\ 0 < refs s held p;
  c_list : forall i l p it, expire_list_ s !! i = Some l -> p ∈ l -> heap s !! p = Some it ->
    expiration_id it = Z.of_nat i;
  c_live : forall p, heap s !! p = None -> refs s held p = 0;
  c_held : forall p, 0 <= held p;
  c_keys : forall p it, p ∈ linked s -> heap s !! p = Some it ->
    hash_value_ it = hash_key e (key_of it).1 (key_of it).2;
  c_uniq : forall p q itp itq, p ∈ linked s -> q ∈ linked s ->
    heap s !! p = Some itp -> heap s !! q = Some itq -> key_of itp = key_of itq -> p = q;
  c_mem : mem_used_ s = mem_of (heap s) /\ mem_used_ s <= mem_limit_ s <= 2 ^ 35
}.

(** The other members: counters, watches, the clock. *)
Record surroundings (s : Cache_Mgr) : Prop := {
  s_stats : stats_wf (stats_ s);
  s_watches : map_Forall (fun _ w => watch_wf w) (watch_map_ s);
  s_clock : 0 <= Current_Time.get_current_time (curr_time_ s) < 2 ^ 32;
  s_checks : length (expire_check_time_ s) = 33%nat
}.

Definition inv (s : Cache_Mgr) (held : holds) : Prop := core s held /\ surroundings s.

(** The members [core] is about do not change. *)
Record same_core (s s' : Cache_Mgr) : Prop := {
  sc_heap : heap s' = heap s;
  sc_hash : cache_hash_map_ s' = cache_hash_map_ s;
  sc_expire : expire_list_ s' = expire_list_ s;
  sc_free : free_cache_list_ s' = free_cache_list_ s;
  sc_flush : flush_cache_list_ s' = flush_cache_list_ s;
  sc_slab : slab_wf (slab_ s') /\ same_classes (slab_ s) (slab_ s');
  sc_limit : mem_limit_ s' = mem_limit_ s;
  sc_used : mem_used_ s' = mem_used_ s;
  sc_check : expire_check_time_ s' = expire_check_time_ s
}.
End core.

(** ** The memory account *)
Lemma mem_of_insert h p it :
  h !! p = None -> mem_of (<[p := it]> h) = offsetof_body + Z.of_nat (length (body it)) + mem_of h.
Proof. intros Hp. unfold mem_of. rewrite map_fold_insert_L; [done|intros; lia|done]. Qed.
Lemma mem_of_delete h p it :
  h !! p = Some it -> mem_of h = offsetof_body + Z.of_nat (length (body it)) + mem_of (base.delete p h).
Proof. intros Hp. unfold mem_of. rewrite (map_fold_delete_L _ _ p it h); [done|intros; lia|done]. Qed.
Lemma mem_of_update h p it it' :
  h !! p = Some it -> length (body it') = length (body it) -> mem_of (<[p := it']> h) = mem_of h.
Proof.
  intros Hp Hl. rewrite <- insert_delete_eq, mem_of_insert by apply lookup_delete_eq.
  rewrite Hl. symmetry. by apply mem_of_delete.
Qed.
Lemma mem_of_size h n :
  (forall p it, h !! p = Some it -> n <= offsetof_body + Z.of_nat (length (body it))) ->
  n * Z.of_nat (size h) <= mem_of h.
Proof.
  induction h as [|p it h Hp IH] using map_ind; intros Hn.
  - unfold mem_of. rewrite map_fold_empty, map_size_empty. lia.
  - rewrite mem_of_insert, map_size_insert_None by done.
    pose proof (Hn p it ltac:(by rewrite lookup_insert_eq)).
    assert (n * Z.of_nat (size h) <= mem_of h); [|lia].
    apply IH. intros q itq Hq. apply (Hn q). rewrite lookup_insert_ne; [done|]. intros ->. congruence.
Qed.

(** ** Classes *)
Lemma same_classes_size sl sl' i : same_classes sl sl' -> size_of sl' i = size_of sl i.
Proof. by intros ->. Qed.
Lemma same_classes_max sl sl' : same_classes sl sl' -> class_id_max_ sl' = class_id_max_ sl.
Proof. by intros ->. Qed.
Lemma same_classes_count sl sl' : same_classes sl sl' -> free_cache_max_count sl' = free_cache_max_count sl.
Proof. by intros ->. Qed.
Lemma same_classes_sizes sl sl' : same_classes sl sl' -> max_size_ sl' = max_size_ sl.
Proof. by intros ->. Qed.
Lemma same_classes_refl sl : same_classes sl sl.
Proof. unfold same_classes. by destruct sl. Qed.
Lemma item_wf_same sl sl' it : same_classes sl sl' -> item_wf sl it -> item_wf sl' it.
Proof.
  intros Hs []. pose proof (same_classes_size _ _ (class_id it) Hs). pose proof (same_classes_max _ _ Hs).
  split; try done; congruence || lia.
Qed.

(** ** Frames *)
Section frames.
Context (e : endian).
Implicit Types (s : Cache_Mgr) (held : holds) (p : ptr).

Lemma refs_same s s' held p : same_core s s' -> refs s' held p = refs s held p.
Proof. intros Hs. unfold refs. by rewrite (sc_hash _ _ Hs), (sc_flush _ _ Hs). Qed.

Lemma hv_same s s' p : heap s' = heap s -> Mgr.hv s' p = Mgr.hv s p.
Proof. unfold Mgr.hv. by intros ->. Qed.

Lemma core_same s s' held : same_core s s' -> core e s held -> core e s' held.
Proof.
  intros Hsc Hc. pose proof Hsc as [Hh Hm He Hf Hfl [Hw Hs] Hl Hu _].
  pose proof (same_classes_max _ _ Hs) as Hmax. pose proof (fun i => same_classes_size _ _ i Hs) as Hsz.
  split; rewrite ?Hh, ?Hm, ?He, ?Hf, ?Hl, ?Hu, ?Hsz, ?Hmax; try apply Hc; try done.
  - eapply BucketsFacts.wf_ext; [|apply Hc]. intros p _. by apply hv_same.
  - unfold placed. rewrite He, Hf, Hfl. apply Hc.
  - intros i l p Hi Hp. destruct (c_free _ _ _ Hc i l p Hi Hp) as (it&?&?&?&?). exists it. by rewrite Hsz.
  - intros p it Hp Hn. rewrite (refs_same _ _ _ _ Hsc). destruct (c_item _ _ _ Hc p it Hp Hn) as [? ?].
    split; [|done]. by eapply item_wf_same.
  - intros p Hp. rewrite (refs_same _ _ _ _ Hsc). by apply Hc.
Qed.

Lemma linked_placed s held p : core e s held -> p ∈ linked s -> p ∉ concat (free_cache_list_ s) /\ p ∉ flush_cache_list_ s.
Proof.
  intros Hc Hp. pose proof (c_nodup _ _ _ Hc) as Hn. unfold placed in Hn.
  rewrite <- (c_expire _ _ _ Hc) in Hp. apply NoDup_app in Hn as (_&Hd&_).
  specialize (Hd p Hp). set_solver.
Qed.

Lemma linked_heap s held p : core e s held -> p ∈ linked s -> exists it, heap s !! p = Some it.
Proof.
  intros Hc Hp. destruct (heap s !! p) as [it|] eqn:E; [by exists it|].
  pose proof (c_live _ _ _ Hc p E) as H0. pose proof (c_held _ _ _ Hc p). unfold refs in H0.
  rewrite decide_True in H0 by done. case_decide; lia.
Qed.

Lemma held_heap s held p : core e s held -> 0 < held p -> exists it, heap s !! p = Some it /\ p ∉ concat (free_cache_list_ s).
Proof.
  intros Hc Hp. assert (p ∉ concat (free_cache_list_ s)) as Hn.
  { intros (i&l&Hi&Hpl)%elem_of_concat. destruct (c_free _ _ _ Hc i l p Hi Hpl) as (?&?&?&?). lia. }
  destruct (heap s !! p) as [it|] eqn:E; [by exists it|].
  pose proof (c_live _ _ _ Hc p E) as H0. unfold refs in H0. repeat case_decide; lia.
Qed.
End frames.

(** ** Writing an item

    [touch p it' s]: the item at [p] becomes [it']. *)
Definition touch (p : ptr) (it' : Cache_Item) (s : Cache_Mgr) : Cache_Mgr :=
  s <| heap ::= <[p := it']> |>.

Section updates.
Context (e : endian).
Implicit Types (s : Cache_Mgr) (held : holds) (p : ptr) (it : Cache_Item).

(** An update that leaves the item's place: its memory, and, if it is linked,
    its key, its hash value and its list. *)
Record in_place (s : Cache_Mgr) (p : ptr) (it it' : Cache_Item) : Prop := {
  ip_body : length (body it') = length (body it);
  ip_class : class_id it' = class_id it;
  ip_linked : p ∈ linked s -> hash_value_ it' = hash_value_ it /\ key_of it' = key_of it /\
                expiration_id it' = expiration_id it
}.

Lemma core_update s held held' p it it' :
  core e s held -> heap s !! p = Some it -> p ∉ concat (free_cache_list_ s) ->
  in_place s p it it' -> item_wf (slab_ s) it' ->
  (forall q, q <> p -> held' q = held q) -> 0 <= held' p ->
  ref_count it' = refs s held' p -> 0 < refs s held' p ->
  core e (touch p it' s) held'.
Proof.
  intros Hc Hp Hfree [Hb Hcl Hl] Hwf Hoth H0 Href Hpos.
  assert (forall q, q <> p -> refs s held' q = refs s held q) as Hrefs.
  { intros q Hq. unfold refs. by rewrite Hoth. }
  split; cbn [touch heap cache_hash_map_ expire_list_ free_cache_list_ flush_cache_list_ slab_ mem_limit_ mem_used_ set const]; try apply Hc.
  - eapply BucketsFacts.wf_ext; [|apply Hc]. intros q Hq. unfold Mgr.hv. cbn.
    destruct (decide (q = p)) as [->|]; [|by rewrite lookup_insert_ne].
    rewrite lookup_insert_eq, Hp. cbn. by apply Hl.
  - intros i l q Hi Hq. destruct (c_free _ _ _ Hc i l q Hi Hq) as (itq&Hitq&Hh&?&?).
    assert (q <> p) by (intros ->; apply Hfree, elem_of_concat; eauto).
    exists itq. rewrite lookup_insert_ne, Hoth by done. done.
  - intros q itq Hq Hn. change (refs (touch p it' s) held' q) with (refs s held' q).
    destruct (decide (q = p)) as [->|].
    + rewrite lookup_insert_eq in Hq. injection Hq as <-. done.
    + rewrite lookup_insert_ne in Hq by done. rewrite Hrefs by done. by apply Hc.
  - intros i l q itq Hi Hq Hh. destruct (decide (q = p)) as [->|].
    + rewrite lookup_insert_eq in Hh. injection Hh as <-.
      destruct Hl as (_&_&->); [|by eapply (c_list _ _ _ Hc)].
      rewrite <- (c_expire _ _ _ Hc). apply elem_of_concat. eauto.
    + rewrite lookup_insert_ne in Hh by done. by eapply (c_list _ _ _ Hc).
  - intros q Hq. change (refs (touch p it' s) held' q) with (refs s held' q).
    destruct (decide (q = p)) as [->|]; [by rewrite lookup_insert_eq in Hq|].
    rewrite lookup_insert_ne in Hq by done. rewrite Hrefs by done. by apply Hc.
  - intros q. destruct (decide (q = p)) as [->|]; [done|]. rewrite Hoth by done. apply Hc.
  - intros q itq Hq Hh. destruct (decide (q = p)) as [->|].
    + rewrite lookup_insert_eq in Hh. injection Hh as <-. destruct (Hl Hq) as (->&->&_). by apply (c_keys _ _ _ Hc p).
    + rewrite lookup_insert_ne in Hh by done. by apply (c_keys _ _ _ Hc q).
  - intros q r itq itr Hq Hr Hhq Hhr.
    assert (forall x itx, x ∈ linked s -> <[p := it']> (heap s) !! x = Some itx ->
              exists itx', heap s !! x = Some itx' /\ key_of itx' = key_of itx) as Hold.
    { intros x itx Hx. destruct (decide (x = p)) as [->|].
      - rewrite lookup_insert_eq. intros [= <-]. exists it. destruct (Hl Hx) as (_&->&_). done.
      - rewrite lookup_insert_ne by done. eauto. }
    destruct (Hold q itq Hq Hhq) as (itq'&?&<-), (Hold r itr Hr Hhr) as (itr'&?&<-).
    intros Heq. by eapply (c_uniq _ _ _ Hc).
  - rewrite (mem_of_update _ p it) by done. apply Hc.
Qed.

Lemma inv_update s held held' p it it' :
  inv e s held -> heap s !! p = Some it -> p ∉ concat (free_cache_list_ s) ->
  in_place s p it it' -> item_wf (slab_ s) it' ->
  (forall q, q <> p -> held' q = held q) -> 0 <= held' p ->
  ref_count it' = refs s held' p -> 0 < refs s held' p ->
  inv e (touch p it' s) held'.
Proof. intros [? []] ?????. split; [by eapply core_update|by split]. Qed.

(** Only the references of the lists and of the callers matter. *)
Lemma core_held s held held' : (forall p, held' p = held p) -> core e s held -> core e s held'.
Proof.
  intros Heq Hc.
  assert (forall p, refs s held' p = refs s held p) as Hr by (intros p; unfold refs; by rewrite Heq).
  split; try apply Hc.
  - intros i l p Hi Hp. rewrite Heq. by apply (c_free _ _ _ Hc i l).
  - intros p it. rewrite Hr. apply Hc.
  - intros p. rewrite Hr. apply Hc.
  - intros p. rewrite Heq. apply Hc.
Qed.
End updates.

(** Closes the bounds of an item whose other members changed. *)
Ltac solve_item_wf H := destruct H; split; cbn in *; done || lia.

(** ** The references of the callers *)
Definition give (p : ptr) (n : Z) (held : holds) : holds :=
  fun q => if decide (q = p) then held q + n else held q.

Lemma give_eq p n held : give p n held p = held p + n.
Proof. unfold give. by rewrite decide_True. Qed.
Lemma give_ne p q n held : q <> p -> give p n held q = held q.
Proof. intros. unfold give. by rewrite decide_False. Qed.

(** Room for more references: [ref_count] has 16 bits. *)
Definition roomy (held : holds) : Prop := forall p, held p < 2 ^ 15.
(** What is left of it inside an operation. *)
Definition room (held : holds) : Prop := forall p, held p < 2 ^ 16 - 4.
Lemma roomy_room held : roomy held -> room held.
Proof. intros Hr p. pose proof (Hr p). lia. Qed.
Lemma room_give p held : roomy held -> room (give p 1 held).
Proof. intros Hr q. pose proof (Hr q). unfold give. case_decide; lia. Qed.
Lemma room_give2 p q held : roomy held -> room (give p 1 (give q 1 held)).
Proof. intros Hr x. pose proof (Hr x). unfold give. repeat case_decide; lia. Qed.

(** ** Linking and unlinking *)
Section linking.
Context (e : endian) `{Table_Malloc}.
Implicit Types (s : Cache_Mgr) (held : holds) (p : ptr) (it : Cache_Item).

Lemma heap_size s held : core e s held -> sizeof_Cache_Item * Z.of_nat (size (heap s)) <= 2 ^ 35.
Proof.
  intros Hc. pose proof (c_mem _ _ _ Hc) as [Hu Hl].
  assert (sizeof_Cache_Item * Z.of_nat (size (heap s)) <= mem_of (heap s)); [|lia].
  apply mem_of_size. intros p it Hp. destruct (c_sizes _ _ _ Hc) as [H1 _].
  assert (forall i, 1 <= i <= class_id_max_ (slab_ s) -> sizeof_Cache_Item <= size_of (slab_ s) i) as Hsz.
  { intros i Hi. etrans; [exact H1|]. apply SlabFacts.size_of_mono; [apply Hc|lia|lia]. }
  destruct (decide (p ∈ concat (free_cache_list_ s))) as [(i&l&Hi&Hpl)%elem_of_concat|Hn].
  - destruct (c_free _ _ _ Hc i l p Hi Hpl) as (it'&Hit'&_&Hi1&Hb). rewrite Hp in Hit'. injection Hit' as <-.
    specialize (Hsz _ Hi1). lia.
  - destruct (c_item _ _ _ Hc p it Hp Hn) as [Hw _].
    pose proof (iw_body _ _ Hw). specialize (Hsz _ (iw_class _ _ Hw)). lia.
Qed.

Lemma linked_nodup s held : core e s held -> NoDup (linked s).
Proof. intros Hc. apply Buckets.wf_nodup with (hash_value_ := Mgr.hv s), Hc. Qed.

Lemma linked_small s held p : core e s held -> p ∉ linked s -> heap s !! p <> None -> Z.of_nat (length (linked s)) < 2 ^ 29.
Proof.
  intros Hc Hp Hh. pose proof (heap_size s held Hc) as Hs. unfold sizeof_Cache_Item in Hs.
  assert (length (linked s) <= size (heap s))%nat; [|lia].
  rewrite <- (size_dom (D := gset ptr)). erewrite <- (size_list_to_set (C := gset ptr)); [|by eapply linked_nodup].
  apply subseteq_size. intros q Hq%elem_of_list_to_set. apply elem_of_dom. by eapply linked_heap.
Qed.

Lemma linked_spec p s : Lists.linked p s = bool_decide (p ∈ placed s).
Proof.
  unfold Lists.linked, Lists.all, placed. apply eq_bool_prop_intro.
  rewrite Is_true_true, existsb_exists, bool_decide_spec, !elem_of_app. split.
  - intros (l&Hl%list_elem_of_In&Hp%bool_decide_eq_true).
    rewrite !elem_of_app, list_elem_of_singleton in Hl. destruct Hl as [Hl|[Hl| ->]]; [left|right; left|by right; right];
      apply list_elem_of_lookup in Hl as [i Hi]; apply elem_of_concat; eauto.
  - assert (forall l, p ∈ l -> l ∈ expire_list_ s ++ free_cache_list_ s ++ [flush_cache_list_ s] ->
      exists x, In x (expire_list_ s ++ free_cache_list_ s ++ [flush_cache_list_ s]) /\ bool_decide (p ∈ x) = true) as Hw.
    { intros l Hp Hl. exists l. rewrite <- list_elem_of_In. split; [done|by apply bool_decide_eq_true]. }
    intros [(i&l&Hi%list_elem_of_lookup_2&Hp)%elem_of_concat|[(i&l&Hi%list_elem_of_lookup_2&Hp)%elem_of_concat|Hp]];
      (eapply Hw; [exact Hp|set_solver]).
Qed.

Lemma refs_placed s held p : core e s held -> p ∉ placed s -> refs s held p = held p.
Proof.
  intros Hc Hp. unfold placed in Hp. rewrite (c_expire _ _ _ Hc) in Hp. unfold refs.
  rewrite !decide_False by set_solver. lia.
Qed.

(** The state after an element is linked at the end of a list. *)
Lemma core_link s s' held p it it' i l :
  core e s held -> heap s !! p = Some it -> p ∉ placed s ->
  in_place s p it it' -> item_wf (slab_ s) it' ->
  ref_count it' = held p + 1 -> expiration_id it' = Z.of_nat i -> expire_list_ s !! i = Some l ->
  hash_value_ it' = hash_value_ it -> key_of it' = key_of it ->
  hash_value_ it = hash_key e (key_of it).1 (key_of it).2 ->
  (forall q itq, q ∈ linked s -> heap s !! q = Some itq -> key_of itq <> key_of it) ->
  heap s' = <[p := it']> (heap s) ->
  cache_hash_map_ s' = Buckets.insert (Mgr.hv s) p (hash_value_ it) (cache_hash_map_ s) ->
  expire_list_ s' = <[i := l ++ [p]]> (expire_list_ s) ->
  free_cache_list_ s' = free_cache_list_ s -> flush_cache_list_ s' = flush_cache_list_ s ->
  slab_ s' = slab_ s -> mem_limit_ s' = mem_limit_ s -> mem_used_ s' = mem_used_ s ->
  core e s' held /\ linked s' ≡ₚ p :: linked s /\ placed s' ≡ₚ p :: placed s.
Proof.
  intros Hc Hp Hpl [Hb Hcl _] Hwf Href Hx Hil Hh Hk Hkey Huq Eh Em Ee Ef Efl Es El Eu.
  assert (p ∉ linked s) as Hnl.
  { rewrite <- (c_expire _ _ _ Hc). unfold placed in Hpl. set_solver. }
  destruct (BucketsFacts.insert_wf (Mgr.hv s) (cache_hash_map_ s) p (hash_value_ it)) as [Hw Hperm].
  { apply Hc. } { unfold Mgr.hv. by rewrite Hp. } { done. } { eapply linked_small; [done..|by rewrite Hp]. }
  rewrite <- Em in Hw, Hperm.
  assert (forall q, q ∈ linked s' <-> q = p \/ q ∈ linked s) as Hlk by (intros q; rewrite Hperm; set_solver).
  assert (forall q, q <> p -> refs s' held q = refs s held q) as Hrefs.
  { intros q Hq. unfold refs. rewrite Efl. f_equal. f_equal. apply decide_ext. rewrite Hlk. naive_solver. }
  assert (refs s' held p = held p + 1) as Hrp.
  { unfold refs. rewrite Efl, decide_True by (rewrite Hlk; by left). unfold placed in Hpl.
    rewrite decide_False by set_solver. lia. }
  assert (forall x itx, x ∈ linked s' -> heap s' !! x = Some itx ->
            x = p /\ itx = it' \/ x <> p /\ x ∈ linked s /\ heap s !! x = Some itx) as Hcase.
  { intros x itx Hxl. rewrite Eh. destruct (decide (x = p)) as [->|].
    - rewrite lookup_insert_eq. intros [= <-]. by left.
    - rewrite lookup_insert_ne by done. apply Hlk in Hxl as [|]; [done|]. intros. by right. }
  destruct (concat_lookup _ _ _ (l ++ [p]) Hil) as (r&Hr&Hr').
  assert (concat (expire_list_ s') ≡ₚ p :: concat (expire_list_ s)) as Hce.
  { rewrite Ee, Hr', Hr. by rewrite <- (Permutation_cons_append l p). }
  split; [|split; [done|unfold placed; by rewrite Ef, Efl, Hce]].
  split; rewrite ?Es, ?Ef, ?El, ?Eu; try apply Hc.
  - rewrite Ee, length_insert. apply Hc.
  - eapply BucketsFacts.wf_ext; [|exact Hw]. intros q _. unfold Mgr.hv. rewrite Eh.
    destruct (decide (q = p)) as [->|]; [by rewrite lookup_insert_eq, Hp|by rewrite lookup_insert_ne].
  - by rewrite Hce, Hperm, (c_expire _ _ _ Hc).
  - unfold placed. rewrite Ef, Efl, Hce. cbn. apply NoDup_cons. split; [done|]. apply Hc.
  - intros j m q Hj Hq. destruct (c_free _ _ _ Hc j m q Hj Hq) as (itq&?&?&?&?). exists itq.
    rewrite Eh, lookup_insert_ne; [done|]. intros ->. apply Hpl. unfold placed.
    rewrite !elem_of_app. right. left. apply elem_of_concat. eauto.
  - intros q itq. rewrite Eh. destruct (decide (q = p)) as [->|].
    + rewrite lookup_insert_eq. intros [= <-] _. rewrite Hrp. split; [done|]. split; [done|].
      pose proof (c_held _ _ _ Hc p). lia.
    + rewrite lookup_insert_ne by done. rewrite Hrefs by done. apply Hc.
  - intros j m q itq. rewrite Ee, Eh. destruct (decide (j = i)) as [->|].
    + rewrite list_lookup_insert_eq by (by eapply lookup_lt_Some). intros [= <-] [Hq|Hq%list_elem_of_singleton]%elem_of_app.
      * rewrite lookup_insert_ne; [by apply (c_list _ _ _ Hc) with (p := q) (l := l)|].
        intros ->. apply Hpl. unfold placed. rewrite elem_of_app. left. apply elem_of_concat. eauto.
      * subst q. rewrite lookup_insert_eq. by intros [= <-].
    + rewrite list_lookup_insert_ne by done. intros Hj Hq. rewrite lookup_insert_ne; [by apply (c_list _ _ _ Hc) with (p := q) (l := m)|].
      intros ->. apply Hpl. unfold placed. rewrite elem_of_app. left. apply elem_of_concat. eauto.
  - intros q. rewrite Eh. destruct (decide (q = p)) as [->|]; [by rewrite lookup_insert_eq|].
    rewrite lookup_insert_ne by done. rewrite Hrefs by done. apply Hc.
  - intros q itq Hq Hhq. destruct (Hcase q itq Hq Hhq) as [[-> ->]|(?&?&?)]; [by rewrite Hh, Hk|by apply (c_keys _ _ _ Hc q)].
  - intros q t itq itt Hq Ht Hhq Hht Heq.
    destruct (Hcase q itq Hq Hhq) as [[-> ->]|(?&?&?)], (Hcase t itt Ht Hht) as [[-> ->]|(?&?&?)]; try done.
    + exfalso. apply (Huq t itt); congruence.
    + exfalso. apply (Huq q itq); congruence.
    + by eapply (c_uniq _ _ _ Hc).
  - rewrite Eh, (mem_of_update _ p it) by done. apply Hc.
Qed.
End linking.

Section unlinking.
Context (e : endian) `{Table_Malloc}.
Implicit Types (s : Cache_Mgr) (held : holds) (p : ptr) (it : Cache_Item).

Lemma get_key_wf sl it : item_wf sl it -> Item.get_key it = Some (key_of it).2 /\
  Z.of_nat (length (key_of it).2) = key_length it.
Proof.
  intros []. unfold Item.get_key, mem_read, key_of, sizeof_Cache_Item, offsetof_body in *. cbn.
  rewrite drop_0, length_take.
  destruct (Z.leb_spec 0 (key_length it)), (Z.leb_spec (0 + key_length it) (Z.of_nat (length (body it)))); cbn; (done || lia) || (split; [done|lia]).
Qed.

Lemma is_key_spec sl it k : item_wf sl it -> Item.is_key k.1 k.2 it = true <-> key_of it = k.
Proof.
  intros Hwf. destruct (get_key_wf _ _ Hwf) as [Hk Hl]. unfold Item.is_key. rewrite Hk.
  rewrite !andb_true_iff, bool_decide_eq_true, !Z.eqb_eq. split.
  - intros [[Hg _] [= Heq]]. destruct k as [g b]. cbn in *. rewrite <- Hg, <- Heq. done.
  - intros <-. cbn in *. split; [split; [done|lia]|done].
Qed.

Lemma not_free s held p : core e s held -> p ∈ linked s -> p ∉ concat (free_cache_list_ s).
Proof. intros Hc Hp. by apply (linked_placed e s held). Qed.

Lemma linked_item s held p it : core e s held -> p ∈ linked s -> heap s !! p = Some it ->
  item_wf (slab_ s) it /\ ref_count it = refs s held p /\ 0 < refs s held p.
Proof. intros Hc Hp Hh. apply (c_item _ _ _ Hc p it Hh). by eapply not_free. Qed.

Lemma has_key_spec s held q k : core e s held -> q ∈ linked s ->
  Mgr.has_key k.1 k.2 s q = true <-> exists it, heap s !! q = Some it /\ key_of it = k.
Proof.
  intros Hc Hq. destruct (linked_heap e s held q Hc Hq) as [it Hit].
  destruct (linked_item s held q it Hc Hq Hit) as [Hwf _]. unfold Mgr.has_key. rewrite Hit. cbn.
  rewrite (is_key_spec _ _ _ Hwf). naive_solver.
Qed.

(** What the hash map finds under a key. *)
Lemma find_linked s held p it :
  core e s held -> p ∈ linked s -> heap s !! p = Some it ->
  Buckets.find (Mgr.has_key (key_of it).1 (key_of it).2 s) (hash_value_ it) (cache_hash_map_ s) = Some p.
Proof.
  intros Hc Hp Hit. apply (BucketsFacts.find_unique (Mgr.hv s)); [apply Hc|done| | |].
  - unfold Mgr.hv. by rewrite Hit.
  - apply (has_key_spec s held p (key_of it) Hc Hp). eauto.
  - intros q Hq (itq&Hitq&Hk)%(has_key_spec s held q (key_of it) Hc Hq). by eapply (c_uniq _ _ _ Hc).
Qed.
Lemma find_key s held k r :
  core e s held -> Buckets.find (Mgr.has_key k.1 k.2 s) (hash_key e k.1 k.2) (cache_hash_map_ s) = r ->
  match r with
  | Some p => p ∈ linked s /\ exists it, heap s !! p = Some it /\ key_of it = k
  | None => forall q it, q ∈ linked s -> heap s !! q = Some it -> key_of it <> k
  end.
Proof.
  intros Hc <-. destruct (Buckets.find _ _ _) as [p|] eqn:E.
  - apply (BucketsFacts.find_Some (Mgr.hv s)) in E as [Hp Ht]; [|apply Hc].
    split; [done|]. by apply (has_key_spec s held p k Hc Hp).
  - intros q it Hq Hit <-. pose proof (c_keys _ _ _ Hc q it Hq Hit) as Hh.
    pose proof (find_linked s held q it Hc Hq Hit) as Hf. rewrite Hh in Hf. congruence.
Qed.

(** The state after an element leaves the hash map and its list: the reference
    of the list becomes one of the caller's. *)
Lemma core_unlink s s' held p it it' i l :
  core e s held -> heap s !! p = Some it -> p ∈ linked s ->
  length (body it') = length (body it) -> class_id it' = class_id it ->
  item_wf (slab_ s) it' -> ref_count it' = ref_count it ->
  expire_list_ s !! i = Some l -> p ∈ l ->
  heap s' = <[p := it']> (heap s) ->
  cache_hash_map_ s' = (Buckets.remove (Mgr.has_key (key_of it).1 (key_of it).2 s) (hash_value_ it) (cache_hash_map_ s)).2 ->
  expire_list_ s' = <[i := Seq.remove p l]> (expire_list_ s) ->
  free_cache_list_ s' = free_cache_list_ s -> flush_cache_list_ s' = flush_cache_list_ s ->
  slab_ s' = slab_ s -> mem_limit_ s' = mem_limit_ s -> mem_used_ s' = mem_used_ s ->
  core e s' (give p 1 held) /\ linked s ≡ₚ p :: linked s' /\ p ∉ placed s' /\ placed s ≡ₚ p :: placed s'.
Proof.
  intros Hc Hp Hpl Hb Hcl Hwf Href Hil Hpin Eh Em Ee Ef Efl Es El Eu.
  destruct (linked_item s held p it Hc Hpl Hp) as (_&Hri&Hrpos).
  destruct (linked_placed e s held p Hc Hpl) as [Hnf Hnfl].
  destruct (BucketsFacts.remove_wf (Mgr.hv s) (cache_hash_map_ s) _ _ p (c_hash _ _ _ Hc) (find_linked s held p it Hc Hpl Hp)) as (b'&Hrm&Hw&Hperm).
  rewrite Hrm in Em. cbn in Em. subst b'.
  assert (NoDup (linked s)) as Hnd by (by eapply linked_nodup).
  rewrite Hperm in Hnd. apply NoDup_cons in Hnd as [Hpn Hnd].
  assert (forall q, q ∈ linked s' <-> q <> p /\ q ∈ linked s) as Hlk.
  { intros q. rewrite Hperm. set_solver. }
  assert (forall q, refs s' (give p 1 held) q = refs s held q) as Hrefs.
  { intros q. unfold refs. rewrite Efl. destruct (decide (q = p)) as [->|Hq].
    - rewrite give_eq, (decide_False (P := p ∈ linked s')), (decide_True (P := p ∈ linked s)) by (done || rewrite Hlk; naive_solver). lia.
    - rewrite give_ne by done. f_equal. f_equal. apply decide_ext. rewrite Hlk. naive_solver. }
  assert (forall x itx, x ∈ linked s' -> heap s' !! x = Some itx -> x ∈ linked s /\ heap s !! x = Some itx) as Hold.
  { intros x itx [Hx Hxl]%Hlk. rewrite Eh, lookup_insert_ne by done. done. }
  assert (NoDup l) as Hndl.
  { pose proof (c_nodup _ _ _ Hc) as Hn. unfold placed in Hn. apply NoDup_app in Hn as [Hn _].
    destruct (concat_lookup _ _ _ l Hil) as (r&Hr&_). rewrite Hr in Hn. by apply NoDup_app in Hn as [Hn _]. }
  destruct (concat_lookup _ _ _ (Seq.remove p l) Hil) as (r&Hr&Hr').
  assert (concat (expire_list_ s) ≡ₚ p :: concat (expire_list_ s')) as Hce.
  { rewrite Ee, Hr', Hr. by rewrite (Seq.remove_Permutation p l) at 1. }
  assert (p ∉ placed s') as Hnp.
  { pose proof (c_nodup _ _ _ Hc) as Hn. unfold placed in *. rewrite Hce, <- Ef, <- Efl in Hn. cbn in Hn.
    by apply NoDup_cons in Hn as [Hn _]. }
  split; [|split; [done|split; [done|unfold placed; by rewrite Ef, Efl, Hce]]].
  split; rewrite ?Es, ?Ef, ?El, ?Eu; try apply Hc.
  - rewrite Ee, length_insert. apply Hc.
  - eapply BucketsFacts.wf_ext; [|exact Hw]. intros q [Hq _]%Hlk. unfold Mgr.hv. by rewrite Eh, lookup_insert_ne.
  - apply (Permutation_cons_inv (a := p)). by rewrite <- Hce, <- Hperm, (c_expire _ _ _ Hc).
  - pose proof (c_nodup _ _ _ Hc) as Hn. unfold placed in *. rewrite Hce in Hn. rewrite Ef, Efl.
    by apply NoDup_cons in Hn as [_ Hn].
  - intros j m q Hj Hq. destruct (c_free _ _ _ Hc j m q Hj Hq) as (itq&?&?&?&?). exists itq.
    assert (q <> p) by (intros ->; apply Hnf, elem_of_concat; eauto).
    rewrite Eh, lookup_insert_ne, give_ne by done. done.
  - intros q itq. rewrite Eh, Hrefs. destruct (decide (q = p)) as [->|].
    + rewrite lookup_insert_eq. intros [= <-] _. rewrite Href. done.
    + rewrite lookup_insert_ne by done. apply Hc.
  - assert (forall j m q, expire_list_ s' !! j = Some m -> q ∈ m ->
      q <> p /\ exists m', expire_list_ s !! j = Some m' /\ q ∈ m') as Hsub.
    { intros j m q Hj Hq. split.
      - intros ->. apply Hnp. unfold placed. rewrite elem_of_app. left. apply elem_of_concat. eauto.
      - rewrite Ee in Hj. destruct (decide (j = i)) as [->|].
        + rewrite list_lookup_insert_eq in Hj by (by eapply lookup_lt_Some). injection Hj as <-.
          exists l. split; [done|]. by apply Seq.elem_of_remove in Hq as [? _].
        + rewrite list_lookup_insert_ne in Hj by done. eauto. }
    intros j m q itq Hj Hq. destruct (Hsub j m q Hj Hq) as (Hqp&m'&Hj'&Hq'). rewrite Eh, lookup_insert_ne by done.
    by apply (c_list _ _ _ Hc) with (p := q) (l := m').
  - intros q. rewrite Hrefs, Eh. destruct (decide (q = p)) as [->|]; [by rewrite lookup_insert_eq|].
    rewrite lookup_insert_ne by done. apply Hc.
  - intros q. pose proof (c_held _ _ _ Hc q). unfold give. case_decide; lia.
  - intros q itq Hq Hhq. destruct (Hold q itq Hq Hhq). by apply (c_keys _ _ _ Hc q).
  - intros q t itq itt Hq Ht Hhq Hht. destruct (Hold q itq Hq Hhq), (Hold t itt Ht Hht). by apply (c_uniq _ _ _ Hc).
  - rewrite Eh, (mem_of_update _ p it) by done. apply Hc.
Qed.
End unlinking.

Section lifetime.
Context (e : endian).
Implicit Types (s : Cache_Mgr) (held : holds) (p : ptr) (it : Cache_Item).

(** Changes outside the hash map and the expiry lists: one allocation [p], in
    no list before, and the free lists. *)
Lemma core_free_lists s s' held held' p :
  core e s held -> p ∉ linked s -> p ∉ flush_cache_list_ s ->
  (forall q, q <> p -> heap s' !! q = heap s !! q) ->
  (forall q, q <> p -> held' q = held q) -> 0 <= held' p ->
  length (free_cache_list_ s') = 200%nat ->
  (forall q, q <> p -> q ∈ concat (free_cache_list_ s') <-> q ∈ concat (free_cache_list_ s)) ->
  NoDup (concat (free_cache_list_ s')) ->
  (forall i l q, free_cache_list_ s' !! i = Some l -> q ∈ l -> q <> p ->
     exists l', free_cache_list_ s !! i = Some l' /\ q ∈ l') ->
  (forall i l, free_cache_list_ s' !! i = Some l -> p ∈ l ->
     exists it, heap s' !! p = Some it /\ held' p = 0 /\ 1 <= Z.of_nat i <= class_id_max_ (slab_ s) /\
       Z.of_nat (length (body it)) = size_of (slab_ s) (Z.of_nat i) - offsetof_body /\
       watch_item it = None /\ cache_id it = 0) ->
  (forall it, heap s' !! p = Some it -> p ∉ concat (free_cache_list_ s') ->
     item_wf (slab_ s) it /\ ref_count it = held' p /\ 0 < held' p) ->
  (heap s' !! p = None -> held' p = 0) ->
  cache_hash_map_ s' = cache_hash_map_ s -> expire_list_ s' = expire_list_ s ->
  flush_cache_list_ s' = flush_cache_list_ s -> slab_wf (slab_ s') -> same_classes (slab_ s) (slab_ s') ->
  mem_limit_ s' = mem_limit_ s -> mem_used_ s' = mem_of (heap s') -> mem_used_ s' <= mem_limit_ s' ->
  core e s' held'.
Proof.
  intros Hc Hpl Hpf Eh Hoth H0 Hlen Hin Hnd Hfree Hfp Hip Hnp Em Ee Efl Hsw Hs El Hu Hul.
  pose proof (same_classes_max _ _ Hs) as Hmax. pose proof (fun i => same_classes_size _ _ i Hs) as Hsz.
  assert (forall q, q <> p -> refs s' held' q = refs s held q) as Hrefs.
  { intros q Hq. unfold refs. by rewrite Em, Efl, Hoth. }
  assert (refs s' held' p = held' p) as Hrp.
  { unfold refs. rewrite Em, Efl, !decide_False by done. lia. }
  assert (forall q, q ∈ linked s -> q <> p) as Hne by (intros q Hq ->; done).
  split; rewrite ?Em, ?Ee, ?El; try apply Hc; try done.
  - rewrite !Hsz, Hmax. apply (c_sizes _ _ _ Hc).
  - split; [apply Hc|done].
  - eapply BucketsFacts.wf_ext; [|apply Hc]. intros q Hq. unfold Mgr.hv. by rewrite Eh by auto.
  - pose proof (c_nodup _ _ _ Hc) as Hn. unfold placed in *. rewrite Ee, Efl.
    rewrite !NoDup_app in *. destruct Hn as (?&Hd1&_&Hd2&?).
    assert (p ∉ concat (expire_list_ s)) by (by rewrite (c_expire _ _ _ Hc)).
    split_and!; try done; intros q Hq; destruct (decide (q = p)) as [->|]; try done.
    + specialize (Hd1 q Hq). rewrite elem_of_app in *. rewrite Hin by done. done.
    + apply Hd2. by rewrite <- Hin.
  - intros i l q Hi Hq. rewrite Hsz, Hmax. destruct (decide (q = p)) as [->|]; [by eapply Hfp|].
    destruct (Hfree i l q Hi Hq) as (l'&?&?); [done|]. rewrite Eh, Hoth by done. by apply (c_free _ _ _ Hc i l').
  - intros q it Hq Hn. destruct (decide (q = p)) as [->|].
    + rewrite Hrp. destruct (Hip it Hq Hn). split; [by eapply item_wf_same|done].
    + rewrite Eh in Hq by done. rewrite Hin in Hn by done. rewrite Hrefs by done.
      destruct (c_item _ _ _ Hc q it Hq Hn). split; [by eapply item_wf_same|done].
  - intros i l q it Hi Hq Hh. assert (q ∈ linked s) as Hql.
    { rewrite <- (c_expire _ _ _ Hc). apply elem_of_concat. eauto. }
    rewrite Eh in Hh by auto. by eapply (c_list _ _ _ Hc).
  - intros q Hq. destruct (decide (q = p)) as [->|]; [rewrite Hrp; auto|].
    rewrite Hrefs by done. apply Hc. by rewrite <- Eh.
  - intros q. destruct (decide (q = p)) as [->|]; [done|]. rewrite Hoth by done. apply Hc.
  - intros q it Hq. rewrite Eh by auto. by apply (c_keys _ _ _ Hc q).
  - intros q t itq itt Hq Ht. rewrite !Eh by auto. by apply (c_uniq _ _ _ Hc).
  - split; [done|]. split; [lia|]. apply Hc.
Qed.

Lemma free_nodup s held : core e s held -> NoDup (concat (free_cache_list_ s)).
Proof.
  intros Hc. pose proof (c_nodup _ _ _ Hc) as Hn. unfold placed in Hn.
  apply NoDup_app in Hn as (_&_&Hn). by apply NoDup_app in Hn as (?&_).
Qed.

(** Removing the head of a free list, and adding one. *)
Lemma free_pop s held i l p :
  core e s held -> free_cache_list_ s !! i = Some (p :: l) ->
  let f := <[i := l]> (free_cache_list_ s) in
  concat (free_cache_list_ s) ≡ₚ p :: concat f /\ NoDup (p :: concat f) /\ length f = 200%nat /\
  (forall j m q, f !! j = Some m -> q ∈ m -> exists m', free_cache_list_ s !! j = Some m' /\ q ∈ m').
Proof.
  intros Hc Hi f. destruct (concat_lookup _ _ _ l Hi) as (r&Hr&Hr').
  assert (concat (free_cache_list_ s) ≡ₚ p :: concat f) as Hp by (unfold f; by rewrite Hr, Hr').
  split; [done|]. split.
  { rewrite <- Hp. by eapply free_nodup. }
  split; [unfold f; rewrite length_insert; apply Hc|]. intros j m q Hj Hq. unfold f in Hj.
  destruct (decide (j = i)) as [->|].
  - rewrite list_lookup_insert_eq in Hj by (by eapply lookup_lt_Some). injection Hj as <-.
    exists (p :: l). split; [done|by right].
  - rewrite list_lookup_insert_ne in Hj by done. eauto.
Qed.
Lemma free_push s held i l p :
  core e s held -> free_cache_list_ s !! i = Some l -> p ∉ placed s ->
  let f := <[i := p :: l]> (free_cache_list_ s) in
  concat f ≡ₚ p :: concat (free_cache_list_ s) /\ NoDup (concat f) /\ length f = 200%nat /\
  (forall j m q, f !! j = Some m -> q ∈ m ->
     (q = p /\ j = i) \/ (q <> p /\ exists m', free_cache_list_ s !! j = Some m' /\ q ∈ m')).
Proof.
  intros Hc Hi Hpl f. destruct (concat_lookup _ _ _ (p :: l) Hi) as (r&Hr&Hr').
  assert (concat f ≡ₚ p :: concat (free_cache_list_ s)) as Hp by (unfold f; by rewrite Hr, Hr').
  assert (p ∉ concat (free_cache_list_ s)) as Hnp by (unfold placed in Hpl; set_solver).
  split; [done|]. split.
  { rewrite Hp. apply NoDup_cons. split; [done|]. by eapply free_nodup. }
  split; [unfold f; rewrite length_insert; apply Hc|]. intros j m q Hj Hq. unfold f in Hj.
  assert (forall m', free_cache_list_ s !! j = Some m' -> q ∈ m' -> q <> p) as Hne.
  { intros m' Hj' Hq' ->. apply Hnp, elem_of_concat. eauto. }
  destruct (decide (j = i)) as [->|].
  - rewrite list_lookup_insert_eq in Hj by (by eapply lookup_lt_Some). injection Hj as <-.
    apply elem_of_cons in Hq as [-> |Hq]; [by left|right]. eauto.
  - rewrite list_lookup_insert_ne in Hj by done. right. eauto.
Qed.
End lifetime.

(** ** Steps that leave the items alone *)
Record calm (s s' : Cache_Mgr) : Prop := {
  k_core : same_core s s';
  k_time : curr_time_ s' = curr_time_ s;
  k_watch : watch_map_ s' = watch_map_ s;
  k_id : last_cache_id_ s' = last_cache_id_ s
}.

Lemma same_core_refl s : slab_wf (slab_ s) -> same_core s s.
Proof. split; try done. split; [done|apply same_classes_refl]. Qed.
Lemma same_core_trans s1 s2 s3 : same_core s1 s2 -> same_core s2 s3 -> same_core s1 s3.
Proof.
  intros [H1 H2 H3 H4 H5 [Hw Hs] H7 H8 H9] [K1 K2 K3 K4 K5 [Kw Ks] K7 K8 K9]. split; try congruence.
  split; [done|]. unfold same_classes in *. rewrite Ks, Hs. done.
Qed.
Lemma calm_trans s1 s2 s3 : calm s1 s2 -> calm s2 s3 -> calm s1 s3.
Proof. intros [] []. split; [by eapply same_core_trans|congruence..]. Qed.

Lemma mem_write_length off src b b' : mem_write off src b = Some b' -> length b' = length b.
Proof.
  unfold mem_write. destruct (Z.leb_spec 0 off), (Z.leb_spec (off + Z.of_nat (length src)) (Z.of_nat (length b))); try done.
  cbn. intros [= <-]. rewrite !length_app, length_take, length_drop. lia.
Qed.

Definition class_event (ev : Z -> event) : Prop := forall i, 0 <= i < 200 -> event_ok (ev i).

Section steps.
Context (e : endian).
Implicit Types (s : Cache_Mgr) (held : holds) (p : ptr) (it : Cache_Item).

Lemma calm_inv s s' held : inv e s held -> calm s s' -> surroundings s' -> inv e s' held.
Proof. intros [Hc _] [Hs _ _ _] Hr. split; [by eapply core_same|done]. Qed.

Lemma calm_refl s held : inv e s held -> calm s s.
Proof. intros [Hc _]. split; try done. apply same_core_refl, Hc. Qed.

Lemma wp_stat s held g ev Q :
  inv e s held -> event_ok ev -> (forall s', calm s s' -> inv e s' held -> Q tt s') -> wp (Mgr.stat g ev) s Q.
Proof.
  intros Hi Hev HQ. pose proof Hi as [Hc [Hst Hw Ht Hk]]. apply wp_on.
  eapply wp_mono; [by apply record_wp|]. intros [] st (Hwf&_).
  assert (calm s (s <| stats_ := st |>)) as Hcalm.
  { split; try done. split; try done. split; [apply Hc|apply same_classes_refl]. }
  apply HQ; [done|]. eapply calm_inv; [done..|]. by split.
Qed.

Lemma wp_item s p it Q : heap s !! p = Some it -> Q it s -> wp (Mgr.item p) s Q.
Proof. intros Hp HQ. unfold Mgr.item. by wp_steps. Qed.

Lemma wp_update s p f it Q : heap s !! p = Some it -> Q tt (touch p (f it) s) -> wp (Mgr.update p f) s Q.
Proof. intros Hp HQ. unfold Mgr.update. apply wp_bind. eapply wp_item; [done|]. by apply wp_modify. Qed.

Lemma wp_update_opt s p f it it' Q :
  heap s !! p = Some it -> f it = Some it' -> Q tt (touch p it' s) -> wp (Mgr.update_opt p f) s Q.
Proof.
  intros Hp Hf HQ. unfold Mgr.update_opt. apply wp_bind. eapply wp_item; [done|]. apply wp_bind.
  eapply wp_the; [done|]. by apply wp_modify.
Qed.

Lemma wp_now s Q : Q (Current_Time.get_current_time (curr_time_ s)) s -> wp Mgr.now s Q.
Proof. done. Qed.

Lemma wp_get_class_id s held size Q :
  inv e s held -> 0 <= size ->
  (forall c s', calm s s' -> inv e s' held -> class_for (slab_ s) size c -> Q c s') ->
  wp (Mgr.get_class_id size) s Q.
Proof.
  intros Hi H0 HQ. pose proof Hi as [Hc [Hst Hw Ht Hk]]. apply wp_on.
  eapply wp_mono; [apply SlabFacts.get_class_id_spec; [apply Hc|done]|]. intros c sl (Hwf&Hs&Hcl).
  assert (calm s (s <| slab_ := sl |>)) as Hcalm by (split; try done; by split).
  apply HQ; [done| |done]. eapply calm_inv; [done..|]. by split.
Qed.

(** The id after [last_cache_id_]. *)
Definition next_id (n : Z) : Z := let id := u64 (n + 1) in if id =? 0 then 1 else id.
Lemma wp_get_cache_id s Q :
  Q (next_id (last_cache_id_ s)) (s <| last_cache_id_ := next_id (last_cache_id_ s) |>) -> wp Mgr.get_cache_id s Q.
Proof. intros HQ. unfold Mgr.get_cache_id. by wp_steps. Qed.

Lemma wp_realtime s x Q :
  Q (Current_Time.realtime (Current_Time.get_current_time (curr_time_ s)) x) s -> wp (Mgr.realtime x) s Q.
Proof. done. Qed.

Lemma realtime_range t x : 0 <= t -> 0 <= x -> 0 <= Current_Time.realtime t x < 2 ^ 32.
Proof.
  intros. unfold Current_Time.realtime. destruct (Z.eqb_spec x 0); [lia|].
  destruct (Z.leb_spec (u64 (x + t)) 0xFFFFFFFF); [|lia]. solve_range.
Qed.

(** The index of the expiry list. *)
Lemma expiration_at i : 0 <= i < 33 -> exists t, Slab.at_ Mgr.expiration_time_ i = Some t /\ (i = 0 -> t = 1) /\ 1 <= t.
Proof.
  intros Hi. assert (forallb (fun i => match Slab.at_ Mgr.expiration_time_ i with
      | Some t => (1 <=? t) && (negb (i =? 0) || (t =? 1)) | None => false end) (seqZ 0 33) = true) as Hall by by vm_compute.
  rewrite forallb_forall in Hall. specialize (Hall i). rewrite <- list_elem_of_In, elem_of_seqZ in Hall.
  specialize (Hall ltac:(lia)). destruct (Slab.at_ _ i) as [t|]; [|done]. exists t.
  apply andb_prop in Hall as [?%Z.leb_le Hz]. split; [done|]. split; [|done]. intros ->. by apply Z.eqb_eq in Hz.
Qed.

Lemma expiration_loop_range fuel x i :
  1 <= i <= 33 -> 33 - i < Z.of_nat fuel -> exists r, Mgr.expiration_loop fuel x i = Some r /\ 0 <= r <= 32.
Proof.
  revert i. induction fuel as [|fuel IH]; intros i Hi Hf; [lia|]. cbn [Mgr.expiration_loop].
  destruct (Z.ltb_spec i 33).
  - destruct (expiration_at i) as (t&->&_); [lia|]. destruct (x <? t); [exists (i - 1); split; [done|lia]|]. apply IH; lia.
  - exists (i - 1). split; [done|lia].
Qed.

Lemma get_expiration_id_range now t : exists r, Mgr.get_expiration_id now t = Some r /\ 0 <= r <= 33.
Proof.
  unfold Mgr.get_expiration_id. destruct (t =? 0); [exists 33; split; [done|lia]|]. destruct (t >? now); [|exists 0; split; [done|lia]].
  destruct (expiration_loop_range 33 (t - now) 1) as (r&->&?); [lia..|]. exists r. split; [done|lia].
Qed.

Lemma new_list_loop_some n x : (n < 33)%nat -> 1 <= x ->
  exists j, Mgr.new_list_loop n x = Some (Some j) /\ 0 <= j <= Z.of_nat n.
Proof.
  intros Hn Hx. induction n as [|n IH]; unfold Mgr.new_list_loop; fold Mgr.new_list_loop.
  - destruct (expiration_at 0) as (t&Ht&H1&_); [lia|]. change (Z.of_nat 0) with 0. rewrite Ht.
    rewrite H1 by done. destruct (Z.geb_spec x 1); [|lia]. exists 0. split; [done|lia].
  - destruct (expiration_at (Z.of_nat (S n))) as (t&->&_); [lia|]. destruct (Z.geb_spec x t).
    + eexists. split; [done|]. lia.
    + destruct IH as (j&Hj&?); [lia|]. exists j. split; [done|]. lia.
Qed.
End steps.

Lemma placed_same s s' : expire_list_ s' = expire_list_ s -> free_cache_list_ s' = free_cache_list_ s ->
  flush_cache_list_ s' = flush_cache_list_ s -> placed s' = placed s.
Proof. unfold placed. by intros -> -> ->. Qed.

(** ** Steps on one item

    [around p s s']: nothing but the item [p] changes for the others. *)
Record around (p : ptr) (s s' : Cache_Mgr) : Prop := {
  a_heap : forall q, q <> p -> heap s' !! q = heap s !! q;
  a_placed : forall q, q <> p -> q ∈ placed s' <-> q ∈ placed s;
  a_time : curr_time_ s' = curr_time_ s
}.
Lemma core_around p s s' : same_core s s' -> curr_time_ s' = curr_time_ s -> around p s s'.
Proof. intros [] ?. split; try congruence. intros q _. by rewrite (placed_same s s'). Qed.
Lemma calm_around p s s' : calm s s' -> around p s s'.
Proof. intros []. by apply core_around. Qed.
Lemma around_trans p s1 s2 s3 : around p s1 s2 -> around p s2 s3 -> around p s1 s3.
Proof.
  intros H1 H2. pose proof H1 as [Hh1 Hp1 ?]. pose proof H2 as [Hh2 Hp2 ?]. split; try congruence.
  - intros q Hq. by rewrite Hh2, Hh1.
  - intros q Hq. rewrite Hp2, Hp1 by done. done.
Qed.
Lemma placed_cons p s s' : placed s' ≡ₚ p :: placed s \/ placed s ≡ₚ p :: placed s' ->
  forall q, q <> p -> q ∈ placed s' <-> q ∈ placed s.
Proof. intros [Hp|Hp] q Hq; rewrite Hp, elem_of_cons; naive_solver. Qed.
Lemma around_touch p it s : around p s (touch p it s).
Proof. split; try done. intros q Hq. cbn. by rewrite lookup_insert_ne. Qed.

Section item_steps.
Context (e : endian) `{Table_Malloc} (alive : sink -> bool).
Implicit Types (s : Cache_Mgr) (held : holds) (p : ptr) (it : Cache_Item).

Lemma event_class ev : event_ok ev <-> Forall step_ok (meaning ev).
Proof. done. Qed.

Lemma class_range sl it : slab_wf sl -> item_wf sl it -> 0 <= class_id it < 200.
Proof. intros Hs Hi. pose proof (wf_max _ Hs). pose proof (iw_class _ _ Hi). lia. Qed.

(** The watches of an item are told, in order: the update is queued in each of
    those that exist. *)
Definition tell (id : Z) (ty : watch_notify_type) (w : Z) (m : gmap Z watch) : gmap Z watch :=
  match m !! w with Some x => <[w := (Cache_Watch.notify_watch alive id ty x).2]> m | None => m end.
Definition told (id : Z) (ty : watch_notify_type) (ws : list Z) (m : gmap Z watch) : gmap Z watch :=
  foldl (fun m w => tell id ty w m) m ws.
Definition existing (m : gmap Z watch) (ws : list Z) : list Z := base.filter (fun w => is_Some (m !! w)) ws.

Lemma tell_dom id ty w m : dom (tell id ty w m) = dom m.
Proof. unfold tell. destruct (m !! w) eqn:E; [|done]. apply dom_insert_lookup_L. by rewrite E. Qed.
Lemma told_dom id ty ws m : dom (told id ty ws m) = dom m.
Proof.
  revert m. induction ws as [|x ws IH]; intros m; [done|]. etrans; [apply (IH (tell id ty x m))|apply tell_dom].
Qed.
Lemma existing_dom m m' ws : dom m' = dom m -> existing m' ws = existing m ws.
Proof.
  intros Hd. unfold existing. apply list_filter_iff. intros w. by rewrite <- !elem_of_dom, Hd.
Qed.

Lemma wp_notify_loop s held id ty ws Q :
  inv e s held ->
  (forall s', same_core s s' -> curr_time_ s' = curr_time_ s -> last_cache_id_ s' = last_cache_id_ s ->
     watch_map_ s' = told id ty ws (watch_map_ s) -> inv e s' held -> Q (existing (watch_map_ s) ws) s') ->
  wp (Mgr.notify_loop alive id ty ws) s Q.
Proof.
  revert s Q. induction ws as [|w ws IH]; intros s Q Hi HQ; cbn [Mgr.notify_loop].
  - apply wp_ret. apply HQ; try done. apply same_core_refl, Hi.
  - apply wp_bind, wp_gets. unfold existing in HQ. rewrite filter_cons in HQ.
    change (told id ty (w :: ws) (watch_map_ s)) with (told id ty ws (tell id ty w (watch_map_ s))) in HQ.
    unfold tell in HQ. destruct (watch_map_ s !! w) as [watch|] eqn:E.
    2:{ apply IH; [done|]. by rewrite decide_False in HQ by (by intros [? ?]). }
    rewrite decide_True in HQ by eauto.
    pose proof Hi as [Hc [Hst Hw Ht Hk]]. pose proof (Hw w watch E) as Hww. cbn in Hww.
    destruct (watch_step_spec alive (Notify id ty) watch Hww) as (a&calls&w1&Hstep&Hwf1&_).
    cbn [watch_step] in Hstep. destruct (Cache_Watch.notify_watch alive id ty watch) as [c w2] eqn:En.
    injection Hstep as <- <- <-. wp_steps.
    set (s1 := s <| watch_map_ ::= _ |> <| notified_ ::= _ |>).
    assert (same_core s s1) as Hs1.
    { split; try done; split; [apply Hc|apply same_classes_refl]. }
    assert (inv e s1 held) as Hi1.
    { split; [by eapply core_same|]. split; try done. subst s1. cbn. by apply map_Forall_insert_2. }
    assert (dom (watch_map_ s1) = dom (watch_map_ s)) as Hd by (apply dom_insert_lookup_L; by rewrite E).
    eapply IH; [done|]. intros s' Hs2 Ht2 Hid2 Hw2 Hi2. wp_steps.
    rewrite (existing_dom (watch_map_ s)) by done. apply HQ; try done. by eapply same_core_trans.
Qed.

(** One more reference for a caller. *)
Lemma inv_ref s held p it :
  inv e s held -> heap s !! p = Some it -> p ∉ concat (free_cache_list_ s) -> refs s held p + 1 < 2 ^ 16 ->
  inv e (touch p (it <| ref_count := u16 (ref_count it + 1) |>) s) (give p 1 held).
Proof.
  intros Hi Hp Hf Hr. pose proof Hi as [Hc _]. destruct (c_item _ _ _ Hc p it Hp Hf) as (Hwf&Href&Hpos).
  pose proof (c_held _ _ _ Hc p).
  eapply inv_update; [done..| | | | | |].
  - by split.
  - solve_item_wf Hwf.
  - intros q Hq. by rewrite give_ne.
  - rewrite give_eq. lia.
  - cbn. rewrite wrap_small by lia. unfold refs in *. rewrite give_eq. lia.
  - unfold refs in *. rewrite give_eq. lia.
Qed.

Lemma refs_linked s held p : core e s held -> p ∈ linked s -> refs s held p = held p + 1.
Proof.
  intros Hc Hp. destruct (linked_placed e s held p Hc Hp) as [_ Hf]. unfold refs.
  rewrite decide_True, decide_False by done. lia.
Qed.

Lemma wp_add_ref s held p it Q :
  inv e s held -> heap s !! p = Some it -> p ∈ linked s -> held p < 2 ^ 16 - 4 ->
  (let s' := touch p (it <| ref_count := ref_count it + 1 |>) s in inv e s' (give p 1 held) -> Q tt s') ->
  wp (Mgr.add_ref p) s Q.
Proof.
  intros Hi Hp Hl Hr HQ. pose proof Hi as [Hc _].
  pose proof (refs_linked s held p Hc Hl) as Hre. pose proof (c_held _ _ _ Hc p).
  pose proof (linked_item e s held p it Hc Hl Hp) as (_&Href&_).
  pose proof (inv_ref s held p it Hi Hp (not_free e s held p Hc Hl) ltac:(lia)) as Hi'.
  eapply wp_update; [done|]. rewrite wrap_small in * by lia. by apply HQ.
Qed.

Lemma wp_lists_load n l s Q : Lists.get n s = Some l -> Q l s -> wp (Lists.load n) s Q.
Proof. intros Hl HQ. unfold Lists.load. apply wp_bind, wp_gets. eapply wp_the; done. Qed.

Lemma get_expire s i l : expire_list_ s !! i = Some l -> Lists.get (Expire (Z.of_nat i)) s = Some l.
Proof. intros Hi. cbn. destruct (Z.ltb_spec (Z.of_nat i) 0); [lia|]. by rewrite Nat2Z.id. Qed.
Lemma get_free s i l : free_cache_list_ s !! i = Some l -> Lists.get (Free (Z.of_nat i)) s = Some l.
Proof. intros Hi. cbn. destruct (Z.ltb_spec (Z.of_nat i) 0); [lia|]. by rewrite Nat2Z.id. Qed.

(** The list a linked item is in. *)
Lemma linked_list s held p it :
  core e s held -> p ∈ linked s -> heap s !! p = Some it ->
  exists i l, expire_list_ s !! i = Some l /\ p ∈ l /\ expiration_id it = Z.of_nat i.
Proof.
  intros Hc Hp Hit. rewrite <- (c_expire _ _ _ Hc) in Hp. apply elem_of_concat in Hp as (i&l&Hi&Hl).
  exists i, l. split; [done|]. split; [done|]. by eapply (c_list _ _ _ Hc).
Qed.

Lemma wp_is_linked s i l p Q :
  expire_list_ s !! i = Some l -> p ∈ l -> NoDup l -> Q true s -> wp (Lists.is_linked (Expire (Z.of_nat i)) p) s Q.
Proof.
  intros Hi Hp Hnd HQ. unfold Lists.is_linked. apply wp_bind. eapply wp_lists_load; [by apply get_expire|].
  wp_steps. unfold id.
  assert (bool_decide (l = [p]) || existsb (fun l => bool_decide (p ∈ l) && (2 <=? length l)%nat) (Lists.all s) = true) as ->; [|done].
  destruct l as [|x [|y l]]; [by apply elem_of_nil in Hp| |].
  - apply list_elem_of_singleton in Hp as ->. by rewrite bool_decide_eq_true_2.
  - apply orb_true_iff. right. apply existsb_exists. exists (x :: y :: l). split.
    + apply list_elem_of_In. unfold Lists.all. rewrite elem_of_app. left. by eapply list_elem_of_lookup_2.
    + by rewrite bool_decide_eq_true_2.
Qed.

Lemma wp_not_linked s i l p Q :
  expire_list_ s !! i = Some l -> p ∉ placed s -> Q false s -> wp (Lists.is_linked (Expire (Z.of_nat i)) p) s Q.
Proof.
  intros Hi Hp HQ. unfold Lists.is_linked. apply wp_bind. eapply wp_lists_load; [by apply get_expire|].
  wp_steps. unfold id.
  assert (bool_decide (l = [p]) || existsb (fun l => bool_decide (p ∈ l) && (2 <=? length l)%nat) (Lists.all s) = false) as ->; [|done].
  apply orb_false_iff. split.
  - apply bool_decide_eq_false_2. intros ->. apply Hp. unfold placed. rewrite elem_of_app. left.
    apply elem_of_concat. exists i, [p]. split; [done|by left].
  - apply not_true_iff_false. intros (m&Hm&[Hpm _]%andb_prop)%existsb_exists.
    assert (Lists.linked p s = true) as Hl by (unfold Lists.linked; apply existsb_exists; eauto).
    rewrite linked_spec in Hl. by apply bool_decide_eq_true in Hl.
Qed.
End item_steps.

Section primitives.
Context (e : endian) `{Table_Malloc} (alive : sink -> bool).
Implicit Types (s : Cache_Mgr) (held : holds) (p : ptr) (it : Cache_Item).

Lemma expire_nodup s held i l : core e s held -> expire_list_ s !! i = Some l -> NoDup l.
Proof.
  intros Hc Hi. pose proof (c_nodup _ _ _ Hc) as Hn. unfold placed in Hn. apply NoDup_app in Hn as [Hn _].
  destruct (concat_lookup _ _ _ l Hi) as (r&Hr&_). rewrite Hr in Hn. by apply NoDup_app in Hn as [Hn _].
Qed.

Lemma wp_lists_remove s i l p Q :
  expire_list_ s !! i = Some l -> p ∈ l ->
  Q tt (s <| expire_list_ ::= <[i := Seq.remove p l]> |>) -> wp (Lists.remove (Expire (Z.of_nat i)) p) s Q.
Proof.
  intros Hi Hp HQ. unfold Lists.remove. apply wp_bind. eapply wp_lists_load; [by apply get_expire|].
  apply wp_bind, wp_assert; [by apply bool_decide_eq_true|]. apply wp_modify. cbn. by rewrite Nat2Z.id.
Qed.

Lemma touch_id p it s : heap s !! p = Some it -> heap (touch p it s) = heap s.
Proof. intros Hp. cbn. by apply insert_id. Qed.

(** A new value of a member no reference depends on. *)
Lemma inv_set s held p it it' :
  inv e s held -> heap s !! p = Some it -> p ∉ concat (free_cache_list_ s) ->
  in_place s p it it' -> item_wf (slab_ s) it' -> ref_count it' = ref_count it ->
  inv e (touch p it' s) held.
Proof.
  intros Hi Hp Hf Hin Hwf Hr. pose proof Hi as [Hc _]. destruct (c_item _ _ _ Hc p it Hp Hf) as (?&Href&Hpos).
  eapply inv_update; try done; [apply Hc|congruence].
Qed.

Lemma placed_free s p : p ∉ placed s -> p ∉ concat (free_cache_list_ s).
Proof. intros Hp Hf. apply Hp. unfold placed. rewrite !elem_of_app. auto. Qed.

Lemma wp_notify_watch s held p it ws ty Q :
  inv e s held -> heap s !! p = Some it -> p ∉ concat (free_cache_list_ s) -> watch_item it = Some ws ->
  (forall s', inv e s' held -> around p s s' -> cache_hash_map_ s' = cache_hash_map_ s ->
     expire_list_ s' = expire_list_ s -> free_cache_list_ s' = free_cache_list_ s ->
     flush_cache_list_ s' = flush_cache_list_ s -> last_cache_id_ s' = last_cache_id_ s ->
     watch_map_ s' = told alive (cache_id it) ty ws (watch_map_ s) -> expire_check_time_ s' = expire_check_time_ s ->
     heap s' !! p = Some (it <| watch_item := Some (existing (watch_map_ s) ws) |>) -> Q tt s') ->
  wp (Mgr.notify_watch alive p ty) s Q.
Proof.
  intros Hi Hp Hf Hws HQ. unfold Mgr.notify_watch. apply wp_bind. eapply wp_item; [done|].
  apply wp_bind. eapply wp_the; [done|]. apply wp_bind. eapply wp_notify_loop; [done|]. intros s' Hsc Ht' Hid' Hw' Hi'.
  assert (heap s' !! p = Some it) as Hp' by (by rewrite (sc_heap _ _ Hsc)).
  assert (p ∉ concat (free_cache_list_ s')) as Hf' by (by rewrite (sc_free _ _ Hsc)).
  eapply wp_update; [done|]. apply HQ.
  - eapply inv_set; [done..|by split| |done]. pose proof Hi' as [Hc' _].
    destruct (c_item _ _ _ Hc' p it Hp' Hf') as [Hwf _]. solve_item_wf Hwf.
  - eapply around_trans; [by apply core_around|apply around_touch].
  - apply Hsc.
  - apply Hsc.
  - apply Hsc.
  - apply Hsc.
  - done.
  - done.
  - apply Hsc.
  - cbn. by rewrite lookup_insert_eq.
Qed.

(** The lists after an item left that of its expiration. *)
Record left_list (s : Cache_Mgr) (p : ptr) (s' : Cache_Mgr) : Prop := {
  ll_lists : forall i l, expire_list_ s !! i = Some l -> p ∈ l -> expire_list_ s' = <[i := Seq.remove p l]> (expire_list_ s);
  ll_check : expire_check_time_ s' = expire_check_time_ s
}.

(** The list an item is in is the only one. *)
Lemma only_list s held p it i j l m :
  core e s held -> heap s !! p = Some it -> expire_list_ s !! i = Some l -> p ∈ l -> expire_list_ s !! j = Some m -> p ∈ m ->
  j = i /\ m = l.
Proof.
  intros Hc Hp Hi Hl Hj Hm. pose proof (c_list _ _ _ Hc i l p it Hi Hl Hp). pose proof (c_list _ _ _ Hc j m p it Hj Hm Hp).
  assert (j = i) as -> by lia. split; [done|congruence].
Qed.

Lemma wp_take_out s held p it ty Q :
  inv e s held -> p ∈ linked s -> heap s !! p = Some it ->
  (forall s', inv e s' (give p 1 held) -> around p s s' -> heap s' !! p = Some (it <| watch_item := None |>) ->
     linked s ≡ₚ p :: linked s' -> p ∉ placed s' -> last_cache_id_ s' = last_cache_id_ s ->
     watch_map_ s' = told alive (cache_id it) ty (default [] (watch_item it)) (watch_map_ s) ->
     left_list s p s' -> Q tt s') ->
  wp (Mgr.take_out alive p ty) s Q.
Proof.
  intros Hi Hl Hp HQ. pose proof Hi as [Hc _].
  destruct (linked_list e s held p it Hc Hl Hp) as (i&l&Hil&Hpin&Hx).
  destruct (linked_item e s held p it Hc Hl Hp) as (Hwf&_).
  unfold Mgr.take_out. apply wp_bind. eapply wp_item; [done|]. rewrite Hx.
  apply wp_bind. eapply wp_is_linked; [done..|by eapply expire_nodup|].
  apply wp_bind, wp_assert; [done|]. apply wp_bind. eapply wp_stat; [exact Hi| |].
  { apply event_class. repeat constructor. }
  intros s1 Hk1 Hi1. pose proof (k_core _ _ Hk1) as Hs1. pose proof Hi1 as [Hc1 Hr1].
  assert (heap s1 !! p = Some it) as Hp1 by (by rewrite (sc_heap _ _ Hs1)).
  assert (p ∈ linked s1) as Hl1 by (by rewrite (sc_hash _ _ Hs1)).
  rewrite <- (sc_expire _ _ Hs1) in Hil. destruct (linked_item e s1 held p it Hc1 Hl1 Hp1) as (Hwf1&_).
  destruct (get_key_wf _ _ Hwf) as [Hkey _]. apply wp_bind. eapply wp_the; [exact Hkey|].
  apply wp_bind, wp_modify. apply wp_bind. eapply wp_lists_remove; [exact Hil|done|].
  set (s2 := s1 <| cache_hash_map_ := _ |>). set (s3 := s2 <| expire_list_ ::= _ |>).
  destruct (core_unlink e s1 s3 held p it it i l) as (Hc3&Hperm&Hnp&Hpl3); try done.
  { subst s3 s2. cbn. by rewrite insert_id. }
  assert (inv e s3 (give p 1 held)) as Hi3 by (split; [done|]; destruct Hr1; by split).
  assert (around p s s3) as Ha3.
  { eapply around_trans; [by apply calm_around|]. split; try done. apply placed_cons. by right. }
  rewrite (sc_hash _ _ Hs1) in Hperm. pose proof (k_id _ _ Hk1) as Hid.
  assert (p ∉ concat (free_cache_list_ s3)) as Hf3 by (by apply placed_free).
  destruct (watch_item it) as [ws|] eqn:Hws.
  - apply wp_bind. eapply (wp_notify_watch s3); [done| |done..|].
    { subst s3 s2. cbn. done. }
    intros s4 Hi4 Ha4 Hm4 He4 Hf4 Hfl4 Hid4 Hw4 Hck4 Hp4. eapply wp_update; [done|].
    assert (p ∉ placed s4) as Hnp4 by (by rewrite (placed_same s3)).
    apply HQ.
    + eapply inv_set; [done..|by apply placed_free|by split| |done]. pose proof Hi4 as [Hc4 _].
      destruct (c_item _ _ _ Hc4 p _ Hp4 (placed_free _ _ Hnp4)) as [Hwf4 _]. solve_item_wf Hwf4.
    + eapply around_trans; [done|]. eapply around_trans; [done|]. apply around_touch.
    + cbn. by rewrite lookup_insert_eq.
    + cbn. by rewrite Hm4.
    + done.
    + cbn. by rewrite Hid4.
    + cbn. rewrite Hw4. change (watch_map_ s3) with (watch_map_ s1). by rewrite (k_watch _ _ Hk1).
    + split; [|cbn; rewrite Hck4; apply Hs1]. intros j m Hj Hm. rewrite <- (sc_expire _ _ Hs1) in Hj |- *.
      destruct (only_list s1 held p it i j l m) as [-> ->]; done.
  - apply wp_ret. apply HQ; try done.
    + subst s3 s2. cbn. rewrite Hp1. f_equal. by destruct it; cbn in *; subst.
    + apply (k_watch _ _ Hk1).
    + split; [|apply Hs1]. intros j m Hj Hm. rewrite <- (sc_expire _ _ Hs1) in Hj |- *.
      destruct (only_list s1 held p it i j l m) as [-> ->]; done.
Qed.
End primitives.

Section release.
Context (e : endian).
Implicit Types (s : Cache_Mgr) (held : holds) (p : ptr) (it : Cache_Item).

Lemma wp_elem f i s x Q : Slab.at_ (f s) i = Some x -> Q x s -> wp (Mgr.elem f i) s Q.
Proof. intros Hx HQ. unfold Mgr.elem. apply wp_bind, wp_gets. eapply wp_the; done. Qed.

Lemma at_lookup (l : list Z) i : 0 <= i < Z.of_nat (length l) -> exists x, Slab.at_ l i = Some x.
Proof.
  intros Hi. unfold Slab.at_. destruct (Z.ltb_spec i 0); [lia|].
  destruct (lookup_lt_is_Some_2 l (Z.to_nat i)) as [x Hx]; [lia|]. by exists x.
Qed.

(** What a step on [p] that leaves the hash map and the expiry lists alone
    guarantees. *)
Record kept (s s' : Cache_Mgr) : Prop := {
  kp_hash : cache_hash_map_ s' = cache_hash_map_ s;
  kp_expire : expire_list_ s' = expire_list_ s;
  kp_flush : flush_cache_list_ s' = flush_cache_list_ s;
  kp_id : last_cache_id_ s' = last_cache_id_ s;
  kp_watch : watch_map_ s' = watch_map_ s;
  kp_check : expire_check_time_ s' = expire_check_time_ s
}.

(** The last reference goes: the item returns to its free list ... *)
Lemma core_to_free_list s s' held p it it' c f :
  core e s held -> heap s !! p = Some it -> p ∉ placed s -> held p = 1 ->
  length (body it') = length (body it) -> watch_item it' = None -> cache_id it' = 0 ->
  class_id it = Z.of_nat c -> free_cache_list_ s !! c = Some f ->
  heap s' = <[p := it']> (heap s) -> free_cache_list_ s' = <[c := p :: f]> (free_cache_list_ s) ->
  cache_hash_map_ s' = cache_hash_map_ s -> expire_list_ s' = expire_list_ s ->
  flush_cache_list_ s' = flush_cache_list_ s -> slab_ s' = slab_ s ->
  mem_limit_ s' = mem_limit_ s -> mem_used_ s' = mem_used_ s ->
  core e s' (give p (-1) held).
Proof.
  intros Hc Hp Hpl Hh Hb Hw0 Hid0 Hcid Hf Eh Ef Em Ee Efl Es El Eu.
  destruct (c_item _ _ _ Hc p it Hp (placed_free _ _ Hpl)) as [Hwf _].
  pose proof (iw_class _ _ Hwf). pose proof (iw_body _ _ Hwf) as Hbody. rewrite Hcid in *.
  destruct (free_push e s held c f p Hc Hf Hpl) as (Hfp&Hfn&Hfl&Hfs).
  unfold placed in Hpl. rewrite (c_expire _ _ _ Hc) in Hpl.
  apply (core_free_lists e s s' held _ p); rewrite ?Ef, ?Es; try done.
  - set_solver.
  - set_solver.
  - intros q Hq. by rewrite Eh, lookup_insert_ne.
  - intros q Hq. by rewrite give_ne.
  - rewrite give_eq. lia.
  - intros q Hq. rewrite Hfp. set_solver.
  - intros i l' q Hi Hq Hqp. destruct (Hfs i l' q Hi Hq) as [[-> _]|[_ ?]]; done.
  - intros i l' Hi Hq. destruct (Hfs i l' p Hi Hq) as [[_ ->]|[? _]]; [|done].
    exists it'. rewrite give_eq, Eh, lookup_insert_eq. split_and!; done || lia.
  - intros it'' _ Hn. exfalso. apply Hn. rewrite Hfp. by left.
  - by rewrite Eh, lookup_insert_eq.
  - apply Hc.
  - apply same_classes_refl.
  - rewrite Eu, Eh, (mem_of_update _ p it) by done. apply Hc.
  - rewrite Eu, El. apply Hc.
Qed.

(** ... or its memory to the heap. *)
Lemma core_to_heap s s' held p it :
  core e s held -> heap s !! p = Some it -> p ∉ placed s -> held p = 1 ->
  heap s' = base.delete p (heap s) -> free_cache_list_ s' = free_cache_list_ s ->
  cache_hash_map_ s' = cache_hash_map_ s -> expire_list_ s' = expire_list_ s ->
  flush_cache_list_ s' = flush_cache_list_ s -> slab_ s' = slab_ s ->
  mem_limit_ s' = mem_limit_ s -> mem_used_ s' = u64 (mem_used_ s - size_of (slab_ s) (class_id it)) ->
  core e s' (give p (-1) held).
Proof.
  intros Hc Hp Hpl Hh Eh Ef Em Ee Efl Es El Eu.
  destruct (c_item _ _ _ Hc p it Hp (placed_free _ _ Hpl)) as [Hwf _]. pose proof (iw_body _ _ Hwf) as Hbody.
  assert (p ∉ linked s /\ p ∉ flush_cache_list_ s /\ p ∉ concat (free_cache_list_ s)) as (Hnl&Hnf&Hnfr).
  { unfold placed in Hpl. rewrite (c_expire _ _ _ Hc) in Hpl. set_solver. }
  pose proof (mem_of_delete (heap s) p it Hp) as Hmem. destruct (c_mem _ _ _ Hc) as [Hu Hul].
  assert (0 <= mem_of (base.delete p (heap s))) as Hpos.
  { pose proof (mem_of_size (base.delete p (heap s)) 0) as Hz0. rewrite Z.mul_0_l in Hz0. apply Hz0.
    unfold offsetof_body. intros; lia. }
  assert (mem_used_ s' = mem_of (heap s')) as Hu3.
  { rewrite Eh, Eu. rewrite wrap_small; unfold offsetof_body in *; lia. }
  apply (core_free_lists e s s' held _ p); rewrite ?Ef, ?Es; try done.
  - intros q Hq. by rewrite Eh, lookup_delete_ne.
  - intros q Hq. by rewrite give_ne.
  - rewrite give_eq. lia.
  - apply Hc.
  - exact (free_nodup e s held Hc).
  - eauto.
  - intros i l' Hi Hq. exfalso. apply Hnfr, elem_of_concat. eauto.
  - intros it'. by rewrite Eh, lookup_delete_eq.
  - intros _. rewrite give_eq. lia.
  - apply Hc.
  - apply same_classes_refl.
  - rewrite Hu3, Eh, El. unfold offsetof_body in *. lia.
Qed.

Lemma wp_free_item s held p it Q :
  inv e s held -> heap s !! p = Some it -> p ∉ placed s -> held p = 1 ->
  (forall s', inv e s' (give p (-1) held) -> around p s s' -> kept s s' -> Q tt s') ->
  wp (Mgr.free_item p) (touch p (it <| ref_count := 0 |>) s) Q.
Proof.
  intros [Hc Hr] Hp Hpl Hh HQ. destruct (c_item _ _ _ Hc p it Hp (placed_free _ _ Hpl)) as ([] & _ & _).
  set (s1 := touch p (it <| ref_count := 0 |>) s). assert (heap s1 !! p = Some (it <| ref_count := 0 |>)) as Hp1 by apply lookup_insert_eq.
  unfold Mgr.free_item. apply wp_bind. eapply wp_item; [exact Hp1|]. cbn [expiration_id ref_count class_id set const].
  destruct (c_lens _ _ _ Hc) as [Hle Hlf]. pose proof (wf_max _ (c_slab _ _ _ Hc)) as Hmx.
  destruct (lookup_lt_is_Some_2 (expire_list_ s1) (Z.to_nat (expiration_id it))) as [l Hl]; [cbn; lia|].
  apply wp_bind. replace (expiration_id it) with (Z.of_nat (Z.to_nat (expiration_id it))) by lia.
  eapply wp_not_linked; [exact Hl|done|]. apply wp_bind, wp_assert; [done|]. apply wp_bind, wp_assert; [done|].
  apply wp_bind. eapply wp_update; [exact Hp1|]. set (s2 := touch p (Item.reset _) s1).
  set (c := Z.to_nat (class_id it)). assert (class_id it = Z.of_nat c) as Hcid by lia. rewrite Hcid.
  destruct (lookup_lt_is_Some_2 (free_cache_list_ s) c) as [f Hf]; [lia|].
  unfold Lists.size. apply wp_bind, wp_bind. eapply wp_lists_load; [apply get_free; exact Hf|]. apply wp_ret.
  destruct (at_lookup (free_cache_max_count (slab_ s2)) (Z.of_nat c)) as [m Hm].
  { cbn. rewrite (wf_counts _ (c_slab _ _ _ Hc)). lia. }
  apply wp_bind. eapply wp_elem; [exact Hm|].
  assert (heap s2 = <[p := Item.reset (it <| ref_count := 0 |>)]> (heap s)) as Hh2.
  { subst s2 s1. cbn. by rewrite insert_insert_eq. }
  destruct (u32 (Z.of_nat (length f)) <? m).
  - unfold Lists.push_front. apply wp_bind. eapply wp_lists_load; [apply get_free; exact Hf|].
    apply wp_bind, wp_gets. rewrite linked_spec, bool_decide_eq_false_2 by exact Hpl.
    apply wp_bind, wp_assert; [done|]. apply wp_modify. set (s3 := Lists.put _ _ s2).
    apply HQ; [split; [|destruct Hr; by split]| |by split].
    + apply (core_to_free_list s s3 held p it (Item.reset (it <| ref_count := 0 |>)) c f); try done. subst s3. cbn. by rewrite Nat2Z.id.
    + split; try done; [intros q Hq; change (heap s3) with (heap s2); by rewrite Hh2, lookup_insert_ne|].
      apply placed_cons. left. destruct (free_push e s held c f p Hc Hf Hpl) as (Hfp&_).
      unfold placed. subst s3. cbn. rewrite Nat2Z.id, Hfp. cbn. by rewrite <- Permutation_middle.
  - apply wp_bind. pose proof (SlabFacts.at_size_of (slab_ s) (Z.of_nat c) (c_slab _ _ _ Hc) ltac:(lia)) as Ha.
    eapply wp_elem; [exact Ha|]. apply wp_modify. set (s3 := s2 <| heap ::= _ |> <| mem_used_ ::= _ |>).
    assert (heap s3 = base.delete p (heap s)) as Hh3.
    { subst s3. cbn [heap set const]. rewrite Hh2. by rewrite delete_insert_eq. }
    apply HQ; [split; [|destruct Hr; by split]| |by split].
    + eapply (core_to_heap s s3 held p it); try done. by rewrite Hcid.
    + split; try done. intros q Hq. by rewrite Hh3, lookup_delete_ne.
Qed.

(** Giving a reference back: of an item others still refer to, or of the last. *)
Lemma wp_release s held p it Q :
  inv e s held -> heap s !! p = Some it -> 0 < held p -> refs s held p < 2 ^ 16 ->
  (forall s', inv e s' (give p (-1) held) -> around p s s' -> kept s s' ->
     (1 < refs s held p -> heap s' !! p = Some (it <| ref_count := ref_count it - 1 |>)) -> Q tt s') ->
  wp (Mgr.do_release_reference p) s Q.
Proof.
  intros Hi Hp Hh Hroom HQ. pose proof Hi as [Hc Hr].
  destruct (held_heap e s held p Hc Hh) as (_&_&Hnf). destruct (c_item _ _ _ Hc p it Hp Hnf) as (Hwf&Href&Hpos).
  unfold Mgr.do_release_reference. apply wp_bind. eapply wp_item; [done|].
  apply wp_bind, wp_assert; [apply Z.gtb_lt; lia|]. apply wp_bind. eapply wp_update; [done|].
  apply wp_bind. eapply wp_item; [apply lookup_insert_eq|]. cbn [ref_count set const].
  rewrite wrap_small by lia. destruct (Z.eqb_spec (ref_count it - 1) 0) as [Hz|Hz].
  - rewrite Hz. assert (held p = 1 /\ p ∉ linked s /\ p ∉ flush_cache_list_ s) as (Hh1&Hnl&Hnfl).
    { unfold refs in *. repeat case_decide; (lia || (split_and!; [lia|done..])). }
    eapply wp_free_item; try done.
    + unfold placed. rewrite (c_expire _ _ _ Hc). set_solver.
    + intros s' Hi' Ha Hk. apply HQ; [done..|lia].
  - apply wp_ret. apply HQ.
    + eapply inv_update; try done.
      * solve_item_wf Hwf.
      * intros q Hq. by rewrite give_ne.
      * rewrite give_eq. lia.
      * cbn. unfold refs in *. rewrite give_eq. lia.
      * unfold refs in *. rewrite give_eq. lia.
    + apply around_touch.
    + done.
    + intros _. cbn. apply lookup_insert_eq.
Qed.
End release.

Section link_unlink.
Context (e : endian) `{Table_Malloc} `{Item_Malloc} `{!Item_Malloc_Ok} (alive : sink -> bool).
Implicit Types (s : Cache_Mgr) (held : holds) (p : ptr) (it : Cache_Item).

Lemma inv_held s held held' : (forall p, held' p = held p) -> inv e s held -> inv e s held'.
Proof. intros Hh [Hc Hr]. split; [by eapply core_held|done]. Qed.

Lemma give_give p n m held q : give p n (give p m held) q = give p (m + n) held q.
Proof. unfold give. case_decide; lia. Qed.
Lemma give_0 p held q : give p 0 held q = held q.
Proof. unfold give. case_decide; lia. Qed.

(** [do_unlink]: the item leaves the cache; it stays for who holds it. *)
Lemma wp_do_unlink s held p it ty Q :
  inv e s held -> p ∈ linked s -> heap s !! p = Some it -> held p < 2 ^ 16 - 4 ->
  (forall s', inv e s' held -> around p s s' -> linked s ≡ₚ p :: linked s' -> last_cache_id_ s' = last_cache_id_ s ->
     watch_map_ s' = told alive (cache_id it) ty (default [] (watch_item it)) (watch_map_ s) ->
     left_list s p s' ->
     (0 < held p -> p ∉ placed s' /\
        heap s' !! p = Some (it <| watch_item := None |> <| ref_count := ref_count it - 1 |>)) -> Q tt s') ->
  wp (Mgr.do_unlink alive p ty) s Q.
Proof.
  intros Hi Hl Hp Hr HQ. pose proof Hi as [Hc _]. pose proof (c_held _ _ _ Hc p) as Hh0.
  unfold Mgr.do_unlink. apply wp_bind. eapply wp_take_out; [done..|]. intros s1 Hi1 Ha1 Hp1 Hperm Hnp Hid1 Hw1 [Hl1 Hck1].
  pose proof Hi1 as [Hc1 _]. pose proof (refs_placed e s1 _ p Hc1 Hnp) as Href. rewrite give_eq in Href.
  eapply wp_release; [done..|rewrite give_eq; lia|lia|]. intros s2 Hi2 Ha2 [Hm2 He2 Hf2 Hid2 Hw2 Hck2] Hp2.
  apply HQ.
  - eapply inv_held; [|done]. intros q. rewrite give_give. by rewrite give_0.
  - by eapply around_trans.
  - by rewrite Hm2.
  - congruence.
  - by rewrite Hw2.
  - split; [|congruence]. rewrite He2. apply Hl1.
  - intros Hpos. rewrite Hp2 by lia. split; [|done]. pose proof Hi2 as [Hc2 _].
    unfold placed in *. rewrite He2, Hf2. intros Hin. apply Hnp. rewrite !elem_of_app in *.
    destruct Hin as [Hin|[Hin|Hin]]; [by left| |by right; right].
    exfalso. apply elem_of_concat in Hin as (i&l&Hil&Hin). destruct (c_free _ _ _ Hc2 i l p Hil Hin) as (?&?&Hz&_).
    rewrite give_give, give_eq in Hz. lia.
Qed.

(** The item as it is linked. *)
Definition linked_as (id t : Z) (it : Cache_Item) : Cache_Item :=
  it <| cache_id := id |> <| last_update_time := t |> <| ref_count := ref_count it + 1 |>.

Lemma wp_do_link s held p it Q :
  inv e s held -> heap s !! p = Some it -> p ∉ placed s -> 0 < held p < 2 ^ 16 - 4 ->
  hash_value_ it = hash_key e (key_of it).1 (key_of it).2 ->
  (forall q itq, q ∈ linked s -> heap s !! q = Some itq -> key_of itq <> key_of it) ->
  (forall s', inv e s' held -> around p s s' -> linked s' ≡ₚ p :: linked s ->
     heap s' !! p = Some (linked_as (next_id (last_cache_id_ s)) (Current_Time.get_current_time (curr_time_ s)) it) ->
     last_cache_id_ s' = next_id (last_cache_id_ s) -> watch_map_ s' = watch_map_ s -> Q tt s') ->
  wp (Mgr.do_link p) s Q.
Proof.
  intros Hi Hp Hnp Hh Hhash Huq HQ. pose proof Hi as [Hc Hr].
  destruct (c_item _ _ _ Hc p it Hp (placed_free _ _ Hnp)) as (Hwf&Href&_). rewrite (refs_placed e s held p Hc Hnp) in Href.
  unfold Mgr.do_link. apply wp_bind. eapply wp_item; [done|]. apply wp_bind. unfold Mgr.map_insert.
  apply wp_bind. eapply wp_update; [done|]. apply wp_modify.
  cbn beta. replace (it <| hash_value_ := hash_value_ it |>) with it by (by destruct it).
  match goal with |- wp _ ?x _ => set (s1 := x) end.
  assert (heap s1 = heap s) as Hh1 by (by apply touch_id).
  (* the counters do not depend on the lists *)
  apply wp_bind. apply wp_on. eapply wp_mono.
  { apply record_wp; [apply Hr|]. apply event_class. repeat constructor. }
  intros [] st (Hst&_). set (s2 := s1 <| stats_ := st |>).
  apply wp_bind. apply wp_get_cache_id. set (id := next_id _).
  apply wp_bind. eapply (wp_update _ _ _ it); [exact (eq_trans (f_equal (lookup p) Hh1) Hp)|].
  apply wp_bind. apply wp_now. apply wp_bind. eapply wp_update; [apply lookup_insert_eq|].
  apply wp_bind. eapply wp_update; [apply lookup_insert_eq|]. cbn [ref_count set const].
  rewrite wrap_small by lia. set (it' := it <| cache_id := id |> <| last_update_time := _ |> <| ref_count := _ |>).
  set (s3 := touch p it' _). destruct Hwf as []. destruct (c_lens _ _ _ Hc) as [Hle _].
  set (i := Z.to_nat (expiration_id it)). assert (expiration_id it = Z.of_nat i) as Hx by lia.
  destruct (lookup_lt_is_Some_2 (expire_list_ s) i) as [l Hl]; [lia|].
  unfold Lists.push_back. rewrite Hx. apply wp_bind. eapply wp_lists_load; [by apply get_expire|].
  apply wp_bind, wp_gets. rewrite linked_spec, bool_decide_eq_false_2 by exact Hnp.
  apply wp_bind, wp_assert; [done|]. apply wp_modify. set (s4 := Lists.put _ _ s3).
  assert (heap s4 = <[p := it']> (heap s)) as Hh4.
  { change (heap s4) with (heap s3). subst s3. cbn [touch heap set const]. rewrite !insert_insert_eq.
    f_equal. exact Hh1. }
  destruct (core_link e s s4 held p it it' i l) as (Hc4&Hperm&Hpl4); try done.
  - subst it'. cbn. lia.
  - subst s4 s3 s2 s1. cbn. f_equal. unfold Mgr.hv. cbn. by rewrite insert_id.
  - subst s4. cbn. by rewrite Nat2Z.id.
  - apply HQ; [split; [done|]| |done| |done|done].
    + destruct Hr. by split.
    + split; try done; [intros q Hq; by rewrite Hh4, lookup_insert_ne|]. apply placed_cons. by left.
    + by rewrite Hh4, lookup_insert_eq.
Qed.
End link_unlink.

Section alloc.
Context (e : endian) `{Item_Malloc} `{!Item_Malloc_Ok}.
Implicit Types (s : Cache_Mgr) (held : holds) (p : ptr) (it : Cache_Item).

(** An allocation leaves its free list, or the heap grows by one. *)
Lemma core_from_free_list s s' held p it' c f sl :
  core e s held -> free_cache_list_ s !! c = Some (p :: f) ->
  item_wf (slab_ s) it' -> class_id it' = Z.of_nat c -> ref_count it' = 1 ->
  heap s' = <[p := it']> (heap s) -> free_cache_list_ s' = <[c := f]> (free_cache_list_ s) ->
  cache_hash_map_ s' = cache_hash_map_ s -> expire_list_ s' = expire_list_ s ->
  flush_cache_list_ s' = flush_cache_list_ s -> slab_ s' = sl -> slab_wf sl -> same_classes (slab_ s) sl ->
  mem_limit_ s' = mem_limit_ s -> mem_used_ s' = mem_used_ s ->
  core e s' (give p 1 held) /\ p ∉ placed s' /\ held p = 0 /\ (forall q, q <> p -> q ∈ placed s' <-> q ∈ placed s).
Proof.
  intros Hc Hf Hwf Hcid Href Eh Ef Em Ee Efl Es Hsw Hs El Eu.
  destruct (free_pop e s held c f p Hc Hf) as (Hfp&Hfn&Hfl&Hfs). apply NoDup_cons in Hfn as [Hpn Hfn].
  destruct (c_free _ _ _ Hc c (p :: f) p Hf) as (it&Hit&Hh&_&Hb&_); [by left|].
  assert (p ∈ concat (free_cache_list_ s)) as Hpf by (rewrite Hfp; by left).
  assert (p ∉ concat (expire_list_ s) /\ p ∉ flush_cache_list_ s) as [Hne Hnfl].
  { pose proof (c_nodup _ _ _ Hc) as Hn. unfold placed in Hn. apply NoDup_app in Hn as (_&Hd1&Hn).
    apply NoDup_app in Hn as (_&Hd2&_). split; [intros Hin; apply (Hd1 p Hin)|by apply Hd2].
    rewrite elem_of_app. by left. }
  assert (p ∉ linked s) as Hnl by (by rewrite <- (c_expire _ _ _ Hc)).
  split; [|split; [|split; [done|]]].
  - apply (core_free_lists e s s' held _ p); rewrite ?Ef; subst sl; try done.
    + intros q Hq. by rewrite Eh, lookup_insert_ne.
    + intros q Hq. by rewrite give_ne.
    + rewrite give_eq. lia.
    + intros q Hq. rewrite Hfp. set_solver.
    + intros i l' q Hi Hq _. by eapply Hfs.
    + intros i l' Hi Hq. exfalso. apply Hpn, elem_of_concat. eauto.
    + intros it''. rewrite Eh, lookup_insert_eq, give_eq. intros [= <-] _. split; [done|lia].
    + by rewrite Eh, lookup_insert_eq.
    + rewrite Eu, Eh, (mem_of_update _ p it); [apply Hc|done|].
      pose proof (iw_body _ _ Hwf) as Hb'. rewrite Hcid in Hb'. lia.
    + rewrite Eu, El. apply Hc.
  - unfold placed. rewrite Ee, Efl, Ef, !elem_of_app. tauto.
  - apply placed_cons. right. unfold placed. rewrite Ee, Efl, Ef, Hfp. cbn. by rewrite <- Permutation_middle.
Qed.

Lemma core_from_heap s s' held p it' sl :
  core e s held -> heap s !! p = None -> item_wf (slab_ s) it' -> ref_count it' = 1 ->
  heap s' = <[p := it']> (heap s) -> free_cache_list_ s' = free_cache_list_ s ->
  cache_hash_map_ s' = cache_hash_map_ s -> expire_list_ s' = expire_list_ s ->
  flush_cache_list_ s' = flush_cache_list_ s -> slab_ s' = sl -> slab_wf sl -> same_classes (slab_ s) sl ->
  mem_limit_ s' = mem_limit_ s ->
  mem_used_ s + size_of (slab_ s) (class_id it') <= mem_limit_ s ->
  mem_used_ s' = u64 (mem_used_ s + size_of (slab_ s) (class_id it')) ->
  core e s' (give p 1 held) /\ p ∉ placed s' /\ held p = 0 /\ (forall q, q <> p -> q ∈ placed s' <-> q ∈ placed s).
Proof.
  intros Hc Hp Hwf Href Eh Ef Em Ee Efl Es Hsw Hs El Hle Eu.
  pose proof (c_live _ _ _ Hc p Hp) as Hr0. pose proof (c_held _ _ _ Hc p) as Hh0.
  assert (held p = 0 /\ p ∉ linked s /\ p ∉ flush_cache_list_ s) as (Hh&Hnl&Hnfl).
  { unfold refs in Hr0. repeat case_decide; (lia || (split_and!; [lia|done..])). }
  assert (forall i l, free_cache_list_ s !! i = Some l -> p ∈ l -> False) as Hnf.
  { intros i l Hi Hpl. destruct (c_free _ _ _ Hc i l p Hi Hpl) as (?&?&_). congruence. }
  assert (p ∉ concat (free_cache_list_ s)) as Hnfc by (intros (i&l&?&?)%elem_of_concat; eauto).
  pose proof (iw_body _ _ Hwf) as Hb. destruct (c_mem _ _ _ Hc) as [Hu Hul].
  pose proof (mem_of_insert (heap s) p it' Hp) as Hmem.
  assert (mem_used_ s' = mem_of (heap s')) as Hu'.
  { assert (0 <= mem_of (heap s)).
    { pose proof (mem_of_size (heap s) 0) as Hz0. rewrite Z.mul_0_l in Hz0. apply Hz0. unfold offsetof_body. intros; lia. }
    rewrite Eh, Eu, wrap_small; unfold offsetof_body in *; lia. }
  split; [|split; [|split; [done|]]].
  - apply (core_free_lists e s s' held _ p); rewrite ?Ef; subst sl; try done.
    + intros q Hq. by rewrite Eh, lookup_insert_ne.
    + intros q Hq. by rewrite give_ne.
    + rewrite give_eq. lia.
    + apply Hc.
    + exact (free_nodup e s held Hc).
    + eauto.
    + intros i l' Hi Hq. by destruct (Hnf i l').
    + intros it''. rewrite Eh, lookup_insert_eq, give_eq. intros [= <-] _. split; [done|lia].
    + by rewrite Eh, lookup_insert_eq.
    + rewrite Hu', Eh, El. unfold offsetof_body in *. lia.
  - unfold placed. rewrite Ee, Efl, Ef, !elem_of_app, (c_expire _ _ _ Hc). tauto.
  - intros q _. by rewrite (placed_same s s').
Qed.

(** What [do_alloc] puts into the members of the item. *)
Record fresh_item (g key_len fl expire data_len ext_len : Z) (it : Cache_Item) : Prop := {
  fi_group : group_id it = g;
  fi_key : key_length it = key_len;
  fi_flags : flags it = fl;
  fi_expire : expire_time it = expire;
  fi_data : data_size it = data_len;
  fi_ext : ext_size it = ext_len;
  fi_watch : watch_item it = None;
  fi_id : cache_id it = 0
}.

Lemma class_for_fits sl size c : slab_wf sl -> class_for sl size c -> c <> 0 -> 1 <= c <= class_id_max_ sl /\ size <= size_of sl c.
Proof. intros Hs [[? ?]|[? _]] Hn; [lia|done]. Qed.

Lemma wp_do_alloc s held g klen fl expire dlen xlen Q :
  inv e s held -> 0 <= klen < 2 ^ 16 -> 0 <= dlen -> 0 <= xlen < 2 ^ 8 -> 0 <= expire < 2 ^ 32 ->
  sizeof_Cache_Item + klen + dlen + xlen < 2 ^ 32 ->
  (forall s', inv e s' held -> calm s s' -> Q None s') ->
  (forall p it s', inv e s' (give p 1 held) -> held p = 0 -> p ∉ placed s' -> around p s s' ->
     heap s' !! p = Some it -> fresh_item g klen fl expire dlen xlen it ->
     cache_hash_map_ s' = cache_hash_map_ s -> last_cache_id_ s' = last_cache_id_ s -> watch_map_ s' = watch_map_ s ->
     same_classes (slab_ s) (slab_ s') -> Q (Some p) s') ->
  wp (Mgr.do_alloc g klen fl expire dlen xlen) s Q.
Proof.
  intros Hi Hk Hd Hx Hex Hsz HQn HQs. unfold Mgr.do_alloc. apply wp_bind.
  eapply wp_get_class_id; [done|unfold Mgr.CALC_ITEM_SIZE; apply wrap_range; lia|].
  intros c s1 Hk1 Hi1 Hcl. unfold Mgr.CALC_ITEM_SIZE in Hcl. rewrite wrap_small in Hcl by (unfold sizeof_Cache_Item in *; lia).
  destruct Hi as [Hc0 _]. pose proof Hi1 as [Hc Hr]. pose proof Hk1 as [Hsc Ht1 Hw1 Hid1].
  destruct (Z.eqb_spec c 0) as [->|Hnz]; [apply wp_ret; by apply HQn|].
  destruct (class_for_fits _ _ _ (c_slab _ _ _ Hc0) Hcl Hnz) as [Hcr Hfit].
  destruct (sc_slab _ _ Hsc) as [_ Hsame]. rewrite <- (same_classes_size _ _ c Hsame) in Hfit.
  rewrite <- (same_classes_max _ _ Hsame) in Hcr. pose proof (wf_max _ (c_slab _ _ _ Hc)) as Hmx.
  apply wp_bind. eapply wp_elem; [apply SlabFacts.at_size_of; [apply Hc|lia]|].
  set (n := Z.to_nat c). assert (c = Z.of_nat n) as Hcn by lia. destruct (c_lens _ _ _ Hc) as [Hle Hlf].
  destruct (lookup_lt_is_Some_2 (free_cache_list_ s1) n) as [f Hf]; [lia|].
  unfold Lists.pop_front. apply wp_bind, wp_bind. rewrite Hcn. eapply wp_lists_load; [by apply get_free|].
  apply wp_bind, wp_modify, wp_ret. cbn [Seq.pop_front fst snd].
  set (s2 := Lists.put (Free (Z.of_nat n)) (tail f) s1).
  assert (free_cache_list_ s2 = <[n := tail f]> (free_cache_list_ s1)) as Hf2 by (subst s2; cbn; by rewrite Nat2Z.id).
  destruct (get_expiration_id_range (Current_Time.get_current_time (curr_time_ s1)) expire) as (x&Hxi&Hxr).
  set (fill := fun it => it <| class_id := u8 (Z.of_nat n) |> <| expiration_id := u8 x |> <| ref_count := 1 |>
        <| group_id := g |> <| key_length := u16 klen |> <| data_size := dlen |>
        <| expire_time := expire |> <| flags := fl |> <| ext_size := u8 xlen |>).
  assert (forall it, Z.of_nat (length (body it)) = size_of (slab_ s1) (Z.of_nat n) - offsetof_body ->
            item_wf (slab_ s1) (fill it) /\ class_id (fill it) = Z.of_nat n) as Hfill.
  { intros it Hb. assert (class_id (fill it) = Z.of_nat n) as E1 by (cbn; rewrite wrap_small; lia). split; [|done].
    split; rewrite ?E1; cbn -[Z.pow]; rewrite ?wrap_small by lia; rewrite <- ?Hcn in *; (done || lia). }
  assert (forall it, watch_item it = None -> cache_id it = 0 -> fresh_item g klen fl expire dlen xlen (fill it)) as Hfresh.
  { intros it Hw0 Hi0. split; cbn -[Z.pow]; rewrite ?wrap_small by lia; done. }
  pose proof (sc_heap _ _ Hsc) as Hh1. pose proof (sc_hash _ _ Hsc) as Hm1.
  assert (forall p it s3, heap s3 !! p = Some it -> curr_time_ s3 = curr_time_ s1 ->
    (Q (Some p) (touch p (fill it) s3)) ->
    wp (Mgr.now ≫= fun t => the (Mgr.get_expiration_id t expire) ≫= fun x => Mgr.update p (fun it => it <| class_id := u8 (Z.of_nat n) |> <| expiration_id := u8 x |> <| ref_count := 1 |>
        <| group_id := g |> <| key_length := u16 klen |> <| data_size := dlen |>
        <| expire_time := expire |> <| flags := fl |> <| ext_size := u8 xlen |>) ;; mret (Some p)) s3 Q) as Hend.
  { intros p it s3 Hp Ht3 HQ. apply wp_bind, wp_now. rewrite Ht3. apply wp_bind. eapply wp_the; [exact Hxi|].
    apply wp_bind. eapply wp_update; [done|]. by apply wp_ret. }
  apply wp_bind. destruct f as [|p f]; cbn [head].
  - apply wp_bind, wp_gets, wp_bind, wp_gets. change (mem_used_ s2) with (mem_used_ s1). change (mem_limit_ s2) with (mem_limit_ s1).
    destruct (c_mem _ _ _ Hc) as [Hu Hul]. destruct (c_sizes _ _ _ Hc) as [Hs80 Hs30].
    pose proof (SlabFacts.size_of_mono (slab_ s1) (Z.of_nat n) (class_id_max_ (slab_ s1)) (c_slab _ _ _ Hc) ltac:(lia) ltac:(lia)) as Hmono.
    assert (free_cache_list_ s2 = free_cache_list_ s1) as Hf2' by (rewrite Hf2; by apply list_insert_id).
    assert (0 <= mem_of (heap s1)) as Hm0.
    { pose proof (mem_of_size (heap s1) 0) as Hz0. rewrite Z.mul_0_l in Hz0. apply Hz0. unfold offsetof_body. intros; lia. }
    assert (0 < size_of (slab_ s1) (Z.of_nat n)) by (rewrite <- Hcn; unfold sizeof_Cache_Item in *; lia).
    assert (Q None s2) as HQN.
    { assert (same_core s1 s2) as Hs2 by (split; try done; split; [apply Hc|apply same_classes_refl]).
      apply HQn; [split; [by eapply core_same|destruct Hr; by split]|]. eapply calm_trans; [done|by split]. }
    rewrite wrap_small by lia. destruct (Z.leb_spec (mem_used_ s1 + size_of (slab_ s1) (Z.of_nat n)) (mem_limit_ s1)) as [Hle'|]; [|by apply wp_ret, wp_ret].
    apply wp_bind, wp_gets. change (heap s2) with (heap s1).
    destruct (malloc_item _ _) as [[p memory]|] eqn:Em; [|by apply wp_ret, wp_ret].
    apply malloc_ok in Em as [Hfr Hml]. apply not_elem_of_dom in Hfr.
    apply wp_bind, wp_modify, wp_ret. set (s3 := s2 <| heap ::= _ |> <| mem_used_ ::= _ |>).
    destruct (Hfill (Item.init memory) Hml) as [Hwf Hci].
    eapply (Hend p (Item.init memory) s3); [apply lookup_insert_eq|done|].
    destruct (core_from_heap s1 (touch p (fill (Item.init memory)) s3) held p (fill (Item.init memory)) (slab_ s1)) as (Hc4&Hnp&Hh0&Hpl4); try done.
    + cbn. by rewrite insert_insert_eq.
    + apply Hc.
    + apply same_classes_refl.
    + by rewrite Hci.
    + rewrite Hci. done.
    + eapply HQs; try done; [split; [done|destruct Hr; by split]| |apply lookup_insert_eq|by apply Hfresh].
      split; try done; [intros q Hq; cbn; by rewrite !lookup_insert_ne, Hh1|].
      intros q Hq. rewrite Hpl4 by done. by rewrite (placed_same s s1) by apply Hsc.
  - apply wp_ret. destruct (c_free _ _ _ Hc n (p :: f) p Hf) as (it&Hit&_&_&Hb&Hw0&Hi0); [by left|].
    destruct (Hfill it Hb) as [Hwf Hci]. eapply (Hend p it s2); [done|done|].
    destruct (core_from_free_list s1 (touch p (fill it) s2) held p (fill it) n f (slab_ s1)) as (Hc4&Hnp&Hh0&Hpl4); try done.
    + apply Hc.
    + apply same_classes_refl.
    + eapply HQs; try done; [split; [done|destruct Hr; by split]| |apply lookup_insert_eq|by apply Hfresh].
      split; try done; [intros q Hq; cbn; by rewrite !lookup_insert_ne, Hh1|].
      intros q Hq. rewrite Hpl4 by done. by rewrite (placed_same s s1) by apply Hsc.
Qed.
End alloc.
