(* ===== verification/CacheSpec.v ===== *)
(** * What the cache promises: a finite map from keys to entries

    [view] reads the cache as a finite map; the operations of [Cache.Mgr] are
    compared with the reference operations on it. *)

From S2P Require Import Prelude XixiList XixiHashMap Lookup3 Util CurrTime Pdu Stats Watch Slab Cache CacheInv.
Import Cache_Watch.

(** ** The cache as a map *)
Definition kv (s : Cache_Mgr) (p : ptr) : option (key * entry) :=
  (fun it => (key_of it, entry_of it)) <$> heap s !! p.
Definition view (s : Cache_Mgr) : gmap key entry := list_to_map (omap (kv s) (linked s)).

Section views.
Context (e : endian).
Implicit Types (s : Cache_Mgr) (held : holds) (p : ptr) (it : Cache_Item) (k : key).

Lemma kv_Some s p k en : kv s p = Some (k, en) <-> exists it, heap s !! p = Some it /\ key_of it = k /\ entry_of it = en.
Proof. unfold kv. destruct (heap s !! p); cbn; naive_solver. Qed.

Lemma keys_nodup s held l :
  core e s held -> NoDup l -> (forall q, q ∈ l -> q ∈ linked s) -> NoDup (omap (kv s) l).*1.
Proof.
  intros Hc. induction 1 as [|p l Hp _ IH]; intros Hsub; cbn; [constructor|].
  assert (NoDup (omap (kv s) l).*1) as Hl by (apply IH; intros; apply Hsub; by right).
  destruct (kv s p) as [[k en]|] eqn:E; [|done]. cbn. apply NoDup_cons. split; [|done].
  intros ([k' en']&->&(q&Hq&Eq)%list_elem_of_omap)%list_elem_of_fmap.
  apply kv_Some in E as (it&Hit&Hk&_), Eq as (itq&Hitq&Hkq&_).
  assert (p = q) as ->; [|done].
  eapply (c_uniq _ _ _ Hc p q it itq); try done; [apply Hsub; by left|apply Hsub; by right|cbn in *; congruence].
Qed.

Lemma view_lookup s held k en :
  core e s held -> view s !! k = Some en <-> exists p, p ∈ linked s /\ kv s p = Some (k, en).
Proof.
  intros Hc. unfold view. rewrite <- elem_of_list_to_map, list_elem_of_omap; [done|].
  eapply keys_nodup; [done|by eapply linked_nodup|done].
Qed.

Lemma view_item s held p it :
  core e s held -> p ∈ linked s -> heap s !! p = Some it -> view s !! key_of it = Some (entry_of it).
Proof. intros Hc Hp Hit. apply (view_lookup s held); [done|]. exists p. split; [done|]. apply kv_Some. eauto. Qed.

Lemma view_none s held k :
  core e s held -> view s !! k = None <-> forall p it, p ∈ linked s -> heap s !! p = Some it -> key_of it <> k.
Proof.
  intros Hc. split.
  - intros Hn p it Hp Hit Hk. pose proof (view_item s held p it Hc Hp Hit). congruence.
  - intros Hall. destruct (view s !! k) as [en|] eqn:E; [|done].
    apply (view_lookup s held) in E as (p&Hp&(it&Hit&Hk&_)%kv_Some); [|done]. by destruct (Hall p it).
Qed.

(** How the map follows the hash map and the heap. *)
Lemma view_same s s' : linked s' = linked s -> (forall p, p ∈ linked s -> kv s' p = kv s p) -> view s' = view s.
Proof.
  unfold view. intros -> Hkv. f_equal. induction (linked s) as [|p l IH]; [done|]. cbn.
  rewrite Hkv, IH; [done|intros; apply Hkv; by right|by left].
Qed.

Lemma view_link s s' held held' p it :
  core e s held -> core e s' held' -> linked s' ≡ₚ p :: linked s -> p ∉ linked s ->
  (forall q, q <> p -> heap s' !! q = heap s !! q) -> heap s' !! p = Some it ->
  view s' = <[key_of it := entry_of it]> (view s).
Proof.
  intros Hc Hc' Hperm Hp Hoth Hit. apply map_eq. intros k.
  assert (p ∈ linked s') as Hpl by (rewrite Hperm; by left).
  destruct (decide (k = key_of it)) as [->|Hk].
  { rewrite lookup_insert_eq. by eapply view_item. }
  rewrite lookup_insert_ne by done. apply option_eq. intros en.
  rewrite (view_lookup s' held'), (view_lookup s held) by done. split.
  - intros (q&Hq&E). assert (q <> p) by (intros ->; apply kv_Some in E as (it'&?&?&_); congruence).
    exists q. unfold kv in *. rewrite <- Hoth by done. split; [|done]. rewrite Hperm in Hq. set_solver.
  - intros (q&Hq&E). exists q. unfold kv in *. rewrite Hoth by (intros ->; done).
    split; [|done]. rewrite Hperm. by right.
Qed.

Lemma view_unlink s s' held held' p it :
  core e s held -> core e s' held' -> linked s ≡ₚ p :: linked s' -> 
  (forall q, q <> p -> heap s' !! q = heap s !! q) -> heap s !! p = Some it ->
  view s' = base.delete (key_of it) (view s).
Proof.
  intros Hc Hc' Hperm Hoth Hit. apply map_eq. intros k.
  assert (p ∈ linked s) as Hpl by (rewrite Hperm; by left).
  assert (p ∉ linked s') as Hnp.
  { pose proof (linked_nodup e s held Hc) as Hn. rewrite Hperm in Hn. by apply NoDup_cons in Hn as [? _]. }
  assert (forall q, q ∈ linked s' -> q ∈ linked s /\ heap s' !! q = heap s !! q) as Hold.
  { intros q Hq. rewrite Hperm, Hoth by (intros ->; done). split; [by right|done]. }
  destruct (decide (k = key_of it)) as [->|Hk].
  - rewrite lookup_delete_eq. apply (view_none s' held'); [done|]. intros q itq Hq' Hitq Heq.
    destruct (Hold q Hq') as [Hq Hh]. rewrite Hh in Hitq.
    assert (q = p) as -> by (by eapply (c_uniq _ _ _ Hc)). done.
  - rewrite lookup_delete_ne by done. apply option_eq. intros en.
    rewrite (view_lookup s' held'), (view_lookup s held) by done. split.
    + intros (q&[Hq Hh]%Hold&E). exists q. unfold kv in *. by rewrite <- Hh.
    + intros (q&Hq&E). exists q. unfold kv in *.
      assert (q <> p) by (intros ->; apply kv_Some in E as (it'&?&?&_); congruence).
      rewrite Hoth by done. split; [|done]. rewrite Hperm in Hq. set_solver.
Qed.

(** A new entry for a linked item. *)
Lemma view_update s held held' p it it' :
  core e s held -> core e (touch p it' s) held' -> p ∈ linked s -> heap s !! p = Some it -> key_of it' = key_of it ->
  view (touch p it' s) = <[key_of it := entry_of it']> (view s).
Proof.
  intros Hc Hc' Hp Hit Hk. apply map_eq. intros k. destruct (decide (k = key_of it)) as [->|Hne].
  { rewrite lookup_insert_eq, <- Hk. eapply view_item; [exact Hc'|done|apply lookup_insert_eq]. }
  rewrite lookup_insert_ne by done. apply option_eq. intros en.
  rewrite (view_lookup _ held'), (view_lookup s held) by done. change (linked (touch p it' s)) with (linked s).
  split; intros (q&Hq&E); exists q; (split; [done|]); unfold kv in *; cbn in *.
  - rewrite lookup_insert_ne in E; [done|]. intros <-. rewrite lookup_insert_eq in E. cbn in E. congruence.
  - rewrite lookup_insert_ne; [done|]. intros <-. rewrite Hit in E. cbn in E. congruence.
Qed.
Lemma view_touch s held held' p it it' :
  core e s held -> core e (touch p it' s) held' -> heap s !! p = Some it -> p ∈ linked s ->
  key_of it' = key_of it -> entry_of it' = entry_of it -> view (touch p it' s) = view s.
Proof.
  intros Hc Hc' Hit Hp Hk He. rewrite (view_update s held held' p it) by done. rewrite He.
  apply insert_id. by eapply view_item.
Qed.
Lemma view_core s s' : same_core s s' -> view s' = view s.
Proof. intros Hs. apply view_same; [by rewrite (sc_hash _ _ Hs)|]. intros p _. unfold kv. by rewrite (sc_heap _ _ Hs). Qed.
Lemma view_around s s' p : around p s s' -> cache_hash_map_ s' = cache_hash_map_ s -> p ∉ linked s -> view s' = view s.
Proof.
  intros Ha Hm Hp. apply view_same; [by rewrite Hm|]. intros q Hq. unfold kv.
  rewrite (a_heap _ _ _ Ha); [done|]. by intros ->.
Qed.
End views.

(** An event about a class in range. *)
Ltac solve_event :=
  intros; unfold event_ok; cbn [meaning];
  repeat first [exact (proj2 (Forall_nil _) I) | apply Forall_cons; split]; cbn [step_ok]; (done || lia).

(** ** The parts of the operations *)
Definition time_of (s : Cache_Mgr) : Z := Current_Time.get_current_time (curr_time_ s).
Definition valid_watch (s : Cache_Mgr) (w : Z) : bool := bool_decide (is_Some (watch_map_ s !! w)).

(** The clock and the watches. *)
Record same_world (s s' : Cache_Mgr) : Prop := {
  sw_time : curr_time_ s' = curr_time_ s;
  sw_watch : watch_map_ s' = watch_map_ s
}.
Lemma same_world_refl s : same_world s s.
Proof. done. Qed.
Lemma same_world_trans s1 s2 s3 : same_world s1 s2 -> same_world s2 s3 -> same_world s1 s3.
Proof. intros [] []. split; congruence. Qed.
Lemma calm_world s s' : calm s s' -> same_world s s'.
Proof. by intros []. Qed.
Lemma around_world p s s' : around p s s' -> watch_map_ s' = watch_map_ s -> same_world s s'.
Proof. by intros []. Qed.
Lemma valid_world s s' w : same_world s s' -> valid_watch s' w = valid_watch s w.
Proof. intros [_ Hd]. unfold valid_watch. by rewrite Hd. Qed.

Section parts.
Context (e : endian) `{Table_Malloc} (alive : sink -> bool).
Implicit Types (s : Cache_Mgr) (held : holds) (p : ptr) (it : Cache_Item) (k : key).

Lemma inv_core s held : inv e s held -> core e s held.
Proof. by intros []. Qed.

Definition with_ref (it : Cache_Item) : Cache_Item := it <| ref_count := ref_count it + 1 |>.

Lemma wp_map_find s held k Q :
  inv e s held ->
  (view s !! k = None -> Q None s) ->
  (forall p it, p ∈ linked s -> heap s !! p = Some it -> key_of it = k ->
     view s !! k = Some (entry_of it) -> Q (Some p) s) ->
  wp (Mgr.map_find k.1 k.2 (hash_key e k.1 k.2)) s Q.
Proof.
  intros [Hc _] HQn HQs. apply wp_gets. pose proof (find_key e s held k _ Hc eq_refl) as Hf.
  destruct (Buckets.find _ _ _) as [p|].
  - destruct Hf as (Hp&it&Hit&Hk). apply (HQs p it); try done. subst k. by eapply view_item.
  - apply HQn. apply (view_none e s held); [done|]. intros. by apply Hf with (q := p).
Qed.

Lemma wp_do_get s held k Q :
  inv e s held -> room held ->
  (view s !! k = None -> Q None s) ->
  (forall p it, p ∈ linked s -> heap s !! p = Some it -> key_of it = k -> view s !! k = Some (entry_of it) ->
     inv e (touch p (with_ref it) s) (give p 1 held) -> Q (Some p) (touch p (with_ref it) s)) ->
  wp (Mgr.do_get k.1 k.2 (hash_key e k.1 k.2)) s Q.
Proof.
  intros Hi Hr HQn HQs. unfold Mgr.do_get. apply wp_bind. eapply wp_map_find; [done| |].
  - intros Hn. apply wp_ret. auto.
  - intros p it Hp Hit Hk Hv. apply wp_bind. eapply wp_add_ref; [done..|]. intros s1 Hi1. apply wp_ret. eauto.
Qed.

Lemma view_with_ref s held p it : inv e s held -> inv e (touch p (with_ref it) s) (give p 1 held) ->
  heap s !! p = Some it -> p ∈ linked s -> view (touch p (with_ref it) s) = view s.
Proof. intros Hi Hi' Hit Hp. by apply (view_touch e s held (give p 1 held) p it); try apply inv_core. Qed.

(** The watch an update asks for, and its statistics. *)
Lemma wp_check_update_watch s held v w g hg c hc sz ok okw miss Q :
  inv e s held -> event_ok (ok hc sz) -> event_ok (okw c sz) -> event_ok (miss c) ->
  (w <> 0 -> valid_watch s w = true ->
     wp v s (fun _ s1 => inv e s1 held /\ forall s2, calm s1 s2 -> inv e s2 held -> Q XIXI_REASON_SUCCESS s2)) ->
  (w = 0 -> forall s2, calm s s2 -> inv e s2 held -> Q XIXI_REASON_SUCCESS s2) ->
  (w <> 0 -> valid_watch s w = false -> forall s2, calm s s2 -> inv e s2 held -> Q XIXI_REASON_WATCH_NOT_FOUND s2) ->
  wp (Mgr.check_update_watch v w g hg c hc sz ok okw miss) s Q.
Proof.
  intros Hi H1 H2 H3 Hv H0 Hn. unfold Mgr.check_update_watch. destruct (Z.eqb_spec w 0) as [->|Hw]; cbn [negb].
  - apply wp_bind. eapply wp_stat; [done..|]. intros s' Hk Hi'. apply wp_ret. by apply H0.
  - apply wp_bind, wp_gets. fold (valid_watch s w). destruct (valid_watch s w) eqn:E.
    + apply wp_bind. eapply wp_mono; [by apply Hv|]. intros [] s1 [Hi1 HQ].
      apply wp_bind. eapply wp_stat; [done..|]. intros s' Hk Hi'. apply wp_ret. by apply HQ.
    + apply wp_bind. eapply wp_stat; [done..|]. intros s' Hk Hi'. apply wp_ret. by apply Hn.
Qed.

(** A hash value that belongs to the key. *)
Definition hashed (it : Cache_Item) : Prop := hash_value_ it = hash_key e (key_of it).1 (key_of it).2.

Lemma linked_as_key id t it : key_of (linked_as id t it) = key_of it.
Proof. done. Qed.

(** A new item under a key that is not there, and in the place of another. *)
Lemma link_absent s held p it Q :
  inv e s held -> heap s !! p = Some it -> p ∉ placed s -> 0 < held p < 2 ^ 16 - 4 -> hashed it ->
  view s !! key_of it = None ->
  (forall s', inv e s' held -> around p s s' -> p ∈ linked s' ->
     heap s' !! p = Some (linked_as (next_id (last_cache_id_ s)) (time_of s) it) ->
     view s' = <[key_of it := entry_of (linked_as (next_id (last_cache_id_ s)) (time_of s) it)]> (view s) ->
     last_cache_id_ s' = next_id (last_cache_id_ s) -> watch_map_ s' = watch_map_ s -> Q tt s') ->
  wp (Mgr.do_link p) s Q.
Proof.
  intros Hi Hit Hnp Hh Hha Hv HQ. pose proof (inv_core _ _ Hi) as Hc.
  assert (p ∉ linked s) as Hnl.
  { rewrite <- (c_expire _ _ _ Hc). intros Hin. apply Hnp. unfold placed. rewrite elem_of_app. by left. }
  eapply wp_do_link; [done..| |].
  - intros q itq Hq Hitq. by apply (view_none e s held (key_of it) Hc) with (p := q).
  - intros s' Hi' Ha Hperm Hp' Hid Hw. apply HQ; try done; [rewrite Hperm; by left|].
    by apply (view_link e s s' held held p _ Hc (inv_core _ _ Hi') Hperm Hnl (a_heap _ _ _ Ha) Hp').
Qed.

Lemma wp_do_replace s held o oit p it Q :
  inv e s held -> room held -> o ∈ linked s -> heap s !! o = Some oit -> 0 < held o ->
  heap s !! p = Some it -> p ∉ placed s -> 0 < held p -> hashed it -> key_of oit = key_of it ->
  (forall s', inv e s' held -> curr_time_ s' = curr_time_ s -> p ∈ linked s' -> o ∉ placed s' ->
     watch_map_ s' = told alive (cache_id oit) WATCH_NOTIFY_TYPE_DATA_UPDATED (default [] (watch_item oit)) (watch_map_ s) ->
     heap s' !! p = Some (linked_as (next_id (last_cache_id_ s)) (time_of s) it) ->
     (exists oit', heap s' !! o = Some oit') ->
     (forall q, q <> p -> q <> o -> heap s' !! q = heap s !! q /\ (q ∈ placed s' <-> q ∈ placed s)) ->
     view s' = <[key_of it := entry_of (linked_as (next_id (last_cache_id_ s)) (time_of s) it)]> (view s) ->
     last_cache_id_ s' = next_id (last_cache_id_ s) -> Q tt s') ->
  wp (Mgr.do_replace alive o p) s Q.
Proof.
  intros Hi Hr Ho Hoit Hho Hit Hnp Hhp Hha Hk HQ. pose proof (inv_core _ _ Hi) as Hc.
  assert (p <> o) as Hne.
  { intros ->. apply Hnp. unfold placed. rewrite elem_of_app. left. by rewrite (c_expire _ _ _ Hc). }
  unfold Mgr.do_replace. apply wp_bind. eapply wp_do_unlink; [done..|].
  intros s1 Hi1 Ha1 Hperm1 Hid1 Hw1 _ Ho1. destruct (Ho1 Hho) as [Hnpo Hoit1]. pose proof (inv_core _ _ Hi1) as Hc1.
  pose proof (view_unlink e s s1 held held o oit Hc Hc1 Hperm1 (a_heap _ _ _ Ha1) Hoit) as Hv1.
  assert (heap s1 !! p = Some it) as Hit1 by (by rewrite (a_heap _ _ _ Ha1)).
  assert (p ∉ placed s1) as Hnp1 by (by rewrite (a_placed _ _ _ Ha1)).
  assert (last_cache_id_ s1 = last_cache_id_ s) as Hid1' by done.
  assert (time_of s1 = time_of s) as Ht1 by (unfold time_of; by rewrite (a_time _ _ _ Ha1)).
  eapply (link_absent s1 held p it); [done|done|done|split; [done|apply Hr]|done| |].
  - rewrite Hv1, <- Hk. apply lookup_delete_eq.
  - intros s2 Hi2 Ha2 Hl2 Hp2 Hv2 Hid2 Hw2. rewrite Hid1, Ht1 in *. apply HQ; try done.
    + by rewrite (a_time _ _ _ Ha2), (a_time _ _ _ Ha1).
    + by rewrite (a_placed _ _ _ Ha2).
    + by rewrite Hw2.
    + exists (oit <| watch_item := None |> <| ref_count := ref_count oit - 1 |>). by rewrite (a_heap _ _ _ Ha2).
    + intros q Hqp Hqo. by rewrite (a_heap _ _ _ Ha2), (a_heap _ _ _ Ha1), (a_placed _ _ _ Ha2), (a_placed _ _ _ Ha1).
    + rewrite Hv2, Hv1, <- Hk. apply insert_delete_eq.
Qed.
End parts.

(** ** The reference operations *)
Abbreviation cache := (gmap key entry).

(** A request without a cache id matches every entry. *)
Definition matches (expected : Z) (en : entry) : bool := (expected =? 0) || (expected =? e_cache_id en).

Definition watched (w : Z) (ws : list Z) : list Z := if w =? 0 then ws else Item.set_insert w ws.
Definition stored (id w : Z) (req : entry) : entry :=
  mk_entry (e_flags req) (e_expire_time req) id (e_data req) (e_ext req) (watched w (e_watches req)).

Inductive update_kind := Set_ | Add_ | Replace_.

(** What a client can observe: the entries, and the watches with their queues. *)
Abbreviation model := (cache * gmap Z watch)%type.
Definition model_of (s : Cache_Mgr) : model := (view s, watch_map_ s).
Definition watch_ok (w : Z) (ws : gmap Z watch) : bool := (w =? 0) || bool_decide (is_Some (ws !! w)).

Section reference.
Context (alive : sink -> bool).

(** An entry goes: its watches are told. *)
Definition notified_of (ty : watch_notify_type) (en : entry) (ws : gmap Z watch) : gmap Z watch :=
  told alive (e_cache_id en) ty (e_watches en) ws.

(** [set], [add] and [replace] of an entry: [req] with its [expected] cache id,
    the watch [w] to set on it, and the next id. *)
Definition spec_update (op : update_kind) (k : key) (req : entry) (w id : Z) (m : model)
    : xixi_reason * option Z * model :=
  let store ws := if watch_ok w m.2 then (XIXI_REASON_SUCCESS, Some id, (<[k := stored id w req]> m.1, ws))
                  else (XIXI_REASON_WATCH_NOT_FOUND, None, m) in
  match m.1 !! k, op with
  | None, Replace_ => (XIXI_REASON_NOT_FOUND, None, m)
  | None, _ => store m.2
  | Some _, Add_ => (XIXI_REASON_EXISTS, None, m)
  | Some old, _ => if matches (e_cache_id req) old then store (notified_of WATCH_NOTIFY_TYPE_DATA_UPDATED old m.2)
                   else (XIXI_REASON_MISMATCH, None, m)
  end.
End reference.

Section updates.
Context (e : endian) `{Table_Malloc} (alive : sink -> bool).
Implicit Types (s : Cache_Mgr) (held : holds) (p : ptr) (it : Cache_Item) (k : key).

(** An item of a caller that is in no list. *)
Record own_item (s : Cache_Mgr) (held : holds) (p : ptr) (it : Cache_Item) : Prop := {
  oi_heap : heap s !! p = Some it;
  oi_placed : p ∉ placed s;
  oi_held : 0 < held p;
  oi_hash : hashed e it
}.

Lemma own_linked s held p it : core e s held -> own_item s held p it -> p ∉ linked s.
Proof. intros Hc [_ Hp _ _]. rewrite <- (c_expire _ _ _ Hc). intros Hin. apply Hp. unfold placed. rewrite elem_of_app. by left. Qed.
Lemma own_wf s held p it : core e s held -> own_item s held p it -> item_wf (slab_ s) it /\ ref_count it = held p.
Proof.
  intros Hc [Hh Hp _ _]. destruct (c_item _ _ _ Hc p it Hh (placed_free _ _ Hp)) as (?&Hr&_).
  by rewrite (refs_placed e s held p Hc Hp) in Hr.
Qed.
Lemma own_calm s s' held p it : calm s s' -> own_item s held p it -> own_item s' held p it.
Proof.
  intros [Hs _ _ _] []. split; try done; [by rewrite (sc_heap _ _ Hs)|].
  rewrite (placed_same s s'); [done|apply Hs..].
Qed.

(** The statistics of an item's class are in range. *)
Lemma class_event_ok sl it (f : Z -> event) :
  slab_wf sl -> item_wf sl it -> (forall c, 0 <= c < 200 -> event_ok (f c)) -> event_ok (f (class_id it)).
Proof. intros Hs Hw Hf. apply Hf. by eapply class_range. Qed.

(** A watch set on an item of the caller. *)
Lemma wp_add_watch_own s held p it w Q :
  inv e s held -> own_item s held p it ->
  (forall s', inv e s' held -> s' = touch p (Item.add_watch w it) s -> own_item s' held p (Item.add_watch w it) ->
     view s' = view s -> Q tt s') ->
  wp (Mgr.add_watch p w) s Q.
Proof.
  intros Hi Ho HQ. pose proof (inv_core e _ _ Hi) as Hc. destruct (own_wf s held p it Hc Ho) as [Hwf _].
  pose proof (own_linked s held p it Hc Ho) as Hnl. destruct Ho as [Hh Hp Hhe Hha].
  unfold Mgr.add_watch. eapply wp_update; [done|]. apply HQ; try done.
  - eapply inv_set; [done..|by apply placed_free|by split| |done]. solve_item_wf Hwf.
  - split; try done. apply lookup_insert_eq.
  - by eapply (view_around s _ p); [apply around_touch|..].
Qed.

(** Linking an item under a new key, with a watch. *)
Lemma wp_link_new s held p it w ok okw miss Q :
  inv e s held -> own_item s held p it -> held p < 2 ^ 16 - 4 -> view s !! key_of it = None ->
  event_ok (ok (class_id it) (Item.total_size it)) -> event_ok (okw (class_id it) (Item.total_size it)) ->
  event_ok (miss (class_id it)) ->
  let id := next_id (last_cache_id_ s) in
  (forall s' it', inv e s' held -> same_world s s' -> (w =? 0) || valid_watch s w = true -> heap s' !! p = Some it' ->
     cache_id it' = id -> key_of it' = key_of it -> entry_of it' = stored id w (entry_of it) -> p ∈ linked s' ->
     view s' = <[key_of it := stored id w (entry_of it)]> (view s) -> Q XIXI_REASON_SUCCESS s') ->
  (forall s', inv e s' held -> same_world s s' -> (w =? 0) || valid_watch s w = false -> own_item s' held p it ->
     view s' = view s -> Q XIXI_REASON_WATCH_NOT_FOUND s') ->
  wp (Mgr.link_new p w ok okw miss) s Q.
Proof.
  intros Hi Ho Hr Hv H1 H2 H3 id HQs HQn. unfold Mgr.link_new. apply wp_bind. eapply wp_item; [apply Ho|].
  apply wp_bind.
  assert (forall it' s1, inv e s1 held -> same_world s s1 -> own_item s1 held p it' -> key_of it' = key_of it ->
      view s1 = view s -> last_cache_id_ s1 = last_cache_id_ s -> entry_of (linked_as id (time_of s1) it') = stored id w (entry_of it) ->
      (w =? 0) || valid_watch s w = true ->
      wp (Mgr.do_link p ;; mret XIXI_REASON_SUCCESS) s1 Q) as Hlink.
  { intros it' s1 Hi1 Hw1 Ho1 Hk1 Hv1 Hid1 Hen Hok. apply wp_bind. destruct Ho1 as [Hh Hp Hhe Hha].
    eapply link_absent; [done..|by split|done|by rewrite Hv1, Hk1|].
    intros s2 Hi2 Ha2 Hl2 Hp2 Hv2 Hid2 Hw2. apply wp_ret. eapply HQs; try done.
    - eapply same_world_trans; [done|by eapply around_world].
    - cbn. by rewrite Hid1.
    - by rewrite Hid1.
    - rewrite Hv2, Hid1. fold id. by rewrite Hen, Hk1, Hv1. }
  eapply wp_check_update_watch; [done..| | |].
  - intros Hw Hval. eapply wp_add_watch_own; [done..|]. intros s1 Hi1 -> Ho1 Hv1. split; [done|].
    intros s2 Hk2 Hi2. rewrite decide_True by done. apply (Hlink (Item.add_watch w it)); try done.
    + eapply (same_world_trans s); [|by apply calm_world]. by split.
    + by eapply own_calm.
    + rewrite (view_core _ _ (k_core _ _ Hk2)). done.
    + by rewrite (k_id _ _ Hk2).
    + unfold stored, watched. destruct (Z.eqb_spec w 0); done.
    + rewrite Hval. apply orb_true_r.
  - intros -> s1 Hk1 Hi1. rewrite decide_True by done. apply (Hlink it); try done.
    + by apply calm_world.
    + by eapply own_calm.
    + by rewrite (view_core _ _ (k_core _ _ Hk1)).
    + by rewrite (k_id _ _ Hk1).
  - intros Hw Hval s1 Hk1 Hi1. rewrite decide_False by done. apply wp_bind, wp_ret, wp_ret. apply HQn; try done.
    + by apply calm_world.
    + rewrite Hval. by destruct (Z.eqb_spec w 0).
    + by eapply own_calm.
    + by rewrite (view_core _ _ (k_core _ _ Hk1)).
Qed.
End updates.

Section updates2.
Context (e : endian) `{Table_Malloc} (alive : sink -> bool).
Implicit Types (s : Cache_Mgr) (held : holds) (p : ptr) (it : Cache_Item) (k : key).

(** An item of the cache that this call holds, besides the callers. *)
Record old_item (s : Cache_Mgr) (held : holds) (o : ptr) (oit : Cache_Item) : Prop := {
  od_heap : heap s !! o = Some oit;
  od_linked : o ∈ linked s;
  od_held : 1 <= held o
}.
Lemma old_calm s s' held o oit : calm s s' -> old_item s held o oit -> old_item s' held o oit.
Proof. intros [Hs _ _ _] []. split; try done; [by rewrite (sc_heap _ _ Hs)|by rewrite (sc_hash _ _ Hs)]. Qed.
Lemma old_wf s held o oit : core e s held -> old_item s held o oit -> item_wf (slab_ s) oit.
Proof. intros Hc []. by apply (linked_item e s held o). Qed.

Lemma wp_get_by_item s held p it Q :
  inv e s held -> room held -> own_item e s held p it ->
  (view s !! key_of it = None -> Q None s) ->
  (forall o oit s', inv e s' (give o 1 held) -> old_item s' (give o 1 held) o oit -> own_item e s' held p it -> o <> p ->
     key_of oit = key_of it -> view s !! key_of it = Some (entry_of oit) -> view s' = view s -> same_world s s' ->
     last_cache_id_ s' = last_cache_id_ s -> slab_ s' = slab_ s -> Q (Some o) s') ->
  wp (Mgr.get_by_item p) s Q.
Proof.
  intros Hi Hr Ho HQn HQs. pose proof (inv_core e _ _ Hi) as Hc. destruct (own_wf e s held p it Hc Ho) as [Hwf _].
  unfold Mgr.get_by_item. apply wp_bind. eapply wp_item; [apply Ho|]. apply wp_bind.
  eapply wp_the; [apply (get_key_wf _ _ Hwf)|]. rewrite (oi_hash _ _ _ _ _ Ho).
  change (group_id it) with (key_of it).1. eapply wp_do_get; [done..|].
  intros o oit Hol Hoit Hk Hv Hi'. assert (o <> p) as Hne.
  { intros ->. by destruct (own_linked e s held p it Hc Ho). }
  apply (HQs o (with_ref oit)); try done.
  - split; [apply lookup_insert_eq|done|]. rewrite give_eq. pose proof (c_held _ _ _ Hc o). lia.
  - destruct Ho. split; try done. cbn. by rewrite lookup_insert_ne.
  - by eapply view_with_ref.
Qed.

(** Giving back the reference to an item that may have left the cache. *)
Lemma wp_release_old s held o oit Q :
  inv e s (give o 1 held) -> room held -> (forall q, 0 <= held q) -> heap s !! o = Some oit ->
  (forall s', inv e s' held -> same_world s s' -> view s' = view s ->
     (forall q, q <> o -> heap s' !! q = heap s !! q) -> (forall q, q <> o -> q ∈ placed s' <-> q ∈ placed s) ->
     linked s' = linked s -> last_cache_id_ s' = last_cache_id_ s ->
     (o ∈ linked s -> heap s' !! o = Some (oit <| ref_count := ref_count oit - 1 |>)) -> Q tt s') ->
  wp (Mgr.do_release_reference o) s Q.
Proof.
  intros Hi Hr H0 Hoit HQ. pose proof (inv_core e _ _ Hi) as Hc. pose proof (H0 o) as Ho0. pose proof (Hr o) as Hro.
  eapply wp_release; [done|done|rewrite give_eq; lia|unfold refs; rewrite give_eq; repeat case_decide; lia|].
  intros s' Hi' Ha [Hm He Hf Hid Hw _] Hk.
  assert (inv e s' held) as Hi''.
  { eapply inv_held; [|exact Hi']. intros q. by rewrite give_give, give_0. }
  assert (o ∈ linked s -> heap s' !! o = Some (oit <| ref_count := ref_count oit - 1 |>)) as Hk'.
  { intros Hl. apply Hk. unfold refs. rewrite give_eq, decide_True by done. case_decide; lia. }
  apply HQ; try done.
  - by eapply around_world.
  - destruct (decide (o ∈ linked s)) as [Hl|Hl]; [|by eapply view_around].
    apply view_same; [by rewrite Hm|]. intros q Hq. unfold kv. destruct (decide (q = o)) as [->|Hne].
    + by rewrite Hk', Hoit.
    + by rewrite (a_heap _ _ _ Ha).
  - apply Ha.
  - apply Ha.
  - by rewrite Hm.
Qed.
End updates2.

Section updates3.
Context (e : endian) `{Table_Malloc} (alive : sink -> bool).
Implicit Types (s : Cache_Mgr) (held : holds) (p : ptr) (it : Cache_Item) (k : key).

Lemma wp_item_cache_id s p it Q : heap s !! p = Some it -> Q (cache_id it) s -> wp (Mgr.item_cache_id p) s Q.
Proof. intros Hp HQ. unfold Mgr.item_cache_id. apply wp_bind. eapply wp_item; [done|]. by apply wp_ret. Qed.

(** A watch set on a linked item. *)
Lemma wp_add_watch_linked s held p it w Q :
  inv e s held -> p ∈ linked s -> heap s !! p = Some it ->
  (forall s', inv e s' held -> s' = touch p (Item.add_watch w it) s ->
     view s' = <[key_of it := entry_of (Item.add_watch w it)]> (view s) -> Q tt s') ->
  wp (Mgr.add_watch p w) s Q.
Proof.
  intros Hi Hl Hp HQ. pose proof (inv_core e _ _ Hi) as Hc. destruct (linked_item e s held p it Hc Hl Hp) as (Hwf&_).
  assert (inv e (touch p (Item.add_watch w it) s) held) as Hi'.
  { eapply inv_set; [done..|by eapply not_free|by split| |done]. solve_item_wf Hwf. }
  unfold Mgr.add_watch. eapply wp_update; [done|]. apply HQ; try done.
  eapply (view_update e s held held p it); try done; by apply inv_core.
Qed.

Lemma wp_replace_and_watch s held o oit p it w Q :
  inv e s held -> room held -> old_item s held o oit -> own_item e s held p it -> key_of oit = key_of it ->
  let id := next_id (last_cache_id_ s) in
  (forall s' oit', inv e s' held -> curr_time_ s' = curr_time_ s -> heap s' !! o = Some oit' -> o ∉ placed s' ->
     watch_map_ s' = notified_of alive WATCH_NOTIFY_TYPE_DATA_UPDATED (entry_of oit) (watch_map_ s) ->
     p ∈ linked s' -> view s' = <[key_of it := stored id w (entry_of it)]> (view s) -> Q id s') ->
  wp (Mgr.replace_and_watch alive o p w) s Q.
Proof.
  intros Hi Hr [Ho Hol Hoh] [Hp Hnp Hph Hha] Hk id HQ.
  assert (p <> o) as Hne.
  { intros ->. apply Hnp. unfold placed. rewrite elem_of_app. left. by rewrite (c_expire _ _ _ (inv_core e _ _ Hi)). }
  unfold Mgr.replace_and_watch. apply wp_bind. eapply (wp_do_replace e alive s held o oit p it); try done; [lia|].
  intros s1 Hi1 Ht1 Hl1 Hno1 Hw1 Hp1 [oit1 Ho1] _ Hv1 Hid1. apply wp_bind. destruct (Z.eqb_spec w 0) as [->|Hw]; cbn [negb].
  - apply wp_ret. eapply wp_item_cache_id; [exact Hp1|]. by eapply HQ.
  - eapply wp_add_watch_linked; [done..|]. intros s2 Hi2 -> Hv2.
    eapply wp_item_cache_id; [apply lookup_insert_eq|]. eapply (HQ _ oit1); try done.
    + cbn. by rewrite lookup_insert_ne.
    + rewrite Hv2, Hv1, linked_as_key, insert_insert_eq. unfold stored, watched. by destruct (Z.eqb_spec w 0).
Qed.

(** [set], [add] and [replace] as one operation. *)
Definition run_update (op : update_kind) (p : ptr) (w : Z) : M (xixi_reason * option Z) :=
  match op with Set_ => Mgr.set alive p w | Add_ => Mgr.add p w | Replace_ => Mgr.replace alive p w end.

(** The state after an operation: the invariant with the same references, the
    same clock, and the answer and the model of the reference operation. *)
Definition updated {A} (s : Cache_Mgr) held (spec : A * model) (r : A) s' : Prop :=
  inv e s' held /\ curr_time_ s' = curr_time_ s /\ (r, model_of s') = spec.

Lemma model_world s s' : same_world s s' -> view s' = view s -> model_of s' = model_of s.
Proof. intros [_ Hw] Hv. unfold model_of. by rewrite Hw, Hv. Qed.
Lemma watch_ok_valid s w : watch_ok w (watch_map_ s) = (w =? 0) || valid_watch s w.
Proof. done. Qed.

Lemma link_branch s held p it w ok okw miss :
  inv e s held -> own_item e s held p it -> held p < 2 ^ 16 - 4 -> view s !! key_of it = None ->
  (forall c z, 0 <= c < 200 -> event_ok (ok c z)) -> (forall c z, 0 <= c < 200 -> event_ok (okw c z)) ->
  (forall c, 0 <= c < 200 -> event_ok (miss c)) ->
  let id := next_id (last_cache_id_ s) in
  wp (reason ← Mgr.link_new p w ok okw miss;
      if decide (reason = XIXI_REASON_SUCCESS) then id ← Mgr.item_cache_id p; mret (reason, Some id)
      else mret (reason, None)) s
    (updated s held (if watch_ok w (watch_map_ s)
       then (XIXI_REASON_SUCCESS, Some id, (<[key_of it := stored id w (entry_of it)]> (view s), watch_map_ s))
       else (XIXI_REASON_WATCH_NOT_FOUND, None, model_of s))).
Proof.
  intros Hi Ho Hr Hv H1 H2 H3 id. pose proof (inv_core e _ _ Hi) as Hc. destruct (own_wf e s held p it Hc Ho) as [Hwf _].
  pose proof (class_range _ _ (c_slab _ _ _ Hc) Hwf) as Hcl.
  apply wp_bind. eapply wp_link_new; try done; auto.
  - intros s' it' Hi' Hw' Hok Hp' Hid' _ _ Hl' Hv'. rewrite decide_True by done.
    apply wp_bind. eapply wp_item_cache_id; [done|]. apply wp_ret. split; [done|]. split; [apply Hw'|].
    rewrite watch_ok_valid, Hok. unfold model_of. by rewrite Hv', Hid', (sw_watch _ _ Hw').
  - intros s' Hi' Hw' Hok Ho' Hv'. rewrite decide_False by done. apply wp_ret. split; [done|]. split; [apply Hw'|].
    rewrite watch_ok_valid, Hok. by rewrite (model_world s s').
Qed.

Lemma world_next s s' : last_cache_id_ s' = last_cache_id_ s -> next_id (last_cache_id_ s') = next_id (last_cache_id_ s).
Proof. by intros ->. Qed.

(** Every branch with an old item ends with its release. *)
Lemma wp_finish {A} s held s2 o oit (r : A) spec :
  roomy held -> (forall q, 0 <= held q) -> inv e s2 (give o 1 held) -> curr_time_ s2 = curr_time_ s ->
  heap s2 !! o = Some oit ->
  (r, model_of s2) = spec -> wp (Mgr.do_release_reference o ;; mret r) s2 (updated s held spec).
Proof.
  intros Hr H0 Hi2 Ht2 Hoit Hspec. apply wp_bind. eapply wp_release_old; [done|by apply roomy_room|done..|].
  intros s3 Hi3 Hw3 Hv3 _ _ _ _ _. apply wp_ret. split; [done|]. split; [by rewrite (sw_time _ _ Hw3)|].
  by rewrite (model_world s2 s3).
Qed.

(** The branch of [set] and [replace] for a matching entry. *)
Lemma matched_branch s held s1 o oit p it w hg hc ok okw miss :
  inv e s1 (give o 1 held) -> roomy held -> same_world s s1 -> view s1 = view s -> last_cache_id_ s1 = last_cache_id_ s ->
  old_item s1 (give o 1 held) o oit -> own_item e s1 (give o 1 held) p it -> key_of oit = key_of it ->
  event_ok (ok hc (Item.total_size it)) -> event_ok (okw (class_id it) (Item.total_size it)) -> event_ok (miss (class_id it)) ->
  let id := next_id (last_cache_id_ s) in
  wp (reason ← Mgr.check_update_watch (mret tt) w (group_id it) hg (class_id it) hc (Item.total_size it) ok okw miss;
      if decide (reason = XIXI_REASON_SUCCESS) then id ← Mgr.replace_and_watch alive o p w; mret (reason, Some id)
      else mret (reason, None)) s1
    (fun r s2 => inv e s2 (give o 1 held) /\ curr_time_ s2 = curr_time_ s /\ (exists oit', heap s2 !! o = Some oit') /\
       (r, model_of s2) = if watch_ok w (watch_map_ s)
         then (XIXI_REASON_SUCCESS, Some id, (<[key_of it := stored id w (entry_of it)]> (view s),
                 notified_of alive WATCH_NOTIFY_TYPE_DATA_UPDATED (entry_of oit) (watch_map_ s)))
         else (XIXI_REASON_WATCH_NOT_FOUND, None, model_of s)).
Proof.
  intros Hi1 Hr Hw1 Hv1 Hid1 Hod Hown Hk H1 H2 H3 id. apply wp_bind.
  assert (forall s2, calm s1 s2 -> inv e s2 (give o 1 held) -> same_world s s2 /\ view s2 = view s /\
      old_item s2 (give o 1 held) o oit /\ own_item e s2 (give o 1 held) p it /\ last_cache_id_ s2 = last_cache_id_ s) as Hcalm.
  { intros s2 Hk2 Hi2. split_and!; [eapply same_world_trans; [done|by apply calm_world]| |by eapply old_calm|by eapply own_calm|].
    - by rewrite (view_core _ _ (k_core _ _ Hk2)).
    - by rewrite (k_id _ _ Hk2). }
  assert (forall s2, calm s1 s2 -> inv e s2 (give o 1 held) -> (w =? 0) || valid_watch s w = true ->
    wp (id ← Mgr.replace_and_watch alive o p w; mret (XIXI_REASON_SUCCESS, Some id)) s2
      (fun r s3 => inv e s3 (give o 1 held) /\ curr_time_ s3 = curr_time_ s /\ (exists oit', heap s3 !! o = Some oit') /\
        (r, model_of s3) = if watch_ok w (watch_map_ s)
         then (XIXI_REASON_SUCCESS, Some id, (<[key_of it := stored id w (entry_of it)]> (view s),
                 notified_of alive WATCH_NOTIFY_TYPE_DATA_UPDATED (entry_of oit) (watch_map_ s)))
         else (XIXI_REASON_WATCH_NOT_FOUND, None, model_of s))) as Hrep.
  { intros s2 Hk2 Hi2 Hok. destruct (Hcalm s2 Hk2 Hi2) as (Hw2&Hv2&Hod2&Hown2&Hid2). apply wp_bind.
    eapply (wp_replace_and_watch s2); [done|by apply room_give|done..|]. intros s3 oit3 Hi3 Ht3 Hoit3 _ Hw3 _ Hv3.
    apply wp_ret. split_and!; [done|by rewrite Ht3, (sw_time _ _ Hw2)|eauto|].
    rewrite watch_ok_valid, Hok. unfold model_of. by rewrite Hv3, Hv2, Hid2, Hw3, (sw_watch _ _ Hw2). }
  eapply wp_check_update_watch; [done..| | |].
  - intros Hwz Hval. apply wp_ret. split; [done|]. intros s2 Hk2 Hi2. rewrite decide_True by done.
    rewrite (valid_world s s1) in Hval by done. assert ((w =? 0) || valid_watch s w = true) as Hok by (by rewrite Hval, orb_true_r).
    by apply Hrep.
  - intros -> s2 Hk2 Hi2. rewrite decide_True by done. by apply Hrep.
  - intros Hwz Hval s2 Hk2 Hi2. destruct (Hcalm s2 Hk2 Hi2) as (Hw2&Hv2&Hod2&_). rewrite decide_False by done.
    rewrite (valid_world s s1) in Hval by done. rewrite watch_ok_valid, Hval. destruct (Z.eqb_spec w 0); [done|].
    apply wp_ret. split_and!; [done|apply Hw2|exists oit; apply Hod2|by rewrite (model_world s s2)].
Qed.

(** What the call knows of both items once it has found the old one. *)
Lemma own_give s s1 held o p it : inv e s held -> own_item e s held p it -> own_item e s1 held p it -> slab_ s1 = slab_ s ->
  o <> p -> own_item e s1 (give o 1 held) p it /\ item_wf (slab_ s1) it.
Proof.
  intros Hi Ho Ho1 Hs Hne. destruct (own_wf e s held p it (inv_core e _ _ Hi) Ho) as [Hwf _].
  destruct Ho1. rewrite Hs. split; [|done]. split; [done..|by rewrite give_ne|done].
Qed.

Lemma set_spec s held p it w :
  inv e s held -> roomy held -> own_item e s held p it ->
  wp (run_update Set_ p w) s (updated s held
    (spec_update alive Set_ (key_of it) (entry_of it) w (next_id (last_cache_id_ s)) (model_of s))).
Proof.
  intros Hi Hr Ho. pose proof (c_held _ _ _ (inv_core e _ _ Hi)) as H0.
  cbn [run_update]. unfold Mgr.set, spec_update. apply wp_bind. cbn [model_of fst snd].
  eapply wp_get_by_item; [done|by apply roomy_room|done| |].
  - intros Hv. rewrite Hv. eapply link_branch; try done; [by apply roomy_room|..]; solve_event.
  - intros o oit s1 Hi1 Hod Hown Hne Hk Hv Hv1 Hw1 Hid1 Hsl1. pose proof (inv_core e _ _ Hi1) as Hc1. rewrite Hv.
    destruct (own_give s s1 held o p it Hi Ho Hown Hsl1 Hne) as [Hown1 Hwf].
    pose proof (class_range _ _ (c_slab _ _ _ Hc1) Hwf) as Hcl.
    apply wp_bind. eapply wp_item; [apply Hown|]. apply wp_bind. eapply wp_item; [apply Hod|]. apply wp_bind.
    change (matches (e_cache_id (entry_of it)) (entry_of oit)) with ((cache_id it =? 0) || (cache_id it =? cache_id oit)).
    destruct ((cache_id it =? 0) || (cache_id it =? cache_id oit)).
    + eapply wp_mono; [eapply matched_branch; [done..|solve_event|solve_event|solve_event]|].
      intros r s2 (Hi2&Hw2&[oit2 Hoit2]&Hspec). by eapply wp_finish.
    + apply wp_bind. eapply wp_stat; [done|solve_event|]. intros s2 Hk2 Hi2. apply wp_ret. eapply wp_finish; try done.
      * by rewrite (k_time _ _ Hk2), (sw_time _ _ Hw1).
      * eapply old_calm; [done|exact Hod].
      * by rewrite (model_world s1 s2), (model_world s s1) by (done || by apply calm_world || apply view_core, Hk2).
Qed.

Lemma replace_spec s held p it w :
  inv e s held -> roomy held -> own_item e s held p it ->
  wp (run_update Replace_ p w) s (updated s held
    (spec_update alive Replace_ (key_of it) (entry_of it) w (next_id (last_cache_id_ s)) (model_of s))).
Proof.
  intros Hi Hr Ho. pose proof (c_held _ _ _ (inv_core e _ _ Hi)) as H0.
  cbn [run_update]. unfold Mgr.replace, spec_update. apply wp_bind. cbn [model_of fst snd].
  eapply wp_get_by_item; [done|by apply roomy_room|done| |].
  - intros Hv. rewrite Hv. apply wp_bind. eapply wp_item; [apply Ho|]. apply wp_bind.
    eapply wp_stat; [done|solve_event|]. intros s1 Hk1 Hi1. apply wp_ret. split; [done|]. split; [by apply Hk1|].
    by rewrite (model_world s s1) by (by apply calm_world || apply view_core, Hk1).
  - intros o oit s1 Hi1 Hod Hown Hne Hk Hv Hv1 Hw1 Hid1 Hsl1. pose proof (inv_core e _ _ Hi1) as Hc1. rewrite Hv.
    destruct (own_give s s1 held o p it Hi Ho Hown Hsl1 Hne) as [Hown1 Hwf].
    pose proof (class_range _ _ (c_slab _ _ _ Hc1) Hwf) as Hcl.
    pose proof (class_range _ _ (c_slab _ _ _ Hc1) (old_wf e s1 _ o oit Hc1 Hod)) as Hclo.
    apply wp_bind. eapply wp_item; [apply Hown|]. apply wp_bind. eapply wp_item; [apply Hod|].
    change (matches (e_cache_id (entry_of it)) (entry_of oit)) with ((cache_id it =? 0) || (cache_id it =? cache_id oit)).
    destruct ((cache_id it =? 0) || (cache_id it =? cache_id oit)).
    + apply wp_assoc, wp_bind. eapply wp_mono; [eapply matched_branch; [done..|solve_event|solve_event|solve_event]|].
      intros r s2 (Hi2&Hw2&[oit2 Hoit2]&Hspec). by eapply wp_finish.
    + apply wp_bind. eapply wp_stat; [done|solve_event|]. intros s2 Hk2 Hi2. eapply wp_finish; try done.
      * by rewrite (k_time _ _ Hk2), (sw_time _ _ Hw1).
      * eapply old_calm; [done|exact Hod].
      * by rewrite (model_world s1 s2), (model_world s s1) by (done || by apply calm_world || apply view_core, Hk2).
Qed.

Lemma add_spec s held p it w :
  inv e s held -> roomy held -> own_item e s held p it ->
  wp (run_update Add_ p w) s (updated s held
    (spec_update alive Add_ (key_of it) (entry_of it) w (next_id (last_cache_id_ s)) (model_of s))).
Proof.
  intros Hi Hr Ho. pose proof (c_held _ _ _ (inv_core e _ _ Hi)) as H0.
  cbn [run_update]. unfold Mgr.add, spec_update. apply wp_bind. cbn [model_of fst snd].
  eapply wp_get_by_item; [done|by apply roomy_room|done| |].
  - intros Hv. rewrite Hv. eapply link_branch; try done; [by apply roomy_room|..]; solve_event.
  - intros o oit s1 Hi1 Hod Hown Hne Hk Hv Hv1 Hw1 Hid1 Hsl1. pose proof (inv_core e _ _ Hi1) as Hc1. rewrite Hv.
    destruct (own_give s s1 held o p it Hi Ho Hown Hsl1 Hne) as [Hown1 Hwf].
    pose proof (class_range _ _ (c_slab _ _ _ Hc1) Hwf) as Hcl.
    apply wp_bind. eapply wp_release_old; [done|by apply roomy_room|done|apply Hod|].
    intros s2 Hi2 Hw2 Hv2 Hh2 _ _ _ _. apply wp_bind. eapply wp_item; [rewrite Hh2; [apply Hown|done]|].
    apply wp_bind. eapply wp_stat; [done|solve_event|]. intros s3 Hk3 Hi3. apply wp_ret. split; [done|]. split.
    + by rewrite (k_time _ _ Hk3), (sw_time _ _ Hw2), (sw_time _ _ Hw1).
    + by rewrite (model_world s2 s3), (model_world s1 s2), (model_world s s1) by (done || by apply calm_world || apply view_core, Hk3).
Qed.
End updates3.
