(* ===== verification/CacheOps.v ===== *)
(** * The operations of the cache refine the reference operations

    Look-up, removal, the updates of the base information, [append],
    [prepend] and [delta]. *)

From S2P Require Import Prelude XixiList XixiHashMap Lookup3 Util CurrTime Pdu Stats Watch Slab Cache CacheInv CacheSpec.
Import Cache_Watch.

Section reference_ops.
Context (alive : sink -> bool).

(** [remove]. *)
Definition spec_remove (k : key) (expected : Z) (m : model) : xixi_reason * model :=
  match m.1 !! k with
  | None => (XIXI_REASON_NOT_FOUND, m)
  | Some en =>
      if matches expected en then
        (XIXI_REASON_SUCCESS, (base.delete k m.1, notified_of alive WATCH_NOTIFY_TYPE_DELETED en m.2))
      else (XIXI_REASON_MISMATCH, m)
  end.

(** [get] at time [t]: the reason, and the entry with the time it has left. *)
Definition spec_get (k : key) (w t : Z) (m : model) : xixi_reason * option (entry * Z) * model :=
  match m.1 !! k with
  | None => (XIXI_REASON_NOT_FOUND, None, m)
  | Some en =>
      if (e_expire_time en =? 0) || (t <? e_expire_time en) then
        let left := if e_expire_time en =? 0 then 0 else e_expire_time en - t in
        if watch_ok w m.2 then
          let en := en <| e_watches ::= watched w |> in
          (XIXI_REASON_SUCCESS, Some (en, left), (<[k := en]> m.1, m.2))
        else (XIXI_REASON_WATCH_NOT_FOUND, None, m)
      else (XIXI_REASON_NOT_FOUND, None, (base.delete k m.1, notified_of alive WATCH_NOTIFY_TYPE_EXPIRED en m.2))
  end.

(** [get_touch]: the entry expires at [x] from now on, whether or not it had
    expired before, and even if the watch does not exist. *)
Definition spec_get_touch (k : key) (w x : Z) (m : model) : xixi_reason * option entry * model :=
  match m.1 !! k with
  | None => (XIXI_REASON_NOT_FOUND, None, m)
  | Some en =>
      let en := en <| e_expire_time := x |> in
      if watch_ok w m.2 then
        let en := en <| e_watches ::= watched w |> in
        (XIXI_REASON_SUCCESS, Some en, (<[k := en]> m.1, m.2))
      else (XIXI_REASON_WATCH_NOT_FOUND, None, (<[k := en]> m.1, m.2))
  end.
End reference_ops.

Section ops.
Context (e : endian) `{Table_Malloc} (alive : sink -> bool).
Implicit Types (s : Cache_Mgr) (held : holds) (p : ptr) (it : Cache_Item) (k : key).

(** The item under a key, with a reference of this call. *)
Lemma wp_find s held k Q :
  inv e s held -> room held ->
  (view s !! k = None -> Q None s) ->
  (forall o oit s', inv e s' (give o 1 held) -> old_item s' (give o 1 held) o oit -> key_of oit = k ->
     view s !! k = Some (entry_of oit) -> view s' = view s -> same_world s s' ->
     last_cache_id_ s' = last_cache_id_ s -> Q (Some o) s') ->
  wp (Mgr.do_get k.1 k.2 (hash_key e k.1 k.2)) s Q.
Proof.
  intros Hi Hr HQn HQs. eapply wp_do_get; [done..|]. intros o oit Ho Hoit Hk Hv Hi'.
  apply (HQs o (with_ref oit)); try done; [|by eapply view_with_ref].
  split; [apply lookup_insert_eq|done|]. rewrite give_eq. pose proof (c_held _ _ _ (inv_core _ _ _ Hi) o). lia.
Qed.

(** Unlinking an item of the cache, held or not. *)
Lemma wp_unlink s held p it ty Q :
  inv e s held -> room held -> p ∈ linked s -> heap s !! p = Some it ->
  (forall s', inv e s' held -> curr_time_ s' = curr_time_ s -> last_cache_id_ s' = last_cache_id_ s ->
     (0 < held p -> exists it', heap s' !! p = Some it') -> around p s s' -> left_list s p s' ->
     model_of s' = (base.delete (key_of it) (view s), notified_of alive ty (entry_of it) (watch_map_ s)) -> Q tt s') ->
  wp (Mgr.do_unlink alive p ty) s Q.
Proof.
  intros Hi Hr Hl Hp HQ. eapply wp_do_unlink; [done..|].
  intros s' Hi' Ha Hperm Hid Hw Hll Hp'. apply HQ; try done; [apply Ha|intros Hh; destruct (Hp' Hh); eauto|].
  unfold model_of. rewrite Hw. f_equal. apply (view_unlink e s s' held held p it); try done;
    [by apply inv_core..|apply Ha].
Qed.
Lemma wp_unlink_old s held o oit ty Q :
  inv e s (give o 1 held) -> roomy held -> old_item s (give o 1 held) o oit ->
  (forall s' oit', inv e s' (give o 1 held) -> curr_time_ s' = curr_time_ s -> heap s' !! o = Some oit' ->
     last_cache_id_ s' = last_cache_id_ s ->
     model_of s' = (base.delete (key_of oit) (view s), notified_of alive ty (entry_of oit) (watch_map_ s)) -> Q tt s') ->
  wp (Mgr.do_unlink alive o ty) s Q.
Proof.
  intros Hi Hr [Ho Hl Hh] HQ. eapply wp_unlink; [done|by apply room_give|done..|].
  intros s' Hi' Ht Hid Ho' _ _ Hm. destruct Ho' as [oit' Ho']; [lia|]. by eapply HQ.
Qed.

Lemma old_class s held o oit : inv e s held -> old_item s held o oit -> 0 <= class_id oit < 200.
Proof. intros [Hc _] Ho. eapply class_range; [apply Hc|by eapply old_wf]. Qed.

(** A statistic on the way: everything known of the old item stays. *)
Lemma wp_stat_old s s1 held o oit g ev Q :
  inv e s1 (give o 1 held) -> old_item s1 (give o 1 held) o oit -> same_world s s1 -> view s1 = view s ->
  last_cache_id_ s1 = last_cache_id_ s -> event_ok ev ->
  (forall s2, inv e s2 (give o 1 held) -> old_item s2 (give o 1 held) o oit -> same_world s s2 -> view s2 = view s ->
     last_cache_id_ s2 = last_cache_id_ s -> Q tt s2) ->
  wp (Mgr.stat g ev) s1 Q.
Proof.
  intros Hi Ho Hw Hv Hid Hev HQ. eapply wp_stat; [done..|]. intros s2 Hk Hi2. apply HQ.
  - done.
  - by eapply old_calm.
  - eapply same_world_trans; [done|by apply calm_world].
  - by rewrite (view_core _ _ (k_core _ _ Hk)).
  - by rewrite (k_id _ _ Hk).
Qed.

(** ... and without one. *)
Lemma wp_stat_end {A} s held g ev (r : A) :
  inv e s held -> event_ok ev -> wp (Mgr.stat g ev ;; mret r) s (updated e s held (r, model_of s)).
Proof.
  intros Hi Hev. apply wp_bind. eapply wp_stat; [done..|]. intros s1 Hk Hi1. apply wp_ret. split; [done|].
  split; [apply Hk|]. by rewrite (model_world s s1) by (by apply calm_world || apply view_core, Hk).
Qed.

Lemma remove_spec s held k expected :
  inv e s held -> roomy held ->
  wp (Mgr.remove e alive k.1 k.2 expected) s (updated e s held (spec_remove alive k expected (model_of s))).
Proof.
  intros Hi Hr. pose proof (c_held _ _ _ (inv_core e _ _ Hi)) as H0. unfold Mgr.remove, spec_remove. cbn [model_of fst snd].
  apply wp_bind. eapply wp_find; [done|by apply roomy_room| |].
  - intros ->. apply wp_stat_end; [done|solve_event].
  - intros o oit s1 Hi1 Ho Hk Hv Hv1 Hw1 Hid1. rewrite Hv. pose proof (old_class s1 _ o oit Hi1 Ho) as Hc.
    apply wp_bind. eapply wp_item; [apply Ho|]. apply wp_bind.
    change (matches expected (entry_of oit)) with ((expected =? 0) || (expected =? cache_id oit)).
    destruct ((expected =? 0) || (expected =? cache_id oit)).
    + apply wp_bind. eapply (wp_stat_old s s1); [done..|solve_event|]. intros s2 Hi2 Ho2 Hw2 Hv2 Hid2.
      apply wp_bind. eapply wp_unlink_old; [done..|]. intros s3 oit3 Hi3 Ht3 Ho3 Hid3 Hm3. apply wp_ret.
      eapply wp_finish; try done; [by rewrite Ht3, (sw_time _ _ Hw2)|]. by rewrite Hm3, Hv2, Hk, (sw_watch _ _ Hw2).
    + apply wp_bind. eapply (wp_stat_old s s1); [done..|solve_event|]. intros s2 Hi2 Ho2 Hw2 Hv2 Hid2. apply wp_ret.
      eapply wp_finish; try done; [apply Hw2|apply Ho2|]. by rewrite (model_world s s2).
Qed.

(** The answer of a look-up: the item, with a reference for the caller. *)
Definition found {A} (s : Cache_Mgr) held k (spec : xixi_reason * option (entry * A) * model)
    (r : option (ptr * A) * xixi_reason) (s' : Cache_Mgr) : Prop :=
  curr_time_ s' = curr_time_ s /\
  match spec, r with
  | (reason, None, m), (None, reason') => reason' = reason /\ model_of s' = m /\ inv e s' held
  | (reason, Some (en, x), m), (Some (p, x'), reason') =>
      reason' = reason /\ model_of s' = m /\ inv e s' (give p 1 held) /\ x' = x /\
      p ∈ linked s' /\ exists it, heap s' !! p = Some it /\ key_of it = k /\ entry_of it = en
  | _, _ => False
  end.

Lemma wp_get_expiration s held k Q :
  inv e s held -> roomy held ->
  let t := time_of s in
  (view s !! k = None -> Q None s) ->
  (forall o oit s', inv e s' (give o 1 held) -> old_item s' (give o 1 held) o oit -> key_of oit = k ->
     view s !! k = Some (entry_of oit) -> view s' = view s -> same_world s s' ->
     (expire_time oit =? 0) || (t <? expire_time oit) = true ->
     Q (Some (o, if expire_time oit =? 0 then 0 else expire_time oit - t)) s') ->
  (forall it s', inv e s' held -> curr_time_ s' = curr_time_ s -> view s !! k = Some (entry_of it) ->
     (expire_time it =? 0) || (t <? expire_time it) = false ->
     model_of s' = (base.delete k (view s), notified_of alive WATCH_NOTIFY_TYPE_EXPIRED (entry_of it) (watch_map_ s)) ->
     Q None s') ->
  wp (Mgr.do_get_expiration alive k.1 k.2 (hash_key e k.1 k.2)) s Q.
Proof.
  intros Hi Hr t HQn HQs HQx. unfold Mgr.do_get_expiration. apply wp_bind. eapply wp_map_find; [done| |].
  - intros Hn. apply wp_ret. auto.
  - intros p it Hp Hit Hk Hv. apply wp_bind. eapply wp_item; [done|].
    assert (forall x, (expire_time it =? 0) || (t <? expire_time it) = true ->
        x = (if expire_time it =? 0 then 0 else expire_time it - t) -> wp (Mgr.add_ref p ;; mret (Some (p, x))) s Q) as Hadd.
    { intros x Hx ->. apply wp_bind. eapply wp_add_ref; [done..|pose proof (Hr p); lia|]. intros s1 Hi1. apply wp_ret.
      apply (HQs p (with_ref it)); try done; [|by eapply view_with_ref].
      split; [apply lookup_insert_eq|done|]. rewrite give_eq. pose proof (c_held _ _ _ (inv_core _ _ _ Hi) p). lia. }
    destruct (Z.eqb_spec (expire_time it) 0) as [Hz|Hz].
    + by apply Hadd.
    + apply wp_bind, wp_now. fold (time_of s) t. rewrite Z.gtb_ltb. destruct (t <? expire_time it) eqn:E.
      * by apply Hadd.
      * apply wp_bind. eapply wp_unlink; [done|by apply roomy_room|done..|]. intros s' Hi' Ht' _ _ _ _ Hm'. apply wp_ret.
        eapply HQx; try done; [rewrite E; by destruct (Z.eqb_spec (expire_time it) 0)|by rewrite Hm', Hk].
Qed.

(** The watch a look-up asks for, on the item it found. *)
Lemma wp_watch_found s held o oit k w Q :
  inv e s (give o 1 held) -> old_item s (give o 1 held) o oit -> key_of oit = k ->
  (forall s' it, inv e s' (give o 1 held) -> same_world s s' -> o ∈ linked s' -> heap s' !! o = Some it -> key_of it = k ->
     entry_of it = (entry_of oit) <| e_watches ::= Item.set_insert w |> -> view s' = <[k := entry_of it]> (view s) -> Q tt s') ->
  wp (Mgr.add_watch o w) s Q.
Proof.
  intros Hi [Ho Hl _] Hk HQ. eapply wp_add_watch_linked; [done..|]. intros s1 Hi1 -> Hv1.
  apply (HQ _ (Item.add_watch w oit)); try done; [apply lookup_insert_eq|]. by rewrite Hv1, Hk.
Qed.

Lemma get_spec s held k w is_base :
  inv e s held -> roomy held ->
  wp (Mgr.get e alive k.1 k.2 w is_base) s (found s held k (spec_get alive k w (time_of s) (model_of s))).
Proof.
  intros Hi Hr. unfold Mgr.get, spec_get. cbn [model_of fst snd]. apply wp_bind. eapply wp_get_expiration; [done..| | |].
  - intros ->. apply wp_bind. eapply wp_stat; [done|destruct is_base; solve_event|]. intros s1 Hk1 Hi1. apply wp_ret.
    split; [apply Hk1|]. split_and!; [done| |done]. apply model_world; [by apply calm_world|]. apply view_core, Hk1.
  - intros o oit s1 Hi1 Ho Hk Hv Hv1 Hw1 Hx. rewrite Hv. pose proof (old_class s1 _ o oit Hi1 Ho) as Hc.
    change (e_expire_time (entry_of oit)) with (expire_time oit). rewrite Hx. apply wp_bind. eapply wp_item; [apply Ho|].
    rewrite watch_ok_valid, <- (valid_world s s1) by done.
    destruct (Z.eqb_spec w 0) as [->|Hw]; cbn [negb orb].
    + apply wp_bind. eapply wp_stat; [done|destruct is_base; solve_event|]. intros s2 Hk2 Hi2. apply wp_ret.
      pose proof (old_calm _ _ _ _ _ Hk2 Ho) as [Ho2 Hl2 _].
      split; [by rewrite (k_time _ _ Hk2), (sw_time _ _ Hw1)|]. split_and!; try done; [|by eexists].
      unfold model_of. rewrite (k_watch _ _ Hk2), (sw_watch _ _ Hw1), (view_core _ _ (k_core _ _ Hk2)), Hv1. f_equal.
      symmetry. apply insert_id. by rewrite Hv.
    + apply wp_bind, wp_gets. fold (valid_watch s1 w). destruct (valid_watch s1 w).
      * apply wp_bind. eapply wp_watch_found; [done..|]. intros s2 it Hi2 Hw2 Hl2 Ho2 Hk2 He2 Hv2.
        apply wp_bind. eapply wp_stat; [done|solve_event|]. intros s3 Hk3 Hi3. apply wp_ret.
        assert (entry_of it = (entry_of oit) <| e_watches ::= watched w |>) as He.
        { rewrite He2. unfold watched. by destruct (Z.eqb_spec w 0). }
        split; [by rewrite (k_time _ _ Hk3), (sw_time _ _ Hw2), (sw_time _ _ Hw1)|]. split_and!; try done.
        -- unfold model_of. by rewrite (k_watch _ _ Hk3), (sw_watch _ _ Hw2), (sw_watch _ _ Hw1),
             (view_core _ _ (k_core _ _ Hk3)), Hv2, Hv1, He.
        -- by rewrite (sc_hash _ _ (k_core _ _ Hk3)).
        -- exists it. by rewrite (sc_heap _ _ (k_core _ _ Hk3)).
      * apply wp_bind. eapply (wp_stat_old s1 s1); [done..|solve_event|]. intros s2 Hi2 Ho2 Hw2 Hv2 _.
        apply wp_bind. eapply wp_release_old; [done|by apply roomy_room|apply (inv_core e _ _ Hi)|apply Ho2|].
        intros s3 Hi3 Hw3 Hv3 _ _ _ _ _. apply wp_ret.
        split; [by rewrite (sw_time _ _ Hw3), (sw_time _ _ Hw2), (sw_time _ _ Hw1)|]. split_and!; [done| |done].
        unfold model_of. by rewrite Hv3, Hv2, Hv1, (sw_watch _ _ Hw3), (sw_watch _ _ Hw2), (sw_watch _ _ Hw1).
  - intros it s1 Hi1 Ht1 Hv Hx Hm1. rewrite Hv. change (e_expire_time (entry_of it)) with (expire_time it). rewrite Hx.
    apply wp_bind. eapply wp_stat; [done|destruct is_base; solve_event|]. intros s2 Hk2 Hi2. apply wp_ret.
    split; [by rewrite (k_time _ _ Hk2)|]. split_and!; [done| |done].
    rewrite (model_world s1 s2) by (by apply calm_world || apply view_core, Hk2). exact Hm1.
Qed.
End ops.

Section moves.
Context (e : endian) `{Table_Malloc}.
Implicit Types (s : Cache_Mgr) (held : holds) (p : ptr) (it : Cache_Item) (k : key).

(** An item moves to the front of another list of expirations, or of its own. *)
Lemma core_move s s' held p it i j l l' :
  core e s held -> heap s !! p = Some it -> p ∈ linked s -> (j <= 33)%nat ->
  expire_list_ s !! i = Some l -> p ∈ l -> <[i := Seq.remove p l]> (expire_list_ s) !! j = Some l' ->
  heap s' = <[p := it <| expiration_id := Z.of_nat j |>]> (heap s) ->
  expire_list_ s' = <[j := p :: l']> (<[i := Seq.remove p l]> (expire_list_ s)) ->
  cache_hash_map_ s' = cache_hash_map_ s -> free_cache_list_ s' = free_cache_list_ s ->
  flush_cache_list_ s' = flush_cache_list_ s -> slab_ s' = slab_ s ->
  mem_limit_ s' = mem_limit_ s -> mem_used_ s' = mem_used_ s ->
  core e s' held /\ placed s' ≡ₚ placed s.
Proof.
  intros Hc Hp Hl Hj Hil Hpin Hjl Eh Ee Em Ef Efl Es El Eu.
  destruct (linked_item e s held p it Hc Hl Hp) as (Hwf&Href&Hpos). pose proof (not_free e s held p Hc Hl) as Hnf.
  pose proof (expire_nodup e s held i l Hc Hil) as Hnd. set (ls := <[i := Seq.remove p l]> (expire_list_ s)) in *.
  destruct (concat_lookup _ _ _ (Seq.remove p l) Hil) as (r&Hr&Hr'). fold ls in Hr'.
  destruct (concat_lookup _ _ _ (p :: l') Hjl) as (r2&Hr2&Hr2').
  assert (concat (expire_list_ s) ≡ₚ p :: concat ls) as Hce.
  { rewrite Hr', Hr. by rewrite (Seq.remove_Permutation p l) at 1. }
  assert (concat (expire_list_ s') ≡ₚ concat (expire_list_ s)) as Hce'.
  { rewrite Ee, Hce, Hr2', Hr2. done. }
  assert (p ∉ concat ls) as Hnls.
  { pose proof (c_nodup _ _ _ Hc) as Hn. unfold placed in Hn. rewrite Hce in Hn. cbn in Hn.
    apply NoDup_cons in Hn as [Hn _]. intros Hin. apply Hn. rewrite elem_of_app. by left. }
  assert (placed s' ≡ₚ placed s) as Hpl by (unfold placed; by rewrite Ef, Efl, Hce').
  split; [|done]. set (it' := it <| expiration_id := Z.of_nat j |>) in *.
  assert (forall q, refs s' held q = refs s held q) as Hrefs by (intros q; unfold refs; by rewrite Em, Efl).
  assert (forall x itx, heap s' !! x = Some itx -> exists itx', heap s !! x = Some itx' /\ key_of itx' = key_of itx /\
      hash_value_ itx' = hash_value_ itx) as Hold.
  { intros x itx. rewrite Eh. destruct (decide (x = p)) as [->|].
    - rewrite lookup_insert_eq. intros [= <-]. exists it. done.
    - rewrite lookup_insert_ne by done. eauto. }
  split; rewrite ?Es, ?Ef, ?El, ?Eu, ?Em; try apply Hc.
  - rewrite Ee. unfold ls. rewrite !length_insert. apply Hc.
  - eapply BucketsFacts.wf_ext; [|apply Hc]. intros q Hq. unfold Mgr.hv. rewrite Eh.
    destruct (decide (q = p)) as [->|]; [by rewrite lookup_insert_eq, Hp|by rewrite lookup_insert_ne].
  - by rewrite Hce', (c_expire _ _ _ Hc).
  - rewrite Hpl. apply Hc.
  - intros a m q Ha Hq. destruct (c_free _ _ _ Hc a m q Ha Hq) as (itq&?&?&?&?). exists itq.
    rewrite Eh, lookup_insert_ne; [done|]. intros ->. apply Hnf, elem_of_concat. eauto.
  - intros q itq. rewrite Eh, Hrefs. destruct (decide (q = p)) as [->|].
    + rewrite lookup_insert_eq. intros [= <-] _. split; [|done]. solve_item_wf Hwf.
    + rewrite lookup_insert_ne by done. apply Hc.
  - assert (forall a m q, ls !! a = Some m -> q ∈ m -> exists m', expire_list_ s !! a = Some m' /\ q ∈ m') as Hsub.
    { intros a m q Ha Hq. unfold ls in Ha. destruct (decide (a = i)) as [->|].
      - rewrite list_lookup_insert_eq in Ha by (by eapply lookup_lt_Some). injection Ha as <-.
        exists l. split; [done|]. by apply Seq.elem_of_remove in Hq as [? _].
      - rewrite list_lookup_insert_ne in Ha by done. eauto. }
    assert (forall a m q itq, ls !! a = Some m -> q ∈ m -> heap s' !! q = Some itq -> expiration_id itq = Z.of_nat a) as Hls.
    { intros a m q itq Ha Hq. assert (q <> p) by (intros ->; apply Hnls, elem_of_concat; eauto).
      rewrite Eh, lookup_insert_ne by done. destruct (Hsub a m q Ha Hq) as (m'&?&?). by apply (c_list _ _ _ Hc) with (p := q) (l := m'). }
    intros a m q itq. rewrite Ee. destruct (decide (a = j)) as [->|].
    + rewrite list_lookup_insert_eq by (by eapply lookup_lt_Some). intros [= <-] [->|Hq]%elem_of_cons; [|by eapply Hls].
      rewrite Eh, lookup_insert_eq. by intros [= <-].
    + rewrite list_lookup_insert_ne by done. intros Ha Hq. by eapply Hls.
  - intros q. rewrite Hrefs, Eh. destruct (decide (q = p)) as [->|]; [by rewrite lookup_insert_eq|].
    rewrite lookup_insert_ne by done. apply Hc.
  - intros q itq Hq Hh. destruct (Hold q itq Hh) as (itx&?&<-&<-). by apply (c_keys _ _ _ Hc q).
  - intros q t itq itt Hq Ht Hhq Hht. destruct (Hold q itq Hhq) as (?&?&<-&_), (Hold t itt Hht) as (?&?&<-&_).
    by apply (c_uniq _ _ _ Hc).
  - rewrite Eh, (mem_of_update _ p it) by done. apply Hc.
Qed.

(** The state after the move. *)
Record moved (s : Cache_Mgr) (p : ptr) (it : Cache_Item) (i : nat) (l : list ptr) (x : Z) (s' : Cache_Mgr) : Prop := {
  mv_heap : heap s' = <[p := it <| expiration_id := x |>]> (heap s);
  mv_hash : cache_hash_map_ s' = cache_hash_map_ s;
  mv_world : same_world s s';
  mv_id : last_cache_id_ s' = last_cache_id_ s;
  mv_free : free_cache_list_ s' = free_cache_list_ s;
  mv_slab : slab_ s' = slab_ s;
  mv_check : expire_check_time_ s' = expire_check_time_ s;
  mv_lists : exists l', <[i := Seq.remove p l]> (expire_list_ s) !! Z.to_nat x = Some l' /\
    expire_list_ s' = <[Z.to_nat x := p :: l']> (<[i := Seq.remove p l]> (expire_list_ s))
}.

Lemma wp_move s held p it i l x Q :
  inv e s held -> p ∈ linked s -> heap s !! p = Some it -> 0 <= x <= 33 -> expire_list_ s !! i = Some l -> p ∈ l ->
  (forall s', inv e s' held -> moved s p it i l x s' -> Q tt s') ->
  wp (Lists.remove (Expire (Z.of_nat i)) p;; Mgr.update p (fun it => it <| expiration_id := u8 x |>);;
      Lists.push_front (Expire x) p) s Q.
Proof.
  intros Hi Hl Hp Hx Hil Hpin HQ. pose proof (inv_core e _ _ Hi) as Hc.
  apply wp_bind. eapply wp_lists_remove; [done..|]. set (s1 := s <| expire_list_ ::= _ |>).
  apply wp_bind. eapply wp_update; [exact Hp|]. rewrite wrap_small by lia.
  set (s2 := touch p _ s1). destruct (c_lens _ _ _ Hc) as [Hle _].
  destruct (lookup_lt_is_Some_2 (expire_list_ s2) (Z.to_nat x)) as [l' Hl'].
  { subst s2 s1. cbn. rewrite length_insert. lia. }
  unfold Lists.push_front. apply wp_bind. replace (Expire x) with (Expire (Z.of_nat (Z.to_nat x))) by (f_equal; lia).
  eapply wp_lists_load; [by apply get_expire|]. apply wp_bind, wp_gets.
  assert (Lists.linked p s2 = false) as ->.
  { rewrite linked_spec. apply bool_decide_eq_false_2. intros Hin.
    pose proof (c_nodup _ _ _ Hc) as Hn. destruct (concat_lookup _ _ _ (Seq.remove p l) Hil) as (r&Hr&Hr').
    assert (placed s ≡ₚ p :: placed s2) as Hpl.
    { unfold placed. subst s2 s1. cbn. rewrite Hr', Hr. by rewrite (Seq.remove_Permutation p l) at 1 by
        (done || by eapply expire_nodup). }
    rewrite Hpl in Hn. by apply NoDup_cons in Hn as [Hn _]. }
  apply wp_bind, wp_assert; [done|]. apply wp_modify. rewrite Z2Nat.id by lia. set (s3 := Lists.put _ _ s2).
  apply HQ.
  - destruct (core_move s s3 held p it i (Z.to_nat x) l l') as [Hc3 _]; try done; [lia|cbn; by rewrite Z2Nat.id by lia|].
    split; [done|]. destruct Hi as [_ []]. by split.
  - split; try done. exists l'. done.
Qed.
Lemma wp_move_model s held p it i l x s' :
  inv e s held -> inv e s' held -> p ∈ linked s -> heap s !! p = Some it -> moved s p it i l x s' ->
  model_of s' = model_of s.
Proof.
  intros Hi Hi' Hl Hp Hm. apply model_world; [apply Hm|]. apply view_same; [by rewrite (mv_hash _ _ _ _ _ _ _ Hm)|].
  intros q _. unfold kv. rewrite (mv_heap _ _ _ _ _ _ _ Hm). destruct (decide (q = p)) as [->|].
  - by rewrite lookup_insert_eq, Hp.
  - by rewrite lookup_insert_ne.
Qed.
End moves.

(** ** The base information of an entry *)
Section base_info.
Context (alive : sink -> bool).

(** [update_flags]: success and the cache id answered.  The watches on the
    entry that no longer exist go. *)
Definition spec_update_flags (k : key) (expected fl id : Z) (m : model) : bool * Z * model :=
  match m.1 !! k with
  | None => (false, 0, m)
  | Some en =>
      if matches expected en then
        let en' := mk_entry fl (e_expire_time en) id (e_data en) (e_ext en) (existing m.2 (e_watches en)) in
        (true, id, (<[k := en']> m.1, notified_of alive WATCH_NOTIFY_TYPE_BASE_INFO_UPDATED en m.2))
      else (false, e_cache_id en, m)
  end.

(** [update_expiration]: the watches are not told. *)
Definition spec_update_expiration (k : key) (expected x : Z) (m : model) : bool * Z * model :=
  match m.1 !! k with
  | None => (false, 0, m)
  | Some en =>
      if matches expected en then (true, e_cache_id en, (<[k := en <| e_expire_time := x |>]> m.1, m.2))
      else (false, 2 ^ 64 - 1, m)
  end.

(** A request that does not match the entry leaks a reference to its item. *)
Definition mismatched (k : key) (expected : Z) (m : cache) : bool :=
  match m !! k with Some en => negb (matches expected en) | None => false end.
End base_info.

Section base_info_ops.
Context (e : endian) `{Table_Malloc} (alive : sink -> bool).
Implicit Types (s : Cache_Mgr) (held : holds) (p : ptr) (it : Cache_Item) (k : key).

(** A new value of a linked item that stays where it is. *)
Lemma wp_rewrite s held o oit (f : Cache_Item -> Cache_Item) Q :
  inv e s held -> old_item s held o oit -> in_place s o oit (f oit) -> item_wf (slab_ s) (f oit) ->
  ref_count (f oit) = ref_count oit ->
  (forall s', s' = touch o (f oit) s -> inv e s' held -> old_item s' held o (f oit) -> key_of (f oit) = key_of oit ->
     view s' = <[key_of oit := entry_of (f oit)]> (view s) -> Q tt s') ->
  wp (Mgr.update o f) s Q.
Proof.
  intros Hi [Ho Hl Hh] Hin Hwf Hr HQ. pose proof (inv_core e _ _ Hi) as Hc.
  assert (inv e (touch o (f oit) s) held) as Hi' by (eapply inv_set; try done; by eapply not_free).
  assert (key_of (f oit) = key_of oit) as Hk by (by apply Hin).
  eapply wp_update; [done|]. apply HQ; try done.
  - split; try done. apply lookup_insert_eq.
  - apply (view_update e s held held o oit); try done. by apply inv_core.
Qed.

(** The same for a change of members that are not in the memory of the item. *)
Definition same_memory (it it' : Cache_Item) : Prop :=
  body it' = body it /\ class_id it' = class_id it /\ hash_value_ it' = hash_value_ it /\ group_id it' = group_id it /\
  key_length it' = key_length it /\ data_size it' = data_size it /\ ext_size it' = ext_size it /\
  expiration_id it' = expiration_id it /\ ref_count it' = ref_count it.

Lemma wp_set_member s held o oit (f : Cache_Item -> Cache_Item) Q :
  inv e s held -> old_item s held o oit -> same_memory oit (f oit) -> 0 <= expire_time (f oit) < 2 ^ 32 ->
  (forall s', s' = touch o (f oit) s -> inv e s' held -> old_item s' held o (f oit) -> key_of (f oit) = key_of oit ->
     view s' = <[key_of oit := entry_of (f oit)]> (view s) -> Q tt s') ->
  wp (Mgr.update o f) s Q.
Proof.
  intros Hi Ho (Hb&Hc&Hh&Hg&Hk&Hd&Hx&He&Hr) Ht HQ.
  pose proof (old_wf e s held o oit (inv_core e _ _ Hi) Ho) as Hwf.
  eapply wp_rewrite; try done.
  - split; [by rewrite Hb|done|]. intros _. split; [done|]. split; [|done]. unfold key_of. by rewrite Hg, Hk, Hb.
  - destruct Hwf. split; rewrite ?Hk, ?Hd, ?Hx, ?Hc, ?Hb, ?He; done.
Qed.

Lemma get_touch_spec s held k w x :
  inv e s held -> roomy held -> 0 <= x ->
  wp (Mgr.get_touch e k.1 k.2 w x) s (fun r s' =>
    found e s held k ((fun a => (a.1.1, (fun en => (en, tt)) <$> a.1.2, a.2))
        (spec_get_touch k w (Current_Time.realtime (time_of s) x) (model_of s)))
      ((fun p => (p, tt)) <$> r.1, r.2) s').
Proof.
  intros Hi Hr Hx. unfold Mgr.get_touch, spec_get_touch. cbn [model_of fst snd]. apply wp_bind.
  pose proof (c_held _ _ _ (inv_core e _ _ Hi)) as H0. set (t := Current_Time.realtime (time_of s) x).
  assert (0 <= t < 2 ^ 32) as Ht by (apply realtime_range; [apply Hi|done]).
  unfold Mgr.do_get_touch. apply wp_bind. eapply wp_map_find; [done| |].
  - intros ->. apply wp_ret, wp_bind. eapply wp_stat; [done|solve_event|]. intros s1 Hk1 Hi1. apply wp_ret.
    split; [apply Hk1|]. split_and!; [done| |done]. apply model_world; [by apply calm_world|]. apply view_core, Hk1.
  - intros o oit0 Hol Hoit Hk Hv. apply wp_bind. eapply wp_add_ref; [done..|pose proof (Hr o); lia|]. intros s1 Hi1.
    assert (old_item s1 (give o 1 held) o (with_ref oit0)) as Ho1.
    { split; [apply lookup_insert_eq|done|]. rewrite give_eq. pose proof (H0 o). lia. }
    pose proof (view_with_ref e s held o oit0 Hi Hi1 Hoit Hol) as Hv1. fold s1 in Hv1.
    apply wp_bind, wp_realtime. change (Current_Time.get_current_time (curr_time_ s1)) with (time_of s). fold t.
    apply wp_bind. eapply (wp_set_member s1 (give o 1 held) o (with_ref oit0) (fun it => it <| expire_time := t |>)); [done..|].
    intros s2 Hs2 Hi2 Ho2 Hk2 Hv2. set (oit := (with_ref oit0) <| expire_time := t |>) in *. apply wp_ret.
    change (key_of (with_ref oit0)) with (key_of oit0) in *. rewrite Hk in *.
    assert (view s2 = <[k := entry_of oit]> (view s)) as Hv2' by (rewrite Hv2; f_equal; exact Hv1). clear Hv2. rename Hv2' into Hv2.
    assert (watch_map_ s2 = watch_map_ s /\ curr_time_ s2 = curr_time_ s) as [Hwm2 Ht2] by (by subst s2).
    rewrite Hv. change ((entry_of oit0) <| e_expire_time := t |>) with (entry_of oit).
    pose proof (old_class e s2 _ o oit Hi2 Ho2) as Hc. apply wp_bind. eapply wp_item; [apply Ho2|].
    assert (watch_ok w (watch_map_ s) = (w =? 0) || valid_watch s2 w) as -> by (unfold valid_watch; by rewrite Hwm2).
    assert (entry_of oit = (entry_of oit0) <| e_expire_time := t |>) as Hen by done.
    destruct (Z.eqb_spec w 0) as [->|Hw]; cbn [negb orb].
    + apply wp_bind. eapply wp_stat; [done|solve_event|]. intros s3 Hk3 Hi3. apply wp_ret.
      pose proof (old_calm _ _ _ _ _ Hk3 Ho2) as [Ho3 Hl3 _].
      split; [by rewrite (k_time _ _ Hk3)|]. split_and!; try done; [|by eexists].
      unfold model_of. by rewrite (k_watch _ _ Hk3), (view_core _ _ (k_core _ _ Hk3)), Hv2, Hwm2.
    + apply wp_bind, wp_gets. fold (valid_watch s2 w). destruct (valid_watch s2 w).
      * apply wp_bind. eapply wp_watch_found; [done..|]. intros s3 it Hi3 Hw3 Hl3 Ho3 Hk3 He3 Hv3.
        apply wp_bind. eapply wp_stat; [done|solve_event|]. intros s4 Hk4 Hi4. apply wp_ret.
        assert (entry_of it = (entry_of oit) <| e_watches ::= watched w |>) as He.
        { rewrite He3. unfold watched. by destruct (Z.eqb_spec w 0). }
        split; [by rewrite (k_time _ _ Hk4), (sw_time _ _ Hw3)|]. split_and!; try done.
        -- unfold model_of. by rewrite (k_watch _ _ Hk4), (sw_watch _ _ Hw3), (view_core _ _ (k_core _ _ Hk4)), Hv3, Hv2, He,
             Hwm2, insert_insert_eq.
        -- by rewrite (sc_hash _ _ (k_core _ _ Hk4)).
        -- exists it. by rewrite (sc_heap _ _ (k_core _ _ Hk4)).
      * apply wp_bind. eapply (wp_stat_old e s2 s2); [done..|solve_event|]. intros s3 Hi3 Ho3 Hw3 Hv3 _.
        apply wp_bind. eapply wp_release_old; [done|by apply roomy_room|done|apply Ho3|].
        intros s4 Hi4 Hw4 Hv4 _ _ _ _ _. apply wp_ret.
        split; [by rewrite (sw_time _ _ Hw4), (sw_time _ _ Hw3)|]. split_and!; [done| |done].
        unfold model_of. by rewrite Hv4, Hv3, Hv2, (sw_watch _ _ Hw4), (sw_watch _ _ Hw3), Hwm2.
Qed.

(** One item changes, whatever else does outside the lists. *)
Lemma view_change s s' held held' p it it' :
  core e s held -> core e s' held' -> cache_hash_map_ s' = cache_hash_map_ s ->
  (forall q, q <> p -> heap s' !! q = heap s !! q) -> p ∈ linked s ->
  heap s !! p = Some it -> heap s' !! p = Some it' -> key_of it' = key_of it ->
  view s' = <[key_of it := entry_of it']> (view s).
Proof.
  intros Hc Hc' Hm Hoth Hl Hp Hp' Hk. apply map_eq. intros k. destruct (decide (k = key_of it)) as [->|Hne].
  { rewrite lookup_insert_eq, <- Hk. eapply view_item; [exact Hc'|by rewrite Hm|done]. }
  rewrite lookup_insert_ne by done. apply option_eq. intros en.
  rewrite (view_lookup e _ held'), (view_lookup e s held), Hm by done.
  split; intros (q&Hq&E); exists q; (split; [done|]); unfold kv in *.
  - rewrite <- Hoth; [done|]. intros ->. rewrite Hp' in E. cbn in E. congruence.
  - rewrite Hoth; [done|]. intros ->. rewrite Hp in E. cbn in E. congruence.
Qed.

(** Telling the watches of a linked item, which stays. *)
Lemma wp_notify_old s held o oit ty Q :
  inv e s held -> old_item s held o oit ->
  (forall s' oit', inv e s' held -> old_item s' held o oit' -> key_of oit' = key_of oit -> curr_time_ s' = curr_time_ s ->
     last_cache_id_ s' = last_cache_id_ s -> expiration_id oit' = expiration_id oit -> class_id oit' = class_id oit ->
     entry_of oit' = mk_entry (flags oit) (expire_time oit) (cache_id oit) (data_of oit) (ext_of oit)
                       (existing (watch_map_ s) (default [] (watch_item oit))) ->
     model_of s' = (<[key_of oit := entry_of oit']> (view s), notified_of alive ty (entry_of oit) (watch_map_ s)) ->
     Q tt s') ->
  wp match watch_item oit with Some _ => Mgr.notify_watch alive o ty | None => mret tt end s Q.
Proof.
  intros Hi [Ho Hl Hh] HQ. pose proof (inv_core e _ _ Hi) as Hc. destruct (watch_item oit) as [ws|] eqn:Hws.
  - eapply wp_notify_watch; [done..|by eapply not_free|done|].
    intros s' Hi' Ha Hm _ _ _ Hid Hw _ Hp'. eapply (HQ s' (oit <| watch_item := Some (existing (watch_map_ s) ws) |>)); try done.
    + split; [done|by rewrite Hm|done].
    + apply Ha.
    + unfold model_of. rewrite Hw. unfold notified_of. cbn [entry_of e_watches e_cache_id]. rewrite Hws. f_equal.
      eapply (view_change s s' held held o); try done; [by apply inv_core|apply Ha].
  - apply wp_ret. eapply (HQ s oit); try done.
    + unfold entry_of, existing. by rewrite Hws.
    + unfold model_of, notified_of. cbn. rewrite Hws. cbn. f_equal. symmetry. apply insert_id.
      by eapply (view_item e).
Qed.

Lemma inv_id s held id : inv e s held -> inv e (s <| last_cache_id_ := id |>) held.
Proof.
  intros [Hc []]. split; [|by split]. eapply core_same; [|exact Hc]. split; try done.
  split; [apply Hc|apply same_classes_refl].
Qed.

(** The outcome of an update of the base information. *)
Definition base_updated {A} s held k (leak : bool) (spec : A * model) (r : A) (s' : Cache_Mgr) : Prop :=
  curr_time_ s' = curr_time_ s /\ (r, model_of s') = spec /\
  if leak then exists p it, p ∈ linked s' /\ heap s' !! p = Some it /\ key_of it = k /\ inv e s' (give p 1 held)
  else inv e s' held.

Lemma base_finish {A} s held k s2 o oit (r : A) spec :
  roomy held -> (forall q, 0 <= held q) -> inv e s2 (give o 1 held) -> curr_time_ s2 = curr_time_ s ->
  heap s2 !! o = Some oit -> (r, model_of s2) = spec ->
  wp (Mgr.do_release_reference o ;; mret r) s2 (base_updated s held k false spec).
Proof.
  intros. eapply wp_mono; [by eapply (wp_finish e s held)|]. by intros r' s3 (?&?&?).
Qed.

Lemma base_leak {A} s held k s1 o oit g ev (r : A) spec :
  inv e s1 (give o 1 held) -> old_item s1 (give o 1 held) o oit -> key_of oit = k -> same_world s s1 ->
  view s1 = view s -> event_ok ev -> (r, model_of s) = spec ->
  wp (Mgr.stat g ev ;; mret r) s1 (base_updated s held k true spec).
Proof.
  intros Hi1 Ho Hk Hw1 Hv1 Hev Hs. apply wp_bind. eapply (wp_stat_old e s1 s1); [done..|].
  intros s2 Hi2 Ho2 Hw2 Hv2 _. apply wp_ret.
  split; [by rewrite (sw_time _ _ Hw2), (sw_time _ _ Hw1)|]. split.
  - by rewrite (model_world s1 s2), (model_world s s1).
  - exists o, oit. destruct Ho2. done.
Qed.

Lemma base_miss {A} s held k g ev (r : A) spec :
  inv e s held -> event_ok ev -> (r, model_of s) = spec ->
  wp (Mgr.stat g ev ;; mret r) s (base_updated s held k false spec).
Proof.
  intros Hi Hev <-. eapply wp_mono; [by apply (wp_stat_end e)|]. by intros r' s3 (?&?&?).
Qed.

Lemma update_flags_spec s held k expected fl :
  inv e s held -> roomy held ->
  wp (Mgr.update_flags e alive k.1 k.2 expected fl) s
    (base_updated s held k (mismatched k expected (view s))
       (spec_update_flags alive k expected fl (next_id (last_cache_id_ s)) (model_of s))).
Proof.
  intros Hi Hr. pose proof (c_held _ _ _ (inv_core e _ _ Hi)) as H0.
  unfold Mgr.update_flags, spec_update_flags, mismatched. cbn [model_of fst snd].
  apply wp_bind. eapply wp_find; [done|by apply roomy_room| |].
  - intros ->. by apply base_miss; [|solve_event|].
  - intros o oit s1 Hi1 Ho Hk Hv Hv1 Hw1 Hid1. rewrite Hv. pose proof (old_class e s1 _ o oit Hi1 Ho) as Hc.
    pose proof (iw_expire _ _ (old_wf e s1 _ o oit (inv_core _ _ _ Hi1) Ho)) as Hx.
    apply wp_bind. eapply wp_item; [apply Ho|].
    change (matches expected (entry_of oit)) with ((expected =? 0) || (expected =? cache_id oit)).
    destruct ((expected =? 0) || (expected =? cache_id oit)); [|by eapply base_leak; [..|solve_event|]].
    cbn [negb]. apply wp_bind. eapply (wp_set_member s1 _ o oit (fun it => it <| flags := fl |>)); [done..|].
    intros s2 Hs2 Hi2 Ho2 Hk2 Hv2. apply wp_bind.
    assert (same_world s1 s2 /\ last_cache_id_ s2 = last_cache_id_ s1) as [Hw2 Hid2] by (by subst s2).
    change (watch_item oit) with (watch_item (oit <| flags := fl |>)).
    eapply wp_notify_old; [done..|]. intros s3 oit3 Hi3 Ho3 Hk3 Ht3 Hid3 _ Hc3 He3 Hm3.
    pose proof (iw_expire _ _ (old_wf e s3 _ o oit3 (inv_core _ _ _ Hi3) Ho3)) as Hx3.
    apply wp_bind, wp_get_cache_id. rewrite Hid3, Hid2, Hid1. set (id := next_id (last_cache_id_ s)).
    set (s4 := s3 <| last_cache_id_ := id |>). pose proof (inv_id s3 _ id Hi3) as Hi4. fold s4 in Hi4.
    assert (old_item s4 (give o 1 held) o oit3) as Ho4 by (by destruct Ho3).
    apply wp_bind. eapply (wp_set_member s4 _ o oit3 (fun it => it <| cache_id := id |>)); [done..|].
    intros s5 Hs5 Hi5 Ho5 Hk5 Hv5. apply wp_bind, wp_now, wp_bind.
    eapply (wp_set_member s5 _ o _ (fun it => it <| last_update_time := _ |>)); [done..|].
    intros s6 Hs6 Hi6 Ho6 Hk6 Hv6. apply wp_bind. eapply (wp_stat_old e s6 s6); [done..|solve_event|].
    intros s7 Hi7 Ho7 Hw7 Hv7 _. eapply base_finish; try done.
    + by rewrite (sw_time _ _ Hw7), Hs6, Hs5; cbn; rewrite Ht3, (sw_time _ _ Hw2), (sw_time _ _ Hw1).
    + apply Ho7.
    + f_equal. apply (f_equal fst) in Hm3 as Hv3. apply (f_equal snd) in Hm3 as Hwm3. cbn [model_of fst snd] in Hv3, Hwm3.
      assert (watch_map_ s6 = watch_map_ s3) as Hwm6 by (by subst s6 s5).
      unfold model_of. rewrite Hv7, (sw_watch _ _ Hw7), Hwm6, Hwm3, Hv6, Hk5, Hv5.
      change (view s4) with (view s3). rewrite Hv3, Hk3, Hk2, Hv2, Hv1, !insert_insert_eq, Hk, (sw_watch _ _ Hw2), (sw_watch _ _ Hw1).
      f_equal. f_equal. unfold entry_of in He3 |- *. cbn in *. injection He3 as Hf1 Hf2 _ Hf4 Hf5 Hf6. unfold data_of, ext_of in *. cbn in *. rewrite Hf1, Hf2, Hf4, Hf5, Hf6.
      f_equal. by rewrite (sw_watch _ _ Hw2), (sw_watch _ _ Hw1).
Qed.
End base_info_ops.

Section update_expiration_op.
Context (e : endian) `{Table_Malloc} (alive : sink -> bool).
Implicit Types (s : Cache_Mgr) (held : holds) (p : ptr) (it : Cache_Item) (k : key).

(** The item moves to the list of another expiration, if it is another one. *)
Lemma wp_relist s held o oit x Q :
  inv e s held -> old_item s held o oit -> 0 <= x <= 33 ->
  (forall s', inv e s' held -> old_item s' held o (oit <| expiration_id := x |>) -> same_world s s' ->
     last_cache_id_ s' = last_cache_id_ s -> view s' = view s -> Q tt s') ->
  wp (if negb (x =? expiration_id oit) then
        Lists.remove (Expire (expiration_id oit)) o;;
        Mgr.update o (fun it => it <| expiration_id := u8 x |>);;
        Lists.push_front (Expire x) o
      else mret tt) s Q.
Proof.
  intros Hi [Ho Hl Hh] Hx HQ. destruct (Z.eqb_spec x (expiration_id oit)) as [->|Hne]; cbn [negb].
  - apply wp_ret. replace (oit <| expiration_id := expiration_id oit |>) with oit in HQ by (by destruct oit). by apply HQ.
  - destruct (linked_list e s held o oit (inv_core e _ _ Hi) Hl Ho) as (i&l&Hil&Hin&->).
    eapply wp_move; [done..|]. intros s1 Hi1 Hm. pose proof (wp_move_model e s held o oit i l x s1 Hi Hi1 Hl Ho Hm) as Hmod.
    apply HQ; try done; [|apply Hm|apply Hm|by injection Hmod].
    split; [rewrite (mv_heap _ _ _ _ _ _ _ Hm); apply lookup_insert_eq|by rewrite (mv_hash _ _ _ _ _ _ _ Hm)|done].
Qed.

Lemma update_expiration_spec s held k expected x :
  inv e s held -> roomy held -> 0 <= x ->
  wp (Mgr.update_expiration e k.1 k.2 expected x) s
    (base_updated e s held k (mismatched k expected (view s))
       (spec_update_expiration k expected (Current_Time.realtime (time_of s) x) (model_of s))).
Proof.
  intros Hi Hr Hx. pose proof (c_held _ _ _ (inv_core e _ _ Hi)) as H0.
  unfold Mgr.update_expiration, spec_update_expiration, mismatched. cbn [model_of fst snd].
  set (t := Current_Time.realtime (time_of s) x).
  assert (0 <= t < 2 ^ 32) as Ht by (apply realtime_range; [apply Hi|done]).
  apply wp_bind. eapply wp_find; [done|by apply roomy_room| |].
  - intros ->. by apply base_miss; [|solve_event|].
  - intros o oit s1 Hi1 Ho Hk Hv Hv1 Hw1 Hid1. rewrite Hv. pose proof (old_class e s1 _ o oit Hi1 Ho) as Hc.
    apply wp_bind. eapply wp_item; [apply Ho|].
    change (matches expected (entry_of oit)) with ((expected =? 0) || (expected =? cache_id oit)).
    destruct ((expected =? 0) || (expected =? cache_id oit)); [|by eapply base_leak; [..|solve_event|]].
    cbn [negb]. apply wp_bind, wp_realtime, wp_bind, wp_now.
    assert (Current_Time.realtime (Current_Time.get_current_time (curr_time_ s1)) x = t) as -> by (unfold t, time_of; by rewrite (sw_time _ _ Hw1)).
    destruct (get_expiration_id_range (Current_Time.get_current_time (curr_time_ s1)) t) as (j&Hj&Hjr).
    apply wp_bind. eapply wp_the; [exact Hj|]. apply wp_bind. eapply wp_relist; [done..|].
    intros s2 Hi2 Ho2 Hw2 Hid2 Hv2. apply wp_bind.
    eapply (wp_set_member e s2 _ o _ (fun it => it <| expire_time := t |>)); [done..|]. intros s3 Hs3 Hi3 Ho3 Hk3 Hv3.
    apply wp_bind. eapply (wp_stat_old e s3 s3); [done..|solve_event|]. intros s4 Hi4 Ho4 Hw4 Hv4 _.
    assert (same_world s2 s3) as Hw3 by (by subst s3).
    eapply base_finish; try done; [|apply Ho4|].
    + by rewrite (sw_time _ _ Hw4), (sw_time _ _ Hw3), (sw_time _ _ Hw2), (sw_time _ _ Hw1).
    + unfold model_of. rewrite Hv4, Hv3, Hv2, Hv1, (sw_watch _ _ Hw4), (sw_watch _ _ Hw3), (sw_watch _ _ Hw2), (sw_watch _ _ Hw1).
      change (key_of (oit <| expiration_id := j |>)) with (key_of oit). by rewrite Hk.
Qed.
End update_expiration_op.
