(* ===== verification/CacheData.v ===== *)
(** * The operations of the cache that build a new item

    [append], [prepend] and [delta]: their reference operations, the copies they
    make in the memory of an item, and the refinement. *)

From S2P Require Import Prelude XixiList XixiHashMap Lookup3 Util CurrTime Pdu Stats Watch Slab Cache CacheInv CacheSpec CacheOps.
Import Cache_Watch.

(** ** The memory of an item *)
Lemma mem_write_lookup off src b b' i : mem_write off src b = Some b' ->
  b' !! i = if decide (Z.to_nat off <= i < Z.to_nat off + length src)%nat then src !! (i - Z.to_nat off)%nat else b !! i.
Proof.
  unfold mem_write. destruct (Z.leb_spec 0 off), (Z.leb_spec (off + Z.of_nat (length src)) (Z.of_nat (length b))); try done.
  cbn [andb]. intros [= <-]. assert (length (take (Z.to_nat off) b) = Z.to_nat off) as Hl by (rewrite length_take; lia).
  case_decide as Hd.
  - rewrite lookup_app_r, Hl by lia. rewrite lookup_app_l by lia. done.
  - destruct (decide (i < Z.to_nat off)%nat).
    + rewrite lookup_app_l by lia. by rewrite lookup_take_lt by lia.
    + rewrite lookup_app_r, Hl by lia. rewrite lookup_app_r by lia. rewrite lookup_drop. f_equal. lia.
Qed.

Lemma mem_write_some off src b : 0 <= off -> off + Z.of_nat (length src) <= Z.of_nat (length b) -> exists b', mem_write off src b = Some b'.
Proof.
  intros. unfold mem_write. destruct (Z.leb_spec 0 off), (Z.leb_spec (off + Z.of_nat (length src)) (Z.of_nat (length b))); try lia. by eexists.
Qed.

Definition region (off n : Z) (b : bytes) : bytes := take (Z.to_nat n) (drop (Z.to_nat off) b).

Lemma region_lookup off n b i : region off n b !! i = if decide (i < Z.to_nat n)%nat then b !! (Z.to_nat off + i)%nat else None.
Proof.
  unfold region. case_decide; [rewrite lookup_take_lt, lookup_drop by lia|rewrite lookup_take_ge by lia]; done.
Qed.
Lemma region_written off src b b' : mem_write off src b = Some b' -> region off (Z.of_nat (length src)) b' = src.
Proof.
  intros Hw. apply list_eq. intros i. rewrite region_lookup, (mem_write_lookup _ _ _ _ _ Hw). repeat case_decide; try lia.
  - f_equal. lia.
  - symmetry. apply lookup_ge_None. lia.
Qed.
Lemma region_kept off src b b' o n : mem_write off src b = Some b' -> 0 <= o -> 0 <= n -> 0 <= off ->
  o + n <= off \/ off + Z.of_nat (length src) <= o -> region o n b' = region o n b.
Proof.
  intros Hw Ho Hn Hoff Hd. apply list_eq. intros i. rewrite !region_lookup, (mem_write_lookup _ _ _ _ _ Hw). repeat case_decide; (done || lia).
Qed.
Lemma mem_read_region off n b : 0 <= off -> 0 <= n -> off + n <= Z.of_nat (length b) -> mem_read off n b = Some (region off n b).
Proof.
  intros. unfold mem_read. destruct (Z.leb_spec 0 off), (Z.leb_spec 0 n), (Z.leb_spec (off + n) (Z.of_nat (length b))); (lia || done).
Qed.
Lemma region_all n b : n = Z.of_nat (length b) -> region 0 n b = b.
Proof. intros ->. unfold region. rewrite drop_0, Nat2Z.id. apply take_ge. lia. Qed.
Lemma key_region it : (key_of it).2 = region 0 (key_length it) (body it).
Proof. done. Qed.
Lemma data_region it : data_of it = region (key_length it) (data_size it) (body it).
Proof. done. Qed.
Lemma ext_region it : ext_of it = region (key_length it + data_size it) (ext_size it) (body it).
Proof. done. Qed.
Lemma region_length off n b : 0 <= off -> 0 <= n -> off + n <= Z.of_nat (length b) -> Z.of_nat (length (region off n b)) = n.
Proof. intros. unfold region. rewrite length_take, length_drop. lia. Qed.

Lemma item_bounds sl it : item_wf sl it ->
  0 <= key_length it /\ 0 <= data_size it /\ 0 <= ext_size it /\
  key_length it + data_size it + ext_size it <= Z.of_nat (length (body it)).
Proof. intros []. unfold sizeof_Cache_Item, offsetof_body in *. lia. Qed.
Lemma get_data_wf sl it : item_wf sl it -> Item.get_data it = Some (data_of it) /\ Z.of_nat (length (data_of it)) = data_size it.
Proof.
  intros Hw. destruct (item_bounds sl it Hw) as (?&?&?&?). unfold Item.get_data, Item.data_at. rewrite data_region.
  rewrite mem_read_region, region_length by lia. done.
Qed.
Lemma get_ext_wf sl it : item_wf sl it -> Item.get_ext it = Some (ext_of it) /\ Z.of_nat (length (ext_of it)) = ext_size it.
Proof.
  intros Hw. destruct (item_bounds sl it Hw) as (?&?&?&?). unfold Item.get_ext, Item.ext_at. rewrite ext_region.
  rewrite mem_read_region, region_length by lia. done.
Qed.

(** The item as [fill_item] leaves it. *)
Record filled (key : bytes) (hash_value : Z) (data ext : bytes) (it it' : Cache_Item) : Prop := {
  fl_key : key_of it' = (group_id it, key);
  fl_data : data_of it' = data;
  fl_ext : ext_of it' = ext;
  fl_hash : hash_value_ it' = hash_value;
  fl_rest : exists b, length b = length (body it) /\ it' = it <| hash_value_ := hash_value |> <| body := b |>
}.

Lemma touch_touch p it it' s : touch p it' (touch p it s) = touch p it' s.
Proof.
  change (touch p it' (touch p it s)) with (s <| heap := <[p := it']> (<[p := it]> (heap s)) |>).
  change (touch p it' s) with (s <| heap := <[p := it']> (heap s) |>). by rewrite insert_insert_eq.
Qed.

Section filling.
Context (e : endian) `{Table_Malloc}.
Implicit Types (s : Cache_Mgr) (held : holds) (p : ptr) (it : Cache_Item) (k : key).

(** Writing the memory of an item that is in no list. *)
Lemma inv_write s held p it it' :
  inv e s held -> heap s !! p = Some it -> p ∉ placed s -> length (body it') = length (body it) ->
  (exists b h, it' = it <| hash_value_ := h |> <| body := b |>) -> inv e (touch p it' s) held.
Proof.
  intros Hi Hp Hpl Hb (b&h&->). pose proof (inv_core e _ _ Hi) as Hc.
  destruct (c_item _ _ _ Hc p it Hp (placed_free _ _ Hpl)) as [Hwf _].
  eapply inv_set; [done..|by apply placed_free| | |done].
  - split; [done..|]. intros Hl. exfalso. apply Hpl. unfold placed. rewrite elem_of_app, (c_expire _ _ _ Hc). by left.
  - destruct Hwf. cbn in Hb. split; cbn; try done. by rewrite Hb.
Qed.

Lemma wp_fill_item s held p it key h data ext Q :
  inv e s held -> heap s !! p = Some it -> p ∉ placed s ->
  key_length it = Z.of_nat (length key) -> data_size it = Z.of_nat (length data) -> ext_size it = Z.of_nat (length ext) ->
  (forall it', filled key h data ext it it' -> inv e (touch p it' s) held -> Q tt (touch p it' s)) ->
  wp (Mgr.fill_item p key h data ext) s Q.
Proof.
  intros Hi Hp Hpl Hk Hd Hx HQ.
  destruct (c_item _ _ _ (inv_core e _ _ Hi) p it Hp (placed_free _ _ Hpl)) as [Hwf _].
  destruct (item_bounds _ it Hwf) as (?&?&?&Hb).
  destruct (mem_write_some 0 key (body it)) as [b1 Hb1]; [lia..|]. pose proof (mem_write_length _ _ _ _ Hb1) as Hl1.
  destruct (mem_write_some (key_length it) data b1) as [b2 Hb2]; [lia..|]. pose proof (mem_write_length _ _ _ _ Hb2) as Hl2.
  destruct (mem_write_some (key_length it + data_size it) ext b2) as [b3 Hb3]; [lia..|]. pose proof (mem_write_length _ _ _ _ Hb3) as Hl3.
  unfold Mgr.fill_item. apply wp_bind. eapply (wp_update_opt _ _ _ it (it <| body := b1 |> <| hash_value_ := h |>)); [done| |].
  { unfold Item_Key.set_key_with_hash, Item.write. rewrite mem_read_region, region_all, Hb1 by lia. done. }
  apply wp_bind. eapply (wp_update_opt _ _ _ _ (it <| body := b2 |> <| hash_value_ := h |>)); [apply lookup_insert_eq| |].
  { unfold Item.write. cbn. unfold Item.data_at. cbn. by rewrite Hb2. }
  eapply (wp_update_opt _ _ _ _ (it <| hash_value_ := h |> <| body := b3 |>)); [apply lookup_insert_eq| |].
  { unfold Item_Key.set_ext, Item.write. cbn. rewrite mem_read_region, region_all by (cbn; lia). unfold Item.ext_at. cbn. by rewrite Hb3. }
  rewrite !touch_touch.
  apply HQ; [|eapply inv_write; [done..|cbn; lia|eauto]].
  assert (region 0 (key_length it) b3 = key) as Hkey.
  { rewrite (region_kept _ _ _ _ 0 (key_length it) Hb3), (region_kept _ _ _ _ 0 (key_length it) Hb2) by lia.
    rewrite Hk. by eapply region_written. }
  assert (region (key_length it) (data_size it) b3 = data) as Hdata.
  { rewrite (region_kept _ _ _ _ (key_length it) (data_size it) Hb3) by lia. rewrite Hd. by eapply region_written. }
  assert (region (key_length it + data_size it) (ext_size it) b3 = ext) as Hext.
  { rewrite Hx. by eapply region_written. }
  split; try done; [exact (f_equal (pair (group_id it)) Hkey)|]. exists b3. split; [by rewrite Hl3, Hl2|done].
Qed.
End filling.

(** ** [append] and [prepend] *)
Section extend_reference.
Context (alive : sink -> bool).

(** [append] and, with [front], [prepend] of [data] to an entry; [oom] tells
    that no memory is found for it.  The new entry has no watch: neither those of
    the old one, which are told, nor the one the request asks for. *)
Definition spec_extend (front : bool) (k : key) (data : bytes) (expected w id : Z) (oom : bool) (m : model)
    : xixi_reason * option Z * model :=
  match m.1 !! k with
  | None => (XIXI_REASON_NOT_FOUND, None, m)
  | Some old =>
      if negb (matches expected old) then (XIXI_REASON_MISMATCH, None, m)
      else if oom then (XIXI_REASON_OUT_OF_MEMORY, None, m)
      else if watch_ok w m.2 then
        let data := if front then data ++ e_data old else e_data old ++ data in
        let en := mk_entry (e_flags old) (e_expire_time old) id data (e_ext old) [] in
        (XIXI_REASON_SUCCESS, Some id, (<[k := en]> m.1, notified_of alive WATCH_NOTIFY_TYPE_DATA_UPDATED old m.2))
      else (XIXI_REASON_WATCH_NOT_FOUND, None, m)
  end.
End extend_reference.

Section extend_op.
Context (e : endian) `{Table_Malloc} `{Item_Malloc} `{!Item_Malloc_Ok} (alive : sink -> bool).
Implicit Types (s : Cache_Mgr) (held : holds) (p : ptr) (it : Cache_Item) (k : key).

Lemma around_old p s s' held o oit : around p s s' -> cache_hash_map_ s' = cache_hash_map_ s -> o <> p ->
  old_item s held o oit -> old_item s' (give p 1 held) o oit.
Proof.
  intros Ha Hm Hne []. split; [by rewrite (a_heap _ _ _ Ha)|by rewrite Hm|by rewrite give_ne].
Qed.

(** Allocating the item that replaces [oit], with its base information; what
    filling it gives. *)
Record built (s : Cache_Mgr) held (o : ptr) (oit : Cache_Item) (data : bytes) (p : ptr) (nit : Cache_Item) (s' : Cache_Mgr) : Prop := {
  bt_inv : inv e s' (give p 1 held);
  bt_fresh : held p = 0;
  bt_own : own_item e s' (give p 1 held) p nit;
  bt_old : old_item s' (give p 1 held) o oit;
  bt_around : around p s s';
  bt_world : same_world s s';
  bt_view : view s' = view s;
  bt_id : last_cache_id_ s' = last_cache_id_ s;
  bt_key : key_of nit = key_of oit;
  bt_entry : entry_of nit = mk_entry (flags oit) (expire_time oit) 0 data (ext_of oit) []
}.

Lemma wp_alloc_new s held o oit kb data klen dlen Q :
  inv e s held -> old_item s held o oit -> kb = (key_of oit).2 -> Z.of_nat (length data) <= 2 ^ 31 ->
  klen = Z.of_nat (length kb) -> dlen = Z.of_nat (length data) ->
  (forall s', inv e s' held -> calm s s' -> Q None s') ->
  (forall p s', held p = 0 -> around p s s' ->
     (forall Q', (forall nit s2, built s held o oit data p nit s2 -> Q' tt s2) ->
        wp (Mgr.fill_item p kb (hash_key e (group_id oit) kb) data (ext_of oit)) s' Q') -> Q (Some p) s') ->
  wp (Mgr.do_alloc (group_id oit) klen (flags oit) (expire_time oit) dlen (ext_size oit)) s Q.
Proof.
  intros Hi Ho Hkb Hd -> -> HQn HQs. pose proof (inv_core e _ _ Hi) as Hc.
  pose proof (old_wf e s held o oit Hc Ho) as Hwf. destruct (get_ext_wf _ _ Hwf) as [_ Hxl].
  destruct (get_key_wf _ _ Hwf) as [_ Hkl]. rewrite <- Hkb in Hkl.
  pose proof (iw_key _ _ Hwf). pose proof (iw_ext _ _ Hwf). pose proof (iw_expire _ _ Hwf).
  eapply (wp_do_alloc e); [done|lia|lia|done|done|unfold sizeof_Cache_Item; lia|done|].
  intros p it s1 Hi1 Hh0 Hnp1 Ha1 Hp1 [Hf1 Hf2 Hf3 Hf4 Hf5 Hf6 Hf7 Hf8] Hm1 Hid1 Hw1 _.
  assert (o <> p) as Hne by (intros ->; pose proof (od_held _ _ _ _ Ho); lia).
  apply HQs; [done..|]. intros Q' HQ'. eapply wp_fill_item; [done..|lia|lia|lia|]. intros it' Hfl Hi2.
  destruct Hfl as [Hk' Hd' Hx' Hh' (b&Hb&Hit')].
  assert (around p s (touch p it' s1)) as Ha2 by (eapply around_trans; [done|apply around_touch]).
  assert (key_of it' = key_of oit) as Hk2 by (rewrite Hk', Hf1, Hkb; done).
  assert (p ∉ linked s) as Hnl.
  { rewrite <- Hm1, <- (c_expire _ _ _ (inv_core e _ _ Hi1)). intros Hin. apply Hnp1. unfold placed. rewrite elem_of_app. by left. }
  apply (HQ' it'). split; try done.
  - split; [apply lookup_insert_eq|done|rewrite give_eq; lia|]. unfold hashed. by rewrite Hh', Hk2, Hkb.
  - by eapply around_old.
  - split; [apply Ha2|done].
  - eapply (view_around s _ p); done.
  - unfold entry_of. rewrite Hd', Hx'. subst it'. cbn. by rewrite Hf3, Hf4, Hf7, Hf8.
Qed.

(** The new item takes the place of the old one. *)
Lemma wp_swap s held o oit p nit Q :
  inv e s (give p 1 held) -> room (give p 1 held) -> own_item e s (give p 1 held) p nit ->
  old_item s (give p 1 held) o oit -> key_of nit = key_of oit ->
  (forall s' nit' oit', inv e s' (give p 1 held) -> curr_time_ s' = curr_time_ s -> p ∈ linked s' ->
     heap s' !! p = Some nit' -> cache_id nit' = next_id (last_cache_id_ s) -> heap s' !! o = Some oit' ->
     (forall q, q <> p -> q <> o -> heap s' !! q = heap s !! q /\ (q ∈ placed s' <-> q ∈ placed s)) ->
     model_of s' = (<[key_of oit := (entry_of nit) <| e_cache_id := next_id (last_cache_id_ s) |>]> (view s),
        notified_of alive WATCH_NOTIFY_TYPE_DATA_UPDATED (entry_of oit) (watch_map_ s)) -> Q tt s') ->
  wp (Mgr.do_replace alive o p) s Q.
Proof.
  intros Hi Hr [Hp Hnp Hph Hha] [Ho Hol Hoh] Hk HQ.
  eapply (wp_do_replace e alive s (give p 1 held) o oit p nit); try done; [lia|].
  intros s1 Hi1 Ht1 Hl1 Hno1 Hw1 Hp1 [oit1 Ho1] Hoth1 Hv1 Hid1. eapply HQ; try done.
  unfold model_of. rewrite Hw1, Hv1, Hk. done.
Qed.

(** Facts that only depend on one item and the lists. *)
Lemma own_frame s s' held p it : own_item e s held p it -> heap s' !! p = heap s !! p -> (p ∈ placed s' <-> p ∈ placed s) ->
  own_item e s' held p it.
Proof. intros [] Hh Hp. split; try done; [by rewrite Hh|by rewrite Hp]. Qed.
Lemma old_frame s s' held o oit : old_item s held o oit -> heap s' !! o = heap s !! o ->
  cache_hash_map_ s' = cache_hash_map_ s -> old_item s' held o oit.
Proof. intros [] Hh Hm. split; try done; [by rewrite Hh|by rewrite Hm]. Qed.

(** The watch an operation sets, on the item of the caller. *)
Lemma wp_watch_own s held p it w Q :
  inv e s held -> own_item e s held p it ->
  (forall s', inv e s' held -> model_of s' = model_of s -> curr_time_ s' = curr_time_ s ->
     last_cache_id_ s' = last_cache_id_ s -> (forall q, q <> p -> heap s' !! q = heap s !! q) ->
     placed s' = placed s -> cache_hash_map_ s' = cache_hash_map_ s -> Q tt s') ->
  wp (if negb (w =? 0) then Mgr.add_watch p w else mret tt) s Q.
Proof.
  intros Hi Ho HQ. destruct (w =? 0); cbn [negb]; [apply wp_ret; by apply HQ|].
  eapply wp_add_watch_own; [done..|]. intros s1 Hi1 -> _ Hv1. apply HQ; try done.
  - unfold model_of. by rewrite Hv1.
  - intros q Hq. cbn. by rewrite lookup_insert_ne.
Qed.

(** The reference of the operation to its new item goes: that of the cache stays,
    or the item is freed. *)
Lemma wp_release_new s held p nit Q :
  inv e s (give p 1 held) -> room held -> (forall q, 0 <= held q) -> heap s !! p = Some nit ->
  (forall s', inv e s' held -> model_of s' = model_of s -> curr_time_ s' = curr_time_ s ->
     (forall q, q <> p -> heap s' !! q = heap s !! q) -> Q tt s') ->
  wp (Mgr.do_release_reference p) s Q.
Proof.
  intros Hi Hr Hge Hp HQ. eapply (wp_release_old e s held); [done..|].
  intros s' Hi' Hw Hv Hh _ _ _ _. apply HQ; try done; [by apply model_world|apply Hw].
Qed.

(** What [append] and [prepend] do once the update is decided. *)
Definition finish_extend (reason : xixi_reason) (front : bool) (p o n : ptr) (w : Z) : M (xixi_reason * option Z) :=
  let watch := if negb (w =? 0) then Mgr.add_watch p w else mret tt in
  (if front then watch;; Mgr.do_replace alive o n else Mgr.do_replace alive o n;; watch);;
  id ← Mgr.item_cache_id n; mret (reason, Some id).

Lemma wp_finish_extend front s held o oit p it n nit w Q :
  let id := next_id (last_cache_id_ s) in
  inv e s (give n 1 held) -> room (give n 1 held) -> own_item e s (give n 1 held) n nit -> n <> p -> p <> o -> n <> o ->
  own_item e s (give n 1 held) p it -> old_item s (give n 1 held) o oit -> key_of nit = key_of oit ->
  (forall s' oit' nit', inv e s' (give n 1 held) -> curr_time_ s' = curr_time_ s -> heap s' !! o = Some oit' ->
     heap s' !! n = Some nit' ->
     model_of s' = (<[key_of oit := (entry_of nit) <| e_cache_id := id |>]> (view s),
          notified_of alive WATCH_NOTIFY_TYPE_DATA_UPDATED (entry_of oit) (watch_map_ s)) ->
     Q (XIXI_REASON_SUCCESS, Some id) s') ->
  wp (finish_extend XIXI_REASON_SUCCESS front p o n w) s Q.
Proof.
  intros id Hi Hr Hn Hnp Hpo Hno Hp Ho Hk HQ. unfold finish_extend. cbn zeta. apply wp_bind. destruct front.
  - apply wp_bind. eapply wp_watch_own; [done..|]. intros s1 Hi1 Hm1 Ht1 Hid1 Hh1 Hpl1 Hmap1.
    injection Hm1 as Hv1 Hw1.
    eapply (wp_swap s1); [done..| | |done|].
    + eapply own_frame; [done|by rewrite Hh1|by rewrite Hpl1].
    + eapply old_frame; [done|by rewrite Hh1|done].
    + intros s2 nit2 oit2 Hi2 Ht2 _ Hn2 Hid2 Ho2 _ Hm2. apply wp_bind. eapply wp_item_cache_id; [done|]. apply wp_ret.
      rewrite Hid2, Hid1. eapply HQ; try done; [by rewrite Ht2|]. by rewrite Hm2, Hid1, Hv1, Hw1.
  - apply wp_bind. eapply wp_swap; [done..|]. intros s2 nit2 oit2 Hi2 Ht2 _ Hn2 Hid2 Ho2 Hoth2 Hm2.
    destruct (Hoth2 p) as [Hh2 Hpl2]; [done..|]. eapply (wp_watch_own s2); [done|by eapply own_frame|].
    intros s3 Hi3 Hm3 Ht3 Hid3 Hh3 _ _. apply wp_bind. eapply wp_item_cache_id; [by rewrite Hh3|]. apply wp_ret.
    rewrite Hid2. eapply HQ; [done|by rewrite Ht3|by rewrite Hh3|by rewrite Hh3|by rewrite Hm3].
Qed.

Lemma item_small s held it : core e s held -> item_wf (slab_ s) it -> data_size it <= 2 ^ 30.
Proof.
  intros Hc Hw. destruct (c_sizes _ _ _ Hc) as [_ Hs]. pose proof (iw_class _ _ Hw). pose proof (wf_max _ (c_slab _ _ _ Hc)).
  pose proof (SlabFacts.size_of_mono (slab_ s) (class_id it) (class_id_max_ (slab_ s)) (c_slab _ _ _ Hc) ltac:(lia) ltac:(lia)).
  destruct Hw. unfold sizeof_Cache_Item in *. lia.
Qed.

(** What [append] and [prepend] do once the new item is filled: both references
    of the call go in the end. *)
Lemma extend_filled front s s3 held o oit p it n nit w g hg c hc z ok okw miss :
  let k := key_of oit in
  let id := next_id (last_cache_id_ s) in
  inv e s3 (give n 1 (give o 1 held)) -> roomy held -> (forall q, 0 <= held q) ->
  own_item e s3 (give n 1 (give o 1 held)) n nit -> n <> p -> p <> o -> n <> o ->
  own_item e s3 (give n 1 (give o 1 held)) p it -> old_item s3 (give n 1 (give o 1 held)) o oit -> key_of nit = k ->
  model_of s3 = model_of s -> curr_time_ s3 = curr_time_ s -> last_cache_id_ s3 = last_cache_id_ s ->
  event_ok (ok hc z) -> event_ok (okw c z) -> event_ok (miss c) ->
  wp (reason ← Mgr.check_update_watch (mret tt) w g hg c hc z ok okw miss;
      r ← (if decide (reason = XIXI_REASON_SUCCESS) then finish_extend reason front p o n w else mret (reason, None));
      Mgr.do_release_reference n;; mret r) s3
    (fun r s6 => wp (Mgr.do_release_reference o ;; mret r) s6 (base_updated e s held k false
      (if watch_ok w (watch_map_ s)
       then (XIXI_REASON_SUCCESS, Some id, (<[k := (entry_of nit) <| e_cache_id := id |>]> (view s),
               notified_of alive WATCH_NOTIFY_TYPE_DATA_UPDATED (entry_of oit) (watch_map_ s)))
       else (XIXI_REASON_WATCH_NOT_FOUND, None, model_of s)))).
Proof.
  intros k id Hi3 Hr Hge Hn3 Hnp Hpo Hno Hp3 Ho3 Hk Hm3 Ht3 Hid3 Hev1 Hev2 Hev3.
  assert (room (give n 1 (give o 1 held))) as Hr3 by (by apply room_give2).
  assert (forall q, 0 <= give o 1 held q) as Hge1 by (intros q; unfold give; case_decide; pose proof (Hge q); lia).
  assert (forall s5 oit5 nit5 (r : xixi_reason * option Z) spec, inv e s5 (give n 1 (give o 1 held)) ->
      curr_time_ s5 = curr_time_ s -> heap s5 !! o = Some oit5 -> heap s5 !! n = Some nit5 -> (r, model_of s5) = spec ->
      wp (Mgr.do_release_reference n ;; mret r) s5 (fun r s6 => wp (Mgr.do_release_reference o ;; mret r) s6
         (base_updated e s held k false spec))) as Hend.
  { intros s5 oit5 nit5 r spec Hi5 Ht5 Ho5 Hn5 <-. apply wp_bind.
    eapply (wp_release_new s5 (give o 1 held)); [done|by apply room_give|done|done|].
    intros s6 Hi6 Hm6 Ht6 Hh6. apply wp_ret. rewrite <- Hm6.
    eapply (base_finish e s held k s6 o oit5); try done; [by rewrite Ht6|by rewrite Hh6]. }
  injection Hm3 as Hv3 Hw3.
  assert (forall s4, calm s3 s4 -> inv e s4 (give n 1 (give o 1 held)) ->
     wp (r ← finish_extend XIXI_REASON_SUCCESS front p o n w; Mgr.do_release_reference n;; mret r) s4
       (fun r s6 => wp (Mgr.do_release_reference o ;; mret r) s6 (base_updated e s held k false
         (XIXI_REASON_SUCCESS, Some id, (<[k := (entry_of nit) <| e_cache_id := id |>]> (view s),
               notified_of alive WATCH_NOTIFY_TYPE_DATA_UPDATED (entry_of oit) (watch_map_ s)))))) as Hok.
  { intros s4 Hk4 Hi4. apply wp_bind.
    pose proof (own_calm e _ _ _ _ _ Hk4 Hn3) as Hn4. pose proof (own_calm e _ _ _ _ _ Hk4 Hp3) as Hp4.
    pose proof (old_calm _ _ _ _ _ Hk4 Ho3) as Ho4.
    eapply (wp_finish_extend front s4 (give o 1 held)); [done..|].
    - intros s5 oit5 nit5 Hi5 Ht5 Ho5 Hn5 Hm5.
      assert (last_cache_id_ s4 = last_cache_id_ s) as Hid4 by (by rewrite (k_id _ _ Hk4)). rewrite Hid4 in *.
      eapply (Hend s5 oit5 nit5); [done|by rewrite Ht5, (k_time _ _ Hk4)|done|done|].
      rewrite Hm5, (view_core _ _ (k_core _ _ Hk4)), (k_watch _ _ Hk4), Hv3, Hw3. done. }
  assert (forall w', valid_watch s3 w' = valid_watch s w') as Hval by (intros; unfold valid_watch; by rewrite Hw3).
  apply wp_bind. eapply wp_check_update_watch; [done..| | |].
  - intros Hw Hwv. apply wp_ret. split; [done|]. intros s4 Hk4 Hi4. rewrite decide_True by done.
    assert (watch_ok w (watch_map_ s) = true) as -> by (rewrite watch_ok_valid, <- Hval, Hwv; apply orb_true_r). by apply Hok.
  - intros -> s4 Hk4 Hi4. rewrite decide_True by done. by apply Hok.
  - intros Hw Hwv s4 Hk4 Hi4. rewrite decide_False by done. apply wp_bind, wp_ret.
    assert (watch_ok w (watch_map_ s) = false) as ->.
    { rewrite watch_ok_valid, <- Hval, Hwv. by destruct (Z.eqb_spec w 0). }
    pose proof (old_calm _ _ _ _ _ Hk4 Ho3) as [Ho4 _ _]. pose proof (own_calm e _ _ _ _ _ Hk4 Hn3) as [Hn4 _ _ _].
    eapply (Hend s4 oit nit); [done|by rewrite (k_time _ _ Hk4)|done|done|].
    unfold model_of. by rewrite (view_core _ _ (k_core _ _ Hk4)), (k_watch _ _ Hk4), Hv3, Hw3.
Qed.

Lemma extend_spec front s held p it w :
  inv e s held -> roomy held -> own_item e s held p it ->
  wp (Mgr.extend alive front p w) s (fun r s' => exists oom,
    base_updated e s held (key_of it) (mismatched (key_of it) (cache_id it) (view s))
      (spec_extend alive front (key_of it) (data_of it) (cache_id it) w (next_id (last_cache_id_ s)) oom (model_of s)) r s').
Proof.
  intros Hi Hr Ho. pose proof (inv_core e _ _ Hi) as Hc. pose proof (c_held _ _ _ Hc) as Hge.
  destruct (own_wf e s held p it Hc Ho) as [Hwf _]. pose proof (item_small s held it Hc Hwf) as Hsm.
  destruct (get_key_wf _ _ Hwf) as [Hgk _]. destruct (get_data_wf _ _ Hwf) as [Hgd Hdl].
  unfold Mgr.extend, spec_extend, mismatched. cbn [model_of fst snd]. apply wp_bind.
  eapply wp_get_by_item; [done|by apply roomy_room|done| |].
  - intros Hv. rewrite Hv. apply wp_bind. eapply wp_item; [apply Ho|]. eapply wp_mono.
    { apply (base_miss e s held (key_of it)); [done|destruct front; solve_event|done]. }
    intros r s' Hb. by exists false.
  - intros o oit s1 Hi1 Hod Hown Hne Hk Hv Hv1 Hw1 Hid1 Hsl1. rewrite Hv. pose proof (inv_core e _ _ Hi1) as Hc1.
    assert (item_wf (slab_ s1) it) as Hwf1 by (by rewrite Hsl1).
    pose proof (old_wf e s1 _ o oit Hc1 Hod) as Hwfo. pose proof (item_small s1 _ oit Hc1 Hwfo) as Hsmo.
    pose proof (class_range _ _ (c_slab _ _ _ Hc1) Hwf1) as Hcl. pose proof (class_range _ _ (c_slab _ _ _ Hc1) Hwfo) as Hclo.
    destruct (get_data_wf _ _ Hwfo) as [Hgdo Hdlo]. destruct (get_ext_wf _ _ Hwfo) as [Hgxo _].
    apply wp_bind. eapply wp_item; [apply Hown|]. apply wp_bind. eapply wp_item; [apply Hod|].
    replace (negb (cache_id it =? 0) && negb (cache_id it =? cache_id oit)) with (negb (matches (cache_id it) (entry_of oit)))
      by (unfold matches; cbn; by rewrite negb_orb).
    destruct (matches (cache_id it) (entry_of oit)); cbn [negb].
    2:{ eapply wp_mono; [eapply (base_leak e s held); [done..|destruct front; solve_event|done]|].
      intros r s' Hb. by exists false. }
    set (data := if front then data_of it ++ data_of oit else data_of oit ++ data_of it).
    assert (u32 (data_size it + data_size oit) = Z.of_nat (length data)) as Hdlen.
    { pose proof (iw_data _ _ Hwf). pose proof (iw_data _ _ Hwfo).
      rewrite wrap_small by lia. unfold data. destruct front; rewrite length_app; lia. }
    replace (group_id it) with (group_id oit) by (by injection Hk). apply wp_bind.
    eapply (wp_alloc_new s1 (give o 1 held) o oit (key_of it).2 data); [done|done|by rewrite Hk| |
      by rewrite (proj2 (get_key_wf _ _ Hwf))|done| |].
    { rewrite <- Hdlen. pose proof (iw_data _ _ Hwf). pose proof (iw_data _ _ Hwfo). rewrite wrap_small by lia. lia. }
    + intros s2 Hi2 Hk2. apply wp_bind, wp_bind. eapply wp_stat; [done|destruct front; solve_event|]. intros s3 Hk3 Hi3.
      apply wp_ret. pose proof (old_calm _ _ _ _ _ Hk3 (old_calm _ _ _ _ _ Hk2 Hod)) as Ho3.
      eapply wp_mono; [|intros r s' Hb; exists true; exact Hb].
      apply (base_finish e s held (key_of it) s3 o oit); try done; [|apply Ho3|].
      * by rewrite (k_time _ _ Hk3), (k_time _ _ Hk2), (sw_time _ _ Hw1).
      * by rewrite (model_world s2 s3), (model_world s1 s2), (model_world s s1) by
          (done || by apply calm_world || apply view_core, Hk2 || apply view_core, Hk3).
    + intros n s2 Hn0 Ha2 Hfill. assert (n <> o) as Hno by (intros ->; pose proof (od_held _ _ _ _ Hod); lia).
      assert (n <> p) as Hnp.
      { intros ->. rewrite give_ne in Hn0 by done. pose proof (oi_held _ _ _ _ _ Ho). lia. }
      assert (p <> o) as Hpo by done.
      apply wp_bind, wp_bind. eapply wp_the; [exact Hgk|]. apply wp_bind. eapply wp_the; [exact Hgd|].
      apply wp_bind. eapply wp_the; [exact Hgdo|]. apply wp_bind. eapply wp_the; [exact Hgxo|].
      apply wp_bind. replace (hash_value_ it) with (hash_key e (group_id oit) (key_of it).2)
        by (rewrite (oi_hash _ _ _ _ _ Ho), <- Hk; done).
      apply Hfill. intros nit s3 [Hi3 _ Hn3 Ho3 Ha3 Hw3 Hv3 Hid3 Hkn Hen].
      assert (own_item e s3 (give n 1 (give o 1 held)) p it) as Hp3.
      { destruct Hown as [Hp1 Hp2 Hp3 Hp4]. split; [by rewrite (a_heap _ _ _ Ha3)|by rewrite (a_placed _ _ _ Ha3)| |done].
        by rewrite !give_ne. }
      assert (model_of s3 = model_of s) as Hm3.
      { unfold model_of. by rewrite Hv3, Hv1, (sw_watch _ _ Hw3), (sw_watch _ _ Hw1). }
      eapply wp_mono; [eapply (extend_filled front s s3 held o oit p it n nit w)|]; try done.
      all: try (destruct front; solve_event).
      * by rewrite (sw_time _ _ Hw3), (sw_time _ _ Hw1).
      * intros r s6 H6. cbn beta in H6. eapply wp_mono; [exact H6|]. intros r' s7 Hb. exists false.
        rewrite Hk, Hen in Hb. cbn -[view model_of] in Hb. exact Hb.
Qed.
End extend_op.

(** ** [delta] *)
Section delta_reference.
Context (alive : sink -> bool).

(** The new number of an entry: none where the parser reads past the data or the
    sum overflows. *)
Definition delta_of (incr : bool) (d : Z) (data : bytes) : option Z :=
  match Parse.safe_toi64 (Some data) (Z.of_nat (length data)) with
  | Some r => Mgr.add_delta incr (default 0 r) d
  | None => None
  end.

(** A number of as many characters is written in place: the watches stay and are
    not told.  Another one replaces the entry, with no watch. *)
Definition spec_delta (k : key) (incr : bool) (d expected id : Z) (oom : bool) (m : model)
    : xixi_reason * Z * Z * model :=
  match m.1 !! k with
  | None => (XIXI_REASON_NOT_FOUND, 0, 0, m)
  | Some en =>
      if matches expected en then
        let value := default 0 (delta_of incr d (e_data en)) in
        let buf := Mgr.print_i64 value in
        if (length buf =? length (e_data en))%nat then
          (XIXI_REASON_SUCCESS, id, value,
           (<[k := mk_entry (e_flags en) (e_expire_time en) id buf (e_ext en) (e_watches en)]> m.1, m.2))
        else if oom then (XIXI_REASON_OUT_OF_MEMORY, expected, value, m)
        else (XIXI_REASON_SUCCESS, id, value,
              (<[k := mk_entry (e_flags en) (e_expire_time en) id buf (e_ext en) []]> m.1,
               notified_of alive WATCH_NOTIFY_TYPE_DATA_UPDATED en m.2))
      else (XIXI_REASON_MISMATCH, 0, 0, m)
  end.
End delta_reference.

(** The parser does not look behind what it has read. *)
Lemma skip_spaces_app data len rest r : Parse.skip_spaces data len = Some r -> Parse.skip_spaces (data ++ rest) len = Some (r.1 ++ rest, r.2).
Proof.
  revert len. induction data as [|c data IH]; intros len; cbn.
  - destruct (Z.gtb_spec len 0) as [Hl|Hl]; [done|]. intros [= <-]. cbn. destruct rest; cbn; by destruct (Z.gtb_spec len 0); try lia.
  - destruct (len >? 0); [|by intros [= <-]]. destruct (Parse.isspace c); [apply IH|by intros [= <-]].
Qed.
Lemma digits_loop_app sg w data len acc rest r :
  Parse.digits_loop sg w data len acc = Some r -> Parse.digits_loop sg w (data ++ rest) len acc = Some r.
Proof.
  revert len acc. induction data as [|c data IH]; intros len acc; cbn.
  - destruct (Z.gtb_spec len 0) as [Hl|Hl]; [done|]. intros [= <-]. destruct rest; cbn; by destruct (Z.gtb_spec len 0); try lia.
  - destruct (len >? 0); [|done]. destruct (Parse.isdigit c); [|done].
    destruct (Parse.accumulate sg w acc (c - 48)) as [[x|]|]; [apply IH|done|done].
Qed.
Lemma safe_to_app sg w data n rest r :
  Parse.safe_to sg w (Some data) n = Some r -> Parse.safe_to sg w (Some (data ++ rest)) n = Some r.
Proof.
  unfold Parse.safe_to. destruct (n =? 0); [done|]. destruct (Parse.skip_spaces data n) as [[d l]|] eqn:E; [|done].
  rewrite (skip_spaces_app _ _ rest _ E). cbn [fst snd]. destruct d as [|c d]; [done|]. cbn [app].
  destruct (c =? 45).
  - destruct sg; [|done]. destruct (Parse.digits_loop true w d (u32 (l - 1)) 0) as [x|] eqn:Ed; [|done].
    by rewrite (digits_loop_app _ _ _ _ _ rest _ Ed).
  - destruct (c =? 43); [apply digits_loop_app|]. apply (digits_loop_app sg w (c :: d)).
Qed.

Lemma print_i64_length v : - 2 ^ 63 <= v < 2 ^ 63 -> Z.of_nat (length (Mgr.print_i64 v)) <= 2 ^ 31.
Proof.
  intros Hv. assert (forall n, 0 <= n <= 2 ^ 63 -> (length (Parse.decimal n) <= 64)%nat) as Hd.
  { intros n Hn. unfold Parse.decimal. etrans; [apply decimal_loop_length|]. cbn [length].
    assert (Z.log2 n <= 63); [|lia]. change 63 with (Z.log2 (2 ^ 63)). apply Z.log2_le_mono. lia. }
  unfold Mgr.print_i64. destruct (Z.ltb_spec v 0); cbn [length].
  - specialize (Hd (- v)). lia.
  - specialize (Hd v). lia.
Qed.

Section delta_op.
Context (e : endian) `{Table_Malloc} `{Item_Malloc} `{!Item_Malloc_Ok} (alive : sink -> bool).
Implicit Types (s : Cache_Mgr) (held : holds) (p : ptr) (it : Cache_Item) (k : key).

(** The data at the start of what the pointer of [get_data] reads. *)
Lemma data_prefix sl it : item_wf sl it -> exists rest, drop (Z.to_nat (Item.data_at it)) (body it) = data_of it ++ rest.
Proof.
  intros Hw. exists (drop (Z.to_nat (data_size it)) (drop (Z.to_nat (key_length it)) (body it))).
  unfold data_of, Item.data_at. by rewrite take_drop.
Qed.

(** The data of a linked item written in place. *)
Lemma wp_write_data s held o oit data Q :
  inv e s held -> old_item s held o oit -> Z.of_nat (length data) = data_size oit ->
  (forall s' oit', inv e s' held -> old_item s' held o oit' -> same_world s s' -> last_cache_id_ s' = last_cache_id_ s ->
     entry_of oit' = (entry_of oit) <| e_data := data |> ->
     view s' = <[key_of oit := entry_of oit']> (view s) -> Q tt s') ->
  wp (Mgr.update_opt o (fun it => Item.write (Item.data_at it) data it)) s Q.
Proof.
  intros Hi Ho Hd HQ. pose proof (inv_core e _ _ Hi) as Hc. pose proof (old_wf e s held o oit Hc Ho) as Hwf.
  destruct (item_bounds _ _ Hwf) as (?&?&?&?). destruct Ho as [Ho Hl Hh].
  destruct (mem_write_some (key_length oit) data (body oit)) as [b Hb]; [lia..|]. pose proof (mem_write_length _ _ _ _ Hb) as Hbl.
  set (oit' := oit <| body := b |>).
  assert (key_of oit' = key_of oit) as Hk.
  { unfold key_of. f_equal. change (region 0 (key_length oit) b = region 0 (key_length oit) (body oit)).
    apply (region_kept _ _ _ _ 0 (key_length oit) Hb); lia. }
  assert (entry_of oit' = (entry_of oit) <| e_data := data |>) as He.
  { assert (data_of oit' = data) as Hd'.
    { change (region (key_length oit) (data_size oit) b = data). rewrite <- Hd. by eapply region_written. }
    assert (ext_of oit' = ext_of oit) as Hx'.
    { change (region (key_length oit + data_size oit) (ext_size oit) b = region (key_length oit + data_size oit) (ext_size oit) (body oit)).
      apply (region_kept _ _ _ _ _ _ Hb); lia. }
    unfold entry_of. by rewrite Hd', Hx'. }
  assert (inv e (touch o oit' s) held) as Hi'.
  { eapply inv_set; [done..|by eapply not_free|by split| |done]. destruct Hwf. split; try done. cbn. by rewrite Hbl. }
  eapply wp_update_opt; [done|unfold Item.write, Item.data_at; by rewrite Hb|]. fold oit'.
  eapply (HQ _ oit'); try done; [split; try done; apply lookup_insert_eq|].
  eapply (view_update e s held held o oit); try done. by apply inv_core.
Qed.

(** Replacing the item by one with other data. *)
Lemma wp_delta_replace s s1 held o oit data (g : Z) ev (value : Z) :
  let k := key_of oit in
  let id := next_id (last_cache_id_ s) in
  inv e s1 (give o 1 held) -> roomy held -> (forall q, 0 <= held q) -> old_item s1 (give o 1 held) o oit ->
  model_of s1 = model_of s -> curr_time_ s1 = curr_time_ s -> last_cache_id_ s1 = last_cache_id_ s ->
  hash_value_ oit = hash_key e k.1 k.2 -> Z.of_nat (length data) <= 2 ^ 31 -> event_ok ev ->
  forall expected,
  wp (new ← Mgr.do_alloc (group_id oit) (key_length oit) (flags oit) (expire_time oit) (Z.of_nat (length data)) (ext_size oit);
      match new with
      | None => mret (XIXI_REASON_OUT_OF_MEMORY, expected, value)
      | Some new_p =>
          key ← the (Item.get_key oit);
          ext ← the (Item.get_ext oit);
          Mgr.fill_item new_p key (hash_value_ oit) data ext;;
          Mgr.do_replace alive o new_p;;
          id ← Mgr.item_cache_id new_p;
          Mgr.do_release_reference new_p;;
          Mgr.stat g ev;;
          mret (XIXI_REASON_SUCCESS, id, value)
      end) s1
    (fun r s2 => inv e s2 (give o 1 held) /\ curr_time_ s2 = curr_time_ s /\ (exists oit', heap s2 !! o = Some oit') /\
       exists oom : bool, (r, model_of s2) = if oom then (XIXI_REASON_OUT_OF_MEMORY, expected, value, model_of s)
         else (XIXI_REASON_SUCCESS, id, value,
              (<[k := mk_entry (flags oit) (expire_time oit) id data (ext_of oit) []]> (view s),
               notified_of alive WATCH_NOTIFY_TYPE_DATA_UPDATED (entry_of oit) (watch_map_ s)))).
Proof.
  intros k id Hi1 Hr Hge Ho Hm1 Ht1 Hid1 Hhash Hlen Hev expected. pose proof (inv_core e _ _ Hi1) as Hc1.
  pose proof (old_wf e s1 _ o oit Hc1 Ho) as Hwf. destruct (get_key_wf _ _ Hwf) as [Hgk Hkl]. destruct (get_ext_wf _ _ Hwf) as [Hgx _].
  injection Hm1 as Hv1 Hw1.
  apply wp_bind. eapply (wp_alloc_new e s1 (give o 1 held) o oit (key_of oit).2 data); [done..| |].
  - intros s2 Hi2 Hk2. apply wp_ret. split_and!; [done|by rewrite (k_time _ _ Hk2)| |].
    + exists oit. apply (old_calm _ _ _ _ _ Hk2 Ho).
    + exists true. unfold model_of. by rewrite (view_core _ _ (k_core _ _ Hk2)), (k_watch _ _ Hk2), Hv1, Hw1.
  - intros n s2 Hn0 Ha2 Hfill. apply wp_bind. eapply wp_the; [exact Hgk|]. apply wp_bind. eapply wp_the; [exact Hgx|].
    apply wp_bind. rewrite Hhash. apply Hfill. intros nit s3 [Hi3 _ Hn3 Ho3 Ha3 Hw3 Hv3 Hid3 Hkn Hen].
    assert (forall q, 0 <= give o 1 held q) as Hge1 by (intros q; unfold give; case_decide; pose proof (Hge q); lia).
    apply wp_bind. eapply (wp_swap e alive s3 (give o 1 held)); [done|by apply room_give2|done..|].
    intros s4 nit4 oit4 Hi4 Ht4 _ Hn4 Hid4 Ho4 _ Hm4. apply wp_bind. eapply wp_item_cache_id; [done|]. apply wp_bind.
    eapply (wp_release_new e s4 (give o 1 held)); [done|by apply room_give|done|done|]. intros s5 Hi5 Hm5 Ht5 Hh5.
    apply wp_bind. eapply wp_stat; [done|done|]. intros s6 Hk6 Hi6. apply wp_ret.
    assert (n <> o) as Hno by (intros ->; pose proof (od_held _ _ _ _ Ho); lia).
    split_and!; [done|by rewrite (k_time _ _ Hk6), Ht5, Ht4, (sw_time _ _ Hw3)| |].
    + exists oit4. rewrite (sc_heap _ _ (k_core _ _ Hk6)). by rewrite Hh5.
    + exists false. rewrite (model_world s5 s6) by (by apply calm_world || apply view_core, Hk6).
      rewrite Hm5, Hm4, Hid4, Hid3, Hid1, Hv3, Hv1, (sw_watch _ _ Hw3), Hw1, Hen. done.
Qed.

(** Writing it in place. *)
Lemma wp_delta_in_place s s1 held o oit data (g : Z) ev :
  let k := key_of oit in
  let id := next_id (last_cache_id_ s) in
  inv e s1 (give o 1 held) -> old_item s1 (give o 1 held) o oit -> model_of s1 = model_of s -> curr_time_ s1 = curr_time_ s ->
  last_cache_id_ s1 = last_cache_id_ s -> Z.of_nat (length data) = data_size oit -> event_ok ev ->
  forall value : Z,
  wp (id ← Mgr.get_cache_id;
      Mgr.update o (fun it => it <| cache_id := id |>);;
      t ← Mgr.now;
      Mgr.update o (fun it => it <| last_update_time := t |>);;
      Mgr.update_opt o (fun it => Item.write (Item.data_at it) data it);;
      Mgr.stat g ev;;
      mret (XIXI_REASON_SUCCESS, id, value)) s1
    (fun r s2 => inv e s2 (give o 1 held) /\ curr_time_ s2 = curr_time_ s /\ (exists oit', heap s2 !! o = Some oit') /\
       (r, model_of s2) = (XIXI_REASON_SUCCESS, id, value,
          (<[k := mk_entry (flags oit) (expire_time oit) id data (ext_of oit) (default [] (watch_item oit))]> (view s),
           watch_map_ s))).
Proof.
  intros k id Hi1 Ho Hm1 Ht1 Hid1 Hd Hev value. injection Hm1 as Hv1 Hw1.
  pose proof (iw_expire _ _ (old_wf e s1 _ o oit (inv_core _ _ _ Hi1) Ho)) as Hx.
  apply wp_bind, wp_get_cache_id. rewrite Hid1. fold id.
  set (s2 := s1 <| last_cache_id_ := id |>). pose proof (inv_id e s1 _ id Hi1) as Hi2. fold s2 in Hi2.
  assert (old_item s2 (give o 1 held) o oit) as Ho2 by (by destruct Ho).
  apply wp_bind. eapply (wp_set_member e s2 _ o oit (fun it => it <| cache_id := id |>)); [done..|].
  intros s3 Hs3 Hi3 Ho3 Hk3 Hv3. apply wp_bind, wp_now, wp_bind.
  eapply (wp_set_member e s3 _ o _ (fun it => it <| last_update_time := _ |>)); [done..|].
  intros s4 Hs4 Hi4 Ho4 Hk4 Hv4. apply wp_bind. eapply wp_write_data; [done..|].
  intros s5 oit5 Hi5 Ho5 Hw5 _ He5 Hv5. apply wp_bind. eapply (wp_stat_old e s5 s5); [done..|].
  intros s6 Hi6 Ho6 Hw6 Hv6 _. apply wp_ret.
  assert (watch_map_ s4 = watch_map_ s /\ curr_time_ s4 = curr_time_ s) as [Hw4 Ht4] by (by subst s4 s3).
  split_and!; [done|by rewrite (sw_time _ _ Hw6), (sw_time _ _ Hw5)|exists oit5; apply Ho6|].
  f_equal. unfold model_of. rewrite Hv6, Hv5, Hk4, Hv4, Hk3, Hv3, !insert_insert_eq, (sw_watch _ _ Hw6), (sw_watch _ _ Hw5), Hw4, He5.
  change (view s2) with (view s1). by rewrite Hv1.
Qed.

Lemma delta_spec s held k incr d expected :
  inv e s held -> roomy held ->
  (forall en, view s !! k = Some en -> matches expected en = true -> is_Some (delta_of incr d (e_data en))) ->
  wp (Mgr.delta e alive k.1 k.2 incr d expected) s (fun r s' => exists oom,
    updated e s held (spec_delta alive k incr d expected (next_id (last_cache_id_ s)) oom (model_of s)) r s').
Proof.
  intros Hi Hr Hok. pose proof (inv_core e _ _ Hi) as Hc. pose proof (c_held _ _ _ Hc) as Hge.
  unfold Mgr.delta, spec_delta. cbn [model_of fst snd]. apply wp_bind. eapply wp_find; [done|by apply roomy_room| |].
  - intros ->. eapply wp_mono; [apply (wp_stat_end e s held); [done|destruct incr; solve_event]|]. intros r s' Hb. by exists false.
  - intros o oit s1 Hi1 Ho Hk Hv Hv1 Hw1 Hid1. rewrite Hv. pose proof (inv_core e _ _ Hi1) as Hc1.
    pose proof (old_wf e s1 _ o oit Hc1 Ho) as Hwf. destruct (get_data_wf _ _ Hwf) as [_ Hdl].
    apply wp_bind. eapply wp_item; [apply Ho|].
    change ((expected =? 0) || (expected =? cache_id oit)) with (matches expected (entry_of oit)).
    destruct (matches expected (entry_of oit)) eqn:Hm.
    2:{ apply wp_bind. eapply (wp_stat_old e s s1); [done..|destruct incr; solve_event|]. intros s2 Hi2 Ho2 Hw2 Hv2 Hid2.
      eapply wp_mono; [|intros r s' Hb; exists false; exact Hb].
      apply (wp_finish e s held s2 o oit); try done; [apply Hw2|apply Ho2|by rewrite (model_world s s2)]. }
    destruct (Hok _ Hv Hm) as [v Hdo]. change (e_data (entry_of oit)) with (data_of oit) in *. rewrite Hdo. change (default 0 (Some v)) with v.
    unfold delta_of in Hdo. destruct (Parse.safe_toi64 (Some (data_of oit)) (Z.of_nat (length (data_of oit)))) as [parsed|] eqn:Hp; [|done].
    destruct (data_prefix _ _ Hwf) as [rest Hrest]. apply wp_bind. eapply wp_the.
    { rewrite Hrest, <- Hdl. apply safe_to_app. exact Hp. }
    apply wp_bind. eapply wp_the; [exact Hdo|]. cbn zeta. set (buf := Mgr.print_i64 v).
    assert (Z.of_nat (length buf) <= 2 ^ 31) as Hbuf.
    { apply print_i64_length. unfold Mgr.add_delta in Hdo. destruct (Z.leb_spec (- 2 ^ 63) (if incr then default 0 parsed + d else default 0 parsed - d)),
        (Z.ltb_spec (if incr then default 0 parsed + d else default 0 parsed - d) (2 ^ 63)); try done. injection Hdo as <-. lia. }
    assert (model_of s1 = model_of s) as Hm1 by (by apply model_world).
    assert (hash_value_ oit = hash_key e (key_of oit).1 (key_of oit).2) as Hh by (apply (c_keys _ _ _ Hc1 o); apply Ho).
    apply wp_bind. replace (negb (Z.of_nat (length buf) =? data_size oit)) with (negb (length buf =? length (data_of oit))%nat).
    2:{ f_equal. destruct (Nat.eqb_spec (length buf) (length (data_of oit))), (Z.eqb_spec (Z.of_nat (length buf)) (data_size oit)); try done; lia. }
    destruct (Nat.eqb_spec (length buf) (length (data_of oit))) as [Hlen|Hlen]; cbn [negb].
    + eapply wp_mono; [eapply (wp_delta_in_place s s1 held o oit buf); try done; [apply Hw1|lia|destruct incr; solve_event]|].
      intros r s2 (Hi2&Ht2&[oit2 Ho2]&Hspec). eapply wp_mono; [|intros r' s' Hb; exists false; exact Hb].
      eapply (wp_finish e s held s2 o oit2); try done. by rewrite Hspec, Hk.
    + eapply wp_mono; [eapply (wp_delta_replace s s1 held o oit buf k.1 _ v); try done; [apply Hw1|destruct incr; solve_event]|].
      intros r s2 (Hi2&Ht2&[oit2 Ho2]&[oom Hspec]). eapply wp_mono; [|intros r' s' Hb; exists oom; exact Hb].
      eapply (wp_finish e s held s2 o oit2); try done. rewrite Hspec, Hk. by destruct oom.
Qed.
End delta_op.
