(* ===== verification/CacheSweep.v ===== *)
(** * The operations of the cache that walk its lists

    [flush], [expire_items] and [check_expired]: every walk ends, is defined,
    and takes out exactly the entries it is meant to, in the order of the lists. *)

From S2P Require Import Prelude XixiList XixiHashMap Lookup3 Util CurrTime Pdu Stats Watch Slab Cache CacheInv CacheSpec CacheOps CacheData.
Import Cache_Watch.

(** ** The reference operations *)
Section sweep_reference.
Context (alive : sink -> bool).

(** Entries that go, one after the other, each telling its watches. *)
Definition swept (ty : watch_notify_type) (ens : list (key * entry)) (m : model) : model :=
  foldl (fun m ke => (base.delete ke.1 m.1, notified_of alive ty ke.2 m.2)) m ens.

Definition entry_size (ke : key * entry) : Z :=
  sizeof_Cache_Item + Z.of_nat (length ke.1.2) + Z.of_nat (length (e_data ke.2)) + Z.of_nat (length (e_ext ke.2)).
Definition in_group (g : Z) (ke : key * entry) : Prop := ke.1.1 = g.
Definition past (now : Z) (ke : key * entry) : Prop := e_expire_time ke.2 <= now.

#[export] Instance in_group_dec g ke : Decision (in_group g ke).
Proof. unfold in_group. apply _. Defined.
#[export] Instance past_dec now ke : Decision (past now ke).
Proof. unfold past. apply _. Defined.

Lemma swept_app ty xs ys m : swept ty (xs ++ ys) m = swept ty ys (swept ty xs m).
Proof. apply foldl_app. Qed.
End sweep_reference.

(** The entries of a list that satisfy [P]. *)
Definition victims (P : key * entry -> Prop) `{forall ke, Decision (P ke)} (s : Cache_Mgr) (l : list ptr) : list (key * entry) :=
  base.filter P (omap (kv s) l).

(** The lists whose time to be checked has come. *)
Definition due_lists (s : Cache_Mgr) (now : Z) : list (list ptr) :=
  zip_with (fun l c => if c <=? now then l else []) (expire_list_ s) (expire_check_time_ s).

Section sweep.
Context (e : endian) `{Table_Malloc} (alive : sink -> bool).
Implicit Types (s : Cache_Mgr) (held : holds) (p : ptr) (it : Cache_Item) (k : key).

Lemma list_item s held i l p : core e s held -> expire_list_ s !! i = Some l -> p ∈ l ->
  p ∈ linked s /\ exists it, heap s !! p = Some it.
Proof.
  intros Hc Hi Hp. assert (p ∈ linked s) as Hl by (rewrite <- (c_expire _ _ _ Hc); apply elem_of_concat; eauto).
  split; [done|by eapply linked_heap].
Qed.

Lemma list_size s held i l : core e s held -> expire_list_ s !! i = Some l -> (length l <= size (heap s))%nat.
Proof.
  intros Hc Hi. pose proof (expire_nodup e s held i l Hc Hi) as Hnd.
  rewrite <- (size_dom (D := gset ptr)), <- (size_list_to_set (C := gset ptr) l) by done.
  apply subseteq_size. intros q Hq%elem_of_list_to_set. apply elem_of_dom. by apply (list_item s held i l q Hc Hi).
Qed.

Lemma wp_next s i pre p rest Q :
  expire_list_ s !! i = Some (pre ++ p :: rest) -> NoDup (pre ++ p :: rest) -> Q (head rest) s ->
  wp (Lists.next (Expire (Z.of_nat i)) p) s Q.
Proof.
  intros Hi Hnd HQ. unfold Lists.next. apply wp_bind. eapply wp_lists_load; [by apply get_expire|].
  apply wp_bind, wp_assert; [apply bool_decide_eq_true; rewrite elem_of_app, elem_of_cons; auto|]. apply wp_ret.
  apply NoDup_app in Hnd as (_&Hd&_). rewrite succ_in_middle; [done|]. intros Hin. apply (Hd p Hin). by left.
Qed.

(** What a walk of list [i] leaves to the walks of the later ones. *)
Record walked (s : Cache_Mgr) held (i : nat) (ty : watch_notify_type) (vs : list (key * entry)) (s' : Cache_Mgr) : Prop := {
  wk_inv : inv e s' held;
  wk_time : curr_time_ s' = curr_time_ s;
  wk_check : forall j, (i < j)%nat -> expire_check_time_ s' !! j = expire_check_time_ s !! j;
  wk_lists : forall j, (i < j)%nat -> expire_list_ s' !! j = expire_list_ s !! j;
  wk_kv : forall j l q, (i < j)%nat -> expire_list_ s !! j = Some l -> q ∈ l -> kv s' q = kv s q;
  wk_model : model_of s' = swept alive ty vs (model_of s)
}.

(** One step of a walk: the item goes ... *)
Lemma wp_sweep_unlink s held i pre p rest it ty Q :
  inv e s held -> room held -> expire_list_ s !! i = Some (pre ++ p :: rest) -> heap s !! p = Some it ->
  (forall s', inv e s' held -> curr_time_ s' = curr_time_ s -> expire_check_time_ s' = expire_check_time_ s ->
     expire_list_ s' = <[i := pre ++ rest]> (expire_list_ s) -> (forall q, q <> p -> heap s' !! q = heap s !! q) ->
     model_of s' = swept alive ty [(key_of it, entry_of it)] (model_of s) -> Q tt s') ->
  wp (Mgr.do_unlink alive p ty) s Q.
Proof.
  intros Hi Hr Hl Hp HQ. pose proof (inv_core e _ _ Hi) as Hc.
  assert (p ∈ pre ++ p :: rest) as Hin by (rewrite elem_of_app, elem_of_cons; auto).
  eapply (wp_unlink e alive s held p it); [done..|by eapply list_item|done|].
  intros s' Hi' Ht _ _ Ha [Hll Hck] Hm. apply HQ; try done; [|apply Ha].
  rewrite (Hll i _ Hl Hin), Seq.remove_middle; [done|]. by eapply expire_nodup.
Qed.

Lemma walked_refl s held i ty : inv e s held -> walked s held i ty [] s.
Proof. by split. Qed.
Lemma walked_trans s1 s2 s3 held i ty vs ws : walked s1 held i ty vs s2 -> walked s2 held i ty ws s3 -> walked s1 held i ty (vs ++ ws) s3.
Proof.
  intros H1 H2. split; [apply H2|..].
  - by rewrite (wk_time _ _ _ _ _ _ H2), (wk_time _ _ _ _ _ _ H1).
  - intros j Hj. by rewrite (wk_check _ _ _ _ _ _ H2), (wk_check _ _ _ _ _ _ H1).
  - intros j Hj. by rewrite (wk_lists _ _ _ _ _ _ H2), (wk_lists _ _ _ _ _ _ H1).
  - intros j l q Hj Hl Hq. rewrite (wk_kv _ _ _ _ _ _ H2 j l), (wk_kv _ _ _ _ _ _ H1 j l); try done.
    by rewrite (wk_lists _ _ _ _ _ _ H1).
  - by rewrite swept_app, <- (wk_model _ _ _ _ _ _ H1), (wk_model _ _ _ _ _ _ H2).
Qed.

Lemma victims_ext P `{forall ke, Decision (P ke)} s s' l : (forall q, q ∈ l -> kv s' q = kv s q) -> victims P s' l = victims P s l.
Proof.
  intros Hl. unfold victims. f_equal. induction l as [|p l IH]; [done|]. cbn.
  rewrite Hl by (by left). rewrite IH; [done|]. intros q Hq. apply Hl. by right.
Qed.
Lemma victims_cons P `{forall ke, Decision (P ke)} s p it l : heap s !! p = Some it ->
  victims P s (p :: l) = (if decide (P (key_of it, entry_of it)) then [(key_of it, entry_of it)] else []) ++ victims P s l.
Proof.
  intros Hp. unfold victims. assert (kv s p = Some (key_of it, entry_of it)) as Hk by (unfold kv; by rewrite Hp).
  change (omap (kv s) (p :: l)) with (match kv s p with Some y => y :: omap (kv s) l | None => omap (kv s) l end).
  rewrite Hk, filter_cons. by case_decide.
Qed.

(** The other items of an unlinking. *)
Lemma other_kv s s' p : (forall q, q <> p -> heap s' !! q = heap s !! q) -> forall q, q <> p -> kv s' q = kv s q.
Proof. intros Ho q Hq. unfold kv. by rewrite Ho. Qed.

Lemma other_list s held i l p it j m q : core e s held -> expire_list_ s !! i = Some l -> p ∈ l -> heap s !! p = Some it ->
  expire_list_ s !! j = Some m -> q ∈ m -> (i < j)%nat -> q <> p.
Proof.
  intros Hc Hi Hl Hp Hj Hm Hij ->. destruct (only_list e s held p it i j l m Hc Hp Hi Hl Hj Hm). lia.
Qed.

Lemma sweep_step s held i pre p rest it ty s' :
  inv e s held -> inv e s' held -> expire_list_ s !! i = Some (pre ++ p :: rest) -> heap s !! p = Some it ->
  curr_time_ s' = curr_time_ s -> expire_check_time_ s' = expire_check_time_ s ->
  expire_list_ s' = <[i := pre ++ rest]> (expire_list_ s) -> (forall q, q <> p -> heap s' !! q = heap s !! q) ->
  model_of s' = swept alive ty [(key_of it, entry_of it)] (model_of s) ->
  walked s held i ty [(key_of it, entry_of it)] s' /\ forall q, q ∈ rest -> kv s' q = kv s q.
Proof.
  intros Hi Hi' Hl Hp Ht Hck Hll Hoth Hm. pose proof (inv_core e _ _ Hi) as Hc.
  assert (p ∈ pre ++ p :: rest) as Hin by (rewrite elem_of_app, elem_of_cons; auto).
  pose proof (expire_nodup e s held i _ Hc Hl) as Hnd. split.
  - split; try done.
    + intros j _. by rewrite Hck.
    + intros j Hj. rewrite Hll, list_lookup_insert_ne by lia. done.
    + intros j m q Hj Hjm Hq. eapply other_kv; [done|]. by eapply (other_list s held i).
  - intros q Hq. eapply other_kv; [done|]. intros ->. apply NoDup_app in Hnd as (_&_&Hnd). by apply NoDup_cons in Hnd as [? _].
Qed.

(** The count and the size [flush] answers. *)
Definition tally (acc : Z * Z) (vs : list (key * entry)) : Z * Z :=
  foldl (fun a ke => (u32 (a.1 + 1), u64 (a.2 + entry_size ke))) acc vs.

Lemma total_size_entry s held it : core e s held -> item_wf (slab_ s) it -> Item.total_size it = entry_size (key_of it, entry_of it).
Proof.
  intros Hc Hw. destruct (get_key_wf _ _ Hw) as [_ Hk]. pose proof (item_bounds _ _ Hw) as Hb.
  destruct (c_sizes _ _ _ Hc) as [_ Hs]. pose proof (iw_class _ _ Hw). pose proof (wf_max _ (c_slab _ _ _ Hc)).
  pose proof (SlabFacts.size_of_mono (slab_ s) (class_id it) (class_id_max_ (slab_ s)) (c_slab _ _ _ Hc) ltac:(lia) ltac:(lia)).
  pose proof (iw_fits _ _ Hw). destruct (get_data_wf _ _ Hw) as [_ Hd]. destruct (get_ext_wf _ _ Hw) as [_ Hx].
  unfold Item.total_size, entry_size. cbn [fst snd entry_of e_data e_ext]. rewrite Hk, Hd, Hx. apply wrap_small.
  unfold sizeof_Cache_Item in *. lia.
Qed.

Lemma wp_flush_walk g i rest : forall fuel pre s held acc,
  inv e s held -> room held -> expire_list_ s !! i = Some (pre ++ rest) -> (length rest <= fuel)%nat ->
  wp (Mgr.flush_walk alive fuel g (Z.of_nat i) (head rest) acc) s (fun acc' s' =>
    walked s held i WATCH_NOTIFY_TYPE_FLUSHED (victims (in_group g) s rest) s' /\ acc' = tally acc (victims (in_group g) s rest)).
Proof.
  induction rest as [|p rest IH]; intros fuel pre s held acc Hi Hr Hl Hf.
  { destruct fuel; apply wp_ret; (split; [by apply walked_refl|done]). }
  destruct fuel as [|fuel]; [cbn in Hf; lia|]. cbn [Mgr.flush_walk head]. cbn in Hf.
  pose proof (inv_core e _ _ Hi) as Hc. assert (p ∈ pre ++ p :: rest) as Hin by (rewrite elem_of_app, elem_of_cons; auto).
  destruct (list_item s held i _ p Hc Hl Hin) as [Hlk [it Hp]].
  apply wp_bind. eapply wp_next; [done|by eapply expire_nodup|]. apply wp_bind. eapply wp_item; [done|].
  rewrite (victims_cons _ s p it) by done. change (in_group g (key_of it, entry_of it)) with (group_id it = g).
  apply wp_bind. destruct (Z.eqb_spec (group_id it) g) as [Hg|Hg].
  - rewrite decide_True by done. apply wp_bind. eapply wp_sweep_unlink; [done..|].
    intros s1 Hi1 Ht1 Hck1 Hl1 Hoth1 Hm1. apply wp_ret.
    destruct (sweep_step s held i pre p rest it _ s1 Hi Hi1 Hl Hp Ht1 Hck1 Hl1 Hoth1 Hm1) as [Hw1 Hkv1].
    eapply wp_mono; [eapply (IH fuel pre s1 held); [done|done| |lia]|].
    { rewrite Hl1. apply list_lookup_insert_eq. by eapply lookup_lt_Some. }
    intros acc' s2 [Hw2 ->]. rewrite (victims_ext _ s s1) in * by done. split; [by eapply walked_trans|].
    cbn. by rewrite (total_size_entry s held it Hc) by (by eapply linked_item).
  - rewrite decide_False by done. apply wp_ret. eapply (IH fuel (pre ++ [p])); [done|done|by rewrite <- app_assoc|lia].
Qed.

(** The later lists after a walk. *)
Lemma victims_app P `{forall ke, Decision (P ke)} s l1 l2 : victims P s (l1 ++ l2) = victims P s l1 ++ victims P s l2.
Proof. unfold victims. by rewrite omap_app, filter_app. Qed.

Lemma walked_later s held i ty vs s' : core e s held -> walked s held i ty vs s' ->
  drop (S i) (expire_list_ s') = drop (S i) (expire_list_ s) /\
  (forall q, q ∈ concat (drop (S i) (expire_list_ s)) -> kv s' q = kv s q).
Proof.
  intros Hc Hw. split.
  - apply list_eq. intros j. rewrite !lookup_drop. apply Hw. lia.
  - intros q (j&l&Hj&Hq)%elem_of_concat. rewrite lookup_drop in Hj. eapply (wk_kv _ _ _ _ _ _ Hw (S i + j)); [lia|done..].
Qed.

Lemma wp_flush_lists g n : forall i s held acc, (i + n = 34)%nat -> inv e s held -> room held ->
  wp (Mgr.flush_lists alive g (seqZ (Z.of_nat i) (Z.of_nat n)) acc) s (fun acc' s' =>
    let vs := victims (in_group g) s (concat (drop i (expire_list_ s))) in
    inv e s' held /\ curr_time_ s' = curr_time_ s /\ model_of s' = swept alive WATCH_NOTIFY_TYPE_FLUSHED vs (model_of s) /\
    acc' = tally acc vs).
Proof.
  induction n as [|n IH]; intros i s held acc Hin Hi Hr; pose proof (inv_core e _ _ Hi) as Hc;
    destruct (c_lens _ _ _ Hc) as [Hlen _].
  - rewrite drop_ge by lia. by apply wp_ret.
  - destruct (lookup_lt_is_Some_2 (expire_list_ s) i) as [l Hl]; [lia|].
    rewrite (drop_S _ l i) by done. cbn [concat]. rewrite seqZ_cons by lia. cbn [Mgr.flush_lists].
    unfold Lists.front. apply wp_bind, wp_bind. eapply wp_lists_load; [by apply get_expire|]. apply wp_ret, wp_bind, wp_gets, wp_bind.
    eapply wp_mono; [apply (wp_flush_walk g i l (size (heap s)) [] s held acc); [done..|by eapply list_size]|].
    intros acc1 s1 [Hw1 ->]. destruct (walked_later s held i _ _ s1 Hc Hw1) as [Hd1 Hkv1].
    replace (Z.succ (Z.of_nat i)) with (Z.of_nat (S i)) by lia. replace (Z.pred (Z.of_nat (S n))) with (Z.of_nat n) by lia.
    eapply wp_mono; [apply (IH (S i) s1 held); [lia|apply Hw1|done]|].
    intros acc2 s2 (Hi2&Ht2&Hm2&->). cbv zeta. rewrite victims_app, Hd1, (victims_ext _ s s1) in * by done.
    split; [done|]. split; [by rewrite Ht2, (wk_time _ _ _ _ _ _ Hw1)|]. split.
    + by rewrite swept_app, <- (wk_model _ _ _ _ _ _ Hw1).
    + unfold tally. by rewrite foldl_app.
Qed.

(** What the lists hold is what the map holds. *)
Lemma victims_view P `{forall ke, Decision (P ke)} s held : core e s held ->
  victims P s (concat (expire_list_ s)) ≡ₚ base.filter P (map_to_list (view s)).
Proof.
  intros Hc. unfold victims, view. rewrite (c_expire _ _ _ Hc), map_to_list_to_map; [done|].
  eapply (keys_nodup e s held); [done|by eapply linked_nodup|done].
Qed.
Lemma swept_map ty vs m : (swept alive ty vs m).1 = base.filter (fun ke => ke.1 ∉ vs.*1) m.1.
Proof.
  revert m. induction vs as [|[k en] vs IH]; intros m.
  - cbn. symmetry. apply map_filter_id. intros k en _. apply not_elem_of_nil.
  - change (swept alive ty ((k, en) :: vs) m) with (swept alive ty vs (base.delete k m.1, notified_of alive ty en m.2)).
    rewrite IH. cbn [fst]. apply map_eq. intros x. rewrite !map_lookup_filter. cbn.
    destruct (decide (x = k)) as [->|Hne].
    + rewrite lookup_delete_eq. cbn. destruct (m.1 !! k); cbn; [|done]. rewrite option_guard_False; [done|]. intros Hn. apply Hn. by left.
    + rewrite lookup_delete_ne by done. destruct (m.1 !! x); cbn; [|done]. apply option_guard_iff. rewrite elem_of_cons. naive_solver.
Qed.
Lemma swept_view P `{forall ke, Decision (P ke)} ty vs m :
  vs ≡ₚ base.filter P (map_to_list m.1) -> (swept alive ty vs m).1 = base.filter (fun ke => ~ P ke) m.1.
Proof.
  intros Hvs. rewrite swept_map. apply map_filter_ext. intros k en Hk. cbn.
  assert (forall en', (k, en') ∈ vs <-> P (k, en') /\ m.1 !! k = Some en') as Hin.
  { intros en'. rewrite Hvs, list_elem_of_filter, elem_of_map_to_list. done. }
  split.
  - intros Hn HP. apply Hn. apply list_elem_of_fmap. exists (k, en). split; [done|]. by apply Hin.
  - intros HP ([k' en']&->&Hv)%list_elem_of_fmap. apply Hin in Hv as [HP' Hk']. cbn in *. naive_solver.
Qed.

Definition total_of (vs : list (key * entry)) : Z := foldr (fun ke n => entry_size ke + n) 0 vs.

Lemma tally_closed vs c z : tally (u32 c, u64 z) vs = (u32 (c + Z.of_nat (length vs)), u64 (z + total_of vs)).
Proof.
  revert c z. induction vs as [|ke vs IH]; intros c z.
  - cbn. by rewrite !Z.add_0_r.
  - change (tally (u32 c, u64 z) (ke :: vs)) with (tally (u32 (u32 c + 1), u64 (u64 z + entry_size ke)) vs).
    rewrite !wrap_add_l, IH. cbn [length total_of foldr]. fold (total_of vs). f_equal; f_equal; lia.
Qed.

Lemma flush_spec s held g :
  inv e s held -> roomy held ->
  wp (Mgr.flush alive g) s (fun r s' => exists vs, vs ≡ₚ base.filter (in_group g) (map_to_list (view s)) /\
    updated e s held (u32 (Z.of_nat (length vs)), u64 (total_of vs), swept alive WATCH_NOTIFY_TYPE_FLUSHED vs (model_of s)) r s').
Proof.
  intros Hi Hr. pose proof (inv_core e _ _ Hi) as Hc. unfold Mgr.flush. apply wp_bind.
  eapply wp_mono; [apply (wp_flush_lists g 34 0 s held (0, 0)); [done|done|by apply roomy_room]|].
  intros acc s1 (Hi1&Ht1&Hm1&->). rewrite drop_0 in *. apply wp_bind. eapply wp_stat; [done|solve_event|]. intros s2 Hk2 Hi2. apply wp_ret.
  eexists. split; [by eapply victims_view|]. split; [done|]. split; [by rewrite (k_time _ _ Hk2)|].
  change (0, 0) with (u32 0, u64 0). rewrite tally_closed. f_equal.
  rewrite (model_world s1 s2); [done|by apply calm_world|apply view_core, Hk2].
Qed.

(** ** Expiry *)
Lemma new_list_of s held i l p it now :
  inv e s held -> expire_list_ s !! i = Some l -> p ∈ l -> heap s !! p = Some it -> (i < 33)%nat -> 0 <= now < expire_time it ->
  exists j, Mgr.new_list_loop (Z.to_nat (Z.of_nat i)) (u32 (expire_time it - now)) = Some (Some j) /\ 0 <= j <= Z.of_nat i.
Proof.
  intros Hi Hl Hin Hp Hi33 Hn. pose proof (inv_core e _ _ Hi) as Hc. destruct (list_item s held i l p Hc Hl Hin) as [Hlk _].
  destruct (linked_item e s held p it Hc Hlk Hp) as (Hwf&_). pose proof (iw_expire _ _ Hwf).
  rewrite Nat2Z.id, wrap_small by lia. apply new_list_loop_some; lia.
Qed.

(** ... or it moves to a list of shorter expirations, or to the front of its own. *)
Lemma sweep_move s held i pre p rest it j ty s' :
  inv e s held -> inv e s' held -> expire_list_ s !! i = Some (pre ++ p :: rest) -> heap s !! p = Some it ->
  0 <= j <= Z.of_nat i -> moved s p it i (pre ++ p :: rest) j s' ->
  walked s held i ty [] s' /\ (forall q, kv s' q = kv s q) /\ exists pre', expire_list_ s' !! i = Some (pre' ++ rest).
Proof.
  intros Hi Hi' Hl Hp Hj Hmv. pose proof (inv_core e _ _ Hi) as Hc.
  assert (p ∈ pre ++ p :: rest) as Hin by (rewrite elem_of_app, elem_of_cons; auto).
  pose proof (expire_nodup e s held i _ Hc Hl) as Hnd. destruct (list_item s held i _ p Hc Hl Hin) as [Hlk _].
  destruct (mv_lists _ _ _ _ _ _ _ Hmv) as (l'&Hl'&Hlists). rewrite Seq.remove_middle in Hl', Hlists by done.
  assert (forall q, kv s' q = kv s q) as Hkv.
  { intros q. unfold kv. rewrite (mv_heap _ _ _ _ _ _ _ Hmv). destruct (decide (q = p)) as [->|]; [by rewrite lookup_insert_eq, Hp|by rewrite lookup_insert_ne]. }
  pose proof (lookup_lt_Some _ _ _ Hl) as Hlt. split; [|split; [done|]].
  - split; try done; [apply Hmv|intros k _; by rewrite (mv_check _ _ _ _ _ _ _ Hmv)| |by eapply wp_move_model].
    intros k Hk. rewrite Hlists, !list_lookup_insert_ne by lia. done.
  - destruct (decide (Z.to_nat j = i)) as [E|E].
    + rewrite E in *. rewrite list_lookup_insert_eq in Hl' by done. injection Hl' as <-. exists (p :: pre).
      rewrite Hlists, list_lookup_insert_eq; [done|]. by rewrite length_insert.
    + exists pre. rewrite Hlists, list_lookup_insert_ne, list_lookup_insert_eq by lia. done.
Qed.

Lemma wp_expire_walk now i rest : (i < 33)%nat -> 0 <= now -> forall fuel pre s held,
  inv e s held -> room held -> expire_list_ s !! i = Some (pre ++ rest) -> (length rest <= fuel)%nat ->
  wp (Mgr.expire_walk alive fuel now (Z.of_nat i) (head rest)) s (fun _ s' =>
    walked s held i WATCH_NOTIFY_TYPE_EXPIRED (victims (past now) s rest) s').
Proof.
  intros Hi33 Hnow. induction rest as [|p rest IH]; intros fuel pre s held Hi Hr Hl Hf.
  { destruct fuel; apply wp_ret; by apply walked_refl. }
  destruct fuel as [|fuel]; [cbn in Hf; lia|]. cbn [Mgr.expire_walk head]. cbn in Hf.
  pose proof (inv_core e _ _ Hi) as Hc. assert (p ∈ pre ++ p :: rest) as Hin by (rewrite elem_of_app, elem_of_cons; auto).
  destruct (list_item s held i _ p Hc Hl Hin) as [Hlk [it Hp]].
  apply wp_bind. eapply wp_item; [done|]. apply wp_bind. eapply wp_next; [done|by eapply expire_nodup|].
  rewrite (victims_cons _ s p it) by done. change (past now (key_of it, entry_of it)) with (expire_time it <= now).
  apply wp_bind. destruct (Z.leb_spec (expire_time it) now) as [Hx|Hx].
  - rewrite decide_True by done. eapply wp_sweep_unlink; [done..|]. intros s1 Hi1 Ht1 Hck1 Hl1 Hoth1 Hm1.
    destruct (sweep_step s held i pre p rest it _ s1 Hi Hi1 Hl Hp Ht1 Hck1 Hl1 Hoth1 Hm1) as [Hw1 Hkv1].
    eapply wp_mono; [eapply (IH fuel pre s1 held); [done|done| |lia]|].
    { rewrite Hl1. apply list_lookup_insert_eq. by eapply lookup_lt_Some. }
    intros [] s2 Hw2. rewrite (victims_ext _ s s1) in Hw2 by done. by eapply walked_trans.
  - rewrite decide_False by lia. destruct (new_list_of s held i _ p it now Hi Hl Hin Hp Hi33 ltac:(lia)) as (j&Hj&Hjr).
    apply wp_bind. eapply wp_the; [exact Hj|]. eapply (wp_move e s held p it i (pre ++ p :: rest) j); [done..|lia|done|done|].
    intros s1 Hi1 Hmv. destruct (sweep_move s held i pre p rest it j WATCH_NOTIFY_TYPE_EXPIRED s1 Hi Hi1 Hl Hp Hjr Hmv) as (Hw1&Hkv1&pre1&Hl1).
    eapply wp_mono; [eapply (IH fuel pre1 s1 held); [done|done|done|lia]|].
    intros [] s2 Hw2. rewrite (victims_ext _ s s1) in Hw2 by (intros; apply Hkv1). cbn [app]. by eapply (walked_trans s s1 s2 held i _ []).
Qed.

Lemma at_nat (l : list Z) i : Slab.at_ l (Z.of_nat i) = l !! i.
Proof. unfold Slab.at_. destruct (Z.ltb_spec (Z.of_nat i) 0); [lia|]. by rewrite Nat2Z.id. Qed.

Lemma inv_check s held l : inv e s held -> length l = 33%nat -> inv e (s <| expire_check_time_ := l |>) held.
Proof.
  intros [Hc []] Hl. split; [|by split]. destruct Hc. split; try done.
Qed.

(** Due lists from the [i]-th on. *)
Definition due_from (i : nat) (s : Cache_Mgr) (now : Z) : list (list ptr) :=
  zip_with (fun l c => if c <=? now then l else []) (drop i (expire_list_ s)) (drop i (expire_check_time_ s)).

Lemma due_cons i s now l c : expire_list_ s !! i = Some l -> expire_check_time_ s !! i = Some c ->
  due_from i s now = (if c <=? now then l else []) :: due_from (S i) s now.
Proof. intros Hl Hc. unfold due_from. by rewrite (drop_S _ l i), (drop_S _ c i). Qed.
Lemma due_sub i s now p : p ∈ concat (due_from i s now) -> p ∈ concat (drop i (expire_list_ s)).
Proof.
  unfold due_from. generalize (drop i (expire_check_time_ s)). induction (drop i (expire_list_ s)) as [|l ls IH]; intros [|c cs]; cbn; try by intros ?%elem_of_nil.
  rewrite !elem_of_app. intros [Hp|Hp]; [left|right; eauto]. destruct (c <=? now); [done|by apply elem_of_nil in Hp].
Qed.

(** One list: if its time has come, its past entries go. *)
Lemma wp_expire_list now i s held l c : (i < 33)%nat -> 0 <= now ->
  inv e s held -> room held -> expire_list_ s !! i = Some l -> expire_check_time_ s !! i = Some c ->
  wp (Mgr.expire_list alive now (Z.of_nat i)) s (fun _ s' =>
    walked s held i WATCH_NOTIFY_TYPE_EXPIRED (victims (past now) s (if c <=? now then l else [])) s').
Proof.
  intros Hi33 Hnow Hi Hr Hl Hc. unfold Mgr.expire_list. apply wp_bind. eapply wp_elem; [by rewrite at_nat|].
  rewrite Z.geb_leb. destruct (c <=? now); [|apply wp_ret; by apply walked_refl].
  destruct (expiration_at (Z.of_nat i)) as (t&Ht&_); [lia|]. apply wp_bind. eapply (wp_elem _ _ s t); [exact Ht|].
  apply wp_bind, wp_modify. rewrite Nat2Z.id. set (s1 := s <| expire_check_time_ ::= _ |>).
  assert (inv e s1 held) as Hi1.
  { apply inv_check; [done|]. etrans; [apply length_insert|apply Hi]. }
  unfold Lists.front. apply wp_bind, wp_bind. eapply wp_lists_load; [by apply get_expire|]. apply wp_ret, wp_bind, wp_gets.
  assert (walked s held i WATCH_NOTIFY_TYPE_EXPIRED [] s1) as Hw1.
  { split; try done. intros j Hj. subst s1. cbn. by rewrite list_lookup_insert_ne by lia. }
  eapply wp_mono; [apply (wp_expire_walk now i l Hi33 Hnow (size (heap s1)) [] s1 held); [done..|]|].
  - apply (list_size s held i); [apply Hi|done].
  - intros [] s2 Hw2. eapply (walked_trans s s1 s2 held i _ []); [done|exact Hw2].
Qed.

Lemma wp_expire_lists now n : 0 <= now -> forall i s held, (i + n = 33)%nat -> inv e s held -> room held ->
  wp (for_each (Mgr.expire_list alive now) (seqZ (Z.of_nat i) (Z.of_nat n))) s (fun _ s' =>
    inv e s' held /\ curr_time_ s' = curr_time_ s /\
    model_of s' = swept alive WATCH_NOTIFY_TYPE_EXPIRED (victims (past now) s (concat (due_from i s now))) (model_of s)).
Proof.
  intros Hnow. induction n as [|n IH]; intros i s held Hin Hi Hr; pose proof (inv_core e _ _ Hi) as Hc;
    destruct (c_lens _ _ _ Hc) as [Hlen _]; pose proof (s_checks _ (proj2 Hi)) as Hlck.
  - apply wp_ret. unfold due_from. rewrite (drop_ge (expire_check_time_ s)) by lia. rewrite zip_with_nil_r. done.
  - destruct (lookup_lt_is_Some_2 (expire_list_ s) i) as [l Hl]; [lia|].
    destruct (lookup_lt_is_Some_2 (expire_check_time_ s) i) as [c Hck]; [lia|].
    rewrite (due_cons i s now l c) by done. cbn [concat]. rewrite seqZ_cons by lia. cbn [for_each]. apply wp_bind.
    eapply wp_mono; [apply (wp_expire_list now i s held l c); [lia|done..]|].
    intros [] s1 Hw1. destruct (walked_later s held i _ _ s1 Hc Hw1) as [Hd1 Hkv1].
    replace (Z.succ (Z.of_nat i)) with (Z.of_nat (S i)) by lia. replace (Z.pred (Z.of_nat (S n))) with (Z.of_nat n) by lia.
    eapply wp_mono; [apply (IH (S i) s1 held); [lia|apply Hw1|done]|].
    intros [] s2 (Hi2&Ht2&Hm2).
    assert (due_from (S i) s1 now = due_from (S i) s now) as Hdue.
    { unfold due_from. rewrite Hd1. f_equal. apply list_eq. intros j. rewrite !lookup_drop. apply Hw1. lia. }
    rewrite Hdue, (victims_ext _ s s1) in Hm2 by (intros q Hq; apply Hkv1; by eapply due_sub).
    split; [done|]. split; [by rewrite Ht2, (wk_time _ _ _ _ _ _ Hw1)|].
    by rewrite victims_app, swept_app, <- (wk_model _ _ _ _ _ _ Hw1).
Qed.

(** ** Flushed items *)

(** An item leaves the list of flushed items: its reference becomes the walk's. *)
Lemma core_unflush s s' held p rest :
  core e s held -> flush_cache_list_ s = p :: rest -> s' = s <| flush_cache_list_ := rest |> ->
  core e s' (give p 1 held) /\ p ∉ linked s /\ p ∉ rest /\ exists it, heap s !! p = Some it.
Proof.
  intros Hc Hf ->. pose proof (c_nodup _ _ _ Hc) as Hn.
  assert (placed s ≡ₚ p :: placed (s <| flush_cache_list_ := rest |>)) as Hpl.
  { unfold placed. cbn [flush_cache_list_ expire_list_ free_cache_list_ set const]. rewrite Hf, <- !Permutation_middle. done. }
  rewrite Hpl in Hn. apply NoDup_cons in Hn as [Hnp Hn].
  assert (p ∉ linked s /\ p ∉ concat (free_cache_list_ s) /\ p ∉ rest) as (Hnl&Hnf&Hnr).
  { rewrite <- (c_expire _ _ _ Hc). unfold placed in Hnp. cbn in Hnp. rewrite !elem_of_app in Hnp. naive_solver. }
  assert (forall q, refs (s <| flush_cache_list_ := rest |>) (give p 1 held) q = refs s held q) as Hrefs.
  { intros q. unfold refs. cbn [flush_cache_list_ cache_hash_map_ set const]. rewrite Hf. destruct (decide (q = p)) as [->|Hq].
    - rewrite give_eq, (decide_False (P := p ∈ linked s)), (decide_False (P := p ∈ rest)), (decide_True (P := p ∈ p :: rest)) by (done || by left). lia.
    - rewrite give_ne by done. f_equal. apply decide_ext. rewrite elem_of_cons. naive_solver. }
  split_and!; [|done|done|].
  - split; try apply Hc; cbn [heap set const].
    + exact Hn.
    + intros i l q Hi Hq. rewrite give_ne; [by apply (c_free _ _ _ Hc i l q)|]. intros ->. apply Hnf, elem_of_concat. eauto.
    + intros q it. rewrite Hrefs. apply Hc.
    + intros q. rewrite Hrefs. apply Hc.
    + intros q. pose proof (c_held _ _ _ Hc q). unfold give. case_decide; lia.
  - destruct (heap s !! p) as [it|] eqn:E; [eauto|]. pose proof (c_live _ _ _ Hc p E) as H0. pose proof (c_held _ _ _ Hc p).
    unfold refs in H0. rewrite Hf, (decide_True (P := p ∈ p :: rest)) in H0 by (by left). case_decide; lia.
Qed.

Lemma wp_free_flushed_walk rest : forall fuel s held,
  inv e s held -> roomy held -> flush_cache_list_ s = rest -> (length rest <= fuel)%nat ->
  wp (Mgr.free_flushed_walk fuel (head rest)) s (fun _ s' =>
    inv e s' held /\ curr_time_ s' = curr_time_ s /\ model_of s' = model_of s /\ flush_cache_list_ s' = []).
Proof.
  induction rest as [|p rest IH]; intros fuel s held Hi Hr Hf Hl; [by destruct fuel; apply wp_ret|].
  destruct fuel as [|fuel]; [cbn in Hl; lia|]. cbn in Hl. cbn [Mgr.free_flushed_walk head].
  pose proof (inv_core e _ _ Hi) as Hc. pose proof (c_held _ _ _ Hc) as Hge. set (s1 := s <| flush_cache_list_ := rest |>).
  destruct (core_unflush s s1 held p rest Hc Hf eq_refl) as (Hc1&Hnl&Hnr&it&Hp).
  assert (inv e s1 (give p 1 held)) as Hi1 by (destruct Hi as [_ []]; by split).
  assert (bool_decide (p ∈ flush_cache_list_ s) = true) as Hin by (apply bool_decide_eq_true; rewrite Hf; by left).
  unfold Lists.next. apply wp_bind, wp_bind. eapply wp_lists_load; [done|]. apply wp_bind, wp_assert; [done|]. apply wp_ret.
  unfold Lists.remove. apply wp_bind, wp_bind. eapply wp_lists_load; [done|]. apply wp_bind, wp_assert; [done|]. apply wp_modify, wp_bind.
  assert (Lists.put Flush (Seq.remove p (flush_cache_list_ s)) s = s1) as ->.
  { unfold Lists.put. rewrite Hf, Seq.remove_cons_eq, Seq.remove_not_in by done. done. }
  assert (succ_in p (flush_cache_list_ s) = head rest) as ->.
  { rewrite Hf. cbn. by rewrite bool_decide_eq_true_2. }
  eapply (wp_release e s1 (give p 1 held)); [done|done|rewrite give_eq; pose proof (Hge p); lia| |].
  { pose proof (Hr p). unfold refs. rewrite give_eq. repeat case_decide; lia. }
  intros s2 Hi2 Ha2 [Hm2 He2 Hf2 Hid2 Hw2 _] _.
  assert (model_of s2 = model_of s) as Hm.
  { unfold model_of. rewrite Hw2. f_equal. rewrite (view_around s1 s2 p Ha2 Hm2); done. }
  eapply wp_mono; [apply (IH fuel s2 held); [|done|by rewrite Hf2|lia]|].
  - eapply inv_held; [|exact Hi2]. intros q. by rewrite give_give, give_0.
  - intros [] s3 (Hi3&Ht3&Hm3&Hf3). split_and!; [done| |by rewrite Hm3|done]. by rewrite Ht3, (a_time _ _ _ Ha2).
Qed.

Lemma flush_size s held : core e s held -> (length (flush_cache_list_ s) <= size (heap s))%nat.
Proof.
  intros Hc. pose proof (c_nodup _ _ _ Hc) as Hn. unfold placed in Hn. apply NoDup_app in Hn as (_&_&Hn). apply NoDup_app in Hn as (_&_&Hn).
  rewrite <- (size_dom (D := gset ptr)), <- (size_list_to_set (C := gset ptr) (flush_cache_list_ s)) by done.
  apply subseteq_size. intros q Hq%elem_of_list_to_set. apply elem_of_dom. destruct (heap s !! q) eqn:E; [eauto|].
  pose proof (c_live _ _ _ Hc q E) as H0. pose proof (c_held _ _ _ Hc q). unfold refs in H0. rewrite (decide_True (P := q ∈ flush_cache_list_ s)) in H0 by done.
  case_decide; lia.
Qed.

Lemma wp_free_flushed s held :
  inv e s held -> roomy held ->
  wp Mgr.free_flushed_items s (fun _ s' =>
    inv e s' held /\ curr_time_ s' = curr_time_ s /\ model_of s' = model_of s /\ flush_cache_list_ s' = []).
Proof.
  intros Hi Hr. unfold Mgr.free_flushed_items, Lists.front. apply wp_bind, wp_bind. eapply wp_lists_load; [done|].
  apply wp_ret, wp_bind, wp_gets. apply wp_free_flushed_walk; try done. by apply (flush_size s held), Hi.
Qed.

(** ** The timer *)
Definition spec_expire_watchs (now : Z) (ws : gmap Z watch) : gmap Z watch :=
  base.filter (fun iw => Cache_Watch.is_expired now iw.2 = false) ws.

Lemma check_expired_spec s held :
  inv e s held -> roomy held ->
  wp (Mgr.check_expired alive) s (fun _ s' => inv e s' held /\ curr_time_ s' = curr_time_ s /\
    model_of s' = if time_of s =? last_check_expired_time_ s then model_of s
      else swept alive WATCH_NOTIFY_TYPE_EXPIRED (victims (past (time_of s)) s (concat (due_lists s (time_of s))))
             (view s, spec_expire_watchs (time_of s) (watch_map_ s))).
Proof.
  intros Hi Hr. unfold Mgr.check_expired. apply wp_bind, wp_now. fold (time_of s). apply wp_bind, wp_gets.
  destruct (Z.eqb_spec (time_of s) (last_check_expired_time_ s)); cbn [negb]; [by apply wp_ret|].
  apply wp_bind, wp_modify, wp_bind, wp_modify. set (s1 := s <| last_check_expired_time_ := _ |> <| watch_map_ ::= _ |>).
  assert (inv e s1 held) as Hi1.
  { destruct Hi as [Hc Hsu]. split; [by destruct Hc|]. pose proof (s_watches _ Hsu) as Hws. destruct Hsu. split; try done.
    subst s1. cbn. apply map_Forall_lookup. intros i w (Hw&_)%map_lookup_filter_Some. by apply (Hws i). }
  apply wp_bind. eapply wp_mono; [apply (wp_expire_lists (time_of s) 33) with (i := 0%nat) (held := held); [apply Hi|done|done|by apply roomy_room]|].
  intros [] s2 (Hi2&Ht2&Hm2). eapply wp_mono; [by apply (wp_free_flushed s2 held)|].
  intros [] s3 (Hi3&Ht3&Hm3&_). split; [done|]. split; [by rewrite Ht3, Ht2|]. by rewrite Hm3, Hm2.
Qed.
End sweep.
