(* ===== verification/CacheStore.v ===== *)
(** * Storing an item, and the state the cache starts in

    What a peer does around an update: it allocates an item, fills it and passes
    it on; [load_from_file] does the same.  [start] establishes the invariant. *)

From S2P Require Import Prelude XixiList XixiHashMap Lookup3 Util CurrTime Pdu Stats Watch Slab Cache CacheInv CacheSpec CacheOps CacheData.
Import Cache_Watch.

Section store.
Context (e : endian) `{Table_Malloc} `{Item_Malloc} `{!Item_Malloc_Ok} (alive : sink -> bool).
Implicit Types (s : Cache_Mgr) (held : holds) (p : ptr) (it : Cache_Item) (k : key).

(** An item of a caller, whatever is in it. *)
Record raw_item (s : Cache_Mgr) (held : holds) (p : ptr) (it : Cache_Item) : Prop := {
  ri_heap : heap s !! p = Some it;
  ri_placed : p ∉ placed s;
  ri_held : 0 < held p
}.

(** Nothing but what the caller's own items hold changes. *)
Record unseen (s s' : Cache_Mgr) : Prop := {
  us_model : model_of s' = model_of s;
  us_time : curr_time_ s' = curr_time_ s;
  us_id : last_cache_id_ s' = last_cache_id_ s;
  us_placed : placed s' = placed s
}.
Lemma unseen_trans s1 s2 s3 : unseen s1 s2 -> unseen s2 s3 -> unseen s1 s3.
Proof. intros [] []. split; congruence. Qed.

(** Writing an item of the caller. *)
Lemma raw_touch s held p it it' :
  inv e s held -> raw_item s held p it -> length (body it') = length (body it) -> class_id it' = class_id it ->
  item_wf (slab_ s) it' -> ref_count it' = ref_count it ->
  inv e (touch p it' s) held /\ raw_item (touch p it' s) held p it' /\ unseen s (touch p it' s).
Proof.
  intros Hi [Hp Hpl Hh] Hb Hcl Hwf Hr. pose proof (inv_core e _ _ Hi) as Hc.
  assert (p ∉ linked s) as Hnl.
  { rewrite <- (c_expire _ _ _ Hc). intros Hin. apply Hpl. unfold placed. rewrite elem_of_app. by left. }
  split; [|split; [by split; [apply lookup_insert_eq|..]|]].
  - eapply inv_set; [done..|by apply placed_free|by split|done|done].
  - split; try done. unfold model_of. f_equal. eapply (view_around s _ p); [apply around_touch|done..].
Qed.

Lemma raw_wf s held p it : inv e s held -> raw_item s held p it -> item_wf (slab_ s) it.
Proof. intros [Hc _] [Hp Hpl _]. by apply (c_item _ _ _ Hc p it Hp (placed_free _ _ Hpl)). Qed.

(** A copy into its memory. *)
Lemma wp_raw_write s held p it (off : Cache_Item -> Z) src Q :
  inv e s held -> raw_item s held p it -> 0 <= off it -> off it + Z.of_nat (length src) <= Z.of_nat (length (body it)) ->
  (forall s' b, mem_write (off it) src (body it) = Some b -> inv e s' held -> raw_item s' held p (it <| body := b |>) ->
     unseen s s' -> slab_ s' = slab_ s -> Q tt s') ->
  wp (Mgr.update_opt p (fun it => Item.write (off it) src it)) s Q.
Proof.
  intros Hi Hri Hoff Hl HQ. destruct (mem_write_some (off it) src (body it)) as [b Hb]; [done..|].
  pose proof (mem_write_length _ _ _ _ Hb) as Hbl. pose proof (raw_wf s held p it Hi Hri) as Hwf.
  destruct (raw_touch s held p it (it <| body := b |>) Hi Hri) as (Hi'&Hri'&Hu); try done.
  { destruct Hwf. split; try done. cbn. by rewrite Hbl. }
  eapply wp_update_opt; [apply Hri|unfold Item.write; by rewrite Hb|]. by eapply HQ.
Qed.

(** Its hash value. *)
Lemma wp_raw_hash s held p it Q :
  inv e s held -> raw_item s held p it ->
  (forall s', inv e s' held -> own_item e s' held p (it <| hash_value_ := hash_key e (key_of it).1 (key_of it).2 |>) ->
     unseen s s' -> slab_ s' = slab_ s -> Q tt s') ->
  wp (Mgr.update_opt p (Item_Key.calc_hash_value e)) s Q.
Proof.
  intros Hi Hri HQ. pose proof (raw_wf s held p it Hi Hri) as Hwf. destruct (get_key_wf _ _ Hwf) as [Hk _].
  destruct (raw_touch s held p it (it <| hash_value_ := hash_key e (key_of it).1 (key_of it).2 |>) Hi Hri) as (Hi'&[Hp' Hpl' Hh']&Hu); try done.
  { by destruct Hwf. }
  eapply wp_update_opt; [apply Hri|unfold Item_Key.calc_hash_value; by rewrite Hk|]. eapply HQ; try done.
Qed.

(** Its cache id, by which an update tells what it expects. *)
Lemma wp_own_expect s held p it id Q :
  inv e s held -> own_item e s held p it ->
  (forall s', inv e s' held -> own_item e s' held p (it <| cache_id := id |>) -> unseen s s' -> Q tt s') ->
  wp (Mgr.update p (fun it => it <| cache_id := id |>)) s Q.
Proof.
  intros Hi [Hp Hpl Hh Hha] HQ. assert (raw_item s held p it) as Hri by by split.
  pose proof (raw_wf s held p it Hi Hri) as Hwf.
  destruct (raw_touch s held p it (it <| cache_id := id |>) Hi Hri) as (Hi'&[Hp' Hpl' Hh']&Hu); try done; [by destruct Hwf|].
  eapply wp_update; [done|]. by eapply HQ.
Qed.

Lemma calm_unseen s s' : calm s s' -> unseen s s'.
Proof.
  intros Hk. split; [by apply model_world; [apply calm_world|apply view_core, Hk]|apply Hk|apply Hk|].
  apply placed_same; apply Hk.
Qed.

(** [alloc_item]: an item of the caller, or no memory. *)
Lemma alloc_item_spec s held g klen fl x dlen xlen Q :
  inv e s held -> 0 <= klen < 2 ^ 16 -> 0 <= dlen -> 0 <= xlen < 2 ^ 8 -> 0 <= x -> sizeof_Cache_Item + klen + dlen + xlen < 2 ^ 32 ->
  (forall s', inv e s' held -> calm s s' -> Q None s') ->
  (forall p it s', inv e s' (give p 1 held) -> held p = 0 -> raw_item s' (give p 1 held) p it ->
     model_of s' = model_of s -> curr_time_ s' = curr_time_ s -> last_cache_id_ s' = last_cache_id_ s ->
     fresh_item g klen fl (Current_Time.realtime (time_of s) x) dlen xlen it -> same_classes (slab_ s) (slab_ s') -> Q (Some p) s') ->
  wp (Mgr.alloc_item g klen fl x dlen xlen) s Q.
Proof.
  intros Hi Hk Hd Hx He Hs HQn HQs. pose proof (s_clock _ (proj2 Hi)) as Hclk. unfold Mgr.alloc_item. apply wp_bind, wp_realtime.
  eapply (wp_do_alloc e); [done..|apply realtime_range; [apply Hclk|done]|done| |].
  - intros s1 Hi1 Hk1. by apply HQn.
  - intros p it s1 Hi1 Hh0 Hnp Ha Hp Hf Hm Hid Hw Hsl. eapply HQs; try done; [|unfold model_of; rewrite Hw; f_equal|apply Ha].
    + split; [done..|]. rewrite give_eq. lia.
    + eapply (view_around s _ p); [done..|]. rewrite <- Hm, <- (c_expire _ _ _ (inv_core e _ _ Hi1)). intros Hin. apply Hnp.
      unfold placed. rewrite elem_of_app. by left.
Qed.
End store.

(** ** The two halves of a client's update

    What [Peer_Cache::process_update_req_pdu_fixed] asks of the cache, lines
    609-616 of [peer_cache.cpp], and [process_update_req_pdu_extras], lines
    632-657 and 676, once the key and the data are in the item. *)
Module Store.
Section store.
Context (e : endian) `{Table_Malloc} `{Item_Malloc} (alive : sink -> bool).

Definition begin_update (group key_length fl expiration data_length ext_length : Z) : M (ptr + xixi_reason) :=
  r ← Mgr.alloc_item group key_length fl expiration data_length ext_length;
  match r with
  | Some p => mret (inl p)
  | None =>
      ok ← Mgr.item_size_ok key_length data_length ext_length;
      mret (inr (if ok : bool then XIXI_REASON_OUT_OF_MEMORY else XIXI_REASON_TOO_LARGE))
  end.

(** [sub_op] by the constants of [peer_cache_pdu.h], lines 231-235. *)
Definition dispatch (sub_op : Z) (p : ptr) (watch_id : Z) : M (xixi_reason * option Z) :=
  if sub_op =? 0 then Mgr.set alive p watch_id
  else if sub_op =? 1 then Mgr.add p watch_id
  else if sub_op =? 2 then Mgr.replace alive p watch_id
  else if sub_op =? 3 then Mgr.append alive p watch_id
  else if sub_op =? 4 then Mgr.prepend alive p watch_id
  else mret (XIXI_REASON_UNKNOWN_COMMAND, None).
Definition end_update (sub_op : Z) (p : ptr) (cache_id_ watch_id : Z) : M (xixi_reason * option Z) :=
  Mgr.update_opt p (Item_Key.calc_hash_value e);;
  Mgr.update p (fun it => it <| cache_id := cache_id_ |>);;
  r ← dispatch sub_op p watch_id;
  Mgr.release_reference p;;
  mret r.
End store.
End Store.

Section store_reference.
Context (alive : sink -> bool).

Definition spec_dispatch (sub_op : Z) (k : key) (req : entry) (w id : Z) (oom : bool) (m : model)
    : xixi_reason * option Z * model :=
  if sub_op =? 0 then spec_update alive Set_ k req w id m
  else if sub_op =? 1 then spec_update alive Add_ k req w id m
  else if sub_op =? 2 then spec_update alive Replace_ k req w id m
  else if sub_op =? 3 then spec_extend alive false k (e_data req) (e_cache_id req) w id oom m
  else if sub_op =? 4 then spec_extend alive true k (e_data req) (e_cache_id req) w id oom m
  else (XIXI_REASON_UNKNOWN_COMMAND, None, m).

(** An update that does not give back the reference it took to the old entry. *)
Definition leaks (sub_op : Z) (k : key) (expected : Z) (m : cache) : bool :=
  ((sub_op =? 3) || (sub_op =? 4)) && mismatched k expected m.
End store_reference.

Section store_ops.
Context (e : endian) `{Table_Malloc} `{Item_Malloc} `{!Item_Malloc_Ok} (alive : sink -> bool).
Implicit Types (s : Cache_Mgr) (held : holds) (p : ptr) (it : Cache_Item) (k : key).

Lemma updated_base {A} s held k (spec : A * model) r s' : updated e s held spec r s' -> base_updated e s held k false spec r s'.
Proof. by intros (?&?&?). Qed.

Lemma dispatch_spec s held p it sub_op w :
  inv e s held -> roomy held -> own_item e s held p it ->
  wp (Store.dispatch alive sub_op p w) s (fun r s' => exists oom,
    base_updated e s held (key_of it) (leaks sub_op (key_of it) (cache_id it) (view s))
      (spec_dispatch alive sub_op (key_of it) (entry_of it) w (next_id (last_cache_id_ s)) oom (model_of s)) r s').
Proof.
  intros Hi Hr Ho. unfold Store.dispatch, spec_dispatch, leaks.
  destruct (Z.eqb_spec sub_op 0) as [->|].
  { eapply wp_mono; [by apply (set_spec e alive s held p it w)|]. intros r s' Hu. exists false. by apply updated_base. }
  destruct (Z.eqb_spec sub_op 1) as [->|].
  { eapply wp_mono; [by apply (add_spec e alive s held p it w)|]. intros r s' Hu. exists false. by apply updated_base. }
  destruct (Z.eqb_spec sub_op 2) as [->|].
  { eapply wp_mono; [by apply (replace_spec e alive s held p it w)|]. intros r s' Hu. exists false. by apply updated_base. }
  destruct (Z.eqb_spec sub_op 3) as [->|]; [by apply (extend_spec e alive false)|].
  destruct (Z.eqb_spec sub_op 4) as [->|]; [by apply (extend_spec e alive true)|].
  apply wp_ret. exists false. by split_and!.
Qed.

(** Giving the item back, at the end of an update. *)
Lemma wp_give_back {A} s0 s held k leak spec p (r : A) :
  base_updated e s0 held k leak spec r s -> roomy held -> (forall q, 0 <= held q) -> 0 < held p ->
  wp (Mgr.release_reference p ;; mret r) s (base_updated e s0 (give p (-1) held) k leak spec).
Proof.
  intros (Ht&Hs&Hl) Hr Hge Hp.
  set (h := give p (-1) held).
  assert (forall h', (forall q, h' q = held q \/ h' q = held q + 1) -> inv e s h' ->
    wp (Mgr.release_reference p) s (fun _ s' => inv e s' (give p (-1) h') /\ same_world s s' /\ view s' = view s /\
      linked s' = linked s /\ forall q itq, q ∈ linked s -> heap s !! q = Some itq ->
        exists itq', heap s' !! q = Some itq' /\ key_of itq' = key_of itq)) as Hrel.
  { intros h' Hh' Hi'. assert (held p <= h' p <= held p + 1) by (destruct (Hh' p); lia).
    destruct (held_heap e s h' p (inv_core e _ _ Hi')) as (itp&Hitp&_); [lia|].
    eapply (wp_release_old e s (give p (-1) h') p itp).
    - eapply inv_held; [|exact Hi']. intros q. rewrite give_give. by rewrite give_0.
    - intros q. pose proof (Hr q). unfold give. destruct (Hh' q); case_decide; lia.
    - intros q. pose proof (Hge q). unfold give. destruct (Hh' q), (decide (q = p)); subst; lia.
    - done.
    - intros s' Hi2 Hw2 Hv2 Hh2 _ Hl2 _ Hp2. split_and!; try done. intros q itq Hq Hitq.
      destruct (decide (q = p)) as [->|Hne]; [|rewrite Hh2 by done; eauto].
      rewrite (Hp2 Hq). rewrite Hitp in Hitq. injection Hitq as <-. eauto. }
  apply wp_bind. destruct leak.
  - destruct Hl as (q&itq&Hql&Hitq&Hk&Hi'). eapply wp_mono; [apply (Hrel (give q 1 held)); [|done]|].
    + intros x. unfold give. case_decide; auto.
    + intros _ s' (Hi2&Hw2&Hv2&Hl2&Hkeep). apply wp_ret. split; [by rewrite (sw_time _ _ Hw2)|].
      split; [by rewrite (model_world s s')|]. destruct (Hkeep q itq Hql Hitq) as (itq'&Hq'&Hk').
      exists q, itq'. split_and!; [by rewrite Hl2|done|congruence|].
      eapply inv_held; [|exact Hi2]. intros x. unfold h, give. repeat case_decide; lia.
  - eapply wp_mono; [apply (Hrel held); [auto|done]|].
    intros _ s' (Hi2&Hw2&Hv2&Hl2&_). apply wp_ret. split; [by rewrite (sw_time _ _ Hw2)|].
    split; [by rewrite (model_world s s')|done].
Qed.

(** The second half: the item that holds the key and the data of the request goes
    where the operation puts it, and the caller no longer holds it. *)
Lemma end_update_spec s held p it sub_op expected w :
  inv e s held -> roomy held -> raw_item s held p it ->
  wp (Store.end_update e alive sub_op p expected w) s (fun r s' => exists oom,
    base_updated e s (give p (-1) held) (key_of it) (leaks sub_op (key_of it) expected (view s))
      (spec_dispatch alive sub_op (key_of it) (entry_of (it <| cache_id := expected |>)) w
         (next_id (last_cache_id_ s)) oom (model_of s)) r s').
Proof.
  intros Hi Hr Hri. pose proof (c_held _ _ _ (inv_core e _ _ Hi)) as Hge. unfold Store.end_update.
  apply wp_bind. eapply (wp_raw_hash e s held p it); [done..|]. intros s1 Hi1 Ho1 Hu1 _.
  apply wp_bind. eapply (wp_own_expect e s1); [done..|]. intros s2 Hi2 Ho2 Hu2.
  pose proof (unseen_trans _ _ _ Hu1 Hu2) as [Hm Ht Hid _].
  apply wp_bind. eapply wp_mono; [by apply (dispatch_spec s2 held p _ sub_op w Hi2 Hr Ho2)|].
  intros r s3 [oom Hb]. eapply wp_mono; [|intros r' s' Hb'; exists oom; exact Hb'].
  eapply wp_give_back; [|done|done|apply Hri].
  rewrite Hm, Hid in Hb. assert (view s2 = view s) as Hv by (by injection Hm). rewrite Hv in Hb.
  destruct Hb as (Ht3&Hs3&Hl3). split; [by rewrite Ht3, Ht|]. by split.
Qed.
End store_ops.

(** ** A whole update *)
Record put_request := mk_put {
  put_sub_op : Z;
  put_group : Z;
  put_key : bytes;
  put_data : bytes;
  put_flags : Z;
  put_expiration : Z;
  put_expected : Z;
  put_watch : Z;
  put_ext : bytes
}.

(** The class of the largest items has no room for it. *)
Definition too_large (s : Cache_Mgr) (k d x : Z) : bool :=
  size_of (slab_ s) (class_id_max_ (slab_ s)) <? sizeof_Cache_Item + k + d + x.
Definition put_too_large (s : Cache_Mgr) (r : put_request) : bool :=
  too_large s (Z.of_nat (length (put_key r))) (Z.of_nat (length (put_data r))) (Z.of_nat (length (put_ext r))).

Section put.
Context (e : endian) `{Table_Malloc} `{Item_Malloc} (alive : sink -> bool).

(** Both halves, with the bytes of the body copied into the item between them. *)
Definition put (r : put_request) : M (xixi_reason * option Z) :=
  x ← Store.begin_update (put_group r) (Z.of_nat (length (put_key r))) (put_flags r) (put_expiration r)
        (Z.of_nat (length (put_data r))) (Z.of_nat (length (put_ext r)));
  match x with
  | inl p =>
      Mgr.update_opt p (Item.write 0 (put_key r ++ put_data r ++ put_ext r));;
      Store.end_update e alive (put_sub_op r) p (put_expected r) (put_watch r)
  | inr reason => mret (reason, None)
  end.
End put.

(** What it promises: [oom] and [oom'] tell that there was no memory for the item
    of the request, or for the item that [append] and [prepend] make. *)
Definition spec_put (alive : sink -> bool) (r : put_request) (large oom oom' : bool) (t id : Z) (m : model)
    : xixi_reason * option Z * model :=
  if large then (XIXI_REASON_TOO_LARGE, None, m)
  else if oom then (XIXI_REASON_OUT_OF_MEMORY, None, m)
  else spec_dispatch alive (put_sub_op r) (put_group r, put_key r)
         (mk_entry (put_flags r) (Current_Time.realtime t (put_expiration r)) (put_expected r) (put_data r) (put_ext r) [])
         (put_watch r) id oom' m.

Section put_ops.
Context (e : endian) `{Table_Malloc} `{Item_Malloc} `{!Item_Malloc_Ok} (alive : sink -> bool).
Implicit Types (s : Cache_Mgr) (held : holds) (p : ptr) (it : Cache_Item) (k : key).

Lemma wp_item_size_ok s held kl d x Q :
  inv e s held -> 0 <= kl -> 0 <= d -> 0 <= x -> sizeof_Cache_Item + kl + d + x < 2 ^ 32 ->
  (forall s', inv e s' held -> calm s s' -> Q (negb (too_large s kl d x)) s') ->
  wp (Mgr.item_size_ok kl d x) s Q.
Proof.
  intros Hi Hk Hd Hx Hs HQ. unfold Mgr.item_size_ok, Mgr.CALC_ITEM_SIZE.
  apply wp_bind. eapply wp_get_class_id; [done|apply wrap_range; lia|]. intros c s1 Hk1 Hi1 Hcl. apply wp_ret.
  rewrite wrap_small in Hcl by (unfold sizeof_Cache_Item in *; lia).
  replace (negb (c =? 0)) with (negb (too_large s kl d x)); [by apply HQ|]. f_equal. unfold too_large.
  pose proof (c_slab _ _ _ (inv_core e _ _ Hi)) as Hsl.
  destruct Hcl as [[Hc Hle]|[-> [Hn|Hn]]].
  - pose proof (SlabFacts.size_of_mono (slab_ s) c (class_id_max_ (slab_ s)) Hsl ltac:(lia) ltac:(lia)).
    destruct (Z.eqb_spec c 0), (Z.ltb_spec (size_of (slab_ s) (class_id_max_ (slab_ s))) (sizeof_Cache_Item + kl + d + x)); lia || done.
  - unfold sizeof_Cache_Item in *. lia.
  - by destruct (Z.ltb_spec (size_of (slab_ s) (class_id_max_ (slab_ s))) (sizeof_Cache_Item + kl + d + x)); [|lia].
Qed.

(** An item of the caller is not too large. *)
Lemma raw_fits s held p it : inv e s held -> raw_item s held p it -> too_large s (key_length it) (data_size it) (ext_size it) = false.
Proof.
  intros Hi Hri. pose proof (raw_wf e s held p it Hi Hri) as Hwf. pose proof (c_slab _ _ _ (inv_core e _ _ Hi)) as Hsl.
  pose proof (iw_class _ _ Hwf). pose proof (iw_fits _ _ Hwf). pose proof (iw_ext _ _ Hwf).
  pose proof (SlabFacts.size_of_mono (slab_ s) (class_id it) (class_id_max_ (slab_ s)) Hsl ltac:(lia) ltac:(lia)).
  unfold too_large. apply Z.ltb_ge. lia.
Qed.

Lemma too_large_calm s s' kl d x : calm s s' -> too_large s' kl d x = too_large s kl d x.
Proof.
  intros Hk. destruct (sc_slab _ _ (k_core _ _ Hk)) as [_ Hs]. unfold too_large.
  by rewrite (same_classes_max _ _ Hs), (same_classes_size _ _ _ Hs).
Qed.

(** The first half: an item of the caller, of its sizes, or the reason why not. *)
Lemma begin_update_spec s held g klen fl x dlen xlen Q :
  inv e s held -> 0 <= klen < 2 ^ 16 -> 0 <= dlen -> 0 <= xlen < 2 ^ 8 -> 0 <= x -> sizeof_Cache_Item + klen + dlen + xlen < 2 ^ 32 ->
  (forall p it s', inv e s' (give p 1 held) -> held p = 0 -> raw_item s' (give p 1 held) p it ->
     model_of s' = model_of s -> curr_time_ s' = curr_time_ s -> last_cache_id_ s' = last_cache_id_ s ->
     fresh_item g klen fl (Current_Time.realtime (time_of s) x) dlen xlen it -> too_large s klen dlen xlen = false -> Q (inl p) s') ->
  (forall s', inv e s' held -> calm s s' ->
     Q (inr (if too_large s klen dlen xlen then XIXI_REASON_TOO_LARGE else XIXI_REASON_OUT_OF_MEMORY)) s') ->
  wp (Store.begin_update g klen fl x dlen xlen) s Q.
Proof.
  intros Hi Hk Hd Hxl Hx Hs HQs HQn. unfold Store.begin_update. apply wp_bind.
  eapply (alloc_item_spec e s held); [done|done|done|done|done|done| |].
  - intros s1 Hi1 Hk1. apply wp_bind. eapply wp_item_size_ok; [done|lia|lia|lia|lia|]. intros s2 Hi2 Hk2. apply wp_ret.
    rewrite (too_large_calm s s1) by done. destruct (too_large s klen dlen xlen) eqn:El; cbn [negb].
    all: specialize (HQn s2 Hi2 (calm_trans _ _ _ Hk1 Hk2)); try rewrite El in HQn; exact HQn.
  - intros p it s1 Hi1 H0p Hri Hm1 Ht1 Hid1 Hf Hsl. apply wp_ret. eapply HQs; try done.
    pose proof (raw_fits _ _ _ _ Hi1 Hri) as Hfit. unfold too_large in *.
    rewrite (same_classes_max _ _ Hsl), (same_classes_size _ _ _ Hsl), (fi_key _ _ _ _ _ _ _ Hf), (fi_data _ _ _ _ _ _ _ Hf), (fi_ext _ _ _ _ _ _ _ Hf) in Hfit. done.
Qed.

Lemma region_middle (a b c : bytes) : region (Z.of_nat (length a)) (Z.of_nat (length b)) (a ++ b ++ c) = b.
Proof. unfold region. by rewrite !Nat2Z.id, drop_app_length, take_app_length. Qed.

(** The refinement: an update stores what the reference operation stores, and
    answers what it answers. *)
Lemma put_spec s held r :
  inv e s held -> roomy held -> Z.of_nat (length (put_key r)) < 2 ^ 16 -> Z.of_nat (length (put_data r)) <= 2 ^ 31 ->
  Z.of_nat (length (put_ext r)) < 2 ^ 8 -> 0 <= put_expiration r ->
  wp (put e alive r) s (fun a s' => exists oom oom',
    let k := (put_group r, put_key r) in
    let large := put_too_large s r in
    base_updated e s held k (negb (large || oom) && leaks (put_sub_op r) k (put_expected r) (view s))
      (spec_put alive r large oom oom' (time_of s) (next_id (last_cache_id_ s)) (model_of s)) a s').
Proof.
  intros Hi Hr Hk Hd Hxl Hx. unfold put, spec_put. apply wp_bind.
  eapply begin_update_spec; [done|lia|lia|lia|done|unfold sizeof_Cache_Item; lia| |].
  - intros p it s1 Hi1 H0p Hri Hm1 Ht1 Hid1 Hf Hfit. apply wp_bind. unfold put_too_large. rewrite Hfit.
    pose proof (raw_wf e _ _ _ _ Hi1 Hri) as Hwf. destruct (item_bounds _ it Hwf) as (?&?&?&Hb).
    destruct Hf as [Hfg Hfk Hff Hfe Hfd Hfx Hfw Hfi].
    eapply (wp_raw_write e s1 (give p 1 held) p it (fun _ => 0)); [done..|lia|rewrite !length_app; lia|].
    intros s2 b Hw Hi2 Hri2 Hu2 _. set (it2 := it <| body := b |>).
    assert (roomy (give p 1 held)) as Hr1.
    { intros q. unfold give. case_decide as Eq; [subst q; lia|apply Hr]. }
    eapply wp_mono; [by apply (end_update_spec e alive s2 (give p 1 held) p it2 (put_sub_op r) (put_expected r) (put_watch r))|].
    intros a s3 [oom Hb3]. exists false, oom. cbn zeta. cbn [negb andb orb].
    pose proof (mem_write_length _ _ _ _ Hw) as Hbl. pose proof (region_written _ _ _ _ Hw) as Hwr.
    assert (b = put_key r ++ put_data r ++ put_ext r ++ drop (length (put_key r ++ put_data r ++ put_ext r)) b) as Hbs.
    { unfold region in Hwr. rewrite Nat2Z.id in Hwr. change (drop (Z.to_nat 0) b) with b in Hwr.
      transitivity ((put_key r ++ put_data r ++ put_ext r) ++ drop (length (put_key r ++ put_data r ++ put_ext r)) b).
      - rewrite <- Hwr at 1. by rewrite take_drop.
      - by rewrite <- !(assoc_L (++)). }
    assert (region 0 (key_length it) b = put_key r /\ region (key_length it) (data_size it) b = put_data r /\
      region (key_length it + data_size it) (ext_size it) b = put_ext r) as (Hkey&Hdata&Hext).
    { rewrite Hfk, Hfd, Hfx, Hbs. split_and!; [apply (region_middle [])|apply region_middle|].
      rewrite (assoc_L (++) (put_key r)). rewrite <- Nat2Z.inj_add, <- length_app. apply region_middle. }
    replace (key_of it2) with (put_group r, put_key r) in Hb3 by (subst it2; unfold key_of; cbn; rewrite Hfg; f_equal; by rewrite <- Hkey).
    destruct Hu2 as [Hm2 Ht2 Hid2 _].
    assert (model_of s2 = model_of s) as Hm by congruence. assert (view s2 = view s) as Hv by (by injection Hm).
    rewrite Hm, Hv, Hid2, Hid1 in Hb3.
    replace (entry_of (it2 <| cache_id := put_expected r |>)) with
      (mk_entry (put_flags r) (Current_Time.realtime (time_of s) (put_expiration r)) (put_expected r) (put_data r) (put_ext r) []) in Hb3.
    2:{ subst it2. unfold entry_of. cbn -[region]. rewrite data_region, ext_region. cbn -[region].
      rewrite Hff, Hfe, Hdata, Hext, Hfw. done. }
    destruct Hb3 as (Ht3&Hs3&Hl3). split; [by rewrite Ht3, Ht2, Ht1|]. split; [done|].
    destruct (leaks _ _ _ _).
    + destruct Hl3 as (q&itq&?&?&?&Hi3). exists q, itq. split_and!; try done.
      eapply inv_held; [|exact Hi3]. intros x. unfold give. repeat case_decide; lia.
    + eapply inv_held; [|exact Hl3]. intros x. unfold give. repeat case_decide; lia.
  - intros s1 Hi1 Hk1. apply wp_ret. exists true, false. cbn zeta. rewrite orb_true_r. cbn [negb andb].
    split; [apply Hk1|]. split; [|done].
    rewrite (model_world s s1) by (by apply calm_world || apply view_core, Hk1). unfold put_too_large. by destruct (too_large _ _ _ _).
Qed.
End put_ops.

(** ** The cache at the start *)
Lemma replicate_concat {A} n : concat (replicate n ([] : list A)) = [].
Proof. by induction n. Qed.

Lemma empty_core e s :
  heap s = ∅ -> cache_hash_map_ s = Buckets.init 7 -> expire_list_ s = replicate 34 [] ->
  free_cache_list_ s = replicate 200 [] -> flush_cache_list_ s = [] -> mem_used_ s = 0 ->
  slab_wf (slab_ s) -> sizeof_Cache_Item <= size_of (slab_ s) 1 /\ size_of (slab_ s) (class_id_max_ (slab_ s)) <= 2 ^ 30 ->
  0 <= mem_limit_ s <= 2 ^ 35 -> core e s (fun _ => 0) /\ view s = ∅.
Proof.
  intros Hh Hm He Hf Hfl Hu Hsl Hz Hl.
  destruct (BucketsFacts.init_wf (Mgr.hv s) 7) as [Hwf Hc]; [lia|].
  split; [split|by unfold view; rewrite Hm, Hc]; unfold placed, refs; rewrite ?Hh, ?Hm, ?He, ?Hf, ?Hfl, ?Hu, ?Hc, ?replicate_concat; try done.
  - constructor.
  - intros i l p [-> _]%lookup_replicate Hp. by apply not_elem_of_nil in Hp.
Qed.

Lemma start_fields limit mx mn f t s :
  Mgr.start limit mx mn f t = Some s ->
  heap s = ∅ /\ cache_hash_map_ s = Buckets.init 7 /\ expire_list_ s = replicate 34 [] /\
  free_cache_list_ s = replicate 200 [] /\ flush_cache_list_ s = [] /\ mem_used_ s = 0 /\ mem_limit_ s = limit /\
  watch_map_ s = ∅ /\ curr_time_ s = Current_Time.init t /\ expire_check_time_ s = replicate 33 0 /\
  stats_ s = Stats.init <| max_class_id_ := class_id_max_ (slab_ s) |>.
Proof.
  unfold Mgr.start. generalize (Slab.init mx mn f Slab.start). intros [sl|] Hs; [|discriminate].
  apply (inj Some) in Hs. rewrite <- Hs. split_and!; reflexivity.
Qed.

Lemma start_inv e limit mx mn f t s :
  Mgr.start limit mx mn f t = Some s -> slab_ok (slab_ s) = true ->
  sizeof_Cache_Item <= size_of (slab_ s) 1 -> size_of (slab_ s) (class_id_max_ (slab_ s)) <= 2 ^ 30 ->
  0 <= limit <= 2 ^ 35 -> inv e s (fun _ => 0) /\ model_of s = (∅, ∅) /\ time_of s = 8.
Proof.
  intros Hs Hok H1 H2 Hl. apply start_fields in Hs as (Hh&Hm&He&Hf&Hfl&Hu&Hli&Hw&Ht&Hck&Hst).
  pose proof (SlabFacts.slab_ok_wf _ Hok) as Hsl.
  destruct (empty_core e s) as [Hc Hv]; try assumption; [by split|by rewrite Hli|].
  unfold model_of, time_of. rewrite Hv, Hw, Ht. split; [|by split]. split; [done|].
  split; rewrite ?Hst, ?Hw, ?Ht, ?Hck; [|apply map_Forall_empty|done|done].
  split_and!; [apply clear_wf|apply map_Forall_empty|].
  pose proof (wf_max _ Hsl). cbn. lia.
Qed.

(** ** Watches, statistics and the clock *)
Section other_ops.
Context (e : endian) `{Table_Malloc} `{Item_Malloc} (alive : sink -> bool) (conf : settings).
Implicit Types (s : Cache_Mgr) (held : holds).

(** Members that [core] does not mention. *)
Lemma inv_outside s s' held :
  inv e s held -> same_core s s' -> surroundings s' -> inv e s' held /\ view s' = view s.
Proof. intros [Hc _] Hs Hr. split; [split; [by eapply core_same|done]|by apply view_core]. Qed.

Lemma watch_init_wf id t : watch_wf (Cache_Watch.init id t).
Proof. split; cbn; done || lia. Qed.

Lemma wp_watch_id_loop n s held Q :
  inv e s held ->
  (forall id s', inv e s' held -> model_of s' = model_of s -> curr_time_ s' = curr_time_ s -> 
     (id = 0 \/ 0 < id < 2 ^ 32 /\ watch_map_ s !! id = None) -> Q id s') ->
  wp (Mgr.watch_id_loop n) s Q.
Proof.
  revert s. induction n as [|n IH]; intros s Hi HQ; cbn [Mgr.watch_id_loop].
  { apply wp_ret. apply HQ; auto. }
  apply wp_bind, wp_gets, wp_bind, wp_modify, wp_bind, wp_gets.
  set (id := if _ =? 0 then 1 else _). set (s1 := s <| last_watch_id_ := id |>).
  assert (inv e s1 held /\ view s1 = view s) as [Hi1 Hv1].
  { apply inv_outside; [done| |by destruct Hi as [_ []]]. split; try done. split; [apply (c_slab _ _ _ (inv_core e _ _ Hi))|apply same_classes_refl]. }
  change (watch_map_ s1) with (watch_map_ s). destruct (watch_map_ s !! id) eqn:E.
  - apply IH; [done|]. intros id' s' Hi' Hm' Ht' Hid'. apply HQ; try done.
  - apply wp_ret. apply HQ; try done. right. split; [|done].
    unfold id. pose proof (wrap_range 32 (last_watch_id_ s + 1)). destruct (Z.eqb_spec (u32 (last_watch_id_ s + 1)) 0); lia.
Qed.

(** [create_watch]: a new watch with an id that was not in use, or 0. *)
Lemma create_watch_spec s held g x :
  inv e s held ->
  wp (Mgr.create_watch g x) s (fun id s' => inv e s' held /\ curr_time_ s' = curr_time_ s /\ view s' = view s /\
    (id = 0 /\ watch_map_ s' = watch_map_ s \/
     0 < id < 2 ^ 32 /\ watch_map_ s !! id = None /\
     watch_map_ s' = <[id := Cache_Watch.init id (Current_Time.realtime (time_of s) x)]> (watch_map_ s))).
Proof.
  intros Hi. unfold Mgr.create_watch. apply wp_bind. eapply wp_watch_id_loop; [done|].
  intros id s1 Hi1 Hm1 Ht1 Hid. assert (view s1 = view s /\ watch_map_ s1 = watch_map_ s) as [Hv1 Hw1] by (by injection Hm1).
  destruct (Z.eqb_spec id 0) as [->|Hne]; cbn [negb].
  - apply wp_bind, wp_ret, wp_ret. split_and!; try done. by left.
  - destruct Hid as [|[Hr Hn]]; [done|]. apply wp_bind, wp_bind, wp_realtime, wp_bind, wp_modify.
    set (s2 := s1 <| watch_map_ ::= _ |>).
    assert (inv e s2 held /\ view s2 = view s1) as [Hi2 Hv2].
    { apply inv_outside; [done| |destruct Hi1 as [_ []]; split; try done].
      - split; try done. split; [apply (c_slab _ _ _ (inv_core e _ _ Hi1))|apply same_classes_refl].
      - apply map_Forall_insert_2; [apply watch_init_wf|done]. }
    eapply wp_stat; [done|solve_event|]. intros s3 Hk3 Hi3. apply wp_ret.
    split; [done|]. split; [by rewrite (k_time _ _ Hk3)|]. split; [by rewrite (view_core _ _ (k_core _ _ Hk3)), Hv2, Hv1|].
    right. split_and!; [lia..|done|]. rewrite (k_watch _ _ Hk3). cbn. rewrite Hw1. unfold time_of. by rewrite Ht1.
Qed.
End other_ops.

Section callback_ops.
Context (e : endian) `{Table_Malloc} `{Item_Malloc} (alive : sink -> bool) (conf : settings).
Implicit Types (s : Cache_Mgr) (held : holds).

(** A watch changes. *)
Lemma inv_watch s held id w l :
  inv e s held -> watch_wf w ->
  inv e (s <| watch_map_ ::= <[id := w]> |> <| notified_ := l |>) held /\
  view (s <| watch_map_ ::= <[id := w]> |> <| notified_ := l |>) = view s.
Proof.
  intros Hi Hw. apply (inv_outside e); [done| |].
  - split; try done. split; [apply (c_slab _ _ _ (inv_core e _ _ Hi))|apply same_classes_refl].
  - destruct Hi as [_ []]. split; try done. by apply map_Forall_insert_2.
Qed.

(** What the check of a watch does to the watches, and what it hands out. *)
Definition spec_watch (f : watch -> option (answer * watch)) (id : Z) (ws : gmap Z watch) : option (answer * gmap Z watch) :=
  match ws !! id with
  | Some w => match f w with Some (a, w) => Some (a, <[id := w]> ws) | None => None end
  | None => None
  end.

(** The state after a check: the invariant, and the answer and the watches of the
    reference operation; no such watch, no answer. *)
Definition checked s held (spec : option (answer * gmap Z watch)) (r : option answer) s' : Prop :=
  inv e s' held /\ curr_time_ s' = curr_time_ s /\ view s' = view s /\
  match spec with
  | Some (a, ws) => r = Some a /\ watch_map_ s' = ws
  | None => r = None /\ watch_map_ s' = watch_map_ s
  end.

Lemma check_watch_spec s held sp g id ack x :
  inv e s held ->
  wp (Mgr.check_watch_and_set_callback alive sp g id ack x no_answer) s
    (checked s held (spec_watch (fun w => '(a, _, w) ← check_and_set_callback alive sp ack (Current_Time.realtime (time_of s) x) no_answer w; Some (a, w))
       id (watch_map_ s))).
Proof.
  intros Hi. unfold Mgr.check_watch_and_set_callback, spec_watch. apply wp_bind, wp_gets.
  destruct (watch_map_ s !! id) as [w|] eqn:E.
  - apply wp_bind, wp_realtime. pose proof (s_watches _ (proj2 Hi) id w E) as Hw.
    destruct (watch_step_spec alive (Check sp ack (Current_Time.realtime (time_of s) x)) w Hw) as (a&calls&w'&Hst&Hw'&_).
    cbn [watch_step] in Hst. fold (time_of s). rewrite Hst. cbn [mbind option_bind].
    apply wp_bind. eapply wp_the; [done|]. apply wp_bind, wp_modify. cbn [fst snd].
    destruct (inv_watch s held id w' (notified_ s ++ calls) Hi Hw') as [Hi1 Hv1].
    apply wp_bind. eapply wp_stat; [exact Hi1|solve_event|]. intros s2 Hk2 Hi2. apply wp_ret.
    split; [done|]. split; [by rewrite (k_time _ _ Hk2)|]. split; [rewrite (view_core _ _ (k_core _ _ Hk2)); exact Hv1|].
    split; [done|]. by rewrite (k_watch _ _ Hk2).
  - apply wp_bind. eapply wp_stat; [done|solve_event|]. intros s2 Hk2 Hi2. apply wp_ret.
    split; [done|]. split; [apply Hk2|]. split; [by rewrite (view_core _ _ (k_core _ _ Hk2))|]. split; [done|apply Hk2].
Qed.

Lemma clear_watch_spec s held sp id :
  inv e s held ->
  wp (Mgr.check_watch_and_clear_callback alive sp id no_answer) s
    (checked s held (spec_watch (check_and_clear_callback alive sp no_answer) id (watch_map_ s))).
Proof.
  intros Hi. unfold Mgr.check_watch_and_clear_callback, spec_watch. apply wp_bind, wp_gets.
  destruct (watch_map_ s !! id) as [w|] eqn:E; [|by apply wp_ret].
  pose proof (s_watches _ (proj2 Hi) id w E) as Hw.
  destruct (watch_step_spec alive (Clear sp) w Hw) as (a&calls&w'&Hst&Hw'&_). cbn [watch_step] in Hst.
  destruct (check_and_clear_callback alive sp no_answer w) as [[a0 w0]|]; [|done]. injection Hst as -> <- ->.
  apply wp_bind. eapply wp_the; [done|]. apply wp_bind, wp_modify, wp_ret. cbn [fst snd].
  destruct (inv_watch s held id w' (notified_ s) Hi Hw') as [Hi1 Hv1]. by split_and!.
Qed.

(** The statistics: nothing a client of the cache sees changes. *)
Lemma inv_stats s held st : inv e s held -> stats_wf st -> inv e (s <| stats_ := st |>) held /\ calm s (s <| stats_ := st |>).
Proof.
  intros Hi Hst. assert (calm s (s <| stats_ := st |>)) as Hk.
  { split; try done. split; try done. split; [apply (c_slab _ _ _ (inv_core e _ _ Hi))|apply same_classes_refl]. }
  split; [|done]. eapply calm_inv; [done..|]. destruct Hi as [_ []]. by split.
Qed.

Lemma stats_cmd_spec s held sub_op g cls :
  inv e s held -> wp (Mgr.stats_cmd conf sub_op g cls) s (fun _ s' => inv e s' held /\ calm s s').
Proof.
  intros Hi. pose proof (s_stats _ (proj2 Hi)) as Hst. destruct (group_commands_wf _ Hst) as (Hadd&Hrem&Hget&Hsum).
  assert (forall A (m : ST stats A) f, wp m (stats_ s) (fun _ st => stats_wf st) ->
    wp (r ← on stats_ (fun st s => s <| stats_ := st |>) m; mret (f r : bytes)) s (fun _ s' => inv e s' held /\ calm s s')) as Hin.
  { intros A m f Hm. apply wp_bind, wp_on. eapply wp_mono; [exact Hm|]. intros r st Hwf. apply wp_ret. by apply inv_stats. }
  unfold Mgr.stats_cmd. cbn zeta. repeat case_match.
  - apply Hin, Hadd.
  - apply Hin, Hrem.
  - apply wp_bind, wp_gets, wp_ret, Hin. eapply wp_mono; [apply Hget|]. by intros ? ? ->.
  - apply wp_bind, wp_gets, wp_ret, Hin. eapply wp_mono; [apply Hsum|]. by intros ? ? ->.
  - apply wp_ret. split; [done|]. by eapply calm_refl.
Qed.

Lemma print_stats_spec s held : inv e s held -> wp Mgr.print_stats s (fun _ s' => inv e s' held /\ calm s s').
Proof.
  intros Hi. unfold Mgr.print_stats. apply wp_bind, wp_now, wp_bind, wp_gets. case_match.
  - apply wp_modify. set (s1 := s <| last_print_stats_time_ := _ |>).
    assert (calm s s1) as Hk.
    { split; try done. split; try done. split; [apply (c_slab _ _ _ (inv_core e _ _ Hi))|apply same_classes_refl]. }
    split; [|done]. eapply calm_inv; [done..|]. destruct Hi as [_ []]. by split.
  - apply wp_ret. split; [done|]. by eapply calm_refl.
Qed.

(** The timer: only the clock moves. *)
Lemma tick_spec s held n :
  inv e s held -> 0 <= n ->
  wp (Mgr.tick n) s (fun _ s' => inv e s' held /\ model_of s' = model_of s /\ last_cache_id_ s' = last_cache_id_ s /\
    curr_time_ s' = Current_Time.set_current_time n (curr_time_ s)).
Proof.
  intros Hi Hn. apply wp_modify. set (s1 := s <| curr_time_ ::= _ |>).
  destruct (inv_outside e s s1 held Hi) as [Hi1 Hv1].
  - split; try done. split; [apply (c_slab _ _ _ (inv_core e _ _ Hi))|apply same_classes_refl].
  - destruct Hi as [_ [? ? Ht ?]]. split; try done. subst s1. cbn [curr_time_ set const].
    unfold Current_Time.set_current_time, Current_Time.get_current_time in *. case_match; cbn [Current_Time.current_time_ set const]; [|done].
    unfold set; cbn. solve_range.
  - split; [done|]. split; [by unfold model_of; rewrite Hv1|done].
Qed.

(** A caller gives back a reference it holds. *)
Lemma release_spec s held p :
  inv e s held -> roomy held -> 0 < held p ->
  wp (Mgr.release_reference p) s (updated e s (give p (-1) held) (tt, model_of s)).
Proof.
  intros Hi Hr Hp. pose proof (c_held _ _ _ (inv_core e _ _ Hi)) as Hge.
  destruct (held_heap e s held p (inv_core e _ _ Hi) Hp) as (it&Hit&_).
  eapply (wp_release_old e s (give p (-1) held) p it).
  - eapply inv_held; [|exact Hi]. intros q. by rewrite give_give, give_0.
  - intros q. pose proof (Hr q). unfold give. case_decide; lia.
  - intros q. pose proof (Hge q). unfold give. case_decide; subst; lia.
  - done.
  - intros s' Hi' Hw Hv _ _ _ _ _. split; [done|]. split; [apply Hw|]. by rewrite (model_world s s').
Qed.
End callback_ops.
