(* ===== verification/CacheLoad.v ===== *)
(** * Loading a file into the cache

    [load_from_file]: the item of a file is made, filled and linked, unless the key
    has come into the cache in the meantime. *)

From S2P Require Import Prelude XixiList XixiHashMap Lookup3 Util CurrTime Pdu Stats Watch Slab Cache CacheInv CacheSpec CacheOps CacheData CacheStore.
Import Cache_Watch.

Section load.
Context (e : endian) `{Table_Malloc} `{Item_Malloc} `{!Item_Malloc_Ok}.
Implicit Types (s : Cache_Mgr) (held : holds) (p : ptr) (it : Cache_Item) (k : key).

(** The key, the content and the type are copied to the new item. *)
Definition fill (p : ptr) (key data : bytes) (type : option bytes) : M unit :=
  Mgr.update_opt p (Item.write 0 key);;
  Mgr.update_opt p (fun it => Item.write (Item.data_at it) data it);;
  match type with
  | Some t => Mgr.update_opt p (Item_Key.set_ext t)
  | None => mret tt
  end.
Lemma wp_fill s held g x p it key data type Q :
  inv e s held -> raw_item s held p it ->
  fresh_item g (Z.of_nat (length key)) 0 x (Z.of_nat (length data)) (Z.of_nat (length (default [] type))) it ->
  (forall s' it', inv e s' held -> raw_item s' held p it' -> unseen s s' -> slab_ s' = slab_ s -> key_of it' = (g, key) ->
     entry_of it' = mk_entry 0 x 0 data (default [] type) [] -> Q tt s') ->
  wp (fill p key data type) s Q.
Proof.
  intros Hi Hri Hf HQ. pose proof (raw_wf e s held p it Hi Hri) as Hwf. destruct (item_bounds _ it Hwf) as (Hk0&Hd0&Hx0&Hb).
  destruct Hf as [Hg Hk Hfl Hx Hd Hxl Hw Hid]. unfold fill. apply wp_bind.
  eapply (wp_raw_write e s held p it (fun _ => 0)); [done..|lia|lia|]. intros s1 b1 Hw1 Hi1 Hri1 Hu1 Hs1.
  pose proof (mem_write_length _ _ _ _ Hw1) as Hl1. apply wp_bind.
  eapply (wp_raw_write e s1 held p _ Item.data_at); [done..|unfold Item.data_at; cbn; lia|unfold Item.data_at; cbn; lia|].
  intros s2 b2 Hw2 Hi2 Hri2 Hu2 Hs2. pose proof (mem_write_length _ _ _ _ Hw2) as Hl2.
  cbn in Hw2, Hl2. unfold Item.data_at in Hw2. cbn in Hw2.
  assert (region 0 (key_length it) b2 = key) as Hkey.
  { rewrite (region_kept _ _ _ _ _ _ Hw2) by lia. rewrite Hk. exact (region_written _ _ _ _ Hw1). }
  assert (region (key_length it) (data_size it) b2 = data) as Hdata by (rewrite Hd; exact (region_written _ _ _ _ Hw2)).
  assert (forall b, region 0 (key_length it) b = key -> region (key_length it) (data_size it) b = data ->
    region (key_length it + data_size it) (ext_size it) b = default [] type ->
    key_of (it <| body := b |>) = (g, key) /\ entry_of (it <| body := b |>) = mk_entry 0 x 0 data (default [] type) []) as Hend.
  { intros b E1 E2 E3. split; [unfold key_of; cbn; rewrite Hg; f_equal; exact E1|]. unfold entry_of. rewrite data_region, ext_region.
    cbn -[region]. by rewrite E2, E3, Hfl, Hx, Hid, Hw. }
  destruct type as [t|]; cbn [default from_option id] in *.
  - unfold Item_Key.set_ext. assert (mem_read 0 (ext_size it) t = Some t) as Ht by (rewrite mem_read_region, region_all by lia; done).
    destruct (mem_write_some (Item.ext_at it) t b2) as [b3 Hb3]; [unfold Item.ext_at; lia|unfold Item.ext_at; lia|].
    destruct (raw_touch e s2 held p _ (it <| body := b3 |>) Hi2 Hri2) as (Hi3&Hri3&Hu3).
    { cbn. by rewrite (mem_write_length _ _ _ _ Hb3). } { done. }
    { pose proof (raw_wf e s2 held p _ Hi2 Hri2) as Hwf2. destruct Hwf2. split; try done. cbn. by rewrite (mem_write_length _ _ _ _ Hb3). } { done. }
    eapply wp_update_opt; [apply Hri2|refine (eq_trans (f_equal (fun o => match o with Some x => Item.write (Item.ext_at it) x _ | None => None end) Ht) _);
      unfold Item.write; refine (eq_trans (f_equal (fun o => match o with Some b => Some _ | None => None end) Hb3) eq_refl)|].
    eapply HQ; [exact Hi3|exact Hri3|by eauto using unseen_trans|cbn; congruence|apply Hend..].
    all: unfold Item.ext_at in Hb3; try (rewrite (region_kept _ _ _ _ _ _ Hb3) by lia; done).
    all: rewrite Hxl; exact (region_written _ _ _ _ Hb3).
  - apply wp_ret. eapply HQ; [exact Hi2|exact Hri2|by eapply unseen_trans|congruence|apply Hend..]; try done.
    all: rewrite Hxl; reflexivity.
Qed.


Definition suffix_of (key : bytes) : bytes :=
  match Str.get_suffix key (Z.of_nat (length key)) with Some (o, n) => take (Z.to_nat n) (drop (Z.to_nat o) key) | None => [] end.
(** What is handed out: the entry of the key, which was there or is the file's. *)
Record loaded_item s held k (new : entry) w p s' : Prop := {
  li_inv : inv e s' (give p 1 held);
  li_item : exists it, heap s' !! p = Some it /\ p ∈ linked s' /\ key_of it = k /\
    view s' = match view s !! k with Some _ => view s | None => <[k := stored (next_id (last_cache_id_ s)) w new]> (view s) end /\
    view s' !! k = Some (entry_of it)
}.
Lemma load_spec file mime s held g key w x content :
  let type := mime (suffix_of key) in let k := (g, key) in
  inv e s held -> roomy held -> file key = Some content -> Z.of_nat (length key) < 2 ^ 16 -> Z.of_nat (length content) <= 2 ^ 31 ->
  Z.of_nat (length (default [] type)) < 2 ^ 8 -> 0 <= x ->
  wp (Mgr.load_from_file e file mime g key w x) s (fun r s' => curr_time_ s' = curr_time_ s /\
    match r.1 with
    | Some p => r.2 = XIXI_REASON_SUCCESS /\
        loaded_item s held k (mk_entry 0 (Current_Time.realtime (time_of s) x) 0 content (default [] type) []) w p s'
    | None => inv e s' held /\ view s' = view s /\
        r.2 ∈ [XIXI_REASON_OUT_OF_MEMORY; XIXI_REASON_TOO_LARGE; XIXI_REASON_WATCH_NOT_FOUND]
    end).
Proof.
  intros type k Hi Hr Hfile Hk Hc Ht Hx. unfold Mgr.load_from_file. rewrite Hfile. cbv zeta. fold (suffix_of key). fold type.
  pose proof (c_held _ _ _ (inv_core e _ _ Hi)) as Hge.
  assert (u32 (Z.of_nat (length content)) = Z.of_nat (length content)) as -> by (apply wrap_small; lia).
  rewrite (firstn_all2 content) by lia. apply wp_bind.
  eapply (alloc_item_spec e s held); [done|lia|lia|lia|done|unfold sizeof_Cache_Item; lia| |].
  - intros s1 Hi1 Hk1. apply wp_bind. eapply (wp_item_size_ok e); [done|lia|lia|lia|unfold sizeof_Cache_Item; lia|]. intros s2 Hi2 Hk2. apply wp_ret.
    pose proof (calm_unseen _ _ (calm_trans _ _ _ Hk1 Hk2)) as [Hm2 Ht2 _ _]. split; [done|]. cbn [fst snd]. split; [done|]. split; [by injection Hm2|].
    destruct (negb _); set_solver.
  - intros p it s1 Hi1 H0p Hri Hm1 Ht1 Hid1 Hf Hsl.
    assert (forall q, give p 1 held q < 2 ^ 16 - 4) as Hroom by (intros q; pose proof (Hr q); unfold give; case_decide; lia).
    pose proof (wp_fill s1 (give p 1 held) g _ p it key content type (fun _ s' => exists it', inv e s' (give p 1 held) /\ raw_item s' (give p 1 held) p it' /\
      unseen s1 s' /\ key_of it' = k /\ entry_of it' = mk_entry 0 (Current_Time.realtime (time_of s) x) 0 content (default [] type) []) Hi1 Hri Hf) as Hfill.
    specialize (Hfill ltac:(intros; eexists; by split_and!)). unfold fill in Hfill.
    apply wp_bind_inv in Hfill. apply wp_bind. apply (wp_mono _ _ _ _ Hfill). clear Hfill. intros [] s2 Hfill.
    apply wp_bind_inv in Hfill. apply wp_bind. apply (wp_mono _ _ _ _ Hfill). clear Hfill. intros [] s3 Hfill.
    apply wp_bind. apply (wp_mono _ _ _ _ Hfill). clear Hfill. intros [] s4 (it4&Hi4&Hri4&Hu4&Hk4&He4).
    apply wp_bind. eapply (wp_raw_hash e s4 (give p 1 held) p it4); [done..|]. intros s5 Hi5 Ho5 Hu5 _.
    pose proof (unseen_trans _ _ _ Hu4 Hu5) as [Hm5 Ht5 Hid5 _]. set (it5 := it4 <| hash_value_ := _ |>) in *.
    assert (key_of it5 = k) as Hk5 by exact Hk4. assert (view s5 = view s) as Hv5.
    { assert (model_of s5 = model_of s) as Hm by congruence. by injection Hm. }
    assert (curr_time_ s5 = curr_time_ s /\ last_cache_id_ s5 = last_cache_id_ s) as [Htt Hidd] by (split; congruence).
    apply wp_bind. eapply wp_item; [apply Ho5|]. apply wp_bind.
    assert (hash_value_ it5 = hash_key e k.1 k.2) as -> by (change (hash_key e (key_of it4).1 (key_of it4).2 = hash_key e k.1 k.2); by rewrite Hk4).
    change (Mgr.do_get g key) with (Mgr.do_get k.1 k.2).
    eapply (wp_do_get e s5); [done|exact Hroom| |].
    + rewrite Hv5. intros Hnone. pose proof (inv_core e _ _ Hi5) as Hc5.
      destruct (own_wf e s5 _ p it5 Hc5 Ho5) as [Hwf5 _]. pose proof (class_range _ _ (c_slab _ _ _ Hc5) Hwf5) as Hcl5.
      apply wp_bind. eapply (wp_link_new e s5 (give p 1 held) p it5); [done|done|by apply Hroom|by rewrite Hv5, Hk5|solve_event..| |].
      * intros s6 it6 Hi6 Hw6 _ Hp6 Hid6 Hk6 He6 Hl6 Hv6. rewrite decide_True by done. apply wp_ret. split; [rewrite (sw_time _ _ Hw6); done|]. split; [done|].
        split; [done|]. exists it6. rewrite Hnone. split; [done|]. split; [done|]. split; [congruence|].
        rewrite Hidd in *. assert (entry_of it5 = entry_of it4) as E5 by done. rewrite E5, He4, Hk5, Hv5 in *. rewrite He6. split; [done|]. by rewrite Hv6, lookup_insert_eq.
      * intros s6 Hi6 Hw6 _ Ho6 Hv6. rewrite decide_False by done. apply wp_bind.
        eapply (wp_release_new e s6 held p it5); [exact Hi6|by apply roomy_room|done|apply Ho6|]. intros s7 Hi7 Hm7 Ht7 _. apply wp_ret.
        cbn [fst snd]. split; [rewrite Ht7, (sw_time _ _ Hw6); done|]. split; [done|]. split; [injection Hm7; congruence|set_solver].
    + intros o oit Hol Hoit Hko Hvo Hi6. pose proof (own_linked e s5 _ p it5 (inv_core e _ _ Hi5) Ho5) as Hnl.
      assert (o <> p) as Hne by (intros ->; done). apply wp_bind.
      eapply (wp_release_old e _ (give o 1 held) p it5).
      * eapply inv_held; [|exact Hi6]. intros q. unfold give. repeat case_decide; lia.
      * by apply room_give.
      * intros q. pose proof (Hge q). unfold give. case_decide; lia.
      * cbn. rewrite lookup_insert_ne by done. apply Ho5.
      * intros s7 Hi7 Hw7 Hv7 Hh7 _ Hl7 _ _. apply wp_ret. cbn [fst snd]. split; [rewrite (sw_time _ _ Hw7); done|]. split; [done|].
        assert (view s7 = view s) as Hvs by (rewrite Hv7; etransitivity; [by eapply view_with_ref|done]).
        split; [done|]. exists (with_ref oit). split; [rewrite (Hh7 o Hne); apply lookup_insert_eq|]. split; [by rewrite Hl7|]. split; [done|].
        rewrite Hvs, <- Hv5. split; [by rewrite Hvo|]. exact Hvo.
Qed.
End load.
