(* ===== verification/CacheRun.v ===== *)
(** * The cache as its clients see it: runs of requests

    [run_request] is a call of a client, as [Peer_Cache] and the timer make them;
    [reaches] are the runs of the cache from [Cache_Mgr]'s start, with the
    references the clients hold; [spec_step] is the finite map with watches they
    are compared with. *)

From S2P Require Import Prelude XixiList XixiHashMap Lookup3 Util CurrTime Pdu Stats Watch Slab Cache CacheInv CacheSpec CacheOps CacheData CacheSweep CacheStore.
Import Cache_Watch.

Inductive request :=
  | Put (r : put_request)
  | Get (k : key) (watch_id : Z) (is_base : bool)
  | Get_touch (k : key) (watch_id expiration : Z)
  | Update_flags (k : key) (expected flags : Z)
  | Update_expiration (k : key) (expected expiration : Z)
  | Delete (k : key) (expected : Z)
  | Delta (k : key) (incr : bool) (delta expected : Z)
  | Flush_group (group : Z)
  | Create_watch (group interval : Z)
  | Check_watch (sp : option sink) (group watch_id ack interval : Z)
  | Clear_watch (sp : option sink) (watch_id : Z)
  | Stats_cmd (sub_op group cls : Z)
  | Check_expired
  | Print_stats
  | Tick (reading : Z)
  | Release (p : ptr).

Inductive reply :=
  | Updated (reason : xixi_reason) (id : option Z)
  | Found (reason : xixi_reason) (en : option (entry * Z))
  | Based (ok : bool) (id : Z)
  | Removed (reason : xixi_reason)
  | Counted (reason : xixi_reason) (id value : Z)
  | Flushed (count size : Z)
  | Watched (id : Z)
  | Answered (a : option answer)
  | Text (b : bytes)
  | Done.

Section requests.
Context (e : endian) `{Table_Malloc} `{Item_Malloc} (alive : sink -> bool) (conf : settings).

(** What is found is read: the entry, and the pointer the client now holds. *)
Definition read_found (r : option (ptr * Z) * xixi_reason) : M (reply * option ptr) :=
  match r.1 with
  | Some (p, x) => it ← Mgr.item p; mret (Found r.2 (Some (entry_of it, x)), Some p)
  | None => mret (Found r.2 None, None)
  end.

Definition run_request (r : request) : M (reply * option ptr) :=
  match r with
  | Put r => r ← put e alive r; mret (Updated r.1 r.2, None)
  | Get k w is_base => r ← Mgr.get e alive k.1 k.2 w is_base; read_found r
  | Get_touch k w x => r ← Mgr.get_touch e k.1 k.2 w x; read_found ((fun p => (p, 0)) <$> r.1, r.2)
  | Update_flags k expected fl => r ← Mgr.update_flags e alive k.1 k.2 expected fl; mret (Based r.1 r.2, None)
  | Update_expiration k expected x => r ← Mgr.update_expiration e k.1 k.2 expected x; mret (Based r.1 r.2, None)
  | Delete k expected => r ← Mgr.remove e alive k.1 k.2 expected; mret (Removed r, None)
  | Delta k incr d expected => r ← Mgr.delta e alive k.1 k.2 incr d expected; mret (Counted r.1.1 r.1.2 r.2, None)
  | Flush_group g => r ← Mgr.flush alive g; mret (Flushed r.1 r.2, None)
  | Create_watch g x => id ← Mgr.create_watch g x; mret (Watched id, None)
  | Check_watch sp g id ack x =>
      a ← Mgr.check_watch_and_set_callback alive sp g id ack x no_answer; mret (Answered a, None)
  | Clear_watch sp id => a ← Mgr.check_watch_and_clear_callback alive sp id no_answer; mret (Answered a, None)
  | Stats_cmd sub_op g cls => b ← Mgr.stats_cmd conf sub_op g cls; mret (Text b, None)
  | Check_expired => Mgr.check_expired alive;; mret (Done, None)
  | Print_stats => Mgr.print_stats;; mret (Done, None)
  | Tick n => Mgr.tick n;; mret (Done, None)
  | Release p => Mgr.release_reference p;; mret (Done, None)
  end.

(** The requests the cache is made for: a key of less than 2^16 bytes, data of at most
    2^31 and a type of less than 2^8; expirations that are unsigned; a delta of a
    number that ends inside of its data and a sum that fits 64 bits, unless the cache
    id does not match; the release of a reference that is held.  What is done with
    others, [huge_update_overreads] and [Util.parse_reads_past_the_data] show. *)
Definition allowed (s : Cache_Mgr) (held : holds) (r : request) : Prop :=
  match r with
  | Put r => Z.of_nat (length (put_key r)) < 2 ^ 16 /\ Z.of_nat (length (put_data r)) <= 2 ^ 31 /\
      Z.of_nat (length (put_ext r)) < 2 ^ 8 /\ 0 <= put_expiration r
  | Get_touch _ _ x | Update_expiration _ _ x => 0 <= x
  | Delta k incr d expected => forall en, view s !! k = Some en -> matches expected en = true -> is_Some (delta_of incr d (e_data en))
  | Tick n => 0 <= n
  | Release p => 0 < held p
  | _ => True
  end.

(** ** The reference: a finite map with watches

    [spec_step t r a m m']: at time [t] the request [r] is answered [a] and takes
    the map and the watches from [m] to [m'].  Not determined are: the cache id of
    a new entry, whether memory is found for one, the id of a new watch, the text
    of the statistics, and which of the expired entries a sweep finds. *)
Definition spec_step (t : Z) (r : request) (a : reply) (m m' : model) : Prop :=
  match r with
  | Put r => exists large oom oom' id reason oid,
      a = Updated reason oid /\ (reason, oid, m') = spec_put alive r large oom oom' t id m
  | Get k w _ => exists reason en, a = Found reason en /\ (reason, en, m') = spec_get alive k w t m
  | Get_touch k w x => exists reason en, a = Found reason ((fun en => (en, 0)) <$> en) /\
      (reason, en, m') = spec_get_touch k w (Current_Time.realtime t x) m
  | Update_flags k expected fl => exists id b i, a = Based b i /\ (b, i, m') = spec_update_flags alive k expected fl id m
  | Update_expiration k expected x => exists b i,
      a = Based b i /\ (b, i, m') = spec_update_expiration k expected (Current_Time.realtime t x) m
  | Delete k expected => exists reason, a = Removed reason /\ (reason, m') = spec_remove alive k expected m
  | Delta k incr d expected => exists oom id reason i v,
      a = Counted reason i v /\ (reason, i, v, m') = spec_delta alive k incr d expected id oom m
  | Flush_group g => exists vs, vs ≡ₚ base.filter (in_group g) (map_to_list m.1) /\
      a = Flushed (u32 (Z.of_nat (length vs))) (u64 (total_of vs)) /\ m' = swept alive WATCH_NOTIFY_TYPE_FLUSHED vs m
  | Create_watch g x => exists id, a = Watched id /\
      (id = 0 /\ m' = m \/
       0 < id < 2 ^ 32 /\ m.2 !! id = None /\ m' = (m.1, <[id := Cache_Watch.init id (Current_Time.realtime t x)]> m.2))
  | Check_watch sp _ id ack x =>
      match spec_watch (fun w => '(a, _, w) ← check_and_set_callback alive sp ack (Current_Time.realtime t x) no_answer w; Some (a, w)) id m.2 with
      | Some (an, ws) => a = Answered (Some an) /\ m' = (m.1, ws)
      | None => a = Answered None /\ m' = m
      end
  | Clear_watch sp id =>
      match spec_watch (check_and_clear_callback alive sp no_answer) id m.2 with
      | Some (an, ws) => a = Answered (Some an) /\ m' = (m.1, ws)
      | None => a = Answered None /\ m' = m
      end
  | Stats_cmd _ _ _ => exists b, a = Text b /\ m' = m
  | Check_expired => a = Done /\
      (m' = m \/ exists vs, vs ⊆+ base.filter (past t) (map_to_list m.1) /\
         m' = swept alive WATCH_NOTIFY_TYPE_EXPIRED vs (m.1, spec_expire_watchs t m.2))
  | Print_stats | Tick _ | Release _ => a = Done /\ m' = m
  end.

Definition spec_clock (r : request) (c : Current_Time.clock) : Current_Time.clock :=
  match r with Tick n => Current_Time.set_current_time n c | _ => c end.

(** ** The references of the clients *)

(** The key of the item whose reference an update loses. *)
Definition leaked (r : request) (a : reply) (m : cache) : option key :=
  match r, a with
  | Put r, Updated XIXI_REASON_MISMATCH _ =>
      let k := (put_group r, put_key r) in if leaks (put_sub_op r) k (put_expected r) m then Some k else None
  | Update_flags k expected _, _ | Update_expiration k expected _, _ => if mismatched k expected m then Some k else None
  | _, _ => None
  end.
Definition owns (r : request) (a : reply) (o : option ptr) (s s' : Cache_Mgr) (held held' : holds) : Prop :=
  match o, r, leaked r a (view s) with
  | Some p, _, _ => held' = give p 1 held
  | None, Release p, _ => held' = give p (-1) held
  | None, _, Some k => exists p it, p ∈ linked s' /\ heap s' !! p = Some it /\ key_of it = k /\ held' = give p 1 held
  | None, _, None => held' = held
  end.

(** A run of the cache from its start. *)
Inductive reaches : Cache_Mgr -> holds -> list (request * reply) -> Prop :=
  | reaches_start limit mx mn f t s :
      Mgr.start limit mx mn f t = Some s -> slab_ok (slab_ s) = true ->
      sizeof_Cache_Item <= size_of (slab_ s) 1 -> size_of (slab_ s) (class_id_max_ (slab_ s)) <= 2 ^ 30 ->
      0 <= limit <= 2 ^ 35 -> reaches s (fun _ => 0) []
  | reaches_step s held tr r a o s' held' :
      reaches s held tr -> roomy held -> allowed s held r ->
      run_request r s = Some ((a, o), s') -> owns r a o s s' held held' -> reaches s' held' (tr ++ [(r, a)]).

(** A run of the reference. *)
Inductive spec_run : Current_Time.clock -> model -> list (request * reply) -> Prop :=
  | spec_nil t : spec_run (Current_Time.init t) (∅, ∅) []
  | spec_snoc c m tr r a m' :
      spec_run c m tr -> spec_step (Current_Time.get_current_time c) r a m m' ->
      spec_run (spec_clock r c) m' (tr ++ [(r, a)]).
End requests.

(** ** Every request refines the reference *)
Section refinement.
Context (e : endian) `{Table_Malloc} `{Item_Malloc} `{!Item_Malloc_Ok} (alive : sink -> bool) (conf : settings).
Implicit Types (s : Cache_Mgr) (held : holds) (p : ptr) (k : key).

(** What a request leaves. *)
Record outcome s held (r : request) (ao : reply * option ptr) s' : Prop := {
  oc_step : spec_step alive (time_of s) r ao.1 (model_of s) (model_of s');
  oc_clock : curr_time_ s' = spec_clock r (curr_time_ s);
  oc_owns : exists held', owns r ao.1 ao.2 s s' held held' /\ inv e s' held'
}.

Lemma owns_none r a s s' held held' : (forall p, r <> Release p) ->
  owns r a None s s' held held' <->
  match leaked r a (view s) with
  | Some k => exists p it, p ∈ linked s' /\ heap s' !! p = Some it /\ key_of it = k /\ held' = give p 1 held
  | None => held' = held
  end.
Proof. intros Hr. destruct r; try done. by destruct (Hr p). Qed.

Lemma outcome_same s held r a s' :
  (forall p, r <> Release p) -> leaked r a (view s) = None ->
  inv e s' held -> curr_time_ s' = spec_clock r (curr_time_ s) ->
  spec_step alive (time_of s) r a (model_of s) (model_of s') -> outcome s held r (a, None) s'.
Proof.
  intros Hr Hl Hi Ht Hs. split; try done. exists held. split; [|done]. apply owns_none; [done|]. cbn [fst snd]. by rewrite Hl.
Qed.

Lemma outcome_base {A} s held (r : request) (a : reply) k (leak : bool) (spec : A * model) (res : A) s' :
  base_updated e s held k leak spec res s' -> (forall p, r <> Release p) -> (forall n, r <> Tick n) ->
  leaked r a (view s) = (if leak then Some k else None) ->
  ((res, model_of s') = spec -> spec_step alive (time_of s) r a (model_of s) (model_of s')) ->
  outcome s held r (a, None) s'.
Proof.
  intros (Ht&Hs&Hl) Hr Hn Hlk Hstep. assert (curr_time_ s' = spec_clock r (curr_time_ s)) as Ht'.
  { rewrite Ht. destruct r; try done. by destruct (Hn reading). }
  destruct leak; [|by apply outcome_same; auto].
  destruct Hl as (p&it&Hp&Hit&Hk&Hi). split; [by apply Hstep|done|]. exists (give p 1 held). split; [|done].
  apply owns_none; [done|]. cbn [fst snd]. rewrite Hlk. by exists p, it.
Qed.

Lemma outcome_found s held (r : request) k (spec : xixi_reason * option (entry * Z) * model) res s1 :
  (forall p, r <> Release p) -> (forall n, r <> Tick n) -> (forall a m, leaked r a m = None) ->
  found e s held k spec res s1 ->
  (forall reason en, (reason, en, model_of s1) = spec -> spec_step alive (time_of s) r (Found reason en) (model_of s) (model_of s1)) ->
  wp (read_found res) s1 (outcome s held r).
Proof.
  intros Hr Hn Hlk [Ht Hf] Hstep. unfold read_found. assert (curr_time_ s1 = spec_clock r (curr_time_ s)) as Ht'.
  { rewrite Ht. destruct r; try done. by destruct (Hn reading). }
  destruct spec as [[reason [[en x]|]] m], res as [[[p x']|] reason']; try done; cbn [fst snd].
  - destruct Hf as (->&Hm&Hi&->&Hl&it&Hit&Hk&<-). apply wp_bind. eapply wp_item; [done|]. apply wp_ret.
    split; [apply Hstep; by rewrite Hm|done|]. exists (give p 1 held). split; [|done]. cbn. by destruct r.
  - destruct Hf as (->&Hm&Hi). apply wp_ret. apply outcome_same; auto. apply Hstep. by rewrite Hm.
Qed.

(** A mismatch is what is left when an update that loses a reference has memory. *)
Lemma leaks_mismatch (r : put_request) (large oom oom' : bool) (t id : Z) (m : model) reason oid m' :
  (reason, oid, m') = spec_put alive r large oom oom' t id m ->
  leaked (Put r) (Updated reason oid) m.1 =
    if negb (large || oom) && leaks (put_sub_op r) (put_group r, put_key r) (put_expected r) m.1
    then Some (put_group r, put_key r) else None.
Proof.
  unfold spec_put. destruct large; [by intros [= -> -> ->]|]. destruct oom; [by intros [= -> -> ->]|]. cbn [orb negb andb].
  cbn [leaked]. destruct (leaks _ _ _ _) eqn:El; [|by case_match].
  unfold leaks in El. apply andb_prop in El as [Hop Hm]. unfold mismatched in Hm. unfold spec_dispatch, spec_extend.
  destruct (m.1 !! (put_group r, put_key r)) as [old|]; [|done].
  apply orb_prop in Hop as [Hop|Hop]; apply Z.eqb_eq in Hop; rewrite Hop; cbn; rewrite Hm; by intros [= -> -> ->].
Qed.

Lemma put_outcome s held r : inv e s held -> roomy held -> allowed s held (Put r) ->
  wp (run_request e alive conf (Put r)) s (outcome s held (Put r)).
Proof.
  intros Hi Hr (Hk&Hd&Hxl&Hx). cbn [run_request]. apply wp_bind. eapply wp_mono; [by apply (put_spec e alive s held r)|].
  intros [reason oid] s' (oom&oom'&Hb). apply wp_ret. cbn [fst snd]. pose proof Hb as (_&Hs&_).
  eapply outcome_base; [exact Hb|done|done|by eapply (leaks_mismatch r _ _ _ _ _ (model_of s))|].
  intros _. cbn. do 6 eexists. split; [done|exact Hs].
Qed.

(** The entries a sweep finds are among those that have expired. *)
Lemma due_submseteq i s now : concat (due_from i s now) ⊆+ concat (drop i (expire_list_ s)).
Proof.
  unfold due_from. generalize (drop i (expire_check_time_ s)).
  induction (drop i (expire_list_ s)) as [|l ls IH]; intros [|c cs]; cbn; try apply submseteq_nil_l.
  apply submseteq_app; [|apply IH]. destruct (c <=? now); [done|apply submseteq_nil_l].
Qed.

Lemma submseteq_victims s held t : core e s held ->
  victims (past t) s (concat (due_lists s t)) ⊆+ base.filter (past t) (map_to_list (view s)).
Proof.
  intros Hc. rewrite <- (victims_view e (past t) s held Hc).
  pose proof (due_submseteq 0 s t) as Hsub. unfold due_from in Hsub. rewrite !drop_0 in Hsub.
  apply submseteq_Permutation in Hsub as [rest Hp]. unfold victims. fold (due_lists s t) in *.
  rewrite Hp, omap_app, filter_app. apply submseteq_inserts_r. done.
Qed.

Lemma expired_outcome s held : inv e s held -> roomy held ->
  wp (run_request e alive conf Check_expired) s (outcome s held Check_expired).
Proof.
  intros Hi Hr. cbn [run_request]. apply wp_bind. eapply wp_mono; [by apply (check_expired_spec e alive s held)|].
  intros [] s' (Hi'&Ht'&Hm'). apply wp_ret. apply outcome_same; try done. cbn. split; [done|].
  destruct (time_of s =? last_check_expired_time_ s); [by left|right]. eexists. split; [|exact Hm'].
  by eapply submseteq_victims, Hi.
Qed.

Lemma watch_outcome s held r id f a s' :
  inv e s held -> (forall p, r <> Release p) -> (forall n, r <> Tick n) -> (forall a m, leaked r a m = None) ->
  (forall an m', match spec_watch f id (watch_map_ s) with
                 | Some (x, ws) => an = Some x /\ m' = (view s, ws)
                 | None => an = None /\ m' = model_of s
                 end -> spec_step alive (time_of s) r (Answered an) (model_of s) m') ->
  checked e s held (spec_watch f id (watch_map_ s)) a s' -> outcome s held r (Answered a, None) s'.
Proof.
  intros Hi Hr Hn Hl Hstep (Hi'&Ht'&Hv'&Hc). apply outcome_same; auto.
  - rewrite Ht'. destruct r; try done. by destruct (Hn reading).
  - apply Hstep. unfold model_of. rewrite Hv'. by destruct (spec_watch _ _ _) as [[x ws]|]; destruct Hc as [-> ->].
Qed.

Lemma calm_outcome s held r a s' : inv e s' held -> calm s s' -> (forall p, r <> Release p) -> (forall n, r <> Tick n) ->
  (forall a m, leaked r a m = None) -> spec_step alive (time_of s) r a (model_of s) (model_of s) -> outcome s held r (a, None) s'.
Proof.
  intros Hi Hk Hr Hn Hl Hs. apply outcome_same; auto.
  - rewrite (k_time _ _ Hk). destruct r; try done. by destruct (Hn reading).
  - by rewrite (model_world s s') by (by apply calm_world || apply view_core, Hk).
Qed.

(** One request: defined, and what the reference does. *)
Lemma run_request_ok s held r : inv e s held -> roomy held -> allowed s held r ->
  wp (run_request e alive conf r) s (outcome s held r).
Proof.
  intros Hi Hr Hal. destruct r; try (by apply put_outcome || by apply expired_outcome); cbn [run_request allowed] in *; apply wp_bind.
  - eapply wp_mono; [by apply (get_spec e alive s held)|]. intros res s1 Hf. eapply outcome_found; [done|done|done|exact Hf|].
    intros reason en Hs. cbn. eauto.
  - eapply wp_mono; [by apply (get_touch_spec e s held)|]. intros [o reason] s1 Hf.
    set (sp := spec_get_touch k watch_id (Current_Time.realtime (time_of s) expiration) (model_of s)) in *.
    eapply (outcome_found s held _ k (sp.1.1, (fun en => (en, 0)) <$> sp.1.2, sp.2)); [done|done|done| |].
    + destruct Hf as [Ht Hf]. split; [done|]. destruct sp as [[reason' [en|]] m], o as [p|]; try done; cbn in *.
      by destruct Hf as (?&?&?&_&?&?).
    + intros reason' en [= -> -> Hm]. cbn. exists sp.1.1, sp.1.2. split; [done|]. fold sp. rewrite Hm. by destruct sp as [[??]?].
  - eapply wp_mono; [by apply (update_flags_spec e alive s held k)|]. intros [b i] s' Hb. apply wp_ret.
    eapply outcome_base; [exact Hb|done|done|done|]. intros Hs. cbn. eauto 10.
  - eapply wp_mono; [by apply (update_expiration_spec e s held k)|]. intros [b i] s' Hb. apply wp_ret.
    eapply outcome_base; [exact Hb|done|done|done|]. intros Hs. cbn. eauto 10.
  - eapply wp_mono; [by apply (remove_spec e alive s held k)|]. intros reason s' (Hi'&Ht'&Hs). apply wp_ret.
    apply outcome_same; try done. cbn. eauto.
  - eapply wp_mono; [by apply (delta_spec e alive s held k)|]. intros [[reason i] v] s' (oom&Hi'&Ht'&Hs). apply wp_ret.
    apply outcome_same; try done. cbn. eauto 10.
  - eapply wp_mono; [by apply (flush_spec e alive s held)|]. intros [c z] s' (vs&Hvs&Hi'&Ht'&[= -> -> Hs]). apply wp_ret.
    apply outcome_same; try done. cbn. exists vs. split; [exact Hvs|]. split; [done|]. exact Hs.
  - eapply wp_mono; [by apply (create_watch_spec e s held)|]. intros id s' (Hi'&Ht'&Hv'&Hid). apply wp_ret.
    apply outcome_same; try done. cbn. exists id. split; [done|]. unfold model_of. rewrite Hv'.
    destruct Hid as [[-> ->]|(?&?&->)]; [by left|right]. done.
  - eapply wp_mono; [by apply (check_watch_spec e alive s held)|]. intros a s' Hc. apply wp_ret.
    eapply watch_outcome; [exact Hi|done|done|done| |exact Hc]. intros an m' Ha. cbn. by destruct (spec_watch _ _ _) as [[x ws]|]; destruct Ha as [-> ->].
  - eapply wp_mono; [by apply (clear_watch_spec e alive s held)|]. intros a s' Hc. apply wp_ret.
    eapply watch_outcome; [exact Hi|done|done|done| |exact Hc]. intros an m' Ha. cbn. by destruct (spec_watch _ _ _) as [[x ws]|]; destruct Ha as [-> ->].
  - eapply wp_mono; [by apply (stats_cmd_spec e conf s held)|]. intros b s' [Hi' Hk']. apply wp_ret.
    apply calm_outcome; try done. cbn. eauto.
  - eapply wp_mono; [by apply (print_stats_spec e s held)|]. intros [] s' [Hi' Hk']. apply wp_ret. by apply calm_outcome.
  - eapply wp_mono; [by apply (tick_spec e s held)|]. intros [] s' (Hi'&Hm'&_&Ht'). apply wp_ret. apply outcome_same; done.
  - eapply wp_mono; [by apply (release_spec e s held)|]. intros [] s' (Hi'&Ht'&Hm'). apply wp_ret.
    apply (f_equal snd) in Hm'. split; [by split|done|]. exists (give p (-1) held). by split.
Qed.

(** ** Runs *)
Lemma owns_unique r a o s s' held h1 h2 hx :
  owns r a o s s' held h1 -> owns r a o s s' held h2 -> core e s' hx -> h1 = h2.
Proof.
  intros H1' H2' Hc. unfold owns in *. destruct o as [p|]; [congruence|].
  destruct r; try congruence; (destruct (leaked _ _ _) as [k'|]; [|congruence]);
    destruct H1' as (p&it&Hp&Hit&Hk&->), H2' as (q&itq&Hq&Hitq&Hkq&->);
    (assert (p = q) as -> by (eapply (c_uniq _ _ _ Hc); try done; congruence)); done.
Qed.

Lemma reaches_inv s held tr : reaches e alive conf s held tr ->
  inv e s held /\ spec_run alive (curr_time_ s) (model_of s) tr.
Proof.
  induction 1 as [limit mx mn f t s Hs Hok H1' H2' Hl|s held tr r a o s' held' _ [Hi Hrun] Hr Hal Hst Ho].
  - destruct (start_inv e limit mx mn f t s Hs Hok H1' H2' Hl) as (Hi&Hm&_). split; [done|]. rewrite Hm.
    apply start_fields in Hs as (_&_&_&_&_&_&_&_&->&_). constructor.
  - pose proof (run_request_ok s held r Hi Hr Hal) as Hok. unfold wp in Hok. rewrite Hst in Hok.
    destruct Hok as [Hstep Hclk (h&Ho'&Hi')]. cbn [fst snd] in *.
    assert (held' = h) as -> by (eapply owns_unique; [exact Ho|exact Ho'|exact (inv_core e _ _ Hi')]).
    split; [done|]. rewrite Hclk. by econstructor.
Qed.
End refinement.
