(* ===== verification/CacheFrame.v ===== *)
(** * What the calls of the cache leave alone

    An item that is in no list and that a call is not given stays as it is: the
    item of an update whose body another connection is still reading.  Every
    operation of [Cache_Mgr] is shown to spare such items, whether or not it
    ends. *)

From S2P Require Import Prelude XixiList XixiHashMap Lookup3 Util CurrTime Stats Watch Slab Cache CacheInv CacheSpec CacheStore CacheRun.

(** A result that does not lead to the item [p]. *)
Class Clear (p : ptr) (A : Type) := clear : A -> Prop.
Arguments clear p {A Clear} _.
#[export] Instance clear_any p A : Clear p A | 100 := fun _ => True.
#[export] Instance clear_ptr p : Clear p ptr := fun q => q <> p.
#[export] Instance clear_option p A `{Clear p A} : Clear p (option A) := fun o => forall a, o = Some a -> clear p a.
#[export] Instance clear_pair p A B `{Clear p A} `{Clear p B} : Clear p (A * B) := fun r => clear p r.1 /\ clear p r.2.
#[export] Instance clear_sum p A B `{Clear p A} `{Clear p B} : Clear p (A + B) :=
  fun r => match r with inl a => clear p a | inr b => clear p b end.

(** The item is there and in no list. *)
Record aside (p : ptr) (it : Cache_Item) (s : Cache_Mgr) : Prop := {
  as_heap : heap s !! p = Some it;
  as_linked : p ∉ linked s;
  as_placed : p ∉ placed s
}.
(** Whatever a computation does, [I] stays, and what it returns does not lead to
    [p]. *)
Definition keeps (p : ptr) {S} (I : S -> Prop) {A} `{Clear p A} (m : ST S A) : Prop :=
  forall s, I s -> match m s with Some (a, s') => I s' /\ clear p a | None => True end.
Abbreviation spares p it := (keeps p (aside p it)).

Create HintDb spares.

(** ** Lists and the hash map *)
Section containers.
Context (p : ptr) `{Table_Malloc}.

Lemma elem_of_concat_insert (L : list (list ptr)) i l : p ∈ concat (<[i := l]> L) -> p ∈ l \/ p ∈ concat L.
Proof.
  rewrite !elem_of_concat. intros (j&k&Hk&Hp). apply list_lookup_insert_Some in Hk as [(_&->&_)|(_&Hk)]; [by left|right; eauto].
Qed.
Lemma get_placed n s l : Lists.get n s = Some l -> p ∈ l -> p ∈ placed s.
Proof.
  unfold placed. intros Hg Hp. rewrite !elem_of_app, !elem_of_concat.
  destruct n as [i|i|]; cbn in Hg; try destruct (i <? 0); try done; [| |injection Hg as <-; auto];
    eauto 10.
Qed.
Lemma put_placed n l s : p ∈ placed (Lists.put n l s) -> p ∈ l \/ p ∈ placed s.
Proof.
  unfold placed. rewrite !elem_of_app. destruct n as [i|i|]; cbn; [| |tauto];
    intros Hp; decompose [or] Hp; auto;
    match goal with Hc : _ ∈ concat (<[_ := _]> _) |- _ => apply elem_of_concat_insert in Hc as [?|?]; auto end.
Qed.

Lemma contents_push q h b : p ∈ Buckets.contents (Buckets.push q h b) -> p = q \/ p ∈ Buckets.contents b.
Proof.
  unfold Buckets.push, Buckets.contents. cbn. intros [Hp|Hp]%elem_of_concat_insert; [|by right].
  apply elem_of_cons in Hp as [->|Hp]; [by left|right]. unfold Buckets.chain in Hp.
  destruct (Buckets.table_ b !! _) as [c|] eqn:E; [|by apply not_elem_of_nil in Hp].
  rewrite elem_of_concat. eauto.
Qed.
Lemma elem_of_chain_contents h b : p ∈ Buckets.chain b h -> p ∈ Buckets.contents b.
Proof.
  unfold Buckets.chain, Buckets.contents. destruct (Buckets.table_ b !! _) as [c|] eqn:E; [|by intros ?%not_elem_of_nil].
  intros Hp. rewrite elem_of_concat. eauto.
Qed.
Lemma rehash_elem hv n ps t : p ∈ concat (foldl (Buckets.rehash_step hv n) t ps) -> p ∈ ps \/ p ∈ concat t.
Proof.
  revert t. induction ps as [|q ps IH]; intros t Hp; [by right|]. apply IH in Hp as [Hp|Hp]; [left; by right|].
  unfold Buckets.rehash_step in Hp. apply elem_of_concat_insert in Hp as [Hp|Hp]; [|by right].
  apply elem_of_cons in Hp as [->|Hp]; [left; by left|right]. destruct (t !! _) as [c|] eqn:E; [|by apply not_elem_of_nil in Hp].
  rewrite elem_of_concat. eauto.
Qed.
Lemma contents_insert hv q h b : p ∈ Buckets.contents (Buckets.insert hv q h b) -> p = q \/ p ∈ Buckets.contents b.
Proof.
  unfold Buckets.insert. case_match; [|apply contents_push]. unfold Buckets.expand. case_match; [|apply contents_push].
  unfold Buckets.contents at 1, Buckets.rehash. cbn. intros [Hp|Hp]%rehash_elem; [by apply contents_push in Hp|].
  rewrite BucketsFacts.concat_replicate_nil in Hp. by apply not_elem_of_nil in Hp.
Qed.
Lemma contents_remove test h b : p ∈ Buckets.contents (Buckets.remove test h b).2 -> p ∈ Buckets.contents b.
Proof.
  unfold Buckets.remove. destruct (Buckets.first test _) as [q|] eqn:E; [|done]. unfold Buckets.contents at 1. cbn.
  intros [Hp|Hp]%elem_of_concat_insert; [|done]. apply (elem_of_chain_contents h).
  rewrite (BucketsFacts.drop_first_Permutation _ _ _ E). by right.
Qed.
Lemma contents_find test h b q : Buckets.find test h b = Some q -> q = p -> p ∈ Buckets.contents b.
Proof. intros [Hq _]%(BucketsFacts.first_Some (fun _ => 0)) ->. by eapply elem_of_chain_contents. Qed.
End containers.

(** ** Computations *)
Section rules.
Context (p : ptr) {S : Type} (I : S -> Prop).
Abbreviation keeps m := (keeps p I m).

Lemma keeps_ret {A} `{Clear p A} (a : A) : clear p a -> keeps (mret a).
Proof. intros Ha s Hs. by split. Qed.
Lemma keeps_bind {A B} `{Clear p A} `{Clear p B} (m : ST S A) (k : A -> ST S B) :
  keeps m -> (forall a, clear p a -> keeps (k a)) -> keeps (m ≫= k).
Proof.
  intros Hm Hk s Hs. unfold mbind, ST_bind. specialize (Hm s Hs). destruct (m s) as [[a s']|]; [|done].
  destruct Hm as [Hs' Ha]. by apply Hk.
Qed.
Lemma keeps_bind_gets {A B} `{Clear p B} (f : S -> A) (k : A -> ST S B) :
  (forall s, I s -> keeps (k (f s))) -> keeps (gets f ≫= k).
Proof. intros Hk s Hs. by apply (Hk s). Qed.
Lemma keeps_gets {A} `{Clear p A} (f : S -> A) : (forall s, I s -> clear p (f s)) -> keeps (gets f).
Proof. intros Hf s Hs. split; [done|by apply Hf]. Qed.
Lemma keeps_bind_the {A B} `{Clear p B} (o : option A) (k : A -> ST S B) :
  (forall a, o = Some a -> keeps (k a)) -> keeps (the o ≫= k).
Proof. intros Hk s Hs. destruct o as [a|]; [|done]. by apply Hk. Qed.
Lemma keeps_the {A} `{Clear p A} (o : option A) : (forall a, o = Some a -> clear p a) -> keeps (the o).
Proof. intros Ho s Hs. destruct o as [a|]; [|done]. split; [done|by apply Ho]. Qed.
Lemma keeps_assert b : keeps (assert_ b).
Proof. intros s Hs. by destruct b. Qed.
Lemma keeps_modify (f : S -> S) : (forall s, I s -> I (f s)) -> keeps (modify f).
Proof. intros Hf s Hs. split; [by apply Hf|done]. Qed.
Lemma keeps_for_each {A} (f : A -> ST S unit) l : (forall x, x ∈ l -> keeps (f x)) -> keeps (for_each f l).
Proof.
  induction l as [|x l IH]; intros Hf; [by apply keeps_ret|]. cbn. refine (keeps_bind _ _ _ _); [apply Hf; by left|].
  intros _ _. apply IH. intros y Hy. apply Hf. by right.
Qed.
End rules.

(** Members that are not about items. *)
Definition apart (f : Cache_Mgr -> Cache_Mgr) : Prop := forall s,
  heap (f s) = heap s /\ cache_hash_map_ (f s) = cache_hash_map_ s /\ placed (f s) = placed s.
Lemma spares_apart p it f : apart f -> spares p it (modify f).
Proof. intros Hf. apply keeps_modify. intros s []. destruct (Hf s) as (Hh&Hm&Hp). split; rewrite ?Hh, ?Hm, ?Hp; done. Qed.
Lemma spares_on p it {T A} `{Clear p A} (get : Cache_Mgr -> T) put (m : ST T A) :
  (forall a, clear p a) -> (forall x, apart (put x)) -> spares p it (on get put m).
Proof.
  intros Ha Hp s Hs. unfold on. destruct (m (get s)) as [[a x]|]; [|done]. split; [|done].
  destruct Hs. destruct (Hp x s) as (Hh&Hm&Hpl). split; rewrite ?Hh, ?Hm, ?Hpl; done.
Qed.

(** That a pointer is not the one, from what is known of others. *)
Ltac avoid :=
  cbv beta delta [clear clear_any clear_option clear_pair clear_sum clear_ptr] in *;
  cbn in *; destruct_and?;
  repeat match goal with H : forall a, Some ?x = Some a -> _ |- _ => specialize (H x eq_refl) end;
  cbn in *; destruct_and?; intros; simplify_eq/=; repeat (split; intros; simplify_eq/=); solve [done | congruence].
#[export] Hint Extern 0 (_ <> _) => solve [avoid] : spares.
#[export] Hint Extern 0 (clear _ _) => solve [avoid] : spares.
#[export] Hint Resolve keeps_assert : spares.

Ltac spare_bind := refine (keeps_bind _ _ _ _ _ _).
(** One step into a computation. *)
Ltac spare_step :=
  lazymatch goal with
  | |- keeps _ _ (mret _) => apply keeps_ret; avoid
  | |- keeps _ _ (gets _ ≫= _) => apply keeps_bind_gets; intros ? _
  | |- keeps _ _ (the _ ≫= _) => apply keeps_bind_the; intros ? _
  | |- keeps _ _ (_ ≫= _) => spare_bind; [|intros ? ?]
  | |- keeps _ _ (match ?x.1 with _ => _ end) => first [is_var x; destruct x; cbn [fst snd] | destruct x.1]
  | |- keeps _ _ (match ?x with _ => _ end) => destruct x
  | |- keeps _ _ _ => solve [auto with spares]
  end.
Ltac spare := intros; cbv beta zeta; repeat (first [solve [auto 2 with spares] | spare_step]; cbv beta zeta).

(** ** The operations of the lists and of items *)
Section primitives.
Context (e : endian) `{Table_Malloc} `{Item_Malloc} (alive : sink -> bool) (conf : settings).
Context (p : ptr) (it : Cache_Item).
Abbreviation spares m := (spares p it m).
Implicit Types (q : ptr).

Lemma aside_put n l s : aside p it s -> p ∉ l -> aside p it (Lists.put n l s).
Proof.
  intros [] Hl. split; [by destruct n|by destruct n|]. intros [?|?]%put_placed; done.
Qed.
Lemma spares_load {A} `{Clear p A} n (k : list ptr -> M A) : (forall l, p ∉ l -> spares (k l)) -> spares (Lists.load n ≫= k).
Proof.
  intros Hk s Hs. unfold Lists.load, mbind, ST_bind, gets, the. destruct (Lists.get n s) as [l|] eqn:E; [|done].
  apply Hk; [|done]. intros Hp. destruct Hs as [_ _ Hpl]. by apply Hpl, (get_placed p n s l).
Qed.
Lemma spares_store n l : p ∉ l -> spares (modify (Lists.put n l)).
Proof. intros Hl. apply keeps_modify. intros s Hs. by apply aside_put. Qed.

Lemma spares_front n : spares (Lists.front n).
Proof. unfold Lists.front. apply spares_load. intros l Hl. apply keeps_ret. intros q Hq ->. apply Hl. destruct l; [done|]. injection Hq as ->. left. Qed.
Lemma spares_size n : spares (Lists.size n).
Proof. unfold Lists.size. apply spares_load. intros l _. by apply keeps_ret. Qed.
Lemma succ_in_elem q r l : succ_in q l = Some r -> r ∈ l.
Proof.
  induction l as [|x l IH]; [done|]. cbn. case_decide; [|intros Hr%IH; by right]. destruct l; [done|]. intros [= ->]. right. left.
Qed.
Lemma spares_next n q : spares (Lists.next n q).
Proof. unfold Lists.next.
  apply spares_load. intros l Hl. spare_bind; [apply keeps_assert|]. intros _ _. apply keeps_ret.
  intros r Hr%succ_in_elem ->. done.
Qed.
Lemma spares_push_front n q : q <> p -> spares (Lists.push_front n q).
Proof. unfold Lists.push_front.
  intros Hq. apply spares_load. intros l Hl. apply keeps_bind_gets. intros s _. spare_bind; [apply keeps_assert|]. intros _ _.
  apply spares_store. unfold Seq.push_front. rewrite elem_of_cons. naive_solver.
Qed.
Lemma spares_push_back n q : q <> p -> spares (Lists.push_back n q).
Proof. unfold Lists.push_back.
  intros Hq. apply spares_load. intros l Hl. apply keeps_bind_gets. intros s _. spare_bind; [apply keeps_assert|]. intros _ _.
  apply spares_store. unfold Seq.push_back. rewrite elem_of_app, list_elem_of_singleton. naive_solver.
Qed.
Lemma spares_pop_front n : spares (Lists.pop_front n).
Proof. unfold Lists.pop_front.
  apply spares_load. intros l Hl. spare_bind.
  - apply spares_store. cbn. intros Hp. apply Hl. destruct l; [done|by right].
  - intros _ _. apply keeps_ret. intros q Hq ->. apply Hl. destruct l; [done|]. injection Hq as ->. left.
Qed.
Lemma spares_list_remove n q : spares (Lists.remove n q).
Proof. unfold Lists.remove.
  apply spares_load. intros l Hl. spare_bind; [apply keeps_assert|]. intros _ _. apply spares_store.
  unfold Seq.remove. rewrite list_elem_of_filter. naive_solver.
Qed.
Lemma spares_is_linked n q : spares (Lists.is_linked n q).
Proof. unfold Lists.is_linked. apply spares_load. intros l _. apply keeps_bind_gets. intros s _. by apply keeps_ret. Qed.

Lemma spares_stat g ev : spares (Mgr.stat g ev).
Proof. unfold Mgr.stat. by apply spares_on. Qed.
Lemma spares_class n : spares (Mgr.get_class_id n).
Proof. unfold Mgr.get_class_id. by apply spares_on. Qed.
Lemma spares_item q : spares (Mgr.item q).
Proof. unfold Mgr.item. spare. by apply keeps_the. Qed.
Lemma spares_insert q f : q <> p -> spares (modify (fun s => s <| heap ::= <[q := f s]> |>)).
Proof. intros Hq. apply keeps_modify. intros s []. split; try done. cbn. by rewrite lookup_insert_ne. Qed.
Lemma spares_update q f : q <> p -> spares (Mgr.update q f).
Proof. unfold Mgr.update. intros Hq. spare_bind; [apply spares_item|]. intros x _. by apply (spares_insert q (fun _ => f x)). Qed.
Lemma spares_update_opt q f : q <> p -> spares (Mgr.update_opt q f).
Proof. unfold Mgr.update_opt.
  intros Hq. spare_bind; [apply spares_item|]. intros x _. apply keeps_bind_the. intros y _. by apply (spares_insert q (fun _ => y)).
Qed.
Lemma spares_elem l i : spares (Mgr.elem l i).
Proof. unfold Mgr.elem. spare. by apply keeps_the. Qed.
Lemma spares_now : spares Mgr.now.
Proof. unfold Mgr.now. spare. Qed.
Hint Resolve spares_now : spares.
Lemma spares_realtime x : spares (Mgr.realtime x).
Proof. unfold Mgr.realtime. spare. Qed.
Lemma spares_set_last id : spares (modify (fun s => s <| last_cache_id_ := id |>)).
Proof. by apply spares_apart. Qed.
Hint Resolve spares_set_last : spares.
Lemma spares_cache_id : spares Mgr.get_cache_id.
Proof. unfold Mgr.get_cache_id. spare. Qed.

Lemma spares_find g k h : spares (Mgr.map_find g k h).
Proof. unfold Mgr.map_find. apply keeps_gets. intros s [] q Hq ->. by apply (contents_find p) in Hq. Qed.
Lemma spares_map_remove g k h : spares (Mgr.map_remove g k h).
Proof. unfold Mgr.map_remove. apply keeps_modify. intros s []. split; try done. cbn. by intros ?%contents_remove. Qed.
Lemma spares_map_insert q h : q <> p -> spares (Mgr.map_insert q h).
Proof. unfold Mgr.map_insert.
  intros Hq. spare_bind; [by apply spares_update|]. intros _ _. apply keeps_modify. intros s []. split; try done.
  cbn. by intros [->|?]%contents_insert.
Qed.
End primitives.

#[export] Hint Resolve spares_front spares_size spares_next spares_push_front spares_push_back spares_pop_front
  spares_list_remove spares_is_linked spares_stat spares_class spares_item spares_update spares_update_opt spares_elem
  spares_now spares_realtime spares_cache_id spares_find spares_map_remove spares_map_insert : spares.
#[export] Hint Extern 2 (keeps _ _ (modify _)) => solve [by apply spares_apart] : spares.

(** ** The operations of [Cache_Mgr] *)
Section operations.
Context (e : endian) `{Table_Malloc} `{Item_Malloc} `{!Item_Malloc_Ok} (alive : sink -> bool) (conf : settings).
Context (p : ptr) (it : Cache_Item).
Abbreviation spares m := (spares p it m).
Implicit Types (q : ptr).

Lemma spares_alloc_new n : spares (h ← gets heap;
  match malloc_item (dom h) n with
  | Some (q, memory) =>
      modify (fun s => s <| heap ::= <[q := Item.init memory]> |> <| mem_used_ ::= fun u => u64 (u + n) |>);; mret (Some q)
  | None => mret None
  end).
Proof.
  apply keeps_bind_gets. intros s Hs. destruct (malloc_item _ _) as [[q m]|] eqn:E; [|spare].
  apply malloc_ok in E as [Hq _]. assert (q <> p) as Hne.
  { intros ->. apply Hq, elem_of_dom. exists it. apply Hs. }
  spare_bind; [|intros; spare]. apply keeps_modify. intros s' []. split; try done. cbn. by rewrite lookup_insert_ne.
Qed.
Hint Resolve spares_alloc_new : spares.
Lemma spares_do_alloc g kl fl x dl xl : spares (Mgr.do_alloc g kl fl x dl xl).
Proof. unfold Mgr.do_alloc. spare. Qed.
Hint Resolve spares_do_alloc : spares.
Lemma spares_free_item q : q <> p -> spares (Mgr.free_item q).
Proof.
  unfold Mgr.free_item. spare. apply keeps_modify. intros s' []. split; try done. cbn. by rewrite lookup_delete_ne.
Qed.
Hint Resolve spares_free_item : spares.
Lemma spares_item_size_ok kl dl xl : spares (Mgr.item_size_ok kl dl xl).
Proof. unfold Mgr.item_size_ok. spare. Qed.
Lemma spares_do_link q : q <> p -> spares (Mgr.do_link q).
Proof. unfold Mgr.do_link. spare. Qed.
Lemma spares_notify_loop id type ws : spares (Mgr.notify_loop alive id type ws).
Proof. induction ws as [|w ws IH]; cbn [Mgr.notify_loop]; spare. Qed.
Hint Resolve spares_item_size_ok spares_do_link spares_notify_loop : spares.
Lemma spares_notify_watch q type : q <> p -> spares (Mgr.notify_watch alive q type).
Proof. unfold Mgr.notify_watch. spare. Qed.
Lemma spares_do_release q : q <> p -> spares (Mgr.do_release_reference q).
Proof. unfold Mgr.do_release_reference. spare. Qed.
Hint Resolve spares_notify_watch spares_do_release : spares.
Lemma spares_take_out q type : q <> p -> spares (Mgr.take_out alive q type).
Proof. unfold Mgr.take_out. spare. Qed.
Hint Resolve spares_take_out : spares.
Lemma spares_do_unlink q type : q <> p -> spares (Mgr.do_unlink alive q type).
Proof. unfold Mgr.do_unlink. spare. Qed.
Lemma spares_do_unlink_flush q : q <> p -> spares (Mgr.do_unlink_flush alive q).
Proof. unfold Mgr.do_unlink_flush. spare. Qed.
Hint Resolve spares_do_unlink spares_do_unlink_flush : spares.
Lemma spares_do_replace q r : q <> p -> r <> p -> spares (Mgr.do_replace alive q r).
Proof. unfold Mgr.do_replace. spare. Qed.
Lemma spares_add_ref q : q <> p -> spares (Mgr.add_ref q).
Proof. unfold Mgr.add_ref. spare. Qed.
Hint Resolve spares_do_replace spares_add_ref : spares.
Lemma spares_do_get g k h : spares (Mgr.do_get g k h).
Proof. unfold Mgr.do_get. spare. Qed.
Lemma spares_do_get_expiration g k h : spares (Mgr.do_get_expiration alive g k h).
Proof. unfold Mgr.do_get_expiration. spare. Qed.
Lemma spares_do_get_touch g k h x : spares (Mgr.do_get_touch g k h x).
Proof. unfold Mgr.do_get_touch. spare. Qed.
Hint Resolve spares_do_get spares_do_get_expiration spares_do_get_touch : spares.

Lemma spares_alloc_item g kl fl x dl xl : spares (Mgr.alloc_item g kl fl x dl xl).
Proof. unfold Mgr.alloc_item. spare. Qed.
Lemma spares_release q : q <> p -> spares (Mgr.release_reference q).
Proof. apply spares_do_release. Qed.
Lemma spares_watch_id_loop n : spares (Mgr.watch_id_loop n).
Proof. induction n as [|n IH]; cbn [Mgr.watch_id_loop]; spare. Qed.
Lemma spares_valid w : spares (Mgr.is_valid_watch_id w).
Proof. by apply keeps_gets. Qed.
Lemma spares_add_watch q w : q <> p -> spares (Mgr.add_watch q w).
Proof. unfold Mgr.add_watch. spare. Qed.
Hint Resolve spares_alloc_item spares_release spares_watch_id_loop spares_valid spares_add_watch : spares.
Lemma spares_get g k w b : spares (Mgr.get e alive g k w b).
Proof. unfold Mgr.get. spare. Qed.
Lemma spares_get_touch g k w x : spares (Mgr.get_touch e g k w x).
Proof. unfold Mgr.get_touch. spare. Qed.
Lemma spares_update_flags g k id f : spares (Mgr.update_flags e alive g k id f).
Proof. unfold Mgr.update_flags. spare. Qed.
Lemma spares_update_expiration g k id x : spares (Mgr.update_expiration e g k id x).
Proof. unfold Mgr.update_expiration. spare. Qed.
Lemma spares_check_update_watch (m : M unit) w g hg c hc n a b d : spares m -> spares (Mgr.check_update_watch m w g hg c hc n a b d).
Proof. unfold Mgr.check_update_watch. spare. Qed.
Lemma spares_get_by_item q : spares (Mgr.get_by_item q).
Proof. unfold Mgr.get_by_item. spare. Qed.
Lemma spares_item_cache_id q : spares (Mgr.item_cache_id q).
Proof. unfold Mgr.item_cache_id. spare. Qed.
Lemma spares_nothing : spares (mret tt).
Proof. by apply keeps_ret. Qed.
Hint Resolve spares_check_update_watch spares_get_by_item spares_item_cache_id spares_nothing : spares.
Lemma spares_link_new q w a b c : q <> p -> spares (Mgr.link_new q w a b c).
Proof. unfold Mgr.link_new. spare. Qed.
Lemma spares_replace_and_watch q r w : q <> p -> r <> p -> spares (Mgr.replace_and_watch alive q r w).
Proof. unfold Mgr.replace_and_watch. spare. Qed.
Lemma spares_fill_item q k h d x : q <> p -> spares (Mgr.fill_item q k h d x).
Proof. unfold Mgr.fill_item. spare. Qed.
Hint Resolve spares_link_new spares_replace_and_watch spares_fill_item : spares.
Lemma spares_add q w : q <> p -> spares (Mgr.add q w).
Proof. unfold Mgr.add. spare. Qed.
Lemma spares_set q w : q <> p -> spares (Mgr.set alive q w).
Proof. unfold Mgr.set. spare. Qed.
Lemma spares_replace q w : q <> p -> spares (Mgr.replace alive q w).
Proof. unfold Mgr.replace. spare. Qed.
Lemma spares_extend f q w : q <> p -> spares (Mgr.extend alive f q w).
Proof. unfold Mgr.extend. spare. Qed.
Lemma spares_remove g k id : spares (Mgr.remove e alive g k id).
Proof. unfold Mgr.remove. spare. Qed.
Lemma spares_delta g k i d id : spares (Mgr.delta e alive g k i d id).
Proof. unfold Mgr.delta. spare. Qed.
Hint Resolve spares_get spares_get_touch spares_update_flags spares_update_expiration spares_add spares_set spares_replace
  spares_extend spares_remove spares_delta : spares.

(** The walks go from an element of a list to the next one. *)
Lemma spares_flush_walk fuel g i : forall o acc, clear p o -> spares (Mgr.flush_walk alive fuel g i o acc).
Proof.
  induction fuel as [|fuel IH]; intros [q|] acc Hq; cbn [Mgr.flush_walk]; spare. by apply keeps_the.
Qed.
Hint Resolve spares_flush_walk : spares.
Lemma spares_flush_lists g is_ : forall acc, spares (Mgr.flush_lists alive g is_ acc).
Proof. induction is_ as [|i is_ IH]; intros acc; cbn [Mgr.flush_lists]; spare. Qed.
Hint Resolve spares_flush_lists : spares.
Lemma spares_flush g : spares (Mgr.flush alive g).
Proof. unfold Mgr.flush. spare. Qed.
Lemma spares_expire_walk fuel t i : forall o, clear p o -> spares (Mgr.expire_walk alive fuel t i o).
Proof.
  induction fuel as [|fuel IH]; intros [q|] Hq; cbn [Mgr.expire_walk]; spare. by apply keeps_the.
Qed.
Hint Resolve spares_expire_walk : spares.
Lemma spares_expire_list t i : spares (Mgr.expire_list alive t i).
Proof. unfold Mgr.expire_list. spare. Qed.
Lemma spares_expire_items t : spares (Mgr.expire_items alive t).
Proof. apply keeps_for_each. intros i _. apply spares_expire_list. Qed.
Lemma spares_free_flushed_walk fuel : forall o, clear p o -> spares (Mgr.free_flushed_walk fuel o).
Proof.
  induction fuel as [|fuel IH]; intros [q|] Hq; cbn [Mgr.free_flushed_walk]; spare. by apply keeps_the.
Qed.
Hint Resolve spares_expire_items spares_free_flushed_walk : spares.
Lemma spares_free_flushed_items : spares Mgr.free_flushed_items.
Proof. unfold Mgr.free_flushed_items. spare. Qed.
Hint Resolve spares_free_flushed_items : spares.
Lemma spares_check_expired : spares (Mgr.check_expired alive).
Proof. unfold Mgr.check_expired, Mgr.expire_watchs. spare. Qed.
Lemma spares_create_watch g x : spares (Mgr.create_watch g x).
Proof. unfold Mgr.create_watch, Mgr.get_watch_id. spare. Qed.
Lemma spares_check_watch sp g w ack x a : spares (Mgr.check_watch_and_set_callback alive sp g w ack x a).
Proof. unfold Mgr.check_watch_and_set_callback. spare. Qed.
Lemma spares_clear_watch sp w a : spares (Mgr.check_watch_and_clear_callback alive sp w a).
Proof. unfold Mgr.check_watch_and_clear_callback. spare. Qed.
Lemma spares_in_stats {A} `{Clear p A} (m : ST stats A) : (forall a, clear p a) -> spares (on stats_ (fun st s => s <| stats_ := st |>) m).
Proof. intros Ha. by apply spares_on. Qed.
Hint Resolve spares_in_stats : spares.
Lemma spares_stats_cmd op g c : spares (Mgr.stats_cmd conf op g c).
Proof. unfold Mgr.stats_cmd, Mgr.base_stats. spare. Qed.
Lemma spares_print_stats : spares Mgr.print_stats.
Proof. unfold Mgr.print_stats. spare. Qed.
Lemma spares_begin_update g kl fl x dl xl : spares (Store.begin_update g kl fl x dl xl).
Proof. unfold Store.begin_update. spare. Qed.
Lemma spares_dispatch op q w : q <> p -> spares (Store.dispatch alive op q w).
Proof. unfold Store.dispatch, Mgr.append, Mgr.prepend. spare. Qed.
Hint Resolve spares_begin_update spares_dispatch spares_flush spares_check_expired spares_create_watch spares_check_watch
  spares_clear_watch spares_stats_cmd spares_print_stats : spares.
Lemma spares_put r : spares (put e alive r).
Proof. unfold put, Store.end_update. spare. Qed.
Hint Resolve spares_put : spares.
Lemma spares_load_from_file file mime g k w x : spares (Mgr.load_from_file e file mime g k w x).
Proof. unfold Mgr.load_from_file. spare. Qed.

(** A request, except one that gives the item up. *)
Lemma spares_read_found r : clear p r -> spares (read_found r).
Proof. unfold read_found. destruct r as [[[q x]|] reason]; cbn [fst snd]; spare. Qed.
Hint Resolve spares_read_found : spares.
Lemma spares_found (m : M (option ptr * Pdu.xixi_reason)) : spares m -> spares (r ← m; read_found ((fun q => (q, 0)) <$> r.1, r.2)).
Proof.
  intros Hm. spare_bind; [exact Hm|]. intros [[q|] reason] Hr; apply spares_read_found; [avoid|by split].
Qed.
Hint Resolve spares_found : spares.
Lemma spares_request r : (forall q, r = Release q -> q <> p) -> spares (run_request e alive conf r).
Proof.
  intros Hr. destruct r; cbn [run_request]; unfold Mgr.tick; spare.
Qed.
End operations.

#[export] Hint Resolve spares_alloc_item spares_release spares_get spares_get_touch spares_update_flags spares_update_expiration
  spares_remove spares_delta spares_flush spares_check_expired spares_create_watch spares_check_watch spares_clear_watch
  spares_in_stats spares_stats_cmd spares_print_stats spares_begin_update spares_dispatch spares_put : spares.
