(* ===== verification/CacheProps.v ===== *)
(** * The properties of the cache

    What the runs of [CacheRun] guarantee to the clients, with a concrete cache -
    the default settings, 64 MiB - to show each at work. *)

From S2P Require Import Prelude XixiList XixiHashMap Lookup3 Util CurrTime Pdu Stats Watch Slab Cache CacheInv CacheSpec CacheOps CacheData CacheSweep CacheStore CacheRun.
Import Cache_Watch.

Module Demo.
#[global] Instance tables : Table_Malloc := fun _ => true.
Definition next_ptr (d : gset ptr) : ptr := Pos.succ (set_fold Pos.max 1%positive d).
#[global] Instance items : Item_Malloc := fun d n =>
  if n <? offsetof_body then None else Some (next_ptr d, replicate (Z.to_nat (n - offsetof_body)) 0).

Lemma next_ptr_max p (d : gset ptr) : p ∈ d -> (p <= set_fold Pos.max 1%positive d)%positive.
Proof.
  revert p. apply (set_fold_ind_L (fun m d => forall p, p ∈ d -> (p <= m)%positive)).
  - intros p Hp. set_solver.
  - intros x X m _ IH p Hp. apply elem_of_union in Hp as [Hp%elem_of_singleton|Hp]; [lia|]. specialize (IH p Hp). lia.
Qed.
#[global] Instance items_ok : Item_Malloc_Ok.
Proof.
  intros d n p m. unfold malloc_item, items. destruct (Z.ltb_spec n offsetof_body); [done|]. intros [= <- <-].
  rewrite length_replicate. split; [|lia]. intros Hp%next_ptr_max. unfold next_ptr in Hp. lia.
Qed.

Definition conf : settings := mk_settings (64 * 1024 * 1024) 4 1024.
Definition alive : sink -> bool := fun _ => true.
Definition state : Cache_Mgr :=
  default (mk_mgr ∅ (Buckets.init 7) [] [] Slab.start [] [] 0 0 0 0 0 0 ∅ (Current_Time.init 0) Stats.init [])
    (Mgr.start (64 * 1024 * 1024) (5 * 1024 * 1024) 48 five_quarters 1000).
Abbreviation go := (run_request LittleEndian alive conf).
Definition key1 : bytes := [107; 49].
Definition set1 (data : bytes) : put_request := mk_put 0 3 key1 data 5 0 0 0 [].

(** A run of requests: the replies, and what it leaves. *)
Fixpoint play (rs : list request) (s : Cache_Mgr) : option (list (request * reply) * Cache_Mgr) :=
  match rs with
  | [] => Some ([], s)
  | r :: rs =>
      match go r s with
      | Some ((a, _), s) => match play rs s with Some (tr, s) => Some ((r, a) :: tr, s) | None => None end
      | None => None
      end
  end.
Definition left_by (rs : list request) : Cache_Mgr := from_option snd state (play rs state).
Definition replies (rs : list request) : list reply := from_option (fun x => x.1.*2) [] (play rs state).

(** Requests that are always allowed, give no pointer and lose no reference. *)
Definition simple (r : request) : bool :=
  match r with
  | Put r => (put_sub_op r <? 3) && (Z.of_nat (length (put_key r)) <? 2 ^ 16) && (Z.of_nat (length (put_data r)) <=? 2 ^ 31) &&
             (Z.of_nat (length (put_ext r)) <? 2 ^ 8) &&
             (0 <=? put_expiration r)
  | Delete _ _ | Flush_group _ | Create_watch _ _ | Check_watch _ _ _ _ _ | Clear_watch _ _ | Stats_cmd _ _ _
  | Check_expired | Print_stats => true
  | Tick n => 0 <=? n
  | _ => false
  end.

Lemma started : reaches LittleEndian alive conf state (fun _ => 0) [].
Proof.
  eapply (reaches_start _ _ _ (64 * 1024 * 1024) (5 * 1024 * 1024) 48 five_quarters 1000).
  - unfold state. by destruct (Mgr.start _ _ _ _ _) eqn:E; [|vm_compute in E].
  - by vm_compute.
  - by apply Z.leb_le; vm_compute.
  - by apply Z.leb_le; vm_compute.
  - lia.
Qed.

Lemma simple_step s held tr r a o s' :
  reaches LittleEndian alive conf s held tr -> roomy held -> simple r = true -> go r s = Some ((a, o), s') ->
  reaches LittleEndian alive conf s' held (tr ++ [(r, a)]).
Proof.
  intros Hre Hr Hs Hgo. assert (o = None) as ->.
  { unfold run_request, mbind, ST_bind, mret, ST_ret in Hgo.
    destruct r; try done; match type of Hgo with match ?m with _ => _ end = _ => destruct m as [[? ?]|] end; by simplify_eq. }
  eapply reaches_step; [done..| |exact Hgo|].
  - destruct r as [r| | | | | | | | | | | | | | | ]; try done; cbn in *; [|lia].
    repeat (apply andb_prop in Hs as [Hs ?]). lia.
  - apply owns_none; [by destruct r|]. destruct r as [r| | | | | | | | | | | | | | | ]; try done. cbn.
    unfold leaks. repeat (apply andb_prop in Hs as [Hs _]). apply Z.ltb_lt in Hs.
    destruct (Z.eqb_spec (put_sub_op r) 3), (Z.eqb_spec (put_sub_op r) 4); try lia. cbn. by destruct a as [[]| | | | | | | | | ].
Qed.

Lemma play_reaches rs : forall s held tr tr' s', roomy held ->
  reaches LittleEndian alive conf s held tr -> forallb simple rs = true -> play rs s = Some (tr', s') ->
  reaches LittleEndian alive conf s' held (tr ++ tr').
Proof.
  induction rs as [|r rs IH]; intros s held tr tr' s' Hr Hre Hs Hp; cbn [forallb play] in *.
  - injection Hp as <- <-. by rewrite app_nil_r.
  - apply andb_prop in Hs as [Hs1 Hs2]. destruct (go r s) as [[[a o] s1]|] eqn:E; [|done].
    destruct (play rs s1) as [[tr1 s2]|] eqn:E2; [|done]. injection Hp as <- <-.
    rewrite cons_middle, (assoc_L (++)). eapply IH; [done| |done|exact E2]. by eapply simple_step.
Qed.

Lemma left_by_reaches rs : forallb simple rs = true -> is_Some (play rs state) ->
  reaches LittleEndian alive conf (left_by rs) (fun _ => 0) (zip rs (replies rs)).
Proof.
  intros Hs [[tr s] Hp]. assert (zip rs (replies rs) = tr) as ->.
  { unfold replies. rewrite Hp. cbn. clear Hs. revert tr s Hp. generalize state. induction rs as [|r rs IH]; intros s0 tr s Hp; cbn [play] in Hp.
    - by injection Hp as <- <-.
    - destruct (go r s0) as [[[a o] s1]|]; [|done]. destruct (play rs s1) as [[tr1 s2]|] eqn:E; [|done].
      injection Hp as <- <-. cbn. by rewrite (IH _ _ _ E). }
  unfold left_by. rewrite Hp. cbn. change tr with ([] ++ tr). eapply play_reaches; [|apply started|done|done].
  intros p. lia.
Qed.
Lemma answers {A} (o : option (A * Cache_Mgr)) a : fst <$> o = Some a -> exists s, o = Some (a, s).
Proof. destruct o as [[x s]|]; [|done]. intros [= ->]. by exists s. Qed.
Lemma nobody_roomy : roomy (fun _ => 0).
Proof. intros p. lia. Qed.

(** A set, an add that finds the key, a deletion and another set. *)
Definition requests : list request :=
  [Put (set1 [49; 50]); Put (mk_put 1 3 key1 [51] 5 0 0 0 []); Delete (3, key1) 0; Put (set1 [49; 51])].
End Demo.

(** ** Properties *)
Section properties.
Context (e : endian) `{Table_Malloc} `{Item_Malloc} `{!Item_Malloc_Ok} (alive : sink -> bool) (conf : settings).
Implicit Types (s : Cache_Mgr) (held : holds) (p : ptr) (k : key) (tr : list (request * reply)).

Lemma run_outcome s held tr r a o s' :
  reaches e alive conf s held tr -> roomy held -> allowed s held r -> run_request e alive conf r s = Some ((a, o), s') ->
  outcome e alive s held r (a, o) s'.
Proof.
  intros Hre Hr Hal Hst. destruct (reaches_inv e alive conf s held tr Hre) as [Hi _].
  pose proof (run_request_ok e alive conf s held r Hi Hr Hal) as Hok. unfold wp in Hok. by rewrite Hst in Hok.
Qed.

(** C1. The cache refines a finite map with watches, for the requests that it is
    made for.  Every run of it from its start - updates, appends, deltas, look-ups,
    deletions, flushes, sweeps of the expired, watches, statistics, ticks - in which
    each request is [allowed] and no item has 2^15 references when it is made - and the limit of the
    memory is at most 2^35 bytes and that of an item 2^30 - is a run
    of the map: the same requests, at the same times, with the same replies, ending in
    the map that the items linked in the hash map spell.  Not [allowed], and outside
    of the claim, are sizes past the fields of an item, a delta of data that is no
    number within its bytes (such as one space) or whose sum overflows, and the
    release of what is not held. *)
Theorem cache_refines_map s held tr :
  reaches e alive conf s held tr -> spec_run alive (curr_time_ s) (model_of s) tr.
Proof. intros Hre. by apply (reaches_inv e alive conf s held tr). Qed.

(** C2. No request that the cache is made for brings it down: from every state that
    such a run reaches, as long as no item has 2^15 references, an [allowed] call - of
    sizes that fit the fields of an item, a delta that neither reads past its number nor
    overflows, a release of what is held - fails no assertion, follows no dangling
    pointer, copies nothing outside an item's memory and ends; the clients hold
    what they were given, and the reply is one of the reference. *)
Theorem cache_never_fails s held tr r :
  reaches e alive conf s held tr -> roomy held -> allowed s held r ->
  exists a o s' held', run_request e alive conf r s = Some ((a, o), s') /\
    owns r a o s s' held held' /\ reaches e alive conf s' held' (tr ++ [(r, a)]) /\
    spec_step alive (time_of s) r a (model_of s) (model_of s').
Proof.
  intros Hre Hr Hal. destruct (reaches_inv e alive conf s held tr Hre) as [Hi _].
  destruct (proj1 (wp_run _ _ _) (run_request_ok e alive conf s held r Hi Hr Hal)) as ([a o]&s'&Hst&[Hs _ (held'&Ho&_)]).
  exists a, o, s', held'. split_and!; try done. by eapply reaches_step.
Qed.

(** C10. Memory and references are accounted for, whatever was asked: the memory in
    use is the sum of the sizes of the allocated items and within the limit; no
    item is in two lists; an item that is not in a free list fits the size of its
    class, and its [ref_count] is the number of references the clients hold to it,
    plus one if it is in the hash map and one if it waits to be freed - never 0;
    and no two linked items have the same key. *)
Theorem cache_accounts s held tr :
  reaches e alive conf s held tr ->
  mem_used_ s = mem_of (heap s) /\ mem_used_ s <= mem_limit_ s /\ NoDup (placed s) /\
  (forall p it, heap s !! p = Some it -> p ∉ concat (free_cache_list_ s) ->
     ref_count it = refs s held p /\ 0 < refs s held p /\
     sizeof_Cache_Item + key_length it + data_size it + ext_size it <= size_of (slab_ s) (class_id it) /\
     Z.of_nat (length (body it)) = size_of (slab_ s) (class_id it) - offsetof_body) /\
  (forall p q itp itq, p ∈ linked s -> q ∈ linked s -> heap s !! p = Some itp -> heap s !! q = Some itq ->
     key_of itp = key_of itq -> p = q).
Proof.
  intros Hre. destruct (reaches_inv e alive conf s held tr Hre) as [[Hc _] _].
  split_and!; try apply Hc. intros p it Hp Hn. destruct (c_item _ _ _ Hc p it Hp Hn) as (Hwf&Hrf&Hpos).
  split_and!; [done|done|by destruct Hwf|by destruct Hwf].
Qed.

Lemma realtime_later t x : 0 <= t < 2 ^ 32 -> 0 <= x < 2 ^ 32 -> Current_Time.realtime t x = 0 \/ t < Current_Time.realtime t x.
Proof.
  intros Ht Hx. unfold Current_Time.realtime. destruct (Z.eqb_spec x 0); [by left|]. rewrite wrap_small by lia.
  destruct (x + t <=? 0xFFFFFFFF); [right; lia|by left].
Qed.

Lemma get_gives k w b s reason x o s1 :
  run_request e alive conf (Get k w b) s = Some ((Found reason (Some x), o), s1) -> exists p, o = Some p.
Proof.
  unfold run_request, mbind, ST_bind. destruct (Mgr.get _ _ _ _ _ _ s) as [[r s0]|]; [|done].
  unfold read_found. destruct r.1 as [[p y]|]; [|done]. unfold mbind, ST_bind. destruct (Mgr.item p s0) as [[it s2]|]; [|done].
  intros [= _ _ <- _]. by exists p.
Qed.

(** C14. What was set is what is got: after a successful [set] without a watch, a
    [get] of the key finds the data with its content type, the flags and the cache id of the reply,
    and the time the entry has left. *)
Theorem set_then_get s held tr r id s1 o :
  reaches e alive conf s held tr -> roomy held -> allowed s held (Put r) ->
  put_sub_op r = 0 -> put_watch r = 0 -> put_expiration r < 2 ^ 32 ->
  run_request e alive conf (Put r) s = Some ((Updated XIXI_REASON_SUCCESS (Some id), o), s1) ->
  let t := Current_Time.realtime (time_of s) (put_expiration r) in
  exists p s2, run_request e alive conf (Get (put_group r, put_key r) 0 false) s1 =
    Some ((Found XIXI_REASON_SUCCESS (Some (mk_entry (put_flags r) t id (put_data r) (put_ext r) [],
             if t =? 0 then 0 else t - time_of s)), Some p), s2).
Proof.
  intros Hre Hr Hal Hop Hw Hx Hst t.
  destruct (run_outcome s held tr _ _ _ s1 Hre Hr Hal Hst) as [Hstep Hclk (h1&Hown&Hi1)]. cbn [fst snd spec_clock] in *.
  destruct Hstep as (large&oom&oom'&id0&reason&oid&[= <- <-]&Hs). unfold spec_put in Hs.
  destruct large; [done|]. destruct oom; [done|]. unfold spec_dispatch in Hs. rewrite Hop, Hw in Hs. cbn [Z.eqb] in Hs.
  assert (exists ws, id0 = id /\ model_of s1 = (<[(put_group r, put_key r) :=
    mk_entry (put_flags r) t id (put_data r) (put_ext r) []]> (view s), ws)) as (ws&_&Hm).
  { revert Hs. generalize (model_of s1). intros m1. unfold spec_update, stored, watched. cbn -[model_of].
    case_match; [case_match|]; intros [= -> ->]; by eexists. }
  assert (h1 = held) as ->.
  { destruct o as [p|].
    - unfold run_request, mbind, ST_bind in Hst. by destruct (put e alive r s) as [[??]|].
    - apply owns_none in Hown; [|done]. exact Hown. }
  destruct (proj1 (reaches_inv e alive conf s held tr Hre)) as [_ [_ _ Hck _]].
  destruct (proj1 (wp_run _ _ _) (run_request_ok e alive conf s1 held (Get (put_group r, put_key r) 0 false) Hi1 Hr I))
    as ([a2 o2]&s2&Hst2&[Hstep2 _ (h2&Hown2&_)]).
  cbn [fst snd] in *. destruct Hstep2 as (reason2&en2&->&Hs2). unfold spec_get in Hs2. rewrite Hm in Hs2. cbn [fst snd] in Hs2.
  rewrite lookup_insert_eq in Hs2. cbn [e_expire_time] in Hs2.
  assert (time_of s1 = time_of s) as Ht1 by (unfold time_of; by rewrite Hclk). rewrite Ht1 in Hs2.
  pose proof Hal as (_&_&_&Hx0). assert ((t =? 0) || (time_of s <? t) = true) as Hnew.
  { destruct (realtime_later (time_of s) (put_expiration r) Hck ltac:(lia)) as [Hz|Hz]; fold t in Hz.
    - by rewrite Hz.
    - destruct (Z.ltb_spec (time_of s) t); [apply orb_true_r|lia]. }
  rewrite Hnew in Hs2. cbn [watch_ok Z.eqb orb] in Hs2. unfold watch_ok in Hs2. cbn in Hs2.
  injection Hs2 as -> -> _. apply get_gives in Hst2 as Hp. destruct Hp as [p ->]. by exists p, s2.
Qed.

(** C15. A [get] never answers with an entry that has expired, and tells the time
    that is left: what is found never expires, and 0 is answered, or expires later
    than now; and an entry past its time is gone after the call. *)
Theorem get_not_expired s held tr k w b reason en o s1 :
  reaches e alive conf s held tr -> roomy held ->
  run_request e alive conf (Get k w b) s = Some ((Found reason en, o), s1) ->
  match en with
  | Some (en, rest) => (e_expire_time en = 0 /\ rest = 0) \/ (time_of s < e_expire_time en /\ rest = e_expire_time en - time_of s)
  | None => forall old, view s !! k = Some old -> e_expire_time old <> 0 -> e_expire_time old <= time_of s -> view s1 !! k = None
  end.
Proof.
  intros Hre Hr Hst. destruct (run_outcome s held tr (Get k w b) _ _ s1 Hre Hr I Hst) as [(reason'&en'&[= <- <-]&Hs) _ _].
  unfold spec_get in Hs. cbn [model_of fst snd] in Hs. destruct (view s !! k) as [old|]; [|by injection Hs as -> -> _ _].
  destruct (Z.eqb_spec (e_expire_time old) 0) as [Hz|Hz], (Z.ltb_spec (time_of s) (e_expire_time old)) as [Ht|Ht]; cbn [orb] in Hs.
  all: try (destruct (watch_ok w (watch_map_ s)); injection Hs as -> -> _ _; cbn; [auto|by intros ? [= <-] ?; lia]).
  injection Hs as -> -> Hv _. intros ? [= <-] _ _. rewrite Hv. apply lookup_delete_eq.
Qed.

(** C16. [flush] empties its group and nothing else: afterwards no key of the group
    is found and every other entry is as before; the reply counts the entries that
    went, and their bytes. *)
Theorem flush_empties_group s held tr g c z o s1 :
  reaches e alive conf s held tr -> roomy held ->
  run_request e alive conf (Flush_group g) s = Some ((Flushed c z, o), s1) ->
  (forall k, view s1 !! k = if k.1 =? g then None else view s !! k) /\
  exists vs, vs ≡ₚ base.filter (in_group g) (map_to_list (view s)) /\ c = u32 (Z.of_nat (length vs)) /\ z = u64 (total_of vs).
Proof.
  intros Hre Hr Hst. destruct (run_outcome s held tr (Flush_group g) _ _ s1 Hre Hr I Hst) as [(vs&Hvs&[= -> ->]&Hs) _ _].
  split; [|by exists vs]. intros k. apply (f_equal fst) in Hs. cbn [model_of fst snd] in Hs. rewrite Hs, swept_map. cbn [model_of fst].
  destruct (view s !! k) as [en|] eqn:E.
  - destruct (Z.eqb_spec k.1 g) as [Hg|Hg].
    + apply map_lookup_filter_None. right. intros en' Hen. cbn. intros Hn. apply Hn. rewrite Hvs.
      apply list_elem_of_fmap. exists (k, en'). split; [done|]. apply list_elem_of_filter. split; [exact Hg|]. by apply elem_of_map_to_list.
    + apply map_lookup_filter_Some. split; [done|]. cbn. rewrite Hvs. intros ([k' en']&->&[Hin _]%list_elem_of_filter)%list_elem_of_fmap. done.
  - destruct (Z.eqb_spec k.1 g) as [Hg|Hg]; apply map_lookup_filter_None; by left.
Qed.

(** A mismatch takes a reference to the entry, and keeps it. *)
Lemma mismatch_step s held p it expected fl :
  inv e s held -> roomy held -> p ∈ linked s -> heap s !! p = Some it -> matches expected (entry_of it) = false ->
  wp (Mgr.update_flags e alive (key_of it).1 (key_of it).2 expected fl) s (fun _ s' =>
    inv e s' (give p 1 held) /\ model_of s' = model_of s /\ p ∈ linked s' /\ heap s' !! p = Some (with_ref it)).
Proof.
  intros Hi Hr Hp Hit Hm. pose proof (inv_core e _ _ Hi) as Hc. unfold Mgr.update_flags. apply wp_bind.
  eapply (wp_do_get e s held (key_of it)); [done|by apply roomy_room| |].
  - intros Hn. by rewrite (view_item e s held p it Hc Hp Hit) in Hn.
  - intros q itq Hq Hitq Hk _ Hi1. assert (q = p) as -> by (by eapply (c_uniq _ _ _ Hc)).
    rewrite Hit in Hitq. injection Hitq as <-. apply wp_bind. eapply wp_item; [apply lookup_insert_eq|].
    change ((expected =? 0) || (expected =? cache_id (with_ref it))) with (matches expected (entry_of it)). rewrite Hm.
    pose proof (view_with_ref e s held p it Hi Hi1 Hit Hp) as Hv1.
    apply wp_bind. eapply (wp_stat_old e s (touch p (with_ref it) s) held p (with_ref it)); [exact Hi1| |done|exact Hv1|done| |].
    + split; [apply lookup_insert_eq|done|]. rewrite give_eq. pose proof (c_held _ _ _ Hc p). lia.
    + pose proof (class_range _ _ (c_slab _ _ _ Hc) (proj1 (linked_item e s held p it Hc Hp Hit))). solve_event.
    + intros s2 Hi2 [Ho2 Hl2 _] Hw2 Hv2 _. apply wp_ret. split_and!; try done.
      unfold model_of. by rewrite Hv2, (sw_watch _ _ Hw2).
Qed.

(** Mismatches, one after another. *)
Fixpoint mismatches (n : nat) (k : key) (expected fl : Z) (s : Cache_Mgr) : option Cache_Mgr :=
  match n with
  | O => Some s
  | S n => match Mgr.update_flags e alive k.1 k.2 expected fl s with
           | Some (_, s) => mismatches n k expected fl s
           | None => None
           end
  end.

Lemma mismatches_run n p expected fl s held it :
  inv e s held -> (forall q, held q + Z.of_nat n < 2 ^ 15) -> p ∈ linked s -> heap s !! p = Some it ->
  matches expected (entry_of it) = false ->
  exists s' it', mismatches n (key_of it) expected fl s = Some s' /\ model_of s' = model_of s /\
    inv e s' (give p (Z.of_nat n) held) /\ p ∈ linked s' /\ heap s' !! p = Some it' /\ key_of it' = key_of it.
Proof.
  revert s held it. induction n as [|n IH]; intros s held it Hi Hr Hp Hit Hm; cbn [mismatches].
  - exists s, it. split_and!; try done. eapply inv_held; [|exact Hi]. intros q. apply give_0.
  - destruct (proj1 (wp_run _ _ _) (mismatch_step s held p it expected fl Hi ltac:(intros q; pose proof (Hr q); lia) Hp Hit Hm))
      as (a&s1&->&Hi1&Hm1&Hp1&Hit1).
    destruct (IH s1 (give p 1 held) (with_ref it) Hi1) as (s'&it'&Hrun&Hm'&Hi'&Hq&Hitq&Hkq); try done.
    { intros q. pose proof (Hr q). unfold give. case_decide; lia. }
    exists s', it'. split_and!; try done; [by rewrite Hm', Hm1|].
    eapply inv_held; [|exact Hi']. intros q. rewrite give_give. unfold give. case_decide; lia.
Qed.

(** C39. Every update of the flags that does not match the entry costs a reference
    that nobody gives back: after [n] of them the entry is unchanged and its item
    counts [n] references more than the clients and the hash map hold, so that it
    outlives its deletion; the counter has 16 bits. *)
Theorem mismatch_leaks n k expected fl s held en :
  inv e s held -> (forall p, held p + Z.of_nat n < 2 ^ 15) -> view s !! k = Some en -> matches expected en = false ->
  exists s' p it, mismatches n k expected fl s = Some s' /\ model_of s' = model_of s /\
    inv e s' (give p (Z.of_nat n) held) /\ p ∈ linked s' /\ heap s' !! p = Some it /\ key_of it = k /\
    ref_count it = held p + Z.of_nat n + 1.
Proof.
  intros Hi Hr Hv Hm. destruct (proj1 (view_lookup e s held k en (inv_core e _ _ Hi)) Hv) as (p&Hp&(it&Hit&<-&<-)%kv_Some).
  destruct (mismatches_run n p expected fl s held it Hi Hr Hp Hit Hm) as (s'&it'&Hrun&Hm'&Hi'&Hp'&Hit'&Hk').
  exists s', p, it'. split_and!; try done. pose proof (inv_core e _ _ Hi') as Hc'.
  destruct (linked_item e s' _ p it' Hc' Hp' Hit') as (_&->&_). by rewrite (refs_linked e s' _ p Hc' Hp'), give_eq.
Qed.
End properties.

(** ** The properties at work, in the demonstration cache *)
Section witnesses.
Import Demo.

Definition replied : list (request * reply) := zip requests (replies requests).

Lemma demo_reaches : reaches LittleEndian alive conf (left_by requests) (fun _ => 0) replied.
Proof. apply left_by_reaches; [by vm_compute|]. apply (bool_decide_unpack _). by vm_compute. Qed.

Lemma cache_refines_map_witness :
  replied.*2 = [Updated XIXI_REASON_SUCCESS (Some 1); Updated XIXI_REASON_EXISTS None; Removed XIXI_REASON_SUCCESS;
                Updated XIXI_REASON_SUCCESS (Some 2)] /\
  spec_run alive (curr_time_ (left_by requests)) (model_of (left_by requests)) replied.
Proof.
  split; [by vm_compute|]. apply (cache_refines_map LittleEndian alive conf (left_by requests) (fun _ => 0) replied). exact demo_reaches.
Defined.

Lemma cache_never_fails_witness :
  exists a o s' held', run_request LittleEndian alive conf (Flush_group 3) (left_by requests) = Some ((a, o), s') /\
    reaches LittleEndian alive conf s' held' (replied ++ [(Flush_group 3, a)]).
Proof.
  destruct (cache_never_fails LittleEndian alive conf (left_by requests) (fun _ => 0) replied (Flush_group 3)) as (a&o&s'&held'&Hst&_&Hre&_).
  - exact demo_reaches.
  - exact nobody_roomy.
  - exact I.
  - exists a, o, s', held'. split; [exact Hst|exact Hre].
Defined.

Lemma cache_accounts_witness : mem_used_ (left_by requests) = 256 /\ mem_used_ (left_by requests) <= mem_limit_ (left_by requests).
Proof.
  destruct (cache_accounts LittleEndian alive conf (left_by requests) (fun _ => 0) replied demo_reaches) as (_&Hle&_).
  split; [by vm_compute|exact Hle].
Defined.

Lemma set_then_get_witness :
  exists p s1 s2, go (Put (set1 [49; 52])) (left_by requests) = Some ((Updated XIXI_REASON_SUCCESS (Some 3), None), s1) /\
    go (Get (3, key1) 0 false) s1 = Some ((Found XIXI_REASON_SUCCESS (Some (mk_entry 5 0 3 [49; 52] [] [], 0)), Some p), s2).
Proof.
  destruct (answers (go (Put (set1 [49; 52])) (left_by requests)) (Updated XIXI_REASON_SUCCESS (Some 3), None)) as [s1 Hs1]; [by vm_compute|].
  destruct (set_then_get LittleEndian alive conf (left_by requests) (fun _ => 0) replied (set1 [49; 52]) 3 s1 None) as (p&s2&Hget).
  - exact demo_reaches.
  - exact nobody_roomy.
  - split_and!; by vm_compute.
  - reflexivity.
  - reflexivity.
  - by vm_compute.
  - exact Hs1.
  - exists p, s1, s2. split; [exact Hs1|exact Hget].
Defined.

(** An entry for a second, two seconds later. *)
Definition expiring : list request := [Put (mk_put 0 3 key1 [49] 5 1 0 0 []); Tick 1002].
Lemma get_not_expired_witness :
  exists s1, go (Get (3, key1) 0 false) (left_by expiring) = Some ((Found XIXI_REASON_NOT_FOUND None, None), s1) /\
    (forall old, view (left_by expiring) !! (3, key1) = Some old -> e_expire_time old <> 0 ->
       e_expire_time old <= time_of (left_by expiring) -> view s1 !! (3, key1) = None).
Proof.
  destruct (answers (go (Get (3, key1) 0 false) (left_by expiring)) (Found XIXI_REASON_NOT_FOUND None, None)) as [s1 Hs1]; [by vm_compute|].
  exists s1. split; [exact Hs1|].
  apply (get_not_expired LittleEndian alive conf (left_by expiring) (fun _ => 0) (zip expiring (replies expiring)) (3, key1) 0 false
    XIXI_REASON_NOT_FOUND None None s1).
  - apply left_by_reaches; [by vm_compute|]. apply (bool_decide_unpack _). by vm_compute.
  - exact nobody_roomy.
  - exact Hs1.
Defined.

Lemma flush_empties_group_witness :
  exists s1, go (Flush_group 3) (left_by requests) = Some ((Flushed 1 84, None), s1) /\
    forall k, view s1 !! k = if k.1 =? 3 then None else view (left_by requests) !! k.
Proof.
  destruct (answers (go (Flush_group 3) (left_by requests)) (Flushed 1 84, None)) as [s1 Hs1]; [by vm_compute|].
  exists s1. split; [exact Hs1|].
  apply (flush_empties_group LittleEndian alive conf (left_by requests) (fun _ => 0) replied 3 1 84 None s1).
  - exact demo_reaches.
  - exact nobody_roomy.
  - exact Hs1.
Defined.

(** Three mismatches leave three references. *)
Definition one : list request := [Put (set1 [49; 50])].
Lemma mismatch_leaks_witness :
  exists s' p it, mismatches LittleEndian alive 3 (3, key1) 77 0 (left_by one) = Some s' /\ heap s' !! p = Some it /\ ref_count it = 4.
Proof.
  destruct (mismatch_leaks LittleEndian alive 3 (3, key1) 77 0 (left_by one) (fun _ => 0) (mk_entry 5 0 1 [49; 50] [] []))
    as (s'&p&it&Hrun&_&_&_&Hit&_&Hrc).
  - apply (reaches_inv LittleEndian alive conf _ _ (zip one (replies one))). apply left_by_reaches; [by vm_compute|].
    apply (bool_decide_unpack _). by vm_compute.
  - intros p. lia.
  - by vm_compute.
  - reflexivity.
  - exists s', p, it. split; [exact Hrun|]. split; [exact Hit|exact Hrc].
Defined.

Definition short_lived : list request := [Put (mk_put 0 3 key1 [49] 5 1000 0 0 [])].
Definition touched : Cache_Mgr := from_option snd state (go (Get_touch (3, key1) 0 0) (left_by short_lived)).

(** An entry that was touched with expiration 0 - to stay forever - is removed
    by the next sweep: its item waits in the list of its former expiration, where 0
    counts as past. *)
Theorem touched_forever_expires :
  exists s p it s1, go (Get_touch (3, key1) 0 0) (left_by short_lived) =
      Some ((Found XIXI_REASON_SUCCESS (Some (mk_entry 5 0 1 [49] [] [], 0)), Some p), s) /\
    heap s !! p = Some it /\ expire_time it = 0 /\ time_of s = 8 /\
    go Check_expired s = Some ((Done, None), s1) /\ view s1 !! (3, key1) = None.
Proof.
  destruct (answers (go (Get_touch (3, key1) 0 0) (left_by short_lived))
    (Found XIXI_REASON_SUCCESS (Some (mk_entry 5 0 1 [49] [] [], 0)), Some 2%positive)) as [s Hs]; [by vm_compute|].
  assert (s = touched) as -> by (unfold touched; by rewrite Hs).
  destruct (answers (go Check_expired touched) (Done, None)) as [s1 Hs1]; [by vm_compute|].
  assert (s1 = from_option snd state (go Check_expired touched)) as -> by (by rewrite Hs1).
  eexists touched, 2%positive, _, _. split; [exact Hs|]. split; [by vm_compute|]. split; [by vm_compute|].
  split; [by vm_compute|]. split; [exact Hs1|]. by vm_compute.
Qed.

(** A request whose sizes add up to 2^32 gets an item of the smallest class:
    [CALC_ITEM_SIZE] wraps around, and so does the length of the body that is read
    into it.  The item then says that it holds 4294967280 bytes of data, and reading
    them leaves its memory. *)
Theorem huge_update_overreads :
  exists p s it, Store.begin_update 3 16 0 0 (2 ^ 32 - 16) 0 state = Some (inl p, s) /\
    u32 (16 + (2 ^ 32 - 16)) = 0 /\
    heap s !! p = Some it /\ data_size it = 2 ^ 32 - 16 /\ Z.of_nat (length (body it)) = 56 /\ Item.get_data it = None.
Proof.
  destruct (answers (Store.begin_update 3 16 0 0 (2 ^ 32 - 16) 0 state) (inl 2%positive)) as [s Hs]; [by vm_compute|].
  assert (s = from_option snd state (Store.begin_update 3 16 0 0 (2 ^ 32 - 16) 0 state)) as -> by (by rewrite Hs).
  eexists 2%positive, _, _. split; [exact Hs|]. split; [by vm_compute|]. split; [by vm_compute|].
  split; [by vm_compute|]. split; by vm_compute.
Qed.

Definition watched_append (sub_op : Z) : list request :=
  [Create_watch 3 600; Put (mk_put 0 3 key1 [49] 5 0 0 1 []); Put (mk_put sub_op 3 key1 [50] 5 0 0 1 []); Delete (3, key1) 0;
   Check_watch None 3 1 0 600].
(** An [append] under a watch succeeds and sets no watch: the watch goes to the
    item of the request, which is given back, and the entry that is stored has
    none, so that its deletion is never told.  The same requests with [set] in the
    place of the append do tell it. *)
Theorem append_loses_watch :
  replies (watched_append 3) =
    [Watched 1; Updated XIXI_REASON_SUCCESS (Some 1); Updated XIXI_REASON_SUCCESS (Some 2); Removed XIXI_REASON_SUCCESS;
     Answered (Some (mkanswer (Some 1) [1] [WATCH_NOTIFY_TYPE_DATA_UPDATED]))] /\
  replies (watched_append 0) =
    [Watched 1; Updated XIXI_REASON_SUCCESS (Some 1); Updated XIXI_REASON_SUCCESS (Some 2); Removed XIXI_REASON_SUCCESS;
     Answered (Some (mkanswer (Some 1) [1; 2] [WATCH_NOTIFY_TYPE_DATA_UPDATED; WATCH_NOTIFY_TYPE_DELETED]))].
Proof. split; by vm_compute. Qed.
End witnesses.
