(* ===== verification/Buffers.v ===== *)
(** * The buffers of a connection, and the small containers of [src/src/util.h]

    [Receive_Buffer] is what a peer reads into, [Cache_Buffer] where it encodes its
    responses; [Simple_Data] is an owned string, [ObjectIDManager] a table of
    reusable ids, [Peer_Mgr] the table of the peers. *)

From S2P Require Import Prelude XixiList XixiHashMap Util Lookup3 Cache CacheInv CacheData.

(** ** [Receive_Buffer], [util.h] lines 297-359 *)

(** [malloc]ed memory of a size, or [NULL]. *)
Class Buffer_Malloc := malloc_buffer : Z -> option bytes.
(** It is as large as asked for, which is at most [PTRDIFF_MAX]. *)
Class Buffer_Malloc_Ok `{Buffer_Malloc} : Prop :=
  malloc_buffer_ok n m : malloc_buffer n = Some m -> Z.of_nat (length m) = n /\ n < 2 ^ 63.

(** [realloc]: the old contents as far as they fit, then what the memory holds. *)
Definition realloc `{Buffer_Malloc} (b : bytes) (n : Z) : option bytes :=
  match malloc_buffer n with
  | Some m => Some (take (Z.to_nat n) b ++ drop (length b) m)
  | None => None
  end.

Module Receive_Buffer.
(** [read_curr_] is its offset in [read_buf_]. *)
Record buffer := mkbuffer {
  read_curr_ : Z;
  read_data_size_ : Z;
  read_buf_ : bytes;
  read_buf_size_ : Z
}.

Section receive_buffer.
Context (DEFAULT_SIZE HIGHWAT_SIZE : Z) `{Buffer_Malloc}.

Definition init (memory : bytes) : buffer := mkbuffer 0 0 memory DEFAULT_SIZE.

Definition get_read_buf (b : buffer) : Z := read_curr_ b + read_data_size_ b.
Definition get_read_buf_size (b : buffer) : Z := u32 (read_buf_size_ b - read_curr_ b - read_data_size_ b).

(** [memmove] within the memory; none outside of it. *)
Definition memmove (dst src n : Z) (m : bytes) : option bytes :=
  match mem_read src n m with Some d => mem_write dst d m | None => None end.

(** Lines 322-327, 328-340, and 342-353. *)
Definition to_front (b : buffer) : option buffer :=
  if negb (read_curr_ b =? 0) then
    match (if read_data_size_ b >? 0 then memmove 0 (read_curr_ b) (read_data_size_ b) (read_buf_ b) else Some (read_buf_ b)) with
    | Some m => Some (b <| read_buf_ := m |> <| read_curr_ := 0 |>)
    | None => None
    end
  else Some b.
(** [None] for the [return] in it. *)
Definition grow (b : buffer) : option buffer :=
  if u32 (s32 (get_read_buf_size b)) <? DEFAULT_SIZE then
    let new_size := s32 (u32 (read_buf_size_ b * 2)) in
    match realloc (read_buf_ b) (u64 new_size) with
    | Some m => Some (b <| read_buf_ := m |> <| read_buf_size_ := u32 new_size |>)
    | None => None
    end
  else Some b.
Definition shrink (b : buffer) : option buffer :=
  if (read_buf_size_ b >? HIGHWAT_SIZE) && (read_data_size_ b <? DEFAULT_SIZE) then
    match to_front b with
    | Some b =>
        let b := match realloc (read_buf_ b) DEFAULT_SIZE with
                 | Some m => b <| read_buf_ := m |> <| read_buf_size_ := DEFAULT_SIZE |>
                 | None => b
                 end in
        Some (b <| read_curr_ := 0 |>)
    | None => None
    end
  else Some b.
Definition handle_processed (b : buffer) : option buffer :=
  match to_front b with
  | Some b => match grow b with Some b => shrink b | None => Some b end
  | None => None
  end.

(** What a read of a socket does with [get_read_buf] and [get_read_buf_size], and
    what processing a part of the data does. *)
Definition received (src : bytes) (b : buffer) : option buffer :=
  if Z.of_nat (length src) <=? get_read_buf_size b then
    match mem_write (get_read_buf b) src (read_buf_ b) with
    | Some m => Some (b <| read_buf_ := m |> <| read_data_size_ ::= fun n => u32 (n + Z.of_nat (length src)) |>)
    | None => None
    end
  else None.
Definition processed (n : Z) (b : buffer) : buffer :=
  b <| read_curr_ ::= fun c => c + n |> <| read_data_size_ ::= fun s => u32 (s - n) |>.

(** The data that was received and not yet processed. *)
Definition data (b : buffer) : bytes := region (read_curr_ b) (read_data_size_ b) (read_buf_ b).

Record wf (b : buffer) : Prop := {
  wf_curr : 0 <= read_curr_ b;
  wf_data : 0 <= read_data_size_ b;
  wf_fits : read_curr_ b + read_data_size_ b <= read_buf_size_ b;
  wf_size : read_buf_size_ b = Z.of_nat (length (read_buf_ b));
  wf_range : DEFAULT_SIZE <= read_buf_size_ b < 2 ^ 31
}.
End receive_buffer.
End Receive_Buffer.

(** ** [Cache_Buffer], [cache_buffer.hpp] *)
Module Cache_Buffer.
(** [extend_] is the chain of the blocks' sizes, the newest first. *)
Record buffer := mkbuffer { total_size_ : Z; offset_ : Z; extend_ : list Z }.

(** Where a piece lies: the block - 0 is [base_buf_], then the extensions from the
    oldest - and the offset. *)
Record place := mkplace { block : nat; at_ : Z }.

Section cache_buffer.
Context (BASE_SIZE : Z) (malloc_block : Z -> bool).

Definition init : buffer := mkbuffer 0 0 [].

(** Lines 38-65; [None] for [NULL]. *)
Definition prepare (size : Z) (b : buffer) : option place * buffer :=
  let advance (b : buffer) := b <| offset_ ::= fun o => u32 (o + size) |> <| total_size_ ::= fun t => u32 (t + size) |> in
  if u32 (size + total_size_ b) <=? BASE_SIZE then (Some (mkplace 0 (offset_ b)), advance b)
  else
    let ready := match extend_ b with [] => false | n :: _ => u32 (size + offset_ b) <=? n end in
    if ready then (Some (mkplace (length (extend_ b)) (offset_ b)), advance b)
    else
      let buf_size := if BASE_SIZE <? size then size else BASE_SIZE in
      if malloc_block buf_size then
        let b := b <| extend_ ::= cons buf_size |> <| offset_ := 0 |> in
        (Some (mkplace (length (extend_ b)) (offset_ b)), advance b)
      else (None, b).

(** Lines 67-75. *)
Definition reset (b : buffer) : buffer := init.
Definition totla_size (b : buffer) : Z := total_size_ b.

(** A run of [prepare]s: the pieces handed out, with their sizes. *)
Fixpoint prepares (sizes : list Z) (b : buffer) : list (place * Z) * buffer :=
  match sizes with
  | [] => ([], b)
  | n :: sizes =>
      let '(p, b) := prepare n b in
      let '(ps, b) := prepares sizes b in
      (match p with Some p => (p, n) :: ps | None => ps end, b)
  end.
(** The size of a block. *)
Definition block_size (b : buffer) (i : nat) : Z :=
  match i with O => BASE_SIZE | S i => default 0 (rev (extend_ b) !! i) end.
End cache_buffer.
End Cache_Buffer.

Module Receive_BufferFacts.
Import Receive_Buffer.
Section facts.
Context (DEFAULT_SIZE HIGHWAT_SIZE : Z) `{Buffer_Malloc} `{!Buffer_Malloc_Ok}.
Context (Hdef : 0 < DEFAULT_SIZE) (Hhigh : DEFAULT_SIZE <= HIGHWAT_SIZE) (Hdef31 : DEFAULT_SIZE < 2 ^ 31).
Abbreviation wf := (wf DEFAULT_SIZE).
Abbreviation handle_processed := (handle_processed DEFAULT_SIZE HIGHWAT_SIZE).

Lemma realloc_some b n m : realloc b n = Some m ->
  Z.of_nat (length m) = n /\ n < 2 ^ 63 /\ forall i, (i < length b)%nat -> Z.of_nat i < n -> m !! i = b !! i.
Proof.
  unfold realloc. destruct (malloc_buffer n) as [f|] eqn:E; [|done]. intros [= <-].
  destruct (malloc_buffer_ok _ _ E) as [Hl Hn]. split_and!; [rewrite length_app, length_take, length_drop; lia|done|].
  intros i Hi Hin. rewrite lookup_app_l by (rewrite length_take; lia). apply lookup_take_lt. lia.
Qed.
Lemma realloc_data b n m c d : realloc b n = Some m -> 0 <= c -> 0 <= d -> c + d <= n -> c + d <= Z.of_nat (length b) ->
  region c d m = region c d b.
Proof.
  intros (Hl&_&Hm)%realloc_some Hc Hd Hn Hb. apply list_eq. intros i. rewrite !region_lookup. case_decide; [|done].
  apply Hm; lia.
Qed.

Lemma region_app o n1 n2 b : 0 <= o -> 0 <= n1 -> 0 <= n2 -> region o (n1 + n2) b = region o n1 b ++ region (o + n1) n2 b.
Proof.
  intros. unfold region. rewrite (Z2Nat.inj_add o n1), (Z2Nat.inj_add n1 n2) by lia.
  by rewrite <- drop_drop, take_take_drop.
Qed.

Lemma free_size b : wf b -> get_read_buf_size b = read_buf_size_ b - read_curr_ b - read_data_size_ b.
Proof. intros [? ? ? ? ?]. unfold get_read_buf_size. rewrite wrap_small; lia. Qed.

(** Nothing is lost, and the data moves to the front. *)
Lemma to_front_spec b : wf b -> exists b', to_front b = Some b' /\ wf b' /\ data b' = data b /\ read_curr_ b' = 0 /\
  read_data_size_ b' = read_data_size_ b /\ read_buf_size_ b' = read_buf_size_ b.
Proof.
  intros Hwf. pose proof Hwf as [Hc Hd Hf Hs Hr]. unfold to_front. destruct (Z.eqb_spec (read_curr_ b) 0) as [Hz|Hz]; cbn [negb].
  { by exists b. }
  destruct (Z.gtb_spec (read_data_size_ b) 0) as [Hp|Hp].
  - unfold memmove. rewrite mem_read_region by lia. set (d := region _ _ _).
    assert (Z.of_nat (length d) = read_data_size_ b) as Hl by (apply region_length; lia).
    destruct (mem_write_some 0 d (read_buf_ b)) as [m Hm]; [lia..|]. rewrite Hm. eexists. split; [done|].
    pose proof (mem_write_length _ _ _ _ Hm) as Hml. split; [|split_and!; try done].
    + split; cbn; lia.
    + change (region 0 (read_data_size_ b) m = d). rewrite <- Hl. by eapply region_written.
  - eexists. split; [done|]. split; [split; cbn; lia|]. split_and!; try done. unfold data, region. cbn.
    by replace (read_data_size_ b) with 0 by lia.
Qed.

(** A memory of 1 GiB and more is not doubled: the size wraps to one that is refused. *)
Definition not_doubled (size : Z) : Prop := 2 ^ 30 <= size \/ malloc_buffer (2 * size) = None.

Lemma grow_spec b : wf b -> read_curr_ b = 0 ->
  match grow DEFAULT_SIZE b with
  | Some b' => wf b' /\ data b' = data b /\ read_curr_ b' = 0 /\ read_data_size_ b' = read_data_size_ b /\ 0 < get_read_buf_size b'
  | None => not_doubled (read_buf_size_ b)
  end.
Proof.
  intros Hwf Hc0. pose proof Hwf as [Hc Hd Hf Hs Hr]. unfold grow.
  rewrite wrap_swrap. unfold get_read_buf_size at 1. rewrite wrap_wrap. fold (get_read_buf_size b).
  destruct (Z.ltb_spec (get_read_buf_size b) DEFAULT_SIZE) as [Hlt|Hge]; [|by split_and!; try lia].
  destruct (realloc (read_buf_ b) (u64 (s32 (u32 (read_buf_size_ b * 2))))) as [m|] eqn:E.
  2:{ unfold not_doubled. destruct (Z.le_gt_cases (2 ^ 30) (read_buf_size_ b)); [by left|right].
      unfold realloc in E. destruct (malloc_buffer _) eqn:E'; [done|]. rewrite <- E'. f_equal.
      rewrite (wrap_small 32), swrap_small, wrap_small by lia. lia. }
  pose proof (realloc_some _ _ _ E) as (Hml&Hn&_).
  destruct (Z.le_gt_cases (2 ^ 30) (read_buf_size_ b)) as [Hbig|Hsmall].
  { exfalso. revert Hn. unfold swrap. rewrite !(wrap_small 32 (read_buf_size_ b * 2)) by lia.
    destruct (Z.ltb_spec (read_buf_size_ b * 2) (2 ^ (32 - 1))) as [Hl|Hl]; [change (2 ^ (32 - 1)) with (2 ^ 31) in Hl; lia|].
    unfold wrap. rewrite <- (Z.mod_unique (read_buf_size_ b * 2 - 2 ^ 32) (2 ^ 64) (-1) (2 ^ 64 + read_buf_size_ b * 2 - 2 ^ 32)) by lia. lia. }
  assert (u64 (s32 (u32 (read_buf_size_ b * 2))) = read_buf_size_ b * 2 /\ u32 (s32 (u32 (read_buf_size_ b * 2))) = read_buf_size_ b * 2) as [E64 E32].
  { rewrite (wrap_small 32 (read_buf_size_ b * 2)), swrap_small, !wrap_small by lia. done. }
  rewrite E64 in *. rewrite E32. set (b' := b <| read_buf_ := m |> <| read_buf_size_ := read_buf_size_ b * 2 |>).
  assert (wf b') as Hwf' by (split; cbn; lia). split; [done|]. split.
  - unfold data. cbn. eapply realloc_data; [exact E|lia..].
  - split_and!; try done. rewrite (free_size b' Hwf'). cbn. lia.
Qed.

Lemma shrink_spec b : wf b -> read_curr_ b = 0 ->
  exists b', shrink DEFAULT_SIZE HIGHWAT_SIZE b = Some b' /\ wf b' /\ data b' = data b /\ read_curr_ b' = 0 /\
    (0 < get_read_buf_size b -> 0 < get_read_buf_size b').
Proof.
  intros Hwf Hc0. pose proof Hwf as [Hc Hd Hf Hs Hr]. unfold shrink.
  destruct (Z.gtb_spec (read_buf_size_ b) HIGHWAT_SIZE), (Z.ltb_spec (read_data_size_ b) DEFAULT_SIZE); cbn [andb]; try by exists b.
  unfold to_front. rewrite Hc0. cbn [Z.eqb negb]. destruct (realloc (read_buf_ b) DEFAULT_SIZE) as [m|] eqn:E.
  - pose proof (realloc_some _ _ _ E) as (Hml&_&_). eexists. split; [done|].
    set (b' := b <| read_buf_ := m |> <| read_buf_size_ := DEFAULT_SIZE |> <| read_curr_ := 0 |>).
    assert (wf b') as Hwf' by (split; cbn; lia). split; [done|]. split_and!.
    + unfold data. cbn. rewrite Hc0. eapply realloc_data; [exact E|lia..].
    + done.
    + intros _. rewrite (free_size b' Hwf'). cbn. lia.
  - eexists. split; [done|]. split; [split; cbn; lia|]. split_and!; try done.
    + unfold data. cbn. by rewrite Hc0.
    + unfold get_read_buf_size. cbn. by rewrite Hc0.
Qed.

Lemma handle_processed_spec b : wf b ->
  exists b', handle_processed b = Some b' /\ wf b' /\ data b' = data b /\ read_curr_ b' = 0 /\
    (0 < get_read_buf_size b' \/ read_data_size_ b = read_buf_size_ b /\ not_doubled (read_buf_size_ b)).
Proof.
  intros Hwf. unfold handle_processed. destruct (to_front_spec b Hwf) as (b1&->&Hwf1&Hd1&Hc1&Hs1&Hz1).
  pose proof (grow_spec b1 Hwf1 Hc1) as Hg. destruct (grow DEFAULT_SIZE b1) as [b2|].
  - destruct Hg as (Hwf2&Hd2&Hc2&_&Hp2). destruct (shrink_spec b2 Hwf2 Hc2) as (b3&->&Hwf3&Hd3&Hc3&Hp3).
    exists b3. split; [done|]. split; [done|]. split; [congruence|]. split; [done|]. left. auto.
  - exists b1. split_and!; try done. rewrite Hz1 in Hg. rewrite (free_size b1 Hwf1), Hc1, Hs1, Hz1.
    destruct Hwf. destruct (Z.eq_dec (read_data_size_ b) (read_buf_size_ b)); [by right|left; lia].
Qed.

Lemma received_spec src b : wf b -> Z.of_nat (length src) <= get_read_buf_size b ->
  exists b', received src b = Some b' /\ wf b' /\ data b' = data b ++ src /\
    read_data_size_ b' = read_data_size_ b + Z.of_nat (length src).
Proof.
  intros Hwf Hl. pose proof Hwf as [Hc Hd Hf Hs Hr]. unfold received. rewrite (proj2 (Z.leb_le _ _)) by done.
  rewrite (free_size b Hwf) in Hl. unfold get_read_buf.
  destruct (mem_write_some (read_curr_ b + read_data_size_ b) src (read_buf_ b)) as [m Hm]; [lia..|]. rewrite Hm.
  pose proof (mem_write_length _ _ _ _ Hm) as Hml. eexists. split; [done|].
  assert (u32 (read_data_size_ b + Z.of_nat (length src)) = read_data_size_ b + Z.of_nat (length src)) as Hu by (rewrite wrap_small; lia).
  split; [split; cbn; rewrite ?Hu; lia|]. split; [|cbn; by rewrite Hu]. unfold data. cbn. rewrite Hu.
  rewrite region_app by lia. f_equal; [by apply (region_kept _ _ _ _ _ _ Hm); lia|by eapply region_written].
Qed.

Lemma processed_spec n b : wf b -> 0 <= n <= read_data_size_ b ->
  wf (processed n b) /\ data (processed n b) = drop (Z.to_nat n) (data b) /\ read_data_size_ (processed n b) = read_data_size_ b - n.
Proof.
  intros [Hc Hd Hf Hs Hr] Hn. assert (u32 (read_data_size_ b - n) = read_data_size_ b - n) as Hu by (rewrite wrap_small; lia).
  split; [split; cbn; rewrite ?Hu; lia|]. split; [|cbn; by rewrite Hu]. unfold data, region. cbn. rewrite Hu.
  rewrite skipn_firstn_comm. f_equal; [lia|]. rewrite drop_drop. f_equal. lia.
Qed.

Lemma data_length b : wf b -> Z.of_nat (length (data b)) = read_data_size_ b.
Proof. intros [Hc Hd Hf Hs Hr]. apply region_length; lia. Qed.
End facts.
End Receive_BufferFacts.

Module Cache_BufferFacts.
Import Cache_Buffer.
Section facts.
Context (BASE_SIZE : Z) (malloc_block : Z -> bool).
Context (Hbase : 0 <= BASE_SIZE < 2 ^ 31).
Implicit Types (b : buffer) (p : place).

(** [total_size_] is what was handed out; the block in use is filled up to
    [offset_], and is the base as long as everything fits it. *)
Record wf b : Prop := {
  wf_total : 0 <= total_size_ b < 2 ^ 32;
  wf_block : match extend_ b with
             | [] => offset_ b = total_size_ b /\ total_size_ b <= BASE_SIZE
             | n :: _ => BASE_SIZE < total_size_ b /\ 0 <= offset_ b <= n /\ offset_ b <= total_size_ b
             end
}.
(** A piece before everything that is still to be handed out. *)
Definition before (b : buffer) (pn : place * Z) : Prop :=
  (block pn.1 < length (extend_ b))%nat \/ (block pn.1 = length (extend_ b) /\ at_ pn.1 + pn.2 <= offset_ b).
Definition inside (b : buffer) (pn : place * Z) : Prop :=
  (block pn.1 <= length (extend_ b))%nat /\ 0 <= at_ pn.1 /\ at_ pn.1 + pn.2 <= block_size BASE_SIZE b (block pn.1).
(** Two pieces that do not overlap. *)
Definition apart (pn qn : place * Z) : Prop :=
  block pn.1 <> block qn.1 \/ at_ pn.1 + pn.2 <= at_ qn.1 \/ at_ qn.1 + qn.2 <= at_ pn.1.

Lemma block_size_newest b n l : extend_ b = n :: l -> block_size BASE_SIZE b (length (extend_ b)) = n.
Proof.
  intros E. unfold block_size. rewrite E. cbn [length rev]. rewrite lookup_app_r by (rewrite length_rev; lia).
  by rewrite length_rev, Nat.sub_diag.
Qed.

Lemma prepare_spec n b : wf b -> 0 <= n -> total_size_ b + n < 2 ^ 32 ->
  match prepare BASE_SIZE malloc_block n b with
  | (Some p, b') => wf b' /\ total_size_ b' = total_size_ b + n /\ inside b' (p, n) /\ before b' (p, n) /\
      (forall qn, before b qn -> apart qn (p, n) /\ before b' qn) /\ (forall qn, inside b qn -> inside b' qn)
  | (None, b') => b' = b
  end.
Proof.
  intros [Ht Hb] Hn Hsum. unfold prepare.
  assert (u32 (n + total_size_ b) = total_size_ b + n) as -> by (rewrite wrap_small; lia).
  assert (u32 (total_size_ b + n) = total_size_ b + n) as Ht' by (rewrite wrap_small; lia).
  destruct (Z.leb_spec (total_size_ b + n) BASE_SIZE) as [Hfit|Hfit].
  - destruct (extend_ b) as [|m l] eqn:Ee; [|lia]. destruct Hb as [Ho _].
    assert (u32 (offset_ b + n) = offset_ b + n) as Ho' by (rewrite wrap_small; lia).
    split; [split; cbn; rewrite ?Ho', ?Ht', ?Ee; lia|]. split; [cbn; by rewrite Ht'|].
    split; [unfold inside; cbn; rewrite ?Ee; cbn; lia|]. split; [right; cbn; rewrite Ee, Ho'; cbn; lia|]. split; [|done].
    intros qn Hq. unfold before, apart in *. cbn. rewrite Ee, Ho' in *. cbn in *. lia.
  - destruct (match extend_ b with [] => false | m :: _ => u32 (n + offset_ b) <=? m end) eqn:Er.
    + destruct (extend_ b) as [|m l] eqn:Ee; [done|]. destruct Hb as (Hb1&Hb2&Hb3).
      rewrite (wrap_small 32 (n + offset_ b)) in Er by lia. apply Z.leb_le in Er.
      assert (u32 (offset_ b + n) = offset_ b + n) as Ho' by (rewrite wrap_small; lia).
      split; [split; cbn; rewrite ?Ho', ?Ht', ?Ee; lia|]. split; [cbn; by rewrite Ht'|].
      split.
      { pose proof (block_size_newest b m l Ee) as Hbs. rewrite Ee in Hbs. split; [cbn; rewrite Ee; cbn; lia|]. split; [cbn; lia|].
        enough (offset_ b + n <= block_size BASE_SIZE b (length (m :: l))) by done. lia. }
      split; [right; cbn; rewrite Ee, Ho'; cbn; lia|]. split; [|done].
      intros qn Hq. unfold before, apart in *. cbn. rewrite Ee, Ho' in *. cbn in *. lia.
    + destruct (malloc_block (if BASE_SIZE <? n then n else BASE_SIZE)); [|done].
      assert (u32 (0 + n) = n) as Ho' by (rewrite wrap_small; lia).
      set (m := if BASE_SIZE <? n then n else BASE_SIZE).
      assert (n <= m) as Hm by (unfold m; destruct (Z.ltb_spec BASE_SIZE n); lia).
      split; [split; cbn; rewrite ?Ho', ?Ht'; lia|]. split; [cbn; by rewrite Ht'|].
      split.
      { split; [cbn; lia|]. split; [done|]. set (b' := mkbuffer 0 0 (m :: extend_ b)).
        enough (n <= block_size BASE_SIZE b' (length (extend_ b'))) by done. by rewrite (block_size_newest b' m (extend_ b)). }
      split; [right; cbn; rewrite Ho'; cbn; lia|]. split.
      * intros qn Hq. unfold before, apart in *. cbn. lia.
      * intros qn (Hq1&Hq2&Hq3). split; [cbn; lia|]. split; [done|]. etrans; [exact Hq3|].
        unfold block_size. cbn. destruct (block qn.1) as [|i] eqn:Ei; [done|]. rewrite lookup_app_l by (rewrite length_rev; lia). done.
Qed.

Lemma prepares_spec sizes : forall b, wf b -> Forall (fun n => 0 <= n) sizes -> total_size_ b + foldr Z.add 0 sizes < 2 ^ 32 ->
  let r := prepares BASE_SIZE malloc_block sizes b in
  Forall (inside r.2) r.1 /\ ForallOrdPairs apart r.1 /\
  (forall qn, before b qn -> Forall (apart qn) r.1) /\ (forall qn, inside b qn -> inside r.2 qn).
Proof.
  induction sizes as [|n sizes IH]; intros b Hwf Hs Hsum; cbn [prepares].
  { split_and!; [constructor|constructor|intros; constructor|done]. }
  apply Forall_cons in Hs as [Hn Hs]. cbn [foldr] in Hsum.
  assert (0 <= foldr Z.add 0 sizes) as Hge by (clear - Hs; induction Hs; cbn; lia).
  pose proof (prepare_spec n b Hwf Hn ltac:(lia)) as Hp. destruct (prepare _ _ n b) as [[p|] b1].
  - destruct Hp as (Hwf1&Ht1&Hin&Hbe&Hap&Hkeep). specialize (IH b1 Hwf1 Hs ltac:(lia)).
    destruct (prepares _ _ sizes b1) as [ps b2]. cbn [fst snd] in *. destruct IH as (IH1&IH2&IH3&IH4). split_and!.
    + constructor; [by apply IH4|done].
    + constructor; [by apply IH3|done].
    + intros qn Hq. destruct (Hap qn Hq). constructor; [done|by apply IH3].
    + auto.
  - subst b1. specialize (IH b Hwf Hs ltac:(lia)). by destruct (prepares _ _ sizes b) as [ps b2].
Qed.
End facts.
End Cache_BufferFacts.

(** ** [Simple_Data], [util.h] lines 173-247: an owned copy with a zero behind it *)
Module Simple_Data.
(** [data] with its terminator, or [NULL]. *)
Record simple := mksimple { data : option bytes; size : Z }.
Section simple_data.
Context (malloc_ok : Z -> bool).

Definition empty : simple := mksimple None 0.
Definition clear (s : simple) : simple := empty.
(** The copy of [n] bytes at [d] into [n + 1] bytes, and [None] for a read past the
    end of the one or a write past the end of the other, when the size wraps to 0. *)
Definition copy (d : bytes) (n : Z) : option bytes :=
  if u32 (n + 1) =? 0 then None else
  match mem_read 0 n d with Some b => Some (b ++ [0]) | None => None end.
(** Lines 176-187, 194-206, 207-217 and 218-228. *)
Definition make (d : option bytes) (s : Z) : option simple :=
  match d with
  | Some d => if s >? 0 then
                if malloc_ok (u32 (s + 1)) then match copy d s with Some b => Some (mksimple (Some b) s) | None => None end
                else Some empty
              else Some empty
  | None => Some empty
  end.
Definition set_data (d : option bytes) (x : simple) : option simple :=
  let x := mksimple None (size x) in
  match d with
  | Some d => if size x >? 0 then
                if malloc_ok (u32 (size x + 1)) then
                  match copy d (size x) with Some b => Some (mksimple (Some b) (size x)) | None => None end
                else Some x
              else Some x
  | None => Some x
  end.
Definition set (d : option bytes) (s : Z) (x : simple) : option simple :=
  match d with
  | Some d => if malloc_ok (u32 (s + 1)) then
                match copy d s with Some b => Some (mksimple (Some b) s) | None => None end
              else Some (clear x)
  | None => Some (clear x)
  end.
(** Lines 236-241: [memcmp] of the sizes, which must be there to be read. *)
Definition equal (x y : simple) : option bool :=
  if size x =? size y then
    if size x =? 0 then Some true else
    match data x, data y with
    | Some a, Some b => Some (bool_decide (take (Z.to_nat (size x)) a = take (Z.to_nat (size x)) b))
    | _, _ => None
    end
  else Some false.
Definition hash_value (e : endian) (x : simple) : Z := hash32 (string_memory (default [] (data x))) e 0 (Z.to_nat (size x)) 0.
End simple_data.
End Simple_Data.

(** ** [ObjectIDManager], [util.h] lines 249-295 *)
Module ObjectIDManager.
Record manager := mkmanager { objects_ : list (option ptr); objects_id_ : list Z }.
Definition new : manager := mkmanager [] [].

(** [None] where the front of an empty list is taken. *)
Definition put_obj (obj : ptr) : ST manager Z := m ← gets id;
  match objects_id_ m with
  | _ :: _ =>
      let id := u32 (Z.of_nat (length (objects_ m))) in
      modify (fun m => m <| objects_ ::= fun l => l ++ [Some obj] |>);; mret id
  | [] => the None
  end.
Definition get_obj (id : Z) (m : manager) : option ptr :=
  if id <? Z.of_nat (length (objects_ m)) then default None (objects_ m !! Z.to_nat id) else None.
Definition pop_obj : ST manager (option ptr) := m ← gets id;
  match last (objects_ m) with
  | Some obj => modify (fun m => m <| objects_ ::= fun l => take (length l - 1) l |>);; mret obj
  | None => mret None
  end.
(** [return obj] as a [bool]. *)
Definition remove_obj (id_ : Z) : ST manager bool := m ← gets id;
  let size := u32 (Z.of_nat (length (objects_ m))) in
  if size =? 0 then mret false
  else if u32 (id_ + 1) =? size then
    modify (fun m => m <| objects_ ::= fun l => take (length l - 1) l |>);;
    mret (bool_decide (is_Some (default None (last (objects_ m)))))
  else
    (if id_ <? size then
       modify (fun m => m <| objects_ ::= <[Z.to_nat id_ := None]> |> <| objects_id_ ::= fun l => l ++ [id_] |>)
     else mret tt);;
    mret false.

Inductive op := Put (obj : ptr) | Pop | Remove (id : Z).
Definition run_op (o : op) : ST manager unit :=
  match o with Put obj => put_obj obj;; mret tt | Pop => pop_obj;; mret tt | Remove id => remove_obj id;; mret tt end.
End ObjectIDManager.

(** ** [Peer_Mgr], [peer.h] lines 69-113 *)
Module Peer_Mgr.
Record manager := mkmanager { peer_map_ : gmap Z ptr; peer_id_ : Z }.
Definition new : manager := mkmanager ∅ 0.

(** Lines 80-94: the loop ends when an id is free; [PEER_ID] has 32 bits. *)
Fixpoint add_loop (fuel : nat) (peer : ptr) (m : manager) : option (Z * manager) :=
  match peer_map_ m !! peer_id_ m with
  | None => Some (peer_id_ m, m <| peer_map_ ::= <[peer_id_ m := peer]> |>)
  | Some _ =>
      match fuel with
      | O => None
      | S fuel => add_loop fuel peer (m <| peer_id_ ::= fun i => u32 (i + 1) |>)
      end
  end.
Definition add (peer : ptr) (m : manager) : option (Z * manager) :=
  let m := m <| peer_id_ ::= fun i => u32 (i + 1) |> in
  add_loop (size (peer_map_ m)) peer m.
Definition remove (id : Z) (m : manager) : manager := m <| peer_map_ ::= base.delete id |>.
End Peer_Mgr.

Module Peer_MgrFacts.
Import Peer_Mgr.
(** The loop takes the first free id, or every id it tried is taken. *)
Lemma add_loop_spec fuel peer m : 0 <= peer_id_ m < 2 ^ 32 ->
  (exists id m', add_loop fuel peer m = Some (id, m') /\ 0 <= id < 2 ^ 32 /\ peer_map_ m !! id = None /\
     peer_map_ m' = <[id := peer]> (peer_map_ m)) \/
  forall k, (k <= fuel)%nat -> is_Some (peer_map_ m !! u32 (peer_id_ m + Z.of_nat k)).
Proof.
  revert m. induction fuel as [|fuel IH]; intros m Hr; cbn [add_loop].
  all: destruct (peer_map_ m !! peer_id_ m) as [p|] eqn:E; [|left; by exists (peer_id_ m), (m <| peer_map_ ::= <[peer_id_ m := peer]> |>)].
  - right. intros k Hk. assert (k = 0%nat) as -> by lia. rewrite Z.add_0_r, wrap_small, E by done. done.
  - set (m1 := m <| peer_id_ ::= _ |>). destruct (IH m1) as [Hs|Hall]; [apply wrap_range; lia|by left|right].
    intros [|k] Hk; [rewrite Z.add_0_r, wrap_small, E by done; done|].
    specialize (Hall k ltac:(lia)). cbn in Hall. rewrite wrap_add_l in Hall. by replace (peer_id_ m + Z.of_nat (S k)) with (peer_id_ m + 1 + Z.of_nat k) by lia.
Qed.
End Peer_MgrFacts.
Import Peer_MgrFacts.

(** ** Properties *)

(** The runs of a receive buffer, and the queue each stands for: bytes come in at
    the free end, are processed from the other, and [handle_processed] makes room. *)
Inductive fed (DEFAULT_SIZE HIGHWAT_SIZE : Z) `{Buffer_Malloc} : Receive_Buffer.buffer -> bytes -> Prop :=
  | fed_init m : Z.of_nat (length m) = DEFAULT_SIZE -> fed DEFAULT_SIZE HIGHWAT_SIZE (Receive_Buffer.init DEFAULT_SIZE m) []
  | fed_received b q src b' : fed DEFAULT_SIZE HIGHWAT_SIZE b q -> Receive_Buffer.received src b = Some b' ->
      fed DEFAULT_SIZE HIGHWAT_SIZE b' (q ++ src)
  | fed_processed b q n : fed DEFAULT_SIZE HIGHWAT_SIZE b q -> 0 <= n <= Z.of_nat (length q) ->
      fed DEFAULT_SIZE HIGHWAT_SIZE (Receive_Buffer.processed n b) (drop (Z.to_nat n) q)
  | fed_handled b q b' : fed DEFAULT_SIZE HIGHWAT_SIZE b q -> Receive_Buffer.handle_processed DEFAULT_SIZE HIGHWAT_SIZE b = Some b' ->
      fed DEFAULT_SIZE HIGHWAT_SIZE b' q.

(** C32. A receive buffer is a queue of bytes: whatever comes in, is processed, and
    however the memory is moved, grown and shrunk in between, its data are the bytes
    received and not processed, in order; a read into its free end stays in its
    memory, and [handle_processed] leaves room to read into - except when the data fill
    all of the memory and it is not doubled, because [realloc] refuses twice its size
    or because it has 1 GiB already. *)
Theorem receive_buffer_is_queue DEFAULT_SIZE HIGHWAT_SIZE `{Buffer_Malloc} `{!Buffer_Malloc_Ok} b q :
  0 < DEFAULT_SIZE <= HIGHWAT_SIZE -> DEFAULT_SIZE < 2 ^ 31 -> fed DEFAULT_SIZE HIGHWAT_SIZE b q ->
  Receive_Buffer.data b = q /\
  Receive_Buffer.get_read_buf b + Receive_Buffer.get_read_buf_size b = Z.of_nat (length (Receive_Buffer.read_buf_ b)) /\
  (forall src, Z.of_nat (length src) <= Receive_Buffer.get_read_buf_size b -> is_Some (Receive_Buffer.received src b)) /\
  exists b', Receive_Buffer.handle_processed DEFAULT_SIZE HIGHWAT_SIZE b = Some b' /\
    (0 < Receive_Buffer.get_read_buf_size b' \/
     Z.of_nat (length q) = Receive_Buffer.read_buf_size_ b /\
     (2 ^ 30 <= Receive_Buffer.read_buf_size_ b \/ malloc_buffer (2 * Receive_Buffer.read_buf_size_ b) = None)).
Proof.
  intros [H1 H2] H3 Hf. assert (Receive_Buffer.wf DEFAULT_SIZE b /\ Receive_Buffer.data b = q) as [Hwf Hq].
  { induction Hf as [m Hm|b q src b' _ [Hwf Hq] Hr|b q n _ [Hwf Hq] Hn|b q b' _ [Hwf Hq] Hh].
    - split; [split; cbn; lia|done].
    - assert (Z.of_nat (length src) <= Receive_Buffer.get_read_buf_size b) as Hl.
      { unfold Receive_Buffer.received in Hr. by destruct (Z.leb_spec (Z.of_nat (length src)) (Receive_Buffer.get_read_buf_size b)). }
      destruct (Receive_BufferFacts.received_spec DEFAULT_SIZE src b Hwf Hl) as (b1&Hb1&Hwf1&Hd1&_).
      rewrite Hr in Hb1. injection Hb1 as <-. by rewrite Hd1, Hq.
    - subst q. rewrite (Receive_BufferFacts.data_length DEFAULT_SIZE b Hwf) in Hn.
      destruct (Receive_BufferFacts.processed_spec DEFAULT_SIZE n b Hwf Hn) as (?&?&_). done.
    - destruct (Receive_BufferFacts.handle_processed_spec DEFAULT_SIZE HIGHWAT_SIZE H1 H2 H3 b Hwf) as (b1&Hb1&Hwf1&Hd1&_).
      rewrite Hh in Hb1. injection Hb1 as <-. by rewrite Hd1, Hq. }
  split; [done|]. split; [|split].
  - rewrite (Receive_BufferFacts.free_size DEFAULT_SIZE b Hwf). destruct Hwf. unfold Receive_Buffer.get_read_buf. lia.
  - intros src Hl. destruct (Receive_BufferFacts.received_spec DEFAULT_SIZE src b Hwf Hl) as (b1&->&_). done.
  - destruct (Receive_BufferFacts.handle_processed_spec DEFAULT_SIZE HIGHWAT_SIZE H1 H2 H3 b Hwf) as (b1&Hb1&_&_&_&Hroom).
    exists b1. split; [done|]. by rewrite <- Hq, (Receive_BufferFacts.data_length DEFAULT_SIZE b Hwf).
Qed.

(** C33. What [Cache_Buffer] hands out until its next [reset] lies inside its blocks
    and no two pieces overlap, however many responses are encoded, as long as their
    sizes add up to less than 4 GiB. *)
Theorem cache_buffer_disjoint BASE_SIZE malloc_block sizes :
  0 <= BASE_SIZE < 2 ^ 31 -> Forall (fun n => 0 <= n) sizes -> foldr Z.add 0 sizes < 2 ^ 32 ->
  let '(ps, b) := Cache_Buffer.prepares BASE_SIZE malloc_block sizes Cache_Buffer.init in
  Forall (fun pn => 0 <= Cache_Buffer.at_ pn.1 /\ Cache_Buffer.at_ pn.1 + pn.2 <= Cache_Buffer.block_size BASE_SIZE b (Cache_Buffer.block pn.1)) ps /\
  ForallOrdPairs Cache_BufferFacts.apart ps.
Proof.
  intros Hb Hs Hsum. assert (Cache_BufferFacts.wf BASE_SIZE Cache_Buffer.init) as Hwf by (split; cbn; lia).
  pose proof (Cache_BufferFacts.prepares_spec BASE_SIZE malloc_block Hb sizes Cache_Buffer.init Hwf Hs Hsum) as Hp.
  destruct (Cache_Buffer.prepares _ _ _ _) as [ps b]. destruct Hp as (Hin&Hap&_). split; [|done].
  eapply Forall_impl; [exact Hin|]. by intros pn (_&?&?).
Qed.

(** [ObjectIDManager] never takes an object: the test of its list of free ids
    is the wrong way round, so that whatever is removed or popped before - ids only
    become free by [remove_obj] - the first [put_obj] takes the front of an empty
    list. *)
Theorem object_ids_unusable os obj :
  (forall o, o ∈ os -> match o with ObjectIDManager.Put _ => False | _ => True end) ->
  exists m, for_each ObjectIDManager.run_op os ObjectIDManager.new = Some (tt, m) /\ ObjectIDManager.put_obj obj m = None.
Proof.
  intros Hos. assert (for_each ObjectIDManager.run_op os ObjectIDManager.new = Some (tt, ObjectIDManager.new)) as Hrun.
  { induction os as [|o os IH]; [done|]. cbn. assert (ObjectIDManager.run_op o ObjectIDManager.new = Some (tt, ObjectIDManager.new)) as Ho.
    { specialize (Hos o ltac:(by left)). destruct o; done. }
    unfold mbind, ST_bind. rewrite Ho. apply IH. intros o' Ho'. apply Hos. by right. }
  exists ObjectIDManager.new. by split.
Qed.

(** Every peer gets an id of its own: [add] ends, as long as not all 2^32 ids
    are taken, with an id that no other peer has, and the other peers stay. *)
Theorem peer_ids_fresh m peer :
  0 <= Peer_Mgr.peer_id_ m ->
  Z.of_nat (size (Peer_Mgr.peer_map_ m)) < 2 ^ 32 ->
  exists id m', Peer_Mgr.add peer m = Some (id, m') /\ 0 <= id < 2 ^ 32 /\ Peer_Mgr.peer_map_ m !! id = None /\
    Peer_Mgr.peer_map_ m' = <[id := peer]> (Peer_Mgr.peer_map_ m).
Proof.
  intros H0 Hs. unfold Peer_Mgr.add. set (m1 := m <| Peer_Mgr.peer_id_ ::= _ |>).
  assert (0 <= Peer_Mgr.peer_id_ m1 < 2 ^ 32) as Hr by (apply wrap_range; lia).
  change (Peer_Mgr.peer_map_ m1) with (Peer_Mgr.peer_map_ m).
  destruct (add_loop_spec (size (Peer_Mgr.peer_map_ m)) peer m1 Hr) as [(id&m'&?&?&?&?)|Hall].
  - by exists id, m'.
  - exfalso. change (Peer_Mgr.peer_map_ m1) with (Peer_Mgr.peer_map_ m) in Hall.
    set (n := size (Peer_Mgr.peer_map_ m)) in *. set (i := Peer_Mgr.peer_id_ m1) in *.
    assert (NoDup ((fun k : nat => u32 (i + Z.of_nat k)) <$> seq 0 (S n))) as Hnd.
    { apply NoDup_fmap_2_strong; [|apply NoDup_seq]. intros x y Hx%elem_of_seq Hy%elem_of_seq.
      intros E. assert (forall k : nat, (k < S n)%nat -> wrap 32 (u32 (i + Z.of_nat k) - i) = Z.of_nat k) as Hk.
      { intros k Hk. rewrite wrap_sub_l. replace (i + Z.of_nat k - i) with (Z.of_nat k) by lia. apply wrap_small. lia. }
      apply Nat2Z.inj. rewrite <- (Hk x), <- (Hk y) by lia. by rewrite E. }
    assert (list_to_set ((fun k : nat => u32 (i + Z.of_nat k)) <$> seq 0 (S n)) ⊆ dom (Peer_Mgr.peer_map_ m)) as Hsub.
    { intros j Hj. apply elem_of_list_to_set, list_elem_of_fmap in Hj as (k&->&Hk%elem_of_seq). apply elem_of_dom, Hall. lia. }
    apply subseteq_size in Hsub. rewrite size_list_to_set, length_fmap, length_seq, size_dom in Hsub by done. lia.
Qed.

(** ** The properties at work *)
Module Buffers_Demo.
#[global] Instance pages : Buffer_Malloc := fun n => if (0 <=? n) && (n <? 2 ^ 20) then Some (replicate (Z.to_nat n) 0) else None.
#[global] Instance pages_ok : Buffer_Malloc_Ok.
Proof.
  intros n m. unfold malloc_buffer, pages. destruct (Z.leb_spec 0 n), (Z.ltb_spec n (2 ^ 20)); try done.
  intros [= <-]. rewrite length_replicate. lia.
Qed.
Definition fresh : Receive_Buffer.buffer := Receive_Buffer.init 4 (replicate 4 0).
Definition three : Receive_Buffer.buffer := default fresh (Receive_Buffer.received [7; 8; 9] fresh).
Definition two : Receive_Buffer.buffer := Receive_Buffer.processed 1 three.
Definition moved : Receive_Buffer.buffer := default fresh (Receive_Buffer.handle_processed 4 8 two).
Lemma moved_fed : fed 4 8 moved [8; 9].
Proof.
  eapply (fed_handled _ _ two); [|by vm_compute]. apply (fed_processed 4 8 three [7; 8; 9] 1); [|by vm_compute].
  apply (fed_received 4 8 fresh [] [7; 8; 9]); [|by vm_compute]. by apply fed_init.
Qed.
End Buffers_Demo.

Lemma receive_buffer_is_queue_witness :
  Receive_Buffer.data Buffers_Demo.moved = [8; 9] /\ Receive_Buffer.get_read_buf_size Buffers_Demo.moved = 6.
Proof.
  destruct (receive_buffer_is_queue 4 8 Buffers_Demo.moved [8; 9]) as (Hd&_).
  - by vm_compute.
  - by vm_compute.
  - exact Buffers_Demo.moved_fed.
  - split; [exact Hd|by vm_compute].
Defined.

Lemma cache_buffer_disjoint_witness :
  let '(ps, b) := Cache_Buffer.prepares 10 (fun _ => true) [4; 4; 4; 12; 3] Cache_Buffer.init in
  ps.*1 = [Cache_Buffer.mkplace 0 0; Cache_Buffer.mkplace 0 4; Cache_Buffer.mkplace 1 0; Cache_Buffer.mkplace 2 0; Cache_Buffer.mkplace 3 0] /\
  ForallOrdPairs Cache_BufferFacts.apart ps.
Proof.
  pose proof (cache_buffer_disjoint 10 (fun _ => true) [4; 4; 4; 12; 3]) as Hp.
  specialize (Hp ltac:(lia) ltac:(repeat constructor; lia) ltac:(reflexivity)).
  destruct (Cache_Buffer.prepares 10 (fun _ => true) [4; 4; 4; 12; 3] Cache_Buffer.init) as [ps b] eqn:E.
  vm_compute in E. injection E as <- <-. split; [reflexivity|apply Hp].
Defined.

Lemma object_ids_unusable_witness : ObjectIDManager.put_obj 1%positive ObjectIDManager.new = None.
Proof.
  destruct (object_ids_unusable [ObjectIDManager.Pop] 1%positive) as (m&Hm&Hp).
  - intros o ->%list_elem_of_singleton. exact I.
  - injection Hm as <-. exact Hp.
Defined.

Lemma peer_ids_fresh_witness :
  exists m', Peer_Mgr.add 5%positive (Peer_Mgr.mkmanager {[ 0 := 1%positive ]} (2 ^ 32 - 1)) = Some (1, m').
Proof.
  destruct (peer_ids_fresh (Peer_Mgr.mkmanager {[ 0 := 1%positive ]} (2 ^ 32 - 1)) 5%positive) as (id&m'&Ha&_).
  - by vm_compute.
  - by vm_compute.
  - exists m'. rewrite Ha. f_equal. f_equal. vm_compute in Ha. congruence.
Defined.
