(* ===== verification/Auth.v ===== *)
(** * Authentication, [src/src/auth.h] and [src/src/auth.cpp]

    What a client sends is base64; Boost decodes it, or throws, and cuts it into
    tokens. *)

From S2P Require Import Prelude Stats.

(** What Boost's iterators make of base64 text, [None] for the exception of a
    character that is none of base64; and the tokens of a text. *)
Class Auth_Library := { binary_of : bytes -> option bytes; tokens_of : bytes -> list bytes }.

Module Auth.
Section auth.
Context `{Auth_Library}.

(** Lines 67-72: the encoding of the result is not used, nor are the arguments. *)
Definition login_plain (user_name password : bytes) : bytes := Stats.literal "SUCCESS".
(** Lines 44-65; [out] is what the caller has in its variable. *)
Definition login (base64 out : bytes) : option bytes :=
  dec ← binary_of base64;
  let para := tokens_of dec in
  Some match para with
       | method :: user_name :: rest =>
           if bool_decide (method = Stats.literal "PLAIN") then
             match rest with password :: _ => login_plain user_name password | [] => Stats.literal "INVALID PARAMETER" end
           else out
       | _ => Stats.literal "INVALID PARAMETER"
       end.

(** Whoever names a user and a password is let in, whatever they are; other methods
    are neither refused nor accepted. *)
Lemma login_anyone base64 out dec user_name password rest : binary_of base64 = Some dec ->
  tokens_of dec = Stats.literal "PLAIN" :: user_name :: password :: rest -> login base64 out = Some (Stats.literal "SUCCESS").
Proof. intros Hd Ht. unfold login. rewrite Hd. cbn. rewrite Ht. by rewrite bool_decide_true. Qed.
Lemma login_other base64 out dec method user_name rest : binary_of base64 = Some dec ->
  tokens_of dec = method :: user_name :: rest -> method <> Stats.literal "PLAIN" -> login base64 out = Some out.
Proof. intros Hd Ht Hm. unfold login. rewrite Hd. cbn. rewrite Ht. by rewrite bool_decide_false. Qed.
(** It is defined exactly if Boost does not throw. *)
Lemma login_defined base64 out : is_Some (login base64 out) <-> is_Some (binary_of base64).
Proof. unfold login. destruct (binary_of base64); cbn; split; intros [x Hx]; try done; by eexists. Qed.
End auth.
End Auth.
