(* ===== verification/Settings.v ===== *)
(** * The configuration, [src/src/settings.h] and [src/src/settings.cpp]

    [Settings] is filled once, at the start: with defaults, then from the elements of
    two XML files.  The XML library is not modelled: a file is what it parses to, a
    tree of nodes, or nothing, and the look-ups in the tree are the library's
    documented ones.  The mime types are in two hash maps, with the elements'
    positions in their lists for pointers. *)

From Stdlib Require Import SpecFloat.
From S2P Require Import Prelude XixiList XixiHashMap Lookup3 Util CurrTime Pdu Stats Watch Slab Cache CacheInv CacheSpec CacheData Buffers.

(** ** The documents *)
Inductive xml_node :=
  | Element (value : bytes) (attributes : list (bytes * bytes)) (children : list xml_node)
  | Text_node (value : bytes)
  | Other_node (value : bytes).

Module Xml.
Definition value (x : xml_node) : bytes :=
  match x with Element v _ _ | Text_node v | Other_node v => v end.
Definition is_element (x : xml_node) : bool := match x with Element _ _ _ => true | _ => false end.
Definition children (x : xml_node) : list xml_node := match x with Element _ _ l => l | _ => [] end.
Definition named (name : bytes) (x : xml_node) : bool := bool_decide (value x = name).
(** [FirstChild(name)] as an [Element()]: none if the first node of the name is not
    one. *)
Definition first_child (name : string) (x : xml_node) : option xml_node :=
  match base.filter (named (Stats.literal name)) (children x) with
  | y :: _ => if is_element y then Some y else None
  | [] => None
  end.
(** [FirstChildElement(name)] and [NextSiblingElement(name)]: all of them in order. *)
Definition elements (name : string) (x : xml_node) : list xml_node :=
  base.filter (fun y => named (Stats.literal name) y && is_element y) (children x).
Definition first_element (name : string) (x : xml_node) : option xml_node := head (elements name x).
(** The first child of a name, and then the elements of that name behind it. *)
Definition from_first (name : string) (x : xml_node) : list xml_node :=
  match first_child name x with Some _ => elements name x | None => [] end.
Definition attribute (name : string) (x : xml_node) : option bytes :=
  match x with Element _ l _ => snd <$> List.find (fun a => bool_decide (a.1 = Stats.literal name)) l | _ => None end.
Definition get_text (x : xml_node) : option bytes :=
  match children x with Text_node v :: _ => Some v | _ => None end.
End Xml.

(** ** The data *)
Record Extension_Mime_Item := mk_mime { externsion : Simple_Data.simple; mime_type : Simple_Data.simple }.
Record Connector := mk_connector { address : bytes; port : Z; ssl : bool; reuse_address : bool }.
Definition MAX_MIME_TYPE_LENGTH : Z := 128.

Record Settings := mk_all_settings {
  home_dir : bytes;
  connectors : list Connector;
  max_bytes_ : Z;
  max_conns : Z;
  factor : spec_float;
  pool_size : Z;
  num_threads_ : Z;
  item_size_min : Z;
  item_size_max : Z;
  log_level : Z;
  max_stats_group_ : Z;
  default_cache_expiration : Z;
  manager_base_url : bytes;
  ext_mime_list : list Extension_Mime_Item;
  ext_mime_map : Buckets.buckets;
  min_gzip_size : Z;
  max_gzip_size : Z;
  gzip_mime_list : list Simple_Data.simple;
  gzip_mime_map : Buckets.buckets;
  default_mime_type : bytes;
  welcome_file_list : list bytes
}.

(** What [stats] and the cache are told of it. *)
Definition cache_settings (s : Settings) : settings := mk_settings (max_bytes_ s) (num_threads_ s) (max_stats_group_ s).

(** An element of a list by its pointer, and the pointer of the next one. *)
Definition item_at {A} (l : list A) (p : ptr) : option A := l !! (Pos.to_nat p - 1)%nat.
Definition next_item {A} (l : list A) : ptr := Pos.of_succ_nat (length l).

(** [atof] of the C library. *)
Class C_Library := atof : bytes -> spec_float.

Module Conf.
Section conf.
Context (e : endian) `{Table_Malloc} `{C_Library} (malloc_data : Z -> bool).

(** Lines 44-92; [dir] is what the file system makes of [homedir]. *)
Definition one_and_a_quarter : spec_float := Double.div (Double.of_Z 5) (Double.of_Z 4).
Definition with_slash (dir : bytes) : bytes := if decide (last dir = Some 47) then dir else dir ++ [47].
Definition init (dir : option bytes) : option Settings :=
  match dir with
  | None | Some [] => None
  | Some dir =>
      Some (mk_all_settings (with_slash dir) [] (768 * 1024 * 1024) 1024 one_and_a_quarter 2 4 48 (5 * 1024 * 1024) 2 1024 600
              (Stats.literal "/manager/") [] (Buckets.init 7) 512 16777216 [] (Buckets.init 7) (Stats.literal "text/html") [])
  end.

(** A text that is the error, or what follows; [""] is success. *)
Abbreviation L A := (ST Settings (bytes + A)%type).
Definition ok {A} (a : A) : L A := mret (inr a).
Definition fails {A} (text : string) : L A := mret (inl (Stats.literal text)).
Definition and_then {A B} (m : L A) (k : A -> L B) : L B :=
  r ← m; match r with inl err => mret (inl err) | inr a => k a end.
(** [safe_toui32] and [safe_toui64] of the text of an element, if it has one. *)
Definition number (parse : option bytes -> Z -> option (option Z)) (put : Z -> Settings -> Settings) (error : string) (x : option xml_node) : L unit :=
  match x ≫= Xml.get_text with
  | None => ok tt
  | Some t =>
      r ← the (parse (Some (t ++ [0])) (Z.of_nat (length t)));
      match r with Some n => modify (put n);; ok tt | None => fails error end
  end.
Definition number32 := number Parse.safe_toui32.
Definition number64 := number Parse.safe_toui64.

(** Lines 120-165: the connectors. *)
Definition truth (t : option bytes) : bool := Str.Util_strcasecmp (default (Stats.literal "false") t) (Stats.literal "true") =? 0.
Definition load_connector (x : xml_node) : L unit :=
  let ssl_flag := truth (Xml.attribute "SSLEnabled" x) in
  let p := default (Stats.literal (if ssl_flag then "443" else "7788")) (Xml.attribute "port" x) in
  r ← the (Parse.safe_toui32 (Some (p ++ [0])) (Z.of_nat (length p)));
  match r with
  | None => fails "[server.xml] reading connector.port error"
  | Some port =>
      modify (fun s => s <| connectors ::= fun l => l ++
        [mk_connector (default (Stats.literal "0.0.0.0") (Xml.attribute "host" x)) port ssl_flag (truth (Xml.attribute "reuse-address" x))] |>);;
      ok tt
  end.
Fixpoint load_all {A} (f : A -> L unit) (l : list A) : L unit :=
  match l with [] => ok tt | x :: l => and_then (f x) (fun _ => load_all f l) end.

(** Lines 167-205. *)
Definition one : spec_float := Double.of_Z 1.
Definition load_factor (x : option xml_node) : L unit :=
  match x ≫= Xml.get_text with
  | None => ok tt
  | Some t =>
      modify (fun s => s <| factor := atof t |>);;
      f ← gets factor;
      if Double.leb f one then fails "[server.xml] reading key-value.factor error" else ok tt
  end.
Definition load_key_value (kv : xml_node) : L unit :=
  and_then (number64 (fun n s => s <| max_bytes_ := n |>) "[server.xml] reading key-value.max-bytes error" (Xml.first_element "max-bytes" kv)) (fun _ =>
  and_then (number32 (fun n s => s <| max_conns := n |>) "[server.xml] reading key-value.max-conns error" (Xml.first_element "max-conns" kv)) (fun _ =>
  and_then (load_factor (Xml.first_element "factor" kv)) (fun _ =>
  and_then (number32 (fun n s => s <| item_size_min := n |>) "[server.xml] reading key-value.min-item-size error" (Xml.first_element "min-item-size" kv)) (fun _ =>
  number32 (fun n s => s <| item_size_max := n |>) "[server.xml] reading key-value.max-item-size error" (Xml.first_element "max-item-size" kv))))).

(** Lines 102-231; [doc] is the first element of the file. *)
Definition load_conf_server (doc : option (option xml_node)) : L unit :=
  match doc with
  | None =>
      s ← gets id;
      mret (inl (Stats.literal "Failed to load " ++ home_dir s ++ Stats.literal "conf/server.xml"))
  | Some None => fails "[server.xml] format error"
  | Some (Some root) =>
      and_then (load_all load_connector (Xml.from_first "connector" root)) (fun _ =>
      and_then (match Xml.first_child "key-value" root with Some kv => load_key_value kv | None => ok tt end) (fun _ =>
      and_then (number32 (fun n s => s <| log_level := n |>) "[server.xml] reading log error" (Xml.first_element "log" root)) (fun _ =>
      and_then (number32 (fun n s => s <| pool_size := n |>) "[server.xml] reading core-number error" (Xml.first_element "core-number" root)) (fun _ =>
      number32 (fun n s => s <| num_threads_ := n |>) "[server.xml] reading thread-number error" (Xml.first_element "thread-number" root)))))
  end.

(** Lines 261-277. *)
Definition load_base_url (x : option xml_node) : L unit :=
  match x with
  | None => ok tt
  | Some x =>
      match Xml.get_text x with
      | None => fails "[web.xml] reading manager-base-url error"
      | Some [] => ok tt
      | Some t =>
          let t := if decide (head t = Some 47) then t else 47 :: t in
          modify (fun s => s <| manager_base_url := with_slash t |>);; ok tt
      end
  end.

(** [Simple_Data::set] of a string: the string with its 0, and its size. *)
Definition data_of (t : bytes) : ST Settings Simple_Data.simple :=
  the (Simple_Data.set malloc_data (Some (t ++ [0])) (u32 (Z.of_nat (length t))) Simple_Data.empty).
Definition hash_of (d : Simple_Data.simple) : Z := Simple_Data.hash_value e d.
Definition mime_hash (l : list Extension_Mime_Item) (p : ptr) : Z := from_option (fun it => hash_of (externsion it)) 0 (item_at l p).
Definition gzip_hash (l : list Simple_Data.simple) (p : ptr) : Z := from_option hash_of 0 (item_at l p).
(** Lines 279-303. *)
Definition load_mime (x : xml_node) : L unit :=
  match Xml.first_element "extension" x ≫= Xml.get_text, Xml.first_element "mime-type" x ≫= Xml.get_text with
  | Some ext, Some type =>
      ext ← data_of ext; type ← data_of type;
      modify (fun s =>
        let p := next_item (ext_mime_list s) in
        let l := ext_mime_list s ++ [mk_mime ext type] in
        s <| ext_mime_list := l |> <| ext_mime_map ::= Buckets.insert (mime_hash l) p (hash_of ext) |>);;
      ok tt
  | _, _ => ok tt
  end.
(** Lines 305-315. *)
Definition load_default_mime (x : option xml_node) : L unit :=
  match x ≫= Xml.get_text with
  | None => ok tt
  | Some t =>
      if negb (bool_decide (t = [])) && (Z.of_nat (length t) <=? MAX_MIME_TYPE_LENGTH)
      then modify (fun s => s <| default_mime_type := t |>);; ok tt
      else ok tt
  end.
(** Lines 317-353. *)
Definition load_gzip_mime (x : xml_node) : L unit :=
  match Xml.get_text x with
  | Some type =>
      type ← data_of type;
      modify (fun s =>
        let p := next_item (gzip_mime_list s) in
        let l := gzip_mime_list s ++ [type] in
        s <| gzip_mime_list := l |> <| gzip_mime_map ::= Buckets.insert (gzip_hash l) p (hash_of type) |>);;
      ok tt
  | None => ok tt
  end.
Definition load_gzip (gzip : xml_node) : L unit :=
  if decide (Xml.first_element "enable" gzip ≫= Xml.get_text = Some (Stats.literal "true")) then
    and_then (number32 (fun n s => s <| min_gzip_size := n |>) "[web.xml] reading gzip.min-size error" (Xml.first_element "min-size" gzip)) (fun _ =>
    and_then (number32 (fun n s => s <| max_gzip_size := n |>) "[web.xml] reading gzip.max-size error" (Xml.first_element "max-size" gzip)) (fun _ =>
    load_all load_gzip_mime (Xml.elements "mime-type" gzip)))
  else ok tt.
(** Lines 355-362. *)
Definition load_welcome (x : xml_node) : L unit :=
  match Xml.get_text x with
  | Some file => modify (fun s => s <| welcome_file_list ::= fun l => l ++ [file] |>);; ok tt
  | None => ok tt
  end.

(** Lines 233-365. *)
Definition load_conf_web (doc : option (option xml_node)) : L unit :=
  match doc with
  | None => fails "[web.xml] load error"
  | Some None => fails "[web.xml] format error"
  | Some (Some root) =>
      and_then (number32 (fun n s => s <| default_cache_expiration := n |>) "[web.xml] reading default-cache-expiration error"
                  (Xml.first_element "default-cache-expiration" root)) (fun _ =>
      and_then (load_base_url (Xml.first_element "manager-base-url" root)) (fun _ =>
      and_then (load_all load_mime (Xml.from_first "mime-mapping" root)) (fun _ =>
      and_then (load_default_mime (Xml.first_element "default-mime-type" root)) (fun _ =>
      and_then (match Xml.first_child "gzip" root with Some g => load_gzip g | None => ok tt end) (fun _ =>
      load_all load_welcome (match Xml.first_child "welcome-file-list" root with Some w => Xml.elements "welcome-file" w | None => [] end))))))
  end.
(** Lines 94-100. *)
Definition load_conf (server web : option (option xml_node)) : L unit :=
  and_then (load_conf_server server) (fun _ => load_conf_web web).

(** Lines 376-395; [is_key] compares the sizes and the bytes. *)
Definition is_key (d : Simple_Data.simple) (key : bytes) : bool :=
  (Simple_Data.size d =? Z.of_nat (length key)) &&
  bool_decide (take (Z.to_nat (Simple_Data.size d)) (default [] (Simple_Data.data d)) = key).
Definition key_hash (key : bytes) : Z := hash32 (string_memory key) e 0 (length key) 0.
Definition get_mime_type (s : Settings) (ext : bytes) : option bytes :=
  p ← Buckets.find (fun p => from_option (fun it => is_key (externsion it) ext) false (item_at (ext_mime_list s) p)) (key_hash ext) (ext_mime_map s);
  it ← item_at (ext_mime_list s) p;
  (fun d => take (Z.to_nat (Simple_Data.size (mime_type it))) d) <$> Simple_Data.data (mime_type it).
Definition is_gzip_mime_type (s : Settings) (type : bytes) : bool :=
  bool_decide (is_Some (Buckets.find (fun p => from_option (fun d => is_key d type) false (item_at (gzip_mime_list s) p))
                          (key_hash type) (gzip_mime_map s))).

(** Lines 28-42: the elements leave their list from the front, and their table. *)
Fixpoint remove_all {A} (hash : A -> Z) (p : ptr) (l : list A) (b : Buckets.buckets) : Buckets.buckets :=
  match l with
  | [] => b
  | x :: l => remove_all hash (Pos.succ p) l (Buckets.remove (fun q => bool_decide (q = p)) (hash x) b).2
  end.
Definition destroy (s : Settings) : Settings :=
  s <| ext_mime_map ::= remove_all (fun it => hash_of (externsion it)) 1%positive (ext_mime_list s) |> <| ext_mime_list := [] |>
    <| gzip_mime_map ::= remove_all hash_of 1%positive (gzip_mime_list s) |> <| gzip_mime_list := [] |>.
End conf.
End Conf.

(** ** What a load leaves *)
(** A measure of the file a node is read from. *)
Fixpoint node_size (x : xml_node) : nat :=
  match x with
  | Element v _ l => S (length v + foldr (fun y n => node_size y + n)%nat 0%nat l)
  | Text_node v | Other_node v => S (length v)
  end.
Lemma child_size x y : y ∈ Xml.children x -> (node_size y < node_size x)%nat.
Proof.
  destruct x as [v a l|v|v]; cbn; [|set_solver..]. intros Hy. enough (node_size y <= foldr (fun y n => node_size y + n) 0 l)%nat by lia.
  induction Hy as [l|z l Hy IH]; cbn; lia.
Qed.
Lemma count_size x : (length (Xml.children x) < node_size x)%nat.
Proof.
  destruct x as [v a l|v|v]; cbn; [|lia..]. enough (length l <= foldr (fun y n => node_size y + n) 0 l)%nat by lia.
  induction l as [|y l IH]; cbn; [lia|]. destruct y; cbn; lia.
Qed.
Lemma text_size x t : Xml.get_text x = Some t -> (length t < node_size x)%nat.
Proof.
  unfold Xml.get_text. destruct (Xml.children x) as [|[| |] l] eqn:E; try done. intros [= <-].
  assert (Text_node value ∈ Xml.children x) as Hy by (rewrite E; left). apply child_size in Hy. cbn in Hy. lia.
Qed.
Lemma elements_children name x y : y ∈ Xml.elements name x -> y ∈ Xml.children x.
Proof. unfold Xml.elements. intros [_ Hy]%list_elem_of_filter. done. Qed.
Lemma elements_length name x : (length (Xml.elements name x) <= length (Xml.children x))%nat.
Proof. apply length_filter. Qed.
Lemma first_element_size name x y : Xml.first_element name x = Some y -> (node_size y < node_size x)%nat.
Proof.
  unfold Xml.first_element. intros Hy. apply child_size, (elements_children name). destruct (Xml.elements name x); [done|]. injection Hy as ->. left.
Qed.
Lemma first_child_child name x y : Xml.first_child name x = Some y -> y ∈ Xml.children x.
Proof.
  unfold Xml.first_child. destruct (base.filter _ _) as [|z l] eqn:E; [done|]. destruct (Xml.is_element z); [|done]. intros [= <-].
  assert (z ∈ base.filter (Xml.named (Stats.literal name)) (Xml.children x)) as Hz by (rewrite E; left).
  by apply list_elem_of_filter in Hz as [_ ?].
Qed.

(** ** A list of elements and the hash map over it *)
Section registered.
Context {A : Type} (hash : A -> Z) `{Table_Malloc}.
Definition pointers (n : nat) : list ptr := Pos.of_succ_nat <$> seq 0 n.
Definition node_hash (l : list A) (p : ptr) : Z := from_option hash 0 (item_at l p).
Record registered (l : list A) (b : Buckets.buckets) : Prop := {
  rg_wf : Buckets.wf (node_hash l) b;
  rg_all : Buckets.contents b ≡ₚ pointers (length l)
}.

Lemma item_at_succ (l : list A) i : item_at l (Pos.of_succ_nat i) = l !! i.
Proof. unfold item_at. f_equal. lia. Qed.
Lemma elem_of_pointers n p : p ∈ pointers n <-> exists i, (i < n)%nat /\ p = Pos.of_succ_nat i.
Proof.
  unfold pointers. rewrite list_elem_of_fmap. split.
  - intros (i&->&Hi%elem_of_seq). exists i. split; [lia|done].
  - intros (i&Hi&->). exists i. split; [done|]. apply elem_of_seq. lia.
Qed.
Lemma registered_init : registered [] (Buckets.init 7).
Proof. destruct (BucketsFacts.init_wf (node_hash []) 7) as [Hw Hc]; [lia|]. by split; [|rewrite Hc]. Qed.

Lemma register l b x : registered l b -> Z.of_nat (length l) < 2 ^ 29 ->
  registered (l ++ [x]) (Buckets.insert (node_hash (l ++ [x])) (next_item l) (hash x) b).
Proof.
  intros [Hw Hc] Hl. destruct (BucketsFacts.insert_wf (node_hash (l ++ [x])) b (next_item l) (hash x)) as [Hw' Hc'].
  - eapply BucketsFacts.wf_ext; [|exact Hw]. intros p Hp. rewrite Hc in Hp. apply elem_of_pointers in Hp as (i&Hi&->).
    unfold node_hash. by rewrite !item_at_succ, lookup_app_l.
  - unfold node_hash, next_item. rewrite item_at_succ, lookup_app_r, Nat.sub_diag by lia. done.
  - rewrite Hc. intros (i&Hi&Hp)%elem_of_pointers. unfold next_item in Hp. lia.
  - rewrite Hc. unfold pointers. by rewrite length_fmap, length_seq.
  - split; [done|]. rewrite Hc', Hc. unfold pointers. rewrite length_app, Nat.add_1_r, seq_S, fmap_app. cbn.
    by rewrite <- Permutation_cons_append.
Qed.

Lemma registered_find l b test h : registered l b -> (forall x, x ∈ l -> test x = true -> hash x = h) ->
  match Buckets.find (fun p => from_option test false (item_at l p)) h b with
  | Some p => exists x, item_at l p = Some x /\ test x = true
  | None => forall x, x ∈ l -> test x = false
  end.
Proof.
  intros [Hw Hc] Ht. destruct (Buckets.find _ h b) as [p|] eqn:E.
  - apply (BucketsFacts.find_Some (node_hash l)) in E as [_ Hx]; [|done]. destruct (item_at l p) as [x|]; [|done]. by exists x.
  - intros x Hx. destruct (test x) eqn:Et; [|done]. apply list_elem_of_lookup in Hx as [i Hi].
    assert (Pos.of_succ_nat i ∈ Buckets.contents b) as Hp.
    { rewrite Hc. apply elem_of_pointers. exists i. split; [by eapply lookup_lt_Some|done]. }
    apply (BucketsFacts.elem_of_chain (node_hash l)) in Hp; [|done].
    unfold node_hash in Hp. rewrite item_at_succ, Hi in Hp. cbn in Hp. rewrite (Ht x) in Hp; [|by eapply list_elem_of_lookup_2|done].
    unfold Buckets.find in E. pose proof (proj1 (BucketsFacts.first_None (node_hash l) _ _) E _ Hp) as Hf. cbv beta in Hf.
    rewrite item_at_succ, Hi in Hf. cbn in Hf. congruence.
Qed.

Lemma remove_all_spec hv (l : list A) : forall p b, Buckets.wf hv b ->
  (forall i x, l !! i = Some x -> hv (Pos.of_nat (Pos.to_nat p + i)) = hash x) ->
  Buckets.contents b ≡ₚ (fun i => Pos.of_nat (Pos.to_nat p + i)) <$> seq 0 (length l) ->
  Buckets.wf hv (Conf.remove_all hash p l b) /\ Buckets.contents (Conf.remove_all hash p l b) = [].
Proof.
  induction l as [|x l IH]; intros p b Hw Hh Hc; cbn [Conf.remove_all].
  - split; [done|]. by apply Permutation_nil_r.
  - cbn [length seq fmap list_fmap] in Hc. rewrite Nat.add_0_r, Pos2Nat.id in Hc.
    assert (Buckets.find (fun q => bool_decide (q = p)) (hash x) b = Some p) as Hf.
    { apply (BucketsFacts.find_unique hv); [done|rewrite Hc; left| |by apply bool_decide_eq_true|by intros q _ ->%bool_decide_eq_true].
      rewrite <- (Hh 0%nat x) by done. by rewrite Nat.add_0_r, Pos2Nat.id. }
    destruct (BucketsFacts.remove_wf hv _ _ _ _ Hw Hf) as (b'&->&Hw'&Hc'). cbn [snd]. apply IH; [done|..].
    + intros i y Hi. rewrite <- (Hh (S i) y) by done. f_equal. lia.
    + rewrite Hc in Hc'. apply (Permutation.Permutation_cons_inv (a:=p)) in Hc'. rewrite <- Hc', <- fmap_S_seq, <- list_fmap_compose.
      apply reflexive_eq, list_fmap_ext. intros i y _. cbn. f_equal. lia.
Qed.
Lemma remove_registered l b : registered l b -> Buckets.contents (Conf.remove_all hash 1 l b) = [].
Proof.
  intros [Hw Hc]. eapply remove_all_spec; [exact Hw|..].
  - intros i x Hi. unfold node_hash. replace (Pos.of_nat _) with (Pos.of_succ_nat i) by lia. by rewrite item_at_succ, Hi.
  - rewrite Hc. unfold pointers. apply reflexive_eq, list_fmap_ext. intros i y _. cbn. lia.
Qed.
End registered.

(** ** The settings that a load leaves *)
Section conf_facts.
Context (e : endian) `{Table_Malloc} `{C_Library} (malloc_data : Z -> bool).
Import Conf.
Abbreviation L A := (ST Settings (bytes + A)%type).

(** The mappings and the mime types a file asks for. *)
Definition mapping (x : xml_node) : option (bytes * bytes) :=
  match Xml.first_element "extension" x ≫= Xml.get_text, Xml.first_element "mime-type" x ≫= Xml.get_text with
  | Some ext, Some type => Some (ext, type)
  | _, _ => None
  end.
Definition mime_mappings (root : xml_node) : list (bytes * bytes) := omap mapping (Xml.from_first "mime-mapping" root).
Definition gzip_types (root : xml_node) : list bytes :=
  match Xml.first_child "gzip" root with
  | Some g => if decide (Xml.first_element "enable" g ≫= Xml.get_text = Some (Stats.literal "true"))
              then omap Xml.get_text (Xml.elements "mime-type" g) else []
  | None => []
  end.
(** A string as it is kept. *)
Definition kept (t : bytes) : Simple_Data.simple :=
  if malloc_data (u32 (Z.of_nat (length t) + 1)) then Simple_Data.mksimple (Some (t ++ [0])) (Z.of_nat (length t)) else Simple_Data.empty.
Definition kept_mime (m : bytes * bytes) : Extension_Mime_Item := mk_mime (kept m.1) (kept m.2).
Definition ext_hash (it : Extension_Mime_Item) : Z := hash_of e (externsion it).

Definition in32 (n : Z) : Prop := 0 <= n < 2 ^ 32.
(** What every file leaves: a url between slashes, a default mime type that fits its
    buffer, numbers of their types, and tables that are well-formed. *)
Record conf_wf (s : Settings) : Prop := {
  cw_url : head (manager_base_url s) = Some 47 /\ last (manager_base_url s) = Some 47;
  cw_mime : 0 < Z.of_nat (length (default_mime_type s)) <= MAX_MIME_TYPE_LENGTH;
  cw_numbers : Forall in32 [max_conns s; pool_size s; num_threads_ s; item_size_min s; item_size_max s; log_level s;
                            default_cache_expiration s; min_gzip_size s; max_gzip_size s];
  cw_bytes : 0 <= max_bytes_ s < 2 ^ 64;
  cw_ports : Forall (fun c => in32 (port c)) (connectors s);
  cw_ext : registered ext_hash (ext_mime_list s) (ext_mime_map s);
  cw_gzip : registered (hash_of e) (gzip_mime_list s) (gzip_mime_map s)
}.
(** With the elements of both tables; the growth factor is above 1 unless a file was
    refused. *)
Record loaded (l : list Extension_Mime_Item) (g : list Simple_Data.simple) (s : Settings) : Prop := {
  ld_wf : conf_wf s;
  ld_ext : ext_mime_list s = l;
  ld_gzip : gzip_mime_list s = g
}.
Definition after {A} (l : list Extension_Mime_Item) (g : list Simple_Data.simple) (r : bytes + A) (s : Settings) : Prop :=
  match r with inr _ => loaded l g s /\ Double.leb (factor s) one = false | inl _ => conf_wf s end.
Definition ready l g s : Prop := loaded l g s /\ Double.leb (factor s) one = false.

Lemma wp_and_then {A B} (m : L A) (k : A -> L B) s l g l' g' :
  wp m s (after l g) -> (forall a s', ready l g s' -> wp (k a) s' (after l' g')) -> wp (and_then m k) s (after l' g').
Proof.
  intros Hm Hk. unfold and_then. apply wp_bind. eapply wp_mono; [exact Hm|]. intros [err|a] s' Ha; [by apply wp_ret|]. by apply Hk.
Qed.
Lemma wp_ok {A} (a : A) s l g : ready l g s -> wp (ok a) s (after l g).
Proof. intros Hr. by apply wp_ret. Qed.
Lemma wp_fails {A} text s l g : ready l g s -> wp (fails (A:=A) text) s (after l g).
Proof. intros [[Hw _ _] _]. by apply wp_ret. Qed.

Lemma wp_number w parse (put : Z -> Settings -> Settings) error x s l g :
  0 < w -> parse = Parse.safe_to false w -> ready l g s ->
  (forall n, 0 <= n < 2 ^ w -> ready l g (put n s)) -> wp (number parse put error x) s (after l g).
Proof.
  intros Hw -> Hr Hp. unfold number. destruct (x ≫= Xml.get_text) as [t|]; [|by apply wp_ok].
  destruct (safe_to_total w t (Z.of_nat (length t)) Hw) as (r&E&Hn). apply wp_bind. eapply wp_the; [exact E|].
  destruct r as [n|]; [|by apply wp_fails]. apply wp_bind, wp_modify, wp_ok. auto.
Qed.

(** A number of the settings, within its type. *)
Ltac keeps_ready :=
  match goal with H : ready ?l ?g ?s |- ready ?l ?g _ =>
    destruct H as [[[? ? Hnum ? ? ? ?] ? ?] ?];
    repeat (let Hx := fresh in apply Forall_cons in Hnum as [Hx Hnum]);
    split; [split; [split|..]|]; try assumption; cbn; repeat (apply Forall_cons; split; [assumption|]); by apply Forall_nil
  end.
Ltac load_number := eapply wp_number; [|reflexivity|eassumption|intros; keeps_ready]; done.
Ltac load_step := eapply wp_and_then; [|intros ? ? ?].

Lemma wp_modify_ok (f : Settings -> Settings) s l g : ready l g (f s) -> wp (modify f ;; ok tt) s (after l g).
Proof. intros Hr. by apply wp_bind, wp_modify, wp_ok. Qed.

Lemma wp_more {A} (a : A) s l g : ready l g s -> wp (ok a) s (after (l ++ []) g) /\ wp (ok a) s (after l (g ++ [])).
Proof. rewrite !app_nil_r. by split; apply wp_ok. Qed.

(** The parts of [server.xml]. *)
Lemma load_connector_spec x s l g : ready l g s -> wp (load_connector x) s (after l g).
Proof.
  intros Hr. unfold load_connector.
  match goal with |- context [Parse.safe_toui32 (Some (?t ++ [0])) ?n] => destruct (safe_to_total 32 t n) as (r&E&Hn); [done|] end.
  apply wp_bind. eapply wp_the; [exact E|]. destruct r as [n|]; [|by apply wp_fails]. apply wp_modify_ok.
  specialize (Hn n eq_refl). destruct Hr as [[[? ? Hnum ? Hp ? ?] ? ?] ?]. split; [split; [split|..]|]; try done.
  cbn. apply Forall_app. split; [done|]. by constructor.
Qed.
Lemma load_connectors_spec xs : forall s l g, ready l g s -> wp (load_all load_connector xs) s (after l g).
Proof.
  induction xs as [|x xs IH]; intros s l g Hr; [by apply wp_ok|]. load_step; [by apply load_connector_spec|auto].
Qed.
Lemma load_factor_spec x s l g : ready l g s -> wp (load_factor x) s (after l g).
Proof.
  intros Hr. unfold load_factor. destruct (x ≫= Xml.get_text) as [t|]; [|by apply wp_ok].
  apply wp_bind, wp_modify, wp_bind, wp_gets. destruct Hr as [[[? ? ? ? ? ? ?] ? ?] ?]. cbv beta.
  destruct (Double.leb (factor (s <| factor := atof t |>)) one) eqn:E; apply wp_ret; unfold after; [by split|]. split; [split; [split|..]|]; done.
Qed.
Lemma load_key_value_spec kv s l g : ready l g s -> wp (load_key_value kv) s (after l g).
Proof.
  intros Hr. unfold load_key_value, number32, number64.
  load_step; [load_number|]. load_step; [load_number|]. load_step; [by apply load_factor_spec|]. load_step; [load_number|]. load_number.
Qed.
Lemma load_conf_server_spec doc s l g : ready l g s -> wp (load_conf_server doc) s (after l g).
Proof.
  intros Hr. unfold load_conf_server, number32. destruct doc as [[root|]|]; [|by apply wp_fails|by apply wp_bind, wp_gets, wp_ret, Hr].
  load_step; [by apply load_connectors_spec|]. load_step; [destruct (Xml.first_child _ _); [by apply load_key_value_spec|by apply wp_ok]|].
  load_step; [load_number|]. load_step; [load_number|]. load_number.
Qed.

(** The parts of [web.xml]. *)
Lemma with_slash_ends t : head t = Some 47 -> head (with_slash t) = Some 47 /\ last (with_slash t) = Some 47.
Proof. intros Ht. unfold with_slash. case_decide; [done|]. split; [by destruct t|]. by rewrite last_snoc. Qed.
Lemma load_base_url_spec x s l g : ready l g s -> wp (load_base_url x) s (after l g).
Proof.
  intros Hr. unfold load_base_url. destruct x as [x|]; [|by apply wp_ok]. destruct (Xml.get_text x) as [[|c t]|]; [by apply wp_ok| |by apply wp_fails].
  apply wp_modify_ok. destruct Hr as [[[? ? ? ? ? ? ?] ? ?] ?]. split; [split; [split|..]|]; try done. cbn -[with_slash]. apply with_slash_ends. by case_decide.
Qed.
Lemma load_default_mime_spec x s l g : ready l g s -> wp (load_default_mime x) s (after l g).
Proof.
  intros Hr. unfold load_default_mime. destruct (x ≫= Xml.get_text) as [t|]; [|by apply wp_ok].
  destruct (bool_decide_reflect (t = [])) as [->|Ht]; [by apply wp_ok|]. cbn [negb andb].
  destruct (Z.leb_spec (Z.of_nat (length t)) MAX_MIME_TYPE_LENGTH); [|by apply wp_ok].
  apply wp_modify_ok. destruct Hr as [[[? ? ? ? ? ? ?] ? ?] ?]. split; [split; [split|..]|]; try done. cbn. destruct t; [done|cbn in *; lia].
Qed.

Lemma data_of_spec t s Q : Z.of_nat (length t) < 2 ^ 32 - 1 -> Q (kept t) s -> wp (data_of malloc_data t) s Q.
Proof.
  intros Ht HQ. eapply wp_the; [|exact HQ]. unfold Simple_Data.set, kept. rewrite (wrap_small 32 (Z.of_nat (length t))) by lia.
  rewrite (wrap_small 32) by lia. destruct (malloc_data _); [|done].
  unfold Simple_Data.copy. rewrite wrap_small by lia. destruct (Z.eqb_spec (Z.of_nat (length t) + 1) 0); [lia|].
  rewrite mem_read_region by (rewrite ?length_app; cbn; lia). unfold region. change (Z.to_nat 0) with 0%nat. by rewrite drop_0, Nat2Z.id, take_app_length.
Qed.

(** A node and what it says are within a file of a reasonable size. *)
Definition small (x : xml_node) : Prop := Z.of_nat (node_size x) < 2 ^ 29.
Lemma small_child x y : small x -> y ∈ Xml.children x -> small y.
Proof. unfold small. intros ? ?%child_size. lia. Qed.
Lemma small_text x t : small x -> Xml.get_text x = Some t -> Z.of_nat (length t) < 2 ^ 29.
Proof. unfold small. intros ? ?%text_size. lia. Qed.
Lemma small_element_text x name t : small x -> Xml.first_element name x ≫= Xml.get_text = Some t -> Z.of_nat (length t) < 2 ^ 29.
Proof.
  intros Hx Ht. destruct (Xml.first_element name x) as [y|] eqn:Ey; [|done]. cbn in Ht. apply first_element_size in Ey.
  eapply (small_text y); [unfold small in *; lia|done].
Qed.

Lemma load_mime_spec x s l g : small x -> Z.of_nat (length l) < 2 ^ 29 -> ready l g s ->
  wp (load_mime e malloc_data x) s (after (l ++ (kept_mime <$> option_list (mapping x))) g).
Proof.
  intros Hx Hl Hr. unfold load_mime, mapping. destruct (Xml.first_element "extension" x ≫= _) as [ext|] eqn:E1; [|by apply wp_more].
  destruct (Xml.first_element "mime-type" x ≫= _) as [type|] eqn:E2; [|by apply wp_more].
  apply wp_bind, data_of_spec; [pose proof (small_element_text _ _ _ Hx E1); lia|].
  apply wp_bind, data_of_spec; [pose proof (small_element_text _ _ _ Hx E2); lia|].
  apply wp_modify_ok. destruct Hr as [[[? ? ? ? ? Hreg ?] <- ?] ?]. split; [split; [split|..]|]; try done.
  by apply (register ext_hash _ _ (kept_mime (ext, type))).
Qed.
Lemma load_mimes_spec xs : forall s l g, Forall small xs -> Z.of_nat (length l + length xs) < 2 ^ 29 -> ready l g s ->
  wp (load_all (load_mime e malloc_data) xs) s (after (l ++ (kept_mime <$> omap mapping xs)) g).
Proof.
  induction xs as [|x xs IH]; intros s l g Hx Hl Hr; [by apply wp_more|]. apply Forall_cons in Hx as [Hx Hxs].
  pose proof (load_mime_spec x s l g Hx ltac:(cbn in Hl; lia) Hr) as Hm. cbn [omap list_omap]. destruct (mapping x) as [m|].
  - load_step; [exact Hm|]. rewrite fmap_cons, cons_middle, (assoc_L (++)). apply IH; [done|rewrite length_app; cbn in *; lia|done].
  - load_step; [exact Hm|]. apply IH; [done|cbn in Hl; lia|]. cbn [option_list fmap list_fmap] in *. by rewrite app_nil_r in *.
Qed.

Lemma load_gzip_mime_spec x s l g : small x -> Z.of_nat (length g) < 2 ^ 29 -> ready l g s ->
  wp (load_gzip_mime e malloc_data x) s (after l (g ++ (kept <$> option_list (Xml.get_text x)))).
Proof.
  intros Hx Hl Hr. unfold load_gzip_mime. destruct (Xml.get_text x) as [type|] eqn:E; [|by apply wp_more].
  apply wp_bind, data_of_spec; [pose proof (small_text _ _ Hx E); lia|].
  apply wp_modify_ok. destruct Hr as [[[? ? ? ? ? ? Hreg] ? <-] ?]. split; [split; [split|..]|]; try done. by apply register.
Qed.
Lemma load_gzips_spec xs : forall s l g, Forall small xs -> Z.of_nat (length g + length xs) < 2 ^ 29 -> ready l g s ->
  wp (load_all (load_gzip_mime e malloc_data) xs) s (after l (g ++ (kept <$> omap Xml.get_text xs))).
Proof.
  induction xs as [|x xs IH]; intros s l g Hx Hl Hr; [by apply wp_more|]. apply Forall_cons in Hx as [Hx Hxs].
  pose proof (load_gzip_mime_spec x s l g Hx ltac:(cbn in Hl; lia) Hr) as Hm. cbn [omap list_omap]. destruct (Xml.get_text x) as [m|].
  - load_step; [exact Hm|]. rewrite fmap_cons, cons_middle, (assoc_L (++)). apply IH; [done|rewrite length_app; cbn in *; lia|done].
  - load_step; [exact Hm|]. apply IH; [done|cbn in Hl; lia|]. cbn [option_list fmap list_fmap] in *. by rewrite app_nil_r in *.
Qed.
Lemma small_elements name x : small x -> Forall small (Xml.elements name x) /\ Z.of_nat (length (Xml.elements name x)) < 2 ^ 29.
Proof.
  intros Hx. split.
  - apply Forall_forall. intros y Hy%elements_children. by eapply small_child.
  - pose proof (elements_length name x). pose proof (count_size x). unfold small in Hx. lia.
Qed.
Lemma small_from name x : small x -> Forall small (Xml.from_first name x) /\ Z.of_nat (length (Xml.from_first name x)) < 2 ^ 29.
Proof. intros Hx. unfold Xml.from_first. case_match; [by apply small_elements|]. split; [done|cbn; lia]. Qed.

Lemma load_gzip_spec root s l : small root -> ready l [] s ->
  wp (match Xml.first_child "gzip" root with Some x => load_gzip e malloc_data x | None => ok tt end) s (after l (kept <$> gzip_types root)).
Proof.
  intros Hx Hr. unfold gzip_types. destruct (Xml.first_child "gzip" root) as [y|] eqn:Ey; [|by apply wp_ok].
  assert (small y) as Hy by (eapply small_child; [done|by eapply first_child_child]). unfold load_gzip, number32.
  case_decide; [|by apply wp_ok]. load_step; [load_number|]. load_step; [load_number|].
  destruct (small_elements "mime-type" y Hy). apply (load_gzips_spec _ _ l []); [done|cbn; lia|done].
Qed.
Lemma load_welcome_spec x s l g : ready l g s -> wp (load_welcome x) s (after l g).
Proof.
  intros Hr. unfold load_welcome. destruct (Xml.get_text x); [|by apply wp_ok]. apply wp_modify_ok.
  destruct Hr as [[[? ? ? ? ? ? ?] ? ?] ?]. split; [split; [split|..]|]; done.
Qed.
Lemma load_welcomes_spec xs : forall s l g, ready l g s -> wp (load_all load_welcome xs) s (after l g).
Proof.
  induction xs as [|x xs IH]; intros s l g Hr; [by apply wp_ok|]. load_step; [by apply load_welcome_spec|auto].
Qed.

Lemma load_conf_web_spec doc s : (forall root, doc = Some (Some root) -> small root) -> ready [] [] s ->
  wp (load_conf_web e malloc_data doc) s (fun r s' => conf_wf s' /\
    (r = inr tt -> exists root, doc = Some (Some root) /\ ready (kept_mime <$> mime_mappings root) (kept <$> gzip_types root) s')).
Proof.
  intros Hs Hr. unfold load_conf_web. destruct doc as [[root|]|]; [|apply wp_ret; split; [exact (ld_wf _ _ _ (proj1 Hr))|done]..]. specialize (Hs root eq_refl).
  eapply (wp_mono _ _ (after (kept_mime <$> mime_mappings root) (kept <$> gzip_types root))).
  2:{ intros [err|[]] s' Ha; [by split|]. split; [apply Ha|]. intros _. by exists root. }
  unfold number32. load_step; [load_number|]. load_step; [by apply load_base_url_spec|].
  load_step; [destruct (small_from "mime-mapping" root Hs); apply (load_mimes_spec _ _ []); [done|cbn; lia|done]|].
  load_step; [by apply load_default_mime_spec|]. load_step; [by apply load_gzip_spec|]. by apply load_welcomes_spec.
Qed.

Lemma init_ready dir s : init dir = Some s -> ready [] [] s.
Proof.
  destruct dir as [[|c d]|]; [done| |done]. cbn -[with_slash]. intros [= <-]. split; [split; [split|..]|]; try done; cbn.
  - repeat constructor; done.
  - apply (registered_init ext_hash).
  - apply (registered_init (hash_of e)).
Qed.

(** The destructor leaves nothing in the tables. *)
Lemma destroy_empties s : conf_wf s ->
  ext_mime_list (destroy e s) = [] /\ gzip_mime_list (destroy e s) = [] /\
  Buckets.contents (ext_mime_map (destroy e s)) = [] /\ Buckets.contents (gzip_mime_map (destroy e s)) = [].
Proof.
  intros Hw. split; [done|]. split; [done|]. split.
  - exact (remove_registered _ _ _ (cw_ext _ Hw)).
  - exact (remove_registered _ _ _ (cw_gzip _ Hw)).
Qed.

(** ** Looking a type up *)
Lemma string_memory_byte b p : Forall is_byte b -> is_byte (string_memory b p).
Proof.
  intros Hb. unfold string_memory. destruct (b !! Z.to_nat p) as [x|] eqn:E; [|done]. by eapply Forall_lookup_1 in E.
Qed.
Lemma kept_hash t : Forall is_byte t -> malloc_data (u32 (Z.of_nat (length t) + 1)) = true -> hash_of e (kept t) = key_hash e t.
Proof.
  intros Hb Hm. unfold hash_of, Simple_Data.hash_value, key_hash, kept. rewrite Hm. cbn [Simple_Data.data Simple_Data.size].
  change (default [] (Some (t ++ [0]))) with (t ++ [0]).
  rewrite Nat2Z.id. apply hash32_same_key; [|by intros; apply string_memory_byte|].
  - intros p. apply string_memory_byte, Forall_app. split; [done|]. by repeat constructor.
  - intros j Hj. unfold string_memory. rewrite lookup_app_l; [done|lia].
Qed.
Lemma is_key_kept t key : malloc_data (u32 (Z.of_nat (length t) + 1)) = true -> is_key (kept t) key = bool_decide (t = key).
Proof.
  intros Hm. unfold is_key, kept. rewrite Hm. cbn [Simple_Data.data Simple_Data.size].
  change (default [] (Some (t ++ [0]))) with (t ++ [0]). rewrite Nat2Z.id, take_app_length.
  destruct (bool_decide_reflect (t = key)) as [->|]; [by rewrite Z.eqb_refl|apply andb_false_r].
Qed.

Definition lookup_ok (l : list (bytes * bytes)) (ext : bytes) (r : option bytes) : Prop :=
  match r with Some type => (ext, type) ∈ l | None => forall type, (ext, type) ∉ l end.
Lemma get_mime_type_spec s l ext :
  (forall n, malloc_data n = true) -> Forall (fun m => Forall is_byte m.1) l ->
  conf_wf s -> ext_mime_list s = kept_mime <$> l -> lookup_ok l ext (get_mime_type e s ext).
Proof.
  intros Hm Hb Hw Hl. unfold get_mime_type.
  pose proof (registered_find ext_hash (ext_mime_list s) (ext_mime_map s) (fun it => is_key (externsion it) ext) (key_hash e ext) (cw_ext _ Hw)) as Hf.
  destruct (Buckets.find _ _ _) as [p|]; cbn [mbind option_bind].
  - destruct Hf as (it&Hit&Hk).
    { intros x Hx Hk. rewrite Hl in Hx. apply list_elem_of_fmap in Hx as (m&->&Hx). cbn in Hk. rewrite is_key_kept in Hk by done.
      apply bool_decide_eq_true in Hk as <-. apply kept_hash; [|done]. by eapply Forall_forall in Hb. }
    rewrite Hit. cbn. unfold item_at in Hit. apply list_elem_of_lookup_2 in Hit. rewrite Hl in Hit.
    apply list_elem_of_fmap in Hit as ([m t]&->&Hx). cbn in Hk |- *. rewrite is_key_kept in Hk by done. apply bool_decide_eq_true in Hk as <-.
    unfold kept. rewrite Hm. cbn. by rewrite Nat2Z.id, take_app_length.
  - intros t Ht. specialize (Hf ltac:(intros x Hx Hk; rewrite Hl in Hx; apply list_elem_of_fmap in Hx as (m&->&Hx); cbn in Hk;
      rewrite is_key_kept in Hk by done; apply bool_decide_eq_true in Hk as <-; apply kept_hash; [by eapply Forall_forall in Hb|done])
      (kept_mime (ext, t))).
    cbn in Hf. rewrite is_key_kept, bool_decide_eq_true_2 in Hf by done. enough (true = false) by done. apply Hf. rewrite Hl. by apply list_elem_of_fmap_2.
Qed.
Lemma is_gzip_mime_type_spec s l type :
  (forall n, malloc_data n = true) -> Forall (Forall is_byte) l ->
  conf_wf s -> gzip_mime_list s = kept <$> l -> is_gzip_mime_type e s type = bool_decide (type ∈ l).
Proof.
  intros Hm Hb Hw Hl. unfold is_gzip_mime_type.
  pose proof (registered_find (hash_of e) (gzip_mime_list s) (gzip_mime_map s) (fun d => is_key d type) (key_hash e type) (cw_gzip _ Hw)) as Hf.
  assert (forall x, x ∈ gzip_mime_list s -> is_key x type = true -> x = kept type /\ type ∈ l) as Hx.
  { intros x Hx Hk. rewrite Hl in Hx. apply list_elem_of_fmap in Hx as (m&->&Hx). rewrite is_key_kept in Hk by done.
    by apply bool_decide_eq_true in Hk as <-. }
  specialize (Hf ltac:(intros x Hi Hk; destruct (Hx x Hi Hk) as [-> ?]; apply kept_hash; [by eapply Forall_forall in Hb|done])).
  apply bool_decide_ext. destruct (Buckets.find _ _ _) as [p|].
  - destruct Hf as (it&Hit&Hk). split; [intros _|by eexists]. eapply Hx; [|exact Hk]. unfold item_at in Hit. by eapply list_elem_of_lookup_2.
  - split; [by intros [??]|]. intros Ht. specialize (Hf (kept type)). rewrite is_key_kept, bool_decide_eq_true_2 in Hf by done.
    enough (true = false) by done. apply Hf. rewrite Hl. by apply list_elem_of_fmap_2.
Qed.

(** Both files, from what [init] leaves. *)
Lemma load_conf_spec server web s : ready [] [] s -> (forall root, web = Some (Some root) -> small root) ->
  wp (load_conf e malloc_data server web) s (fun r s' => conf_wf s' /\
    (r = inr tt -> Double.leb (factor s') one = false /\
       exists root, web = Some (Some root) /\ ext_mime_list s' = kept_mime <$> mime_mappings root /\ gzip_mime_list s' = kept <$> gzip_types root)).
Proof.
  intros Hi Hs. unfold load_conf, and_then. apply wp_bind.
  eapply wp_mono; [by apply load_conf_server_spec|]. intros [err|a] s1 Ha; [by apply wp_ret|].
  eapply wp_mono; [by apply load_conf_web_spec|]. intros r s2 [Hw Hr]. split; [done|]. intros ->.
  destruct (Hr eq_refl) as (root&->&[_ He Hg]&Hf). split; [done|]. by exists root.
Qed.

(** What passes the test of the factor: what is above 1, and what is no number. *)
Lemma not_at_most_one f : Double.leb f one = false -> SFcompare f one = Some Gt \/ f = S754_nan.
Proof.
  unfold Double.leb, SFleb. destruct (SFcompare f one) as [[]|] eqn:E; [done|done|by left|]. right.
  destruct f as [[]|[]| |[]]; try done; unfold SFcompare in E; cbn in E; repeat case_match; done.
Qed.

(** ** Properties *)

(** C23. Whatever the two files say, if web.xml has less than 2^29 characters and nodes:
    loading them is defined, and what it leaves can be worked with - a manager url
    between slashes, a default mime type within its buffer, numbers within their types,
    well-formed tables of the mime types.  If it succeeds, the growth factor is above
    1 or a NaN, which passes the test of the code, and the tables hold what the file
    maps. *)
Theorem load_conf_sound dir s server web :
  init dir = Some s -> (forall root, web = Some (Some root) -> small root) ->
  wp (load_conf e malloc_data server web) s (fun r s' => conf_wf s' /\
    (r = inr tt -> (SFcompare (factor s') one = Some Gt \/ factor s' = S754_nan) /\
       exists root, web = Some (Some root) /\ ext_mime_list s' = kept_mime <$> mime_mappings root /\ gzip_mime_list s' = kept <$> gzip_types root)).
Proof.
  intros Hi Hs. eapply wp_mono; [apply load_conf_spec; [by apply (init_ready dir)|done]|]. intros r s' [Hw Hr]. split; [done|].
  intros Hok. destruct (Hr Hok) as [Hf Hx]. split; [by apply not_at_most_one|done].
Qed.

(** C24. After a successful load the mime type of an extension is one the file maps it
    to, and none exactly if the file has no mapping of it; a type is compressed
    exactly if the file lists it. *)
Theorem mime_types_as_configured dir s server root s' ext type :
  init dir = Some s -> small root -> (forall n, malloc_data n = true) ->
  Forall (fun m => Forall is_byte m.1) (mime_mappings root) -> Forall (Forall is_byte) (gzip_types root) ->
  load_conf e malloc_data server (Some (Some root)) s = Some (inr tt, s') ->
  lookup_ok (mime_mappings root) ext (get_mime_type e s' ext) /\
  is_gzip_mime_type e s' type = bool_decide (type ∈ gzip_types root).
Proof.
  intros Hi Hs Hm Hb Hg Hl. apply init_ready in Hi. unfold load_conf, and_then, mbind, ST_bind in Hl.
  pose proof (load_conf_server_spec server s [] [] Hi) as Hw. unfold wp in Hw.
  destruct (load_conf_server server s) as [[[err|a] s1]|]; [done| |done].
  assert (forall root', Some (Some root) = Some (Some root') -> small root') as Hs' by (by intros ? [= <-]).
  pose proof (load_conf_web_spec (Some (Some root)) s1 Hs' Hw) as Hw2. unfold wp in Hw2. rewrite Hl in Hw2.
  destruct Hw2 as [Hwf Hr]. destruct (Hr eq_refl) as (root'&[= <-]&[_ He Hgz]&_).
  split; [by apply get_mime_type_spec|by apply is_gzip_mime_type_spec].
Qed.
End conf_facts.

(** ** A configuration *)
Module SettingsDemo.
#[global] Instance tables : Table_Malloc := fun _ => true.
#[global] Instance library : C_Library := fun _ => Double.of_Z 2.
Definition granted (n : Z) : bool := true.
Definition text (tag : string) (t : string) : xml_node := Element (Stats.literal tag) [] [Text_node (Stats.literal t)].
Definition map_to (ext type : string) : xml_node :=
  Element (Stats.literal "mime-mapping") [] [text "extension" ext; text "mime-type" type].
Definition server : xml_node :=
  Element (Stats.literal "server") []
    [Element (Stats.literal "connector") [(Stats.literal "port", Stats.literal "7788")] [];
     Element (Stats.literal "key-value") [] [text "max-bytes" "1048576"; text "factor" "2"]; text "log" "3"].
Definition web : xml_node :=
  Element (Stats.literal "web-app") []
    [text "manager-base-url" "admin"; map_to "html" "text/html"; map_to "js" "text/javascript";
     Element (Stats.literal "gzip") [] [text "enable" "true"; text "min-size" "100"; text "mime-type" "text/html"]].
Definition start : Settings := default (mk_all_settings [] [] 0 0 Conf.one_and_a_quarter 0 0 0 0 0 0 0 [] [] (Buckets.init 7) 0 0 [] (Buckets.init 7) [] [])
  (Conf.init (Some (Stats.literal "/srv"))).
Lemma conf_started : Conf.init (Some (Stats.literal "/srv")) = Some start.
Proof. by vm_compute. Qed.
Lemma web_small : small web.
Proof. by vm_compute. Qed.
Lemma web_only root : Some (Some web) = Some (Some root) -> small root.
Proof. intros E. assert (root = web) as -> by congruence. exact web_small. Qed.
Definition load (server web : xml_node) : Settings :=
  match Conf.load_conf LittleEndian granted (Some (Some server)) (Some (Some web)) start with Some (inr _, s) => s | _ => start end.
Lemma loads : Conf.load_conf LittleEndian granted (Some (Some server)) (Some (Some web)) start = Some (inr tt, load server web).
Proof. by vm_compute. Qed.
Lemma web_bytes : Forall (fun m => Forall is_byte m.1) (mime_mappings web).
Proof. repeat (apply Forall_cons; split; [by repeat constructor|]). by apply Forall_nil. Qed.
Lemma web_gzip_bytes : Forall (Forall is_byte) (gzip_types web).
Proof. repeat (apply Forall_cons; split; [by repeat constructor|]). by apply Forall_nil. Qed.

(** The extension of which there are two mappings, and [n] others behind them. *)
Definition other (n : nat) : xml_node :=
  Element (Stats.literal "mime-mapping") []
    [Element (Stats.literal "extension") [] [Text_node [97 + Z.of_nat n]]; text "mime-type" "other/type"].
Definition twice (n : nat) : xml_node :=
  Element (Stats.literal "web-app") [] (map_to "js" "old/js" :: map_to "js" "new/js" :: map other (seq 0 n)).
End SettingsDemo.

Lemma load_conf_sound_witness :
  conf_wf LittleEndian (SettingsDemo.load SettingsDemo.server SettingsDemo.web) /\
  manager_base_url (SettingsDemo.load SettingsDemo.server SettingsDemo.web) = Stats.literal "/admin/".
Proof.
  split; [|by vm_compute].
  pose proof (load_conf_sound LittleEndian SettingsDemo.granted (Some (Stats.literal "/srv")) SettingsDemo.start
    (Some (Some SettingsDemo.server)) (Some (Some SettingsDemo.web)) SettingsDemo.conf_started SettingsDemo.web_only) as Hw.
  apply wp_run in Hw as (r&s&E&Hw&_).
  unfold SettingsDemo.load. rewrite E. destruct r as [err|[]]; [|exact Hw]. exfalso. revert E. vm_compute. intros [=].
Defined.
Lemma mime_types_as_configured_witness :
  Conf.get_mime_type LittleEndian (SettingsDemo.load SettingsDemo.server SettingsDemo.web) (Stats.literal "js") = Some (Stats.literal "text/javascript") /\
  lookup_ok (mime_mappings SettingsDemo.web) (Stats.literal "js")
    (Conf.get_mime_type LittleEndian (SettingsDemo.load SettingsDemo.server SettingsDemo.web) (Stats.literal "js")).
Proof.
  split; [by vm_compute|].
  refine (proj1 (mime_types_as_configured LittleEndian SettingsDemo.granted (Some (Stats.literal "/srv")) SettingsDemo.start
    (Some (Some SettingsDemo.server)) SettingsDemo.web (SettingsDemo.load SettingsDemo.server SettingsDemo.web) (Stats.literal "js") []
    SettingsDemo.conf_started SettingsDemo.web_small (fun _ => eq_refl) SettingsDemo.web_bytes SettingsDemo.web_gzip_bytes SettingsDemo.loads)).
Defined.

(** Which of two mappings of an extension is used depends on how many others
    follow: the later one, until the table grows and turns its chains around. *)
Theorem mime_mapping_flips :
  let type n := Conf.get_mime_type LittleEndian (SettingsDemo.load SettingsDemo.server (SettingsDemo.twice n)) (Stats.literal "js") in
  type 0%nat = Some (Stats.literal "new/js") /\ type 8%nat = Some (Stats.literal "new/js") /\ type 9%nat = Some (Stats.literal "old/js").
Proof. by vm_compute. Qed.
