(* ===== verification/Peer.v ===== *)
(** * A connection of the binary protocol, class [Peer_Cache] of
    [src/src/peer_cache.h] and [src/src/peer_cache.cpp]

    A peer reads requests from its socket, a part at a time, calls the cache and
    writes the responses; [process] is its state machine.  A [node] is a peer with
    the cache it works on and what waits in its socket.  A handler runs under the
    peer's [lock_], so each is one step; between two of them others may use the
    cache.

    A computation is [None] where the code has no defined behaviour - a failed
    assertion, a null or dangling pointer, a copy outside its memory - and where
    the loop of [process] does not end. *)

From S2P Require Import Prelude XixiList XixiHashMap Lookup3 Util CurrTime Pdu Stats Watch Slab Cache CacheInv CacheSpec CacheOps CacheData CacheStore Buffers Auth.
Import Cache_Watch.

(** [peer.h] lines 34-44. *)
Inductive peer_state :=
  | PEER_STATE_NEW_CMD | PEER_STATE_READ_HEADER | PEER_STATE_READ_BODY_FIXED
  | PEER_STATE_READ_BODY_EXTRAS | PEER_STATE_READ_BODY_EXTRAS2 | PEER_STATE_SWALLOW
  | PEER_STATUS_ASYNC_WAIT | PEER_STATUS_WRITE | PEER_STATE_CLOSING | PEER_STATE_CLOSED.
#[export] Instance peer_state_eq : EqDecision peer_state.
Proof. solve_decision. Defined.

Definition MAX_PDU_FIXED_LENGTH : Z := 66.
Definition XIXI_PDU_HEAD_LENGTH : Z := XIXI_PDU_CHOICE_LENGTH.

(** What a [const_buffer] of [write_buf_] points to: a piece of [cache_buf_], or a
    part of the body of an item. *)
Inductive const_buffer :=
  | In_cache_buf (p : Cache_Buffer.place) (n : Z)
  | In_item (p : ptr) (off n : Z).
(** The members, [peer_cache.h] lines 126-158.  [read_pdu_] is the request in
    [read_pdu_fixed_body_buffer_] it points to, [read_item_buf_] a place in the body
    of an item, [cache_mem_] the bytes in the blocks of [cache_buf_]; [timer_] are
    the waits of the timer that were not yet called, and whether they were
    cancelled; [self_] is whether the peer still exists. *)
Record Peer_Cache := mk_peer {
  state_ : peer_state;
  next_state_ : peer_state;
  next_data_len_ : Z;
  read_pdu_header_ : Z;
  read_pdu_ : option Pdu.request;
  write_buf_total_ : Z;
  read_item_buf_ : option (ptr * Z);
  cache_item_ : option ptr;
  cache_items_ : list ptr;
  swallow_size_ : Z;
  cache_buf_ : Cache_Buffer.buffer;
  cache_mem_ : gmap (nat * Z) Z;
  read_buffer_ : Receive_Buffer.buffer;
  write_buf_ : list const_buffer;
  timer_ : list (Z * bool);
  timer_flag_ : bool;
  op_count_ : Z;
  self_ : bool
}.

(** [socket_] is what its [read_some] finds, call by call; [reading_] and
    [writing_] are the asynchronous operations under way. *)
Record node := mk_node {
  peer : Peer_Cache;
  cache_mgr_ : Cache_Mgr;
  socket_ : list bytes;
  reading_ : bool;
  writing_ : option (list const_buffer)
}.

Abbreviation N := (ST node).

(** [malloc] of a block of [cache_buf_]. *)
Class Block_Malloc := malloc_block : Z -> bool.

Module Peer.
Section peer.
Context (e : endian) (little : bool) `{Table_Malloc} `{Item_Malloc} `{Buffer_Malloc} `{Block_Malloc} `{Auth_Library}.
Context (alive : sink -> bool) (conf : settings).
(** The number of this peer as a sink, and what a variable that is not assigned
    holds. *)
Context (self : sink) (unassigned : Z).

Definition in_peer (f : Peer_Cache -> Peer_Cache) : N unit := modify (fun n => n <| peer ::= f |>).
Definition my {A} (f : Peer_Cache -> A) : N A := gets (fun n => f (peer n)).
Definition set_state (st : peer_state) : N unit := in_peer (fun p => p <| state_ := st |>).
Definition set_next_state (st : peer_state) : N unit := in_peer (fun p => p <| next_state_ := st |>).
Definition set_next_data_len (n : Z) : N unit := in_peer (fun p => p <| next_data_len_ := n |>).

(** Lines 65-78, with what the members' constructors do; [memory] is that of
    [read_buffer_]. *)
Definition DEFAULT_SIZE : Z := 2048.
Definition HIGHWAT_SIZE : Z := 8192.
Definition init (memory : bytes) : Peer_Cache :=
  mk_peer PEER_STATE_NEW_CMD PEER_STATE_NEW_CMD XIXI_PDU_HEAD_LENGTH 0 None 0 None None [] 0
    Cache_Buffer.init ∅ (Receive_Buffer.init DEFAULT_SIZE memory) [] [] false 0 true.

(** Lines 940-954. *)
Definition cancel (p : Peer_Cache) : Peer_Cache := p <| timer_ ::= map (fun w => (w.1, true)) |>.
Definition on_cache_watch_notify (p : Peer_Cache) : Peer_Cache :=
  if timer_flag_ p then cancel p else p <| timer_flag_ := true |>.

(** A call of the cache, and the notifications of this peer it makes. *)
Definition cache {A} (m : M A) : N A := fun n =>
  match m (cache_mgr_ n) with
  | Some (a, s) =>
      let calls := drop (length (notified_ (cache_mgr_ n))) (notified_ s) in
      let mine := base.filter (fun c => c.1 = self) calls in
      Some (a, n <| cache_mgr_ := s |> <| peer ::= Nat.iter (length mine) on_cache_watch_notify |>)
  | None => None
  end.

(** [cache_buf_.prepare], the encoders writing to what it returned, and
    [add_write_buf], lines 118-121 of the header. *)
Definition prepare (size : Z) : N (option Cache_Buffer.place) := fun n =>
  let r := Cache_Buffer.prepare (MAX_PDU_FIXED_LENGTH * 5) malloc_block size (cache_buf_ (peer n)) in
  Some (r.1, n <| peer ::= fun p => p <| cache_buf_ := r.2 |> |>).
Fixpoint store (block : nat) (at_ : Z) (b : bytes) (m : gmap (nat * Z) Z) : gmap (nat * Z) Z :=
  match b with
  | [] => m
  | x :: b => <[(block, at_) := x]> (store block (at_ + 1) b m)
  end.
Definition encode (p : option Cache_Buffer.place) (b : bytes) : N Cache_Buffer.place :=
  p ← the p;
  in_peer (fun x => x <| cache_mem_ ::= store (Cache_Buffer.block p) (Cache_Buffer.at_ p) b |>);;
  mret p.
Definition add_write_buf (c : const_buffer) : N unit :=
  in_peer (fun p => p <| write_buf_ ::= fun l => l ++ [c] |>
                      <| write_buf_total_ ::= fun t => u32 (t + match c with In_cache_buf _ n | In_item _ _ n => n end) |>).

(** A response of [size] bytes: what nearly every handler ends with. *)
Definition respond_with (p : option Cache_Buffer.place) (size : Z) (b : bytes) : N unit :=
  p ← encode p b;
  add_write_buf (In_cache_buf p size).
Definition to_write : N unit := set_state PEER_STATUS_WRITE;; set_next_state PEER_STATE_NEW_CMD.
Definition respond (size : Z) (b : bytes) : N unit :=
  p ← prepare size; respond_with p size b;; to_write.

(** Lines 107-125. *)
Definition write_simple_res (choice : Z) : N unit := respond XIXI_PDU_SIMPLE_RES_LENGTH (Simple_Res_encode little choice).
Definition write_simple_res_with_reqid (choice request_id : Z) : N unit :=
  respond XIXI_PDU_SIMPLE_RES_WITH_REQID_LENGTH (Simple_Res_With_ReqID_encode little request_id choice).

(** Lines 127-151. *)
Definition write_error (error_code : xixi_reason) (swallow : Z) (reply : bool) : N unit :=
  if reply then
    p ← prepare XIXI_PDU_ERROR_RES_LENGTH;
    respond_with p XIXI_PDU_ERROR_RES_LENGTH (Error_Res_encode little error_code);;
    set_state PEER_STATUS_WRITE;;
    if swallow >? 0 then
      in_peer (fun p => p <| swallow_size_ := swallow |>);;
      set_next_state PEER_STATE_SWALLOW
    else set_next_state PEER_STATE_NEW_CMD
  else if swallow >? 0 then
    in_peer (fun p => p <| swallow_size_ := swallow |>);;
    set_state PEER_STATE_SWALLOW;; set_next_state PEER_STATE_NEW_CMD
  else set_state PEER_STATE_NEW_CMD;; set_next_state PEER_STATE_NEW_CMD.
(** What the unknown choices do. *)
Definition close_with_error : N unit :=
  write_error XIXI_REASON_UNKNOWN_COMMAND 0 true;; set_next_state PEER_STATE_CLOSING.
(** The end of the handlers of updates: a response, an error or, when the client
    wants none, the next request. *)
Definition reply_or_next (reply : bool) (m : N unit) : N unit :=
  if reply then m else set_state PEER_STATE_NEW_CMD;; set_next_state PEER_STATE_NEW_CMD.

(** ** The handlers of the requests *)

(** Line 830-833. *)
Definition process_hello_req_pdu_fixed : N unit := write_simple_res XIXI_CHOICE_HELLO_RES.

(** Lines 600-623. *)
Definition process_update_req_pdu_fixed (pdu : Update_Req.pdu) : N unit :=
  let data_len := u32 (Update_Req.key_length pdu + Update_Req.data_length pdu) in
  r ← cache (Store.begin_update (Update_Req.group_id pdu) (Update_Req.key_length pdu) (Update_Req.flags pdu)
               (Update_Req.expiration pdu) (Update_Req.data_length pdu) 0);
  match r with
  | inl p =>
      in_peer (fun x => x <| cache_item_ := Some p |> <| read_item_buf_ := Some (p, 0) |>);;
      set_next_data_len data_len;; set_state PEER_STATE_READ_BODY_EXTRAS
  | inr reason =>
      in_peer (fun x => x <| cache_item_ := None |>);;
      write_error reason data_len (Update_Req.reply pdu)
  end.

(** Lines 625-678. *)
Definition process_update_req_pdu_extras (pdu : Update_Req.pdu) : N unit :=
  p ← my cache_item_; p ← the p;
  cache (Mgr.update_opt p (Item_Key.calc_hash_value e));;
  cache (Mgr.update p (fun it => it <| cache_id := Update_Req.cache_id pdu |>));;
  r ← cache (Store.dispatch alive (Update_Req.sub_op pdu) p (Update_Req.watch_id pdu));
  reply_or_next (Update_Req.reply pdu)
    (if decide (r.1 = XIXI_REASON_SUCCESS)
     then respond Update_Res_calc_encode_size (Update_Res_encode little (default unassigned r.2))
     else write_error r.1 0 true);;
  cache (Mgr.release_reference p);;
  in_peer (fun x => x <| cache_item_ := None |>).

(** The key of a request and the bytes it takes; [data] is what was received. *)
Definition with_key (key_length : Z) (data : bytes) (f : bytes -> N unit) : N Z :=
  if Z.of_nat (length data) <? key_length then mret 0
  else f (take (Z.to_nat key_length) data);; mret key_length.

(** The response to a [get] that found: its head and the data of the item. *)
Definition respond_item (p : ptr) (expiration : Z) : N unit :=
  in_peer (fun x => x <| cache_item_ := Some p |> <| cache_items_ ::= fun l => l ++ [p] |>);;
  pl ← prepare Get_Res_calc_encode_size;
  it ← cache (Mgr.item p);
  respond_with pl Get_Res_calc_encode_size (Get_Res_encode little (cache_id it) (flags it) expiration (data_size it));;
  add_write_buf (In_item p (Item.data_at it) (data_size it));;
  to_write.

(** Lines 486-524, 526-563 and 565-598. *)
Definition process_get_req_pdu_extras (pdu : Get_Req.pdu) (data : bytes) : N Z :=
  with_key (Get_Req.key_length pdu) data (fun key =>
    r ← cache (Mgr.get e alive (Get_Req.group_id pdu) key (Get_Req.watch_id pdu) false);
    match r.1 with
    | Some (p, expiration) => respond_item p expiration
    | None => write_error r.2 0 true
    end).
Definition process_get_touch_req_pdu_extras (pdu : Get_Touch_Req.pdu) (data : bytes) : N Z :=
  with_key (Get_Touch_Req.key_length pdu) data (fun key =>
    r ← cache (Mgr.get_touch e (Get_Touch_Req.group_id pdu) key (Get_Touch_Req.watch_id pdu) (Get_Touch_Req.expiration pdu));
    match r.1 with
    | Some p => respond_item p (Get_Touch_Req.expiration pdu)
    | None => write_error r.2 0 true
    end).
Definition process_get_base_req_pdu_extras (pdu : Get_Base_Req.pdu) (data : bytes) : N Z :=
  with_key (Get_Base_Req.key_length pdu) data (fun key =>
    r ← cache (Mgr.get e alive (Get_Base_Req.group_id pdu) key 0 true);
    match r.1 with
    | Some (p, expiration) =>
        pl ← prepare Get_Base_Res_calc_encode_size;
        it ← cache (Mgr.item p);
        cache (Mgr.release_reference p);;
        respond_with pl Get_Base_Res_calc_encode_size
          (Get_Base_Res_encode little (cache_id it) (flags it) expiration (data_size it));;
        to_write
    | None => write_error XIXI_REASON_NOT_FOUND 0 true
    end).

(** Lines 680-710 and 712-742. *)
Definition respond_base (r : bool * Z) (size : Z) (b : bytes) : N unit :=
  if r.1 then respond size b
  else if negb (r.2 =? 0) then write_error XIXI_REASON_MISMATCH 0 true
  else write_error XIXI_REASON_NOT_FOUND 0 true.
Definition process_update_flags_req_pdu_extras (pdu : Update_Flags_Req.pdu) (data : bytes) : N Z :=
  with_key (Update_Flags_Req.key_length pdu) data (fun key =>
    r ← cache (Mgr.update_flags e alive (Update_Flags_Req.group_id pdu) key (Update_Flags_Req.cache_id pdu) (Update_Flags_Req.flags pdu));
    reply_or_next (Update_Flags_Req.reply pdu)
      (respond_base r Update_Flags_Res_calc_encode_size (Update_Flags_Res_encode little r.2))).
Definition process_update_expiration_req_pdu_extras (pdu : Update_Expiration_Req.pdu) (data : bytes) : N Z :=
  with_key (Update_Expiration_Req.key_length pdu) data (fun key =>
    r ← cache (Mgr.update_expiration e (Update_Expiration_Req.group_id pdu) key (Update_Expiration_Req.cache_id pdu)
                 (Update_Expiration_Req.expiration pdu));
    reply_or_next (Update_Expiration_Req.reply pdu)
      (respond_base r Update_Expiration_Res_calc_encode_size (Update_Expiration_Res_encode little r.2))).

(** Lines 744-767. *)
Definition process_delete_req_pdu_extras (pdu : Delete_Req.pdu) (data : bytes) : N Z :=
  with_key (Delete_Req.key_length pdu) data (fun key =>
    reason ← cache (Mgr.remove e alive (Delete_Req.group_id pdu) key (Delete_Req.cache_id pdu));
    reply_or_next (Delete_Req.reply pdu)
      (if decide (reason = XIXI_REASON_SUCCESS) then write_simple_res XIXI_CHOICE_DELETE_RES
       else write_error reason 0 true)).

(** Lines 769-788: what [auth_.login] answers is not used; what it throws nobody
    catches. *)
Definition process_auth_req_pdu_fixed (pdu : Auth_Req.pdu) : N unit :=
  set_next_data_len (Auth_Req.base64_length pdu);; set_state PEER_STATE_READ_BODY_EXTRAS2.
Definition process_auth_req_pdu_extras (pdu : Auth_Req.pdu) (data : bytes) : N Z :=
  with_key (Auth_Req.base64_length pdu) data (fun base64 => the (Auth.login base64 []);; mret tt).

(** Lines 790-828. *)
Definition process_delta_req_pdu_fixed (pdu : Delta_Req.pdu) : N unit :=
  set_next_data_len (Delta_Req.key_length pdu);; set_state PEER_STATE_READ_BODY_EXTRAS2.
Definition process_delta_req_pdu_extras (pdu : Delta_Req.pdu) (data : bytes) : N Z :=
  with_key (Delta_Req.key_length pdu) data (fun key =>
    r ← cache (Mgr.delta e alive (Delta_Req.group_id pdu) key (Delta_Req.sub_op pdu =? 0) (Delta_Req.delta pdu) (Delta_Req.cache_id pdu));
    reply_or_next (Delta_Req.reply pdu)
      (if decide (r.1.1 = XIXI_REASON_SUCCESS)
       then respond Delta_Res_calc_encode_size (Delta_Res_encode little r.2 r.1.2)
       else write_error r.1.1 0 true)).

(** Lines 835-846. *)
Definition process_create_watch_req_pdu_fixed (pdu : Create_Watch_Req.pdu) : N unit :=
  watch_id ← cache (Mgr.create_watch (Create_Watch_Req.group_id pdu) (Create_Watch_Req.max_next_check_interval pdu));
  respond Create_Watch_Res_get_body_size (Create_Watch_Res_encode little watch_id).

(** [watch_notify_type], [peer_cache_pdu.h] lines 61-66, and what the answer of a
    check is encoded to. *)
Definition notify_code (t : watch_notify_type) : Z :=
  match t with
  | WATCH_NOTIFY_TYPE_BASE_INFO_UPDATED => 1 | WATCH_NOTIFY_TYPE_DATA_UPDATED => 2
  | WATCH_NOTIFY_TYPE_DELETED => 3 | WATCH_NOTIFY_TYPE_EXPIRED => 4 | WATCH_NOTIFY_TYPE_FLUSHED => 5
  end.
Definition encode_answer (a : answer) : bytes :=
  Check_Watch_Res_encode little (default unassigned (Cache_Watch.sequence a))
    (zip (updated_list a) (map notify_code (updated_type_list a))).
Definition answer_size (a : answer) : Z := Check_Watch_Res_calc_encode_size (u32 (Z.of_nat (length (updated_list a)))).

(** Lines 848-893. *)
Definition process_check_watch_req_pdu_fixed (pdu : Check_Watch_Req.pdu) : N unit :=
  in_peer (fun p => p <| timer_flag_ := false |>);;
  a ← cache (Mgr.check_watch_and_set_callback alive (Some self) (Check_Watch_Req.group_id pdu) (Check_Watch_Req.watch_id pdu)
               (Check_Watch_Req.ack_sequence pdu) (Check_Watch_Req.max_next_check_interval pdu) no_answer);
  match a with
  | None => write_error XIXI_REASON_WATCH_NOT_FOUND 0 true
  | Some a =>
      if (0 <? length (updated_list a))%nat then
        pl ← prepare (answer_size a);
        match pl with
        | Some _ => respond_with pl (answer_size a) (encode_answer a);; to_write
        | None => write_error XIXI_REASON_OUT_OF_MEMORY 0 true
        end
      else
        in_peer (fun p => (cancel p) <| timer_ ::= fun l => l ++ [(Check_Watch_Req.watch_id pdu, false)] |>);;
        flag ← my timer_flag_;
        (if flag : bool then in_peer cancel else in_peer (fun p => p <| timer_flag_ := true |>));;
        set_state PEER_STATUS_ASYNC_WAIT
  end.

(** Lines 895-905. *)
Definition process_flush_req_pdu_fixed (pdu : Flush_Req.pdu) : N unit :=
  pl ← prepare Flush_Res_calc_encode_size;
  r ← cache (Mgr.flush alive (Flush_Req.group_id pdu));
  respond_with pl Flush_Res_calc_encode_size (Flush_Res_encode little r.1 r.2);;
  to_write.

(** Lines 907-923. *)
Definition process_stats_req_pdu_fixed (pdu : Stats_Req.pdu) : N unit :=
  result ← cache (Mgr.stats_cmd conf (Stats_Req.sub_op pdu) (Stats_Req.group_id pdu) (Stats_Req.class_id pdu));
  let size := u32 (Z.of_nat (length result)) in
  let buf_size := Stats_Res_calc_encode_size size in
  pl ← prepare buf_size;
  match pl with
  | Some _ => respond_with pl buf_size (Stats_Res_encode little result size);; to_write
  | None => write_error XIXI_REASON_OUT_OF_MEMORY 0 true
  end.

(** ** The state machine *)

(** Lines 320-388: the size of the fixed body of a choice that has one. *)
Definition fixed_body_size (choice : Z) : option Z :=
  if choice =? XIXI_CHOICE_GET_REQ then Some Get_Req.get_fixed_body_size
  else if choice =? XIXI_CHOICE_GET_TOUCH_REQ then Some Get_Touch_Req.get_fixed_body_size
  else if choice =? XIXI_CHOICE_UPDATE_REQ then Some Update_Req.get_fixed_body_size
  else if choice =? XIXI_CHOICE_UPDATE_FLAGS_REQ then Some Update_Flags_Req.get_fixed_body_size
  else if choice =? XIXI_CHOICE_UPDATE_EXPIRATION_REQ then Some Update_Expiration_Req.get_fixed_body_size
  else if choice =? XIXI_CHOICE_DELETE_REQ then Some Delete_Req.get_fixed_body_size
  else if choice =? XIXI_CHOICE_AUTH_REQ then Some Auth_Req.get_fixed_body_size
  else if choice =? XIXI_CHOICE_DELTA_REQ then Some Delta_Req.get_fixed_body_size
  else if choice =? XIXI_CHOICE_GET_BASE_REQ then Some Get_Base_Req.get_fixed_body_size
  else if choice =? XIXI_CHOICE_FLUSH_REQ then Some Flush_Req.get_fixed_body_size
  else if choice =? XIXI_CHOICE_STATS_REQ then Some Stats_Req.get_fixed_body_size
  else if choice =? XIXI_CHOICE_CREATE_WATCH_REQ then Some Create_Watch_Req.get_fixed_body_size
  else if choice =? XIXI_CHOICE_CHECK_WATCH_REQ then Some Check_Watch_Req.get_fixed_body_size
  else None.
Definition process_header (data : bytes) : N Z :=
  let choice := Header.decode little data in
  in_peer (fun p => p <| read_pdu_header_ := choice |>);;
  match fixed_body_size choice with
  | Some n => set_next_data_len n;; set_state PEER_STATE_READ_BODY_FIXED
  | None => if choice =? XIXI_CHOICE_HELLO_REQ then process_hello_req_pdu_fixed else close_with_error
  end;;
  mret XIXI_PDU_HEAD_LENGTH.

(** Lines 390-444.  The request is what was decoded for the choice of the header,
    so that each cast is to the type it has. *)
Definition to_extras2 (key_length : Z) : N unit :=
  set_next_data_len key_length;; set_state PEER_STATE_READ_BODY_EXTRAS2.
Definition process_pdu_fixed (pdu : Pdu.request) : N unit :=
  match pdu with
  | GetReq p => to_extras2 (Get_Req.key_length p)
  | GetTouchReq p => to_extras2 (Get_Touch_Req.key_length p)
  | UpdateReq p => process_update_req_pdu_fixed p
  | UpdateFlagsReq p => to_extras2 (Update_Flags_Req.key_length p)
  | UpdateExpirationReq p => to_extras2 (Update_Expiration_Req.key_length p)
  | DeleteReq p => to_extras2 (Delete_Req.key_length p)
  | AuthReq p => process_auth_req_pdu_fixed p
  | DeltaReq p => process_delta_req_pdu_fixed p
  | GetBaseReq p => to_extras2 (Get_Base_Req.key_length p)
  | FlushReq p => process_flush_req_pdu_fixed p
  | StatsReq p => process_stats_req_pdu_fixed p
  | CreateWatchReq p => process_create_watch_req_pdu_fixed p
  | CheckWatchReq p => process_check_watch_req_pdu_fixed p
  | HelloReq => close_with_error
  end.

(** Lines 446-458 and 460-484; the pointer must not be null. *)
Definition process_pdu_extras (pdu : option Pdu.request) : N unit :=
  pdu ← the pdu;
  match pdu with
  | UpdateReq p => process_update_req_pdu_extras p
  | _ => close_with_error
  end.
Definition process_pdu_extras2 (pdu : option Pdu.request) (data : bytes) : N Z :=
  pdu ← the pdu;
  match pdu with
  | GetReq p => process_get_req_pdu_extras p data
  | GetTouchReq p => process_get_touch_req_pdu_extras p data
  | UpdateFlagsReq p => process_update_flags_req_pdu_extras p data
  | UpdateExpirationReq p => process_update_expiration_req_pdu_extras p data
  | DeleteReq p => process_delete_req_pdu_extras p data
  | AuthReq p => process_auth_req_pdu_extras p data
  | DeltaReq p => process_delta_req_pdu_extras p data
  | GetBaseReq p => process_get_base_req_pdu_extras p data
  | _ => close_with_error;; mret 0
  end.

(** Lines 925-938. *)
Definition reset_for_new_cmd : N unit :=
  in_peer (fun p => p <| read_pdu_ := None |> <| cache_item_ := None |>);;
  items ← my cache_items_;
  for_each (fun p => cache (Mgr.release_reference p)) items;;
  in_peer (fun p => p <| cache_items_ := [] |> <| cache_buf_ ::= Cache_Buffer.reset |>
    <| cache_mem_ ::= base.filter (fun x => x.1.1 = 0%nat) |>
    <| write_buf_total_ := 0 |> <| read_item_buf_ := None |> <| next_data_len_ := XIXI_PDU_HEAD_LENGTH |>);;
  set_state PEER_STATE_READ_HEADER.

(** Lines 1089-1099: what is there, up to [length] bytes, and nothing when there is
    nothing. *)
Definition read_some (length : Z) : N bytes := fun n =>
  match socket_ n with
  | [] => Some ([], n)
  | b :: rest =>
      let got := take (Z.to_nat length) b in
      let left := drop (Z.to_nat length) b in
      Some (got, n <| socket_ := if decide (left = []) then rest else left :: rest |>)
  end.

Definition on_read_buffer (f : Receive_Buffer.buffer -> option Receive_Buffer.buffer) : N unit :=
  b ← my read_buffer_; b ← the (f b); in_peer (fun p => p <| read_buffer_ := b |>).
Definition consume (n : Z) : N unit := on_read_buffer (fun b => Some (Receive_Buffer.processed n b)).
Definition handle_processed : N unit := on_read_buffer (Receive_Buffer.handle_processed DEFAULT_SIZE HIGHWAT_SIZE).
(** What a state that needs more data does, as in lines 176-183. *)
Definition read_more : N bool :=
  handle_processed;;
  size ← my (fun p => Receive_Buffer.get_read_buf_size (read_buffer_ p));
  got ← read_some size;
  on_read_buffer (Receive_Buffer.received got);;
  mret (negb (bool_decide (got = []))).
(** [memcpy] to [read_item_buf_], which moves on. *)
Definition to_item (b : bytes) : N unit :=
  at_ ← my read_item_buf_;
  at_ ← the at_;
  cache (Mgr.update_opt at_.1 (Item.write at_.2 b));;
  in_peer (fun p => p <| read_item_buf_ := Some (at_.1, at_.2 + Z.of_nat (length b)) |>
                      <| next_data_len_ ::= fun n => u32 (n - Z.of_nat (length b)) |>).

(** Lines 169-184, ..., 284-296: one round of the loop of [process], by the state;
    [count] is [process_reqest_count], and the result is [run] and the count. *)
Definition data_size : N Z := my (fun p => Receive_Buffer.read_data_size_ (read_buffer_ p)).
Definition data : N bytes := my (fun p => Receive_Buffer.data (read_buffer_ p)).
Definition read_header (count : Z) : N (bool * Z) :=
  size ← data_size; next ← my next_data_len_;
  if size >=? next then
    d ← data; tmp ← process_header d; consume tmp;; mret (true, u32 (count + 1))
  else run ← read_more; mret (run, count).
Definition read_body_fixed : N bool :=
  size ← data_size; next ← my next_data_len_;
  if size >=? next then
    d ← data; choice ← my read_pdu_header_;
    let ret := decode_pdu little choice d in
    consume next;;
    match ret with
    | Some pdu => in_peer (fun p => p <| read_pdu_ := Some pdu |>);; process_pdu_fixed pdu
    | None => close_with_error
    end;;
    mret true
  else read_more.
Definition read_body_extras : N bool :=
  size ← data_size; next ← my next_data_len_;
  if next =? 0 then pdu ← my read_pdu_; process_pdu_extras pdu;; mret true
  else if size >? 0 then
    let tmp := if size >? next then next else size in
    d ← data; to_item (take (Z.to_nat tmp) d);; consume tmp;; mret true
  else
    got ← read_some next;
    if bool_decide (got = []) then mret false else to_item got;; mret true.
Definition read_body_extras2 : N bool :=
  size ← data_size; next ← my next_data_len_;
  if size >=? next then
    d ← data; pdu ← my read_pdu_; tmp ← process_pdu_extras2 pdu d; consume tmp;; mret true
  else read_more.
Definition swallow : N bool :=
  size ← data_size; left ← my swallow_size_;
  if left =? 0 then set_state PEER_STATE_NEW_CMD;; mret true
  else if size >? 0 then
    let tmp := if size >? left then left else size in
    in_peer (fun p => p <| swallow_size_ ::= fun s => u32 (s - tmp) |>);; consume tmp;; mret true
  else read_more.
Definition status_write (count : Z) : N bool :=
  next ← my next_state_;
  set_state next;; set_next_state PEER_STATE_NEW_CMD;;
  if bool_decide (next = PEER_STATE_NEW_CMD) && (count <? 32) then
    size ← data_size;
    if size >=? XIXI_PDU_HEAD_LENGTH then set_state PEER_STATE_READ_HEADER;; mret true else mret false
  else mret false.
Definition round (count : Z) : N (bool * Z) :=
  let same (m : N bool) : N (bool * Z) := run ← m; mret (run, count) in
  st ← my state_;
  match st with
  | PEER_STATE_NEW_CMD => same (reset_for_new_cmd;; mret true)
  | PEER_STATE_READ_HEADER => read_header count
  | PEER_STATE_READ_BODY_FIXED => same read_body_fixed
  | PEER_STATE_READ_BODY_EXTRAS => same read_body_extras
  | PEER_STATE_READ_BODY_EXTRAS2 => same read_body_extras2
  | PEER_STATE_SWALLOW => same swallow
  | PEER_STATUS_ASYNC_WAIT => mret (false, count)
  | PEER_STATUS_WRITE => same (status_write count)
  | PEER_STATE_CLOSING => same (set_state PEER_STATE_CLOSED;; mret false)
  | PEER_STATE_CLOSED => mret (false, count)
  end.

(** Lines 153-313.  The fuel is more than the rounds there can be: those that move
    bytes, and a few between them. *)
Definition weight (n : node) : Z :=
  Receive_Buffer.read_data_size_ (read_buffer_ (peer n)) + 2 * Z.of_nat (length (concat (socket_ n))).
Definition process_fuel (n : node) : nat := Z.to_nat (8 * weight n + 8).
Fixpoint process_loop (fuel : nat) (count : Z) : N unit :=
  match fuel with
  | O => the None
  | S fuel => r ← round count; if r.1 : bool then process_loop fuel r.2 else mret tt
  end.
Definition process : N unit := fuel ← gets process_fuel; process_loop fuel 0.

(** ** The handlers of asio's completions *)

(** Lines 1045-1064 and 1066-1087. *)
Definition try_read : N unit :=
  count ← my op_count_;
  if count =? 0 then
    in_peer (fun p => p <| op_count_ ::= fun c => c + 1 |>);;
    handle_processed;;
    modify (fun n => n <| reading_ := true |>)
  else mret tt.
Definition try_write : N bool :=
  count ← my op_count_; bufs ← my write_buf_;
  if (count =? 0) && negb (bool_decide (length bufs = 0%nat)) then
    in_peer (fun p => p <| op_count_ ::= fun c => c + 1 |>);;
    modify (fun n => n <| writing_ := Some bufs |>);;
    in_peer (fun p => p <| write_buf_ := [] |>);;
    mret true
  else mret false.

(** What is written: the bytes the buffers point to. *)
Definition fetch (n : node) (c : const_buffer) : option bytes :=
  match c with
  | In_cache_buf p size => mapM (fun i => cache_mem_ (peer n) !! (Cache_Buffer.block p, Cache_Buffer.at_ p + i)) (seqZ 0 size)
  | In_item p off size =>
      match heap (cache_mgr_ n) !! p with Some it => mem_read off size (body it) | None => None end
  end.
Definition gather (n : node) : option bytes :=
  match writing_ n with Some bufs => (fun l => concat l) <$> mapM (fetch n) bufs | None => Some [] end.

(** Lines 80-105, and 59-63 with the end of the sockets. *)
Definition cleanup : N unit :=
  in_peer (fun p => p <| cache_item_ := None |>);;
  items ← my cache_items_;
  for_each (fun p => cache (Mgr.release_reference p)) items;;
  in_peer (fun p => p <| cache_items_ := [] |>).
Definition stats_conn (m : ST stats unit) : N unit := cache (on stats_ (fun st s => s <| stats_ := st |>) m).
Definition destroy : N unit :=
  cleanup;; stats_conn Stats.close_conn;; in_peer (fun p => p <| self_ := false |>).
(** Lines 31-57. *)
Definition create (memory : bytes) : N unit := in_peer (fun _ => init memory);; stats_conn Stats.new_conn.

(** Lines 962-974, which the handlers share, and 978-982. *)
Definition process_and_go_on : N unit :=
  process;;
  st ← my state_;
  if bool_decide (st = PEER_STATUS_ASYNC_WAIT) then try_write;; mret tt
  else if bool_decide (st = PEER_STATE_CLOSED) then mret tt
  else written ← try_write; if written : bool then mret tt else try_read.
Definition close_when_idle : N unit :=
  count ← my op_count_; st ← my state_;
  if (count =? 0) && negb (bool_decide (st = PEER_STATUS_ASYNC_WAIT)) then destroy else mret tt.

(** Lines 956-983. *)
Definition start (d : bytes) : N unit :=
  room ← my (fun p => Receive_Buffer.get_read_buf_size (read_buffer_ p));
  (if room >=? Z.of_nat (length d) then on_read_buffer (Receive_Buffer.received d);; process_and_go_on else mret tt);;
  close_when_idle.
(** Lines 985-1014 and 1016-1043; [None] and [false] tell an error. *)
Definition handle_read (got : option bytes) : N unit :=
  modify (fun n => n <| reading_ := false |>);;
  in_peer (fun p => p <| op_count_ ::= fun c => c - 1 |>);;
  match got with
  | Some d => on_read_buffer (Receive_Buffer.received d);; process_and_go_on
  | None => mret tt
  end;;
  close_when_idle.
Definition handle_write (ok : bool) : N unit :=
  modify (fun n => n <| writing_ := None |>);;
  in_peer (fun p => p <| op_count_ ::= fun c => c - 1 |>);;
  (if ok then process_and_go_on else mret tt);;
  close_when_idle.
(** Lines 1101-1136, for the first wait. *)
Definition handle_timer : N unit :=
  waits ← my timer_; w ← the (head waits);
  in_peer (fun p => p <| timer_ ::= tail |>);;
  a ← cache (Mgr.check_watch_and_clear_callback alive (Some self) w.1 no_answer);
  match a with
  | None => write_error XIXI_REASON_WATCH_NOT_FOUND 0 true
  | Some a =>
      pl ← prepare (answer_size a);
      match pl with
      | Some _ =>
          respond_with pl (answer_size a) (encode_answer a);;
          set_state PEER_STATE_NEW_CMD;; set_next_state PEER_STATE_NEW_CMD
      | None => write_error XIXI_REASON_OUT_OF_MEMORY 0 true
      end
  end;;
  try_write;; mret tt.
End peer.
End Peer.
