(* ===== verification/PeerFacts.v ===== *)
(** * The requests of a connection: what their handlers keep

    [node_ok] is the invariant of a node: that of the cache, with the references
    that the peer and others hold, and what each state of the peer relies on.
    Every handler of a request keeps it. *)

From S2P Require Import Prelude XixiList XixiHashMap Lookup3 Util CurrTime Pdu Stats Watch Slab Cache CacheInv CacheSpec CacheOps CacheData CacheSweep CacheStore CacheRun Buffers Auth Peer.
Import Cache_Watch.

(** ** What the handlers leave alone *)

(** The states a response can be followed by. *)
Definition follows (st : peer_state) : Prop :=
  match st with PEER_STATE_NEW_CMD | PEER_STATE_SWALLOW | PEER_STATE_CLOSING => True | _ => False end.

(** The fields of a node that answering does not touch; the request that is being
    read and what was received. *)
Record quiet (n n' : node) : Prop := {
  q_next : next_data_len_ (peer n') = next_data_len_ (peer n);
  q_header : read_pdu_header_ (peer n') = read_pdu_header_ (peer n);
  q_pdu : read_pdu_ (peer n') = read_pdu_ (peer n);
  q_at : read_item_buf_ (peer n') = read_item_buf_ (peer n);
  q_item : cache_item_ (peer n') = cache_item_ (peer n);
  q_items : cache_items_ (peer n') = cache_items_ (peer n);
  q_buffer : read_buffer_ (peer n') = read_buffer_ (peer n);
  q_socket : socket_ n' = socket_ n;
  q_swallow : 0 <= swallow_size_ (peer n) < 2 ^ 32 -> 0 <= swallow_size_ (peer n') < 2 ^ 32;
  q_follows : follows (next_state_ (peer n)) -> follows (next_state_ (peer n'))
}.
Lemma quiet_refl n : quiet n n.
Proof. by split. Qed.
Lemma quiet_trans n1 n2 n3 : quiet n1 n2 -> quiet n2 n3 -> quiet n1 n3.
Proof. intros [] []. split; try congruence; auto. Qed.
#[export] Hint Resolve quiet_refl quiet_trans : peer.
(** Nor the cache. *)
Definition hushed (st st' : peer_state) (n n' : node) : Prop :=
  quiet n n' /\ cache_mgr_ n' = cache_mgr_ n /\ state_ (peer n') = st /\ next_state_ (peer n') = st'.

Ltac quietly := unfold hushed; split_and!; (done || by split).

Section frames.
Context (e : endian) (little : bool) `{Table_Malloc} `{Item_Malloc} `{Buffer_Malloc} `{Block_Malloc} `{Auth_Library}.
Context (alive : sink -> bool) (conf : settings) (self : sink) (unassigned : Z).
Context (blocks : forall n, malloc_block n = true).
Implicit Types (n : node) (Q : unit -> node -> Prop).

Lemma notified p k : exists t b, Nat.iter k Peer.on_cache_watch_notify p = p <| timer_ := t |> <| timer_flag_ := b |>.
Proof.
  induction k as [|k (t&b&IH)]; [exists (timer_ p), (timer_flag_ p); by destruct p|].
  rewrite Nat.iter_succ. rewrite IH. unfold Peer.on_cache_watch_notify. destruct p, b; cbn; eauto.
Qed.

(** A call of the cache changes the cache, and may set off the timer. *)
Lemma wp_cache {A} (m : M A) n (Q : A -> node -> Prop) :
  wp m (cache_mgr_ n) (fun a s => forall n', quiet n n' -> cache_mgr_ n' = s -> state_ (peer n') = state_ (peer n) ->
    next_state_ (peer n') = next_state_ (peer n) -> Q a n') ->
  wp (Peer.cache self m) n Q.
Proof.
  unfold wp, Peer.cache. destruct (m (cache_mgr_ n)) as [[a s]|]; [|done]. intros HQ.
  set (k := length _). destruct (notified (peer n) k) as (t&b&Hk). unfold set. cbn. rewrite Hk. apply HQ; (done || by split).
Qed.

Lemma wp_prepare size n (Q : option Cache_Buffer.place -> node -> Prop) :
  (forall p n', hushed (state_ (peer n)) (next_state_ (peer n)) n n' -> Q (Some p) n') -> wp (Peer.prepare size) n Q.
Proof.
  intros HQ. unfold wp, Peer.prepare. set (r := Cache_Buffer.prepare _ _ _ _). assert (exists p, r.1 = Some p) as [p ->].
  { unfold r, Cache_Buffer.prepare. rewrite blocks. repeat case_match; cbn; eauto. }
  apply HQ. quietly.
Qed.

Lemma wp_respond_with p size b n Q :
  (forall n', hushed (state_ (peer n)) (next_state_ (peer n)) n n' -> Q tt n') -> wp (Peer.respond_with (Some p) size b) n Q.
Proof. intros HQ. cbn. apply HQ. quietly. Qed.
Lemma wp_to_write n Q : (forall n', hushed PEER_STATUS_WRITE PEER_STATE_NEW_CMD n n' -> Q tt n') -> wp Peer.to_write n Q.
Proof. intros HQ. cbn. apply HQ. quietly. Qed.

Lemma hushed_trans a b c d n1 n2 n3 : hushed a b n1 n2 -> hushed c d n2 n3 -> hushed c d n1 n3.
Proof.
  intros (Hq&?&_) (Hq'&?&?&?). unfold hushed. split_and!; try congruence. by eapply quiet_trans.
Qed.

Lemma wp_respond size b n Q :
  (forall n', hushed PEER_STATUS_WRITE PEER_STATE_NEW_CMD n n' -> Q tt n') -> wp (Peer.respond size b) n Q.
Proof.
  intros HQ. unfold Peer.respond. apply wp_bind, wp_prepare. intros p n1 H1'. apply wp_bind, wp_respond_with. intros n2 H2'.
  apply wp_to_write. intros n3 H3'. apply HQ. eauto using hushed_trans.
Qed.
Lemma wp_write_error reason sw n Q : 0 <= sw < 2 ^ 32 ->
  (forall n', hushed PEER_STATUS_WRITE (if sw >? 0 then PEER_STATE_SWALLOW else PEER_STATE_NEW_CMD) n n' -> Q tt n') ->
  wp (Peer.write_error little reason sw true) n Q.
Proof.
  intros Hsw HQ. unfold Peer.write_error. apply wp_bind, wp_prepare. intros p n1 H1'. apply wp_bind, wp_respond_with. intros n2 H2'.
  destruct (sw >? 0); cbn; apply HQ; (eapply hushed_trans; [exact H1'|eapply hushed_trans; [exact H2'|quietly]]).
Qed.
Lemma wp_close_with_error n Q :
  (forall n', hushed PEER_STATUS_WRITE PEER_STATE_CLOSING n n' -> Q tt n') -> wp (Peer.close_with_error little) n Q.
Proof.
  intros HQ. unfold Peer.close_with_error. apply wp_bind, wp_write_error; [lia|]. intros n1 H1'. cbn. apply HQ.
  eapply hushed_trans; [exact H1'|]. destruct H1' as (_&_&?&_). quietly.
Qed.
End frames.

(** ** References *)

(** The references of a list of items, and of the item that is being read. *)
Definition refs_of (l : list ptr) : holds := fun p => Z.of_nat (count_occ Pos.eq_dec l p).
Definition plus (h h' : holds) : holds := fun p => h p + h' p.
(** [h'] is [h] with at most one more reference to each item. *)
Definition grown (h h' : holds) : Prop := forall p, h p <= h' p <= h p + 1.

Lemma refs_of_snoc l p q : refs_of (l ++ [p]) q = give p 1 (refs_of l) q.
Proof.
  unfold refs_of, give. rewrite count_occ_app. cbn. destruct (decide (q = p)), (Pos.eq_dec p q); try congruence; lia.
Qed.
Lemma refs_of_cons l p q : refs_of (p :: l) q = give p 1 (refs_of l) q.
Proof. unfold refs_of, give. cbn. destruct (decide (q = p)), (Pos.eq_dec p q); try congruence; lia. Qed.
Lemma refs_of_ge l q : 0 <= refs_of l q.
Proof. unfold refs_of. lia. Qed.
Lemma grown_refl h : grown h h.
Proof. intros p. lia. Qed.
Lemma grown_give p h : grown h (give p 1 h).
Proof. intros q. unfold give. case_decide; lia. Qed.

Section calls.
Context (e : endian) `{Table_Malloc} `{Item_Malloc} `{!Item_Malloc_Ok} (alive : sink -> bool) (conf : settings).
Implicit Types (s : Cache_Mgr) (h : holds).


(** What a call leaves that gives no pointer: at most one reference more. *)
Definition safe {A} h : A -> Cache_Mgr -> Prop := fun _ s' => exists h', inv e s' h' /\ grown h h'.
(** What a call leaves that gives one. *)
Definition found_safe h (o : option (ptr * Z)) s' : Prop :=
  match o with
  | Some (p, _) => inv e s' (give p 1 h) /\ is_Some (heap s' !! p)
  | None => safe h tt s'
  end.

Lemma owns_safe (r : request) a o s s' h h' : (forall p, r <> Release p) -> owns r a o s s' h h' -> inv e s' h' ->
  inv e s' h' /\ grown h h' /\ forall p, o = Some p -> h' = give p 1 h.
Proof.
  intros Hr Ho Hi. split; [done|]. unfold owns in Ho. destruct o as [p|].
  - subst h'. split; [apply grown_give|]. congruence.
  - assert (grown h h') as Hg; [|by split].
    destruct r; try (subst h'; apply grown_refl); try (by destruct (Hr p));
      (destruct (leaked _ _ _); [destruct Ho as (?&?&_&_&_&->); apply grown_give|subst h'; apply grown_refl]).
Qed.

Lemma call_safe (r : request) s h Q : (forall p, r <> Release p) -> inv e s h -> roomy h -> allowed s h r ->
  (forall a o s' h', inv e s' h' -> grown h h' -> (forall p, o = Some p -> h' = give p 1 h) -> Q (a, o) s') ->
  wp (run_request e alive conf r) s Q.
Proof.
  intros Hn Hi Hr Hal HQ. eapply wp_mono; [by apply (run_request_ok e alive conf s h r)|].
  intros [a o] s' [_ _ (h'&Ho&Hi')]. cbn [fst snd] in *. destruct (owns_safe _ _ _ _ _ _ _ Hn Ho Hi') as (_&?&?). by eapply HQ.
Qed.

(** A request that gives no pointer, for the call it makes. *)
Lemma plain_safe {A} (r : request) (m : M A) (k : A -> reply) s h :
  run_request e alive conf r = (x ← m; mret (k x, None)) -> (forall p, r <> Release p) -> inv e s h -> roomy h -> allowed s h r ->
  wp m s (safe h).
Proof.
  intros Heq Hn Hi Hr Hal. pose proof (call_safe r s h (fun _ s' => safe h tt s') Hn Hi Hr Hal) as Hc. rewrite Heq in Hc.
  apply wp_bind_inv in Hc; [eapply wp_mono; [exact Hc|done]|]. intros a o s' h' Hi' Hg _. by exists h'.
Qed.
(** And one that gives a pointer. *)
Lemma get_safe {A} (r : request) (m : M A) (k : A -> option (ptr * Z) * xixi_reason) s h :
  run_request e alive conf r = (x ← m; read_found (k x)) -> (forall p, r <> Release p) -> inv e s h -> roomy h -> allowed s h r ->
  wp m s (fun a s' => found_safe h (k a).1 s').
Proof.
  intros Heq Hn Hi Hr Hal.
  pose proof (call_safe r s h (fun ao s' => (exists h', inv e s' h' /\ grown h h') /\ forall p, ao.2 = Some p -> inv e s' (give p 1 h)) Hn Hi Hr Hal) as Hc.
  rewrite Heq in Hc. apply wp_bind_inv in Hc; [eapply wp_mono; [exact Hc|]|].
  2:{ intros a o s' h' Hi' Hg Ho. split; [by exists h'|]. intros p Hp. by rewrite <- (Ho p Hp). }
  - intros a s' Hf. unfold read_found, found_safe, safe in *. destruct (k a).1 as [[p x]|]; cbn in *.
    + unfold wp, Mgr.item, mbind, ST_bind, gets, the in Hf. destruct (heap s' !! p) eqn:E; [|done]. split; [by apply Hf|by eexists].
    + unfold wp in Hf. cbn in Hf. apply Hf.
Qed.
End calls.

(** ** What a node keeps between the rounds *)
Record node_wf (n : node) : Prop := {
  nw_buffer : Receive_Buffer.wf Peer.DEFAULT_SIZE (read_buffer_ (peer n));
  nw_bytes : Forall is_byte (Receive_Buffer.data (read_buffer_ (peer n)));
  nw_socket : Forall (Forall is_byte) (socket_ n);
  nw_swallow : 0 <= swallow_size_ (peer n) < 2 ^ 32;
  nw_next : 0 <= next_data_len_ (peer n) < 2 ^ 32;
  nw_follows : follows (next_state_ (peer n))
}.
Lemma wf_quiet n n' : quiet n n' -> node_wf n -> node_wf n'.
Proof. intros [] []. split; try congruence; auto. Qed.

Definition is_reply (st : peer_state) : Prop := st = PEER_STATUS_WRITE \/ st = PEER_STATUS_ASYNC_WAIT.
(** A computation of the peer that ends a request without the cache. *)
Definition replies (k : N unit) : Prop :=
  forall n, wp k n (fun _ n' => quiet n n' /\ cache_mgr_ n' = cache_mgr_ n /\ is_reply (state_ (peer n'))).

Section handlers.
Context (e : endian) (little : bool) `{Table_Malloc} `{Item_Malloc} `{!Item_Malloc_Ok} `{Buffer_Malloc} `{Block_Malloc} `{Auth_Library}.
Context (alive : sink -> bool) (conf : settings) (self : sink) (unassigned : Z).
Context (blocks : forall n, malloc_block n = true).
Implicit Types (n : node) (others : holds).

Lemma hushed_reply st n n' : hushed PEER_STATUS_WRITE st n n' ->
  quiet n n' /\ cache_mgr_ n' = cache_mgr_ n /\ is_reply (state_ (peer n')).
Proof. intros (?&?&?&_). split_and!; [done..|by left]. Qed.
Lemma replies_respond size b : replies (Peer.respond size b).
Proof. intros n. apply wp_respond; [done|]. intros n'. apply hushed_reply. Qed.
Lemma replies_error reason : replies (Peer.write_error little reason 0 true).
Proof. intros n. apply wp_write_error; [done|lia|]. intros n'. apply hushed_reply. Qed.
Lemma replies_close : replies (Peer.close_with_error little).
Proof. intros n. apply wp_close_with_error; [done|]. intros n'. apply hushed_reply. Qed.
Lemma replies_encoded p size b : replies (Peer.respond_with (Some p) size b ;; Peer.to_write).
Proof.
  intros n. apply wp_bind, wp_respond_with. intros n1 H1'. apply wp_to_write. intros n2 H2'.
  eapply hushed_reply, hushed_trans; [exact H1'|exact H2'].
Qed.
Lemma replies_if (b : bool) k1 k2 : replies k1 -> replies k2 -> replies (if b then k1 else k2).
Proof. by destruct b. Qed.
Lemma replies_decide P `{Decision P} k1 k2 : replies k1 -> replies k2 -> replies (if decide P then k1 else k2).
Proof. by case_decide. Qed.
Lemma replies_base r size b : replies (Peer.respond_base little r size b).
Proof. apply replies_if; [apply replies_respond|apply replies_if; apply replies_error]. Qed.

(** The references of others and of the peer's items. *)
Definition tot others n : holds := plus others (refs_of (cache_items_ (peer n))).
Definition resting others n : Prop := node_wf n /\ inv e (cache_mgr_ n) (tot others n).
(** A request was dealt with: at most one reference more, some of which may now be
    nobody's. *)
Record answered others n n' : Prop := {
  an_rest : exists others', resting others' n' /\ (forall p, others p <= others' p) /\
    (forall p, tot others' n' p <= tot others n p + 1);
  an_buffer : read_buffer_ (peer n') = read_buffer_ (peer n);
  an_socket : socket_ n' = socket_ n;
  an_state : is_reply (state_ (peer n'))
}.

Lemma answered_safe others n n1 n' h : resting others n -> quiet n n1 -> quiet n1 n' -> inv e (cache_mgr_ n') h ->
  grown (tot others n) h -> is_reply (state_ (peer n')) -> answered others n n'.
Proof.
  intros [Hw _] Hq1 Hq2 Hi Hg Hst. pose proof (quiet_trans _ _ _ Hq1 Hq2) as Hq.
  split; [|by rewrite (q_buffer _ _ Hq)|by rewrite (q_socket _ _ Hq)|done].
  exists (fun p => h p - refs_of (cache_items_ (peer n)) p).
  assert (forall p, tot (fun p => h p - refs_of (cache_items_ (peer n)) p) n' p = h p) as Ht.
  { intros p. unfold tot, plus. rewrite (q_items _ _ Hq). lia. }
  split; [split; [by eapply wf_quiet|by eapply inv_held; [exact Ht|]]|]. split; intros p; pose proof (Hg p) as Hp; unfold tot, plus in *.
  - lia.
  - rewrite (q_items _ _ Hq). lia.
Qed.

(** A handler that calls the cache once, and replies. *)
Lemma answer_call {A} (m : M A) (k : A -> N unit) others n :
  resting others n -> wp m (cache_mgr_ n) (safe e (tot others n)) -> (forall a, replies (k a)) ->
  wp (a ← Peer.cache self m; k a) n (fun _ => answered others n).
Proof.
  intros Hr Hm Hk. apply wp_bind, wp_cache. eapply wp_mono; [exact Hm|]. intros a s (h&Hi&Hg) n1 Hq1 Hs1 _ _.
  eapply wp_mono; [apply Hk|]. intros [] n' (Hq2&Hs2&Hst). eapply answered_safe; [done|exact Hq1|exact Hq2| |exact Hg|done].
  by rewrite Hs2, Hs1.
Qed.
(** And one that only replies. *)
Lemma answer_only k others n : resting others n -> replies k -> wp k n (fun _ => answered others n).
Proof.
  intros Hr Hk. eapply wp_mono; [apply Hk|]. intros [] n' (Hq&Hs&Hst).
  eapply (answered_safe others n n n'); [done|apply quiet_refl|exact Hq|rewrite Hs; apply Hr|apply grown_refl|done].
Qed.

(** The item that is found joins the items of the peer. *)
Lemma respond_item_spec others n p x :
  node_wf n -> inv e (cache_mgr_ n) (give p 1 (tot others n)) -> is_Some (heap (cache_mgr_ n) !! p) ->
  wp (Peer.respond_item little self p x) n (fun _ => answered others n).
Proof.
  intros Hw Hi [it Hit]. unfold Peer.respond_item.
  apply wp_bind, wp_modify. set (n0 := set peer _ n).
  apply wp_bind, wp_prepare; [done|]. intros pl n1 H1'. apply wp_bind, wp_cache.
  eapply wp_item; [destruct H1' as (_&->&_); exact Hit|]. intros n2 Hq2 Hs2 _ _.
  apply wp_bind, wp_respond_with. intros n3 H3'. apply wp_bind, wp_modify. apply wp_to_write. intros n4 H4'.
  assert (quiet n0 n4 /\ cache_mgr_ n4 = cache_mgr_ n0) as [Hq Hs].
  { destruct H1' as (?&?&_), H3' as (?&?&_), H4' as (Hq4&Hs4&_). split.
    - do 3 (eapply quiet_trans; [eassumption|]). eapply quiet_trans; [|exact Hq4]. by split.
    - rewrite Hs4. change (cache_mgr_ n3 = cache_mgr_ n0). congruence. }
  split; [|by rewrite (q_buffer _ _ Hq)|by rewrite (q_socket _ _ Hq)|destruct H4' as (_&_&->&_); by left].
  assert (forall q, tot others n4 q = give p 1 (tot others n) q) as Ht.
  { intros q. unfold tot, plus. rewrite (q_items _ _ Hq). cbn. rewrite refs_of_snoc. unfold give. case_decide; lia. }
  exists others. split; [split|split].
  - eapply wf_quiet; [exact Hq|]. destruct Hw; by split.
  - rewrite Hs. by eapply inv_held; [exact Ht|].
  - intros q. lia.
  - intros q. rewrite Ht. unfold give. case_decide; lia.
Qed.

Lemma answer_get {A} (m : M A) (f : A -> option (ptr * Z) * xixi_reason) (k : A -> N unit) others n :
  resting others n -> wp m (cache_mgr_ n) (fun a => found_safe e (tot others n) (f a).1) ->
  (forall a, match (f a).1 with Some (p, _) => exists x, k a = Peer.respond_item little self p x | None => replies (k a) end) ->
  wp (a ← Peer.cache self m; k a) n (fun _ => answered others n).
Proof.
  intros Hr Hm Hk. apply wp_bind, wp_cache. apply (wp_mono _ _ _ _ Hm). intros a s Hf n1 Hq1 Hs1 _ _. specialize (Hk a).
  destruct (f a) as [[[p y]|] reason]; cbn in Hf, Hk.
  - destruct Hf as [Hi Hp], Hk as [x ->]. eapply wp_mono; [eapply (respond_item_spec others n1)|].
    + eapply wf_quiet; [exact Hq1|apply Hr].
    + rewrite Hs1. eapply inv_held; [|exact Hi]. intros q. unfold give, tot. by rewrite (q_items _ _ Hq1).
    + rewrite Hs1. exact Hp.
    + intros _ n' [(o'&Hr'&Ho'&Ht') Hb Hs Hst]. split; [|by rewrite Hb, (q_buffer _ _ Hq1)|by rewrite Hs, (q_socket _ _ Hq1)|done].
      exists o'. split; [done|]. split; [done|]. intros q. specialize (Ht' q). unfold tot at 2 in Ht'. by rewrite (q_items _ _ Hq1) in Ht'.
  - destruct Hf as (h&Hi&Hg). eapply wp_mono; [apply Hk|]. intros [] n' (Hq2&Hs2&Hst).
    eapply answered_safe; [done|exact Hq1|exact Hq2| |exact Hg|done]. by rewrite Hs2, Hs1.
Qed.
End handlers.

(** ** The requests *)

(** What a request with a small body has after its fixed part. *)
Definition extras_length (r : Pdu.request) : option Z :=
  match r with
  | GetReq p => Some (Get_Req.key_length p)
  | GetTouchReq p => Some (Get_Touch_Req.key_length p)
  | GetBaseReq p => Some (Get_Base_Req.key_length p)
  | UpdateFlagsReq p => Some (Update_Flags_Req.key_length p)
  | UpdateExpirationReq p => Some (Update_Expiration_Req.key_length p)
  | DeleteReq p => Some (Delete_Req.key_length p)
  | AuthReq p => Some (Auth_Req.base64_length p)
  | DeltaReq p => Some (Delta_Req.key_length p)
  | _ => None
  end.

(** The requests that [process] is not made for: an update whose sizes add up to
    2^32 or more, the authentication with nothing or with what does not decode, a delta that overflows or of data
    whose number does not end. *)
Definition fits (p : Update_Req.pdu) : bool := sizeof_Cache_Item + Update_Req.key_length p + Update_Req.data_length p <? 2 ^ 32.
Definition delta_defined (s : Cache_Mgr) (p : Delta_Req.pdu) (data : bytes) : bool :=
  match view s !! (Delta_Req.group_id p, take (Z.to_nat (Delta_Req.key_length p)) data) with
  | Some en => negb (matches (Delta_Req.cache_id p) en) ||
      bool_decide (is_Some (delta_of (Delta_Req.sub_op p =? 0) (Delta_Req.delta p) (e_data en)))
  | None => true
  end.
Definition benign_request `{Auth_Library} (s : Cache_Mgr) (r : Pdu.request) (data : bytes) : bool :=
  match r with
  | UpdateReq p => fits p
  | AuthReq p => (0 <? Auth_Req.base64_length p)
      && bool_decide (is_Some (binary_of (take (Z.to_nat (Auth_Req.base64_length p)) data)))
  | DeltaReq p => delta_defined s p data
  | _ => true
  end.

Section requests.
Context (e : endian) (little : bool) `{Table_Malloc} `{Item_Malloc} `{!Item_Malloc_Ok} `{Buffer_Malloc} `{Block_Malloc} `{Auth_Library}.
Context (alive : sink -> bool) (conf : settings) (self : sink) (unassigned : Z).
Context (blocks : forall n, malloc_block n = true).
Implicit Types (n : node) (others : holds).
Abbreviation answered := (answered e).
Abbreviation resting := (resting e).

Lemma with_key_spec others n kl data f :
  kl <= Z.of_nat (length data) -> wp (f (take (Z.to_nat kl) data)) n (fun _ => answered others n) ->
  wp (Peer.with_key kl data f) n (fun tmp n' => tmp = kl /\ answered others n n').
Proof.
  intros Hk Hf. unfold Peer.with_key. destruct (Z.ltb_spec (Z.of_nat (length data)) kl); [lia|]. apply wp_bind.
  eapply wp_mono; [exact Hf|]. intros [] n' Ha. by apply wp_ret.
Qed.

(** The call of the base of an item, which is given back at once. *)
Lemma get_base_spec others n (g : Z) (key : bytes) :
  resting others n -> roomy (tot others n) ->
  wp (r ← Peer.cache self (Mgr.get e alive g key 0 true);
      match r.1 with
      | Some (p, expiration) =>
          pl ← Peer.prepare Get_Base_Res_calc_encode_size;
          it ← Peer.cache self (Mgr.item p);
          Peer.cache self (Mgr.release_reference p);;
          Peer.respond_with pl Get_Base_Res_calc_encode_size
            (Get_Base_Res_encode little (cache_id it) (flags it) expiration (Cache.data_size it));;
          Peer.to_write
      | None => Peer.write_error little XIXI_REASON_NOT_FOUND 0 true
      end) n (fun _ => answered others n).
Proof.
  intros Hr Hroom. pose proof (get_safe e alive conf (Get (g, key) 0 true) (Mgr.get e alive g key 0 true) id
    (cache_mgr_ n) (tot others n) eq_refl ltac:(done) (proj2 Hr) Hroom I) as Hm.
  apply wp_bind, wp_cache. apply (wp_mono _ _ _ _ Hm). unfold id. intros [[[p x]|] reason] s Hf n1 Hq1 Hs1 _ _; cbn [fst snd] in *.
  - destruct Hf as [Hi [it Hit]]. apply wp_bind, wp_prepare; [done|]. intros pl n2 (Hq2&Hs2&_).
    apply wp_bind, wp_cache. eapply wp_item; [rewrite Hs2, Hs1; exact Hit|]. intros n3 Hq3 Hs3 _ _.
    apply wp_bind, wp_cache. rewrite Hs3, Hs2, Hs1.
    eapply (wp_release_old e s (tot others n) p it).
    + exact Hi.
    + intros q. pose proof (Hroom q). lia.
    + apply (c_held _ _ _ (inv_core e _ _ (proj2 Hr))).
    + exact Hit.
    + intros s' Hi' _ _ _ _ _ _ _ n4 Hq4 Hs4 _ _. eapply wp_mono; [by apply replies_encoded|]. intros [] n' (Hq5&Hs5&Hst).
      eapply (answered_safe e others n n4); [done| |exact Hq5|rewrite Hs5, Hs4; exact Hi'|apply grown_refl|done].
      eauto with peer.
  - destruct Hf as (h&Hi&Hg). eapply wp_mono; [by apply replies_error|]. intros [] n' (Hq2&Hs2&Hst).
    eapply answered_safe; [done|exact Hq1|exact Hq2| |exact Hg|done]. by rewrite Hs2, Hs1.
Qed.

(** The requests with a key: an answer, and as many bytes as were waited for.  The
    authentication is not answered. *)
Lemma extras2_spec others n r data kl :
  resting others n -> roomy (tot others n) -> request_wf r -> extras_length r = Some kl -> kl <= Z.of_nat (length data) ->
  benign_request (cache_mgr_ n) r data = true ->
  wp (Peer.process_pdu_extras2 e little alive self (Some r) data) n (fun tmp n' => tmp = kl /\
    if decide (request_choice r = XIXI_CHOICE_AUTH_REQ) then n' = n else answered others n n').
Proof.
  intros Hr Hroom Hw Hkl Hl Hb. pose proof (proj2 Hr) as Hi. set (s := cache_mgr_ n) in *.
  unfold Peer.process_pdu_extras2. apply wp_bind, wp_the with r; [done|].
  destruct r as [p|p|p|p|p|p|p|p|p|p|p| |p|p]; try done; injection Hkl as <-; cbn [request_choice];
    (destruct (decide (_ = _)) as [Ha|Ha]; [try discriminate Ha|try by destruct Ha]);
    try (eapply with_key_spec; [exact Hl|]; set (key := take _ data)).
  - eapply (answer_get e little self blocks _ id); [exact Hr| |].
    + by apply (get_safe e alive conf (Get (Get_Req.group_id p, key) (Get_Req.watch_id p) false) _ id s).
    + intros [[[q x]|] reason]; [by exists x|by apply replies_error].
  - eapply (answer_get e little self blocks _ (fun a => ((fun q => (q, 0)) <$> a.1, a.2))); [exact Hr| |].
    + by eapply (get_safe e alive conf (Get_touch (Get_Touch_Req.group_id p, key) (Get_Touch_Req.watch_id p) (Get_Touch_Req.expiration p))
        _ (fun a => ((fun q => (q, 0)) <$> a.1, a.2)) s); try done; apply Hw.
    + intros [[q|] reason]; [by eexists|by apply replies_error].
  - by apply get_base_spec.
  - apply answer_call; [exact Hr| |intros a; by apply replies_base].
    by eapply (plain_safe e alive conf (Update_flags (Update_Flags_Req.group_id p, key) (Update_Flags_Req.cache_id p) (Update_Flags_Req.flags p))).
  - apply answer_call; [exact Hr| |intros a; by apply replies_base].
    eapply (plain_safe e alive conf (Update_expiration (Update_Expiration_Req.group_id p, key) (Update_Expiration_Req.cache_id p)
      (Update_Expiration_Req.expiration p))); try done. apply Hw.
  - apply answer_call; [exact Hr| |intros a; apply replies_decide; [by apply replies_respond|by apply replies_error]].
    by eapply (plain_safe e alive conf (Delete (Delete_Req.group_id p, key) (Delete_Req.cache_id p))).
  - unfold Peer.process_auth_req_pdu_extras, Peer.with_key.
    destruct (Z.ltb_spec (Z.of_nat (length data)) (Auth_Req.base64_length p)); [lia|].
    apply andb_prop in Hb as [_ Hb%bool_decide_eq_true]. apply (Auth.login_defined _ []) in Hb as [out Hout].
    apply wp_bind, wp_bind. by eapply wp_the.
  - apply answer_call; [exact Hr| |intros a; apply replies_decide; [by apply replies_respond|by apply replies_error]].
    eapply (plain_safe e alive conf (Delta (Delta_Req.group_id p, key) (Delta_Req.sub_op p =? 0) (Delta_Req.delta p) (Delta_Req.cache_id p)));
      try done. cbn [benign_request] in Hb. unfold delta_defined in Hb. intros en Hen Hm. fold key in Hb. subst s. rewrite Hen, Hm in Hb.
    by apply bool_decide_eq_true in Hb.
Qed.
End requests.

(** ** The invariant of a node *)

(** All references: others', those of the items of the peer, and the one to the item
    that is being read. *)
Definition all_refs (others : holds) (n : node) : holds :=
  match state_ (peer n), cache_item_ (peer n) with
  | PEER_STATE_READ_BODY_EXTRAS, Some p => give p 1 (tot others n)
  | _, _ => tot others n
  end.

(** What the states rely on: enough bytes for a header; the size of the fixed body;
    the rest of the key and the data, a place for them and the only reference to the
    item; the length of the key. *)
Definition stage (others : holds) (n : node) : Prop :=
  let next := next_data_len_ (peer n) in
  match state_ (peer n) with
  | PEER_STATE_READ_HEADER =>
      XIXI_PDU_HEAD_LENGTH <= next \/ XIXI_PDU_HEAD_LENGTH <= Receive_Buffer.read_data_size_ (read_buffer_ (peer n))
  | PEER_STATE_READ_BODY_FIXED => Peer.fixed_body_size (read_pdu_header_ (peer n)) = Some next
  | PEER_STATE_READ_BODY_EXTRAS => exists pdu p it off,
      read_pdu_ (peer n) = Some (UpdateReq pdu) /\ cache_item_ (peer n) = Some p /\ read_item_buf_ (peer n) = Some (p, off) /\
      raw_item (cache_mgr_ n) (all_refs others n) p it /\ all_refs others n p = 1 /\ 0 <= off /\
      off + next = key_length it + data_size it
  | PEER_STATE_READ_BODY_EXTRAS2 => exists r, read_pdu_ (peer n) = Some r /\ request_wf r /\ extras_length r = Some next
  | _ => True
  end.

Record node_ok (e : endian) (others : holds) (n : node) : Prop := {
  ok_wf : node_wf n;
  ok_cache : inv e (cache_mgr_ n) (all_refs others n);
  ok_stage : stage others n
}.

(** A part of a round: references are lost or taken, [k] at most to each item, and
    the input stays. *)
Record handled (e : endian) (k : Z) (others : holds) (n n' : node) : Prop := {
  hd_ok : exists others', node_ok e others' n' /\ (forall p, others p <= others' p) /\
    (forall p, all_refs others' n' p <= all_refs others n p + k);
  hd_buffer : read_buffer_ (peer n') = read_buffer_ (peer n);
  hd_socket : socket_ n' = socket_ n
}.

Lemma all_refs_tot others n : state_ (peer n) <> PEER_STATE_READ_BODY_EXTRAS -> all_refs others n = tot others n.
Proof. unfold all_refs. by destruct (state_ (peer n)). Qed.

Section fixed.
Context (e : endian) (little : bool) `{Table_Malloc} `{Item_Malloc} `{!Item_Malloc_Ok} `{Buffer_Malloc} `{Block_Malloc} `{Auth_Library}.
Context (alive : sink -> bool) (conf : settings) (self : sink) (unassigned : Z).
Context (blocks : forall n, malloc_block n = true).
Implicit Types (n : node) (others : holds).

Lemma reply_stage others n : is_reply (state_ (peer n)) -> stage others n.
Proof. unfold stage. by intros [-> | ->]. Qed.
Lemma reply_refs others n : is_reply (state_ (peer n)) -> all_refs others n = tot others n.
Proof. intros [Hs|Hs]; apply all_refs_tot; by rewrite Hs. Qed.

Lemma answered_handled others n n' : state_ (peer n) <> PEER_STATE_READ_BODY_EXTRAS -> answered e others n n' -> handled e 1 others n n'.
Proof.
  intros Hn [(o'&[Hw Hi]&Ho&Ht) Hb Hs Hst]. split; [|done..]. exists o'. rewrite (reply_refs o' n' Hst), (all_refs_tot others n Hn).
  split; [|done]. split; [done|by rewrite reply_refs|by apply reply_stage].
Qed.

(** The next state is told by the request that is being read. *)
Lemma to_extras2_spec others n r kl :
  resting e others n -> request_wf r -> read_pdu_ (peer n) = Some r -> extras_length r = Some kl -> 0 <= kl < 2 ^ 32 ->
  state_ (peer n) <> PEER_STATE_READ_BODY_EXTRAS ->
  wp (Peer.to_extras2 kl) n (fun _ n' => handled e 1 others n n' /\ state_ (peer n') = PEER_STATE_READ_BODY_EXTRAS2).
Proof.
  intros [Hw Hi] Hr Hp Hl Hk Hn. cbn. split; [|done]. split; [|done..]. exists others. rewrite (all_refs_tot _ _ Hn).
  split; [|split; [lia|]].
  - split; [destruct Hw; by split|exact Hi|]. unfold stage. cbn. eauto.
  - intros p. unfold all_refs, tot, plus. cbn. lia.
Qed.

Lemma update_fixed_spec others n pdu :
  resting e others n -> roomy (tot others n) -> request_wf (UpdateReq pdu) -> read_pdu_ (peer n) = Some (UpdateReq pdu) ->
  fits pdu = true -> state_ (peer n) <> PEER_STATE_READ_BODY_EXTRAS ->
  wp (Peer.process_update_req_pdu_fixed little self pdu) n (fun _ n' => handled e 1 others n n' /\
    (is_reply (state_ (peer n')) \/ state_ (peer n') = PEER_STATE_READ_BODY_EXTRAS)).
Proof.
  intros [Hw Hi] Hroom Hr Hp Hf Hn. unfold fits, sizeof_Cache_Item in Hf. apply Z.ltb_lt in Hf.
  destruct Hr as (_&_&_&_&Hx&_&Hkl&Hdl). unfold Peer.process_update_req_pdu_fixed. apply wp_bind, wp_cache.
  assert (u32 (Update_Req.key_length pdu + Update_Req.data_length pdu) = Update_Req.key_length pdu + Update_Req.data_length pdu)
    as -> by (apply wrap_small; lia).
  eapply (begin_update_spec e); [exact Hi|lia|lia|lia|lia|unfold sizeof_Cache_Item in *; lia| |].
  - intros p it s Hi' Hh0 Hri _ _ _ Hfr _ n1 Hq1 Hs1 _ _. cbn. split; [|by right].
    split; [|by cbn; rewrite (q_buffer _ _ Hq1)|by cbn; rewrite (q_socket _ _ Hq1)]. exists others.
    assert (all_refs others n = tot others n) as -> by by apply all_refs_tot.
    assert (forall n', state_ (peer n') = PEER_STATE_READ_BODY_EXTRAS -> cache_item_ (peer n') = Some p ->
      cache_items_ (peer n') = cache_items_ (peer n) -> all_refs others n' = give p 1 (tot others n)) as Ha.
    { intros n' Hst Hit Hits. unfold all_refs, tot. by rewrite Hst, Hit, Hits. }
    pose proof (q_items _ _ Hq1) as Hits.
    split; [split|split; [lia|]].
    + destruct (wf_quiet _ _ Hq1 Hw). split; try done. cbn. lia.
    + rewrite Ha by done. change (inv e (cache_mgr_ n1) (give p 1 (tot others n))). by rewrite Hs1.
    + unfold stage. cbn -[all_refs]. exists pdu, p, it, 0. rewrite Ha by done. cbn. rewrite (q_pdu _ _ Hq1), Hs1.
      rewrite (fi_key _ _ _ _ _ _ _ Hfr), (fi_data _ _ _ _ _ _ _ Hfr), give_eq, Hh0. split_and!; done || lia.
    + intros q. rewrite Ha by done. unfold give. case_decide; lia.
  - intros s Hi' _ n1 Hq1 Hs1 _ _. apply wp_bind, wp_modify. set (n2 := set peer _ n1).
    apply wp_write_error; [done|lia|]. intros n3 H3'. apply hushed_reply in H3' as (Hq3&Hs3&Hst).
    split; [|by left]. apply answered_handled; [done|].
    assert (tot others n3 = tot others n) as Ht.
    { unfold tot. rewrite (q_items _ _ Hq3). cbn. by rewrite (q_items _ _ Hq1). }
    split; [exists others|by rewrite (q_buffer _ _ Hq3); cbn; rewrite (q_buffer _ _ Hq1)|
      by rewrite (q_socket _ _ Hq3); cbn; rewrite (q_socket _ _ Hq1)|done].
    rewrite Ht. split; [split|split; lia].
    + eapply wf_quiet; [exact Hq3|]. destruct (wf_quiet _ _ Hq1 Hw). by split.
    + rewrite Ht, Hs3. cbn. by rewrite Hs1.
Qed.
End fixed.

Section fixed_all.
Context (e : endian) (little : bool) `{Table_Malloc} `{Item_Malloc} `{!Item_Malloc_Ok} `{Buffer_Malloc} `{Block_Malloc} `{Auth_Library}.
Context (alive : sink -> bool) (conf : settings) (self : sink) (unassigned : Z).
Context (blocks : forall n, malloc_block n = true).
Implicit Types (n : node) (others : holds).

Lemma flush_fixed_spec others n pdu : resting e others n -> roomy (tot others n) ->
  wp (Peer.process_flush_req_pdu_fixed little alive self pdu) n (fun _ => answered e others n).
Proof.
  intros Hr Hroom. unfold Peer.process_flush_req_pdu_fixed. apply wp_bind, wp_prepare; [done|]. intros pl n1 (Hq1&Hs1&_).
  assert (resting e others n1) as Hr1.
  { destruct Hr as [Hw Hi]. split; [by eapply wf_quiet|]. rewrite Hs1. unfold tot. by rewrite (q_items _ _ Hq1). }
  assert (tot others n1 = tot others n) as Ht by (unfold tot; by rewrite (q_items _ _ Hq1)).
  eapply wp_mono; [eapply (answer_call e self _ _ others n1 Hr1)|].
  - eapply (plain_safe e alive conf (Flush_group (Flush_Req.group_id pdu))); try done; [apply Hr1|by rewrite Ht].
  - intros a. apply replies_encoded.
  - intros [] n' [Ho Hb Hs Hst]. rewrite Ht in Ho. split; [done|by rewrite Hb, (q_buffer _ _ Hq1)|by rewrite Hs, (q_socket _ _ Hq1)|done].
Qed.

Lemma stats_fixed_spec others n pdu : resting e others n -> roomy (tot others n) ->
  wp (Peer.process_stats_req_pdu_fixed little conf self pdu) n (fun _ => answered e others n).
Proof.
  intros Hr Hroom. unfold Peer.process_stats_req_pdu_fixed. apply answer_call; [done| |].
  - by eapply (plain_safe e alive conf (Stats_cmd (Stats_Req.sub_op pdu) (Stats_Req.group_id pdu) (Stats_Req.class_id pdu))); try apply Hr.
  - intros b n1. apply wp_bind, wp_prepare; [done|]. intros pl n2 (Hq2&Hs2&_). eapply wp_mono; [apply replies_encoded|].
    intros [] n3 (Hq3&Hs3&Hst). split_and!; [by eapply quiet_trans|by rewrite Hs3|done].
Qed.

Lemma check_watch_fixed_spec others n pdu : resting e others n -> roomy (tot others n) ->
  wp (Peer.process_check_watch_req_pdu_fixed little alive self unassigned pdu) n (fun _ => answered e others n).
Proof.
  intros Hr Hroom. unfold Peer.process_check_watch_req_pdu_fixed. apply wp_bind, wp_modify. set (n1 := set peer _ n).
  assert (quiet n n1) as Hq1 by by split. assert (resting e others n1) as Hr1.
  { destruct Hr as [Hw Hi]. split; [by eapply wf_quiet|exact Hi]. }
  eapply wp_mono; [eapply (answer_call e self _ _ others n1 Hr1)|].
  - eapply (plain_safe e alive conf (Check_watch (Some self) (Check_Watch_Req.group_id pdu) (Check_Watch_Req.watch_id pdu)
      (Check_Watch_Req.ack_sequence pdu) (Check_Watch_Req.max_next_check_interval pdu))); try done. apply Hr1.
  - intros [a|]; [|by apply replies_error]. apply replies_if.
    + intros n2. apply wp_bind, wp_prepare; [done|]. intros pl n3 (Hq3&Hs3&_). eapply wp_mono; [apply replies_encoded|].
      intros [] n4 (Hq4&Hs4&Hst). split_and!; [by eapply quiet_trans|by rewrite Hs4|done].
    + intros n2. apply wp_bind, wp_modify. apply wp_bind, wp_gets, wp_bind. destruct (timer_flag_ _); apply wp_modify, wp_modify; (split; [by split|split; [done|by right]]).
  - intros [] n' [Ho Hb Hs Hst]. by split.
Qed.

Lemma fixed_spec others n r :
  resting e others n -> roomy (tot others n) -> request_wf r -> read_pdu_ (peer n) = Some r ->
  (forall p, r = UpdateReq p -> fits p = true) -> state_ (peer n) <> PEER_STATE_READ_BODY_EXTRAS ->
  wp (Peer.process_pdu_fixed little alive conf self unassigned r) n (fun _ n' => handled e 1 others n n' /\
    (is_reply (state_ (peer n')) \/ state_ (peer n') = PEER_STATE_READ_BODY_EXTRAS \/ state_ (peer n') = PEER_STATE_READ_BODY_EXTRAS2)).
Proof.
  intros Hr Hroom Hw Hp Hf Hn.
  assert (forall m : N unit, wp m n (fun _ => answered e others n) -> wp m n (fun _ n' => handled e 1 others n n' /\
    (is_reply (state_ (peer n')) \/ state_ (peer n') = PEER_STATE_READ_BODY_EXTRAS \/ state_ (peer n') = PEER_STATE_READ_BODY_EXTRAS2))) as Hans.
  { intros m Hm. eapply wp_mono; [exact Hm|]. intros [] n' Ha. split; [by apply answered_handled|left; apply Ha]. }
  assert (forall kl, extras_length r = Some kl -> 0 <= kl < 2 ^ 32 -> wp (Peer.to_extras2 kl) n (fun _ n' => handled e 1 others n n' /\
    (is_reply (state_ (peer n')) \/ state_ (peer n') = PEER_STATE_READ_BODY_EXTRAS \/ state_ (peer n') = PEER_STATE_READ_BODY_EXTRAS2))) as Hex.
  { intros kl Hl Hk. eapply wp_mono; [by eapply to_extras2_spec|]. intros [] n' [Hh Hst]. auto. }
  destruct r as [p|p|p|p|p|p|p|p|p|p|p| |p|p]; cbn [Peer.process_pdu_fixed];
    try (apply Hex; [done|]; cbn in Hw; unfold Get_Req.wf, Get_Touch_Req.wf, Get_Base_Req.wf, Update_Flags_Req.wf,
      Update_Expiration_Req.wf, Delete_Req.wf, Auth_Req.wf, Delta_Req.wf in Hw; lia).
  - eapply wp_mono; [apply update_fixed_spec; try done; by apply Hf|]. intros [] n' [Hh [Hst|Hst]]; auto.
  - apply Hans. by apply flush_fixed_spec.
  - apply Hans. by apply stats_fixed_spec.
  - apply Hans. apply answer_only; [done|]. by apply replies_close.
  - apply Hans. apply answer_call; [done| |intros a; by apply replies_respond].
    by eapply (plain_safe e alive conf (Create_watch (Create_Watch_Req.group_id p) (Create_Watch_Req.max_next_check_interval p))); try apply Hr.
  - apply Hans. by apply check_watch_fixed_spec.
Qed.
End fixed_all.

Section extras.
Context (e : endian) (little : bool) `{Table_Malloc} `{Item_Malloc} `{!Item_Malloc_Ok} `{Buffer_Malloc} `{Block_Malloc} `{Auth_Library}.
Context (alive : sink -> bool) (conf : settings) (self : sink) (unassigned : Z).
Context (blocks : forall n, malloc_block n = true).
Implicit Types (n : node) (others : holds).

(** A reference that is given back. *)
Lemma release_safe s h p Q : inv e s (give p 1 h) -> roomy (give p 1 h) -> (forall q, 0 <= h q) ->
  (forall s', inv e s' h -> Q tt s') -> wp (Mgr.release_reference p) s Q.
Proof.
  intros Hi Hr H0' HQ. destruct (held_heap e s _ p (inv_core e _ _ Hi)) as (it&Hit&_); [rewrite give_eq; pose proof (H0' p); lia|].
  eapply (wp_release_old e s h p it); [done| |done..|by auto].
  intros q. pose proof (Hr q) as Hq. unfold give in Hq. case_decide; lia.
Qed.

(** What [dispatch] leaves the item of the request with. *)
Lemma dispatch_safe s h p it op w : inv e s (give p 1 h) -> roomy (give p 1 h) -> own_item e s (give p 1 h) p it ->
  wp (Store.dispatch alive op p w) s (fun _ s' => exists h', inv e s' (give p 1 h') /\ grown h h').
Proof.
  intros Hi Hr Ho. eapply wp_mono; [by apply (dispatch_spec e alive s (give p 1 h) p it op w)|].
  intros r s' (oom&_&_&Hl). destruct (leaks _ _ _ _).
  - destruct Hl as (q&itq&_&_&_&Hi'). exists (give q 1 h). split; [|apply grown_give].
    eapply inv_held; [|exact Hi']. intros x. unfold give. repeat case_decide; lia.
  - exists h. split; [done|apply grown_refl].
Qed.

Lemma update_extras_spec others n pdu p it :
  node_wf n -> inv e (cache_mgr_ n) (give p 1 (tot others n)) -> (forall q, 0 <= tot others n q) ->
  (forall q, tot others n q + 2 < 2 ^ 15) -> cache_item_ (peer n) = Some p ->
  raw_item (cache_mgr_ n) (give p 1 (tot others n)) p it ->
  wp (Peer.process_update_req_pdu_extras e little alive self unassigned pdu) n (fun _ => answered e others n).
Proof.
  intros Hw Hi H0' Hroom Hci Hri. set (h := tot others n) in *.
  assert (roomy (give p 1 h)) as Hrg by (intros q; pose proof (Hroom q); unfold give; case_decide; lia).
  unfold Peer.process_update_req_pdu_extras. apply wp_bind, wp_gets, wp_bind, wp_the with p; [done|].
  apply wp_bind, wp_cache. eapply (wp_raw_hash e _ (give p 1 h) p it); [done..|]. intros s1 Hi1 Ho1 _ _ n1 Hq1 Hs1 _ _.
  apply wp_bind, wp_cache. rewrite Hs1. eapply (wp_own_expect e s1); [done..|]. intros s2 Hi2 Ho2 _ n2 Hq2 Hs2 _ _.
  apply wp_bind, wp_cache. rewrite Hs2.
  apply (wp_mono _ _ _ _ (dispatch_safe s2 h p _ (Update_Req.sub_op pdu) (Update_Req.watch_id pdu) Hi2 Hrg Ho2)).
  intros r s3 (h'&Hi3&Hg) n3 Hq3 Hs3 _ _. apply wp_bind. cbn [Peer.reply_or_next Update_Req.reply].
  eapply wp_mono; [apply replies_decide; [by apply replies_respond|by apply replies_error]|].
  intros [] n4 (Hq4&Hs4&Hst4). apply wp_bind, wp_cache. rewrite Hs4, Hs3. eapply (release_safe s3 h' p); [done| | |].
  { intros q. pose proof (Hroom q). pose proof (Hg q). unfold give. case_decide; lia. }
  { intros q. pose proof (Hg q). pose proof (H0' q). lia. }
  intros s5 Hi5 n5 Hq5 Hs5 Hst5 _. apply wp_modify. set (n6 := set peer _ n5).
  assert (quiet n n5) as Hq by eauto 8 with peer.
  split; [|by rewrite <- (q_buffer _ _ Hq)|by rewrite <- (q_socket _ _ Hq)|by unfold n6; cbn; rewrite Hst5].
  exists (fun q => h' q - refs_of (cache_items_ (peer n)) q).
  assert (forall q, tot (fun q => h' q - refs_of (cache_items_ (peer n)) q) n6 q = h' q) as Ht.
  { intros q. unfold tot, plus, n6. cbn. rewrite (q_items _ _ Hq). lia. }
  split; [split|split]; [|eapply inv_held; [exact Ht|]; cbn; by rewrite Hs5|intros q; pose proof (Hg q) as Hgq..].
  - destruct (wf_quiet _ _ Hq Hw). by split.
  - unfold h, tot, plus in Hgq. lia.
  - rewrite Ht. unfold h, tot, plus in Hgq |- *. lia.
Qed.
End extras.
