(* ===== verification/PeerFrame.v ===== *)
(** * What a connection leaves alone

    The handlers of [Peer_Cache] spare an item that is in no list of the cache and
    that the connection does not refer to: the item that another connection is
    receiving. *)

From S2P Require Import Prelude XixiList XixiHashMap Lookup3 Util CurrTime Pdu Stats Watch Slab Cache CacheInv CacheStore CacheFrame Buffers Auth Peer PeerFacts.
Import Cache_Watch.

(** [cache_item_] and [read_item_buf_] are followed in one state only; a [strict]
    connection has no stale pointer in the others either. *)
Record away (strict : bool) (p : ptr) (it : Cache_Item) (n : node) : Prop := {
  aw_aside : aside p it (cache_mgr_ n);
  aw_items : p ∉ cache_items_ (peer n);
  aw_next : next_state_ (peer n) <> PEER_STATE_READ_BODY_EXTRAS;
  aw_at : strict = true \/ state_ (peer n) = PEER_STATE_READ_BODY_EXTRAS ->
    cache_item_ (peer n) <> Some p /\ fst <$> read_item_buf_ (peer n) <> Some p
}.
Abbreviation passes strict p it := (keeps p (away strict p it)).

(** One step into a handler. *)
Ltac pass_step :=
  lazymatch goal with
  | |- keeps _ _ (Peer.my _ ≫= _) => refine (keeps_bind_gets _ _ _ _ _); intros ? _
  | |- keeps _ _ (Peer.data_size ≫= _) => refine (keeps_bind_gets _ _ _ _ _); intros ? _
  | |- keeps _ _ (Peer.data ≫= _) => refine (keeps_bind_gets _ _ _ _ _); intros ? _
  | |- _ => spare_step
  end.
Ltac pass := intros; cbv beta zeta; repeat (first [solve [auto 2 with spares] | pass_step]; cbv beta zeta).

Section handlers.
Context (e : endian) (little : bool) `{Table_Malloc} `{Item_Malloc} `{!Item_Malloc_Ok} `{Buffer_Malloc} `{Block_Malloc} `{Auth_Library}.
Context (alive : sink -> bool) (conf : settings) (self : sink) (unassigned : Z).
Context (strict : bool) (p : ptr) (it : Cache_Item).
Abbreviation passes m := (passes strict p it m).
Implicit Types (q : ptr).

Definition harmless (f : Peer_Cache -> Peer_Cache) : Prop := forall x,
  cache_items_ (f x) = cache_items_ x /\ cache_item_ (f x) = cache_item_ x /\ read_item_buf_ (f x) = read_item_buf_ x /\
  state_ (f x) = state_ x /\ next_state_ (f x) = next_state_ x.
Lemma away_peer f n : harmless f -> away strict p it n -> away strict p it (n <| peer ::= f |>).
Proof.
  intros Hf []. destruct (Hf (peer n)) as (Hi&Hit&Ha&Hs&Hn). split; cbn; rewrite ?Hi, ?Hit, ?Ha, ?Hs, ?Hn; done.
Qed.
Lemma passes_peer f : harmless f -> passes (Peer.in_peer f).
Proof. intros Hf. apply keeps_modify. intros n. by apply away_peer. Qed.
Hint Extern 2 (keeps _ _ (Peer.in_peer _)) => solve [by apply passes_peer] : spares.
Lemma harmless_iter k f : harmless f -> harmless (Nat.iter k f).
Proof.
  intros Hf x. induction k as [|k (Hi&Hit&Ha&Hs&Hn)]; [done|]. change (Nat.iter (S k) f x) with (f (Nat.iter k f x)).
  destruct (Hf (Nat.iter k f x)) as (->&->&->&->&->). done.
Qed.
Lemma notify_harmless : harmless Peer.on_cache_watch_notify.
Proof. intros x. unfold Peer.on_cache_watch_notify. by case_match. Qed.
Lemma passes_cache {A} `{Clear p A} (m : M A) : spares p it m -> passes (Peer.cache self m).
Proof.
  intros Hm n Hn. unfold Peer.cache. specialize (Hm _ (aw_aside _ _ _ _ Hn)). destruct (m _) as [[a s]|]; [|done].
  destruct Hm as [Hs Ha]. split; [|done]. apply (away_peer _ (n <| cache_mgr_ := s |>)); [apply harmless_iter, notify_harmless|].
  destruct Hn. by split.
Qed.
Hint Resolve passes_cache : spares.
Lemma passes_modify f : (forall n, away strict p it n -> away strict p it (f n)) -> passes (modify f).
Proof. apply keeps_modify. Qed.

Lemma passes_set_state st : st <> PEER_STATE_READ_BODY_EXTRAS -> passes (Peer.set_state st).
Proof. intros Hst. apply keeps_modify. intros n []. split; cbn; [done..|]. intros [H'|?]; [auto|done]. Qed.
Lemma passes_set_next_state st : st <> PEER_STATE_READ_BODY_EXTRAS -> passes (Peer.set_next_state st).
Proof. intros Hst. apply keeps_modify. intros n []. by split. Qed.
Lemma passes_set_next_data_len n : passes (Peer.set_next_data_len n).
Proof. by apply passes_peer. Qed.
Lemma passes_prepare n : passes (Peer.prepare n).
Proof. intros x Hx. split; [by apply away_peer|done]. Qed.
Hint Extern 1 (keeps _ _ (Peer.set_state _)) => solve [by apply passes_set_state] : spares.
Hint Extern 1 (keeps _ _ (Peer.set_next_state _)) => solve [by apply passes_set_next_state] : spares.
Hint Resolve passes_set_next_data_len passes_prepare : spares.
Lemma passes_encode pl b : passes (Peer.encode pl b).
Proof. unfold Peer.encode. pass. Qed.
Lemma passes_add_write_buf c : passes (Peer.add_write_buf c).
Proof. by apply passes_peer. Qed.
Hint Resolve passes_encode passes_add_write_buf : spares.
Lemma passes_respond_with pl n b : passes (Peer.respond_with pl n b).
Proof. unfold Peer.respond_with. pass. Qed.
Lemma passes_to_write : passes Peer.to_write.
Proof. unfold Peer.to_write. pass. Qed.
Hint Resolve passes_respond_with passes_to_write : spares.
Lemma passes_respond n b : passes (Peer.respond n b).
Proof. unfold Peer.respond. pass. Qed.
Hint Resolve passes_respond : spares.
Lemma passes_simple c : passes (Peer.write_simple_res little c).
Proof. apply passes_respond. Qed.
Lemma passes_error r s b : passes (Peer.write_error little r s b).
Proof. unfold Peer.write_error. pass. Qed.
Hint Resolve passes_simple passes_error : spares.
Lemma passes_close : passes (Peer.close_with_error little).
Proof. unfold Peer.close_with_error. pass. Qed.
Lemma passes_reply_or_next b m : passes m -> passes (Peer.reply_or_next b m).
Proof. unfold Peer.reply_or_next. pass. Qed.
Hint Resolve passes_close : spares.
Hint Extern 1 (keeps _ _ (Peer.reply_or_next _ _)) => solve [apply passes_reply_or_next; pass] : spares.

(** An item that is found or made is another one. *)
Definition leads (q : ptr) (f : Peer_Cache -> Peer_Cache) : Prop := forall x,
  (cache_items_ (f x) = cache_items_ x \/ cache_items_ (f x) = cache_items_ x ++ [q] \/ cache_items_ (f x) = []) /\
  (cache_item_ (f x) = cache_item_ x \/ cache_item_ (f x) = Some q \/ cache_item_ (f x) = None) /\
  (read_item_buf_ (f x) = read_item_buf_ x \/ fst <$> read_item_buf_ (f x) = Some q \/ read_item_buf_ (f x) = None) /\
  state_ (f x) = state_ x /\ next_state_ (f x) = next_state_ x.
Lemma passes_hold q f : q <> p -> leads q f -> passes (Peer.in_peer f).
Proof.
  intros Hq Hf. apply keeps_modify. intros n [? ? ? Ha]. destruct (Hf (peer n)) as (Hi&Hit&Hb&Hs&Hn).
  split; cbn; [done| |by rewrite Hn|rewrite Hs; intros Hst; destruct (Ha Hst); split].
  - destruct Hi as [->|[->| ->]]; [done| |apply not_elem_of_nil]. rewrite elem_of_app, list_elem_of_singleton. naive_solver.
  - destruct Hit as [->|[->| ->]]; [done|congruence|done].
  - destruct Hb as [->|[->| ->]]; [done|congruence|done].
Qed.
Lemma passes_drop f : leads (Pos.succ p) f -> passes (Peer.in_peer f).
Proof. apply passes_hold. lia. Qed.
Hint Extern 3 (keeps _ _ (Peer.in_peer _)) => solve [apply passes_drop; intros ?; cbn; auto 10] : spares.
Lemma passes_respond_item q x : q <> p -> passes (Peer.respond_item little self q x).
Proof.
  intros Hq. unfold Peer.respond_item. spare_bind; [apply (passes_hold q); [done|intros ?; cbn; auto 10]|]. pass.
Qed.
Hint Resolve passes_respond_item : spares.

Lemma passes_update_fixed pdu : passes (Peer.process_update_req_pdu_fixed little self pdu).
Proof.
  unfold Peer.process_update_req_pdu_fixed. spare_bind; [pass|]. intros [q|reason] Hq; [|pass].
  assert (q <> p) as Hqp by exact Hq. intros n [Ha Hit Hn Hb]. cbn. split; [|done]. split; cbn; [done|done|done|].
  intros _. split; congruence.
Qed.
Lemma passes_with_key kl d f : (forall k, passes (f k)) -> passes (Peer.with_key kl d f).
Proof. unfold Peer.with_key. pass. Qed.
Hint Resolve passes_with_key passes_update_fixed : spares.
Lemma passes_get pdu d : passes (Peer.process_get_req_pdu_extras e little alive self pdu d).
Proof. unfold Peer.process_get_req_pdu_extras. apply passes_with_key. pass. Qed.
Lemma passes_get_touch pdu d : passes (Peer.process_get_touch_req_pdu_extras e little self pdu d).
Proof. unfold Peer.process_get_touch_req_pdu_extras. apply passes_with_key. pass. Qed.
Lemma passes_get_base pdu d : passes (Peer.process_get_base_req_pdu_extras e little alive self pdu d).
Proof. unfold Peer.process_get_base_req_pdu_extras. apply passes_with_key. pass. Qed.
Lemma passes_respond_base r n b : passes (Peer.respond_base little r n b).
Proof. unfold Peer.respond_base. pass. Qed.
Hint Resolve passes_respond_base : spares.
Lemma passes_update_flags pdu d : passes (Peer.process_update_flags_req_pdu_extras e little alive self pdu d).
Proof. unfold Peer.process_update_flags_req_pdu_extras. apply passes_with_key. pass. Qed.
Lemma passes_update_expiration pdu d : passes (Peer.process_update_expiration_req_pdu_extras e little self pdu d).
Proof. unfold Peer.process_update_expiration_req_pdu_extras. apply passes_with_key. pass. Qed.
Lemma passes_delete pdu d : passes (Peer.process_delete_req_pdu_extras e little alive self pdu d).
Proof. unfold Peer.process_delete_req_pdu_extras. apply passes_with_key. pass. Qed.
Lemma passes_auth pdu d : passes (Peer.process_auth_req_pdu_extras pdu d).
Proof. unfold Peer.process_auth_req_pdu_extras. apply passes_with_key. pass. Qed.
Lemma passes_delta pdu d : passes (Peer.process_delta_req_pdu_extras e little alive self pdu d).
Proof. unfold Peer.process_delta_req_pdu_extras. apply passes_with_key. pass. Qed.
Lemma passes_create_watch pdu : passes (Peer.process_create_watch_req_pdu_fixed little self pdu).
Proof. unfold Peer.process_create_watch_req_pdu_fixed. pass. Qed.
Lemma passes_check_watch pdu : passes (Peer.process_check_watch_req_pdu_fixed little alive self unassigned pdu).
Proof. unfold Peer.process_check_watch_req_pdu_fixed. pass. Qed.
Lemma passes_flush pdu : passes (Peer.process_flush_req_pdu_fixed little alive self pdu).
Proof. unfold Peer.process_flush_req_pdu_fixed. pass. Qed.
Lemma passes_stats pdu : passes (Peer.process_stats_req_pdu_fixed little conf self pdu).
Proof. unfold Peer.process_stats_req_pdu_fixed. pass. Qed.
Hint Resolve passes_get passes_get_touch passes_get_base passes_update_flags passes_update_expiration passes_delete passes_auth
  passes_delta passes_create_watch passes_check_watch passes_flush passes_stats : spares.

(** The item of an update is the connection's own. *)
Lemma passes_own {A B} `{Clear p A} `{Clear p B} (f : Peer_Cache -> A) (k : A -> N B) :
  (forall n, away strict p it n -> passes (k (f (peer n)))) -> passes (Peer.my f ≫= k).
Proof. intros Hk. by refine (keeps_bind_gets _ _ _ _ _). Qed.
Lemma passes_update_extras pdu : strict = true -> passes (Peer.process_update_req_pdu_extras e little alive self unassigned pdu).
Proof.
  intros Hs. unfold Peer.process_update_req_pdu_extras. apply passes_own. intros n Hn. refine (keeps_bind_the _ _ _ _ _). intros q Hq.
  assert (q <> p) by (destruct (aw_at _ _ _ _ Hn); [by left|congruence]). pass.
Qed.
Hint Resolve passes_update_extras : spares.
Lemma passes_fixed r : passes (Peer.process_pdu_fixed little alive conf self unassigned r).
Proof. unfold Peer.process_pdu_fixed, Peer.to_extras2, Peer.process_auth_req_pdu_fixed, Peer.process_delta_req_pdu_fixed. pass. Qed.
Lemma passes_extras r : strict = true -> passes (Peer.process_pdu_extras e little alive self unassigned r).
Proof. intros Hs. unfold Peer.process_pdu_extras. pass. Qed.
Lemma passes_extras2 r d : passes (Peer.process_pdu_extras2 e little alive self r d).
Proof. unfold Peer.process_pdu_extras2. pass. Qed.
Lemma passes_header d : passes (Peer.process_header little d).
Proof. unfold Peer.process_header, Peer.process_hello_req_pdu_fixed. pass. Qed.
Hint Resolve passes_fixed passes_extras passes_extras2 passes_header : spares.

(** ** The rounds of [process] and the completions *)
Lemma passes_release_all items : p ∉ items -> passes (for_each (fun q => Peer.cache self (Mgr.release_reference q)) items).
Proof.
  intros Hp. apply keeps_for_each. intros q Hq. assert (q <> p) by set_solver. auto with spares.
Qed.
Lemma passes_reset : passes (Peer.reset_for_new_cmd self).
Proof.
  unfold Peer.reset_for_new_cmd. spare_bind; [pass|]. intros _ _. apply passes_own. intros n Hn.
  spare_bind; [apply passes_release_all, Hn|]. pass.
Qed.
Lemma passes_cleanup : passes (Peer.cleanup self).
Proof.
  unfold Peer.cleanup. spare_bind; [pass|]. intros _ _. apply passes_own. intros n Hn.
  spare_bind; [apply passes_release_all, Hn|]. pass.
Qed.
Lemma passes_node f : (forall n, cache_mgr_ (f n) = cache_mgr_ n /\ peer (f n) = peer n) -> passes (modify f).
Proof. intros Hf. apply keeps_modify. intros n []. destruct (Hf n) as [Hm Hp]. split; rewrite ?Hm, ?Hp; done. Qed.
Hint Extern 3 (keeps _ _ (modify _)) => solve [by apply passes_node] : spares.
Lemma passes_read_some k : passes (Peer.read_some k).
Proof.
  intros n []. unfold Peer.read_some. destruct (socket_ n); split; try done.
Qed.
Lemma passes_on_read_buffer f : passes (Peer.on_read_buffer f).
Proof. unfold Peer.on_read_buffer. pass. Qed.
Hint Resolve passes_reset passes_cleanup passes_read_some passes_on_read_buffer : spares.
Lemma passes_read_more : passes Peer.read_more.
Proof. unfold Peer.read_more, Peer.handle_processed. pass. Qed.
Lemma passes_to_item b : strict = true -> passes (Peer.to_item self b).
Proof.
  intros Hs. unfold Peer.to_item. apply passes_own. intros n Hn. refine (keeps_bind_the _ _ _ _ _). intros [q o] Hq. cbn [fst snd].
  assert (q <> p). { intros ->. destruct (aw_at _ _ _ _ Hn) as [_ Ha]; [by left|]. apply Ha. by rewrite Hq. }
  spare_bind; [pass|]. intros _ _. apply (passes_hold q); [done|intros ?; cbn; auto 10].
Qed.
Hint Resolve passes_read_more passes_to_item : spares.
Lemma passes_read_extras : strict = true -> passes (Peer.read_body_extras e little alive self unassigned).
Proof. intros Hs. unfold Peer.read_body_extras, Peer.consume. pass. Qed.

(** What is left is the state in which the item is followed. *)
Section rounds.
Definition extras_pass : Prop := forall n, away strict p it n -> state_ (peer n) = PEER_STATE_READ_BODY_EXTRAS ->
  match Peer.read_body_extras e little alive self unassigned n with Some (_, n') => away strict p it n' | None => True end.
Hypothesis extras : extras_pass.
Lemma passes_status_write c : passes (Peer.status_write c).
Proof.
  unfold Peer.status_write. apply passes_own. intros n Hn. pose proof (aw_next _ _ _ _ Hn). pass.
Qed.
Hint Resolve passes_status_write : spares.
Lemma passes_round c : passes (Peer.round e little alive conf self unassigned c).
Proof.
  intros n Hn. unfold Peer.round. unfold mbind at 1, ST_bind at 1, Peer.my, gets.
  destruct (state_ (peer n)) eqn:Est; revert n Hn Est;
    lazymatch goal with
    | |- context [Peer.read_body_extras] => intros n Hn Est
    | |- forall n, away _ _ _ _ -> _ -> match ?m _ with _ => _ end =>
        assert (passes m) as Hm; [|intros n Hn _; exact (Hm n Hn)]
    end.
  all: try (unfold Peer.read_header, Peer.read_body_fixed, Peer.read_body_extras2, Peer.swallow, Peer.consume; pass).
  pose proof (extras n Hn Est) as Hx. unfold mbind, ST_bind. by destruct (Peer.read_body_extras _ _ _ _ _ n) as [[]|].
Qed.
Hint Resolve passes_round : spares.
Lemma passes_loop fuel : forall c, passes (Peer.process_loop e little alive conf self unassigned fuel c).
Proof. induction fuel as [|fuel IH]; intros c; cbn [Peer.process_loop]; pass. by apply keeps_the. Qed.
Hint Resolve passes_loop : spares.
Lemma passes_process : passes (Peer.process e little alive conf self unassigned).
Proof. unfold Peer.process. pass. Qed.
Lemma passes_try_read : passes Peer.try_read.
Proof. unfold Peer.try_read, Peer.handle_processed. pass. Qed.
Lemma passes_try_write : passes Peer.try_write.
Proof. unfold Peer.try_write. pass. Qed.
Lemma passes_destroy : passes (Peer.destroy self).
Proof. unfold Peer.destroy, Peer.stats_conn. pass. Qed.
Hint Resolve passes_process passes_try_read passes_try_write passes_destroy : spares.
Lemma passes_go_on : passes (Peer.process_and_go_on e little alive conf self unassigned).
Proof. unfold Peer.process_and_go_on. pass. Qed.
Lemma passes_close_when_idle : passes (Peer.close_when_idle self).
Proof. unfold Peer.close_when_idle. pass. Qed.
Hint Resolve passes_go_on passes_close_when_idle : spares.
Lemma passes_start d : passes (Peer.start e little alive conf self unassigned d).
Proof. unfold Peer.start. pass. Qed.
Lemma passes_handle_read d : passes (Peer.handle_read e little alive conf self unassigned d).
Proof. unfold Peer.handle_read. pass. Qed.
Lemma passes_handle_write b : passes (Peer.handle_write e little alive conf self unassigned b).
Proof. unfold Peer.handle_write. pass. Qed.
Lemma passes_handle_timer : passes (Peer.handle_timer little alive self unassigned).
Proof. unfold Peer.handle_timer. pass. Qed.
End rounds.
End handlers.


Section completions.
Context (e : endian) (little : bool) `{Table_Malloc} `{Item_Malloc} `{!Item_Malloc_Ok} `{Buffer_Malloc} `{Block_Malloc} `{Auth_Library}.
Context (alive : sink -> bool) (conf : settings) (self : sink) (unassigned : Z).
Context (strict : bool) (p : ptr) (it : Cache_Item).

(** Where the item is followed, no pointer is stale. *)
Lemma extras_passed : extras_pass e little alive self unassigned strict p it.
Proof.
  intros n [Ha Hi Hn Hst] Est. pose proof (passes_read_extras e little alive self unassigned true p it eq_refl) as Hk.
  specialize (Hk n). destruct (Peer.read_body_extras _ _ _ _ _ n) as [[b n']|]; [|done].
  destruct Hk as [[Ha' Hi' Hn' Hst'] _]; [split; auto|]. split; auto.
Qed.
Lemma passes_started d : passes strict p it (Peer.start e little alive conf self unassigned d).
Proof. apply (passes_start e little alive conf self unassigned strict p it), extras_passed. Qed.
Lemma passes_was_read d : passes strict p it (Peer.handle_read e little alive conf self unassigned d).
Proof. apply (passes_handle_read e little alive conf self unassigned strict p it), extras_passed. Qed.
Lemma passes_was_written b : passes strict p it (Peer.handle_write e little alive conf self unassigned b).
Proof. apply (passes_handle_write e little alive conf self unassigned strict p it), extras_passed. Qed.
Lemma passes_create memory : passes strict p it (Peer.create self memory).
Proof.
  unfold Peer.create, Peer.stats_conn. refine (keeps_bind _ _ _ _ _ _).
  - apply keeps_modify. intros n [Ha _ _ _]. split; cbn; [done|apply not_elem_of_nil|done|done].
  - intros _ _. apply passes_cache. spare.
Qed.
End completions.
