(* ===== verification/PeerRun.v ===== *)
(** * The loop of a connection: it ends, and keeps the invariant

    Every round of [process] makes the node lighter - bytes are read, or the state
    comes nearer to the next header - and keeps [node_ok]; so do the handlers of the
    completions of asio. *)

From S2P Require Import Prelude XixiList XixiHashMap Lookup3 Util CurrTime Pdu Stats Watch Slab Cache CacheInv CacheSpec CacheOps CacheData CacheSweep CacheStore CacheRun Buffers Auth Peer PeerFacts.
Import Cache_Watch.

(** ** The input *)

(** The same node with another input. *)
Definition with_input (b : Receive_Buffer.buffer) (sk : list bytes) (n : node) : node :=
  n <| socket_ := sk |> <| peer ::= fun p => p <| read_buffer_ := b |> |>.
Definition waiting (n : node) : Z := Z.of_nat (length (concat (socket_ n))).
Definition received (n : node) : Z := Receive_Buffer.read_data_size_ (read_buffer_ (peer n)).

Lemma wf_input b sk n : node_wf n -> Receive_Buffer.wf Peer.DEFAULT_SIZE b -> Forall is_byte (Receive_Buffer.data b) ->
  Forall (Forall is_byte) sk -> node_wf (with_input b sk n).
Proof. intros [] ? ? ?. by split. Qed.
Lemma all_refs_input others b sk n : all_refs others (with_input b sk n) = all_refs others n.
Proof. done. Qed.

Section input.
Context `{Buffer_Malloc} `{!Buffer_Malloc_Ok}.
Implicit Types (n : node).

(** What is consumed goes from the front of the data. *)
Lemma wp_consume k n Q : node_wf n -> 0 <= k <= received n ->
  (forall n' b, n' = with_input b (socket_ n) n -> node_wf n' -> received n' = received n - k ->
     Receive_Buffer.data b = drop (Z.to_nat k) (Receive_Buffer.data (read_buffer_ (peer n))) -> Q tt n') ->
  wp (Peer.consume k) n Q.
Proof.
  intros Hw Hk HQ. destruct (Receive_BufferFacts.processed_spec Peer.DEFAULT_SIZE k (read_buffer_ (peer n))) as (Hb&Hd&Hs);
    [apply Hw|exact Hk|]. cbn. eapply (HQ _ (Receive_Buffer.processed k (read_buffer_ (peer n)))).
  - unfold with_input. by destruct n.
  - destruct Hw. split; try done. cbn. rewrite Hd. by apply Forall_drop.
  - exact Hs.
  - exact Hd.
Qed.

(** Reading from the socket: at most as much as is asked for, and nothing only if
    nothing waits or nothing is asked for. *)
Lemma wp_read_some len n Q : Forall (Forall is_byte) (socket_ n) -> 0 <= len ->
  (forall got sk, Z.of_nat (length got) <= len -> Forall is_byte got -> Forall (Forall is_byte) sk ->
     Z.of_nat (length (concat sk)) = waiting n - Z.of_nat (length got) -> Q got (n <| socket_ := sk |>)) ->
  wp (Peer.read_some len) n Q.
Proof.
  intros Hb Hl HQ. unfold wp, Peer.read_some. unfold waiting in HQ. destruct (socket_ n) as [|b rest] eqn:E.
  - specialize (HQ [] []). cbn in HQ. replace (n <| socket_ := [] |>) with n in HQ by (rewrite <- E; by destruct n).
    apply HQ; [lia|constructor..|lia].
  - inversion_clear Hb as [|? ? Hb1 Hb2]. pose proof (Forall_take _ (Z.to_nat len) _ Hb1). pose proof (Forall_drop _ (Z.to_nat len) _ Hb1) as Hb3.
    apply HQ; [rewrite length_take; lia|done|case_decide; [done|by constructor]|].
    cbn [concat]. rewrite length_app, length_take. pose proof (length_drop b (Z.to_nat len)) as Hl3.
    case_decide as Hd; [rewrite Hd in Hl3; cbn in Hl3; lia|cbn [concat]; rewrite length_app; lia].
Qed.

(** A state that needs more: it gets some, or the round ends. *)
Lemma wp_read_more n (Q : bool -> node -> Prop) : node_wf n ->
  (forall run n' b sk, n' = with_input b sk n -> node_wf n' -> received n <= received n' ->
     (run = true -> received n < received n') -> received n' + waiting n' = received n + waiting n -> Q run n') ->
  wp Peer.read_more n Q.
Proof.
  intros Hw HQ. unfold Peer.read_more.
  destruct (Receive_BufferFacts.handle_processed_spec Peer.DEFAULT_SIZE Peer.HIGHWAT_SIZE) with (read_buffer_ (peer n))
    as (b1&Hb1&Hwf1&Hd1&_&_); [done|done|done|apply Hw|].
  apply wp_bind. unfold Peer.handle_processed, Peer.on_read_buffer. apply wp_bind, wp_gets, wp_bind.
  eapply wp_the; [exact Hb1|]. apply wp_modify, wp_bind, wp_gets. set (n1 := set peer _ n).
  apply wp_bind. apply wp_read_some; [apply Hw|apply wrap_range; lia|]. intros got sk Hgl Hgb Hskb Hskl.
  apply wp_bind. destruct (Receive_BufferFacts.received_spec Peer.DEFAULT_SIZE got b1) as (b2&Hb2&Hwf2&Hd2&Hs2); [done|exact Hgl|].
  apply wp_bind, wp_gets, wp_bind. eapply wp_the; [exact Hb2|]. apply wp_modify, wp_ret.
  assert (Receive_Buffer.read_data_size_ b1 = received n) as Hsz.
  { unfold received. rewrite <- (Receive_BufferFacts.data_length Peer.DEFAULT_SIZE b1), Hd1 by done.
    apply (Receive_BufferFacts.data_length Peer.DEFAULT_SIZE), Hw. }
  eapply (HQ _ _ b2 sk).
  - unfold with_input, n1. by destruct n.
  - destruct Hw. split; try done. cbn. rewrite Hd2, Hd1. by apply Forall_app.
  - unfold received at 2. cbn. rewrite Hs2, Hsz. lia.
  - intros Hrun. unfold received at 2. cbn. rewrite Hs2, Hsz. destruct got; [done|]. cbn. lia.
  - unfold received at 1, waiting at 1. cbn. rewrite Hs2, Hsz, Hskl. unfold waiting, n1. cbn. lia.
Qed.

(** With nothing in the socket it ends, and the data stays. *)
Lemma wp_read_more_none n (Q : bool -> node -> Prop) : node_wf n -> socket_ n = [] ->
  (forall b, Receive_Buffer.data b = Receive_Buffer.data (read_buffer_ (peer n)) -> Q false (with_input b [] n)) ->
  wp Peer.read_more n Q.
Proof.
  intros Hw Hsk HQ. unfold Peer.read_more.
  destruct (Receive_BufferFacts.handle_processed_spec Peer.DEFAULT_SIZE Peer.HIGHWAT_SIZE) with (read_buffer_ (peer n))
    as (b1&Hb1&Hwf1&Hd1&_&_); [done|done|done|apply Hw|].
  apply wp_bind. unfold Peer.handle_processed, Peer.on_read_buffer. apply wp_bind, wp_gets, wp_bind.
  eapply wp_the; [exact Hb1|]. apply wp_modify, wp_bind, wp_gets. set (n1 := set peer _ n).
  destruct (Receive_BufferFacts.received_spec Peer.DEFAULT_SIZE [] b1) as (b2&Hb2&Hwf2&Hd2&_); [done|apply wrap_range; lia|].
  apply wp_bind. unfold wp at 1, Peer.read_some. change (socket_ n1) with (socket_ n). rewrite Hsk.
  apply wp_bind, wp_bind, wp_gets, wp_bind. eapply wp_the; [exact Hb2|]. apply wp_modify, wp_ret. rewrite app_nil_r in Hd2.
  specialize (HQ b2 ltac:(by rewrite Hd2)). unfold with_input in HQ. rewrite <- Hsk in HQ. unfold n1. by destruct n.
Qed.
End input.

(** ** The rounds *)

(** What is left to do: bytes weigh more before they are read, and a state more the
    further it is from the next header. *)
Definition rank (st : peer_state) : Z :=
  match st with
  | PEER_STATE_READ_HEADER => 1 | PEER_STATE_NEW_CMD => 2 | PEER_STATE_SWALLOW => 3 | PEER_STATUS_WRITE => 4
  | PEER_STATE_READ_BODY_FIXED => 5 | PEER_STATE_READ_BODY_EXTRAS | PEER_STATE_READ_BODY_EXTRAS2 => 6
  | _ => 0
  end.
Definition measure (n : node) : Z := 8 * Peer.weight n + rank (state_ (peer n)).
(** The references the rest of a run of [process] can take to an item, when it has
    counted [c] requests. *)
Definition spare (st : peer_state) (c : Z) : Z :=
  2 * (33 - c) + match st with
                 | PEER_STATE_READ_BODY_FIXED => 2
                 | PEER_STATE_READ_BODY_EXTRAS | PEER_STATE_READ_BODY_EXTRAS2 => 1
                 | _ => 0
                 end.
Definition count_ok (st : peer_state) (c : Z) : Prop :=
  0 <= c <= match st with PEER_STATE_NEW_CMD | PEER_STATE_READ_HEADER | PEER_STATE_SWALLOW => 31 | _ => 32 end.
Definition enough (others : holds) (n : node) (c : Z) : Prop :=
  forall p, all_refs others n p + spare (state_ (peer n)) c < 2 ^ 15.

(** A request that [process] is not made for is at hand. *)
Definition benign `{Auth_Library} (little : bool) (n : node) : bool :=
  let p := peer n in
  let d := Receive_Buffer.data (read_buffer_ p) in
  match state_ p with
  | PEER_STATE_READ_BODY_FIXED =>
      match decode_pdu little (read_pdu_header_ p) d with
      | Some (UpdateReq pdu) => (received n <? next_data_len_ p) || fits pdu
      | _ => true
      end
  | PEER_STATE_READ_BODY_EXTRAS2 =>
      match read_pdu_ p with
      | Some r => (received n <? next_data_len_ p) || benign_request (cache_mgr_ n) r d
      | None => true
      end
  | _ => true
  end.

(** What a round does: references may be lost, but there are enough; if the loop goes
    on, less is left to do. *)
Record advanced (e : endian) (others : holds) (n : node) (c : Z) (r : bool * Z) (n' : node) : Prop := {
  av_ok : exists others', node_ok e others' n' /\ (forall p, others p <= others' p) /\ enough others' n' r.2;
  av_less : r.1 = true -> measure n' < measure n;
  av_count : r.1 = true -> count_ok (state_ (peer n')) r.2
}.

Section rounds.
Context (e : endian) (little : bool) `{Table_Malloc} `{Item_Malloc} `{!Item_Malloc_Ok} `{Buffer_Malloc} `{!Buffer_Malloc_Ok} `{Block_Malloc} `{Auth_Library}.
Context (alive : sink -> bool) (conf : settings) (self : sink) (unassigned : Z).
Context (blocks : forall n, malloc_block n = true).
Implicit Types (n : node) (others : holds).

Lemma weight_input b sk n : Peer.weight (with_input b sk n) = received (with_input b sk n) + 2 * waiting (with_input b sk n).
Proof. done. Qed.
Lemma weight_eq n : Peer.weight n = received n + 2 * waiting n.
Proof. done. Qed.
Lemma waiting_ge n : 0 <= waiting n.
Proof. unfold waiting. lia. Qed.
Lemma received_ge n : node_wf n -> 0 <= received n.
Proof. intros Hw. apply (nw_buffer _ Hw). Qed.
Lemma data_received n : node_wf n -> Z.of_nat (length (Receive_Buffer.data (read_buffer_ (peer n)))) = received n.
Proof. intros Hw. apply (Receive_BufferFacts.data_length Peer.DEFAULT_SIZE), Hw. Qed.

Lemma stage_input others b sk n : stage others n -> received n <= received (with_input b sk n) -> stage others (with_input b sk n).
Proof.
  intros Hs Hle. unfold stage in *. rewrite all_refs_input. cbn [with_input] in *. unfold received in Hle. cbn in Hle |- *.
  destruct (state_ (peer n)); try done. destruct Hs; [by left|right; lia].
Qed.

(** Waiting for more. *)
Lemma read_more_advanced others n c : node_ok e others n -> count_ok (state_ (peer n)) c -> enough others n c ->
  wp (run ← Peer.read_more; mret (run, c)) n (advanced e others n c).
Proof.
  intros [Hw Hi Hs] Hc He. apply wp_bind, wp_read_more; [done|]. intros run n' b sk -> Hw' Hle Hlt Hsum. apply wp_ret.
  split; cbn [fst snd].
  - exists others. split; [split; [done|by rewrite all_refs_input|by apply stage_input]|]. split; [lia|done].
  - intros Hr. specialize (Hlt Hr). unfold measure. rewrite weight_input, weight_eq. cbn [with_input]. cbn. lia.
  - done.
Qed.

(** A request was dealt with after some bytes were consumed, or before. *)
Lemma handled_advanced others n n1 n' c c' :
  count_ok (state_ (peer n')) c' -> enough others n c -> handled e 1 others n1 n' ->
  (forall p, all_refs others n1 p <= all_refs others n p) ->
  spare (state_ (peer n')) c' + 1 <= spare (state_ (peer n)) c ->
  measure n' < measure n -> advanced e others n c (true, c') n'.
Proof.
  intros Hc He [(o'&Hok&Ho&Ht) _ _] Hle Hsp Hm. split; cbn [fst snd]; [|done..]. exists o'. split; [done|]. split; [done|].
  intros p. pose proof (He p). pose proof (Ht p). pose proof (Hle p). lia.
Qed.
(** [NEW_CMD]: the items of the peer are given back. *)
Lemma release_items_spec h l n : inv e (cache_mgr_ n) (plus h (refs_of l)) -> roomy (plus h (refs_of l)) -> (forall q, 0 <= h q) ->
  wp (for_each (fun p => Peer.cache self (Mgr.release_reference p)) l) n (fun _ n' =>
    quiet n n' /\ state_ (peer n') = state_ (peer n) /\ inv e (cache_mgr_ n') h).
Proof.
  revert n. induction l as [|p l IH]; intros n Hi Hr H0'.
  - apply wp_ret. split; [done|]. split; [done|]. eapply inv_held; [|exact Hi]. intros q. unfold plus, refs_of. cbn. lia.
  - assert (forall q, plus h (refs_of (p :: l)) q = give p 1 (plus h (refs_of l)) q) as Hg.
    { intros q. unfold plus. rewrite refs_of_cons. unfold give. case_decide; lia. }
    apply wp_bind, wp_cache. eapply (release_safe e _ (plus h (refs_of l)) p).
    + eapply inv_held; [|exact Hi]. intros q. by rewrite Hg.
    + intros q. rewrite <- Hg. apply Hr.
    + intros q. unfold plus. pose proof (H0' q). pose proof (refs_of_ge l q). lia.
    + intros s' Hi' n1 Hq1 Hs1 Hst1 _. eapply wp_mono; [apply IH; [by rewrite Hs1| |done]|].
      * intros q. pose proof (Hr q) as Hq. rewrite Hg in Hq. unfold give in Hq. case_decide; lia.
      * intros [] n2 (Hq2&Hst2&Hi2). split_and!; [by eapply quiet_trans|by rewrite Hst2|done].
Qed.

Lemma new_cmd_advanced others n c : node_ok e others n -> (forall p, 0 <= others p) -> state_ (peer n) = PEER_STATE_NEW_CMD ->
  count_ok (state_ (peer n)) c -> enough others n c ->
  wp (run ← (Peer.reset_for_new_cmd self;; mret true); mret (run, c)) n (advanced e others n c).
Proof.
  intros [Hw Hi _] H0' Hst Hc He. assert (all_refs others n = tot others n) as Ha by (apply all_refs_tot; by rewrite Hst).
  rewrite Ha in Hi. unfold enough in He. rewrite Ha, Hst in He. cbn in He.
  apply wp_bind, wp_bind. unfold Peer.reset_for_new_cmd. apply wp_bind, wp_modify, wp_bind, wp_gets. set (n1 := set peer _ n).
  apply wp_bind. eapply wp_mono; [apply (release_items_spec others); [exact Hi| |exact H0']|].
  { rewrite Hst in Hc. cbn in Hc. intros q. specialize (He q). unfold tot in He. change (cache_items_ (peer n1)) with (cache_items_ (peer n)). unfold spare, count_ok in *. lia. }
  intros [] n2 (Hq2&Hst2&Hi2). apply wp_bind, wp_modify, wp_modify, wp_ret, wp_ret.
  assert (node_wf n1) as Hw1 by (by destruct Hw). destruct (wf_quiet _ _ Hq2 Hw1).
  split; cbn [fst snd].
  - exists others. split; [split|split; [lia|]].
    + by split.
    + rewrite all_refs_tot by done. eapply inv_held; [|exact Hi2]. intros q. unfold tot, plus, refs_of. cbn. lia.
    + unfold stage. cbn. by left.
    + intros q. rewrite all_refs_tot by done. specialize (He q). unfold tot, plus, refs_of, spare in *. cbn. lia.
  - intros _. unfold measure. rewrite Hst, !weight_eq. unfold received, waiting. cbn. rewrite (q_buffer _ _ Hq2), (q_socket _ _ Hq2). cbn. lia.
  - intros _. rewrite Hst in Hc. exact Hc.
Qed.

(** [READ_HEADER]. *)
Lemma fixed_size_range ch k : Peer.fixed_body_size ch = Some k -> 0 < k <= 31.
Proof.
  unfold Peer.fixed_body_size. repeat (case_match; [intros [= <-]; by split|]). done.
Qed.

Lemma header_spec others n d : node_ok e others n -> state_ (peer n) = PEER_STATE_READ_HEADER ->
  wp (Peer.process_header little d) n (fun tmp n' => tmp = XIXI_PDU_HEAD_LENGTH /\ handled e 0 others n n' /\ node_wf n' /\
    (state_ (peer n') = PEER_STATE_READ_BODY_FIXED \/ state_ (peer n') = PEER_STATUS_WRITE)).
Proof.
  intros [Hw Hi _] Hst. unfold Peer.process_header. apply wp_bind, wp_modify. set (n1 := set peer _ n).
  assert (all_refs others n = tot others n) as Ha by (apply all_refs_tot; by rewrite Hst). rewrite Ha in Hi.
  assert (node_wf n1) as Hw1 by (by destruct Hw).
  assert (forall k, replies k -> wp k n1 (fun _ n' => state_ (peer n') = PEER_STATUS_WRITE) ->
    wp (k ;; mret XIXI_PDU_HEAD_LENGTH) n1 (fun tmp n' => tmp = XIXI_PDU_HEAD_LENGTH /\ handled e 0 others n n' /\ node_wf n' /\
    (state_ (peer n') = PEER_STATE_READ_BODY_FIXED \/ state_ (peer n') = PEER_STATUS_WRITE))) as Hans.
  { intros k Hk Hkw. apply wp_bind. eapply wp_mono; [apply wp_and; [apply Hk|exact Hkw]|]. intros [] n2 ((Hq&Hs&_)&Hst2).
    apply wp_ret. assert (node_wf n2) as Hw2 by by eapply wf_quiet. split; [done|]. split; [|by auto].
    assert (forall p, all_refs others n2 p = tot others n p) as Ha2.
    { intros p. rewrite all_refs_tot by (by rewrite Hst2). unfold tot. by rewrite (q_items _ _ Hq). }
    split; [|by rewrite (q_buffer _ _ Hq)|by rewrite (q_socket _ _ Hq)]. exists others. split; [split|split; [lia|]].
    - done.
    - eapply inv_held; [exact Ha2|]. by rewrite Hs.
    - unfold stage. by rewrite Hst2.
    - intros p. rewrite Ha2, Ha. lia. }
  destruct (Peer.fixed_body_size (Header.decode little d)) as [k|] eqn:E.
  - pose proof (fixed_size_range _ _ E). apply wp_bind, wp_bind, wp_modify, wp_modify, wp_ret. split; [done|].
    set (n2 := set peer _ _). assert (node_wf n2) as Hw2 by (destruct Hw; split; try done; cbn; lia).
    split; [|by auto]. split; [|done..]. exists others. split; [split; [done|exact Hi|exact E]|]. split; [lia|].
    intros p. rewrite Ha. unfold all_refs, tot. cbn. lia.
  - case_match.
    + apply Hans; [by apply replies_respond|]. apply wp_respond; [done|]. by intros n' (_&_&?&_).
    + apply Hans; [by apply replies_close|]. apply wp_close_with_error; [done|]. by intros n' (_&_&?&_).
Qed.
End rounds.

Section rounds2.
Context (e : endian) (little : bool) `{Table_Malloc} `{Item_Malloc} `{!Item_Malloc_Ok} `{Buffer_Malloc} `{!Buffer_Malloc_Ok} `{Block_Malloc} `{Auth_Library}.
Context (alive : sink -> bool) (conf : settings) (self : sink) (unassigned : Z).
Context (blocks : forall n, malloc_block n = true).
Implicit Types (n : node) (others : holds).

(** Some bytes go, and nothing else. *)
Lemma consume_ok others n k Q : node_ok e others n -> state_ (peer n) <> PEER_STATE_READ_HEADER -> 0 <= k <= received n ->
  (forall n', node_ok e others n' -> all_refs others n' = all_refs others n -> state_ (peer n') = state_ (peer n) ->
     received n' = received n - k -> waiting n' = waiting n -> Q tt n') ->
  wp (Peer.consume k) n Q.
Proof.
  intros [Hw Hi Hs] Hst Hk HQ. apply wp_consume; [done..|]. intros n' b -> Hw' Hr _. apply HQ; try done.
  split; [done|exact Hi|]. unfold stage in *. rewrite all_refs_input. cbn [with_input] in *. cbn. by destruct (state_ (peer n)).
Qed.

Lemma header_advanced others n c : node_ok e others n -> state_ (peer n) = PEER_STATE_READ_HEADER ->
  count_ok (state_ (peer n)) c -> enough others n c -> wp (Peer.read_header little c) n (advanced e others n c).
Proof.
  intros Hok Hst Hc He. pose proof Hok as [Hw _ Hs]. unfold Peer.read_header. apply wp_bind, wp_gets, wp_bind, wp_gets.
  fold (received n). rewrite Z.geb_leb. destruct (Z.leb_spec (next_data_len_ (peer n)) (received n)) as [Hle|Hgt];
    [|by apply read_more_advanced].
  assert (XIXI_PDU_HEAD_LENGTH <= received n) as H2'.
  { unfold stage in Hs. rewrite Hst in Hs. fold (received n) in Hs. destruct Hs; [lia|done]. }
  apply wp_bind, wp_gets, wp_bind. eapply wp_mono; [by eapply header_spec|].
  intros tmp n1 (->&[(o'&Hok1&Ho&Ht) Hb Hsk]&Hw1&Hst1). assert (received n1 = received n) as Hr1 by (unfold received; by rewrite Hb).
  apply wp_bind. eapply (consume_ok o' n1); [done|by destruct Hst1 as [-> | ->]|rewrite Hr1; by split|].
  intros n2 Hok2 Ha2 Hst2 Hr2 Hw2. apply wp_ret. rewrite Hst in Hc.
  assert (u32 (c + 1) = c + 1) as Hu by (apply wrap_small; unfold count_ok in Hc; lia). rewrite Hu.
  assert (count_ok (state_ (peer n2)) (c + 1)) as Hc2 by (rewrite Hst2; unfold count_ok in *; destruct Hst1 as [-> | ->]; lia).
  split; cbn [fst snd]; [|intros _|done].
  - exists o'. split; [done|]. split; [done|]. intros q. rewrite Ha2, Hst2. specialize (He q). specialize (Ht q).
    rewrite Hst in He. unfold spare in *. destruct Hst1 as [-> | ->]; lia.
  - unfold measure. rewrite Hst2, Hst, !weight_eq, Hr2, Hw2, Hr1. unfold waiting. rewrite Hsk. unfold XIXI_PDU_HEAD_LENGTH, XIXI_PDU_CHOICE_LENGTH in *.
    destruct Hst1 as [-> | ->]; cbn; lia.
Qed.

(** [READ_BODY_FIXED]. *)
Lemma decode_choice ch d r : decode_pdu little ch d = Some r -> request_choice r = ch.
Proof.
  unfold decode_pdu. intros Hd.
  repeat match type of Hd with (if ?c =? ?x then _ else _) = _ => destruct (Z.eqb_spec c x) as [->|_] end; try done; by injection Hd as <-.
Qed.
Lemma fixed_size_request r k : Peer.fixed_body_size (request_choice r) = Some k -> request_fixed_size r = k.
Proof. destruct r; vm_compute; congruence. Qed.

Lemma read_more_more others n c : node_ok e others n -> count_ok (state_ (peer n)) c -> enough others n c ->
  wp Peer.read_more n (fun run => advanced e others n c (run, c)).
Proof. intros. by apply (wp_bind_inv _ _ _ _ (read_more_advanced e others n c ltac:(done) ltac:(done) ltac:(done))). Qed.

Lemma fixed_advanced others n c : node_ok e others n -> (forall p, 0 <= others p) -> state_ (peer n) = PEER_STATE_READ_BODY_FIXED ->
  count_ok (state_ (peer n)) c -> enough others n c -> benign little n = true ->
  wp (Peer.read_body_fixed little alive conf self unassigned) n (fun run => advanced e others n c (run, c)).
Proof.
  intros Hok H0' Hst Hc He Hb. pose proof Hok as [Hw _ Hs]. unfold stage in Hs. rewrite Hst in Hs. apply fixed_size_range in Hs as Hk.
  unfold Peer.read_body_fixed. apply wp_bind, wp_gets, wp_bind, wp_gets. fold (received n). rewrite Z.geb_leb.
  destruct (Z.leb_spec (next_data_len_ (peer n)) (received n)) as [Hle|Hgt]; [|by apply read_more_more].
  apply wp_bind, wp_gets, wp_bind, wp_gets, wp_bind.
  eapply (consume_ok others n); [done|by rewrite Hst|lia|].
  intros n1 [Hw1 Hi1 _] Ha1 Hst1 Hr1 Hwt1. rewrite Hst in Hst1.
  assert (resting e others n1) as Hrest.
  { split; [done|]. rewrite <- all_refs_tot by (by rewrite Hst1). exact Hi1. }
  assert (forall (k : N unit) n2, (forall q, all_refs others n2 q = all_refs others n q) -> received n2 = received n1 -> waiting n2 = waiting n1 ->
    wp k n2 (fun _ n' => handled e 1 others n2 n' /\
      (is_reply (state_ (peer n')) \/ state_ (peer n') = PEER_STATE_READ_BODY_EXTRAS \/ state_ (peer n') = PEER_STATE_READ_BODY_EXTRAS2)) ->
    wp k n2 (fun _ n' => advanced e others n c (true, c) n')) as Hgo.
  { intros k n2 Ha2 Hr2 Hwt2 Hwp. eapply wp_mono; [exact Hwp|]. intros [] n3 [Hh Hst3].
    rewrite Hst in Hc. unfold count_ok in Hc. eapply (handled_advanced e others n n2); [|done|done|intros q; by rewrite Ha2| |].
    - destruct Hst3 as [[-> | ->]|[-> | ->]]; exact Hc.
    - rewrite Hst. unfold spare. destruct Hst3 as [[-> | ->]|[-> | ->]]; lia.
    - unfold measure. rewrite Hst, !weight_eq. assert (received n3 = received n2) as -> by (unfold received; by rewrite (hd_buffer _ _ _ _ _ Hh)).
      assert (waiting n3 = waiting n2) as -> by (unfold waiting; by rewrite (hd_socket _ _ _ _ _ Hh)).
      rewrite Hr2, Hwt2, Hr1, Hwt1. destruct Hst3 as [[-> | ->]|[-> | ->]]; cbn; lia. }
  assert (roomy (tot others n1)) as Hroom.
  { intros q. rewrite <- all_refs_tot by (by rewrite Hst1). rewrite Ha1. specialize (He q). rewrite Hst in He, Hc. unfold spare in He. unfold count_ok in Hc. lia. }
  destruct (decode_pdu _ _ _) as [r|] eqn:Er.
  - pose proof (decode_choice _ _ _ Er) as Hch. assert (request_fixed_size r = next_data_len_ (peer n)) as Hsz.
    { apply fixed_size_request. by rewrite Hch. }
    apply decode_wf in Er as Hwr; [|apply Hw|rewrite data_received, Hsz by done; exact Hle]. destruct Hwr as [Hwr _].
    apply wp_bind, wp_bind, wp_modify. set (n2 := set peer _ n1). apply Hgo; [intros q; by rewrite <- Ha1|done|done|].
    apply fixed_spec; try done.
    + destruct Hrest as [Hw1' Hi1']. split; [by destruct Hw1'|exact Hi1'].
    + intros p ->. unfold benign in Hb. rewrite Hst, Er in Hb. apply orb_prop in Hb as [Hb|Hb]; [apply Z.ltb_lt in Hb; lia|done].
    + unfold n2. cbn. by rewrite Hst1.
  - apply wp_bind, Hgo; [intros q; by rewrite Ha1|done|done|]. eapply wp_mono; [apply answer_only; [exact Hrest|by apply replies_close]|].
    intros [] n3 Ha. split; [apply answered_handled; [by rewrite Hst1|done]|left; apply Ha].
Qed.

(** [READ_BODY_EXTRAS]: bytes of the key and the data go to the item. *)
Lemma to_item_spec others n b Q : node_ok e others n -> state_ (peer n) = PEER_STATE_READ_BODY_EXTRAS ->
  Z.of_nat (length b) <= next_data_len_ (peer n) ->
  (forall n', node_ok e others n' -> all_refs others n' = all_refs others n -> state_ (peer n') = PEER_STATE_READ_BODY_EXTRAS ->
     read_buffer_ (peer n') = read_buffer_ (peer n) -> socket_ n' = socket_ n -> Q tt n') ->
  wp (Peer.to_item self b) n Q.
Proof.
  intros [Hw Hi Hs] Hst Hb HQ. unfold stage in Hs. rewrite Hst in Hs. destruct Hs as (pdu&p&it&off&Hpdu&Hci&Hat&Hri&Hone&Hoff&Hlen).
  unfold Peer.to_item. apply wp_bind, wp_gets, wp_bind. rewrite Hat. eapply wp_the; [done|]. cbn [fst snd].
  destruct (item_bounds _ _ (raw_wf e _ _ _ _ Hi Hri)) as (?&?&?&?).
  apply wp_bind, wp_cache. eapply (wp_raw_write e _ _ p it (fun _ => off)); [done|done|done|lia|].
  intros s b' _ Hi' Hri' _ _ n1 Hq1 Hs1 Hst1 _. apply wp_modify. set (n2 := set peer _ n1).
  pose proof (q_items _ _ Hq1) as Hits. pose proof (q_item _ _ Hq1) as Hit1. pose proof (wf_quiet _ _ Hq1 Hw) as Hw1.
  assert (all_refs others n2 = all_refs others n) as Ha.
  { unfold all_refs, n2, tot. cbn. by rewrite Hst1, Hit1, Hits. }
  assert (u32 (next_data_len_ (peer n1) - Z.of_nat (length b)) = next_data_len_ (peer n) - Z.of_nat (length b)) as Hu.
  { rewrite (q_next _ _ Hq1). destruct Hw. apply wrap_small. lia. }
  apply HQ; [|exact Ha|by unfold n2; cbn; rewrite Hst1|apply (q_buffer _ _ Hq1)|apply (q_socket _ _ Hq1)].
  split.
  - destruct Hw1. split; try done. unfold n2. cbn. rewrite Hu. destruct Hw. lia.
  - rewrite Ha. unfold n2. cbn. by rewrite Hs1.
  - unfold stage. rewrite Ha. unfold n2. cbn. rewrite Hst1, Hst, Hu, Hs1, Hit1, (q_pdu _ _ Hq1).
    exists pdu, p, (it <| body := b' |>), (off + Z.of_nat (length b)). split_and!; try done; cbn; lia.
Qed.

Lemma tot_ge others n : (forall p, 0 <= others p) -> forall p, 0 <= tot others n p.
Proof. intros H0' p. unfold tot, plus. pose proof (H0' p). pose proof (refs_of_ge (cache_items_ (peer n)) p). lia. Qed.

Lemma extras_advanced others n c : node_ok e others n -> (forall p, 0 <= others p) -> state_ (peer n) = PEER_STATE_READ_BODY_EXTRAS ->
  count_ok (state_ (peer n)) c -> enough others n c ->
  wp (Peer.read_body_extras e little alive self unassigned) n (fun run => advanced e others n c (run, c)).
Proof.
  intros Hok H0' Hst Hc He. pose proof Hok as [Hw Hi Hs]. unfold Peer.read_body_extras.
  apply wp_bind, wp_gets, wp_bind, wp_gets. fold (received n).
  pose proof (received_ge _ Hw) as Hrn. pose proof (nw_next _ Hw) as Hnn.
  destruct (Z.eqb_spec (next_data_len_ (peer n)) 0) as [Hz|Hnz].
  - unfold stage in Hs. rewrite Hst in Hs. destruct Hs as (pdu&p&it&off&Hpdu&Hci&Hat&Hri&Hone&Hoff&Hlen).
    clear Hone. apply wp_bind, wp_gets. rewrite Hpdu. apply wp_bind. unfold Peer.process_pdu_extras. apply wp_bind. eapply wp_the; [done|].
    assert (all_refs others n = give p 1 (tot others n)) as Ha by (unfold all_refs; by rewrite Hst, Hci). rewrite Ha in *.
    unfold count_ok in Hc. rewrite Hst in Hc.
    eapply wp_mono; [eapply (update_extras_spec e little alive self unassigned blocks others n pdu p it); try done|].
    + by apply tot_ge.
    + intros q. specialize (He q). rewrite Ha, Hst in He. unfold spare, give in He. case_decide; lia.
    + intros [] n' [(o'&[Hw' Hi']&Ho&Ht) Hb Hsk Hst']. apply wp_ret. split; cbn [fst snd].
      * exists o'. split; [|split; [done|]]. { split; [done|by rewrite reply_refs|by apply reply_stage]. }
        intros q. rewrite reply_refs by done. specialize (He q). specialize (Ht q). rewrite Ha, Hst in He.
        unfold spare, give in *. destruct Hst' as [-> | ->]; case_decide; lia.
      * intros _. unfold measure. rewrite Hst, !weight_eq. unfold received, waiting. rewrite Hb, Hsk. destruct Hst' as [-> | ->]; cbn; lia.
      * intros _. unfold count_ok. destruct Hst' as [-> | ->]; lia.
  - destruct (Z.gtb_spec (received n) 0) as [Hp|Hnp].
    + set (tmp := if received n >? next_data_len_ (peer n) then next_data_len_ (peer n) else received n).
      assert (0 < tmp <= received n /\ tmp <= next_data_len_ (peer n)) as [Ht1 Ht2].
      { unfold tmp. destruct (Z.gtb_spec (received n) (next_data_len_ (peer n))); lia. }
      apply wp_bind, wp_gets, wp_bind. eapply to_item_spec; [done|done|rewrite length_take; lia|].
      intros n1 Hok1 Ha1 Hst1 Hb1 Hs1. assert (received n1 = received n) as Hr1 by (unfold received; by rewrite Hb1).
      apply wp_bind. eapply (consume_ok others n1); [done|by rewrite Hst1|rewrite Hr1; lia|].
      intros n2 Hok2 Ha2 Hst2 Hr2 Hw2. apply wp_ret. split; cbn [fst snd].
      * exists others. split; [done|]. split; [lia|]. intros q. rewrite Ha2, Ha1, Hst2, Hst1, <- Hst. apply He.
      * intros _. unfold measure. rewrite Hst2, Hst1, Hst, !weight_eq, Hr2, Hr1, Hw2. unfold waiting. rewrite Hs1. lia.
      * intros _. rewrite Hst2, Hst1, <- Hst. exact Hc.
    + apply wp_bind, wp_read_some; [apply Hw|lia|]. intros got sk Hgl Hgb Hskb Hskl. set (n1 := set socket_ _ n).
      assert (node_ok e others n1) as Hok1 by (split; [by destruct Hw|done|done]).
      case_bool_decide as Hg.
      * apply wp_ret. split; cbn [fst snd]; [|done..]. exists others. by split_and!.
      * apply wp_bind. eapply (to_item_spec others n1); [done|done|exact Hgl|]. intros n2 Hok2 Ha2 Hst2 Hb2 Hs2. apply wp_ret.
        split; cbn [fst snd].
        -- exists others. split; [done|]. split; [lia|]. intros q. rewrite Ha2, Hst2, <- Hst. apply He.
        -- intros _. unfold measure. rewrite Hst2, Hst, !weight_eq. unfold received, waiting. rewrite Hb2, Hs2. unfold n1. cbn.
           rewrite Hskl. unfold waiting. destruct got; [done|]. cbn. lia.
        -- intros _. rewrite Hst2, <- Hst. exact Hc.
Qed.

(** [READ_BODY_EXTRAS2]. *)
Lemma extras2_advanced others n c : node_ok e others n -> (forall p, 0 <= others p) -> state_ (peer n) = PEER_STATE_READ_BODY_EXTRAS2 ->
  count_ok (state_ (peer n)) c -> enough others n c -> benign little n = true ->
  wp (Peer.read_body_extras2 e little alive self) n (fun run => advanced e others n c (run, c)).
Proof.
  intros Hok H0' Hst Hc He Hb. pose proof Hok as [Hw Hi Hs]. unfold Peer.read_body_extras2.
  apply wp_bind, wp_gets, wp_bind, wp_gets. fold (received n). rewrite Z.geb_leb.
  destruct (Z.leb_spec (next_data_len_ (peer n)) (received n)) as [Hle|Hgt]; [|by apply read_more_more].
  pose proof (nw_next _ Hw) as Hnn. unfold stage in Hs. rewrite Hst in Hs. destruct Hs as (r&Hr&Hrw&Hl).
  assert (all_refs others n = tot others n) as Ha by (apply all_refs_tot; by rewrite Hst). rewrite Ha in Hi.
  assert (benign_request (cache_mgr_ n) r (Receive_Buffer.data (read_buffer_ (peer n))) = true) as Hbr.
  { unfold benign in Hb. rewrite Hst, Hr in Hb. apply orb_prop in Hb as [Hb|Hb]; [apply Z.ltb_lt in Hb; lia|done]. }
  apply wp_bind, wp_gets, wp_bind, wp_gets. rewrite Hr. apply wp_bind.
  eapply wp_mono; [eapply (extras2_spec e little alive conf self blocks others n r _ _ (conj Hw Hi)); [|exact Hrw|exact Hl| |exact Hbr]|].
  { intros q. specialize (He q). rewrite Ha in He. rewrite Hst in He, Hc. unfold spare, count_ok in *. lia. }
  { rewrite data_received by done. exact Hle. }
  intros tmp n1 [-> Hd]. destruct (decide _) as [Hau|_].
  - subst n1. destruct r as [p|p|p|p|p|p|p|p|p|p|p| |p|p]; try done. injection Hl as Hl. cbn [benign_request] in Hbr.
    apply andb_prop in Hbr as [Hbr%Z.ltb_lt _]. apply wp_bind. eapply (consume_ok others n); [done|by rewrite Hst|lia|].
    intros n2 Hok2 Ha2 Hst2 Hr2 Hw2. apply wp_ret. split; cbn [fst snd].
    + exists others. split; [done|]. split; [lia|]. intros q. rewrite Ha2, Hst2. apply He.
    + intros _. unfold measure. rewrite Hst2, Hst, !weight_eq, Hr2, Hw2. lia.
    + intros _. by rewrite Hst2.
  - assert (handled e 1 others n n1) as Hh by (apply answered_handled; [by rewrite Hst|done]).
    destruct Hd as [_ Hbu Hsk Hst1]. destruct Hh as [(o'&Hok1&Ho&Ht) _ _].
    assert (received n1 = received n) as Hr1 by (unfold received; by rewrite Hbu).
    apply wp_bind. eapply (consume_ok o' n1); [done|by destruct Hst1 as [-> | ->]|lia|].
    intros n2 Hok2 Ha2 Hst2 Hr2 Hw2. apply wp_ret. unfold count_ok in Hc. rewrite Hst in Hc. split; cbn [fst snd].
    + exists o'. split; [done|]. split; [done|]. intros q. rewrite Ha2, Hst2. specialize (Ht q). specialize (He q).
      rewrite Hst in He. unfold spare in *. destruct Hst1 as [-> | ->]; lia.
    + intros _. unfold measure. rewrite Hst2, Hst, !weight_eq, Hr2, Hw2, Hr1. unfold waiting. rewrite Hsk.
      destruct Hst1 as [-> | ->]; cbn; lia.
    + intros _. unfold count_ok. rewrite Hst2. destruct Hst1 as [-> | ->]; lia.
Qed.

(** A change of the state to one that relies on nothing. *)
Lemma set_state_ok others n (f : Peer_Cache -> Peer_Cache) : node_ok e others n -> node_wf (n <| peer ::= f |>) ->
  (forall st, state_ (peer n) = st -> st <> PEER_STATE_READ_BODY_EXTRAS) ->
  cache_items_ (f (peer n)) = cache_items_ (peer n) -> state_ (f (peer n)) <> PEER_STATE_READ_BODY_EXTRAS ->
  stage others (n <| peer ::= f |>) -> node_ok e others (n <| peer ::= f |>) /\
    forall p, all_refs others (n <| peer ::= f |>) p = all_refs others n p.
Proof.
  intros [Hw Hi Hs] Hw' Hst Hits Hst' Hs'. specialize (Hst _ eq_refl).
  assert (forall p, all_refs others (n <| peer ::= f |>) p = all_refs others n p) as Ha.
  { intros p. rewrite !all_refs_tot by done. unfold tot, plus. cbn. by rewrite Hits. }
  split; [|done]. split; [done|by eapply inv_held; [exact Ha|]|done].
Qed.

Lemma swallow_advanced others n c : node_ok e others n -> state_ (peer n) = PEER_STATE_SWALLOW ->
  count_ok (state_ (peer n)) c -> enough others n c ->
  wp Peer.swallow n (fun run => advanced e others n c (run, c)).
Proof.
  intros Hok Hst Hc He. pose proof Hok as [Hw Hi Hs]. pose proof (nw_swallow _ Hw). pose proof (received_ge _ Hw).
  unfold Peer.swallow. apply wp_bind, wp_gets, wp_bind, wp_gets. fold (received n).
  destruct (Z.eqb_spec (swallow_size_ (peer n)) 0) as [Hz|Hnz].
  - apply wp_bind, wp_modify, wp_ret.
    destruct (set_state_ok others n (fun p => p <| state_ := PEER_STATE_NEW_CMD |>)) as [Hok' Ha'];
      [done|by destruct Hw|by rewrite Hst; intros ? <-|done|done|done|].
    split; cbn [fst snd].
    + exists others. split; [done|]. split; [lia|]. intros q. rewrite Ha'. specialize (He q). rewrite Hst in He. exact He.
    + intros _. unfold measure. rewrite Hst. cbn. unfold Peer.weight. cbn. lia.
    + intros _. rewrite Hst in Hc. exact Hc.
  - destruct (Z.gtb_spec (received n) 0) as [Hp|Hnp]; [|by apply read_more_more].
    set (tmp := if received n >? swallow_size_ (peer n) then swallow_size_ (peer n) else received n).
    assert (0 < tmp <= received n /\ tmp <= swallow_size_ (peer n)) as [Ht1 Ht2].
    { unfold tmp. destruct (Z.gtb_spec (received n) (swallow_size_ (peer n))); lia. }
    apply wp_bind, wp_modify. set (n1 := set peer _ n).
    assert (u32 (swallow_size_ (peer n) - tmp) = swallow_size_ (peer n) - tmp) as Hu by (apply wrap_small; lia).
    destruct (set_state_ok others n (fun p => p <| swallow_size_ ::= fun s => u32 (s - tmp) |>)) as [Hok1 Ha1];
      [done|destruct Hw; split; try done; cbn; lia|by rewrite Hst; intros ? <-|done|cbn; by rewrite Hst|unfold stage; cbn; by rewrite Hst|].
    fold n1 in Hok1, Ha1.
    apply wp_bind. eapply (consume_ok others n1); [done|unfold n1; cbn; by rewrite Hst|unfold n1, received; cbn; unfold received in *; lia|].
    intros n2 Hok2 Ha2 Hst2 Hr2 Hw2. apply wp_ret. split; cbn [fst snd].
    + exists others. split; [done|]. split; [lia|]. intros q. rewrite Ha2, Ha1, Hst2. apply He.
    + intros _. unfold measure. rewrite Hst2, !weight_eq, Hr2, Hw2. unfold n1, received, waiting in *. cbn. lia.
    + intros _. rewrite Hst2. exact Hc.
Qed.

Lemma write_advanced others n c : node_ok e others n -> state_ (peer n) = PEER_STATUS_WRITE ->
  count_ok (state_ (peer n)) c -> enough others n c ->
  wp (Peer.status_write c) n (fun run => advanced e others n c (run, c)).
Proof.
  intros Hok Hst Hc He. pose proof Hok as [Hw Hi Hs]. pose proof (nw_follows _ Hw) as Hf.
  unfold Peer.status_write. apply wp_bind, wp_gets, wp_bind, wp_modify, wp_bind, wp_modify. set (next := next_state_ (peer n)) in *.
  set (n1 := set peer _ (set peer _ n)).
  destruct (set_state_ok others n (fun p => p <| state_ := next |> <| next_state_ := PEER_STATE_NEW_CMD |>)) as [Hok1 Ha1].
  { done. } { by destruct Hw. } { by rewrite Hst; intros ? <-. } { done. } { by destruct next. } { unfold stage. cbn. by destruct next. }
  assert (advanced e others n c (false, c) n1) as Hend.
  { split; cbn [fst snd]; [|done..]. exists others. split_and!; [done|done|]. intros q. rewrite Ha1. specialize (He q).
    rewrite Hst in He. change (state_ (peer n1)) with next. unfold spare in *. by destruct next. }
  destruct (bool_decide (next = PEER_STATE_NEW_CMD) && (c <? 32)) eqn:Eb; [|by apply wp_ret].
  apply andb_prop in Eb as [Enx%bool_decide_eq_true Ec%Z.ltb_lt]. apply wp_bind, wp_gets. rewrite Z.geb_leb.
  destruct (Z.leb_spec XIXI_PDU_HEAD_LENGTH (Receive_Buffer.read_data_size_ (read_buffer_ (peer n1)))) as [Hle|_]; [|by apply wp_ret].
  apply wp_bind, wp_modify, wp_ret.
  destruct (set_state_ok others n1 (fun p => p <| state_ := PEER_STATE_READ_HEADER |>)) as [Hok2 Ha2].
  { done. } { by destruct Hw. } { intros st <-. unfold n1. cbn. by rewrite Enx. } { done. } { done. } { unfold stage. cbn. by right. }
  rewrite Hst in Hc. unfold count_ok in Hc. split; cbn [fst snd].
  - exists others. split; [done|]. split; [lia|]. intros q. rewrite Ha2, Ha1. specialize (He q). rewrite Hst in He. exact He.
  - intros _. unfold measure. rewrite Hst. cbn. unfold Peer.weight. cbn. lia.
  - intros _. unfold count_ok. cbn. lia.
Qed.

(** Every round. *)
Lemma round_advanced others n c : node_ok e others n -> (forall p, 0 <= others p) ->
  count_ok (state_ (peer n)) c -> enough others n c -> benign little n = true ->
  wp (Peer.round e little alive conf self unassigned c) n (advanced e others n c).
Proof.
  intros Hok H0' Hc He Hb. unfold Peer.round. apply wp_bind, wp_gets.
  assert (forall m, wp m n (fun run => advanced e others n c (run, c)) -> wp (run ← m; mret (run, c)) n (advanced e others n c)) as Hsame.
  { intros m Hm. apply wp_bind. exact Hm. }
  assert (advanced e others n c (false, c) n) as Hstop.
  { split; cbn [fst snd]; [|done..]. exists others. by split_and!. }
  destruct (state_ (peer n)) eqn:Hst; rewrite <- Hst in Hc.
  - by apply new_cmd_advanced.
  - by apply header_advanced.
  - by apply Hsame, fixed_advanced.
  - by apply Hsame, extras_advanced.
  - by apply Hsame, extras2_advanced.
  - by apply Hsame, swallow_advanced.
  - by apply wp_ret.
  - by apply Hsame, write_advanced.
  - apply Hsame, wp_bind, wp_modify, wp_ret.
    destruct (set_state_ok others n (fun p => p <| state_ := PEER_STATE_CLOSED |>)) as [Hok1 Ha1].
    { done. } { destruct Hok as [Hw _ _]. by destruct Hw. } { by rewrite Hst; intros ? <-. } { done. } { done. } { done. }
    split; cbn [fst snd]; [|done..]. exists others. split_and!; [done|done|]. intros q. rewrite Ha1. specialize (He q). by rewrite Hst in He.
  - by apply wp_ret.
Qed.

(** ** The loop *)

(** The last round counts nothing. *)
Lemma same_count (m : N bool) n (c : Z) : match (run ← m; mret (run, c)) n with Some ((false, c'), _) => c' = c | _ => True end.
Proof. unfold mbind, ST_bind. by destruct (m n) as [[[] n1]|]. Qed.
Lemma last_count n (c : Z) : match Peer.round e little alive conf self unassigned c n with Some ((false, c'), _) => c' = c | _ => True end.
Proof.
  unfold Peer.round.
  unfold mbind at 1, ST_bind at 1. unfold Peer.my, gets. destruct (state_ (peer n)); try apply same_count; try done.
  unfold Peer.read_header. unfold mbind at 1, ST_bind at 1, Peer.data_size, Peer.my, gets. unfold mbind at 1, ST_bind at 1.
  destruct (_ >=? _); [|apply same_count].
  unfold mbind, ST_bind, mret, ST_ret, Peer.data, Peer.my, gets. destruct (Peer.process_header _ _ _) as [[tmp n1]|]; [|done].
  by destruct (Peer.consume tmp n1) as [[]|].
Qed.

(** No round of a run meets a request that [process] is not made for. *)
Fixpoint benign_loop (fuel : nat) (c : Z) (n : node) : bool :=
  benign little n &&
  match fuel with
  | O => true
  | S fuel =>
      match Peer.round e little alive conf self unassigned c n with
      | Some ((true, c), n) => benign_loop fuel c n
      | _ => true
      end
  end.
Definition benign_run (n : node) : bool := benign_loop (Peer.process_fuel n) 0 n.

(** What [process] leaves. *)
Definition ended others n : Prop :=
  exists others', node_ok e others' n /\ (forall p, others p <= others' p) /\ forall p, all_refs others' n p < 2 ^ 15.

Lemma loop_ends fuel others n c : node_ok e others n -> (forall p, 0 <= others p) ->
  count_ok (state_ (peer n)) c -> enough others n c -> benign_loop fuel c n = true -> measure n < Z.of_nat fuel ->
  wp (Peer.process_loop e little alive conf self unassigned fuel c) n (fun _ => ended others).
Proof.
  revert others n c. induction fuel as [|fuel IH]; intros others n c Hok H0' Hc He Hb Hm; cbn [Peer.process_loop benign_loop] in *.
  { unfold measure in Hm. rewrite weight_eq in Hm. pose proof (received_ge _ (ok_wf _ _ _ Hok)). pose proof (waiting_ge n).
    destruct (state_ (peer n)); cbn in Hm; lia. }
  apply andb_prop in Hb as [Hb Hbl]. apply wp_bind.
  destruct (proj1 (wp_run _ _ _) (round_advanced others n c Hok H0' Hc He Hb))
    as ([run c1]&n1&Hrd&[(o'&Hok1&Ho&He1) Hl1 Hc1]).
  pose proof (last_count n c) as Hlast. unfold wp. rewrite Hrd in *. cbn [fst snd] in *. destruct run.
  - eapply wp_mono; [apply (IH o' n1 c1); auto|].
    + intros p. pose proof (H0' p). pose proof (Ho p). lia.
    + specialize (Hl1 eq_refl). lia.
    + intros _ n' (o2&Hok2&Ho2&Hl2). exists o2. split; [done|]. split; [|done]. intros p. pose proof (Ho p). pose proof (Ho2 p). lia.
  - exists o'. split; [done|]. split; [done|]. intros p. specialize (He1 p). subst c1. unfold spare, count_ok in *.
    destruct (state_ (peer n)), (state_ (peer n1)); lia.
Qed.

Lemma process_ends others n : node_ok e others n -> (forall p, 0 <= others p) ->
  (forall p, all_refs others n p + 68 < 2 ^ 15) -> benign_run n = true ->
  wp (Peer.process e little alive conf self unassigned) n (fun _ => ended others).
Proof.
  intros Hok H0' He Hb. unfold Peer.process. apply wp_bind, wp_gets. apply (loop_ends _ others); try done.
  - unfold count_ok. by destruct (state_ (peer n)).
  - intros p. specialize (He p). unfold spare. destruct (state_ (peer n)); lia.
  - unfold measure, Peer.process_fuel. pose proof (received_ge _ (ok_wf _ _ _ Hok)). pose proof (waiting_ge n). rewrite weight_eq.
    destruct (state_ (peer n)); cbn; lia.
Qed.
End rounds2.

Section handlers.
Context (e : endian) (little : bool) `{Table_Malloc} `{Item_Malloc} `{!Item_Malloc_Ok} `{Buffer_Malloc} `{!Buffer_Malloc_Ok} `{Block_Malloc} `{Auth_Library}.
Context (alive : sink -> bool) (conf : settings) (self : sink) (unassigned : Z).
Context (blocks : forall n, malloc_block n = true).
Implicit Types (n : node) (others : holds).
Abbreviation benign_run := (PeerRun.benign_run e little alive conf self unassigned).
(** ** The handlers *)

(** What a handler leaves: the invariant, or a peer that is gone and the references
    of the others. *)
Definition left_ok others n : Prop :=
  exists others', (node_ok e others' n \/ self_ (peer n) = false /\ inv e (cache_mgr_ n) others') /\ forall p, others p <= others' p.

Lemma peer_ok others n (f : Peer_Cache -> Peer_Cache) : node_ok e others n ->
  quiet n (n <| peer ::= f |>) -> state_ (f (peer n)) = state_ (peer n) -> node_ok e others (n <| peer ::= f |>).
Proof.
  intros [Hw Hi Hs] Hq Hst. assert (all_refs others (n <| peer ::= f |>) = all_refs others n) as Ha.
  { unfold all_refs, tot. cbn. rewrite Hst. pose proof (q_item _ _ Hq) as H1'. pose proof (q_items _ _ Hq) as H2'. cbn in H1', H2'.
    by rewrite H1', H2'. }
  split; [by eapply wf_quiet|by rewrite Ha|]. unfold stage in *.
  rewrite Ha, (q_next _ _ Hq), (q_header _ _ Hq), (q_pdu _ _ Hq), (q_at _ _ Hq), (q_item _ _ Hq), (q_buffer _ _ Hq).
  change (state_ (peer (n <| peer ::= f |>))) with (state_ (f (peer n))). rewrite Hst. exact Hs.
Qed.

Lemma handle_processed_ok others n Q : node_ok e others n ->
  (forall n', node_ok e others n' -> all_refs others n' = all_refs others n -> Q tt n') -> wp Peer.handle_processed n Q.
Proof.
  intros [Hw Hi Hs] HQ. destruct (Receive_BufferFacts.handle_processed_spec Peer.DEFAULT_SIZE Peer.HIGHWAT_SIZE) with (read_buffer_ (peer n))
    as (b&Hb&Hwf&Hd&_&_); [done|done|done|apply Hw|].
  apply wp_bind, wp_gets, wp_bind. eapply wp_the; [exact Hb|]. apply wp_modify.
  replace (set peer _ n) with (with_input b (socket_ n) n) by (by destruct n).
  assert (received (with_input b (socket_ n) n) = received n) as Hr.
  { unfold received. cbn. rewrite <- (Receive_BufferFacts.data_length Peer.DEFAULT_SIZE b), Hd by done. by apply data_received. }
  apply HQ; [|done]. split; [apply wf_input; [done|done|rewrite Hd; apply Hw|apply Hw]|exact Hi|].
  apply stage_input; [done|lia].
Qed.

(** What is under way is nothing to the invariant. *)
Lemma io_ok others n (r : bool) (w : option (list const_buffer)) : node_ok e others n ->
  node_ok e others (n <| reading_ := r |> <| writing_ := w |>).
Proof. intros [Hw Hi Hs]. split; [by destruct Hw|done|done]. Qed.

Lemma try_read_ok others n : node_ok e others n ->
  wp Peer.try_read n (fun _ n' => node_ok e others n' /\ all_refs others n' = all_refs others n).
Proof.
  intros Hok. unfold Peer.try_read. apply wp_bind, wp_gets. case_match; [|by apply wp_ret].
  apply wp_bind, wp_modify, wp_bind. eapply handle_processed_ok; [apply peer_ok; [exact Hok|by split|done]|].
  intros n' Hok' Ha'. apply wp_modify. split; [exact (io_ok others n' true (writing_ n') Hok')|exact Ha'].
Qed.
Lemma try_write_ok others n : node_ok e others n ->
  wp Peer.try_write n (fun _ n' => node_ok e others n' /\ all_refs others n' = all_refs others n).
Proof.
  intros Hok. unfold Peer.try_write. apply wp_bind, wp_gets, wp_bind, wp_gets. case_match; [|by apply wp_ret].
  apply wp_bind, wp_modify, wp_bind, wp_modify, wp_bind, wp_modify, wp_ret. split; [|done]. apply peer_ok; [|by split|done].
  apply (peer_ok others _ (fun p => p <| op_count_ ::= fun c => c + 1 |>)) in Hok; [|by split|done].
  exact (io_ok _ _ (reading_ n) (Some (write_buf_ (peer n))) Hok).
Qed.

Lemma go_on_ok others n : node_ok e others n -> (forall p, 0 <= others p) ->
  (forall p, all_refs others n p + 68 < 2 ^ 15) -> benign_run n = true ->
  wp (Peer.process_and_go_on e little alive conf self unassigned) n (fun _ => ended e others).
Proof.
  intros Hok H0' He Hb. apply wp_bind. eapply wp_mono; [by apply process_ends|]. intros [] n1 (o'&Hok1&Ho&Hl).
  assert (forall m, wp m n1 (fun _ n' => node_ok e o' n' /\ all_refs o' n' = all_refs o' n1) ->
    wp m n1 (fun _ : unit => ended e others)) as Hm.
  { intros m Hm. eapply wp_mono; [exact Hm|]. intros [] n2 [Hok2 Ha2]. exists o'. by rewrite Ha2. }
  apply wp_bind, wp_gets. case_match; [|case_match; [apply wp_ret; by exists o'|]].
  - apply Hm, wp_bind. eapply wp_mono; [by apply try_write_ok|]. intros b n2 Hok2. by apply wp_ret.
  - apply wp_bind. eapply wp_mono; [by apply try_write_ok|]. intros [] n2 [Hok2 Ha2].
    + apply wp_ret. exists o'. by rewrite Ha2.
    + eapply wp_mono; [by apply try_read_ok|]. intros [] n3 [Hok3 Ha3]. exists o'. by rewrite Ha3, Ha2.
Qed.

(** The end of a peer: its items are given back; an item that was being read is
    not. *)
Lemma destroy_gives others n : node_ok e others n -> (forall p, 0 <= others p) -> (forall p, all_refs others n p < 2 ^ 15) ->
  wp (Peer.destroy self) n (fun _ n' => self_ (peer n') = false /\ exists o', (forall p, others p <= o' p) /\
    (forall p, all_refs others n p = plus o' (refs_of (cache_items_ (peer n))) p) /\ inv e (cache_mgr_ n') o').
Proof.
  intros [Hw Hi _] H0' Hroom.
  assert (exists o', (forall p, others p <= o' p) /\ forall p, all_refs others n p = plus o' (refs_of (cache_items_ (peer n))) p) as (o'&Ho&Ha).
  { unfold all_refs. assert (exists o', (forall p, others p <= o' p) /\ forall p, tot others n p = plus o' (refs_of (cache_items_ (peer n))) p) as Hd
      by (exists others; split; [lia|done]).
    destruct (state_ (peer n)); try exact Hd. destruct (cache_item_ (peer n)) as [p|]; [|exact Hd].
    exists (give p 1 others). split; intros q; unfold tot, plus, give; case_decide; lia. }
  unfold Peer.destroy, Peer.cleanup. apply wp_bind, wp_bind, wp_modify, wp_bind, wp_gets. set (n1 := set peer _ n).
  apply wp_bind. eapply wp_mono; [apply (release_items_spec e self o')|].
  - eapply inv_held; [|exact Hi]. intros q. by rewrite Ha.
  - intros q. change (cache_items_ (peer n1)) with (cache_items_ (peer n)). rewrite <- Ha. apply Hroom.
  - intros q. pose proof (H0' q). pose proof (Ho q). lia.
  - intros [] n2 (Hq2&Hst2&Hi2). apply wp_modify, wp_bind. unfold Peer.stats_conn. apply wp_cache. apply wp_on, wp_modify.
    intros n3 Hq3 Hs3 _ _. apply wp_modify. split; [done|]. exists o'. split; [done|]. split; [done|]. cbn. rewrite Hs3.
    by apply inv_stats, (s_stats _ (proj2 Hi2)).
Qed.
Lemma destroy_ok others n : node_ok e others n -> (forall p, 0 <= others p) -> (forall p, all_refs others n p < 2 ^ 15) ->
  wp (Peer.destroy self) n (fun _ => left_ok others).
Proof.
  intros Hok H0' Hr. eapply wp_mono; [by apply destroy_gives|]. intros [] n' (Hs&o'&Ho&_&Hi). exists o'. split; [|done]. by right.
Qed.
End handlers.

Section completions.
Context (e : endian) (little : bool) `{Table_Malloc} `{Item_Malloc} `{!Item_Malloc_Ok} `{Buffer_Malloc} `{!Buffer_Malloc_Ok} `{Block_Malloc} `{Auth_Library}.
Context (alive : sink -> bool) (conf : settings) (self : sink) (unassigned : Z).
Context (blocks : forall n, malloc_block n = true).
Implicit Types (n : node) (others : holds).
Abbreviation benign_run := (PeerRun.benign_run e little alive conf self unassigned).
(** The bound on the references of an item that is enough for a handler: what a run
    of [process] can take. *)
Definition few_refs others n : Prop := forall p, all_refs others n p + 68 < 2 ^ 15.

Lemma close_ok others n : (forall p, 0 <= others p) -> ended e others n -> wp (Peer.close_when_idle self) n (fun _ => left_ok e others).
Proof.
  intros H0' (o'&Hok&Ho&Hl). unfold Peer.close_when_idle. apply wp_bind, wp_gets, wp_bind, wp_gets. case_match.
  - eapply wp_mono; [apply (destroy_ok e self o'); [done| |done]|].
    + intros p. pose proof (H0' p). pose proof (Ho p). lia.
    + intros [] n' (o2&Hl2&Ho2). exists o2. split; [done|]. intros p. pose proof (Ho p). pose proof (Ho2 p). lia.
  - apply wp_ret. exists o'. split; [by left|done].
Qed.

(** What arrives: bytes, and no more than there is room for. *)
Definition arrives (d : bytes) n : Prop :=
  Forall is_byte d /\ Z.of_nat (length d) <= Receive_Buffer.get_read_buf_size (read_buffer_ (peer n)).
(** The node that has received them. *)
Definition with_data (d : bytes) n : node :=
  n <| peer ::= fun p => p <| read_buffer_ := default (read_buffer_ p) (Receive_Buffer.received d (read_buffer_ p)) |> |>.

Lemma received_ok others n d Q : node_ok e others n -> arrives d n ->
  (node_ok e others (with_data d n) -> all_refs others (with_data d n) = all_refs others n -> Q tt (with_data d n)) ->
  wp (Peer.on_read_buffer (Receive_Buffer.received d)) n Q.
Proof.
  intros [Hw Hi Hs] [Hd Hl] HQ.
  destruct (Receive_BufferFacts.received_spec Peer.DEFAULT_SIZE d (read_buffer_ (peer n))) as (b&Hb&Hwf&Hdat&Hsz); [apply Hw|done|].
  assert (with_data d n = with_input b (socket_ n) n) as Hn by (unfold with_data, with_input, set; cbn; by rewrite Hb).
  apply wp_bind, wp_gets, wp_bind. eapply wp_the; [exact Hb|]. apply wp_modify.
  replace (set peer _ n) with (with_data d n) by (rewrite Hn; by destruct n). rewrite Hn in *. apply HQ; [|done].
  split; [apply wf_input; [done|done|rewrite Hdat; apply Forall_app; split; [apply Hw|done]|apply Hw]|exact Hi|].
  apply stage_input; [done|]. unfold received. cbn. rewrite Hsz. lia.
Qed.

Lemma start_ok others n d : node_ok e others n -> (forall p, 0 <= others p) -> few_refs others n -> Forall is_byte d ->
  benign_run (with_data d n) = true ->
  wp (Peer.start e little alive conf self unassigned d) n (fun _ => left_ok e others).
Proof.
  intros Hok H0' He Hd Hb. assert (forall p, all_refs others n p < 2 ^ 15) as Hr by (intros p; specialize (He p); lia).
  apply wp_bind, wp_gets, wp_bind. rewrite Z.geb_leb. destruct (Z.leb_spec (Z.of_nat (length d)) (Receive_Buffer.get_read_buf_size (read_buffer_ (peer n)))).
  - apply wp_bind. eapply (received_ok others n); [done|by split|]. intros Hok1 Ha1.
    eapply wp_mono; [apply (go_on_ok e little alive conf self unassigned blocks others); [done|done| |done]|].
    + intros p. rewrite Ha1. apply He.
    + intros [] n1 Hen. by apply close_ok.
  - apply wp_ret. apply close_ok; [done|]. by exists others.
Qed.

Lemma op_ok others n (r : bool) (w : option (list const_buffer)) : node_ok e others n ->
  node_ok e others (n <| reading_ := r |> <| writing_ := w |> <| peer ::= fun p => p <| op_count_ ::= fun c => c - 1 |> |>).
Proof. intros Hok. apply peer_ok; [by apply io_ok|by split|done]. Qed.

(** The node when a read or a write is completed. *)
Definition read_done n : node := n <| reading_ := false |> <| peer ::= fun p => p <| op_count_ ::= fun c => c - 1 |> |>.
Definition write_done n : node := n <| writing_ := None |> <| peer ::= fun p => p <| op_count_ ::= fun c => c - 1 |> |>.

Lemma handle_read_ok others n got : node_ok e others n -> (forall p, 0 <= others p) -> few_refs others n ->
  (forall d, got = Some d -> arrives d n /\ benign_run (with_data d (read_done n)) = true) ->
  wp (Peer.handle_read e little alive conf self unassigned got) n (fun _ => left_ok e others).
Proof.
  intros Hok H0' He Hg. assert (forall p, all_refs others n p < 2 ^ 15) as Hr by (intros p; specialize (He p); lia).
  apply wp_bind, wp_modify, wp_bind, wp_modify, wp_bind. change (set peer _ _) with (read_done n).
  assert (node_ok e others (read_done n)) as Hok1 by exact (op_ok others n false (writing_ n) Hok).
  destruct got as [d|].
  - destruct (Hg d eq_refl) as [Hd Hb]. apply wp_bind. eapply (received_ok others (read_done n)); [done|exact Hd|]. intros Hok2 Ha2.
    eapply wp_mono; [apply (go_on_ok e little alive conf self unassigned blocks others); [done|done| |done]|].
    + intros p. rewrite Ha2. apply He.
    + intros [] n1 Hen. by apply close_ok.
  - apply wp_ret, close_ok; [done|]. by exists others.
Qed.

Lemma handle_write_ok others n ok : node_ok e others n -> (forall p, 0 <= others p) -> few_refs others n ->
  (ok = true -> benign_run (write_done n) = true) ->
  wp (Peer.handle_write e little alive conf self unassigned ok) n (fun _ => left_ok e others).
Proof.
  intros Hok H0' He Hb. assert (forall p, all_refs others n p < 2 ^ 15) as Hr by (intros p; specialize (He p); lia).
  apply wp_bind, wp_modify, wp_bind, wp_modify, wp_bind. change (set peer _ _) with (write_done n).
  assert (node_ok e others (write_done n)) as Hok1 by exact (op_ok others n (reading_ n) None Hok).
  destruct ok.
  - eapply wp_mono; [apply (go_on_ok e little alive conf self unassigned blocks others); [done|done|exact He|by apply Hb]|].
    intros [] n1 Hen. by apply close_ok.
  - apply wp_ret, close_ok; [done|]. by exists others.
Qed.
End completions.

Section timer.
Context (e : endian) (little : bool) `{Table_Malloc} `{Item_Malloc} `{!Item_Malloc_Ok} `{Buffer_Malloc} `{!Buffer_Malloc_Ok} `{Block_Malloc} `{Auth_Library}.
Context (alive : sink -> bool) (conf : settings) (self : sink) (unassigned : Z).
Context (blocks : forall n, malloc_block n = true).
Implicit Types (n : node) (others : holds).
Abbreviation benign_run := (PeerRun.benign_run e little alive conf self unassigned).
(** The timer, in the state that waits for it. *)
Lemma handle_timer_ok others n : node_ok e others n -> (forall p, 0 <= others p) -> few_refs others n ->
  state_ (peer n) = PEER_STATUS_ASYNC_WAIT -> timer_ (peer n) <> [] ->
  wp (Peer.handle_timer little alive self unassigned) n (fun _ => left_ok e others).
Proof.
  intros [Hw Hi Hs] H0' He Hst Ht. assert (all_refs others n = tot others n) as Ha by (apply all_refs_tot; by rewrite Hst).
  rewrite Ha in Hi. unfold few_refs in He. rewrite Ha in He.
  apply wp_bind, wp_gets, wp_bind. destruct (timer_ (peer n)) as [|w ws]; [done|]. eapply wp_the; [done|].
  apply wp_bind, wp_modify. set (n1 := set peer _ n). assert (quiet n n1) as Hq1 by by split.
  assert (resting e others n1) as Hr1 by (split; [by eapply wf_quiet|exact Hi]).
  apply wp_bind, wp_cache.
  pose proof (plain_safe e alive conf (Clear_watch (Some self) w.1) (Mgr.check_watch_and_clear_callback alive (Some self) w.1 no_answer)
    Answered (cache_mgr_ n1) (tot others n1) eq_refl ltac:(done) (proj2 Hr1) ltac:(intros q; specialize (He q); unfold tot in *; cbn; lia) I) as Hm.
  apply (wp_mono _ _ _ _ Hm). intros a s (h&Hih&Hg) n2 Hq2 Hs2 _ _.
  assert (forall k : N unit, (forall n2, wp k n2 (fun _ n' => quiet n2 n' /\ cache_mgr_ n' = cache_mgr_ n2 /\
      (state_ (peer n') = PEER_STATUS_WRITE \/ state_ (peer n') = PEER_STATE_NEW_CMD))) ->
    wp (k ;; Peer.try_write ;; mret tt) n2 (fun _ => left_ok e others)) as Hend.
  { intros k Hk. apply wp_bind. eapply wp_mono; [apply Hk|]. intros [] n3 (Hq3&Hs3&Hst3).
    assert (quiet n n3) as Hq by eauto with peer.
    set (o' := fun q => h q - refs_of (cache_items_ (peer n)) q).
    assert (forall q, others q <= o' q) as Ho.
    { intros q. pose proof (Hg q) as Hgq. unfold o', tot, plus in *. cbn in Hgq. lia. }
    assert (node_ok e o' n3) as Hok3.
    { split; [by eapply wf_quiet| |unfold stage; by destruct Hst3 as [-> | ->]].
      rewrite all_refs_tot by (by destruct Hst3 as [-> | ->]). eapply inv_held; [|rewrite Hs3, Hs2; exact Hih].
      intros q. unfold tot, plus, o'. rewrite (q_items _ _ Hq). lia. }
    apply wp_bind. eapply wp_mono; [by apply try_write_ok|]. intros b n4 [Hok4 _]. apply wp_ret. exists o'. split; [by left|done]. }
  destruct a as [a|]; apply Hend; intros n3.
  - apply wp_bind, wp_prepare; [done|]. intros pl n4 (Hq4&Hs4&_). apply wp_bind, wp_respond_with. intros n5 (Hq5&Hs5&_).
    apply wp_bind, wp_modify, wp_modify. split; [|split; [cbn; congruence|by right]].
    eapply quiet_trans; [exact Hq4|]. eapply quiet_trans; [exact Hq5|]. by split.
  - apply wp_write_error; [done|lia|]. intros n4 (Hq4&Hs4&Hst4&_).
    split; [done|]. split; [done|by left].
Qed.
End timer.
