(* ===== verification/PeerServe.v ===== *)
(** * The requests of a connection, served

    From the bytes of a request in the receive buffer to the bytes that are handed to
    the socket: the rounds of [process] that read one request and answer it are the
    request of the reference, decoded, done and encoded. *)

From S2P Require Import Prelude XixiList XixiHashMap Lookup3 Util CurrTime Pdu Stats Watch Slab Cache CacheInv CacheSpec CacheOps CacheData CacheSweep CacheStore CacheRun CacheProps Buffers Auth Peer PeerFacts PeerRun.
Import Cache_Watch.

(** ** From the bytes of a request to the bytes of its response *)
Section serve.
Context (e : endian) (little : bool) `{Table_Malloc} `{Item_Malloc} `{!Item_Malloc_Ok} `{Buffer_Malloc} `{!Buffer_Malloc_Ok} `{Block_Malloc} `{Auth_Library}.
Context (alive : sink -> bool) (conf : settings) (self : sink) (unassigned : Z).
Context (blocks : forall n, malloc_block n = true).
Implicit Types (n : node) (others : holds).
Abbreviation round := (Peer.round e little alive conf self unassigned).
Abbreviation process_loop := (Peer.process_loop e little alive conf self unassigned).

Lemma loop_round fuel c n c' n' : round c n = Some ((true, c'), n') -> process_loop (S fuel) c n = process_loop fuel c' n'.
Proof. intros Hr. cbn [Peer.process_loop]. unfold mbind, ST_bind. by rewrite Hr. Qed.
Lemma wp_round c n c' n' : wp (round c) n (fun r n1 => r = (true, c') /\ n1 = n') -> round c n = Some ((true, c'), n').
Proof. intros (r&n1&->&->&->)%wp_run. done. Qed.

(** The bytes of a request before its key and its data. *)
Definition wire (r : Pdu.request) : bytes := be_bytes 2 (request_choice r) ++ request_body r.
(** The peer that has read its choice, and the whole of [wire]. *)
Definition headed (r : Pdu.request) (n : node) : node :=
  n <| peer ::= fun p => p <| read_pdu_header_ := request_choice r |> <| next_data_len_ := request_fixed_size r |>
    <| state_ := PEER_STATE_READ_BODY_FIXED |> |>.
Definition decoded (r : Pdu.request) (n : node) : node := (headed r n) <| peer ::= fun p => p <| read_pdu_ := Some r |> |>.

(** The first round reads the choice. *)
Lemma header_round n c r tail :
  node_wf n -> state_ (peer n) = PEER_STATE_READ_HEADER -> next_data_len_ (peer n) = XIXI_PDU_HEAD_LENGTH ->
  Receive_Buffer.data (read_buffer_ (peer n)) = wire r ++ tail ->
  Peer.fixed_body_size (request_choice r) = Some (request_fixed_size r) ->
  exists b, Receive_Buffer.wf Peer.DEFAULT_SIZE b /\ Receive_Buffer.data b = request_body r ++ tail /\
    round c n = Some ((true, u32 (c + 1)), with_input b (socket_ n) (headed r n)).
Proof.
  intros Hw Hst Hnx Hd Hfs. pose proof (data_received n Hw) as Hlen. rewrite Hd in Hlen.
  unfold wire in Hlen. rewrite !length_app, be_bytes_length in Hlen. pose proof (fixed_size_range _ _ Hfs) as Hfr.
  assert (node_wf (headed r n)) as Hw1 by (destruct Hw; split; try done; cbn; lia).
  assert (wp (round c) n (fun res n' => res = (true, u32 (c + 1)) /\ exists b1, Receive_Buffer.wf Peer.DEFAULT_SIZE b1 /\
    Receive_Buffer.data b1 = request_body r ++ tail /\ n' = with_input b1 (socket_ n) (headed r n))) as Hwp.
  { unfold Peer.round. apply wp_bind, wp_gets. rewrite Hst. unfold Peer.read_header. apply wp_bind, wp_gets, wp_bind, wp_gets.
    fold (received n). rewrite Hnx, (proj2 (Z.geb_le _ _)) by (unfold XIXI_PDU_HEAD_LENGTH, XIXI_PDU_CHOICE_LENGTH; lia).
    apply wp_bind, wp_gets. rewrite Hd. apply wp_bind. unfold Peer.process_header, wire. rewrite <- app_assoc.
    unfold Header.decode. rewrite rd16_be by (by destruct r). apply wp_bind, wp_modify, wp_bind. rewrite Hfs.
    apply wp_bind, wp_modify, wp_modify, wp_ret. apply wp_bind.
    change (set peer _ _) with (headed r n). eapply (wp_consume _ (headed r n)); [done|unfold received; cbn; unfold XIXI_PDU_HEAD_LENGTH, XIXI_PDU_CHOICE_LENGTH; fold (received n); lia|].
    intros n2 b1 -> [Hwf _ _ _ _] _ Hdb. apply wp_ret. split; [done|]. exists b1. split; [exact Hwf|]. split; [|done].
    rewrite Hdb. unfold headed. cbn -[drop]. rewrite Hd. unfold wire. rewrite <- app_assoc. apply drop_app_length'. by rewrite be_bytes_length. }
  apply wp_run in Hwp as (res&n'&Heq&->&b1&?&?&->). by exists b1.
Qed.

(** The second reads the fixed body, and hands it to its handler. *)
Lemma fixed_round n c r tail b1 (Q : node -> Prop) :
  node_wf n -> Receive_Buffer.wf Peer.DEFAULT_SIZE b1 -> Receive_Buffer.data b1 = request_body r ++ tail ->
  Forall is_byte (request_body r ++ tail) -> request_wf r ->
  Peer.fixed_body_size (request_choice r) = Some (request_fixed_size r) ->
  (forall b, Receive_Buffer.wf Peer.DEFAULT_SIZE b -> Receive_Buffer.data b = tail ->
     wp (Peer.process_pdu_fixed little alive conf self unassigned r) (with_input b (socket_ n) (decoded r n)) (fun _ n' => Q n')) ->
  exists n', round c (with_input b1 (socket_ n) (headed r n)) = Some ((true, c), n') /\ Q n'.
Proof.
  intros Hw Hwf1 Hd1 Hby Hr Hfs HQ. pose proof (fixed_size_range _ _ Hfs) as Hfr. pose proof (request_body_length r) as Hbl.
  set (n1 := with_input b1 (socket_ n) (headed r n)).
  assert (node_wf n1) as Hw1.
  { apply wf_input; [|done|by rewrite Hd1|apply Hw]. destruct Hw; split; try done; cbn; lia. }
  assert (received n1 = Z.of_nat (length (request_body r ++ tail))) as Hr1 by (rewrite <- Hd1; symmetry; by apply (data_received n1)).
  rewrite length_app in Hr1.
  assert (wp (round c) n1 (fun res n' => res = (true, c) /\ Q n')) as Hwp.
  { unfold Peer.round. apply wp_bind, wp_gets. change (state_ (peer n1)) with PEER_STATE_READ_BODY_FIXED. cbv beta iota. apply wp_bind.
    unfold Peer.read_body_fixed. apply wp_bind, wp_gets, wp_bind, wp_gets. fold (received n1).
    change (next_data_len_ (peer n1)) with (request_fixed_size r). rewrite (proj2 (Z.geb_le _ _)) by lia.
    apply wp_bind, wp_gets, wp_bind, wp_gets. change (Receive_Buffer.data (read_buffer_ (peer n1))) with (Receive_Buffer.data b1).
    change (read_pdu_header_ (peer n1)) with (request_choice r). rewrite Hd1, decode_request by done.
    apply wp_bind. eapply (wp_consume _ n1); [done|lia|]. intros n2 b2 -> [Hwf _ _ _ _] _ Hdb.
    apply wp_bind, wp_bind, wp_modify. apply (wp_mono _ _ (fun _ n' => Q n')); [|intros [] n' HQ'; by apply wp_ret, wp_ret].
    refine (eq_rect _ (fun m => wp _ m _) (HQ b2 Hwf _) _ _).
    - rewrite Hdb. change (Receive_Buffer.data (read_buffer_ (peer n1))) with (Receive_Buffer.data b1). rewrite Hd1.
      apply drop_app_length'. lia.
    - unfold n1, headed, decoded, with_input. by destruct n. }
  apply wp_run in Hwp as (res&n'&Heq&->&?). by exists n'.
Qed.

(** The peer waits for a request, and the whole of one has come. *)
Record asked (r : Pdu.request) (payload rest : bytes) others n : Prop := {
  as_ok : node_ok e others n;
  as_state : state_ (peer n) = PEER_STATE_READ_HEADER;
  as_next : next_data_len_ (peer n) = XIXI_PDU_HEAD_LENGTH;
  as_data : Receive_Buffer.data (read_buffer_ (peer n)) = wire r ++ payload ++ rest;
  as_request : request_wf r;
  as_refs : roomy (all_refs others n)
}.

Lemma two_rounds n c r payload rest others (Q : node -> Prop) :
  asked r payload rest others n -> Peer.fixed_body_size (request_choice r) = Some (request_fixed_size r) ->
  (forall b, Receive_Buffer.wf Peer.DEFAULT_SIZE b -> Receive_Buffer.data b = payload ++ rest ->
     wp (Peer.process_pdu_fixed little alive conf self unassigned r) (with_input b (socket_ n) (decoded r n)) (fun _ n' => Q n')) ->
  exists n', (forall fuel, process_loop (S (S fuel)) c n = process_loop fuel (u32 (c + 1)) n') /\ Q n'.
Proof.
  intros [[Hw _ _] Hst Hnx Hd Hr _] Hfs HQ.
  destruct (header_round n c r _ Hw Hst Hnx Hd Hfs) as (b1&Hwf1&Hd1&Hr1).
  destruct (fixed_round n (u32 (c + 1)) r (payload ++ rest) b1 Q) as (n'&Hr2&HQ'); try done.
  { pose proof (nw_bytes _ Hw) as Hby. rewrite Hd in Hby. unfold wire in Hby. rewrite <- app_assoc in Hby. by apply Forall_app in Hby as [_ ?]. }
  exists n'. split; [|done]. intros fuel. by rewrite (loop_round _ _ _ _ _ Hr1), (loop_round _ _ _ _ _ Hr2).
Qed.

(** What an encoder writes is what is fetched. *)
Lemma lookup_store block a b m i : (i < length b)%nat -> Peer.store block a b m !! (block, a + Z.of_nat i) = b !! i.
Proof.
  revert a i. induction b as [|x b IH]; intros a i Hi; [cbn in Hi; lia|]. cbn. destruct i as [|i].
  - rewrite Z.add_0_r. apply lookup_insert_eq.
  - rewrite lookup_insert_ne by (intros [=]; lia). replace (a + Z.of_nat (S i)) with (a + 1 + Z.of_nat i) by lia. apply IH. cbn in Hi. lia.
Qed.
Lemma fetch_stored block a b m n : cache_mem_ (peer n) = Peer.store block a b m ->
  Peer.fetch n (In_cache_buf (Cache_Buffer.mkplace block a) (Z.of_nat (length b))) = Some b.
Proof.
  intros Hm. unfold Peer.fetch. rewrite Hm. apply mapM_Some, Forall2_same_length_lookup. rewrite length_seqZ, Nat2Z.id. split; [done|].
  intros i x y [-> Hi]%lookup_seqZ Hy. cbn. rewrite Z.add_0_l, lookup_store by lia. exact Hy.
Qed.

(** The same calls as before, with all they do. *)
Lemma wp_cache_exact {A} (m : M A) n (Q : A -> node -> Prop) :
  wp m (cache_mgr_ n) (fun a s => forall t b, Q a (n <| cache_mgr_ := s |> <| peer ::= fun p => p <| timer_ := t |> <| timer_flag_ := b |> |>)) ->
  wp (Peer.cache self m) n Q.
Proof.
  unfold wp, Peer.cache. destruct (m (cache_mgr_ n)) as [[a s]|]; [|done]. intros HQ.
  set (k := length _). destruct (notified (peer n) k) as (t&b&Hk). unfold set. cbn. rewrite Hk. apply HQ.
Qed.
Lemma wp_prepare_exact size n (Q : option Cache_Buffer.place -> node -> Prop) :
  (forall p cb, Q (Some p) (n <| peer ::= fun p => p <| cache_buf_ := cb |> |>)) -> wp (Peer.prepare size) n Q.
Proof.
  intros HQ. unfold wp, Peer.prepare. set (r := Cache_Buffer.prepare _ _ _ _). assert (exists p, r.1 = Some p) as [p ->].
  { unfold r, Cache_Buffer.prepare. rewrite blocks. repeat case_match; cbn; eauto. }
  apply HQ.
Qed.

(** The response a handler adds to those that wait. *)
Record responds (resp : bytes) n n' : Prop := {
  rs_state : state_ (peer n') = PEER_STATUS_WRITE;
  rs_next : next_state_ (peer n') = PEER_STATE_NEW_CMD;
  rs_buffer : read_buffer_ (peer n') = read_buffer_ (peer n);
  rs_bufs : exists bufs, write_buf_ (peer n') = write_buf_ (peer n) ++ bufs /\ (fun l => concat l) <$> mapM (Peer.fetch n') bufs = Some resp
}.

(** It is queued in a buffer of its own. *)
Record queued (resp : bytes) n n' : Prop := {
  qd_state : state_ (peer n') = PEER_STATUS_WRITE;
  qd_next : next_state_ (peer n') = PEER_STATE_NEW_CMD;
  qd_buffer : read_buffer_ (peer n') = read_buffer_ (peer n);
  qd_cache : cache_mgr_ n' = cache_mgr_ n;
  qd_buf : exists p m, write_buf_ (peer n') = write_buf_ (peer n) ++ [In_cache_buf p (Z.of_nat (length resp))] /\
    cache_mem_ (peer n') = Peer.store (Cache_Buffer.block p) (Cache_Buffer.at_ p) resp m
}.
Lemma queued_fetch resp n n' n2 : queued resp n n' -> cache_mem_ (peer n2) = cache_mem_ (peer n') ->
  exists bufs, write_buf_ (peer n') = write_buf_ (peer n) ++ bufs /\ (fun l => concat l) <$> mapM (Peer.fetch n2) bufs = Some resp.
Proof.
  intros [_ _ _ _ (p&m&Hw&Hm)] Hn. exists [In_cache_buf p (Z.of_nat (length resp))]. split; [exact Hw|]. cbn [mapM].
  rewrite <- Hn in Hm. destruct p as [blk a]. cbn in Hm. rewrite (fetch_stored _ _ _ _ _ Hm). cbn. by rewrite app_nil_r.
Qed.
Lemma queued_responds resp n n' : queued resp n n' -> responds resp n n' /\ cache_mgr_ n' = cache_mgr_ n.
Proof. intros Hq. split; [split; try apply Hq; by eapply queued_fetch|apply Hq]. Qed.

Lemma respond_keeps size b n : wp (Peer.respond size b) n (fun _ n' =>
  cache_mgr_ n' = cache_mgr_ n /\ (Z.of_nat (length b) = size -> queued b n n')).
Proof.
  unfold Peer.respond. apply wp_bind, wp_prepare_exact. intros [blk a] cb. unfold Peer.respond_with, Peer.encode, Peer.add_write_buf.
  apply wp_bind, wp_bind, wp_bind, (wp_the _ (Cache_Buffer.mkplace blk a)); [done|].
  apply wp_bind, wp_modify, wp_ret, wp_modify, wp_bind, wp_modify, wp_modify.
  split; [done|]. intros <-. split; try done. eexists _, _. split; reflexivity.
Qed.
Lemma respond_queues size b n : Z.of_nat (length b) = size -> wp (Peer.respond size b) n (fun _ => queued b n).
Proof. intros Hl. eapply wp_mono; [apply respond_keeps|]. intros [] n' [_ Hq]. by apply Hq. Qed.
Lemma error_size reason : Z.of_nat (length (Error_Res_encode little reason)) = XIXI_PDU_ERROR_RES_LENGTH.
Proof. unfold Error_Res_encode. by rewrite !encode16_be, length_app, !be_bytes_length. Qed.
Lemma get_res_size a b c d : Z.of_nat (length (Get_Res_encode little a b c d)) = Get_Res_calc_encode_size.
Proof. unfold Get_Res_encode. by rewrite encode16_be, encode64_be, !encode32_be, !length_app, !be_bytes_length. Qed.

Lemma error_queues reason n : wp (Peer.write_error little reason 0 true) n (fun _ => queued (Error_Res_encode little reason) n).
Proof.
  unfold Peer.write_error. apply wp_bind, wp_prepare_exact. intros [blk a] cb. unfold Peer.respond_with, Peer.encode, Peer.add_write_buf.
  apply wp_bind, wp_bind, wp_bind, (wp_the _ (Cache_Buffer.mkplace blk a)); [done|].
  apply wp_bind, wp_modify, wp_ret, wp_modify, wp_bind, wp_modify. cbn [Z.gtb Z.compare]. apply wp_modify.
  split; try done. rewrite <- (error_size reason). eexists _, _. split; reflexivity.
Qed.
Lemma error_responds reason n : wp (Peer.write_error little reason 0 true) n (fun _ n' =>
  responds (Error_Res_encode little reason) n n' /\ cache_mgr_ n' = cache_mgr_ n).
Proof. eapply wp_mono; [apply error_queues|]. intros [] n'. apply queued_responds. Qed.

Lemma item_responds p x it n : heap (cache_mgr_ n) !! p = Some it -> item_wf (slab_ (cache_mgr_ n)) it ->
  wp (Peer.respond_item little self p x) n (fun _ n' =>
    responds (Get_Res_encode little (cache_id it) (flags it) x (Z.of_nat (length (data_of it))) ++ data_of it) n n' /\
    cache_mgr_ n' = cache_mgr_ n).
Proof.
  intros Hit Hwf. destruct (get_data_wf _ _ Hwf) as [Hd Hl]. rewrite Hl. unfold Peer.respond_item.
  apply wp_bind, wp_modify, wp_bind, wp_prepare_exact. intros [blk a] cb. apply wp_bind, wp_cache_exact.
  eapply wp_item; [exact Hit|]. intros t b. unfold Peer.respond_with, Peer.encode, Peer.add_write_buf.
  apply wp_bind, wp_bind, wp_bind, (wp_the _ (Cache_Buffer.mkplace blk a)); [done|].
  apply wp_bind, wp_modify, wp_ret, wp_modify, wp_bind, wp_modify, wp_bind, wp_modify, wp_modify.
  split; [|done]. split; [done..|]. eexists. split; [cbn; rewrite <- app_assoc; reflexivity|].
  rewrite <- (get_res_size (cache_id it) (flags it) x (Cache.data_size it)). cbn [mapM app].
  erewrite fetch_stored by reflexivity. cbn. rewrite Hit. unfold Item.get_data in Hd. rewrite Hd. cbn. by rewrite app_nil_r.
Qed.

(** ** The requests with a key *)

(** The peer that has read all but the key. *)
Definition framed (r : Pdu.request) (kl : Z) (n : node) : node :=
  (decoded r n) <| peer ::= fun p => p <| next_data_len_ := kl |> <| state_ := PEER_STATE_READ_BODY_EXTRAS2 |> |>.

Lemma keyed_size r kl : extras_length r = Some kl -> Peer.fixed_body_size (request_choice r) = Some (request_fixed_size r) /\
  forall n, Peer.process_pdu_fixed little alive conf self unassigned r n = Peer.to_extras2 kl n.
Proof. destruct r; intros [= <-]; split; try done; by vm_compute. Qed.

(** The third round: the handler has the key, and the rest stays. *)
Lemma third_round n c r kl key rest b (Q : node -> Prop) :
  node_wf n -> Receive_Buffer.wf Peer.DEFAULT_SIZE b -> Receive_Buffer.data b = key ++ rest -> Z.of_nat (length key) = kl ->
  let n2 := with_input b (socket_ n) (framed r kl n) in
  wp (Peer.process_pdu_extras2 e little alive self (Some r) (key ++ rest)) n2 (fun tmp n' => tmp = kl /\
    read_buffer_ (peer n') = b /\ forall b', Receive_Buffer.data b' = rest -> Q (n' <| peer ::= fun p => p <| read_buffer_ := b' |> |>)) ->
  exists n', round c n2 = Some ((true, c), n') /\ Q n'.
Proof.
  intros Hw Hwf Hd Hk n2 Hwp. pose proof (Receive_BufferFacts.data_length Peer.DEFAULT_SIZE b Hwf) as Hl. rewrite Hd, length_app in Hl.
  assert (wp (Peer.read_body_extras2 e little alive self) n2 (fun run n' => run = true /\ Q n')) as Hr.
  { unfold Peer.read_body_extras2. apply wp_bind, wp_gets, wp_bind, wp_gets. change (next_data_len_ (peer n2)) with kl.
    change (read_buffer_ (peer n2)) with b. rewrite (proj2 (Z.geb_le _ _)) by lia.
    apply wp_bind, wp_gets, wp_bind, wp_gets. change (Receive_Buffer.data (read_buffer_ (peer n2))) with (Receive_Buffer.data b).
    change (read_pdu_ (peer n2)) with (Some r). rewrite Hd. apply wp_bind. eapply wp_mono; [exact Hwp|].
    intros tmp n' (->&Hb&HQ). apply wp_bind, wp_bind, wp_gets, wp_bind. eapply wp_the; [done|]. apply wp_modify, wp_ret. split; [done|].
    apply HQ. rewrite Hb. destruct (Receive_BufferFacts.processed_spec Peer.DEFAULT_SIZE kl b Hwf ltac:(lia)) as (_&Hdp&_).
    rewrite Hdp, Hd. apply drop_app_length'. lia. }
  apply wp_run in Hr as (run&n'&Heq&->&HQ). exists n'. split; [|done].
  unfold Peer.round. unfold mbind at 1, ST_bind at 1, Peer.my, gets. change (state_ (peer n2)) with PEER_STATE_READ_BODY_EXTRAS2.
  cbv beta iota. unfold mbind, ST_bind. by rewrite Heq.
Qed.

(** It has its response after those that wait, and the rest of the input; what of
    the request is unread it is going to skip. *)
Record served (resp unread rest : bytes) n n' : Prop := {
  sv_state : state_ (peer n') = PEER_STATUS_WRITE;
  sv_next : unread = [] /\ next_state_ (peer n') = PEER_STATE_NEW_CMD \/
    next_state_ (peer n') = PEER_STATE_SWALLOW /\ swallow_size_ (peer n') = Z.of_nat (length unread);
  sv_rest : Receive_Buffer.data (read_buffer_ (peer n')) = unread ++ rest;
  sv_bufs : exists bufs, write_buf_ (peer n') = write_buf_ (peer n) ++ bufs /\ (fun l => concat l) <$> mapM (Peer.fetch n') bufs = Some resp
}.

Lemma asked_served r key rest others n c (Q : bytes -> Cache_Mgr -> Prop) : asked r key rest others n ->
  extras_length r = Some (Z.of_nat (length key)) ->
  (forall n2, cache_mgr_ n2 = cache_mgr_ n ->
     wp (Peer.process_pdu_extras2 e little alive self (Some r) (key ++ rest)) n2 (fun tmp n' => tmp = Z.of_nat (length key) /\
       exists resp, responds resp n2 n' /\ Q resp (cache_mgr_ n'))) ->
  exists n' resp, (forall fuel, process_loop (S (S (S fuel))) c n = process_loop fuel (u32 (c + 1)) n') /\
    served resp [] rest n n' /\ Q resp (cache_mgr_ n').
Proof.
  intros Ha Hl Hh. destruct (keyed_size r _ Hl) as [Hfs Hfix]. pose proof (ok_wf _ _ _ (as_ok _ _ _ _ _ Ha)) as Hw.
  destruct (two_rounds n c r key rest others (fun n' => exists b, Receive_Buffer.wf Peer.DEFAULT_SIZE b /\ Receive_Buffer.data b = key ++ rest /\
    n' = with_input b (socket_ n) (framed r (Z.of_nat (length key)) n)) Ha Hfs) as (n2&Hloop&b&Hwf&Hdb&->).
  { intros b Hwf Hdb. unfold wp. rewrite Hfix. cbn. exists b. by split_and!. }
  destruct (third_round n (u32 (c + 1)) r (Z.of_nat (length key)) key rest b
    (fun n' => exists resp, served resp [] rest n n' /\ Q resp (cache_mgr_ n')) Hw Hwf Hdb eq_refl) as (n'&Hrd&resp&Hs&HQ).
  - eapply wp_mono; [by apply Hh|]. intros tmp n' (->&resp&[Hs1 Hs2 Hs3 (bufs&Hs4&Hs5)]&HQ). split; [done|]. split; [done|].
    intros b' Hb'. exists resp. split; [|done]. split; [done|by left|exact Hb'|]. exists bufs. split; [exact Hs4|].
    rewrite <- Hs5. f_equal.
  - exists n', resp. split; [|done]. intros fuel. by rewrite Hloop, (loop_round _ _ _ _ _ Hrd).
Qed.
End serve.


(** ** The requests of the cache *)

(** The request of the cache a request of the protocol stands for; [key] is what
    follows its fixed part, for an update the key and the data. *)
Definition cache_request (self : sink) (r : Pdu.request) (key : bytes) : option request :=
  match r with
  | UpdateReq p =>
      let kl := Z.to_nat (Update_Req.key_length p) in
      Some (Put (mk_put (Update_Req.sub_op p) (Update_Req.group_id p) (take kl key) (drop kl key) (Update_Req.flags p)
                   (Update_Req.expiration p) (Update_Req.cache_id p) (Update_Req.watch_id p) []))
  | FlushReq p => Some (Flush_group (Flush_Req.group_id p))
  | CreateWatchReq p => Some (Create_watch (Create_Watch_Req.group_id p) (Create_Watch_Req.max_next_check_interval p))
  | CheckWatchReq p =>
      Some (Check_watch (Some self) (Check_Watch_Req.group_id p) (Check_Watch_Req.watch_id p) (Check_Watch_Req.ack_sequence p)
              (Check_Watch_Req.max_next_check_interval p))
  | StatsReq p => Some (Stats_cmd (Stats_Req.sub_op p) (Stats_Req.group_id p) (Stats_Req.class_id p))
  | GetReq p => Some (Get (Get_Req.group_id p, key) (Get_Req.watch_id p) false)
  | GetTouchReq p => Some (Get_touch (Get_Touch_Req.group_id p, key) (Get_Touch_Req.watch_id p) (Get_Touch_Req.expiration p))
  | GetBaseReq p => Some (Get (Get_Base_Req.group_id p, key) 0 true)
  | UpdateFlagsReq p => Some (Update_flags (Update_Flags_Req.group_id p, key) (Update_Flags_Req.cache_id p) (Update_Flags_Req.flags p))
  | UpdateExpirationReq p =>
      Some (Update_expiration (Update_Expiration_Req.group_id p, key) (Update_Expiration_Req.cache_id p) (Update_Expiration_Req.expiration p))
  | DeleteReq p => Some (Delete (Delete_Req.group_id p, key) (Delete_Req.cache_id p))
  | DeltaReq p => Some (Delta (Delta_Req.group_id p, key) (Delta_Req.sub_op p =? 0) (Delta_Req.delta p) (Delta_Req.cache_id p))
  | _ => None
  end.

Section keyed.
Context (e : endian) (little : bool) `{Table_Malloc} `{Item_Malloc} `{!Item_Malloc_Ok} `{Buffer_Malloc} `{!Buffer_Malloc_Ok} `{Block_Malloc} `{Auth_Library}.
Context (alive : sink -> bool) (conf : settings) (self : sink) (unassigned : Z).
Context (blocks : forall n, malloc_block n = true).
Implicit Types (n : node) (others : holds).

(** What a reply is encoded to. *)
Definition encode_reply (r : Pdu.request) (a : reply) : bytes :=
  let failed reason := Error_Res_encode little reason in
  let item en x := Get_Res_encode little (e_cache_id en) (e_flags en) x (Z.of_nat (length (e_data en))) ++ e_data en in
  match r, a with
  | GetReq _, Found _ (Some (en, x)) => item en x
  | GetTouchReq p, Found _ (Some (en, _)) => item en (Get_Touch_Req.expiration p)
  | GetBaseReq _, Found _ (Some (en, x)) => Get_Base_Res_encode little (e_cache_id en) (e_flags en) x (Z.of_nat (length (e_data en)))
  | GetBaseReq _, Found _ None => failed XIXI_REASON_NOT_FOUND
  | _, Found reason None => failed reason
  | UpdateFlagsReq _, Based true id => Update_Flags_Res_encode little id
  | UpdateExpirationReq _, Based true id => Update_Expiration_Res_encode little id
  | _, Based false id => failed (if id =? 0 then XIXI_REASON_NOT_FOUND else XIXI_REASON_MISMATCH)
  | DeleteReq _, Removed XIXI_REASON_SUCCESS => Simple_Res_encode little XIXI_CHOICE_DELETE_RES
  | _, Removed reason => failed reason
  | DeltaReq _, Counted XIXI_REASON_SUCCESS id value => Delta_Res_encode little value id
  | _, Counted reason _ _ => failed reason
  | UpdateReq _, Updated XIXI_REASON_SUCCESS id => Update_Res_encode little (default unassigned id)
  | _, Updated reason _ => failed reason
  | FlushReq _, Flushed count size => Flush_Res_encode little count size
  | CreateWatchReq _, Watched id => Create_Watch_Res_encode little id
  | CheckWatchReq _, Answered (Some an) => Peer.encode_answer little unassigned an
  | _, Answered None => failed XIXI_REASON_WATCH_NOT_FOUND
  | StatsReq _, Text b => Stats_Res_encode little b (u32 (Z.of_nat (length b)))
  | _, _ => []
  end.

(** Encoders fill their buffers. *)
Lemma respond_responds size b n : Z.of_nat (length b) = size -> wp (Peer.respond size b) n (fun _ n' =>
  responds b n n' /\ cache_mgr_ n' = cache_mgr_ n).
Proof. intros Hl. eapply wp_mono; [by apply respond_queues|]. intros [] n'. apply queued_responds. Qed.
Lemma flags_res_size id : Z.of_nat (length (Update_Flags_Res_encode little id)) = Update_Flags_Res_calc_encode_size.
Proof. unfold Update_Flags_Res_encode. by rewrite encode16_be, encode64_be, length_app, !be_bytes_length. Qed.
Lemma expiration_res_size id : Z.of_nat (length (Update_Expiration_Res_encode little id)) = Update_Expiration_Res_calc_encode_size.
Proof. unfold Update_Expiration_Res_encode. by rewrite encode16_be, encode64_be, length_app, !be_bytes_length. Qed.
Lemma delta_res_size v id : Z.of_nat (length (Delta_Res_encode little v id)) = Delta_Res_calc_encode_size.
Proof. unfold Delta_Res_encode. by rewrite encode16_be, !encode64_be, !length_app, !be_bytes_length. Qed.
Lemma simple_res_size ch : Z.of_nat (length (Simple_Res_encode little ch)) = XIXI_PDU_SIMPLE_RES_LENGTH.
Proof. unfold Simple_Res_encode. by rewrite encode16_be, be_bytes_length. Qed.
Lemma get_base_res_size a b c d : Z.of_nat (length (Get_Base_Res_encode little a b c d)) = Get_Base_Res_calc_encode_size.
Proof. unfold Get_Base_Res_encode. by rewrite encode16_be, encode64_be, !encode32_be, !length_app, !be_bytes_length. Qed.

(** What the reference does, and the reply as it is encoded. *)
Definition done_as (q : request) (r : Pdu.request) n (resp : bytes) (s' : Cache_Mgr) : Prop :=
  exists a, spec_step alive (time_of (cache_mgr_ n)) q a (model_of (cache_mgr_ n)) (model_of s') /\ resp = encode_reply r a.

(** A handler that is one call of the cache and one response. *)
Lemma call_responds {A} (q : request) (r : Pdu.request) (m : M A) (reply_of : A -> reply) (k : A -> N unit) h n2 n :
  run_request e alive conf q = (x ← m; mret (reply_of x, None)) -> cache_mgr_ n2 = cache_mgr_ n ->
  inv e (cache_mgr_ n) h -> roomy h -> allowed (cache_mgr_ n) h q ->
  (forall a n1, wp (k a) n1 (fun _ n' => responds (encode_reply r (reply_of a)) n1 n' /\ cache_mgr_ n' = cache_mgr_ n1)) ->
  wp (a ← Peer.cache self m; k a) n2 (fun _ n' => exists resp, responds resp n2 n' /\ done_as q r n resp (cache_mgr_ n')).
Proof.
  intros Heq Hs Hi Hr Hal Hk. pose proof (run_request_ok e alive conf (cache_mgr_ n) h q Hi Hr Hal) as Hok. rewrite Heq in Hok.
  apply wp_bind_inv in Hok. apply wp_bind, wp_cache_exact. rewrite Hs. apply (wp_mono _ _ _ _ Hok). intros a s [Hstep _ _] t b.
  eapply wp_mono; [apply Hk|]. intros [] n' [[Hr1 Hr2 Hr3 (bufs&Hr4&Hr5)] Hs']. exists (encode_reply r (reply_of a)). split.
  - split; [done..|]. by exists bufs.
  - exists (reply_of a). split; [|done]. rewrite Hs'. exact Hstep.
Qed.

Lemma with_key_done kl key rest (f : bytes -> N unit) n2 Q : kl = Z.of_nat (length key) ->
  wp (f key) n2 (fun _ n' => Q n') -> wp (Peer.with_key kl (key ++ rest) f) n2 (fun tmp n' => tmp = Z.of_nat (length key) /\ Q n').
Proof.
  intros -> Hf. unfold Peer.with_key. rewrite length_app, (proj2 (Z.ltb_ge _ _)) by lia. rewrite Nat2Z.id, take_app_length.
  apply wp_bind. eapply wp_mono; [exact Hf|]. intros [] n' HQ. by apply wp_ret.
Qed.

Lemma item_run p s it s' : Mgr.item p s = Some (it, s') -> heap s !! p = Some it /\ s' = s.
Proof. unfold Mgr.item, mbind, ST_bind, gets, the. destruct (heap s !! p); [by intros [= -> ->]|done]. Qed.

(** A handler that looks an item up. *)
Lemma found_responds {A} (q : request) (r : Pdu.request) (m : M A) (f : A -> option (ptr * Z) * xixi_reason) (k : A -> N unit) h n2 n :
  run_request e alive conf q = (x ← m; read_found (f x)) -> (forall p, q <> Release p) -> cache_mgr_ n2 = cache_mgr_ n ->
  inv e (cache_mgr_ n) h -> roomy h -> allowed (cache_mgr_ n) h q ->
  (forall a n1, match (f a).1 with
     | Some (p, x) => forall it, heap (cache_mgr_ n1) !! p = Some it -> item_wf (slab_ (cache_mgr_ n1)) it ->
         inv e (cache_mgr_ n1) (give p 1 h) ->
         wp (k a) n1 (fun _ n' => responds (encode_reply r (Found (f a).2 (Some (entry_of it, x)))) n1 n' /\
           model_of (cache_mgr_ n') = model_of (cache_mgr_ n1))
     | None => wp (k a) n1 (fun _ n' => responds (encode_reply r (Found (f a).2 None)) n1 n' /\ cache_mgr_ n' = cache_mgr_ n1)
     end) ->
  wp (a ← Peer.cache self m; k a) n2 (fun _ n' => exists resp, responds resp n2 n' /\ done_as q r n resp (cache_mgr_ n')).
Proof.
  intros Heq Hn Hs Hi Hr Hal Hk. pose proof (run_request_ok e alive conf (cache_mgr_ n) h q Hi Hr Hal) as Hok. rewrite Heq in Hok.
  apply wp_bind_inv in Hok. apply wp_bind, wp_cache_exact. rewrite Hs. apply (wp_mono _ _ _ _ Hok). intros a s Ho t b.
  assert (forall resp n1, read_buffer_ (peer n1) = read_buffer_ (peer n2) -> write_buf_ (peer n1) = write_buf_ (peer n2) ->
    forall n', responds resp n1 n' -> responds resp n2 n') as Hresp.
  { intros resp n1 Hb Hw n' [Hr1 Hr2 Hr3 (bufs&Hr4&Hr5)]. split; [done|done|by rewrite Hr3|]. exists bufs. by rewrite <- Hw. }
  specialize (Hk a (n2 <| cache_mgr_ := s |> <| peer ::= fun p => p <| timer_ := t |> <| timer_flag_ := b |> |>)).
  unfold read_found in Ho. destruct (f a) as [[[p x]|] reason]; cbn [fst snd] in *.
  - apply wp_bind_inv in Ho. apply wp_run in Ho as (it&s'&Hit&Ho). apply item_run in Hit as [Hit ->].
    unfold wp, mret, ST_ret in Ho. destruct Ho as [Hstep _ (h'&Ho&Hi')]. cbn [fst snd] in *.
    assert (inv e s (give p 1 h)) as Hi2 by (destruct (owns_safe e q _ _ _ _ _ _ Hn Ho Hi') as (_&_&Hg); by rewrite <- (Hg p eq_refl)).
    pose proof (inv_core e _ _ Hi2) as Hc.
    destruct (held_heap e s _ p Hc) as (it'&Hit'&Hfree); [rewrite give_eq; pose proof (c_held _ _ _ (inv_core e _ _ Hi) p); lia|].
    eapply wp_mono; [apply (Hk it)|].
    + exact Hit.
    + apply (c_item _ _ _ Hc p it Hit). apply Hfree.
    + exact Hi2.
    + intros [] n' [Hrs Hm]. eexists. split; [eapply Hresp; [| |exact Hrs]; done|].
      eexists. split; [rewrite Hm; exact Hstep|done].
  - destruct Ho as [Hstep _ _]. cbn [fst snd] in *. eapply wp_mono; [exact Hk|]. intros [] n' [Hrs Hm].
    eexists. split; [eapply Hresp; [| |exact Hrs]; done|]. eexists. split; [rewrite Hm; exact Hstep|done].
Qed.

(** The end of a handler that answers a state the call has left as it was. *)
Lemma base_responds r req (b : bool * Z) size ok n1 :
  Z.of_nat (length ok) = size -> encode_reply req r = (if b.1 then ok else Error_Res_encode little (if b.2 =? 0 then XIXI_REASON_NOT_FOUND else XIXI_REASON_MISMATCH)) ->
  wp (Peer.respond_base little b size ok) n1 (fun _ n' => responds (encode_reply req r) n1 n' /\ cache_mgr_ n' = cache_mgr_ n1).
Proof.
  intros Hs ->. unfold Peer.respond_base. destruct b as [[] i]; cbn [fst snd]; [by apply respond_responds|].
  destruct (i =? 0); by apply error_responds.
Qed.

Lemma get_base_responds p x it h n1 : heap (cache_mgr_ n1) !! p = Some it -> item_wf (slab_ (cache_mgr_ n1)) it ->
  inv e (cache_mgr_ n1) (give p 1 h) -> (forall q, 0 <= h q) -> roomy h ->
  wp (pl ← Peer.prepare Get_Base_Res_calc_encode_size; it ← Peer.cache self (Mgr.item p); Peer.cache self (Mgr.release_reference p);;
      Peer.respond_with pl Get_Base_Res_calc_encode_size (Get_Base_Res_encode little (cache_id it) (flags it) x (Cache.data_size it));;
      Peer.to_write) n1 (fun _ n' =>
    responds (Get_Base_Res_encode little (cache_id it) (flags it) x (Z.of_nat (length (data_of it)))) n1 n' /\
    model_of (cache_mgr_ n') = model_of (cache_mgr_ n1)).
Proof.
  intros Hit Hwf Hi H0' Hr. destruct (get_data_wf _ _ Hwf) as [_ ->].
  apply wp_bind, wp_prepare_exact; [done|]. intros [blk a] cb. apply wp_bind, wp_cache_exact. eapply wp_item; [exact Hit|]. intros t b.
  apply wp_bind, wp_cache_exact. eapply (wp_release_old e _ h p it); [exact Hi| |done|exact Hit|].
  { intros q. pose proof (Hr q). lia. }
  intros s' _ Hw Hv _ _ _ _ _ t' b'. unfold Peer.respond_with, Peer.encode, Peer.add_write_buf, Peer.to_write.
  apply wp_bind, wp_bind, wp_bind, (wp_the _ (Cache_Buffer.mkplace blk a)); [done|].
  apply wp_bind, wp_modify, wp_ret, wp_modify, wp_bind, wp_modify, wp_modify.
  split; [|by apply model_world]. split; [done..|]. eexists. split; [reflexivity|].
  match goal with |- context [Get_Base_Res_encode ?l ?a ?b ?c ?d] => rewrite <- (get_base_res_size a b c d) end. cbn [mapM].
  erewrite fetch_stored by reflexivity. cbn. by rewrite app_nil_r.
Qed.

Lemma keyed_responds r key rest q h n2 n :
  cache_request self r key = Some q -> extras_length r = Some (Z.of_nat (length key)) -> cache_mgr_ n2 = cache_mgr_ n ->
  inv e (cache_mgr_ n) h -> roomy h -> allowed (cache_mgr_ n) h q ->
  wp (Peer.process_pdu_extras2 e little alive self (Some r) (key ++ rest)) n2 (fun tmp n' => tmp = Z.of_nat (length key) /\
    exists resp, responds resp n2 n' /\ done_as q r n resp (cache_mgr_ n')).
Proof.
  intros Hq Hl Hs Hi Hr Hal. unfold Peer.process_pdu_extras2. apply wp_bind. eapply wp_the; [done|].
  pose proof (c_held _ _ _ (inv_core e _ _ Hi)) as Hge.
  destruct r as [p|p|p|p|p|p|p|p|p|p|p|p|p|]; try discriminate Hl; try discriminate Hq; injection Hq as <-; injection Hl as Hl; cbv beta iota;
    (apply with_key_done; [exact Hl|]).
  - eapply (found_responds _ (GetReq p) (Mgr.get e alive (Get_Req.group_id p) key (Get_Req.watch_id p) false) id); try done.
    intros [[[a x]|] reason] n1; cbn [id fst snd]; [intros it Hit Hw _|by apply error_responds].
    eapply wp_mono; [by apply item_responds|]. intros [] n' [? ->]. done.
  - eapply (found_responds _ (GetTouchReq p) (Mgr.get_touch e (Get_Touch_Req.group_id p) key (Get_Touch_Req.watch_id p) (Get_Touch_Req.expiration p))
      (fun r => ((fun p => (p, 0)) <$> r.1, r.2))); try done.
    intros [[a|] reason] n1; cbn [fst snd fmap option_fmap option_map]; [intros it Hit Hw _|by apply error_responds].
    eapply wp_mono; [by apply item_responds|]. intros [] n' [? ->]. done.
  - eapply (found_responds _ (GetBaseReq p) (Mgr.get e alive (Get_Base_Req.group_id p) key 0 true) id); try done.
    intros [[[a x]|] reason] n1; cbn [id fst snd]; [intros it Hit Hw Hi2; by apply (get_base_responds _ _ _ h)|by apply error_responds].
  - eapply call_responds; try done. intros a n1. apply base_responds; [apply flags_res_size|by destruct a as [[] ?]].
  - eapply call_responds; try done. intros a n1. apply base_responds; [apply expiration_res_size|by destruct a as [[] ?]].
  - eapply call_responds; try done. intros a n1. case_decide; [subst a; by apply respond_responds, simple_res_size|].
    replace (encode_reply _ _) with (Error_Res_encode little a) by (by destruct a). by apply error_responds.
  - eapply call_responds; try done. intros [[reason i] v] n1. cbn [fst snd]. case_decide as Hd; [subst; by apply respond_responds, delta_res_size|].
    replace (encode_reply _ _) with (Error_Res_encode little reason) by (by destruct reason). by apply error_responds.
Qed.

(** What is told of a whole request. *)
Lemma keyed_served r key rest q others n c :
  asked e r key rest others n -> extras_length r = Some (Z.of_nat (length key)) -> cache_request self r key = Some q -> allowed (cache_mgr_ n) (tot others n) q ->
  exists n' resp, (forall fuel, Peer.process_loop e little alive conf self unassigned (S (S (S fuel))) c n =
      Peer.process_loop e little alive conf self unassigned fuel (u32 (c + 1)) n') /\
    served resp [] rest n n' /\ done_as q r n resp (cache_mgr_ n').
Proof.
  intros Ha Hl Hq Hal. apply (asked_served e little alive conf self unassigned r key rest others n c (fun b s => done_as q r n b s) Ha Hl).
  intros n2 Hs. destruct Ha as [[_ Hc _] Hst _ _ _ Hr]. unfold all_refs in *. rewrite Hst in *.
  by apply (keyed_responds r key rest q (tot others n) n2 n).
Qed.
End keyed.
