(* ===== verification/PeerAnswer.v ===== *)
(** * Every request of the cache, answered

    The requests without a key, whose handler runs when the fixed part is read, and
    the updates, whose key and data are read into the new item.  With the requests
    of [PeerServe] these are all that the cache serves. *)

From S2P Require Import Prelude XixiList XixiHashMap Lookup3 Util CurrTime Pdu Stats Watch Slab Cache CacheInv CacheSpec CacheOps CacheData CacheSweep CacheStore CacheRun CacheProps Buffers Auth Peer PeerFacts PeerRun PeerServe.
Import Cache_Watch.

Section answer.
Context (e : endian) (little : bool) `{Table_Malloc} `{Item_Malloc} `{!Item_Malloc_Ok} `{Buffer_Malloc} `{!Buffer_Malloc_Ok} `{Block_Malloc} `{Auth_Library}.
Context (alive : sink -> bool) (conf : settings) (self : sink) (unassigned : Z).
Context (blocks : forall n, malloc_block n = true).
Implicit Types (n : node) (others : holds).
Abbreviation round := (Peer.round e little alive conf self unassigned).
Abbreviation process_loop := (Peer.process_loop e little alive conf self unassigned).
Abbreviation encode_reply := (encode_reply little unassigned).

(** ** What it is to be answered *)

(** A check that finds nothing: the peer waits for its timer or a notification. *)
Definition nothing_yet (a : reply) : bool :=
  match a with Answered (Some an) => bool_decide (updated_list an = []) | _ => false end.
Record waits (rest : bytes) n n' : Prop := {
  wt_state : state_ (peer n') = PEER_STATUS_ASYNC_WAIT;
  wt_rest : Receive_Buffer.data (read_buffer_ (peer n')) = rest;
  wt_bufs : write_buf_ (peer n') = write_buf_ (peer n)
}.
(** The end of a request: its response is queued, if 32 bits can hold its size; all
    of the request is read, but for the body of an update that was refused. *)
Definition finished (r : Pdu.request) (a : reply) (payload rest : bytes) n n' : Prop :=
  if nothing_yet a then waits rest n n'
  else Z.of_nat (length (encode_reply r a)) < 2 ^ 32 -> exists unread,
    (unread = [] \/ unread = payload /\ exists reason, a = Updated reason None) /\ served (encode_reply r a) unread rest n n'.

Lemma queued_served resp rest n n2 n' : queued resp n2 n' -> write_buf_ (peer n2) = write_buf_ (peer n) ->
  Receive_Buffer.data (read_buffer_ (peer n2)) = rest -> served resp [] rest n n'.
Proof.
  intros Hq Hw Hd. split; [apply Hq|left; split; [done|apply Hq]|by rewrite (qd_buffer _ _ _ Hq)|].
  rewrite <- Hw. by eapply queued_fetch.
Qed.
Lemma queued_finished r a payload rest n n2 n' : queued (encode_reply r a) n2 n' -> nothing_yet a = false ->
  write_buf_ (peer n2) = write_buf_ (peer n) -> Receive_Buffer.data (read_buffer_ (peer n2)) = rest ->
  finished r a payload rest n n'.
Proof. intros Hq Ha Hw Hd. unfold finished. rewrite Ha. intros _. exists []. split; [by left|by eapply queued_served]. Qed.

Lemma large_finished r a payload rest n n2 n' :
  (Z.of_nat (length (encode_reply r a)) < 2 ^ 32 -> queued (encode_reply r a) n2 n') -> nothing_yet a = false ->
  write_buf_ (peer n2) = write_buf_ (peer n) -> Receive_Buffer.data (read_buffer_ (peer n2)) = rest ->
  finished r a payload rest n n'.
Proof. intros Hq Ha Hw Hd. unfold finished. rewrite Ha. intros Hf. exists []. split; [by left|]. eapply queued_served; by auto. Qed.

(** ** The requests without a key *)

(** A handler that calls the cache once. *)
Lemma call_done {A} (q : request) (m : M A) (reply_of : A -> reply) (k : A -> N unit) h n (P : reply -> node -> Prop) :
  run_request e alive conf q = (x ← m; mret (reply_of x, None)) ->
  inv e (cache_mgr_ n) h -> roomy h -> allowed (cache_mgr_ n) h q ->
  (forall a n1, spec_step alive (time_of (cache_mgr_ n)) q (reply_of a) (model_of (cache_mgr_ n)) (model_of (cache_mgr_ n1)) ->
     read_buffer_ (peer n1) = read_buffer_ (peer n) -> write_buf_ (peer n1) = write_buf_ (peer n) ->
     wp (k a) n1 (fun _ n' => cache_mgr_ n' = cache_mgr_ n1 /\ P (reply_of a) n')) ->
  wp (a ← Peer.cache self m; k a) n (fun _ n' => exists a,
    spec_step alive (time_of (cache_mgr_ n)) q a (model_of (cache_mgr_ n)) (model_of (cache_mgr_ n')) /\ P a n').
Proof.
  intros Heq Hi Hr Hal Hk. pose proof (run_request_ok e alive conf (cache_mgr_ n) h q Hi Hr Hal) as Hok. rewrite Heq in Hok.
  apply wp_bind_inv in Hok. apply wp_bind, wp_cache_exact. apply (wp_mono _ _ _ _ Hok). intros a s [Hstep _ _] t b. cbn [fst snd] in Hstep.
  eapply wp_mono; [by apply Hk|]. intros [] n' [Hs HP]. exists (reply_of a). split; [|done]. by rewrite Hs.
Qed.

Lemma prepared_keeps size b n :
  wp (pl ← Peer.prepare size;
      match pl with
      | Some _ => Peer.respond_with pl size b;; Peer.to_write
      | None => Peer.write_error little XIXI_REASON_OUT_OF_MEMORY 0 true
      end) n (fun _ n' => cache_mgr_ n' = cache_mgr_ n /\ (Z.of_nat (length b) = size -> queued b n n')).
Proof.
  pose proof (respond_keeps blocks size b n) as Hq. unfold Peer.respond in Hq. apply wp_bind_inv in Hq.
  apply wp_bind. revert Hq. unfold wp at 1 3, Peer.prepare. set (r := Cache_Buffer.prepare _ _ _ _).
  assert (exists p, r.1 = Some p) as [p ->].
  { unfold r, Cache_Buffer.prepare. rewrite blocks. repeat case_match; cbn; eauto. }
  done.
Qed.
Lemma create_watch_size id : Z.of_nat (length (Create_Watch_Res_encode little id)) = Create_Watch_Res_get_body_size.
Proof. unfold Create_Watch_Res_encode. by rewrite encode16_be, encode32_be, length_app, !be_bytes_length. Qed.
Lemma flush_res_size c z : Z.of_nat (length (Flush_Res_encode little c z)) = Flush_Res_calc_encode_size.
Proof. unfold Flush_Res_encode. by rewrite encode16_be, encode32_be, encode64_be, !length_app, !be_bytes_length. Qed.
Lemma update_size id : Z.of_nat (length (Update_Res_encode little id)) = Update_Res_calc_encode_size.
Proof. unfold Update_Res_encode. by rewrite encode16_be, encode64_be, length_app, !be_bytes_length. Qed.
Lemma stats_size b : let l := u32 (Z.of_nat (length b)) in
  Z.of_nat (length (Stats_Res_encode little b l)) < 2 ^ 32 ->
  Z.of_nat (length (Stats_Res_encode little b l)) = Stats_Res_calc_encode_size l.
Proof.
  intros l. assert (0 <= l < 2 ^ 32) by (apply wrap_range; lia).
  assert (l <= Z.of_nat (length b)) by (unfold l, wrap; apply Z.mod_le; lia).
  assert (Z.of_nat (length (Stats_Res_encode little b l)) = XIXI_PDU_CHOICE_LENGTH + 4 + l) as ->.
  { unfold Stats_Res_encode. rewrite encode16_be, encode32_be, !length_app, !be_bytes_length, length_take. unfold XIXI_PDU_CHOICE_LENGTH. lia. }
  intros Hl. unfold Stats_Res_calc_encode_size. rewrite wrap_small; [done|]. unfold XIXI_PDU_CHOICE_LENGTH in *. lia.
Qed.
Lemma answer_size_length a : length (updated_list a) = length (updated_type_list a) ->
  Z.of_nat (length (Peer.encode_answer little unassigned a)) < 2 ^ 32 ->
  Z.of_nat (length (Peer.encode_answer little unassigned a)) = Peer.answer_size a.
Proof.
  intros Hl. unfold Peer.encode_answer, Check_Watch_Res_encode. rewrite encode16_be, !encode32_be, !length_app, !be_bytes_length.
  assert (forall l : list (Z * Z), length (concat (map (fun '(id, ty) => ENCODE_UINT64 little id ++ ENCODE_UINT8 ty) l)) = 9 * length l)%nat as ->.
  { induction l as [|[id ty] l IH]; [done|]. cbn [map concat length]. rewrite !length_app, IH, encode64_be, be_bytes_length.
    change (length (ENCODE_UINT8 ty)) with 1%nat. lia. }
  rewrite length_zip_with, length_map, <- Hl, Nat.min_id. intros Hb.
  unfold Peer.answer_size, Check_Watch_Res_calc_encode_size, XIXI_PDU_CHOICE_LENGTH. rewrite (wrap_small 32 (Z.of_nat _)) by lia. rewrite wrap_small; lia.
Qed.

(** Both lists of an answer have one length. *)
Lemma checked_lengths s h sp g id ack x a m' : inv e s h ->
  spec_step alive (time_of s) (Check_watch sp g id ack x) (Answered (Some a)) (model_of s) m' ->
  length (updated_list a) = length (updated_type_list a).
Proof.
  intros Hi Hs. cbn in Hs. unfold spec_watch in Hs. destruct (watch_map_ s !! id) as [w|] eqn:E; [|by destruct Hs].
  destruct (watch_step_spec alive (Check sp ack (Current_Time.realtime (time_of s) x)) w (s_watches _ (proj2 Hi) id w E))
    as (a0&calls&w'&Hst&_&_&Hl&_). cbn [watch_step] in Hst. rewrite Hst in Hs. cbn in Hs. by destruct Hs as [[= ->] _].
Qed.

(** The handler of a request without a key. *)
Lemma fixed_answers r q h n n1 rest : cache_request self r [] = Some q -> extras_length r = None ->
  (forall p, r <> UpdateReq p) -> cache_mgr_ n1 = cache_mgr_ n -> write_buf_ (peer n1) = write_buf_ (peer n) ->
  Receive_Buffer.data (read_buffer_ (peer n1)) = rest ->
  inv e (cache_mgr_ n) h -> roomy h -> allowed (cache_mgr_ n) h q ->
  wp (Peer.process_pdu_fixed little alive conf self unassigned r) n1 (fun _ n' => exists a,
    spec_step alive (time_of (cache_mgr_ n)) q a (model_of (cache_mgr_ n)) (model_of (cache_mgr_ n')) /\ finished r a [] rest n n').
Proof.
  intros Hq Hl Hu Hs Hw Hd Hi Hr Hal. rewrite <- Hs in *.
  destruct r as [p|p|p|p|p|p|p|p|p|p|p|p|p|p]; try discriminate Hl; try discriminate Hq; try (by destruct (Hu p)); injection Hq as <-; clear Hu;
    cbn [Peer.process_pdu_fixed].
  - unfold Peer.process_flush_req_pdu_fixed. apply wp_bind, wp_prepare_exact; [done|]. intros [blk a] cb.
    set (n0 := set peer _ n1). change (cache_mgr_ n1) with (cache_mgr_ n0) in *.
    eapply (call_done _ _ (fun r => Flushed r.1 r.2) _ h n0); try done.
    intros [c z] n2 _ Hb2 Hw2. unfold Peer.respond_with, Peer.encode, Peer.add_write_buf, Peer.to_write.
    apply wp_bind, wp_bind, wp_bind, (wp_the _ (Cache_Buffer.mkplace blk a)); [done|].
    apply wp_bind, wp_modify, wp_ret, wp_modify, wp_bind, wp_modify, wp_modify. split; [done|].
    eapply (queued_finished (FlushReq p) (Flushed c z) [] rest n n2); [|done|by rewrite Hw2|by rewrite Hb2].
    split; try done. cbn [encode_reply PeerServe.encode_reply]. rewrite flush_res_size. eexists _, _. split; reflexivity.
  - unfold Peer.process_stats_req_pdu_fixed. eapply (call_done _ _ Text); try done.
    intros b n2 _ Hb2 Hw2. eapply wp_mono; [apply prepared_keeps|]. intros [] n' [Hs' Hqd]. split; [exact Hs'|].
    eapply (large_finished (StatsReq p) (Text b)); [|done|rewrite Hw2; exact Hw|by rewrite Hb2].
    intros Hf. apply Hqd, stats_size, Hf.
  - unfold Peer.process_create_watch_req_pdu_fixed. eapply (call_done _ _ Watched); try done.
    intros id n2 _ Hb2 Hw2. eapply wp_mono; [by apply respond_queues, create_watch_size|]. intros [] n' Hq. split; [apply Hq|].
    eapply (queued_finished (CreateWatchReq p) (Watched id)); [exact Hq|done|by rewrite Hw2|by rewrite Hb2].
  - unfold Peer.process_check_watch_req_pdu_fixed. apply wp_bind, wp_modify.
    set (n0 := set peer _ n1). change (cache_mgr_ n1) with (cache_mgr_ n0) in *.
    eapply (call_done _ _ Answered _ h n0); try done.
    intros [a|] n2 Hstep Hb2 Hw2.
    + apply (checked_lengths _ h) in Hstep; [|done]. destruct (Nat.ltb_spec 0 (length (updated_list a))) as [Hlt|Hlt].
      * eapply wp_mono; [apply prepared_keeps|]. intros [] n' [Hs' Hqd]. split; [exact Hs'|].
        eapply (large_finished (CheckWatchReq p) (Answered (Some a))); [| |rewrite Hw2; exact Hw|by rewrite Hb2].
        -- intros Hf. by apply Hqd, answer_size_length.
        -- apply bool_decide_eq_false. intros E. rewrite E in Hlt; cbn in Hlt; lia.
      * apply wp_bind, wp_modify, wp_bind, wp_gets, wp_bind.
        match goal with |- wp (if ?b then _ else _) _ _ => destruct b end; apply wp_modify, wp_modify; (split; [done|]);
          unfold finished; cbn [nothing_yet]; rewrite (proj2 (bool_decide_eq_true _)) by (by destruct (updated_list a); [|cbn in Hlt; lia]);
          (split; [done|cbn; by rewrite Hb2|cbn; rewrite Hw2; exact Hw]).
    + eapply wp_mono; [by apply error_queues|]. intros [] n' Hqd. split; [apply Hqd|].
      eapply (queued_finished (CheckWatchReq p) (Answered None)); [exact Hqd|done|rewrite Hw2; exact Hw|by rewrite Hb2].
Qed.

(** ** Updates *)

(** The peer that reads the key and the data into the item [p]. *)
Record taking (p : ptr) (off left : Z) (s : Cache_Mgr) (pdu : Update_Req.pdu) (input : bytes) n n' : Prop := {
  tk_wf : node_wf n';
  tk_state : state_ (peer n') = PEER_STATE_READ_BODY_EXTRAS;
  tk_pdu : read_pdu_ (peer n') = Some (UpdateReq pdu);
  tk_item : cache_item_ (peer n') = Some p;
  tk_at : read_item_buf_ (peer n') = Some (p, off);
  tk_left : next_data_len_ (peer n') = left;
  tk_cache : cache_mgr_ n' = s;
  tk_input : Receive_Buffer.data (read_buffer_ (peer n')) = input;
  tk_bufs : write_buf_ (peer n') = write_buf_ (peer n)
}.

Lemma taking_round p s s' pdu payload rest n n2 c :
  taking p 0 (Z.of_nat (length payload)) s pdu (payload ++ rest) n n2 -> payload <> [] ->
  Mgr.update_opt p (Item.write 0 payload) s = Some (tt, s') ->
  exists n3, round c n2 = Some ((true, c), n3) /\ taking p (Z.of_nat (length payload)) 0 s' pdu rest n n3.
Proof.
  intros [Hw Hst Hp Hit Hat Hnx Hs Hd Hwb] Hne Hup.
  assert (0 < length payload)%nat as Hpos by (destruct payload; [done|cbn; lia]).
  pose proof (data_received n2 Hw) as Hlen. rewrite Hd, length_app in Hlen.
  assert (wp (round c) n2 (fun r n3 => r = (true, c) /\ taking p (Z.of_nat (length payload)) 0 s' pdu rest n n3)) as Hwp.
  { apply wp_bind, wp_gets. rewrite Hst. apply wp_bind. unfold Peer.read_body_extras. apply wp_bind, wp_gets, wp_bind, wp_gets.
    fold (received n2). rewrite Hnx. destruct (Z.eqb_spec (Z.of_nat (length payload)) 0); [lia|].
    destruct (Z.gtb_spec (received n2) 0); [|lia].
    assert ((if received n2 >? Z.of_nat (length payload) then Z.of_nat (length payload) else received n2) = Z.of_nat (length payload)) as ->
      by (destruct (Z.gtb_spec (received n2) (Z.of_nat (length payload))); lia).
    apply wp_bind, wp_gets, wp_bind. rewrite Hd, Nat2Z.id, take_app_length. unfold Peer.to_item.
    apply wp_bind, wp_gets, wp_bind. eapply wp_the; [exact Hat|]. cbn [fst snd]. apply wp_bind, wp_cache_exact. rewrite Hs.
    unfold wp at 1. rewrite Hup. intros t b. apply wp_modify, wp_bind. set (n3 := set peer _ _).
    assert (node_wf n3) as Hw3.
    { destruct Hw. split; try done. cbn. rewrite Hnx, Z.sub_diag. done. }
    eapply (wp_consume _ n3); [exact Hw3|change (received n3) with (received n2); lia|].
    intros n4 b4 -> Hw4 _ Hd4. apply wp_ret, wp_ret. split; [done|].
    split; try done; cbn.
    - by rewrite Hnx, Z.sub_diag.
    - change (read_buffer_ (peer n3)) with (read_buffer_ (peer n2)) in Hd4. rewrite Hd4, Hd. apply drop_app_length'. lia. }
  apply wp_run in Hwp as (r&n3&Hr&->&?). by exists n3.
Qed.

(** The last round: the item is given to the cache, the response is queued and the
    reference of the peer given back, as by [Store.end_update]. *)
Lemma update_ends p off pdu s rest n n2 c (Q : xixi_reason * option Z -> Cache_Mgr -> Prop) :
  taking p off 0 s pdu rest n n2 ->
  wp (Store.end_update e alive (Update_Req.sub_op pdu) p (Update_Req.cache_id pdu) (Update_Req.watch_id pdu)) s Q ->
  exists n' res, round c n2 = Some ((true, c), n') /\ Q res (cache_mgr_ n') /\
    served (encode_reply (UpdateReq pdu) (Updated res.1 res.2)) [] rest n n'.
Proof.
  intros [Hw Hst Hp Hit _ Hnx Hs Hd Hwb] Hend.
  assert (wp (round c) n2 (fun r n' => r = (true, c) /\ exists res, Q res (cache_mgr_ n') /\
    served (encode_reply (UpdateReq pdu) (Updated res.1 res.2)) [] rest n n')) as Hwp.
  { apply wp_bind, wp_gets. rewrite Hst. apply wp_bind. unfold Peer.read_body_extras. apply wp_bind, wp_gets, wp_bind, wp_gets.
    rewrite Hnx. cbn [Z.eqb]. apply wp_bind, wp_gets, wp_bind. rewrite Hp. unfold Peer.process_pdu_extras.
    apply wp_bind. eapply wp_the; [done|]. unfold Peer.process_update_req_pdu_extras.
    apply wp_bind, wp_gets, wp_bind. eapply wp_the; [exact Hit|]. unfold Store.end_update in Hend. rewrite <- Hs in Hend.
    apply wp_bind_inv in Hend. apply wp_bind, wp_cache_exact. apply (wp_mono _ _ _ _ Hend). clear Hend. intros [] s1 Hend t1 b1.
    apply wp_bind_inv in Hend. apply wp_bind, wp_cache_exact. apply (wp_mono _ _ _ _ Hend). clear Hend. intros [] s2 Hend t2 b2.
    apply wp_bind_inv in Hend. apply wp_bind, wp_cache_exact. apply (wp_mono _ _ _ _ Hend). clear Hend. intros res s3 Hend t3 b3.
    apply wp_bind_inv in Hend. set (n3 := set peer _ _). apply wp_bind.
    assert (wp (Peer.reply_or_next (Update_Req.reply pdu)
      (if decide (res.1 = XIXI_REASON_SUCCESS) then Peer.respond Update_Res_calc_encode_size (Update_Res_encode little (default unassigned res.2))
       else Peer.write_error little res.1 0 true)) n3 (fun _ => queued (encode_reply (UpdateReq pdu) (Updated res.1 res.2)) n3)) as Hq.
    { cbn [Peer.reply_or_next Update_Req.reply]. destruct res as [reason id]. cbn [fst snd]. case_decide as Hc.
      - subst reason. by apply respond_queues, update_size.
      - replace (encode_reply _ _) with (Error_Res_encode little reason) by (by destruct reason). by apply error_queues. }
    apply (wp_mono _ _ _ _ Hq). intros [] n4 Hq4. apply wp_bind, wp_cache_exact. rewrite (qd_cache _ _ _ Hq4).
    apply (wp_mono _ _ _ _ Hend). intros [] s5 HQ t5 b5. apply wp_modify, wp_ret, wp_ret. split; [done|]. exists res.
    split; [exact HQ|]. split; [apply Hq4|left; split; [done|apply Hq4]| |].
    - cbn. rewrite (qd_buffer _ _ _ Hq4). exact Hd.
    - rewrite <- Hwb. change (write_buf_ (peer n2)) with (write_buf_ (peer n3)). by eapply (queued_fetch _ n3 n4). }
  apply wp_run in Hwp as (r&n'&Hr&->&res&HQ&Hsv). by exists n', res.
Qed.

(** Writing nothing changes nothing. *)
Lemma write_nothing p s s' : Mgr.update_opt p (Item.write 0 []) s = Some (tt, s') -> s' = s.
Proof.
  unfold Mgr.update_opt, Mgr.item, mbind, ST_bind, gets, the, modify. destruct (heap s !! p) as [it|] eqn:E; [|done].
  unfold Item.write, mem_write. cbn. rewrite drop_0. destruct (0 + Z.of_nat 0 <=? Z.of_nat (length (body it))); [|done]. cbn. intros [= <-].
  replace (it <| body := body it |>) with it by (by destruct it). destruct s. cbn in E |- *. f_equal. unfold set. cbn. f_equal.
  by apply insert_id.
Qed.
Lemma refused_reason g kl fl x dl xl s reason s' :
  Store.begin_update g kl fl x dl xl s = Some (inr reason, s') -> reason <> XIXI_REASON_SUCCESS.
Proof.
  unfold Store.begin_update, mbind, ST_bind. destruct (Mgr.alloc_item g kl fl x dl xl s) as [[[p|] s1]|]; [done| |done].
  destruct (Mgr.item_size_ok kl dl xl s1) as [[[] s2]|]; [by intros [= <- _]..|done].
Qed.

Lemma wp_ran {S A} (m : ST S A) s (Q : A -> S -> Prop) : wp m s Q -> wp m s (fun a s' => Q a s' /\ m s = Some (a, s')).
Proof. unfold wp. by destruct (m s) as [[]|]. Qed.

(** The handler of the fixed part: the item is there, or the body will be skipped. *)
Lemma update_begins pdu payload rest n b (Q : ptr + xixi_reason -> Cache_Mgr -> Prop) :
  node_wf n -> Receive_Buffer.wf Peer.DEFAULT_SIZE b -> Receive_Buffer.data b = payload ++ rest -> Forall is_byte (payload ++ rest) ->
  Z.of_nat (length payload) = Update_Req.key_length pdu + Update_Req.data_length pdu -> Z.of_nat (length payload) < 2 ^ 32 ->
  wp (Store.begin_update (Update_Req.group_id pdu) (Update_Req.key_length pdu) (Update_Req.flags pdu)
        (Update_Req.expiration pdu) (Update_Req.data_length pdu) 0) (cache_mgr_ n) Q ->
  wp (Peer.process_update_req_pdu_fixed little self pdu) (with_input b (socket_ n) (decoded (UpdateReq pdu) n)) (fun _ n' =>
    (exists p s, Q (inl p) s /\ taking p 0 (Z.of_nat (length payload)) s pdu (payload ++ rest) n n') \/
    (exists reason, Q (inr reason) (cache_mgr_ n') /\ served (Error_Res_encode little reason) payload rest n n')).
Proof.
  intros Hw Hwf Hd Hby Hl Hlt Hbeg. unfold Peer.process_update_req_pdu_fixed. rewrite <- Hl, wrap_small by lia.
  apply wp_bind, wp_cache_exact. change (cache_mgr_ (with_input _ _ _)) with (cache_mgr_ n).
  apply (wp_mono _ _ _ _ Hbeg). intros [p|reason] s HQ t f.
  - apply wp_bind, wp_modify, wp_bind, wp_modify, wp_modify. left. exists p, s. split; [done|].
    split; try done. destruct Hw. split; try done; cbn; [by rewrite Hd|lia].
  - apply wp_bind, wp_modify. unfold Peer.write_error. apply wp_bind, wp_prepare_exact; [done|]. intros [blk a] cb.
    unfold Peer.respond_with, Peer.encode, Peer.add_write_buf.
    apply wp_bind, wp_bind, wp_bind, (wp_the _ (Cache_Buffer.mkplace blk a)); [done|].
    apply wp_bind, wp_modify, wp_ret, wp_modify, wp_bind, wp_modify.
    assert (forall n3, fst <$> Some (n3, tt) = Some n3) as _ by done.
    rewrite Z.gtb_ltb. destruct (Z.ltb_spec 0 (Z.of_nat (length payload))) as [Hp|Hp];
      [apply wp_bind, wp_modify, wp_modify|apply wp_modify]; (right; exists reason; split; [exact HQ|]);
      (split; [done| |exact Hd|]);
      try (eexists; split; [reflexivity|]; rewrite <- (error_size little reason); cbn [mapM];
           erewrite fetch_stored by reflexivity; cbn; by rewrite app_nil_r).
    + by right.
    + left. split; [|done]. destruct payload; [done|cbn in Hp; lia].
Qed.

Lemma update_served pdu payload rest others n c q :
  asked e (UpdateReq pdu) payload rest others n -> cache_request self (UpdateReq pdu) payload = Some q ->
  Z.of_nat (length payload) = Update_Req.key_length pdu + Update_Req.data_length pdu -> allowed (cache_mgr_ n) (tot others n) q ->
  exists k n' a, (k <= 4)%nat /\ (forall fuel, process_loop (k + fuel) c n = process_loop fuel (u32 (c + 1)) n') /\
    spec_step alive (time_of (cache_mgr_ n)) q a (model_of (cache_mgr_ n)) (model_of (cache_mgr_ n')) /\
    finished (UpdateReq pdu) a payload rest n n'.
Proof.
  intros Ha Hq Hl Hal. pose proof Ha as [[Hw Hc _] Hst Hnx Hd Hr Hrefs]. unfold all_refs in *. rewrite Hst in *.
  destruct Hr as (_&_&_&_&Hx&_&Hkl&Hdl).
  injection Hq as <-. set (key := take (Z.to_nat (Update_Req.key_length pdu)) payload). set (dat := drop (Z.to_nat (Update_Req.key_length pdu)) payload).
  assert (Z.of_nat (length key) = Update_Req.key_length pdu) as Hlk by (unfold key; rewrite length_take; lia).
  assert (Z.of_nat (length dat) = Update_Req.data_length pdu) as Hld by (unfold dat; rewrite length_drop; lia).
  set (r := mk_put _ _ key dat _ _ _ _ _) in *. assert (Update_Req.data_length pdu <= 2 ^ 31) as Hd31 by (rewrite <- Hld; apply Hal).
  pose proof (run_request_ok e alive conf (cache_mgr_ n) (tot others n) (Put r) Hc Hrefs Hal) as Hput.
  cbn [run_request] in Hput. apply wp_bind_inv in Hput. unfold put in Hput. apply wp_bind_inv in Hput.
  cbn [put_group put_key put_flags put_expiration put_data put_ext r] in Hput.
  change (Z.of_nat (length [])) with 0 in Hput. rewrite Hlk, Hld in Hput. apply wp_ran in Hput.
  assert (Forall is_byte (payload ++ rest)) as Hby.
  { pose proof (nw_bytes _ Hw) as Hby. rewrite Hd in Hby. by apply Forall_app in Hby as [_ ?]. }
  destruct (two_rounds e little alive conf self unassigned n c (UpdateReq pdu) payload rest others _ Ha eq_refl
    (fun b Hwf Hdb => update_begins pdu payload rest n b _ Hw Hwf Hdb Hby Hl ltac:(lia) Hput))
    as (n2&Hloop&[(p&s&HQ&Htk)|(reason&HQ&Hsv)]).
  - destruct HQ as [HQ _]. apply wp_bind_inv in HQ. assert (key ++ dat ++ [] = payload) as Hkd by (rewrite app_nil_r; apply take_drop).
    change (put_key r ++ put_data r ++ put_ext r) with (key ++ dat ++ []) in HQ. rewrite Hkd in HQ.
    apply wp_run in HQ as ([]&s1&Hup&HQ).
    assert (exists k n3 off, (k <= 3)%nat /\ (forall fuel, process_loop (k + fuel) c n = process_loop fuel (u32 (c + 1)) n3) /\
      taking p off 0 s1 pdu rest n n3) as (k&n3&off&Hk&Hloop3&Htk3).
    { destruct (decide (payload = [])) as [->|Hne].
      - apply write_nothing in Hup as ->. exists 2%nat, n2, 0. split; [lia|]. by split.
      - destruct (taking_round p s s1 pdu payload rest n n2 (u32 (c + 1)) Htk Hne Hup) as (n3&Hr3&Htk3).
        exists 3%nat, n3, (Z.of_nat (length payload)). split; [lia|]. split; [|done]. intros fuel.
        change (3 + fuel)%nat with (S (S (S fuel))). by rewrite Hloop, (loop_round _ _ _ _ _ _ _ _ _ _ _ Hr3). }
    destruct (update_ends p off pdu s1 rest n n3 (u32 (c + 1)) _ Htk3 HQ) as (n'&res&Hr4&[Hstep _ _]&Hsv).
    exists (k + 1)%nat, n', (Updated res.1 res.2). split; [lia|]. split; [|split; [exact Hstep|]].
    + intros fuel. rewrite <- Nat.add_assoc, Hloop3. change (1 + fuel)%nat with (S fuel). by rewrite (loop_round _ _ _ _ _ _ _ _ _ _ _ Hr4).
    + unfold finished. cbn [nothing_yet]. intros _. exists []. split; [by left|exact Hsv].
  - destruct HQ as [HQ Hns]. exists 2%nat, n2, (Updated reason None). split; [lia|]. split; [exact Hloop|].
    destruct HQ as [Hstep _ _]. cbn [fst snd] in Hstep. split; [exact Hstep|].
    unfold finished. cbn [nothing_yet]. intros _. exists payload. split; [right; split; [done|by exists reason]|].
    assert (reason <> XIXI_REASON_SUCCESS) by (by eapply refused_reason).
    replace (encode_reply _ _) with (Error_Res_encode little reason) by (by destruct reason). exact Hsv.
Qed.

(** ** All requests *)

(** What follows the fixed part. *)
Definition payload_size (r : Pdu.request) : Z :=
  match r with
  | UpdateReq p => Update_Req.key_length p + Update_Req.data_length p
  | _ => default 0 (extras_length r)
  end.

Lemma all_served r payload rest q others n c :
  asked e r payload rest others n -> cache_request self r payload = Some q -> Z.of_nat (length payload) = payload_size r ->
  allowed (cache_mgr_ n) (tot others n) q ->
  exists k n' a, (k <= 4)%nat /\ (forall fuel, process_loop (k + fuel) c n = process_loop fuel (u32 (c + 1)) n') /\
    spec_step alive (time_of (cache_mgr_ n)) q a (model_of (cache_mgr_ n)) (model_of (cache_mgr_ n')) /\
    finished r a payload rest n n'.
Proof.
  intros Ha Hq Hl Hal. destruct (extras_length r) as [kl|] eqn:E.
  - assert (payload_size r = kl) as Hp by (destruct r; try done; by injection E).
    rewrite Hp in Hl. subst kl. destruct (keyed_served e little alive conf self unassigned blocks r payload rest q others n c Ha E Hq Hal)
      as (n'&resp&Hloop&Hsv&a&Hstep&->).
    exists 3%nat, n', a. split; [lia|]. split; [exact Hloop|]. split; [exact Hstep|].
    unfold finished. replace (nothing_yet a) with false; [intros _; exists []; split; [by left|exact Hsv]|].
    destruct a; try done. exfalso. destruct r; try discriminate E; try discriminate Hq; injection Hq as <-; cbn in Hstep; naive_solver.
  - assert ((forall p, r <> UpdateReq p) \/ exists p, r = UpdateReq p) as [Hn|[p ->]] by (destruct r; (by left) || (right; by eexists)).
    2: { destruct (update_served p payload rest others n c q Ha Hq Hl Hal) as (k&n'&a&Hk). by exists k, n', a. }
    assert (payload = []) as -> by (apply nil_length_inv; destruct r; try discriminate E; try (by destruct (Hn p)); cbn in Hl; lia).
    pose proof Ha as [[Hw Hc _] Hst _ Hd _ Hrefs]. unfold all_refs in *. rewrite Hst in *.
    destruct (two_rounds e little alive conf self unassigned n c r [] rest others (fun n' => exists a,
      spec_step alive (time_of (cache_mgr_ n)) q a (model_of (cache_mgr_ n)) (model_of (cache_mgr_ n')) /\ finished r a [] rest n n') Ha)
      as (n'&Hloop&a&Hstep&Hfin).
    + destruct r; try discriminate E; try discriminate Hq; by vm_compute.
    + intros b Hwf Hdb. by eapply (fixed_answers r q (tot others n)).
    + exists 2%nat, n', a. split; [lia|]. by split.
Qed.
End answer.
