(* ===== verification/PeerProps.v ===== *)
(** * What a connection promises

    The life of a connection - it is made, it is given its first bytes, and the
    completions of its reads, its writes and its timer run one after the other - and
    the properties of it: [process] ends, no handler fails, a request in the receive
    buffer is the request of the reference with its response, and what the code does
    that it should not. *)

From S2P Require Import Prelude XixiList XixiHashMap Lookup3 Util CurrTime Pdu Stats Watch Slab Cache CacheInv CacheSpec CacheOps CacheData CacheSweep CacheStore CacheRun CacheProps Buffers Auth Peer PeerFacts PeerRun PeerServe PeerAnswer.
Import Cache_Watch.

(** ** The life of a connection *)

(** What asio calls a peer with; [None] and [false] tell an error. *)
Inductive completion :=
  | Started (d : bytes)
  | Was_read (got : option bytes)
  | Was_written (ok : bool)
  | Timed_out.

Section life.
Context (e : endian) (little : bool) `{Table_Malloc} `{Item_Malloc} `{Buffer_Malloc} `{Block_Malloc} `{Auth_Library}.
Context (alive : sink -> bool) (conf : settings) (self : sink) (unassigned : Z).
Implicit Types (n : node) (others : holds).

Definition handle (c : completion) : N unit :=
  match c with
  | Started d => Peer.start e little alive conf self unassigned d
  | Was_read got => Peer.handle_read e little alive conf self unassigned got
  | Was_written ok => Peer.handle_write e little alive conf self unassigned ok
  | Timed_out => Peer.handle_timer little alive self unassigned
  end.

(** No item is near the bound of its [ref_count]. *)
Definition cool n : Prop := forall p it, heap (cache_mgr_ n) !! p = Some it -> ref_count it + 68 < 2 ^ 15.

(** The completions there can be: the bytes fit, the timer was set, and no request
    that is handled meets one of the defects that the theorems on errors show. *)
Definition possible (c : completion) n : Prop :=
  cool n /\
  match c with
  | Started d => Forall is_byte d /\ benign_run e little alive conf self unassigned (with_data d n) = true
  | Was_read got => forall d, got = Some d ->
      arrives d n /\ benign_run e little alive conf self unassigned (with_data d (read_done n)) = true
  | Was_written ok => ok = true -> benign_run e little alive conf self unassigned (write_done n) = true
  | Timed_out => state_ (peer n) = PEER_STATUS_ASYNC_WAIT /\ timer_ (peer n) <> []
  end.

(** A connection on a cache that has served others before. *)
Inductive lives : node -> Prop :=
  | lives_created s held tr memory n :
      reaches e alive conf s held tr -> Z.of_nat (length memory) = Peer.DEFAULT_SIZE ->
      Peer.create self memory (mk_node (Peer.init memory) s [] false None) = Some (tt, n) -> lives n
  | lives_arrives n d : lives n -> Forall is_byte d -> lives (n <| socket_ ::= fun l => l ++ [d] |>)
  | lives_handles n c n' : lives n -> self_ (peer n) = true -> possible c n -> handle c n = Some (tt, n') -> lives n'.
End life.

(** A peer that starts is well formed. *)
Lemma init_ok e others memory t b n : inv e (cache_mgr_ n) others -> Z.of_nat (length memory) = Peer.DEFAULT_SIZE ->
  peer n = (Peer.init memory) <| timer_ := t |> <| timer_flag_ := b |> -> socket_ n = [] -> node_ok e others n.
Proof.
  intros Hi Hm Hp Hs. split; [split|..]; rewrite ?Hp, ?Hs; try done.
  eapply inv_held; [|exact Hi]. intros p. unfold all_refs, tot, plus, refs_of. rewrite Hp. cbn. lia.
  unfold stage. by rewrite Hp.
Qed.

Section life_facts.
Context (e : endian) (little : bool) `{Table_Malloc} `{Item_Malloc} `{!Item_Malloc_Ok} `{Buffer_Malloc} `{!Buffer_Malloc_Ok} `{Block_Malloc} `{Auth_Library}.
Context (alive : sink -> bool) (conf : settings) (self : sink) (unassigned : Z).
Context (blocks : forall n, malloc_block n = true).
Implicit Types (n : node) (others : holds).
Abbreviation lives := (lives e little alive conf self unassigned).
Abbreviation possible := (possible e little alive conf self unassigned).
Abbreviation handle := (handle e little alive conf self unassigned).

Lemma cool_few others n : inv e (cache_mgr_ n) (all_refs others n) -> cool n -> few_refs others n.
Proof.
  intros [Hc _] Hcool p. pose proof (c_held _ _ _ Hc p) as H0'.
  destruct (decide (0 < all_refs others n p)) as [Hp|Hp]; [|lia].
  destruct (held_heap e _ _ p Hc Hp) as (it&Hit&Hf). pose proof (Hcool p it Hit).
  destruct (c_item _ _ _ Hc p it Hit Hf) as (_&Hr&_). unfold refs in Hr. repeat case_decide; lia.
Qed.

(** A handler of a peer that is well formed leaves one that is, or ends it. *)
Lemma handle_ok others n c : node_ok e others n -> (forall p, 0 <= others p) -> possible c n ->
  wp (handle c) n (fun _ => left_ok e others).
Proof.
  intros Hok H0' [Hc Hp]. pose proof (cool_few others n (ok_cache _ _ _ Hok) Hc) as Hf. destruct c as [d|got|ok|]; cbn [handle].
  - destruct Hp. by apply start_ok.
  - by apply handle_read_ok.
  - by apply handle_write_ok.
  - destruct Hp. by apply (handle_timer_ok e little alive conf self unassigned blocks).
Qed.

Lemma socket_ok others n d : node_ok e others n -> Forall is_byte d ->
  node_ok e others (n <| socket_ ::= fun l => l ++ [d] |>).
Proof.
  intros [[] Hi Hs] Hd. split; [split; try done; cbn|exact Hi|exact Hs].
  apply Forall_app. split; [done|by constructor].
Qed.

(** The node is well formed as long as the peer is there; when it has gone, the
    cache is. *)
Lemma lives_ok n : lives n -> exists others, (forall p, 0 <= others p) /\
  (node_ok e others n \/ self_ (peer n) = false /\ inv e (cache_mgr_ n) others).
Proof.
  induction 1 as [s held tr memory n Hre Hm Hcr|n d _ (others&H0'&Hn) Hd|n c n' _ (others&H0'&Hn) Hself Hp Hst].
  - destruct (reaches_inv e alive conf s held tr Hre) as [Hi _]. pose proof (c_held _ _ _ (inv_core e _ _ Hi)) as H0'.
    exists held. split; [done|]. left. assert (wp (Peer.create self memory) (mk_node (Peer.init memory) s [] false None) (fun _ => node_ok e held)) as Hwp.
    { unfold Peer.create. apply wp_bind, wp_modify. unfold Peer.stats_conn. apply wp_cache_exact. apply wp_on, wp_modify. intros t b.
      cbn in b |- *. eapply (init_ok e held memory t b); [|done..]. by apply inv_stats, (s_stats _ (proj2 Hi)). }
    unfold wp in Hwp. by rewrite Hcr in Hwp.
  - exists others. split; [done|]. destruct Hn as [Hn|Hn]; [left; by apply socket_ok|by right].
  - destruct Hn as [Hn|[Hf _]]; [|congruence].
    pose proof (handle_ok others n c Hn H0' Hp) as Hwp. unfold wp in Hwp. rewrite Hst in Hwp. destruct Hwp as (o'&Hl&Ho).
    exists o'. split; [|done]. intros p. pose proof (H0' p). pose proof (Ho p). lia.
Qed.
End life_facts.

(** ** Properties *)
Section properties.
Context (e : endian) (little : bool) `{Table_Malloc} `{Item_Malloc} `{!Item_Malloc_Ok} `{Buffer_Malloc} `{!Buffer_Malloc_Ok} `{Block_Malloc} `{Auth_Library}.
Context (alive : sink -> bool) (conf : settings) (self : sink) (unassigned : Z).
Implicit Types (n : node) (others : holds).
Abbreviation process_loop := (Peer.process_loop e little alive conf self unassigned).


(** What a connection holds is accounted for, in every state of its life: each
    item of [cache_items_] is in the cache's memory, not in a free list, and counted
    in its [ref_count] as often as the connection lists it; the memory in use is that
    of the items and within the limit; [state_] and [next_data_len_] fit what is
    read: a fixed body of the size of its choice, a key of the length the request
    told, the rest of an item inside of its memory. *)
Theorem connection_accounts n :
  (forall size, malloc_block size = true) ->
  lives e little alive conf self unassigned n ->
  mem_used_ (cache_mgr_ n) = mem_of (heap (cache_mgr_ n)) /\ mem_used_ (cache_mgr_ n) <= mem_limit_ (cache_mgr_ n) /\
  (self_ (peer n) = true ->
   (forall p, p ∈ cache_items_ (peer n) -> exists it, heap (cache_mgr_ n) !! p = Some it /\
      p ∉ concat (free_cache_list_ (cache_mgr_ n)) /\
      Z.of_nat (count_occ Pos.eq_dec (cache_items_ (peer n)) p) <= ref_count it) /\
   match state_ (peer n) with
   | PEER_STATE_READ_BODY_FIXED => Peer.fixed_body_size (read_pdu_header_ (peer n)) = Some (next_data_len_ (peer n))
   | PEER_STATE_READ_BODY_EXTRAS => exists p it off, cache_item_ (peer n) = Some p /\
       heap (cache_mgr_ n) !! p = Some it /\ read_item_buf_ (peer n) = Some (p, off) /\
       0 <= off /\ off + next_data_len_ (peer n) = key_length it + data_size it
   | PEER_STATE_READ_BODY_EXTRAS2 => exists r, read_pdu_ (peer n) = Some r /\ extras_length r = Some (next_data_len_ (peer n))
   | _ => True
   end).
Proof.
  intros blocks Hn. destruct (lives_ok e little alive conf self unassigned blocks n Hn) as (others&H0'&[[Hw [Hc Hr] Hs]|[Hf [Hc Hr]]]).
  - split; [apply Hc|]. split; [apply Hc|]. intros _. split.
    + intros p Hp. assert (0 < count_occ Pos.eq_dec (cache_items_ (peer n)) p)%nat as Hcnt by (apply count_occ_In; by apply list_elem_of_In).
      assert (Z.of_nat (count_occ Pos.eq_dec (cache_items_ (peer n)) p) <= all_refs others n p) as Hge.
      { pose proof (H0' p). unfold all_refs, tot, plus, refs_of, give. repeat case_match; lia. }
      destruct (held_heap e _ _ p Hc) as (it&Hit&Hfree); [lia|]. exists it. split; [done|]. split; [done|].
      destruct (c_item _ _ _ Hc p it Hit Hfree) as (_&->&_). unfold refs. repeat case_decide; lia.
    + unfold stage in Hs. destruct (state_ (peer n)); try done.
      * destruct Hs as (pdu&p&it&off&_&Hp&Hb&Hraw&_&H1'&H2'). exists p, it, off. split_and!; try done. apply Hraw.
      * destruct Hs as (r&H1'&_&H2'). by exists r.
  - split; [apply Hc|]. split; [apply Hc|]. congruence.
Qed.

(** C4. A request of the wire is the request of the cache.  A connection waits for a
    header, with no length left from a request before it ([asked]).  When the bytes of
    a well-formed get, touch, base get, update, update of flags or expiration, deletion,
    delta, flush, statistics, watch or check of one stand in its receive buffer, with
    any bytes after them, and the cache is made for the request ([allowed]: sizes that
    fit an item, no delta of what is no number or that overflows), at most four rounds
    of [process] decode it, do what the reference of the cache does - at the time of the
    cache, on the map and the watches it has - and queue the response that encodes the
    reply, after those that wait (or, when the check of a watch finds nothing, wait for
    it).  The bytes after the request stay for the next; those of an update that was
    refused are skipped.  No item has 2^15 references, and every block of
    [Cache_Buffer] is found. *)
Theorem request_served r payload rest q others n c :
  (forall size, malloc_block size = true) ->
  asked e r payload rest others n -> cache_request self r payload = Some q -> Z.of_nat (length payload) = payload_size r ->
  allowed (cache_mgr_ n) (tot others n) q ->
  exists k n' a, (k <= 4)%nat /\
    (forall fuel, process_loop (k + fuel) c n = process_loop fuel (u32 (c + 1)) n') /\
    spec_step alive (time_of (cache_mgr_ n)) q a (model_of (cache_mgr_ n)) (model_of (cache_mgr_ n')) /\
    finished little unassigned r a payload rest n n'.
Proof. intros blocks. by apply all_served. Qed.

(** A peer that has read the fixed part of an authentication. *)
Definition logging_in (p : Auth_Req.pdu) n : Prop :=
  node_wf n /\ state_ (peer n) = PEER_STATE_READ_BODY_EXTRAS2 /\ read_pdu_ (peer n) = Some (AuthReq p) /\
  next_data_len_ (peer n) = Auth_Req.base64_length p.

(** The base64 text it waits for is there and does not decode. *)
Definition undecodable (p : Auth_Req.pdu) n : Prop := Auth_Req.base64_length p <= received n /\
  binary_of (take (Z.to_nat (Auth_Req.base64_length p)) (Receive_Buffer.data (read_buffer_ (peer n)))) = None.

Lemma auth_round p n c : logging_in p n ->
  (undecodable p n -> Peer.round e little alive conf self unassigned c n = None) /\
  (~ undecodable p n -> wp (Peer.round e little alive conf self unassigned c) n (fun r n' =>
    (logging_in p n' /\ write_buf_ (peer n') = write_buf_ (peer n) /\ cache_mgr_ n' = cache_mgr_ n) /\
    (Auth_Req.base64_length p = 0 -> r = (true, c)))).
Proof.
  intros (Hw&Hst&Hp&Hnx). pose proof (received_ge _ Hw) as Hge. pose proof (nw_next _ Hw) as Hn0. split.
  - intros [Hle Hno]. assert (Peer.process_pdu_extras2 e little alive self (read_pdu_ (peer n)) (Receive_Buffer.data (read_buffer_ (peer n))) n = None) as Hx.
    { rewrite Hp. unfold Peer.process_pdu_extras2, Peer.process_auth_req_pdu_extras, Peer.with_key, mbind, ST_bind. cbn [the].
      rewrite (data_received _ Hw), (proj2 (Z.ltb_ge _ _)) by lia. unfold Auth.login. by rewrite Hno. }
    unfold Peer.round, Peer.read_body_extras2, Peer.data_size, Peer.data, Peer.my, gets, mbind, ST_bind. rewrite Hst. fold (received n).
    by rewrite Z.geb_leb, Hnx, (proj2 (Z.leb_le _ _)), Hx by lia.
  - intros Hyes. apply wp_bind, wp_gets. rewrite Hst. apply wp_bind. unfold Peer.read_body_extras2.
    apply wp_bind, wp_gets, wp_bind, wp_gets. fold (received n).
    rewrite Z.geb_leb. destruct (Z.leb_spec (next_data_len_ (peer n)) (received n)) as [Hl|Hl].
    + apply wp_bind, wp_gets, wp_bind, wp_gets, wp_bind. rewrite Hp. unfold Peer.process_pdu_extras2. apply wp_bind. eapply wp_the; [done|].
      destruct (binary_of (take (Z.to_nat (Auth_Req.base64_length p)) (Receive_Buffer.data (read_buffer_ (peer n))))) as [dec|] eqn:Hd;
        [|by destruct Hyes; split; [lia|]].
      destruct (proj2 (Auth.login_defined _ []) (mk_is_Some _ _ Hd)) as [out Hout].
      unfold Peer.process_auth_req_pdu_extras, Peer.with_key. rewrite (data_received _ Hw), <- Hnx, (proj2 (Z.ltb_ge _ _)) by lia. rewrite Hnx.
      apply wp_bind, wp_bind. eapply wp_the; [done|]. apply wp_ret, wp_ret, wp_bind.
      eapply (wp_consume _ n); [done|lia|]. intros n1 b1 -> Hw1 _ _. by apply wp_ret, wp_ret.
    + apply wp_read_more; [done|]. intros run n' b sk -> Hw' _ _ _. apply wp_ret. split; [done|]. lia.
Qed.

(** C36. An authentication takes the connection: once the fixed part of one is read,
    no round of [process] leaves [PEER_STATE_READ_BODY_EXTRAS2], queues a response
    or touches the cache, whatever follows; only text that Boost does not decode ends
    it, with an exception that nobody catches.  When the length it tells is 0, the
    loop never ends, with any fuel. *)
Theorem auth_takes_connection n p c : logging_in p n ->
  (undecodable p n -> Peer.round e little alive conf self unassigned c n = None) /\
  (~ undecodable p n -> exists r n', Peer.round e little alive conf self unassigned c n = Some (r, n') /\ logging_in p n' /\
     write_buf_ (peer n') = write_buf_ (peer n) /\ cache_mgr_ n' = cache_mgr_ n) /\
  (Auth_Req.base64_length p = 0 -> is_Some (binary_of []) -> forall fuel, process_loop fuel c n = None).
Proof.
  intros Hl. split; [exact (proj1 (auth_round p n c Hl))|split].
  - intros Hu. destruct (proj1 (wp_run _ _ _) (proj2 (auth_round p n c Hl) Hu)) as (r&n'&Hr&Hs&_). by exists r, n'.
  - intros Hz [dec Hdec] fuel. revert n Hl. induction fuel as [|fuel IH]; intros n Hl; [done|].
    assert (~ undecodable p n) as Hu by (intros [_ Hno]; rewrite Hz, take_0 in Hno; congruence).
    destruct (proj1 (wp_run _ _ _) (proj2 (auth_round p n c Hl) Hu)) as (r&n'&Hr&[Hl' _]&Hrr).
    rewrite (Hrr Hz) in Hr. rewrite (loop_round e little alive conf self unassigned _ _ _ _ _ Hr). by apply IH.
Qed.

(** C37. A request that is read behind a longer one can wait for bytes that need not
    come: a peer that has answered, with a whole request header in its buffer, goes
    on to read it without [reset_for_new_cmd], so that [next_data_len_] is still the
    length of the key before; with fewer bytes than that it answers nothing, as long
    as nothing more is sent. *)
Theorem pipelined_request_waits others n c :
  node_ok e others n -> state_ (peer n) = PEER_STATUS_WRITE -> next_state_ (peer n) = PEER_STATE_NEW_CMD -> c < 32 ->
  XIXI_PDU_HEAD_LENGTH <= Receive_Buffer.read_data_size_ (read_buffer_ (peer n)) < next_data_len_ (peer n) -> socket_ n = [] ->
  exists n', (forall fuel, process_loop (2 + fuel) c n = Some (tt, n')) /\
    state_ (peer n') = PEER_STATE_READ_HEADER /\ next_data_len_ (peer n') = next_data_len_ (peer n) /\
    Receive_Buffer.data (read_buffer_ (peer n')) = Receive_Buffer.data (read_buffer_ (peer n)) /\
    write_buf_ (peer n') = write_buf_ (peer n).
Proof.
  intros [Hw _ _] Hst Hnext Hc [Hh Hl] Hsk.
  set (n1 := n <| peer ::= fun p => p <| next_state_ := PEER_STATE_NEW_CMD |> <| state_ := PEER_STATE_READ_HEADER |> |>).
  assert (wp (Peer.round e little alive conf self unassigned c) n (fun r n' => r = (true, c) /\ n' = n1)) as (r&n'&Hr&->&->)%wp_run.
  { apply wp_bind, wp_gets. rewrite Hst. apply wp_bind. unfold Peer.status_write. apply wp_bind, wp_gets, wp_bind, wp_modify, wp_bind, wp_modify.
    rewrite Hnext, (proj2 (Z.ltb_lt _ _)) by done. apply wp_bind, wp_gets.
    rewrite (proj2 (Z.geb_le _ _)) by exact Hh. cbn [andb bool_decide].
    apply wp_bind, wp_modify, wp_ret, wp_ret. split; [done|]. unfold n1. by destruct n as [[] ]. }
  assert (wp (Peer.round e little alive conf self unassigned c) n1 (fun r n' => r = (false, c) /\
    state_ (peer n') = PEER_STATE_READ_HEADER /\ next_data_len_ (peer n') = next_data_len_ (peer n) /\
    Receive_Buffer.data (read_buffer_ (peer n')) = Receive_Buffer.data (read_buffer_ (peer n)) /\
    write_buf_ (peer n') = write_buf_ (peer n))) as (r&n'&Hr2&->&Hn')%wp_run.
  { apply wp_bind, wp_gets. change (state_ (peer n1)) with PEER_STATE_READ_HEADER. unfold Peer.read_header.
    apply wp_bind, wp_gets, wp_bind, wp_gets. rewrite Z.geb_leb, (proj2 (Z.leb_gt _ _)) by done. apply wp_bind, wp_read_more_none; [by destruct Hw|done|].
    intros b Hb. by apply wp_ret. }
  exists n'. split; [|exact Hn']. intros fuel. change (2 + fuel)%nat with (S (S fuel)).
  rewrite (loop_round e little alive conf self unassigned _ _ _ _ _ Hr). cbn [Peer.process_loop]. unfold mbind, ST_bind. by rewrite Hr2.
Qed.

(** C38. A peer that goes while it reads the body of an update loses the item: its
    reference is not given back - the item keeps at least one more than all that
    others hold - so that the memory stays in use for ever. *)
Theorem destroy_loses_item others n p :
  node_ok e others n -> (forall q, 0 <= others q) -> (forall q, all_refs others n q < 2 ^ 15) ->
  state_ (peer n) = PEER_STATE_READ_BODY_EXTRAS -> cache_item_ (peer n) = Some p ->
  exists n' it, Peer.destroy self n = Some (tt, n') /\ self_ (peer n') = false /\
    heap (cache_mgr_ n') !! p = Some it /\ p ∉ concat (free_cache_list_ (cache_mgr_ n')) /\
    others p + 1 <= ref_count it /\ mem_used_ (cache_mgr_ n') = mem_of (heap (cache_mgr_ n')).
Proof.
  intros Hok H0' Hr Hst Hp. destruct (proj1 (wp_run _ _ _) (destroy_gives e self others n Hok H0' Hr)) as ([]&n'&Hd&Hs&o'&_&Ha&[Hc _]).
  specialize (Ha p). unfold all_refs in Ha. rewrite Hst, Hp, give_eq in Ha. unfold tot, plus in Ha. pose proof (H0' p).
  destruct (held_heap e _ _ p Hc) as (it&Hit&Hf); [lia|]. exists n', it. split_and!; try done; [|apply Hc].
  destruct (c_item _ _ _ Hc p it Hit Hf) as (_&->&_). unfold refs. repeat case_decide; lia.
Qed.
End properties.

(** ** The theorems at work *)
Module PeerDemo.
Import Demo.
#[global] Instance buffers : Buffer_Malloc := fun n =>
  if (n <? 0) || (2 ^ 20 <? n) then None else Some (replicate (Z.to_nat n) 0).
#[global] Instance buffers_ok : Buffer_Malloc_Ok.
Proof.
  intros n m. unfold malloc_buffer, buffers. destruct (Z.ltb_spec n 0), (Z.ltb_spec (2 ^ 20) n); try done.
  intros [= <-]. rewrite length_replicate. lia.
Qed.
#[global] Instance blocks : Block_Malloc := fun _ => true.
(** Base64 without padding, and texts cut at spaces. *)
Definition sextet (x : Z) : option Z :=
  if (65 <=? x) && (x <=? 90) then Some (x - 65) else if (97 <=? x) && (x <=? 122) then Some (x - 71)
  else if (48 <=? x) && (x <=? 57) then Some (x + 4) else if x =? 43 then Some 62 else if x =? 47 then Some 63 else None.
Fixpoint octets (l : list Z) : bytes :=
  match l with
  | a :: b :: l' => Z.shiftl a 2 + Z.shiftr b 4 ::
      match l' with
      | c :: l'' => Z.land (Z.shiftl b 4) 255 + Z.shiftr c 2 ::
          match l'' with d :: l3 => Z.land (Z.shiftl c 6) 255 + d :: octets l3 | [] => [] end
      | [] => []
      end
  | _ => []
  end.
Fixpoint words (s : bytes) : list bytes :=
  match s with
  | [] => [[]]
  | c :: s' => if c =? 32 then [] :: words s' else match words s' with w :: ws => (c :: w) :: ws | [] => [[c]] end
  end.
#[global] Instance boost : Auth_Library := { binary_of t := octets <$> mapM sextet t; tokens_of s := filter (fun w => w <> []) (words s) }.
Lemma all_blocks : forall size, malloc_block size = true.
Proof. done. Qed.

Definition memory : bytes := replicate 2048 0.
Definition me : sink := 7%positive.
Definition start : node := mk_node (Peer.init memory) (left_by requests) [] false None.
Definition created : node := from_option snd start (Peer.create me memory start).
Abbreviation handled := (handle LittleEndian true alive conf me 0).
Abbreviation life := (lives LittleEndian true alive conf me 0).
Abbreviation can := (possible LittleEndian true alive conf me 0).

(** A get of the key that is there, and the first bytes of an update. *)
Definition get_key1 : Pdu.request := GetReq (Get_Req.mk 3 0 2).
Definition set_key1 : Pdu.request := UpdateReq (Update_Req.mk 0 0 3 9 0 0 2 4).
Definition first_bytes : bytes := wire get_key1 ++ key1 ++ wire set_key1 ++ key1 ++ [49].
Definition reading : node := from_option snd created (handled (Started first_bytes) created).

Definition is_cool (n : node) : bool := bool_decide (map_Forall (fun _ it => ref_count it + 68 < 2 ^ 15) (heap (cache_mgr_ n))).
Lemma cool_check n : is_cool n = true -> cool n.
Proof. intros Hb%bool_decide_eq_true p it Hp. exact (Hb p it Hp). Qed.
Definition runs {A} (r : option A) : bool := match r with Some _ => true | None => false end.
Lemma ran (r : option (unit * node)) n : runs r = true -> r = Some (tt, from_option snd n r).
Proof. by destruct r as [[[] n']|]. Qed.
Lemma all_bytes b : forallb (fun x => (0 <=? x) && (x <? 256)) b = true -> Forall is_byte b.
Proof. rewrite forallb_forall. intros Hb. apply Forall_forall. intros x Hx%list_elem_of_In%Hb. unfold is_byte. lia. Qed.

Lemma created_lives : life created.
Proof.
  eapply (lives_created _ _ _ _ _ _ (left_by requests) (fun _ => 0) _ memory); [exact demo_reaches|done|].
  apply ran. by vm_compute.
Qed.
Lemma first_can : can (Started first_bytes) created.
Proof.
  split; [apply cool_check; by vm_compute|]. split; [|by vm_compute].
  apply all_bytes. by vm_compute.
Qed.
Lemma reading_lives : life reading.
Proof.
  eapply (lives_handles _ _ _ _ _ _ created (Started first_bytes)); [apply created_lives|by vm_compute|apply first_can|].
  apply ran. by vm_compute.
Qed.

Lemma reading_facts : self_ (peer reading) = true /\ state_ (peer reading) = PEER_STATE_READ_BODY_EXTRAS /\
  next_data_len_ (peer reading) = 3 /\ cache_item_ (peer reading) = Some 3%positive.
Proof. split_and!; vm_compute; reflexivity. Qed.


Lemma connection_accounts_witness :
  mem_used_ (cache_mgr_ reading) <= mem_limit_ (cache_mgr_ reading) /\
  exists p it off, heap (cache_mgr_ reading) !! p = Some it /\ read_item_buf_ (peer reading) = Some (p, off) /\ off + 3 = key_length it + data_size it.
Proof.
  destruct (connection_accounts LittleEndian true alive conf me 0 reading all_blocks reading_lives) as (_&Hm&Hp).
  split; [exact Hm|]. destruct reading_facts as (Hs&Hst&Hn&_). destruct (Hp Hs) as [_ Hw]. rewrite Hst in Hw.
  destruct Hw as (p&it&off&_&Hh&Hb&_&Ho). exists p, it, off. rewrite Hn in Ho. split; [exact Hh|]. by split.
Defined.

(** A node that has received [d] and is in the state [st]. *)
Definition peer_at (m : bytes) (st : peer_state) (next : Z) (d : bytes) : Peer_Cache :=
  (Peer.init m) <| state_ := st |> <| next_data_len_ := next |> <| read_pdu_ := Some (AuthReq (Auth_Req.mk next)) |>
    <| read_buffer_ ::= fun b => default b (Receive_Buffer.received d b) |>.
Definition at_state (st : peer_state) (next : Z) (d : bytes) : node := mk_node (peer_at memory st next d) (left_by requests) [] false None.
Definition is_wf (b : Receive_Buffer.buffer) : bool :=
  (0 <=? Receive_Buffer.read_curr_ b) && (0 <=? Receive_Buffer.read_data_size_ b) &&
  (Receive_Buffer.read_curr_ b + Receive_Buffer.read_data_size_ b <=? Receive_Buffer.read_buf_size_ b) &&
  (Receive_Buffer.read_buf_size_ b =? Z.of_nat (length (Receive_Buffer.read_buf_ b))) &&
  (Peer.DEFAULT_SIZE <=? Receive_Buffer.read_buf_size_ b) && (Receive_Buffer.read_buf_size_ b <? 2 ^ 31).
Lemma peer_at_ok m s st next d : let n := mk_node (peer_at m st next d) s [] false None in
  is_wf (read_buffer_ (peer_at m st next d)) = true ->
  forallb (fun x => (0 <=? x) && (x <? 256)) (Receive_Buffer.data (read_buffer_ (peer_at m st next d))) = true ->
  (0 <=? next) && (next <? 2 ^ 32) = true -> inv LittleEndian s (fun _ => 0) ->
  st <> PEER_STATE_READ_BODY_EXTRAS -> stage (fun _ => 0) n -> node_ok LittleEndian (fun _ => 0) n.
Proof.
  intros n Hw Hb Hn Hi Hst Hs. split; [split| |exact Hs].
  - change (Receive_Buffer.wf Peer.DEFAULT_SIZE (read_buffer_ (peer_at m st next d))). revert Hw.
    generalize (read_buffer_ (peer_at m st next d)). intros b Hb'. unfold is_wf in Hb'. repeat (apply andb_prop in Hb' as [Hb' ?]). split; lia.
  - by apply all_bytes.
  - constructor.
  - cbn. lia.
  - cbn. apply andb_prop in Hn as [? ?]. lia.
  - exact I.
  - eapply inv_held; [|exact Hi]. intros p. rewrite all_refs_tot by exact Hst. done.
Qed.
Lemma at_state_ok st next d :
  is_wf (read_buffer_ (peer_at memory st next d)) = true ->
  forallb (fun x => (0 <=? x) && (x <? 256)) (Receive_Buffer.data (read_buffer_ (peer_at memory st next d))) = true ->
  (0 <=? next) && (next <? 2 ^ 32) = true -> st <> PEER_STATE_READ_BODY_EXTRAS -> stage (fun _ => 0) (at_state st next d) ->
  node_ok LittleEndian (fun _ => 0) (at_state st next d).
Proof.
  intros Hw Hb Hn. apply peer_at_ok; [exact Hw|exact Hb|exact Hn|].
  apply (reaches_inv LittleEndian alive conf _ _ _ demo_reaches).
Qed.

Definition asking : node := at_state PEER_STATE_READ_HEADER XIXI_PDU_HEAD_LENGTH (wire get_key1 ++ key1 ++ [9]).
Lemma request_served_witness : exists k n' a, (k <= 4)%nat /\
  (forall fuel, Peer.process_loop LittleEndian true alive conf me 0 (k + fuel) 0 asking =
     Peer.process_loop LittleEndian true alive conf me 0 fuel 1 n') /\
  spec_step alive (time_of (cache_mgr_ asking)) (Get (3, key1) 0 false) a (model_of (cache_mgr_ asking)) (model_of (cache_mgr_ n')) /\
  finished true 0 get_key1 a key1 [9] asking n'.
Proof.
  apply (request_served LittleEndian true alive conf me 0 get_key1 key1 [9] (Get (3, key1) 0 false) (fun _ => 0) asking 0 all_blocks).
  - split; [|done|done|vm_compute; reflexivity| |].
    + apply at_state_ok; [by vm_compute..|done|]. left. done.
    + cbn. unfold Get_Req.wf. cbn. lia.
    + intros p. cbn. unfold tot, plus, refs_of. cbn. lia.
  - done.
  - vm_compute. reflexivity.
  - exact I.
Defined.

Definition logging_in_0 : node := at_state PEER_STATE_READ_BODY_EXTRAS2 0 [1; 2].
Definition logging_in_1 : node := at_state PEER_STATE_READ_BODY_EXTRAS2 1 [33; 2].
(** With a length of 0, and with a character of the demo's Boost that is none of base64. *)
Lemma auth_takes_connection_witness :
  (exists r n', Peer.round LittleEndian true alive conf me 0 0 logging_in_0 = Some (r, n') /\ write_buf_ (peer n') = []) /\
  (forall fuel, Peer.process_loop LittleEndian true alive conf me 0 fuel 0 logging_in_0 = None) /\
  Peer.round LittleEndian true alive conf me 0 0 logging_in_1 = None.
Proof.
  destruct (auth_takes_connection LittleEndian true alive conf me 0 logging_in_0 (Auth_Req.mk 0) 0) as (_&Hr&Hl).
  - split; [|done]. apply (at_state_ok PEER_STATE_READ_BODY_EXTRAS2 0 [1; 2]); [by vm_compute..|done|].
    exists (AuthReq (Auth_Req.mk 0)). split; [done|]. split; [cbn; unfold Auth_Req.wf; cbn; lia|done].
  - destruct Hr as (r&n'&Hr&_&Hw&_); [by intros [_ Hno]|]. split; [by exists r, n'|]. split; [by apply Hl|].
    apply (auth_takes_connection LittleEndian true alive conf me 0 logging_in_1 (Auth_Req.mk 1) 0).
    + split; [|done]. apply (at_state_ok PEER_STATE_READ_BODY_EXTRAS2 1 [33; 2]); [by vm_compute..|done|].
      exists (AuthReq (Auth_Req.mk 1)). split; [done|]. split; [cbn; unfold Auth_Req.wf; cbn; lia|done].
    + split; [by vm_compute|by vm_compute].
Defined.

(** A hello behind a get with a key of five bytes. *)
Lemma pipelined_request_waits_witness :
  exists n', (forall fuel, Peer.process_loop LittleEndian true alive conf me 0 (2 + fuel) 0
      (at_state PEER_STATUS_WRITE 5 (be_bytes 2 XIXI_CHOICE_HELLO_REQ)) = Some (tt, n')) /\
    Receive_Buffer.data (read_buffer_ (peer n')) = be_bytes 2 XIXI_CHOICE_HELLO_REQ /\ write_buf_ (peer n') = [].
Proof.
  destruct (pipelined_request_waits LittleEndian true alive conf me 0 (fun _ => 0)
    (at_state PEER_STATUS_WRITE 5 (be_bytes 2 XIXI_CHOICE_HELLO_REQ)) 0) as (n'&Hl&_&_&Hd&Hw).
  - apply at_state_ok; [by vm_compute..|done|done].
  - done.
  - done.
  - done.
  - vm_compute. split; [discriminate|reflexivity].
  - done.
  - exists n'. split; [exact Hl|]. split; [rewrite Hd; vm_compute; reflexivity|exact Hw].
Defined.

Lemma destroy_loses_item_witness : exists n' p it, Peer.destroy me reading = Some (tt, n') /\
  heap (cache_mgr_ n') !! p = Some it /\ 1 <= ref_count it.
Proof.
  destruct reading_facts as (Hs&Hst&_&Hi).
  destruct (lives_ok LittleEndian true alive conf me 0 all_blocks reading reading_lives) as (others&H0'&[Hok|[Hf _]]); [|congruence].
  assert (cool reading) as Hc by (apply cool_check; by vm_compute).
  destruct (destroy_loses_item LittleEndian me others reading 3%positive Hok H0') as (n'&it&Hd&_&Hh&_&Hr&_); [|exact Hst|exact Hi|].
  - intros q. pose proof (cool_few LittleEndian others reading (ok_cache _ _ _ Hok) Hc q). lia.
  - exists n', 3%positive, it. split; [exact Hd|]. split; [exact Hh|]. pose proof (H0' 3%positive). lia.
Defined.
End PeerDemo.
