(* ===== verification/Server.v ===== *)
(** * The server, [src/src/server.h] and [src/src/server.cpp], with
    [io_service_pool.cpp] and [handler_allocator.hpp]

    The pool of asio's services, the connections whose first bytes tell their
    protocol, the acceptors, the timer, and all of it together: a [system] is the
    cache with every connection there is, and an [event] a completion of asio or the
    timer.  What asio and the operating system answer are arguments.  [None] is a
    dangling pointer or memory that is left. *)

From S2P Require Import Prelude XixiList XixiHashMap Lookup3 Util CurrTime Pdu Stats Watch Slab Cache CacheRun Buffers Auth Settings Peer PeerProps.

(** ** The memory of the handlers, [handler_allocator.hpp] *)
Module Handler_Allocator.
Inductive pointer := buffer_ | new_ (p : positive).
Definition DEFAULT_SIZE : Z := 256.

(** Lines 31-43 and 45-51; [fresh] is what [operator new] returns.  The state is
    [in_use_]. *)
Definition init : bool := false.
Definition alloc (size : Z) (fresh : positive) : ST bool pointer :=
  in_use_ ← gets id;
  if negb in_use_ && (size <? DEFAULT_SIZE) then modify (fun _ => true);; mret buffer_ else mret (new_ fresh).
Definition free (p : pointer) : ST bool unit :=
  match p with buffer_ => modify (fun _ => false) | new_ _ => mret tt end.
End Handler_Allocator.

(** ** The services, [io_service_pool.h] and [io_service_pool.cpp] *)

(** A service is the number of its object; [stopped_] tells of [io_service::stop]. *)
Record io_service_pool := mk_pool {
  io_services_ : list nat;
  next_io_service_ : nat;
  thread_size_ : nat;
  stopped_ : bool
}.
Module Pool.
(** Lines 24-41. *)
Definition create (pool_size thread_size : nat) : io_service_pool :=
  let pool_size := if (pool_size <=? 0)%nat then 1%nat else pool_size in
  let thread_size := if (thread_size <=? 0)%nat then 1%nat else thread_size in
  mk_pool (seq 0 pool_size) 0 thread_size false.
(** Lines 54-68: the services the threads run. *)
Definition run (p : io_service_pool) : option (list nat) :=
  mapM (fun t => io_services_ p !! (t mod length (io_services_ p))%nat) (seq 0 (thread_size_ p)).
(** Lines 70-74 and 76-81. *)
Definition stop : ST io_service_pool unit := modify (fun p => p <| stopped_ := true |>).
Definition get_io_service : ST io_service_pool nat :=
  next ← gets next_io_service_; services ← gets io_services_;
  s ← the (services !! next);
  modify (fun p => p <| next_io_service_ := ((next + 1) mod length services)%nat |>);;
  mret s.
Definition get_thread_size : ST io_service_pool nat := gets thread_size_.
End Pool.

(** ** The first bytes of a connection *)

Abbreviation acceptor := nat.
(** Lines 29-35 and 149-155, and 157-163 and 290-296 for SSL. *)
Record Connection_Help := mk_help {
  service_ : nat;
  acceptor_ : acceptor;
  read_buf_ : bytes;
  read_data_size_ : Z
}.
(** What an operation comes to: a read into the rest of the buffer, a handshake, an
    end, at once or posted, or a peer with its first bytes, which owns the socket. *)
Inductive first_step :=
  | Reads (h : Connection_Help) (room : Z)
  | Shakes (h : Connection_Help)
  | Posts_destroy (h : Connection_Help)
  | Deleted
  | Starts_cache (d : bytes)
  | Starts_http (d : bytes).

Module Help.
Definition BUF_SIZE : Z := 1025.
Definition create (service : nat) (a : acceptor) (memory : bytes) : Connection_Help := mk_help service a memory 0.

(** [IS_METHOD], [peer_http.h] line 31. *)
Definition IS_METHOD (data : bytes) (name : string) : bool := bool_decide (take 4 data = Stats.literal name).

(** Lines 118-135. *)
Definition start_peer (h : Connection_Help) : option first_step :=
  let data := read_buf_ h in
  let data_len := read_data_size_ h in
  if data_len >=? 4 then
    b0 ← data !! 0%nat;
    if b0 =? XIXI_CATEGORY_CACHE then d ← mem_read 0 data_len data; Some (Starts_cache d)
    else if IS_METHOD data "GET " || IS_METHOD data "POST" || IS_METHOD data "HEAD" then
      data ← mem_write data_len [0] data;
      d ← mem_read 0 data_len data;
      Some (Starts_http d)
    else Some Deleted
  else Some Deleted.

(** The rest of the buffer, lines 82 and 98. *)
Definition room (h : Connection_Help) : Z := BUF_SIZE - 1 - read_data_size_ h.
(** Lines 90-105. *)
Definition process (length : Z) (h : Connection_Help) : option first_step :=
  let h := h <| read_data_size_ ::= fun s => u32 (s + u32 length) |> in
  if read_data_size_ h >=? 4 then start_peer h else Some (Reads h (room h)).

(** asio copies what came behind the data. *)
Definition receive (got : bytes) (h : Connection_Help) : option Connection_Help :=
  b ← mem_write (read_data_size_ h) got (read_buf_ h);
  Some (h <| read_buf_ := b |>).
(** Lines 45-88; [ec1] and [ec2] tell the errors of the options, [got] is what
    [read_some] finds. *)
Definition start (ec1 ec2 : bool) (got : bytes) (h : Connection_Help) : option first_step :=
  if ec1 then Some (Posts_destroy h)
  else if ec2 then Some (Posts_destroy h)
  else
    h ← receive got h;
    let length := u32 (Z.of_nat (length got)) in
    if length >? 0 then process length h else Some (Reads h (room h)).
(** Lines 107-116. *)
Definition handle_first_read (got : option bytes) (h : Connection_Help) : option first_step :=
  match got with
  | Some d => h ← receive d h; process (Z.of_nat (length d)) h
  | None => Some Deleted
  end.
End Help.

(** Lines 157-296: the same over SSL, after a handshake. *)
Module SSL_Help.
(** Lines 174-211. *)
Definition start (ec1 ec2 : bool) (h : Connection_Help) : option first_step :=
  if ec1 then Some Deleted else if ec2 then Some Deleted else Some (Shakes h).
(** Lines 259-276 and 231-246 are those of [Connection_Help]. *)
Definition start_peer : Connection_Help -> option first_step := Help.start_peer.
Definition process (length : Z) (h : Connection_Help) : option first_step :=
  let h := h <| read_data_size_ ::= fun s => u32 (s + u32 length) |> in
  if read_data_size_ h >=? 4 then start_peer h else Some (Reads h (Help.room h)).
(** Lines 213-229. *)
Definition handle_handshake (err : bool) (got : bytes) (h : Connection_Help) : option first_step :=
  if negb err then
    h ← Help.receive got h;
    let length := u32 (Z.of_nat (length got)) in
    if length >? 0 then process length h else Some (Reads h (Help.BUF_SIZE - 1))
  else Some Deleted.
(** Lines 248-257. *)
Definition handle_first_read (got : option bytes) (h : Connection_Help) : option first_step :=
  match got with
  | Some d => h ← Help.receive d h; process (Z.of_nat (length d)) h
  | None => Some Deleted
  end.
End SSL_Help.

(** ** The acceptors *)

(** An accept that is under way: its acceptor, the service of its socket, and
    whether it is for SSL. *)
Record accept := mk_accept { ac_acceptor : acceptor; ac_service : nat; ac_ssl : bool }.
(** [class Server]; [live_] are the acceptors that are not deleted, [accepts_] the
    accepts under way, and [waiting_] tells of the wait of [timer_]. *)
Record Server := mk_server {
  io_service_pool_ : io_service_pool;
  resolver_ : nat;
  timer_service_ : nat;
  acceptors_ : list acceptor;
  acceptors_ssl_ : list acceptor;
  stop_flag_ : bool;
  live_ : list acceptor;
  created_ : nat;
  accepts_ : list accept;
  waiting_ : bool
}.

(** What the system answers while an acceptor is made: each tells an error. *)
Record answers := mk_answers {
  bad_address : bool;
  bad_open : bool;
  bad_option : bool;
  bad_bind : bool;
  bad_listen : bool
}.

Module Svr.
Abbreviation V := (ST Server).
Definition in_pool {A} (m : ST io_service_pool A) : V A := on io_service_pool_ (fun p s => s <| io_service_pool_ := p |>) m.

(** Lines 298-311; the clock is that of the cache. *)
Definition create (pool_size thread_size : nat) : option Server :=
  match Pool.get_io_service (Pool.create pool_size thread_size) with
  | Some (r, p) =>
      match Pool.get_io_service p with
      | Some (t, p) => Some (mk_server p r t [] [] false [] 0 [] false)
      | None => None
      end
  | None => None
  end.

(** Lines 435-440 and 457-462: an accept needs its acceptor. *)
Definition async_accept (a : acceptor) (ssl : bool) : V unit :=
  service ← in_pool Pool.get_io_service;
  live ← gets live_;
  assert_ (bool_decide (a ∈ live));;
  modify (fun s => s <| accepts_ ::= fun l => l ++ [mk_accept a service ssl] |>).
Definition start_accept (a : acceptor) : V unit := async_accept a false.
Definition start_accept_ssl (a : acceptor) : V unit := async_accept a true.

(** Lines 387-433. *)
Definition new_acceptor : V acceptor :=
  in_pool Pool.get_io_service;;
  a ← gets created_;
  modify (fun s => s <| created_ := S a |> <| live_ ::= cons a |>);;
  mret a.
Definition listen (reuse_address ssl : bool) (w : answers) : V bool :=
  if bad_address w then mret false
  else
    a ← new_acceptor;
    if bad_open w then mret false
    else if reuse_address && bad_option w then mret false
    else if bad_bind w then mret false
    else
      n ← in_pool Pool.get_thread_size;
      (if ssl : bool then
         modify (fun s => s <| acceptors_ssl_ ::= fun l => l ++ [a] |>);;
         for_each (fun _ => start_accept_ssl a) (seq 0 n)
       else
         modify (fun s => s <| acceptors_ ::= fun l => l ++ [a] |>);;
         for_each (fun _ => start_accept a) (seq 0 n));;
      mret true.

(** Lines 316-351, but for the cache, which [Mgr.start] is; a connector comes with
    what is answered for it. *)
Fixpoint listen_all (l : list (Connector * answers)) : V bool :=
  match l with
  | [] => mret true
  | (c, w) :: l => r ← listen (reuse_address c) (Settings.ssl c) w; if r : bool then listen_all l else mret false
  end.
Definition start (l : list (Connector * answers)) (bad_chain bad_key : bool) : V bool :=
  r ← listen_all l;
  if negb r then mret false
  else if bad_chain then mret false
  else if bad_key then mret false
  else modify (fun s => s <| waiting_ := true |>);; mret true.

(** Lines 353-373. *)
Definition delete_acceptor (a : acceptor) : V unit := modify (fun s => s <| live_ ::= base.filter (fun b => b <> a) |>).
Definition close_acceptors : V unit :=
  modify (fun s => s <| stop_flag_ := true |>);;
  l ← gets acceptors_;
  for_each delete_acceptor l;;
  modify (fun s => s <| acceptors_ := [] |>);;
  l ← gets acceptors_ssl_;
  for_each delete_acceptor l;;
  modify (fun s => s <| acceptors_ssl_ := [] |>).
Definition stop : V unit := close_acceptors;; in_pool Pool.stop.
(** Lines 375-381. *)
Definition run (s : Server) : option (list nat) := Pool.run (io_service_pool_ s).
Definition create_socket : V nat := in_pool Pool.get_io_service.

(** Lines 442-455 and 464-477: accept number [i] has ended; what is left is the
    start of the new connection. *)
Definition handle_accept (i : nat) (err : bool) : V (option accept) :=
  l ← gets accepts_;
  a ← the (l !! i);
  modify (fun s => s <| accepts_ := take i l ++ drop (S i) l |>);;
  let again := if ac_ssl a then start_accept_ssl (ac_acceptor a) else start_accept (ac_acceptor a) in
  if negb err then again;; mret (Some a)
  else
    stopped ← gets stop_flag_;
    (if negb stopped then again else mret tt);;
    mret None.
End Svr.

(** ** The connections and their cache *)

(** A connection of the binary protocol without the cache: [node] is it with the
    cache. *)
Record cache_conn := mk_cache_conn {
  cc_peer : Peer_Cache;
  cc_socket : list bytes;
  cc_reading : bool;
  cc_writing : option (list const_buffer)
}.
Definition node_of (s : Cache_Mgr) (c : cache_conn) : node := mk_node (cc_peer c) s (cc_socket c) (cc_reading c) (cc_writing c).
Definition conn_of (n : node) : cache_conn := mk_cache_conn (peer n) (Peer.socket_ n) (reading_ n) (writing_ n).
(** What becomes of a connection: in its handshake, before its first bytes, or a
    peer.  Of a peer of HTTP it is kept that it is there. *)
Inductive connection :=
  | Shaking (h : Connection_Help)
  | Helping (ssl : bool) (h : Connection_Help)
  | Caching (c : cache_conn)
  | Browsing.
(** [web_] are the items the peers of HTTP hold references to.  [next_] is the number
    of the next connection: no number is used twice, as no weak pointer to a peer
    locks another. *)
Record system := mk_system {
  server_ : Server;
  cache_ : Cache_Mgr;
  conns_ : gmap sink connection;
  web_ : list ptr;
  next_ : sink
}.

Section system.
Context (e : endian) (little : bool) `{Table_Malloc} `{Item_Malloc} `{Buffer_Malloc} `{Block_Malloc} `{Auth_Library}.
Context (conf : settings) (unassigned : Z).
Abbreviation Y := (ST system).

(** A peer that is there can be locked. *)
Definition alive (conns : gmap sink connection) (k : sink) : bool :=
  match conns !! k with Some (Caching _ | Browsing) => true | _ => false end.

(** The watches call back the peers there are, while they hold the lock of the
    cache. *)
Definition notify (calls : list (sink * Z)) (k : sink) (c : connection) : connection :=
  match c with
  | Caching c => Caching (c <| cc_peer ::= Nat.iter (length (base.filter (fun x => x.1 = k) calls)) Peer.on_cache_watch_notify |>)
  | _ => c
  end.
Definition notify_all (s s' : Cache_Mgr) (conns : gmap sink connection) : gmap sink connection :=
  map_imap (fun k c => Some (notify (drop (length (Cache.notified_ s)) (Cache.notified_ s')) k c)) conns.

(** A call of the cache that no connection of the binary protocol makes. *)
Definition call {A} (m : (sink -> bool) -> M A) : Y A := fun y =>
  match m (alive (conns_ y)) (cache_ y) with
  | Some (a, s) => Some (a, y <| cache_ := s |> <| conns_ ::= notify_all (cache_ y) s |>)
  | None => None
  end.
Definition in_server {A} (m : ST Server A) : Y A := on server_ (fun v y => y <| server_ := v |>) m.
Definition count (m : ST stats unit) : Y unit := call (fun _ => on Cache.stats_ (fun st s => s <| Cache.stats_ := st |>) m).

(** A handler of the peer number [k]; a peer that is destroyed is gone. *)
Definition at_peer (k : sink) (m : (sink -> bool) -> N unit) : Y unit := fun y =>
  match conns_ y !! k with
  | Some (Caching c) =>
      match m (alive (conns_ y)) (node_of (cache_ y) c) with
      | Some (_, n) =>
          let others := notify_all (cache_ y) (Peer.cache_mgr_ n) (delete k (conns_ y)) in
          Some (tt, y <| cache_ := Peer.cache_mgr_ n |>
                      <| conns_ := if self_ (peer n) then <[k := Caching (conn_of n)]> others else others |>)
      | None => None
      end
  | _ => None
  end.

(** What follows of a step of the first bytes; [memory] is that of the read buffer
    of a new peer. *)
Definition put_conn (k : sink) (c : connection) : Y unit := modify (fun y => y <| conns_ ::= <[k := c]> |>).
Definition drop_conn (k : sink) : Y unit := modify (fun y => y <| conns_ ::= base.delete k |>).
Definition start_cache (k : sink) (memory d : bytes) (alive : sink -> bool) : N unit :=
  Peer.create k memory;; Peer.start e little alive conf k unassigned d.
Definition follow (k : sink) (ssl : bool) (memory : bytes) (f : first_step) : Y unit :=
  match f with
  | Reads h _ => put_conn k (Helping ssl h)
  | Shakes h => put_conn k (Shaking h)
  | Posts_destroy _ | Deleted => drop_conn k
  | Starts_cache d =>
      put_conn k (Caching (mk_cache_conn (Peer.init memory) [] false None));;
      at_peer k (start_cache k memory d)
  | Starts_http _ => put_conn k Browsing;; count Stats.new_conn
  end.

(** Lines 479-487 of [server.cpp]; [reading] is what [time] returns. *)
Definition handle_timer (reading : Z) : Y unit :=
  call (fun _ => Mgr.tick reading);;
  call Mgr.check_expired;;
  call (fun _ => Mgr.print_stats);;
  in_server (modify (fun v => v <| waiting_ := true |>)).

(** What happens: an accept ends; the first read or the handshake of a connection
    ends; bytes come to a socket; an operation of a peer ends; the timer; a peer of
    HTTP calls the cache, or ends; the signal to stop. *)
Inductive event :=
  | Accepted (i : nat) (err ec1 ec2 : bool) (help_memory got memory : bytes)
  | Shaken (k : sink) (err : bool) (got memory : bytes)
  | First_read (k : sink) (got : option bytes) (memory : bytes)
  | Arrives (k : sink) (d : bytes)
  | Completes (k : sink) (c : completion)
  | Timer (reading : Z)
  | Called (r : request)
  | Browsed (k : sink)
  | Stopped.

(** A reference that a peer of HTTP was given, or gave back. *)
Fixpoint give_back (p : ptr) (l : list ptr) : option (list ptr) :=
  match l with
  | [] => None
  | q :: l => if decide (q = p) then Some l else cons q <$> give_back p l
  end.
Definition hold (r : request) (o : option ptr) : Y unit :=
  l ← gets web_;
  l ← the match o, r with Some p, _ => Some (p :: l) | None, Release p => give_back p l | None, _ => Some l end;
  modify (fun y => y <| web_ := l |>).
Definition next_sink : Y sink := k ← gets next_; modify (fun y => y <| next_ ::= Pos.succ |>);; mret k.
Definition shaking (k : sink) : Y Connection_Help := fun y =>
  match conns_ y !! k with Some (Shaking h) => Some (h, y) | _ => None end.
Definition helping (k : sink) : Y (bool * Connection_Help) := fun y =>
  match conns_ y !! k with Some (Helping ssl h) => Some ((ssl, h), y) | _ => None end.
Definition arrive (d : bytes) (c : connection) : connection :=
  match c with Caching c => Caching (c <| cc_socket ::= fun l => l ++ [d] |>) | _ => c end.

(** The start of a connection that was accepted. *)
Definition start_help (ac : accept) (ec1 ec2 : bool) (help_memory got memory : bytes) : Y unit :=
  k ← next_sink;
  let h := Help.create (ac_service ac) (ac_acceptor ac) help_memory in
  f ← the (if ac_ssl ac then SSL_Help.start ec1 ec2 h else Help.start ec1 ec2 got h);
  follow k (ac_ssl ac) memory f.

Definition happen (ev : event) : Y unit :=
  match ev with
  | Accepted i err ec1 ec2 help_memory got memory =>
      a ← in_server (Svr.handle_accept i err);
      match a with Some ac => start_help ac ec1 ec2 help_memory got memory | None => mret tt end
  | Shaken k err got memory =>
      h ← shaking k; f ← the (SSL_Help.handle_handshake err got h); follow k true memory f
  | First_read k got memory =>
      h ← helping k;
      f ← the (if h.1 : bool then SSL_Help.handle_first_read got h.2 else Help.handle_first_read got h.2);
      follow k h.1 memory f
  | Arrives k d => modify (fun y => y <| conns_ ::= alter (arrive d) k |>)
  | Completes k c => at_peer k (fun alive => handle e little alive conf k unassigned c)
  | Timer reading => handle_timer reading
  | Called r => ao ← call (fun alive => run_request e alive conf r); hold r ao.2
  | Browsed k => drop_conn k;; count Stats.close_conn
  | Stopped => in_server Svr.stop
  end.

(** [main.cpp] lines 208-211: the server is made and started, over a cache that
    [Mgr.start] makes; if the server does not start there is none. *)
Definition boot (pool_size thread_size : nat) (l : list (Connector * answers)) (bad_chain bad_key : bool)
    (limit item_size_max item_size_min : Z) (factor : SpecFloat.spec_float) (time : Z) : option (option system) :=
  v ← Svr.create pool_size thread_size;
  '(r, v) ← Svr.start l bad_chain bad_key v;
  if r : bool then
    s ← Mgr.start limit item_size_max item_size_min factor time;
    Some (Some (mk_system v s ∅ [] 1%positive))
  else Some None.
End system.
