(* ===== verification/ServerRun.v ===== *)
(** * Every connection on one cache: the invariant of a [system]

    Each connection of the binary protocol is well formed next to the references of
    all others, which add up to the [ref_count]s of the items.  A step of one keeps
    the others: what they list stays theirs, and an item whose body one of them is
    receiving is in no list and nobody else's. *)

From S2P Require Import Prelude XixiList XixiHashMap Lookup3 Util CurrTime Pdu Stats Watch Slab Cache CacheInv CacheSpec CacheStore CacheRun CacheFrame Buffers Auth Settings Peer PeerFacts PeerFrame PeerRun PeerServe PeerAnswer PeerProps Server.

(** ** The references of a connection *)

(** Those of its items, and the one to the item that it is receiving. *)
Definition receiving (p : Peer_Cache) : option ptr :=
  match state_ p with PEER_STATE_READ_BODY_EXTRAS => cache_item_ p | _ => None end.
Definition own (c : connection) : holds := fun q =>
  match c with
  | Caching c => refs_of (cache_items_ (cc_peer c)) q + (if decide (receiving (cc_peer c) = Some q) then 1 else 0)
  | _ => 0
  end.
(** Those of all connections. *)
Definition total (m : gmap sink holds) : holds := fun p => map_fold (fun _ (h : holds) n => h p + n) 0 m.
Definition owned (conns : gmap sink connection) : holds := total (own <$> conns).

Lemma node_of_conn n : node_of (Peer.cache_mgr_ n) (conn_of n) = n.
Proof. by destruct n. Qed.
Lemma own_ge c p : 0 <= own c p.
Proof. destruct c as [| |c|]; cbn; try lia. pose proof (refs_of_ge (cache_items_ (cc_peer c)) p). case_decide; lia. Qed.
Lemma all_refs_own others s c p : all_refs others (node_of s c) p = others p + own (Caching c) p.
Proof.
  unfold all_refs, own, receiving, tot, plus. cbn. destruct (state_ (cc_peer c)); try (rewrite decide_False by done; lia).
  destruct (cache_item_ (cc_peer c)) as [q|]; unfold give.
  - destruct (decide (Some q = Some p)), (decide (p = q)); try congruence; lia.
  - rewrite decide_False by done. lia.
Qed.

Lemma total_insert k h m p : m !! k = None -> total (<[k := h]> m) p = h p + total m p.
Proof. intros Hk. unfold total. rewrite map_fold_insert_L; [done|intros; lia|done]. Qed.
Lemma total_delete k h m p : m !! k = Some h -> total m p = h p + total (delete k m) p.
Proof. intros Hk. rewrite <- (insert_delete_id m k h) at 1 by done. by rewrite total_insert by apply lookup_delete_eq. Qed.
Lemma owned_split k c conns p : conns !! k = Some c -> owned conns p = own c p + owned (delete k conns) p.
Proof. intros Hk. unfold owned. rewrite fmap_delete. apply total_delete. by rewrite lookup_fmap, Hk. Qed.
Lemma owned_insert k c conns p : conns !! k = None -> owned (<[k := c]> conns) p = own c p + owned conns p.
Proof. intros Hk. unfold owned. rewrite fmap_insert. apply total_insert. by rewrite lookup_fmap, Hk. Qed.
Lemma owned_ge conns p : 0 <= owned conns p.
Proof.
  induction conns as [|k c conns Hk IH] using map_ind; [unfold owned, total; by rewrite fmap_empty, map_fold_empty|].
  rewrite owned_insert by done. pose proof (own_ge c p). lia.
Qed.
Lemma owned_le k c conns p : conns !! k = Some c -> own c p <= owned conns p.
Proof. intros Hk. rewrite (owned_split k c) by done. pose proof (owned_ge (delete k conns) p). lia. Qed.

(** A connection that is told of a change is the same but for its timer. *)
Definition like (c c' : connection) : Prop := exists t b,
  c' = match c with Caching c => Caching (c <| cc_peer ::= fun p => p <| timer_ := t |> <| timer_flag_ := b |> |>) | _ => c end.
Lemma notify_like calls k c : like c (notify calls k c).
Proof.
  destruct c as [h|ssl h|c|]; try by exists [], false. unfold notify, like. set (i := length _). clearbody i.
  destruct (notified (cc_peer c) i) as (t&b&Hi). exists t, b. unfold set. cbn. by rewrite Hi.
Qed.
Lemma own_like c c' : like c c' -> own c' = own c.
Proof. intros (t&b&->). by destruct c. Qed.
Lemma notify_all_lookup s s' conns k : notify_all s s' conns !! k = notify (drop (length (notified_ s)) (notified_ s')) k <$> conns !! k.
Proof. unfold notify_all. rewrite map_lookup_imap. by destruct (conns !! k). Qed.
Lemma notify_all_like s s' conns k c' : notify_all s s' conns !! k = Some c' -> exists c, conns !! k = Some c /\ like c c'.
Proof. rewrite notify_all_lookup, fmap_Some. intros (c&Hc&->). exists c. split; [done|apply notify_like]. Qed.
Lemma owned_notify s s' conns : owned (notify_all s s' conns) = owned conns.
Proof.
  unfold owned. f_equal. apply map_eq. intros k. rewrite !lookup_fmap, notify_all_lookup.
  destruct (conns !! k) as [c|]; [|done]. cbn. by rewrite (own_like c) by apply notify_like.
Qed.

(** ** A cache and its connections *)
Section served.
Context (e : endian).
Implicit Types (s : Cache_Mgr) (base : holds) (conns : gmap sink connection) (others : holds) (n : node).

Lemma node_ok_ext others others' n : (forall p, others' p = others p) -> node_ok e others n -> node_ok e others' n.
Proof.
  intros Ho [Hw Hi Hs]. assert (forall p, all_refs others' n p = all_refs others n p) as Ha.
  { intros p. unfold all_refs, tot, plus, give. by repeat case_match; rewrite Ho. }
  split; [done|by eapply inv_held; [exact Ha|]|]. unfold stage in *. destruct (state_ (peer n)); try done.
  destruct Hs as (pdu&p&it&off&Hpdu&Hci&Hat&[Hh Hp Hhe]&Hone&Hoff&Hlen). exists pdu, p, it, off. rewrite Ha.
  split_and!; try done. split; [done|done|by rewrite Ha].
Qed.

(** [base] are the references of nobody here. *)
Record served base s conns : Prop := {
  sv_base : forall p, 0 <= base p;
  sv_cache : inv e s (plus base (owned conns));
  sv_conns : forall k c, conns !! k = Some (Caching c) ->
    self_ (cc_peer c) = true /\ node_ok e (plus base (owned (delete k conns))) (node_of s c)
}.

Lemma served_ext base base' s conns : (forall p, base' p = base p) -> served base s conns -> served base' s conns.
Proof.
  intros Hb [H0' Hi Hc]. split.
  - intros p. by rewrite Hb.
  - eapply inv_held; [|exact Hi]. intros p. unfold plus. by rewrite Hb.
  - intros k c Hk. destruct (Hc k c Hk) as [Hs Hn]. split; [done|]. eapply node_ok_ext; [|exact Hn]. intros p. unfold plus. by rewrite Hb.
Qed.

(** To the others a connection is only its references. *)
Lemma served_take base s conns k c : conns !! k = Some c -> served base s conns -> served (plus base (own c)) s (delete k conns).
Proof.
  intros Hk [H0' Hi Hc]. split.
  - intros p. unfold plus. pose proof (H0' p). pose proof (own_ge c p). lia.
  - eapply inv_held; [|exact Hi]. intros p. unfold plus. rewrite (owned_split k c conns) by done. lia.
  - intros j c' [Hjk Hj]%lookup_delete_Some. destruct (Hc j c' Hj) as [Hs Hn]. split; [done|]. eapply node_ok_ext; [|exact Hn].
    intros p. unfold plus. rewrite (owned_split k c (delete j conns)) by (by rewrite lookup_delete_ne). rewrite (delete_delete _ k j). lia.
Qed.
Lemma served_put base s conns k c : (forall p, 0 <= base p) -> conns !! k = None -> served (plus base (own c)) s conns ->
  (forall c', c = Caching c' -> self_ (cc_peer c') = true /\ node_ok e (plus base (owned conns)) (node_of s c')) ->
  served base s (<[k := c]> conns).
Proof.
  intros H0' Hk [_ Hi Hc] Hn. split; [done|..].
  - eapply inv_held; [|exact Hi]. intros p. unfold plus. rewrite owned_insert by done. lia.
  - intros j c' [[<- Hc']|[Hjk Hj]]%lookup_insert_Some.
    + rewrite delete_insert_id by done. by apply Hn.
    + destruct (Hc j c' Hj) as [Hs Hn']. split; [done|]. eapply node_ok_ext; [|exact Hn'].
      intros p. unfold plus. rewrite delete_insert_ne by done. rewrite owned_insert by (by rewrite lookup_delete_ne). lia.
Qed.

(** What is aside, and nobody's here, stays. *)
Definition undisturbed base s s' : Prop := forall p it, base p = 0 -> aside p it s -> aside p it s'.

(** An item that a connection is receiving is in no list and has one reference. *)
Lemma receiving_aside base s conns k c p : served base s conns -> conns !! k = Some (Caching c) -> receiving (cc_peer c) = Some p ->
  exists it, aside p it s /\ ref_count it = 1 /\ base p = 0 /\ owned (delete k conns) p = 0 /\ own (Caching c) p = 1.
Proof.
  intros [H0' Hi Hc] Hk Hr. destruct (Hc k c Hk) as [_ [_ Hin Hst]]. unfold receiving in Hr. unfold stage in Hst.
  cbn in Hst. destruct (state_ (cc_peer c)) eqn:Est; try done.
  destruct Hst as (pdu&q&it&off&_&Hci&_&[Hh Hp _]&Hone&_). rewrite Hr in Hci. injection Hci as <-.
  rewrite all_refs_own in Hone. assert (1 <= own (Caching c) p) as Hge.
  { cbn. unfold receiving. rewrite Est, Hr, decide_True by done. pose proof (refs_of_ge (cache_items_ (cc_peer c)) p). lia. }
  pose proof (H0' p). pose proof (owned_ge (delete k conns) p). unfold plus in Hone. exists it.
  assert (p ∉ linked s) as Hnl.
  { rewrite <- (c_expire _ _ _ (inv_core e _ _ Hi)). intros Hl. apply Hp. unfold placed. rewrite elem_of_app. by left. }
  split; [by split|]. split; [|lia].
  destruct (c_item _ _ _ (inv_core e _ _ Hi) p it Hh (placed_free _ _ Hp)) as (_&->&_). unfold refs.
  rewrite decide_False by done. rewrite decide_False; [|intros Hl; apply Hp; unfold placed; rewrite !elem_of_app; tauto].
  unfold plus. rewrite (owned_split k _ conns p Hk). lia.
Qed.

Lemma node_ok_timer others n t b : node_ok e others n ->
  node_ok e others (n <| peer ::= fun p => p <| timer_ := t |> <| timer_flag_ := b |> |>).
Proof. intros Hn. by apply (peer_ok e others n (fun p => p <| timer_ := t |> <| timer_flag_ := b |>)). Qed.

(** What others do to the cache keeps a connection. *)
Lemma served_frame base base' s s' conns : served base s conns -> (forall p, 0 <= base' p) ->
  inv e s' (plus base' (owned conns)) -> undisturbed base s s' -> served base' s' (notify_all s s' conns).
Proof.
  intros Hsv H0' Hi' Hu. split; [done|by rewrite owned_notify|]. intros k c' Hk.
  pose proof (notify_all_like s s' conns k _ Hk) as (c0&Hc0&t&b&E).
  destruct c0 as [| |c|]; try done. injection E as ->. destruct (sv_conns _ _ _ Hsv k c Hc0) as [Hs [Hw Hi Hst]]. split; [done|].
  assert (delete k (notify_all s s' conns) = notify_all s s' (delete k conns)) as ->.
  { apply map_eq. intros j. rewrite lookup_delete, !notify_all_lookup, lookup_delete. by case_decide. }
  rewrite owned_notify. apply (node_ok_timer _ (node_of s' c)).
  set (others' := plus base' (owned (delete k conns))).
  assert (forall p, all_refs others' (node_of s' c) p = plus base' (owned conns) p) as Ha.
  { intros p. rewrite all_refs_own. unfold others', plus. rewrite (owned_split k _ conns p Hc0). lia. }
  split; [by destruct Hw|eapply inv_held; [exact Ha|done]|]. unfold stage in *. cbn -[all_refs] in *.
  destruct (state_ (cc_peer c)) eqn:Est; try done.
  destruct Hst as (pdu&p&it&off&Hpdu&Hci&Hat&[Hh Hp Hhe]&Hone&Hoff&Hlen).
  assert (receiving (cc_peer c) = Some p) as Hr by (unfold receiving; by rewrite Est).
  destruct (receiving_aside base s conns k c p Hsv Hc0 Hr) as (it'&Has&Hrc&Hb0&_&_).
  pose proof (as_heap _ _ _ Has) as Hh'. cbn in Hh. assert (it' = it) as -> by congruence.
  destruct (Hu p it Hb0 Has) as [Hh2 Hl2 Hp2].
  assert (plus base' (owned conns) p = 1) as Hone'.
  { destruct (c_item _ _ _ (inv_core e _ _ Hi') p it Hh2 (placed_free _ _ Hp2)) as (_&Href&_). rewrite Hrc in Href. unfold refs in Href.
    rewrite decide_False in Href by done. rewrite decide_False in Href; [lia|]. intros Hfl. apply Hp2. unfold placed. rewrite !elem_of_app. tauto. }
  exists pdu, p, it, off. rewrite Ha. split_and!; try done. split; [done|done|]. rewrite Ha, Hone'. done.
Qed.

(** One connection acts: what it keeps is told by [left_ok], of the others by
    [undisturbed]. *)
Lemma served_act base s conns k c n : served base s conns -> conns !! k = Some (Caching c) ->
  left_ok e (plus base (owned (delete k conns))) n ->
  undisturbed (plus base (own (Caching c))) s (Peer.cache_mgr_ n) ->
  exists base', (forall p, base p <= base' p) /\
    let others := notify_all s (Peer.cache_mgr_ n) (delete k conns) in
    served base' (Peer.cache_mgr_ n) (if self_ (peer n) then <[k := Caching (conn_of n)]> others else others).
Proof.
  intros Hsv Hk (o'&Hn&Ho) Hu. pose proof (served_take _ _ _ _ _ Hk Hsv) as Htk. pose proof (sv_base _ _ _ Hsv) as H0'.
  set (rest := owned (delete k conns)) in *. set (others := notify_all s (Peer.cache_mgr_ n) (delete k conns)).
  assert (others !! k = None) as Hok by (unfold others; by rewrite notify_all_lookup, lookup_delete_eq).
  assert (owned others = rest) as Hrest by apply owned_notify.
  assert (forall h, (forall p, base p <= h p) -> inv e (Peer.cache_mgr_ n) (plus h rest) -> served h (Peer.cache_mgr_ n) others) as Hfr.
  { intros h Hh Hi. apply (served_frame _ _ s) with (1 := Htk); [intros p; specialize (H0' p); specialize (Hh p); lia|exact Hi|exact Hu]. }
  set (base' := fun p => o' p - rest p).
  assert (forall p, base p <= base' p) as Hb by (intros p; specialize (Ho p); unfold plus in Ho; unfold base'; lia).
  assert (forall p, o' p = plus base' rest p) as Ho' by (intros p; unfold plus, base'; lia).
  destruct Hn as [Hn|[Hself Hi]].
  - set (mine := own (Caching (conn_of n))).
    assert (forall p, base p <= plus base' mine p) as Hb2.
    { intros p. unfold plus. pose proof (own_ge (Caching (conn_of n)) p). specialize (Hb p). unfold mine. lia. }
    assert (served (plus base' mine) (Peer.cache_mgr_ n) others) as Hsv'.
    { apply Hfr; [done|]. eapply inv_held; [|apply Hn]. intros p.
      pose proof (all_refs_own o' (Peer.cache_mgr_ n) (conn_of n) p) as Ha. rewrite Ho' in Ha. fold mine in Ha.
      rewrite node_of_conn in Ha. rewrite Ha. unfold plus. lia. }
    destruct (self_ (peer n)) eqn:Eself; [exists base'|by exists (plus base' mine)]. split; [done|].
    apply served_put; [intros p; specialize (H0' p); specialize (Hb p); lia|done|exact Hsv'|].
    intros c' [= <-]. split; [done|]. rewrite Hrest, node_of_conn. by eapply node_ok_ext; [|exact Hn].
  - exists base'. split; [done|]. rewrite Hself. apply Hfr; [done|]. eapply inv_held; [|exact Hi]. intros p. by rewrite Ho'.
Qed.

(** What a connection does not refer to, it spares. *)
Lemma away_here base s conns k c p it : served base s conns -> conns !! k = Some (Caching c) -> own (Caching c) p = 0 ->
  aside p it s -> away false p it (node_of s c).
Proof.
  intros Hsv Hk H0' Ha. destruct (sv_conns _ _ _ Hsv k c Hk) as [_ [Hw Hi Hst]]. cbn in H0'.
  pose proof (refs_of_ge (cache_items_ (cc_peer c)) p). case_decide as Hr; [lia|]. split; cbn; [done| | |].
  - intros Hp. assert (0 < count_occ Pos.eq_dec (cache_items_ (cc_peer c)) p)%nat by (apply count_occ_In; by apply list_elem_of_In).
    unfold refs_of in H0'. lia.
  - pose proof (nw_follows _ Hw) as Hf. cbn in Hf. by destruct (next_state_ (cc_peer c)).
  - intros [|Est]; [done|]. unfold receiving in Hr. unfold stage in Hst. cbn in Hst. rewrite Est in Hst, Hr.
    destruct Hst as (pdu&q&itq&off&_&Hci&Hat&_). split; [done|]. rewrite Hat. cbn. congruence.
Qed.
Lemma passes_undisturbed base s conns k c (m : N unit) n : served base s conns -> conns !! k = Some (Caching c) ->
  (forall p it, passes false p it m) -> m (node_of s c) = Some (tt, n) -> undisturbed (plus base (own (Caching c))) s (Peer.cache_mgr_ n).
Proof.
  intros Hsv Hk Hm Hr p it H0' Ha. pose proof (sv_base _ _ _ Hsv p). pose proof (own_ge (Caching c) p). unfold plus in H0'.
  assert (own (Caching c) p = 0) as Ho by lia. specialize (Hm p it _ (away_here _ _ _ _ _ _ _ Hsv Hk Ho Ha)).
  rewrite Hr in Hm. apply Hm.
Qed.
End served.

(** ** The acceptors *)

(** How many accepts are under way for an acceptor. *)
Definition under_way (a : acceptor) (l : list accept) : nat := length (base.filter (fun x => ac_acceptor x = a) l).
Definition listening (v : Server) : list acceptor := acceptors_ v ++ acceptors_ssl_ v.
(** The pool has services; until the server is stopped, the acceptors of the accepts
    under way are there, and each that listens has as many as there are threads. *)
Record server_ok (v : Server) : Prop := {
  vo_pool : (next_io_service_ (io_service_pool_ v) < length (io_services_ (io_service_pool_ v)))%nat;
  vo_live : stop_flag_ v = false -> Forall (fun a => a ∈ live_ v) (ac_acceptor <$> accepts_ v);
  vo_listening : Forall (fun a => a ∈ live_ v) (listening v);
  vo_created : Forall (fun a => (a < created_ v)%nat) (listening v ++ (ac_acceptor <$> accepts_ v));
  vo_threads : stop_flag_ v = false -> forall a, a ∈ listening v -> under_way a (accepts_ v) = thread_size_ (io_service_pool_ v);
  vo_size : (1 <= thread_size_ (io_service_pool_ v))%nat
}.

Lemma under_way_app a l l' : under_way a (l ++ l') = (under_way a l + under_way a l')%nat.
Proof. unfold under_way. by rewrite filter_app, length_app. Qed.
Lemma under_way_cons a x l : under_way a (x :: l) = ((if decide (ac_acceptor x = a) then 1 else 0) + under_way a l)%nat.
Proof. unfold under_way. rewrite filter_cons. by case_decide. Qed.
Lemma under_way_none a l : a ∉ (ac_acceptor <$> l) -> under_way a l = 0%nat.
Proof.
  induction l as [|x l IH]; [done|]. rewrite under_way_cons. cbn. intros Ha. rewrite decide_False by set_solver.
  rewrite IH by set_solver. done.
Qed.

(** The next service, round robin. *)
Lemma wp_service {A} v (k : nat -> ST Server A) Q : (next_io_service_ (io_service_pool_ v) < length (io_services_ (io_service_pool_ v)))%nat ->
  (forall n p, (next_io_service_ p < length (io_services_ p))%nat /\ thread_size_ p = thread_size_ (io_service_pool_ v) ->
     wp (k n) (v <| io_service_pool_ := p |>) Q) ->
  wp (Svr.in_pool Pool.get_io_service ≫= k) v Q.
Proof.
  intros Hp Hk. destruct (lookup_lt_is_Some_2 _ _ Hp) as [n Hn].
  apply wp_bind, wp_on. unfold Pool.get_io_service. apply wp_bind, wp_gets, wp_bind, wp_gets, wp_bind.
  eapply wp_the; [exact Hn|]. apply wp_bind, wp_modify, wp_ret. apply Hk. split; [|done]. cbn. apply Nat.mod_upper_bound. lia.
Qed.
(** One more accept. *)
Definition accepting (x : accept) (p : io_service_pool) (v : Server) : Server :=
  v <| io_service_pool_ := p |> <| accepts_ ::= fun l => l ++ [x] |>.
(** The pool but for whose turn it is. *)
Definition pool_ok (v : Server) (p : io_service_pool) : Prop :=
  (next_io_service_ p < length (io_services_ p))%nat /\ thread_size_ p = thread_size_ (io_service_pool_ v).
Lemma wp_async_accept a ssl v Q : (next_io_service_ (io_service_pool_ v) < length (io_services_ (io_service_pool_ v)))%nat -> a ∈ live_ v ->
  (forall x p, ac_acceptor x = a -> pool_ok v p -> Q tt (accepting x p v)) -> wp (Svr.async_accept a ssl) v Q.
Proof.
  intros Hp Ha HQ. unfold Svr.async_accept. apply wp_service; [done|]. intros n p Hp'.
  apply wp_bind, wp_gets, wp_bind, wp_assert; [by rewrite bool_decide_true|]. by apply wp_modify, HQ.
Qed.
Lemma wp_again (ssl : bool) a v Q : wp (Svr.async_accept a ssl) v Q -> wp (if ssl then Svr.start_accept_ssl a else Svr.start_accept a) v Q.
Proof. by destruct ssl. Qed.

Lemma lookup_split {A} (l : list A) i x : l !! i = Some x -> l = take i l ++ [x] ++ drop (S i) l.
Proof. intros Hi. cbn. by rewrite take_drop_middle. Qed.

(** An accept that ends is followed by another: of a connection, or of an error
    unless the server stops. *)
Lemma handle_accept_ok i err a v : server_ok v -> accepts_ v !! i = Some a -> (err = false -> stop_flag_ v = false) ->
  wp (Svr.handle_accept i err) v (fun r v' => server_ok v' /\ r = if err then None else Some a).
Proof.
  intros [Hp Hl Hli Hc Ht Hz] Hi He. pose proof (lookup_split _ _ _ Hi) as Hs. unfold Svr.handle_accept.
  set (l0 := take i (accepts_ v)) in *. set (l1 := drop (S i) (accepts_ v)) in *.
  apply wp_bind, wp_gets, wp_bind. eapply wp_the; [exact Hi|]. apply wp_bind, wp_modify. set (v1 := set accepts_ _ v).
  rewrite Hs, !fmap_app in Hl, Hc. rewrite Hs in Ht.
  assert (Forall (fun a => (a < created_ v)%nat) (listening v1 ++ (ac_acceptor <$> accepts_ v1)) /\ (ac_acceptor a < created_ v)%nat) as [Hc1 Hac].
  { change (accepts_ v1) with (l0 ++ l1). rewrite fmap_app. cbn in Hc. rewrite !Forall_app, Forall_cons in Hc. rewrite !Forall_app. tauto. }
  assert (forall Q, stop_flag_ v = false -> (forall v', server_ok v' -> Q tt v') ->
    wp (if ac_ssl a then Svr.start_accept_ssl (ac_acceptor a) else Svr.start_accept (ac_acceptor a)) v1 Q) as Hag.
  { intros Q Hstop HQ. specialize (Hl Hstop). cbn in Hl. rewrite !Forall_app, Forall_cons in Hl. apply wp_again, wp_async_accept; [done|apply Hl|].
    intros x p Hx [Hp' Hth]. apply HQ. split; cbn; [done| |done| | |by rewrite Hth].
    - intros _. rewrite !fmap_app, !Forall_app. cbn. rewrite Hx, Forall_singleton. tauto.
    - change (created_ v1) with (created_ v). rewrite (fmap_app _ (l0 ++ l1)), app_assoc, Forall_app. split; [exact Hc1|]. cbn. rewrite Hx. by constructor.
    - intros _ b Hb. rewrite Hth. change (under_way b ((l0 ++ l1) ++ [x]) = thread_size_ (io_service_pool_ v)). rewrite <- (Ht Hstop b Hb), !under_way_app, !under_way_cons, Hx. lia. }
  assert (stop_flag_ v = true -> server_ok v1) as Hst by (intros E; split; cbn; try done; by rewrite E).
  destruct err; cbn [negb].
  - apply wp_bind, wp_gets. change (stop_flag_ v1) with (stop_flag_ v). destruct (stop_flag_ v) eqn:E; cbn [negb]; apply wp_bind.
    + apply wp_ret, wp_ret. split; [by apply Hst|done].
    + apply Hag; [done|]. intros v' Hv'. by apply wp_ret.
  - apply wp_bind, Hag; [by apply He|]. intros v' Hv'. by apply wp_ret.
Qed.

(** The loop of [listen]. *)
Lemma accepts_loop (ssl : bool) a v n Q : (next_io_service_ (io_service_pool_ v) < length (io_services_ (io_service_pool_ v)))%nat -> a ∈ live_ v ->
  (forall xs p, pool_ok v p -> Forall (fun x => ac_acceptor x = a) xs -> length xs = n ->
     Q tt (v <| io_service_pool_ := p |> <| accepts_ ::= fun l => l ++ xs |>)) ->
  wp (for_each (fun _ => if ssl then Svr.start_accept_ssl a else Svr.start_accept a) (seq 0 n)) v Q.
Proof.
  intros Hp Ha HQ. eapply wp_mono.
  - apply (wp_for_each _ (seq 0 n) v (fun rest v' => exists xs p, pool_ok v p /\ Forall (fun x => ac_acceptor x = a) xs /\
      (length xs + length rest = n)%nat /\ v' = v <| io_service_pool_ := p |> <| accepts_ ::= fun l => l ++ xs |>)).
    + exists [], (io_service_pool_ v). split_and!; [by split|done|by rewrite length_seq|]. destruct v. unfold set. cbn. by rewrite app_nil_r.
    + intros x l v' (xs&p&[Hn Ht]&Hxs&Hl&->). apply wp_again, wp_async_accept; [done|done|]. intros y p' Hy [Hn' Ht'].
      exists (xs ++ [y]), p'. split_and!; [split; [done|by rewrite Ht']|by apply Forall_app_2; [|constructor]|rewrite length_app; cbn in *; lia|].
      unfold accepting, set. cbn. by rewrite app_assoc.
  - intros [] v' (xs&p&Hp'&Hxs&Hl&->). apply HQ; [done|done|]. cbn in Hl. lia.
Qed.
Lemma under_way_all a b xs : Forall (fun x => ac_acceptor x = a) xs -> under_way b xs = if decide (a = b) then length xs else 0%nat.
Proof.
  induction 1 as [|x xs Hx _ IH]; [by case_decide|]. rewrite under_way_cons, IH, Hx. by case_decide.
Qed.

(** A new acceptor. *)
Definition with_acceptor (p : io_service_pool) (v : Server) : Server :=
  v <| io_service_pool_ := p |> <| created_ := S (created_ v) |> <| live_ ::= cons (created_ v) |>.
Lemma new_acceptor_ok v Q : server_ok v ->
  (forall p, pool_ok v p -> server_ok (with_acceptor p v) -> Q (created_ v) (with_acceptor p v)) -> wp Svr.new_acceptor v Q.
Proof.
  intros [Hp Hl Hli Hc Ht Hz] HQ. apply wp_service; [done|]. intros n p [Hn Hth]. apply wp_bind, wp_gets, wp_bind, wp_modify, wp_ret.
  apply HQ; [by split|]. split; cbn; [done| | | |by rewrite Hth|by rewrite Hth].
  - intros Hs. eapply Forall_impl; [by apply Hl|]. intros b. cbn. set_solver.
  - eapply Forall_impl; [exact Hli|]. cbn. set_solver.
  - eapply Forall_impl; [exact Hc|]. cbn. lia.
Qed.

(** What was listening does, and what listens has its accepts; it is not asked what
    the listening itself came to. *)
Definition refused (reuse : bool) (w : answers) : bool := bad_address w || bad_open w || (reuse && bad_option w) || bad_bind w.
Lemma listen_ok reuse ssl w v : server_ok v -> stop_flag_ v = false ->
  wp (Svr.listen reuse ssl w) v (fun r v' => r = negb (refused reuse w) /\ server_ok v' /\ stop_flag_ v' = false /\
    length (listening v') = (length (listening v) + if r then 1 else 0)%nat).
Proof.
  intros Hv Hs. unfold Svr.listen, refused. destruct (bad_address w); [apply wp_ret; by rewrite Nat.add_0_r|]. apply wp_bind, new_acceptor_ok; [done|]. intros p Hpo Hv1.
  set (v1 := with_acceptor p v) in *. set (a := created_ v).
  destruct (bad_open w); [apply wp_ret; by rewrite Nat.add_0_r|]. destruct (reuse && bad_option w); [apply wp_ret; by rewrite Nat.add_0_r|]. destruct (bad_bind w); [apply wp_ret; by rewrite Nat.add_0_r|].
  apply wp_bind, wp_on, wp_gets. set (n := thread_size_ _). replace (v1 <| io_service_pool_ := _ |>) with v1 by (by destruct v).
  apply wp_bind. assert (a ∉ listening v ++ (ac_acceptor <$> accepts_ v)) as Hnew.
  { intros Hin. pose proof (proj1 (Forall_forall _ _) (vo_created _ Hv) a Hin). unfold a in *. cbn in *. lia. }
  assert (forall v2, io_service_pool_ v2 = io_service_pool_ v1 -> live_ v2 = live_ v1 -> created_ v2 = created_ v1 -> accepts_ v2 = accepts_ v1 ->
    stop_flag_ v2 = stop_flag_ v1 -> listening v2 ≡ₚ a :: listening v1 ->
    wp (for_each (fun _ => if ssl then Svr.start_accept_ssl a else Svr.start_accept a) (seq 0 n)) v2
      (fun _ v' => wp (mret true) v' (fun r v' => r = true /\ server_ok v' /\ stop_flag_ v' = false /\
        length (listening v') = (length (listening v) + if r then 1 else 0)%nat))) as Hgo.
  { intros v2 Hp2 Hl2 Hc2 Ha2 Hs2 Hli2. destruct Hv1 as [Hp1 Hl1 Hli1 Hc1 Ht1 Hz1]. assert (a ∈ live_ v1) as Hin by (cbn; set_solver).
    apply accepts_loop; [by rewrite Hp2|by rewrite Hl2|]. intros xs p' [Hn' Hth'] Hxs Hlen. apply wp_ret. split; [done|]. split; [|split; [by cbn; rewrite Hs2|]].
    2:{ change (length (listening v2) = (length (listening v) + 1)%nat). rewrite Hli2. change (listening v1) with (listening v). cbn. lia. }
    assert (Forall (fun b => b = a) (ac_acceptor <$> xs)) as Hxa by by rewrite Forall_fmap.
    split; cbn; [done|..].
    - intros _. rewrite Ha2, Hl2, fmap_app, Forall_app. split; [by apply Hl1|]. eapply Forall_impl; [exact Hxa|]. by intros b ->.
    - change (Forall (fun b => b ∈ live_ v2) (listening v2)). rewrite Hli2, Hl2. by constructor.
    - change (acceptors_ v2 ++ acceptors_ssl_ v2) with (listening v2). rewrite Ha2, Hc2, Hli2, fmap_app, app_assoc. cbn.
      apply Forall_cons. split; [cbn; unfold a; lia|]. rewrite Forall_app. split; [done|]. eapply Forall_impl; [exact Hxa|]. intros b ->. cbn. unfold a. lia.
    - intros _ b Hb. change (b ∈ listening v2) in Hb. rewrite Hli2 in Hb. change (under_way b (accepts_ v2 ++ xs) = thread_size_ p'). rewrite Ha2, under_way_app, (under_way_all a b xs Hxs), Hth', Hp2.
      fold n. apply elem_of_cons in Hb as [->|Hb].
      + rewrite decide_True by done. rewrite under_way_none; [done|]. cbn. set_solver.
      + rewrite decide_False by (intros ->; apply Hnew; rewrite elem_of_app; by left). rewrite Nat.add_0_r. by apply Ht1.
    - by rewrite Hth', Hp2. }
  destruct ssl; apply wp_bind, wp_modify; apply Hgo; try done; unfold listening; cbn;
    fold a; [rewrite <- Permutation_cons_append|rewrite <- app_assoc]; symmetry; apply Permutation_middle.
Qed.

(** A connector that the system grants. *)
Definition granted (x : Connector * answers) : bool := negb (refused (reuse_address x.1) x.2).
Lemma listen_all_ok l v : server_ok v -> stop_flag_ v = false ->
  wp (Svr.listen_all l) v (fun r v' => r = forallb granted l /\ server_ok v' /\ stop_flag_ v' = false /\
    (r = true -> length (listening v') = (length (listening v) + length l)%nat)).
Proof.
  revert v. induction l as [|[c w] l IH]; intros v Hv Hs; [apply wp_ret; cbn; split_and!; try done; lia|].
  apply wp_bind. eapply wp_mono; [by apply listen_ok|]. intros r v' (->&Hv'&Hs'&Hl). cbn [forallb]. unfold granted at 1. cbn [fst snd].
  destruct (refused _ _); cbn [negb andb] in *; [by apply wp_ret|]. eapply wp_mono; [by apply IH|].
  intros r v2 (->&Hv2&Hs2&Hl2). split_and!; try done. intros Hr. rewrite (Hl2 Hr), Hl. cbn. lia.
Qed.
Lemma start_server_ok l bad_chain bad_key v : server_ok v -> stop_flag_ v = false ->
  wp (Svr.start l bad_chain bad_key) v (fun r v' => r = forallb granted l && negb bad_chain && negb bad_key /\ server_ok v' /\ stop_flag_ v' = false /\
    (r = true -> length (listening v') = (length (listening v) + length l)%nat)).
Proof.
  intros Hv Hs. apply wp_bind. eapply wp_mono; [by apply listen_all_ok|]. intros r v' (->&Hv'&Hs'&Hl). destruct (forallb _ _); [|by apply wp_ret].
  cbn [negb andb]. destruct bad_chain; [by apply wp_ret|]. destruct bad_key; [by apply wp_ret|]. apply wp_bind, wp_modify, wp_ret.
  split_and!; try done. by destruct Hv'.
Qed.
Lemma get_io_service_some p : (next_io_service_ p < length (io_services_ p))%nat -> exists r p',
  Pool.get_io_service p = Some (r, p') /\ (next_io_service_ p' < length (io_services_ p'))%nat /\
  r = default 0%nat (io_services_ p !! next_io_service_ p) /\ next_io_service_ p' = ((next_io_service_ p + 1) mod length (io_services_ p))%nat /\
  io_services_ p' = io_services_ p /\ thread_size_ p' = thread_size_ p.
Proof.
  intros Hp. destruct (lookup_lt_is_Some_2 _ _ Hp) as [r Hr]. exists r, (p <| next_io_service_ := ((next_io_service_ p + 1) mod length (io_services_ p))%nat |>).
  split_and!; try done; [|cbn; apply Nat.mod_upper_bound; lia|by rewrite Hr].
  unfold Pool.get_io_service, mbind, ST_bind, mret, ST_ret, gets, the, modify. by rewrite Hr.
Qed.
Lemma create_pool_ok pool_size thread_size : let p := Pool.create pool_size thread_size in
  io_services_ p = seq 0 (Nat.max 1 pool_size) /\ next_io_service_ p = 0%nat /\ thread_size_ p = Nat.max 1 thread_size.
Proof.
  intros p. assert (forall n, (if (n <=? 0)%nat then 1%nat else n) = Nat.max 1 n) as Hm by (intros n; destruct (Nat.leb_spec n 0); lia).
  split_and!; [unfold p, Pool.create, io_services_; by rewrite Hm|done|unfold p, Pool.create, thread_size_; by rewrite Hm].
Qed.
Lemma create_server_ok pool_size thread_size : exists v, Svr.create pool_size thread_size = Some v /\ server_ok v /\ stop_flag_ v = false /\ listening v = [].
Proof.
  destruct (create_pool_ok pool_size thread_size) as (Hs&Hn&Hz). unfold Svr.create.
  destruct (get_io_service_some (Pool.create pool_size thread_size)) as (r&p1&->&H1'&_&_&_&Hz1); [rewrite Hs, Hn, length_seq; lia|].
  destruct (get_io_service_some p1 H1') as (t&p2&->&H2'&_&_&_&Hz2). eexists. split; [done|]. split; [|done].
  split; cbn; [done|by constructor|by constructor|by constructor| |rewrite Hz2, Hz1, Hz; lia]. intros _ a Ha. by apply not_elem_of_nil in Ha.
Qed.

(** After [stop] nothing listens, and the acceptors that listened are gone. *)
Lemma delete_acceptors l v : for_each Svr.delete_acceptor l v = Some (tt, v <| live_ := base.filter (fun b => b ∉ l) (live_ v) |>).
Proof.
  revert v. induction l as [|a l IH]; intros v; cbn [for_each].
  - replace (base.filter _ (live_ v)) with (live_ v); [by destruct v|]. symmetry.
    induction (live_ v) as [|b l IH]; [done|]. rewrite filter_cons_True by apply not_elem_of_nil. by rewrite IH.
  - unfold mbind, ST_bind, Svr.delete_acceptor, modify. rewrite IH. do 2 f_equal. unfold set. cbn. f_equal.
    rewrite list_filter_filter. apply list_filter_iff. intros b. rewrite elem_of_cons. tauto.
Qed.
Definition closed (v : Server) : Server :=
  v <| stop_flag_ := true |> <| live_ := base.filter (fun b => b ∉ acceptors_ssl_ v) (base.filter (fun b => b ∉ acceptors_ v) (live_ v)) |>
    <| acceptors_ := [] |> <| acceptors_ssl_ := [] |>.
Lemma close_acceptors_eq v : Svr.close_acceptors v = Some (tt, closed v).
Proof.
  unfold Svr.close_acceptors, mbind, ST_bind, modify, gets. rewrite delete_acceptors, delete_acceptors. by destruct v.
Qed.
Lemma stop_ok v : server_ok v -> wp Svr.stop v (fun _ v' => server_ok v' /\ stop_flag_ v' = true /\ listening v' = []).
Proof.
  intros [Hp _ _ Hc _ Hz]. apply wp_bind. unfold wp at 1. rewrite close_acceptors_eq. apply wp_on, wp_modify. split; [|done].
  rewrite Forall_app in Hc. split; cbn; [done|done|by constructor|apply Hc|done|done].
Qed.

(** ** The first bytes *)

(** What was read so far. *)
Definition said (h : Connection_Help) : bytes := take (Z.to_nat (read_data_size_ h)) (read_buf_ h).
Record helps (h : Connection_Help) : Prop := {
  hp_buf : Z.of_nat (length (read_buf_ h)) = Help.BUF_SIZE;
  hp_size : 0 <= read_data_size_ h < 4;
  hp_bytes : Forall is_byte (said h)
}.
(** The protocol that the first bytes are of. *)
Definition dispatch (d : bytes) : first_step :=
  if bool_decide (head d = Some XIXI_CATEGORY_CACHE) then Starts_cache d
  else if Help.IS_METHOD d "GET " || Help.IS_METHOD d "POST" || Help.IS_METHOD d "HEAD" then Starts_http d
  else Deleted.
Definition fed (h : Connection_Help) (got : bytes) (f : first_step) : Prop :=
  let d := said h ++ got in
  if decide (Z.of_nat (length d) < 4)
  then exists h', f = Reads h' (Help.room h') /\ helps h' /\ said h' = d /\ acceptor_ h' = acceptor_ h
  else f = dispatch d.

Lemma said_length h : helps h -> Z.of_nat (length (said h)) = read_data_size_ h.
Proof. intros [Hb Hs _]. unfold said, Help.BUF_SIZE in *. rewrite length_take. lia. Qed.

Lemma mem_write_inside off src b : 0 <= off -> off + Z.of_nat (length src) <= Z.of_nat (length b) ->
  mem_write off src b = Some (take (Z.to_nat off) b ++ src ++ drop (Z.to_nat off + length src) b).
Proof. intros. unfold mem_write. by rewrite !(proj2 (Z.leb_le _ _)) by lia. Qed.
Lemma start_peer_spec h d : Z.of_nat (length (read_buf_ h)) = Help.BUF_SIZE -> read_data_size_ h = Z.of_nat (length d) ->
  take (length d) (read_buf_ h) = d -> 4 <= Z.of_nat (length d) <= Help.BUF_SIZE - 1 -> Help.start_peer h = Some (dispatch d).
Proof.
  intros Hb Hs Hd Hl. unfold Help.start_peer. rewrite Hs, Z.geb_leb, (proj2 (Z.leb_le _ _)) by lia.
  assert (read_buf_ h = d ++ drop (length d) (read_buf_ h)) as Hr by (rewrite <- Hd at 1; by rewrite take_drop).
  assert (mem_read 0 (Z.of_nat (length d)) (read_buf_ h) = Some d) as Hrd.
  { unfold mem_read, Help.BUF_SIZE in *. rewrite !(proj2 (Z.leb_le _ _)) by lia. cbn [andb]. by rewrite Nat2Z.id, drop_0, Hd. }
  destruct d as [|b d0] eqn:Ed; [cbn in Hl; lia|]. rewrite <- Ed in *. assert (read_buf_ h !! 0%nat = Some b) as -> by (rewrite Hr, Ed; done).
  cbn [mbind option_bind]. unfold dispatch. assert (head d = Some b) as -> by by rewrite Ed.
  destruct (Z.eqb_spec b XIXI_CATEGORY_CACHE) as [->|Hn]; [rewrite bool_decide_true by done; by rewrite Hrd|].
  rewrite bool_decide_false by congruence.
  assert (forall name, Help.IS_METHOD (read_buf_ h) name = Help.IS_METHOD d name) as Hm.
  { intros name. unfold Help.IS_METHOD. rewrite Hr, take_app_le by lia. done. }
  rewrite !Hm. case_match; [|done].
  rewrite mem_write_inside by (cbn; unfold Help.BUF_SIZE in *; lia). cbn [mbind option_bind]. rewrite Nat2Z.id.
  unfold mem_read. rewrite !length_app, length_take, !(proj2 (Z.leb_le _ _)) by (cbn; unfold Help.BUF_SIZE in *; lia).
  cbn [andb mbind option_bind]. by rewrite Nat2Z.id, drop_0, Hd, take_app_length.
Qed.

(** Bytes that come are added to what was read, and four tell the protocol. *)
Lemma receive_spec h got : helps h -> Z.of_nat (length got) <= Help.room h -> Forall is_byte got ->
  exists b, Help.receive got h = Some (h <| read_buf_ := b |>) /\ length b = length (read_buf_ h) /\
    take (length (said h ++ got)) b = said h ++ got /\ Forall is_byte (said h ++ got).
Proof.
  intros Hh Hl Hg. pose proof (said_length h Hh) as Hsl. destruct Hh as [Hb Hs Hy]. unfold Help.room, Help.BUF_SIZE in *.
  unfold Help.receive. rewrite mem_write_inside by lia. eexists. split; [done|]. split_and!.
  - rewrite !length_app, length_take, length_drop. lia.
  - rewrite length_app. fold (said h). rewrite app_assoc. rewrite <- length_app. apply take_app_length.
  - by apply Forall_app.
Qed.
Lemma process_fed h b got (process : Z -> Connection_Help -> option first_step) : process = Help.process \/ process = SSL_Help.process ->
  helps h -> Z.of_nat (length got) <= Help.room h -> length b = length (read_buf_ h) ->
  take (length (said h ++ got)) b = said h ++ got -> Forall is_byte (said h ++ got) ->
  exists f, process (Z.of_nat (length got)) (h <| read_buf_ := b |>) = Some f /\ fed h got f.
Proof.
  intros Hp Hh Hl Hb Ht Hy. pose proof (said_length h Hh) as Hsl. destruct Hh as [Hbl Hs _]. unfold Help.room, Help.BUF_SIZE in *.
  set (h' := h <| read_buf_ := b |> <| read_data_size_ := Z.of_nat (length (said h ++ got)) |>).
  assert (process (Z.of_nat (length got)) (h <| read_buf_ := b |>) =
    if read_data_size_ h' >=? 4 then Help.start_peer h' else Some (Reads h' (Help.room h'))) as ->.
  { assert (u32 (read_data_size_ h + u32 (Z.of_nat (length got))) = Z.of_nat (length (said h ++ got))) as Hu.
    { rewrite wrap_add_r, wrap_small; rewrite ?length_app; lia. }
    destruct Hp as [-> | ->]; unfold Help.process, SSL_Help.process, SSL_Help.start_peer, set; cbn; by rewrite Hu. }
  unfold fed. rewrite Z.geb_leb. change (read_data_size_ h') with (Z.of_nat (length (said h ++ got))).
  assert (said h' = said h ++ got) as Hsaid by (unfold said at 1, h'; cbn; by rewrite Nat2Z.id).
  case_decide as H4; [rewrite (proj2 (Z.leb_gt _ _)) by lia|rewrite (proj2 (Z.leb_le _ _)) by lia].
  - eexists. split; [done|]. exists h'. split; [done|]. split; [split|done]; [unfold h', Help.BUF_SIZE; cbn; lia|cbn; lia|by rewrite Hsaid].
  - eexists. split; [|done]. apply start_peer_spec; [unfold h', Help.BUF_SIZE; cbn; lia|done|done|]. rewrite length_app in *. unfold Help.BUF_SIZE. lia.
Qed.
Lemma first_read_fed (ssl : bool) h got : helps h -> Z.of_nat (length got) <= Help.room h -> Forall is_byte got ->
  exists f, (if ssl then SSL_Help.handle_first_read (Some got) h else Help.handle_first_read (Some got) h) = Some f /\ fed h got f.
Proof.
  intros Hh Hl Hg. destruct (receive_spec h got Hh Hl Hg) as (b&Hr&Hb&Ht&Hy).
  destruct ssl; unfold SSL_Help.handle_first_read, Help.handle_first_read; rewrite Hr; cbn [mbind option_bind];
    apply process_fed; auto.
Qed.

Lemma created_helps service a memory : Z.of_nat (length memory) = Help.BUF_SIZE ->
  helps (Help.create service a memory) /\ said (Help.create service a memory) = [].
Proof. intros Hm. split; [|done]. split; [done|cbn; lia|by constructor]. Qed.

(** The read before the first wait. *)
Lemma first_wait (process : Z -> Connection_Help -> option first_step) h got room : process = Help.process \/ process = SSL_Help.process ->
  helps h -> room = Help.room h -> Z.of_nat (length got) <= Help.room h -> Forall is_byte got ->
  exists f, (h ← Help.receive got h;
             if u32 (Z.of_nat (length got)) >? 0 then process (u32 (Z.of_nat (length got))) h else Some (Reads h room)) = Some f /\ fed h got f.
Proof.
  intros Hp Hh Hroom Hl Hg. destruct (receive_spec h got Hh Hl Hg) as (b&Hr&Hb&Ht&Hy). rewrite Hr. cbn [mbind option_bind].
  pose proof (hp_size _ Hh). unfold Help.room, Help.BUF_SIZE in Hl. rewrite (wrap_small 32) by lia. rewrite Z.gtb_ltb.
  destruct (Z.ltb_spec 0 (Z.of_nat (length got))) as [Hgt|Hle]; [by apply process_fed; auto|].
  destruct got as [|x got]; [|cbn in Hle; lia]. eexists. split; [done|]. unfold fed. rewrite app_nil_r in *. rewrite said_length in * by done.
  rewrite decide_True by lia. exists (h <| read_buf_ := b |>). split; [by rewrite Hroom|].
  assert (said (h <| read_buf_ := b |>) = said h) as Hs.
  { pose proof (said_length h Hh) as Hsl. unfold said at 1. cbn. rewrite <- Ht. f_equal. lia. }
  split; [|done]. destruct Hh. split; [cbn; by rewrite Hb|done|by rewrite Hs].
Qed.
Lemma start_fed h got : helps h -> Z.of_nat (length got) <= Help.room h -> Forall is_byte got ->
  exists f, Help.start false false got h = Some f /\ fed h got f.
Proof.
  intros Hh Hl Hg. unfold Help.start.
  destruct (first_wait Help.process h got (Help.room h) (or_introl eq_refl) Hh eq_refl Hl Hg) as (f&Hf&Hfed). exists f. split; [|done].
  rewrite <- Hf. destruct (receive_spec h got Hh Hl Hg) as (b&Hr&_). by rewrite Hr.
Qed.
Lemma handshake_fed h got : helps h -> read_data_size_ h = 0 -> Z.of_nat (length got) <= Help.room h -> Forall is_byte got ->
  exists f, SSL_Help.handle_handshake false got h = Some f /\ fed h got f.
Proof.
  intros Hh H0' Hl Hg. apply (first_wait SSL_Help.process h got (Help.BUF_SIZE - 1) (or_intror eq_refl) Hh); [|done..].
  unfold Help.room. lia.
Qed.

(** ** A system *)

(** Before the first four bytes. *)
Definition help_ok (c : connection) : Prop :=
  match c with
  | Shaking h => helps h /\ read_data_size_ h = 0
  | Helping _ h => helps h
  | _ => True
  end.
(** [lost] are references that nobody will give back. *)
Record sys_ok (e : endian) (lost : holds) (y : system) : Prop := {
  yo_lost : forall p, 0 <= lost p;
  yo_served : served e (plus lost (refs_of (web_ y))) (cache_ y) (conns_ y);
  yo_conns : forall k c, conns_ y !! k = Some c -> (k < next_ y)%positive /\ help_ok c;
  yo_server : server_ok (server_ y)
}.

(** What the other connections see of a step of [k]: their timers may go off, and an
    item they receive stays as it is. *)
Definition stands (k : option sink) (y y' : system) : Prop := forall j c, k <> Some j -> conns_ y !! j = Some (Caching c) ->
  (exists c', conns_ y' !! j = Some c' /\ like (Caching c) c') /\
  forall p it, receiving (cc_peer c) = Some p -> heap (cache_ y) !! p = Some it -> heap (cache_ y') !! p = Some it.
Definition stepped e (lost : holds) k y y' : Prop :=
  exists lost', (forall p, lost p <= lost' p) /\ sys_ok e lost' y' /\ stands k y y'.

Lemma like_refl c : like c c.
Proof. destruct c as [| |c|]; try by exists [], false. exists (timer_ (cc_peer c)), (timer_flag_ (cc_peer c)). by destruct c as [[]]. Qed.
Lemma like_trans c1 c2 c3 : like c1 c2 -> like c2 c3 -> like c1 c3.
Proof. intros (t&b&->) (t'&b'&->). destruct c1; exists t', b'; done. Qed.
Lemma stands_refl k y : stands k y y.
Proof. intros j c _ Hj. split; [|done]. exists (Caching c). split; [done|apply like_refl]. Qed.
Lemma stands_trans k y1 y2 y3 : stands k y1 y2 -> stands k y2 y3 -> stands k y1 y3.
Proof.
  intros H1' H2' j c Hk Hj. destruct (H1' j c Hk Hj) as ((c'&Hc'&Hl)&Hi). pose proof Hl as (t&b&->).
  destruct (H2' j _ Hk Hc') as ((c2&Hc2&Hl2)&Hi2). split; [exists c2; split; [done|by eapply like_trans]|].
  intros p it Hr Hp. apply Hi2; [exact Hr|by apply Hi].
Qed.
Lemma stands_weaken k y y' : stands None y y' -> stands k y y'.
Proof. intros Hs j c _. by apply Hs. Qed.
(** What changes neither the cache nor a peer. *)
Lemma stands_same k y y' : cache_ y' = cache_ y -> (forall j c, k <> Some j -> conns_ y !! j = Some (Caching c) -> conns_ y' !! j = Some (Caching c)) ->
  stands k y y'.
Proof. intros Hc Hj j c Hk H'. rewrite Hc. split; [|done]. exists (Caching c). split; [by apply Hj|apply like_refl]. Qed.

Section steps.
Context (e : endian) (little : bool) `{Table_Malloc} `{Item_Malloc} `{!Item_Malloc_Ok} `{Buffer_Malloc} `{!Buffer_Malloc_Ok} `{Block_Malloc} `{Auth_Library}.
Context (conf : settings) (unassigned : Z).
Context (blocks : forall n, malloc_block n = true).
Implicit Types (y : system) (lost : holds) (k : sink).
Abbreviation base lost y := (plus lost (refs_of (web_ y))).

Lemma stands_cache base (o : option sink) y y' : served e base (cache_ y) (conns_ y) ->
  (forall j c, o <> Some j -> conns_ y !! j = Some (Caching c) -> exists c', conns_ y' !! j = Some c' /\ like (Caching c) c') ->
  (forall p it, base p = 0 -> (forall j c, o = Some j -> conns_ y !! j = Some c -> own c p = 0) ->
     aside p it (cache_ y) -> aside p it (cache_ y')) -> stands o y y'.
Proof.
  intros Hsv Hc Hu j c Hj Hjc. split; [by apply Hc|]. intros p it Hr Hp.
  destruct (receiving_aside e _ _ _ j c p Hsv Hjc Hr) as (it'&Ha&_&H0'&Hown&_).
  assert (it' = it) as -> by (pose proof (as_heap _ _ _ Ha); congruence). apply (Hu p it); [done| |done].
  intros i ci -> Hi. pose proof (owned_le i ci (delete j (conns_ y)) p) as Hle. rewrite lookup_delete_ne in Hle by congruence.
  specialize (Hle Hi). pose proof (own_ge ci p). lia.
Qed.

(** The numbers and the first bytes of connections that are told of a change. *)
Definition conns_ok (next : sink) (conns : gmap sink connection) : Prop :=
  forall k c, conns !! k = Some c -> (k < next)%positive /\ help_ok c.
Lemma notify_conns_ok next s s' conns : conns_ok next conns -> conns_ok next (notify_all s s' conns).
Proof.
  intros Hc k c' Hk. destruct (notify_all_like _ _ _ _ _ Hk) as (c&Hk'&t&b&->). destruct (Hc k c Hk') as [? Hh]. split; [done|]. by destruct c.
Qed.

(** A call of the cache by others. *)
Lemma call_ok {A} lost y (m : (sink -> bool) -> M A) Q : sys_ok e lost y ->
  (forall a s', m (alive (conns_ y)) (cache_ y) = Some (a, s') -> undisturbed (base lost y) (cache_ y) s') ->
  wp (m (alive (conns_ y))) (cache_ y) (fun a s' =>
    let y' := y <| cache_ := s' |> <| conns_ ::= notify_all (cache_ y) s' |> in
    stands None y y' -> conns_ok (next_ y') (conns_ y') ->
    (forall base', (forall p, 0 <= base' p) -> inv e s' (plus base' (owned (conns_ y))) -> served e base' s' (conns_ y')) -> Q a y') ->
  wp (call m) y Q.
Proof.
  intros [H0' Hsv Hc Hv] Hu Hm. unfold call, wp in *. destruct (m _ _) as [[a s']|] eqn:E; [|done].
  specialize (Hu _ _ eq_refl). apply Hm; clear Hm.
  - apply (stands_cache (base lost y)); [done| |].
    + intros j c _ Hj. cbn. rewrite notify_all_lookup, Hj. eexists. split; [done|apply notify_like].
    + intros p it Hb _. by apply Hu.
  - apply notify_conns_ok. exact Hc.
  - intros base' Hb' Hi'. cbn. by eapply served_frame.
Qed.

(** A handler of a connection. *)
Lemma at_peer_ok lost y k c (m : (sink -> bool) -> N unit) : sys_ok e lost y -> conns_ y !! k = Some (Caching c) ->
  (forall p it, passes false p it (m (alive (conns_ y)))) ->
  wp (m (alive (conns_ y))) (node_of (cache_ y) c) (fun _ => left_ok e (plus (base lost y) (owned (delete k (conns_ y))))) ->
  wp (at_peer k m) y (fun _ => stepped e lost (Some k) y).
Proof.
  intros [H0' Hsv Hc Hv] Hk Hp Hm. unfold at_peer, wp in *. rewrite Hk. destruct (m _ _) as [[[] n]|] eqn:E; [|done].
  pose proof (passes_undisturbed e _ _ _ _ _ _ _ Hsv Hk Hp E) as Hu.
  destruct (served_act e _ _ _ _ _ _ Hsv Hk Hm Hu) as (base'&Hb&Hsv').
  exists (fun p => base' p - refs_of (web_ y) p). split; [intros p; specialize (Hb p); unfold plus in Hb; lia|]. split; [split|].
  - intros p. specialize (Hb p). specialize (H0' p). unfold plus in Hb. lia.
  - eapply served_ext; [|exact Hsv']. intros p. unfold plus. cbn. lia.
  - cbn. assert (conns_ok (next_ y) (notify_all (cache_ y) (Peer.cache_mgr_ n) (delete k (conns_ y)))) as Hco.
    { apply notify_conns_ok. intros j cj [_ Hj]%lookup_delete_Some. by apply Hc. }
    destruct (self_ (peer n)); [|exact Hco]. intros j cj [[<- <-]|[_ Hj]]%lookup_insert_Some; [|by apply Hco].
    split; [by apply (Hc _ _ Hk)|done].
  - done.
  - apply (stands_cache (base lost y)); [done| |].
    + intros j cj Hj Hjc. assert (k <> j) by congruence. eexists. split; [|apply notify_like].
      cbn. destruct (self_ (peer n)); rewrite ?lookup_insert_ne by done; rewrite notify_all_lookup, lookup_delete_ne, Hjc by done; done.
    + intros p it Hb0 Ho Ha. apply (Hu p it); [|done]. specialize (Ho k _ eq_refl Hk). unfold plus in *. lia.
Qed.

(** ** A connection that begins *)
Definition fresh_conn (memory : bytes) : cache_conn := mk_cache_conn (Peer.init memory) [] false None.
(** The first bytes of a peer are not one of the requests that it is not made for. *)
Definition startable k (memory d : bytes) y : Prop :=
  Z.of_nat (length memory) = Peer.DEFAULT_SIZE /\
  forall n, Peer.create k memory (node_of (cache_ y) (fresh_conn memory)) = Some (tt, n) ->
    cool n /\ benign_run e little (alive (<[k := Caching (fresh_conn memory)]> (conns_ y))) conf k unassigned (with_data d n) = true.
Definition begins k (memory : bytes) (f : first_step) y : Prop :=
  match f with Starts_cache d => startable k memory d y | _ => True end.
(** What the first bytes come to. *)
Definition first_ok (f : first_step) : Prop :=
  match f with
  | Reads h _ => helps h
  | Shakes h => helps h /\ read_data_size_ h = 0
  | Starts_cache d => Forall is_byte d
  | _ => True
  end.

Lemma fed_ok h got f : helps h -> Forall is_byte got -> fed h got f -> first_ok f.
Proof.
  intros Hh Hg Hf. unfold fed in Hf. case_decide; [by destruct Hf as (h'&->&Hh'&_)|]. subst f. unfold dispatch.
  case_match; [apply Forall_app; split; [apply Hh|done]|]. by case_match.
Qed.

(** There was no peer of this number. *)
Definition unheard k y : Prop := (k < next_ y)%positive /\ forall c, conns_ y !! k <> Some (Caching c).
Lemma unheard_own k y c p : unheard k y -> conns_ y !! k = Some c -> own c p = 0.
Proof. intros [_ Hn] Hk. destruct c as [| |c|]; try done. by destruct (Hn c). Qed.
Lemma alone_ok lost y k : sys_ok e lost y -> unheard k y ->
  served e (base lost y) (cache_ y) (delete k (conns_ y)) /\ conns_ok (next_ y) (delete k (conns_ y)).
Proof.
  intros [_ Hsv Hc _] Hu. split; [|intros j c [_ Hj]%lookup_delete_Some; by apply Hc].
  destruct (conns_ y !! k) as [c|] eqn:Hk; [|by rewrite delete_id]. eapply served_ext; [|by eapply served_take].
  intros p. unfold plus. rewrite (unheard_own k y c p Hu Hk). lia.
Qed.
Lemma put_ok lost y k c : sys_ok e lost y -> unheard k y -> (forall p, own c p = 0) -> help_ok c ->
  (forall c', c = Caching c' -> self_ (cc_peer c') = true /\ forall others, inv e (cache_ y) others -> node_ok e others (node_of (cache_ y) c')) ->
  sys_ok e lost (y <| conns_ ::= <[k := c]> |>).
Proof.
  intros Hy Hu Ho Hh Hn. destruct (alone_ok lost y k Hy Hu) as [Hsv Hc]. destruct Hy as [H0' Hsv0 Hc0 Hv].
  split; [done| | |done]; cbn.
  - rewrite <- insert_delete_eq. apply served_put; [apply Hsv|apply lookup_delete_eq| |].
    + eapply served_ext; [|exact Hsv]. intros p. unfold plus. rewrite Ho. lia.
    + intros c' Hc'. destruct (Hn c' Hc') as [Hs Hi]. split; [done|]. apply Hi, Hsv.
  - intros j cj [[<- <-]|[_ Hj]]%lookup_insert_Some; [split; [apply Hu|done]|by apply Hc0].
Qed.
Lemma drop_ok lost y k : sys_ok e lost y -> unheard k y -> sys_ok e lost (y <| conns_ ::= delete k |>).
Proof. intros Hy Hu. destruct (alone_ok lost y k Hy Hu) as [Hsv Hc]. by destruct Hy. Qed.
Lemma unheard_stands k y (f : gmap sink connection -> gmap sink connection) :
  (forall j, j <> k -> f (conns_ y) !! j = conns_ y !! j) -> stands (Some k) y (y <| conns_ ::= f |>).
Proof. intros Hf. apply stands_same; [done|]. intros j c Hj Hjc. cbn. rewrite Hf; [done|congruence]. Qed.

Lemma wp_steps_to {A} lost k y y1 (m : ST system A) :
  sys_ok e lost y1 -> stands (Some k) y y1 -> wp m y1 (fun _ => stepped e lost (Some k) y1) -> wp m y1 (fun _ => stepped e lost (Some k) y).
Proof.
  intros _ Hs Hm. eapply wp_mono; [exact Hm|]. intros a y2 (lost'&Hl&Hy&Hs2). exists lost'. split; [done|]. split; [done|].
  by eapply stands_trans.
Qed.

Lemma create_ok (self : sink) memory s others : inv e s others -> Z.of_nat (length memory) = Peer.DEFAULT_SIZE ->
  wp (Peer.create self memory) (node_of s (fresh_conn memory)) (fun _ n => node_ok e others n).
Proof.
  intros Hi Hm. unfold Peer.create. apply wp_bind, wp_modify. unfold Peer.stats_conn. apply wp_cache_exact. apply wp_on, wp_modify. intros t b.
  cbn in b |- *. eapply (init_ok e others memory t b); [|done..]. by apply inv_stats, (s_stats _ (proj2 Hi)).
Qed.
Lemma start_cache_ok k memory d y others : inv e (cache_ y) others -> (forall p, 0 <= others p) -> Forall is_byte d -> startable k memory d y ->
  wp (start_cache e little conf unassigned k memory d (alive (<[k := Caching (fresh_conn memory)]> (conns_ y))))
    (node_of (cache_ y) (fresh_conn memory)) (fun _ => left_ok e others).
Proof.
  intros Hi H0' Hd [Hm Hs]. apply wp_bind.
  destruct (proj1 (wp_run _ _ _) (create_ok k memory _ others Hi Hm)) as ([]&n&Hcr&Hok). unfold wp at 1. rewrite Hcr.
  destruct (Hs n Hcr) as [Hc Hb]. apply start_ok; try done. apply (cool_few e); [apply Hok|done].
Qed.
Lemma passes_start_cache k memory d al p it : passes false p it (start_cache e little conf unassigned k memory d al).
Proof. refine (keeps_bind _ _ _ _ (passes_create _ _ _ _ _) _). intros _ _. by apply passes_started. Qed.

(** A change of the counters. *)
Lemma count_ok lost y (f : stats -> stats) : sys_ok e lost y -> stats_wf (f (Cache.stats_ (cache_ y))) ->
  wp (count (modify f)) y (fun _ y' => sys_ok e lost y' /\ stands None y y').
Proof.
  intros Hy Hf. unfold count. apply (call_ok lost); [done| |].
  - intros a s' [= _ <-] p it _ []. by split.
  - apply wp_on, wp_modify. cbn zeta. intros Hst Hco Hsv. split; [|done]. pose proof Hy as [H0' Hsv0 _ Hv].
    split; [done| |exact Hco|done]. apply Hsv; [apply Hsv0|]. apply inv_stats; [apply Hsv0|done].
Qed.

(** A step of the first bytes and what follows of it. *)
Lemma follow_ok lost k ssl memory f y : sys_ok e lost y -> unheard k y -> first_ok f -> begins k memory f y ->
  wp (follow e little conf unassigned k ssl memory f) y (fun _ => stepped e lost (Some k) y).
Proof.
  intros Hy Hu Hf Hb. assert (forall c, stands (Some k) y (y <| conns_ ::= <[k := c]> |>)) as Hins.
  { intros c. apply unheard_stands. intros j Hj. by rewrite lookup_insert_ne. }
  assert (forall c, help_ok c -> (forall c', c <> Caching c') -> wp (put_conn k c) y (fun _ => stepped e lost (Some k) y)) as Hput.
  { intros c Hc Hn. apply wp_modify. exists lost. split; [done|]. split; [|apply Hins].
    apply put_ok; [done|done|intros p; destruct c as [| |c|]; try done; by destruct (Hn c)|done|intros c' ->; by destruct (Hn c')]. }
  assert (wp (drop_conn k) y (fun _ => stepped e lost (Some k) y)) as Hdrop.
  { apply wp_modify. exists lost. split; [done|]. split; [by apply drop_ok|]. apply unheard_stands. intros j Hj. by rewrite lookup_delete_ne. }
  destruct f as [h room|h|h| |d|d]; cbn [follow]; [by apply Hput|by apply Hput|done|done|..].
  - apply wp_bind, wp_modify. set (y1 := set conns_ _ y). assert (sys_ok e lost y1) as Hy1.
    { apply put_ok; [done|done|intros p; cbn; unfold receiving; cbn; by rewrite decide_False|done|]. intros c' [= <-]. split; [done|].
      intros others Hi. apply (init_ok e others memory [] false); [done|apply Hb|done..]. }
    apply (wp_steps_to lost k y y1); [done|apply Hins|]. eapply at_peer_ok; [done|apply lookup_insert_eq|apply passes_start_cache|].
    destruct (sv_cache _ _ _ _ (yo_served _ _ _ Hy)) as [Hi1 Hi2]. apply (start_cache_ok k memory d y); [|..|done|exact Hb].
    + eapply inv_held; [|exact (sv_cache _ _ _ _ (proj1 (alone_ok lost y k Hy Hu)))]. intros p. unfold plus. cbn. by rewrite delete_insert_eq.
    + intros p. unfold plus. pose proof (yo_lost _ _ _ Hy p). pose proof (refs_of_ge (web_ y1) p). pose proof (owned_ge (delete k (conns_ y1)) p). lia.
  - apply wp_bind. apply wp_modify. set (y1 := set conns_ _ y). assert (sys_ok e lost y1) as Hy1 by by apply put_ok.
    eapply wp_mono; [apply (count_ok lost y1 _ Hy1)|].
    + apply (s_stats _ (proj2 (sv_cache _ _ _ _ (yo_served _ _ _ Hy)))).
    + intros [] y2 [Hy2 Hs2]. exists lost. split; [done|]. split; [done|]. eapply stands_trans; [apply Hins|]. by apply stands_weaken.
Qed.

(** ** The events there can be *)

(** No item is near the bound of its [ref_count]. *)
Definition unhurried (s : Cache_Mgr) : Prop := forall p it, heap s !! p = Some it -> ref_count it + 68 < 2 ^ 15.
(** If the bytes are enough for a peer, it is one that can start. *)
Definition opens k (memory d : bytes) y : Prop := 4 <= Z.of_nat (length d) -> begins k memory (dispatch d) y.
Definition possible_event (ev : event) y : Prop :=
  match ev with
  | Accepted i err ec1 ec2 help_memory got memory => exists a, accepts_ (server_ y) !! i = Some a /\
      (err = false -> stop_flag_ (server_ y) = false /\ Z.of_nat (length help_memory) = Help.BUF_SIZE /\
        Z.of_nat (length got) <= Help.BUF_SIZE - 1 /\ Forall is_byte got /\ (ac_ssl a = false -> opens (next_ y) memory got y))
  | Shaken k err got memory => exists h, conns_ y !! k = Some (Shaking h) /\
      (err = false -> Z.of_nat (length got) <= Help.BUF_SIZE - 1 /\ Forall is_byte got /\ opens k memory got y)
  | First_read k got memory => exists ssl h, conns_ y !! k = Some (Helping ssl h) /\
      forall d, got = Some d -> Z.of_nat (length d) <= Help.room h /\ Forall is_byte d /\ opens k memory (said h ++ d) y
  | Arrives k d => Forall is_byte d
  | Completes k c => exists cc, conns_ y !! k = Some (Caching cc) /\
      possible e little (alive (conns_ y)) conf k unassigned c (node_of (cache_ y) cc)
  | Timer reading => 0 <= reading /\ unhurried (cache_ y)
  | Called r => allowed (cache_ y) (refs_of (web_ y)) r /\ unhurried (cache_ y)
  | Browsed k => conns_ y !! k = Some Browsing
  | Stopped => True
  end.
(** The connection an event is about. *)
Definition concerns (ev : event) y : option sink :=
  match ev with
  | Accepted _ _ _ _ _ _ _ => Some (next_ y)
  | Shaken k _ _ _ | First_read k _ _ | Arrives k _ | Completes k _ | Browsed k => Some k
  | _ => None
  end.

Lemma opens_begins k memory h got f y : opens k memory (said h ++ got) y -> fed h got f -> begins k memory f y.
Proof.
  unfold opens, fed. intros Ho Hf. case_decide; [by destruct Hf as (h'&->&_)|]. subst f. apply Ho. lia.
Qed.

Definition held lost y : holds := plus (base lost y) (owned (conns_ y)).
Lemma held_few lost y p : sys_ok e lost y -> unhurried (cache_ y) -> held lost y p + 68 < 2 ^ 15.
Proof.
  intros Hy Hu. pose proof (sv_cache _ _ _ _ (yo_served _ _ _ Hy)) as [Hc _]. fold (held lost y) in Hc.
  destruct (decide (0 < held lost y p)) as [Hp|Hp]; [|lia].
  destruct (held_heap e _ _ p Hc Hp) as (it&Hit&Hf). specialize (Hu p it Hit).
  destruct (c_item _ _ _ Hc p it Hit Hf) as (_&Hr&_). unfold refs in Hr. repeat case_decide; lia.
Qed.
Lemma roomy_held lost y : sys_ok e lost y -> unhurried (cache_ y) -> roomy (held lost y).
Proof. intros Hy Hu p. pose proof (held_few lost y p Hy Hu). lia. Qed.

(** What the peers of HTTP hold after a request. *)
Definition web_held (r : request) (o : option ptr) (h : holds) : holds :=
  match o, r with Some p, _ => give p 1 h | None, Release p => give p (-1) h | None, _ => h end.
Definition requested lost r (ao : reply * option ptr) y y' : Prop :=
  stands None y y' /\ conns_ok (next_ y') (conns_ y') /\ server_ y' = server_ y /\ web_ y' = web_ y /\ next_ y' = next_ y /\
  owned (conns_ y') = owned (conns_ y) /\
  exists lost', (forall p, lost p <= lost' p <= lost p + 1) /\ served e (plus lost' (web_held r ao.2 (refs_of (web_ y)))) (cache_ y') (conns_ y').
Lemma request_ok lost y r : sys_ok e lost y -> roomy (held lost y) -> allowed (cache_ y) (refs_of (web_ y)) r ->
  wp (call (fun al => run_request e al conf r)) y (fun ao y' => requested lost r ao y y').
Proof.
  intros Hy Hr Ha. pose proof (yo_lost _ _ _ Hy) as H0'. pose proof (sv_cache _ _ _ _ (yo_served _ _ _ Hy)) as Hi. fold (held lost y) in Hi.
  assert (allowed (cache_ y) (held lost y) r) as Ha'.
  { destruct r; try done. cbn in *. unfold held, plus. pose proof (H0' p). pose proof (owned_ge (conns_ y) p). lia. }
  apply (call_ok lost); [done| |].
  - intros a s' Hrun p it Hb Has. pose proof (spares_request e (alive (conns_ y)) conf p it r) as Hsp.
    specialize (Hsp ltac:(intros q -> ->; cbn in Ha; unfold plus in Hb; pose proof (H0' p); lia) _ Has). rewrite Hrun in Hsp. apply Hsp.
  - eapply wp_mono; [by apply (run_request_ok e (alive (conns_ y)) conf _ (held lost y))|].
    intros [a o] s' [_ _ (held'&Hown&Hi')] y' Hst Hco Hsv. cbn [fst snd] in *.
    assert (exists lost', (forall p, lost p <= lost' p <= lost p + 1) /\
      (forall p, 0 <= plus lost' (web_held r o (refs_of (web_ y))) p) /\
      forall p, held' p = plus (plus lost' (web_held r o (refs_of (web_ y)))) (owned (conns_ y)) p) as (lost'&Hl&Hge&Hh).
    { assert (forall q, 0 <= refs_of (web_ y) q) as Hw by (intros q; apply refs_of_ge).
      unfold owns in Hown. destruct o as [p|]; [|destruct r; try destruct (leaked _ _ _)];
        try destruct Hown as (p'&?&_&_&_&Hown); subst held'; unfold web_held, held, plus, give;
        first [exists lost; split_and!; [lia|..]; intros q; pose proof (Hw q); pose proof (H0' q); cbn in Ha; repeat case_decide; subst; lia
              |exists (give p' 1 lost); unfold give; split_and!; intros q; pose proof (Hw q); pose proof (H0' q); repeat case_decide; subst; lia]. }
    split; [done|]. split; [done|]. split_and!; [done|done|done|apply owned_notify|]. exists lost'. split; [done|]. apply Hsv; [done|].
    eapply inv_held; [|exact Hi']. intros p. by rewrite Hh.
Qed.

Lemma give_back_refs p l : 0 < refs_of l p -> exists l', give_back p l = Some l' /\ forall q, refs_of l' q = give p (-1) (refs_of l) q.
Proof.
  induction l as [|x l IH]; [unfold refs_of; cbn; lia|]. intros Hp. rewrite refs_of_cons in Hp. cbn [give_back].
  case_decide as Hx; [subst x; exists l; split; [done|]; intros q; unfold give; rewrite refs_of_cons; unfold give; case_decide; lia|].
  unfold give in Hp. rewrite decide_False in Hp by done. destruct (IH Hp) as (l'&->&Hl). exists (x :: l'). split; [done|].
  intros q. rewrite refs_of_cons. unfold give at 1. rewrite Hl. unfold give. rewrite refs_of_cons. unfold give. repeat case_decide; lia.
Qed.
(** A request of a peer of HTTP, which holds or gives back a reference. *)
Lemma called_ok lost y r : sys_ok e lost y -> unhurried (cache_ y) -> allowed (cache_ y) (refs_of (web_ y)) r ->
  wp (happen e little conf unassigned (Called r)) y (fun _ => stepped e lost None y).
Proof.
  intros Hy Hu Ha. apply wp_bind. eapply wp_mono; [apply (request_ok lost y r Hy); [by apply roomy_held|done]|].
  intros [a o] y1 (Hst&Hco&Hsv&Hw&Hn&Ho&lost'&Hl&Hs). unfold hold. apply wp_bind, wp_gets, wp_bind. cbn [snd] in *. rewrite Hw.
  assert (exists l', match o, r with Some p, _ => Some (p :: web_ y) | None, Release p => give_back p (web_ y) | None, _ => Some (web_ y) end = Some l' /\
    forall q, refs_of l' q = web_held r o (refs_of (web_ y)) q) as (l'&Hl'&Hh).
  { destruct o as [p|]; [exists (p :: web_ y); split; [done|]; intros q; apply refs_of_cons|].
    destruct r; try by exists (web_ y). by apply give_back_refs. }
  eapply wp_the; [exact Hl'|]. apply wp_modify. exists lost'. split; [apply Hl|]. split; [split|by apply Hst].
  - intros p. specialize (Hl p). pose proof (yo_lost _ _ _ Hy p). lia.
  - eapply served_ext; [|exact Hs]. intros p. unfold plus. cbn. by rewrite Hh.
  - exact Hco.
  - cbn. rewrite Hsv. apply Hy.
Qed.

(** A request that gives and takes no reference, of the timer. *)
Lemma plain_call_ok {A} (m : (sink -> bool) -> M A) (r : request) lost y n : (forall al, run_request e al conf r = (m al;; mret (Done, None))) ->
  (forall h, web_held r None h = h) -> (forall s h, allowed s h r) -> sys_ok e lost y -> 0 <= n -> (forall p, held lost y p + n + 1 < 2 ^ 15) ->
  wp (call m) y (fun _ y' =>
    (exists lost', (forall p, lost p <= lost' p) /\ sys_ok e lost' y' /\ (forall p, held lost' y' p + n < 2 ^ 15)) /\ stands None y y').
Proof.
  intros Hm Hwh Hal Hy Hn Hr. pose proof (request_ok lost y r Hy) as Hreq. unfold wp, call in *. rewrite Hm in Hreq.
  unfold mbind, ST_bind, mret, ST_ret in Hreq. destruct (m _ _) as [[a s']|] eqn:E; [|exfalso; apply Hreq; [intros p; specialize (Hr p); lia|done]].
  destruct Hreq as (Hst&Hco&Hsv&Hw&Hnx&Ho&lost'&Hl&Hs); [intros p; specialize (Hr p); lia|done|]. cbn [snd] in Hs. rewrite Hwh in Hs.
  split; [|done]. exists lost'. split; [apply Hl|]. split; [split|].
  - intros p. specialize (Hl p). pose proof (yo_lost _ _ _ Hy p). lia.
  - exact Hs.
  - exact Hco.
  - apply Hy.
  - intros p. specialize (Hr p). specialize (Hl p). unfold held, plus in *. rewrite Ho, Hw. lia.
Qed.
Lemma timer_ok lost y reading : sys_ok e lost y -> unhurried (cache_ y) -> 0 <= reading ->
  wp (handle_timer reading) y (fun _ => stepped e lost None y).
Proof.
  intros Hy Hu Hre. assert (forall p, held lost y p + 3 < 2 ^ 15) as Hr.
  { intros p. pose proof (held_few lost y p Hy Hu). lia. }
  apply wp_bind. eapply wp_mono; [apply (plain_call_ok (fun _ => Mgr.tick reading) (Tick reading) lost y 2); try done; intros p; specialize (Hr p); lia|].
  intros _ y1 [(l1&Hl1&Hy1&Hr1) Hs1].
  apply wp_bind. eapply wp_mono; [apply (plain_call_ok Mgr.check_expired Check_expired l1 y1 1); try done; intros p; specialize (Hr1 p); lia|].
  intros _ y2 [(l2&Hl2&Hy2&Hr2) Hs2].
  apply wp_bind. eapply wp_mono; [apply (plain_call_ok (fun _ => Mgr.print_stats) Print_stats l2 y2 0); try done; intros p; specialize (Hr2 p); lia|].
  intros _ y3 [(l3&Hl3&Hy3&_) Hs3].
  apply wp_on, wp_modify. exists l3. split; [intros p; specialize (Hl1 p); specialize (Hl2 p); specialize (Hl3 p); lia|]. split.
  - destruct Hy3 as [? ? ? []]. by split.
  - eapply stands_trans; [exact Hs1|]. eapply stands_trans; [exact Hs2|]. eapply stands_trans; [exact Hs3|]. by apply stands_same.
Qed.

(** Steps of the server itself. *)
Lemma in_server_ok {A} lost y (m : ST Server A) (P : A -> Prop) Q : sys_ok e lost y ->
  wp m (server_ y) (fun a v => server_ok v /\ P a) ->
  (forall a v, P a -> sys_ok e lost (y <| server_ := v |>) -> Q a (y <| server_ := v |>)) -> wp (in_server m) y Q.
Proof. intros Hy Hm HQ. apply wp_on. eapply wp_mono; [exact Hm|]. intros a v [Hv Ha]. apply HQ; [done|]. by destruct Hy. Qed.

Lemma accepted_ok lost y i err ec1 ec2 hm got memory : sys_ok e lost y -> possible_event (Accepted i err ec1 ec2 hm got memory) y ->
  wp (happen e little conf unassigned (Accepted i err ec1 ec2 hm got memory)) y (fun _ => stepped e lost (Some (next_ y)) y).
Proof.
  intros Hy (a&Hi&Hp). apply wp_bind.
  eapply (in_server_ok lost y _ (fun r => r = if err then None else Some a)); [done|apply handle_accept_ok; [apply Hy|done|by apply Hp]|].
  intros r v -> Hy1. destruct err.
  { apply wp_ret. exists lost. split; [done|]. split; [done|]. by apply stands_same. }
  destruct (Hp eq_refl) as (_&Hhm&Hg&Hgb&Hop). set (k := next_ y).
  apply wp_bind, wp_bind, wp_gets, wp_bind, wp_modify, wp_ret. set (y2 := set next_ _ _).
  assert (sys_ok e lost y2) as Hy2.
  { destruct Hy1 as [H1' H2' H3' H4']. split; [done..| |done]. intros j c Hj. destruct (H3' j c Hj) as [Hlt Hok]. split; [|done]. cbn in *. lia. }
  assert (unheard k y2) as Hu.
  { split; [unfold k; cbn; lia|]. intros c Hk. destruct (yo_conns _ _ _ Hy k _ Hk) as [Hlt _]. unfold k in Hlt. lia. }
  destruct (created_helps (ac_service a) (ac_acceptor a) hm Hhm) as [Hh Hs]. set (h := Help.create _ _ _) in *.
  assert (exists f, (if ac_ssl a then SSL_Help.start ec1 ec2 h else Help.start ec1 ec2 got h) = Some f /\ first_ok f /\ begins k memory f y2) as (f&Hf&Hfo&Hbg).
  { destruct (ac_ssl a); [|destruct ec1; [|destruct ec2]].
    - unfold SSL_Help.start. destruct ec1; [by eexists|]. destruct ec2; [by eexists|]. eexists. split; [done|]. by split; [split|].
    - by eexists.
    - by eexists.
    - destruct (start_fed h got Hh) as (f&Hf&Hfed); [done|done|]. exists f. split; [done|]. split; [by eapply fed_ok|].
      apply (opens_begins k memory h got f); [|done]. rewrite Hs. by apply Hop. }
  apply wp_bind. eapply wp_the; [exact Hf|]. eapply wp_mono; [by apply follow_ok|].
  intros [] y3 (l'&Hl&Hy3&Hs3). exists l'. split; [done|]. split; [done|]. eapply stands_trans; [by apply stands_same|exact Hs3].
Qed.

Lemma unheard_help lost k y c : sys_ok e lost y -> conns_ y !! k = Some c -> (forall c', c <> Caching c') -> unheard k y.
Proof. intros Hy Hk Hc. split; [by apply (yo_conns _ _ _ Hy k c)|]. intros c' Hk'. apply (Hc c'). congruence. Qed.
Lemma shaken_ok lost y k err got memory : sys_ok e lost y -> possible_event (Shaken k err got memory) y ->
  wp (happen e little conf unassigned (Shaken k err got memory)) y (fun _ => stepped e lost (Some k) y).
Proof.
  intros Hy (h&Hk&Hp). destruct (yo_conns _ _ _ Hy k _ Hk) as [_ [Hh H0']].
  apply wp_bind. unfold shaking, wp at 1. rewrite Hk. apply wp_bind.
  assert (unheard k y) as Hu by by apply (unheard_help lost k y _ Hy Hk).
  assert (exists f, SSL_Help.handle_handshake err got h = Some f /\ first_ok f /\ begins k memory f y) as (f&Hf&Hfo&Hbg).
  { destruct err; [by eexists|]. destruct (Hp eq_refl) as (Hl&Hg&Ho).
    destruct (handshake_fed h got Hh H0') as (f&Hf&Hfed); [unfold Help.room; lia|done|]. exists f. split; [done|]. split; [by eapply fed_ok|].
    eapply (opens_begins k memory h got f); [|done]. unfold said. by rewrite H0'. }
  eapply wp_the; [exact Hf|]. by apply follow_ok.
Qed.
Lemma first_read_ok lost y k got memory : sys_ok e lost y -> possible_event (First_read k got memory) y ->
  wp (happen e little conf unassigned (First_read k got memory)) y (fun _ => stepped e lost (Some k) y).
Proof.
  intros Hy (ssl&h&Hk&Hp). destruct (yo_conns _ _ _ Hy k _ Hk) as [_ Hh].
  apply wp_bind. unfold helping, wp at 1. rewrite Hk. apply wp_bind. cbn [fst snd].
  assert (unheard k y) as Hu by by apply (unheard_help lost k y _ Hy Hk).
  assert (exists f, (if ssl then SSL_Help.handle_first_read got h else Help.handle_first_read got h) = Some f /\ first_ok f /\ begins k memory f y) as (f&Hf&Hfo&Hbg).
  { destruct got as [d|]; [|exists Deleted; by destruct ssl]. destruct (Hp d eq_refl) as (Hl&Hg&Ho).
    destruct (first_read_fed ssl h d Hh Hl Hg) as (f&Hf&Hfed). exists f. split; [done|]. split; [by eapply fed_ok|by eapply opens_begins]. }
  eapply wp_the; [exact Hf|]. by apply follow_ok.
Qed.

(** Bytes that come to a socket. *)
Lemma arrives_ok lost y k d : sys_ok e lost y -> Forall is_byte d ->
  wp (happen e little conf unassigned (Arrives k d)) y (fun _ => stepped e lost (Some k) y).
Proof.
  intros Hy Hd. apply wp_modify. exists lost. split; [done|]. assert (forall c, own (arrive d c) = own c) as Ho by by intros [].
  assert (forall conns, owned (alter (arrive d) k conns) = owned conns) as Hown.
  { intros conns. unfold owned. f_equal. apply map_eq. intros j. rewrite !lookup_fmap. destruct (decide (j = k)) as [->|Hj].
    - rewrite lookup_alter_eq. destruct (conns !! k); [|done]. cbn. by rewrite Ho.
    - by rewrite lookup_alter_ne. }
  split; [destruct Hy as [H0' [Hb Hi Hc] Hco Hv]; split; [done|split|..|done]|].
  - done.
  - cbn. by rewrite Hown.
  - cbn. intros j c Hj. destruct (decide (j = k)) as [->|Hjk].
    + rewrite lookup_alter_eq, fmap_Some in Hj. destruct Hj as (c0&Hj&E). destruct c0 as [| |c0|]; try done. injection E as ->.
      destruct (Hc k c0 Hj) as [Hs Hn]. split; [done|].
      replace (delete k (alter (arrive d) k (conns_ y))) with (delete k (conns_ y))
        by (apply map_eq; intros i; rewrite !lookup_delete; case_decide; [done|by rewrite lookup_alter_ne]).
      by apply (socket_ok e _ (node_of (cache_ y) c0)).
    + rewrite lookup_alter_ne in Hj by done. destruct (Hc j c Hj) as [Hs Hn]. split; [done|].
      replace (delete j (alter (arrive d) k (conns_ y))) with (alter (arrive d) k (delete j (conns_ y))); [by rewrite Hown|].
      apply map_eq. intros i. destruct (decide (i = k)) as [->|Hik];
        rewrite ?lookup_alter_eq, ?lookup_delete_ne, ?lookup_alter_eq by done; [done|].
      rewrite lookup_alter_ne, !lookup_delete by done. case_decide; [done|by rewrite lookup_alter_ne].
  - cbn. intros j c Hj. destruct (decide (j = k)) as [->|Hjk]; [|rewrite lookup_alter_ne in Hj by done; by apply Hco].
    rewrite lookup_alter_eq, fmap_Some in Hj. destruct Hj as (c0&Hj&->). destruct (Hco k c0 Hj). split; [done|]. by destruct c0.
  - apply unheard_stands. intros j Hj. by rewrite lookup_alter_ne.
Qed.

(** An operation of a peer ends. *)
Lemma passes_handle al k c p it : passes false p it (handle e little al conf k unassigned c).
Proof.
  destruct c; cbn [handle]; [by apply passes_started|by apply passes_was_read|by apply passes_was_written|by apply passes_handle_timer].
Qed.
Lemma completes_ok lost y k c : sys_ok e lost y -> possible_event (Completes k c) y ->
  wp (happen e little conf unassigned (Completes k c)) y (fun _ => stepped e lost (Some k) y).
Proof.
  intros Hy (cc&Hk&Hp). apply (at_peer_ok lost y k cc); [done|done|intros p it; apply passes_handle|].
  pose proof (yo_served _ _ _ Hy) as [H0' _ Hc]. apply (handle_ok e little _ conf k unassigned blocks); [| |exact Hp].
  - by apply Hc.
  - intros p. unfold plus at 1. pose proof (H0' p). pose proof (owned_ge (delete k (conns_ y)) p). lia.
Qed.

(** A peer of HTTP ends, and the server stops. *)
Lemma browsed_ok lost y k : sys_ok e lost y -> possible_event (Browsed k) y ->
  wp (happen e little conf unassigned (Browsed k)) y (fun _ => stepped e lost (Some k) y).
Proof.
  intros Hy Hk. cbn in Hk. assert (unheard k y) as Hu by by apply (unheard_help lost k y _ Hy Hk).
  apply wp_bind, wp_modify. set (y1 := set conns_ _ y). assert (sys_ok e lost y1) as Hy1 by by apply drop_ok.
  eapply wp_mono; [apply (count_ok lost y1 _ Hy1); apply (s_stats _ (proj2 (sv_cache _ _ _ _ (yo_served _ _ _ Hy))))|].
  intros [] y2 [Hy2 Hs2]. exists lost. split; [done|]. split; [done|]. eapply stands_trans; [|by apply stands_weaken].
  apply unheard_stands. intros j Hj. by rewrite lookup_delete_ne.
Qed.
Lemma stopped_ok lost y : sys_ok e lost y -> wp (happen e little conf unassigned Stopped) y (fun _ => stepped e lost None y).
Proof.
  intros Hy. eapply (in_server_ok lost y _ (fun _ => True)); [done| |].
  - eapply wp_mono; [apply stop_ok, Hy|]. by intros [] v (Hv&_).
  - intros [] v _ Hy1. exists lost. split; [done|]. split; [done|]. by apply stands_same.
Qed.

(** Every event. *)
Lemma event_ok lost y ev : sys_ok e lost y -> possible_event ev y ->
  wp (happen e little conf unassigned ev) y (fun _ => stepped e lost (concerns ev y) y).
Proof.
  intros Hy Hp. destruct ev; cbn [concerns].
  - by apply accepted_ok.
  - by apply shaken_ok.
  - by apply first_read_ok.
  - by apply arrives_ok.
  - by apply completes_ok.
  - destruct Hp. by apply timer_ok.
  - destruct Hp. by apply called_ok.
  - by apply browsed_ok.
  - by apply stopped_ok.
Qed.

(** ** Runs of the server *)
Inductive runs : system -> Prop :=
  | runs_boot pool_size thread_size l bad_chain bad_key limit mx mn f t y :
      boot pool_size thread_size l bad_chain bad_key limit mx mn f t = Some (Some y) ->
      slab_ok (slab_ (cache_ y)) = true -> sizeof_Cache_Item <= size_of (slab_ (cache_ y)) 1 ->
      size_of (slab_ (cache_ y)) (class_id_max_ (slab_ (cache_ y))) <= 2 ^ 30 -> 0 <= limit <= 2 ^ 35 -> runs y
  | runs_event y ev y' : runs y -> possible_event ev y -> happen e little conf unassigned ev y = Some (tt, y') -> runs y'.

Lemma boot_ok pool_size thread_size l bad_chain bad_key limit mx mn f t y :
  boot pool_size thread_size l bad_chain bad_key limit mx mn f t = Some (Some y) ->
  length (listening (server_ y)) = length l /\
  (slab_ok (slab_ (cache_ y)) = true -> sizeof_Cache_Item <= size_of (slab_ (cache_ y)) 1 ->
   size_of (slab_ (cache_ y)) (class_id_max_ (slab_ (cache_ y))) <= 2 ^ 30 -> 0 <= limit <= 2 ^ 35 -> sys_ok e (fun _ => 0) y).
Proof.
  unfold boot. destruct (create_server_ok pool_size thread_size) as (v&->&Hv&Hs&Hl0). cbn [mbind option_bind].
  destruct (proj1 (wp_run _ _ _) (start_server_ok l bad_chain bad_key v Hv Hs)) as ([]&v'&->&_&Hv'&_&Hl); [|done].
  destruct (Mgr.start limit mx mn f t) as [s|] eqn:E; [|done]. intros [= <-]. split; [cbn; by rewrite Hl, Hl0|]. cbn. intros H1' H2' H3' H4'.
  destruct (start_inv e limit mx mn f t s E H1' H2' H3' H4') as (Hi&_).
  split; [done|split|..]; cbn.
  - intros p. unfold plus, refs_of. cbn. lia.
  - eapply inv_held; [|exact Hi]. intros p. unfold plus, refs_of, owned, total. cbn. by rewrite fmap_empty, map_fold_empty.
  - by intros k c ?%lookup_empty_Some.
  - by intros k c ?%lookup_empty_Some.
  - done.
Qed.
Lemma runs_ok y : runs y -> exists lost, sys_ok e lost y.
Proof.
  induction 1 as [? ? ? ? ? ? ? ? ? ? y Hb H1' H2' H3' H4'|y ev y' _ (lost&Hy) Hp Hst]; [eexists; by eapply (proj2 (boot_ok _ _ _ _ _ _ _ _ _ _ _ Hb))|].
  pose proof (event_ok lost y ev Hy Hp) as Hwp. unfold wp in Hwp. rewrite Hst in Hwp. destruct Hwp as (lost'&_&Hy'&_). by exists lost'.
Qed.
End steps.
