(* ===== verification/ServerProps.v ===== *)
(** * What the server promises

    All connections at once: whatever happens in whatever order, no step fails, the
    references of all add up, and what one connection receives the others leave
    alone; how a connection comes to its peer; the acceptors and the services. *)

From S2P Require Import Prelude XixiList XixiHashMap Lookup3 Util CurrTime Pdu Stats Watch Slab Cache CacheInv CacheSpec CacheStore CacheRun CacheFrame CacheProps Buffers Auth Settings Peer PeerFacts PeerFrame PeerRun PeerServe PeerAnswer PeerProps Server ServerRun.

(** ** First bytes, part by part *)

(** What a connection before its peer makes of the parts that it reads. *)
Fixpoint feed (ssl : bool) (h : Connection_Help) (parts : list bytes) : option first_step :=
  match parts with
  | [] => Some (Reads h (Help.room h))
  | d :: parts =>
      f ← (if ssl then SSL_Help.handle_first_read (Some d) h else Help.handle_first_read (Some d) h);
      match f with Reads h _ => feed ssl h parts | _ => Some f end
  end.
(** The protocol of a step, without its bytes. *)
Definition protocol (f : first_step) : option bool :=
  match f with Starts_cache _ => Some true | Starts_http _ => Some false | _ => None end.
Lemma protocol_front d d' : 4 <= Z.of_nat (length d) -> protocol (dispatch (d ++ d')) = protocol (dispatch d).
Proof.
  intros Hl. destruct d as [|b d0] eqn:E; [cbn in Hl; lia|]. rewrite <- E in *. unfold dispatch.
  assert (head (d ++ d') = head d) as -> by by rewrite E.
  assert (forall name, Help.IS_METHOD (d ++ d') name = Help.IS_METHOD d name) as Hm.
  { intros name. unfold Help.IS_METHOD. by rewrite take_app_le by lia. }
  rewrite !Hm. case_match; [done|]. by case_match.
Qed.
Lemma dispatch_reads d h room : dispatch d <> Reads h room.
Proof. unfold dispatch. case_bool_decide; [done|]. by destruct (_ || _ || _). Qed.
Lemma feed_spec ssl parts : forall h, helps h -> Forall (fun d => Z.of_nat (length d) <= Help.BUF_SIZE - 4 /\ Forall is_byte d) parts ->
  exists f, feed ssl h parts = Some f /\
    ((Z.of_nat (length (said h ++ concat parts)) < 4 /\ exists h', f = Reads h' (Help.room h') /\ said h' = said h ++ concat parts) \/
     exists n, 4 <= Z.of_nat (length (said h ++ concat (take n parts))) /\ f = dispatch (said h ++ concat (take n parts))).
Proof.
  induction parts as [|d parts IH]; intros h Hh Hp; cbn [feed].
  - eexists. split; [done|]. left. rewrite app_nil_r. pose proof (said_length h Hh). pose proof (hp_size _ Hh). split; [lia|]. by exists h.
  - apply Forall_cons in Hp as [[Hl Hd] Hp]. pose proof (hp_size _ Hh).
    destruct (first_read_fed ssl h d Hh) as (f&Hf&Hfed); [unfold Help.room, Help.BUF_SIZE in *; lia|done|]. rewrite Hf. cbn [mbind option_bind].
    unfold fed in Hfed. case_decide as H4.
    + destruct Hfed as (h'&->&Hh'&Hs&_). destruct (IH h' Hh' Hp) as (f&Hf'&Hor). exists f. split; [done|].
      rewrite Hs, <- app_assoc in Hor. destruct Hor as [Hor|(n&Hn&->)]; [left; exact Hor|]. right. exists (S n). cbn. by rewrite app_assoc.
    + subst f. exists (dispatch (said h ++ d)). split; [destruct (dispatch _) eqn:E; try done; by apply dispatch_reads in E|]. right. exists 1%nat. cbn. rewrite app_nil_r.
      split; [lia|done].
Qed.

(** Every request but one is of the category of the cache. *)
Lemma wire_head r : r <> HelloReq -> head (wire r) = Some XIXI_CATEGORY_CACHE.
Proof. intros Hr. unfold wire. destruct r; [by vm_compute..|done|by vm_compute|by vm_compute]. Qed.

(** ** Properties *)
Section properties.
Context (e : endian) (little : bool) `{Table_Malloc} `{Item_Malloc} `{!Item_Malloc_Ok} `{Buffer_Malloc} `{!Buffer_Malloc_Ok} `{Block_Malloc} `{Auth_Library}.
Context (conf : settings) (unassigned : Z).
Implicit Types (y : system) (k : sink).
Abbreviation runs := (runs e little conf unassigned).
Abbreviation happen := (happen e little conf unassigned).
Abbreviation possible_event := (possible_event e little conf unassigned).


(** C11. The connections share the cache without losing count.  In every state of the
    server the [ref_count] of an item in use is the references that all connections
    hold to it together, those of the peers of HTTP, one of the hash map, one of the
    list of flushed items, and such as were lost; what a connection lists is in the
    memory of the cache; and an item whose body a connection receives has that one
    reference, is in no list, is nobody else's, and the rest of the body fits into it.
    The memory in use is that of the items and within the limit. *)
Theorem server_accounts y : (forall size, malloc_block size = true) -> runs y ->
  mem_used_ (cache_ y) = mem_of (heap (cache_ y)) /\ mem_used_ (cache_ y) <= mem_limit_ (cache_ y) /\
  (exists lost, (forall p, 0 <= lost p) /\ forall p it, heap (cache_ y) !! p = Some it -> p ∉ concat (free_cache_list_ (cache_ y)) ->
     ref_count it = lost p + refs_of (web_ y) p + owned (conns_ y) p +
       (if decide (p ∈ linked (cache_ y)) then 1 else 0) + (if decide (p ∈ flush_cache_list_ (cache_ y)) then 1 else 0)) /\
  forall k c, conns_ y !! k = Some (Caching c) ->
    (forall p, p ∈ cache_items_ (cc_peer c) -> exists it, heap (cache_ y) !! p = Some it /\ p ∉ concat (free_cache_list_ (cache_ y))) /\
    (forall p, receiving (cc_peer c) = Some p -> exists it off, heap (cache_ y) !! p = Some it /\ ref_count it = 1 /\
       p ∉ linked (cache_ y) /\ p ∉ placed (cache_ y) /\ p ∉ web_ y /\ (forall j c', j <> k -> conns_ y !! j = Some c' -> own c' p = 0) /\
       read_item_buf_ (cc_peer c) = Some (p, off) /\ 0 <= off /\ off + next_data_len_ (cc_peer c) = key_length it + data_size it).
Proof.
  intros blocks Hy. destruct (runs_ok e little conf unassigned blocks y Hy) as (lost&[H0' Hsv Hco _]).
  pose proof (sv_cache _ _ _ _ Hsv) as [Hc _]. split; [apply Hc|]. split; [apply Hc|]. split.
  - exists lost. split; [done|]. intros p it Hp Hf. destruct (c_item _ _ _ Hc p it Hp Hf) as (_&->&_). done.
  - intros k c Hk. split.
    + intros p Hp. apply (held_heap e _ _ p Hc). pose proof (owned_le k _ _ p Hk) as Hle. cbn in Hle.
      assert (0 < count_occ Pos.eq_dec (cache_items_ (cc_peer c)) p)%nat by (apply count_occ_In; by apply list_elem_of_In).
      pose proof (H0' p). pose proof (refs_of_ge (web_ y) p). unfold plus, refs_of in *. case_decide; lia.
    + intros p Hr. destruct (receiving_aside e _ _ _ k c p Hsv Hk Hr) as (it&[Hh Hl Hpl]&Href&Hb&Hown&_).
      destruct (sv_conns _ _ _ _ Hsv k c Hk) as [_ [_ _ Hst]]. unfold receiving in Hr. unfold stage in Hst. cbn in Hst.
      destruct (state_ (cc_peer c)); try done. destruct Hst as (pdu&q&itq&off&_&Hci&Hat&[Hq _ _]&_&Hoff&Hlen).
      assert (q = p) as -> by congruence. cbn in Hq. assert (itq = it) as -> by congruence. exists it, off. split_and!; try done.
      * intros Hw. assert (0 < count_occ Pos.eq_dec (web_ y) p)%nat by (apply count_occ_In; by apply list_elem_of_In).
        pose proof (H0' p). unfold plus, refs_of in Hb. lia.
      * intros j c' Hj Hc'. pose proof (owned_le j c' (delete k (conns_ y)) p) as Hle. rewrite lookup_delete_ne in Hle by done.
        specialize (Hle Hc'). pose proof (own_ge c' p). lia.
Qed.

(** What happens while nothing happens on connection [k]. *)
Inductive meanwhile k : system -> system -> Prop :=
  | meanwhile_none y : meanwhile k y y
  | meanwhile_event y y1 y2 ev : meanwhile k y y1 -> possible_event ev y1 -> concerns ev y1 <> Some k ->
      happen ev y1 = Some (tt, y2) -> meanwhile k y y2.

(** C12. The body of an update is nobody else's business.  Between two completions of
    a connection that is receiving an item, whatever the others do in the meantime -
    sets of the same key, flushes, sweeps, items that are freed and reused, connections
    that begin and end - the item keeps every byte and every field, and the connection
    is what it was, but for its timer. *)
Theorem body_undisturbed y y' k c p it : (forall size, malloc_block size = true) -> runs y -> meanwhile k y y' ->
  conns_ y !! k = Some (Caching c) -> receiving (cc_peer c) = Some p -> heap (cache_ y) !! p = Some it ->
  heap (cache_ y') !! p = Some it /\ (exists c', conns_ y' !! k = Some c' /\ like (Caching c) c') /\ runs y'.
Proof.
  intros blocks Hy Hm Hk Hr Hp. induction Hm as [y|y y1 y2 ev Hm IH Hpe Hcn Hst]; [split; [done|]; split; [exists (Caching c); split; [done|apply like_refl]|done]|].
  destruct (IH Hy Hk Hp) as (Hp1&(c1&Hk1&Hl1)&Hy1). destruct (runs_ok e little conf unassigned blocks y1 Hy1) as (lost&Hok).
  pose proof (event_ok e little conf unassigned blocks lost y1 ev Hok Hpe) as Hwp. unfold wp in Hwp. rewrite Hst in Hwp.
  destruct Hwp as (lost'&_&_&Hs). pose proof Hl1 as (t&b&->). destruct (Hs k _ Hcn Hk1) as [(c2&Hk2&Hl2) Hit].
  split; [by apply Hit|]. split; [exists c2; split; [done|by eapply like_trans]|by eapply runs_event].
Qed.

(** C13. The server keeps accepting.  Until it is stopped, each acceptor that listens
    has exactly as many accepts under way as there are threads, at least one, and no
    accept is for an acceptor that is gone - whatever accepts ended, well or with an
    error; and once stopped nothing listens. *)
Theorem accepts_kept y : (forall size, malloc_block size = true) -> runs y ->
  (stop_flag_ (server_ y) = false ->
     (forall a, a ∈ listening (server_ y) -> under_way a (accepts_ (server_ y)) = thread_size_ (io_service_pool_ (server_ y))) /\
     Forall (fun x => ac_acceptor x ∈ live_ (server_ y)) (accepts_ (server_ y))) /\
  (1 <= thread_size_ (io_service_pool_ (server_ y)))%nat /\ Forall (fun a => a ∈ live_ (server_ y)) (listening (server_ y)) /\
  exists y', happen Stopped y = Some (tt, y') /\ stop_flag_ (server_ y') = true /\ listening (server_ y') = [].
Proof.
  intros blocks Hy. destruct (runs_ok e little conf unassigned blocks y Hy) as (lost&[_ _ _ Hv]).
  split; [intros Hs; split; [by apply Hv|]|split; [apply Hv|split; [apply Hv|]]].
  - pose proof (vo_live _ Hv Hs) as Hl. by rewrite Forall_fmap in Hl.
  - destruct (proj1 (wp_run _ _ _) (stop_ok _ Hv)) as ([]&v&Hst&_&Hf&Hl). exists (y <| server_ := v |>). split; [|done].
    cbn. unfold in_server, on. by rewrite Hst.
Qed.
End properties.

(** C21. Every connection comes to the peer of its protocol, with all of its bytes.
    However the first bytes are split into parts, a connection waits for four of them;
    the peer that it then starts is the one that the whole of them is of, and is given
    exactly what was read; over SSL it is the same; the request of every operation of
    the cache is of the binary protocol. *)
Theorem first_bytes_dispatch ssl h parts : helps h -> Forall (fun d => Z.of_nat (length d) <= Help.BUF_SIZE - 4 /\ Forall is_byte d) parts ->
  exists f, feed ssl h parts = Some f /\
    (if decide (Z.of_nat (length (said h ++ concat parts)) < 4)
     then exists h', f = Reads h' (Help.room h') /\ said h' = said h ++ concat parts
     else protocol f = protocol (dispatch (said h ++ concat parts)) /\ exists n, f = dispatch (said h ++ concat (take n parts))) /\
    forall r tail, r <> HelloReq -> dispatch (wire r ++ tail) = Starts_cache (wire r ++ tail).
Proof.
  intros Hh Hp. destruct (feed_spec ssl parts h Hh Hp) as (f&Hf&Hor). exists f. split; [done|]. split.
  - destruct Hor as [[Hl Hr]|(n&Hn&->)]; [by rewrite decide_True|].
    assert (said h ++ concat parts = (said h ++ concat (take n parts)) ++ concat (drop n parts)) as Heq.
    { by rewrite <- app_assoc, <- concat_app, take_drop. }
    rewrite decide_False by (rewrite Heq, length_app; lia). split; [|by exists n]. rewrite Heq. symmetry. by apply protocol_front.
  - intros r tail Hr. unfold dispatch. rewrite bool_decide_true; [done|]. pose proof (wire_head r Hr) as Hw. by destruct (wire r).
Qed.

(** ** The services and their threads *)
Fixpoint services (n : nat) : ST io_service_pool (list nat) :=
  match n with
  | O => mret []
  | S n => s ← Pool.get_io_service; l ← services n; mret (s :: l)
  end.
Lemma services_spec size n : forall p, io_services_ p = seq 0 size -> (next_io_service_ p < size)%nat ->
  exists p', services n p = Some (map (fun i => ((next_io_service_ p + i) mod size)%nat) (seq 0 n), p').
Proof.
  induction n as [|n IH]; intros p Hs Hn; [by exists p|]. cbn [services].
  destruct (get_io_service_some p) as (r&p'&Hg&Hn'&Hr&Hnx&Hs'&_); [by rewrite Hs, length_seq|]. rewrite Hs, length_seq in Hnx.
  unfold mbind, ST_bind, mret, ST_ret in *. rewrite Hg. destruct (IH p') as (p2&->); [congruence|rewrite Hnx; apply Nat.mod_upper_bound; lia|].
  exists p2. cbn [seq map]. do 3 f_equal.
  - rewrite Hr, Hs, Nat.add_0_r, lookup_seq_lt, Nat.mod_small by done. done.
  - rewrite <- fmap_S_seq. change (map (fun i => ((next_io_service_ p' + i) mod size)%nat) (seq 0 n) =
      map (fun i => ((next_io_service_ p + i) mod size)%nat) (map S (seq 0 n))). rewrite map_map. apply map_ext. intros i.
    rewrite Hnx, Nat.Div0.add_mod_idemp_l. f_equal. lia.
Qed.
Lemma mapM_lookup_seq {A} (f : nat -> option A) (g : nat -> A) l : (forall i, i ∈ l -> f i = Some (g i)) -> mapM f l = Some (map g l).
Proof.
  induction l as [|x l IH]; intros Hf; [done|]. cbn. rewrite (Hf x) by set_solver. cbn. rewrite IH by set_solver. done.
Qed.
Lemma pool_run_spec pool_size thread_size : let p := Pool.create pool_size thread_size in
  Pool.run p = Some (map (fun t => (t mod Nat.max 1 pool_size)%nat) (seq 0 (Nat.max 1 thread_size))).
Proof.
  intros p. destruct (create_pool_ok pool_size thread_size) as (Hs&_&Ht). fold p in Hs, Ht. unfold Pool.run. rewrite Ht, Hs, length_seq.
  apply mapM_lookup_seq. intros i _. apply lookup_seq_lt, Nat.mod_upper_bound. lia.
Qed.

(** Sockets are spread over the services in turn, and threads over the services:
    the [i]-th socket is of service [i] modulo the pool's size, and thread [t] runs
    service [t] modulo it.  So a service has a thread exactly if its number is below
    the number of threads: with fewer threads than services - which the configuration
    may say - there are services that get sockets and that nothing runs. *)
Theorem services_and_threads pool_size thread_size n :
  let p := Pool.create pool_size thread_size in let size := Nat.max 1 pool_size in
  exists p' threads, services n p = Some (map (fun i => (i mod size)%nat) (seq 0 n), p') /\ Pool.run p = Some threads /\
    length threads = Nat.max 1 thread_size /\
    forall s, (s < size)%nat -> (s ∈ threads <-> (s < Nat.max 1 thread_size)%nat).
Proof.
  intros p size. destruct (create_pool_ok pool_size thread_size) as (Hs&Hn&_). fold p size in Hs, Hn.
  destruct (services_spec size n p Hs) as (p'&Hr); [rewrite Hn; unfold size; lia|]. rewrite Hn in Hr.
  exists p', (map (fun t => (t mod size)%nat) (seq 0 (Nat.max 1 thread_size))). split; [exact Hr|]. split; [apply pool_run_spec|].
  split; [by rewrite length_map, length_seq|]. intros s Hlt. rewrite list_elem_of_In, in_map_iff. split.
  - intros (t&<-&Ht%in_seq). pose proof (Nat.Div0.mod_le t size). lia.
  - intros Hst. exists s. split; [by apply Nat.mod_small|]. apply in_seq. lia.
Qed.

(** ** The memory of the handlers *)

(** Handlers are allocated and freed, and what is freed was allocated. *)
Inductive handler_runs : bool -> list Handler_Allocator.pointer -> Prop :=
  | handler_init : handler_runs Handler_Allocator.init []
  | handler_alloc s l size fresh p s' : handler_runs s l -> Handler_Allocator.new_ fresh ∉ l ->
      Handler_Allocator.alloc size fresh s = Some (p, s') -> handler_runs s' (p :: l)
  | handler_free s l l1 l2 p s' : handler_runs s l -> l = l1 ++ p :: l2 ->
      Handler_Allocator.free p s = Some (tt, s') -> handler_runs s' (l1 ++ l2).
(** No two handlers have the same memory: whatever is allocated and freed in
    whatever order, what is allocated is without repetition; the buffer of the
    connection is in use exactly if a handler has it, and a handler that is small
    enough gets it whenever it is free. *)
Theorem handler_memory_exclusive s l : handler_runs s l ->
  NoDup l /\ (s = true <-> Handler_Allocator.buffer_ ∈ l) /\
  forall size fresh, size < 256 -> Handler_Allocator.buffer_ ∉ l -> exists s', Handler_Allocator.alloc size fresh s = Some (Handler_Allocator.buffer_, s').
Proof.
  intros Hr. assert (NoDup l /\ (s = true <-> Handler_Allocator.buffer_ ∈ l)) as [Hd Hs].
  { induction Hr as [|s l size fresh p s' _ [Hd Hs] Hf Ha|s l l1 l2 p s' _ [Hd Hs] -> Hfr].
    - split; [constructor|]. split; [done|]. by intros ?%not_elem_of_nil.
    - unfold Handler_Allocator.alloc, mbind, ST_bind, gets, id in Ha. destruct (negb s && _) eqn:E; injection Ha as <- <-.
      + apply andb_prop in E as [E _]. destruct s; [done|]. split; [|split; [intros _; set_solver|done]]. apply NoDup_cons. split; [|done].
        intros Hb%Hs. done.
      + split; [by apply NoDup_cons|]. rewrite Hs, elem_of_cons. naive_solver.
    - apply NoDup_app in Hd as (Hd1&Hd12&[Hp Hd2]%NoDup_cons).
      assert (NoDup (l1 ++ l2)) as Hd by (apply NoDup_app; split_and!; [done|set_solver|done]). split; [done|].
      assert (p ∉ l1) by (intros Hin; apply (Hd12 p Hin); set_solver).
      destruct p as [|x]; injection Hfr as <-; [split; [done|]; rewrite elem_of_app; tauto|].
      rewrite Hs, !elem_of_app, elem_of_cons. naive_solver. }
  split; [done|]. split; [done|]. intros size fresh Hsz Hb. exists true. destruct s; [by destruct Hb; apply Hs|].
  unfold Handler_Allocator.alloc, mbind, ST_bind, gets, id, Handler_Allocator.DEFAULT_SIZE. cbn. by rewrite (proj2 (Z.ltb_lt _ _)).
Qed.

(** ** What the server does that it should not *)

Lemma closed_accept v i a : server_ok v -> accepts_ v !! i = Some a -> ac_acceptor a ∈ listening v -> Svr.handle_accept i false (closed v) = None.
Proof.
  intros [Hp _ _ _ _ _] Hi Ha. unfold Svr.handle_accept, mbind, ST_bind, gets, the. cbn [closed accepts_ set]. change (accepts_ (closed v)) with (accepts_ v).
  rewrite Hi. cbn [negb]. unfold modify. set (v1 := set accepts_ _ (closed v)).
  assert (forall ssl, Svr.async_accept (ac_acceptor a) ssl v1 = None) as Hn.
  { intros ssl. unfold Svr.async_accept, mbind, ST_bind, Svr.in_pool, on.
    destruct (get_io_service_some (io_service_pool_ v1) Hp) as (r&p'&->&_). cbn [gets]. unfold gets, assert_. rewrite bool_decide_false; [done|].
    cbn. unfold listening in Ha. rewrite !list_elem_of_filter. rewrite elem_of_app in Ha. tauto. }
  unfold Svr.start_accept_ssl, Svr.start_accept. destruct (ac_ssl a); by rewrite Hn.
Qed.

(** C35. An accept that ended well and is handled while the server stops uses a deleted
    acceptor: [handle_accept] looks at [stop_flag_] only when there is an error, and
    [stop] has deleted the acceptors.  A greeting is never answered as the first
    request: alone it is waited on, and with anything behind it the connection is
    closed.  And [listen] says that it listens when the system refused. *)
Theorem server_shortcomings v i a :
  (server_ok v -> accepts_ v !! i = Some a -> ac_acceptor a ∈ listening v ->
     exists v', Svr.close_acceptors v = Some (tt, v') /\ accepts_ v' !! i = Some a /\ Svr.handle_accept i false v' = None) /\
  (forall service acc memory, Z.of_nat (length memory) = Help.BUF_SIZE ->
     exists h', Help.handle_first_read (Some (wire HelloReq)) (Help.create service acc memory) = Some (Reads h' (Help.room h'))) /\
  (forall d, 2 <= Z.of_nat (length d) -> dispatch (wire HelloReq ++ d) = Deleted) /\
  (forall reuse ssl, server_ok v -> stop_flag_ v = false -> exists v', Svr.listen reuse ssl (mk_answers false false false false true) v = Some (true, v')).
Proof.
  split_and!.
  - intros Hv Hi Ha. exists (closed v). split; [apply close_acceptors_eq|]. split; [exact Hi|]. by apply (closed_accept v i a).
  - intros service acc memory Hm. destruct (created_helps service acc memory Hm) as [Hh Hs].
    destruct (first_read_fed false _ (wire HelloReq) Hh) as (f&Hf&Hfed); [by vm_compute|apply PeerDemo.all_bytes; by vm_compute|].
    rewrite Hf. unfold fed in Hfed. rewrite Hs in Hfed. rewrite decide_True in Hfed by by vm_compute. destruct Hfed as (h'&->&_). by exists h'.
  - intros d Hd. unfold dispatch. rewrite bool_decide_false by by vm_compute. unfold Help.IS_METHOD.
    assert (forall name, hd 0 (Stats.literal name) <> 0 -> bool_decide (take 4 (wire HelloReq ++ d) = Stats.literal name) = false) as Hm.
    { intros name Hn. apply bool_decide_eq_false. intros E. rewrite <- E in Hn. by vm_compute in Hn. }
    by rewrite !Hm by by vm_compute.
  - intros reuse ssl Hv Hs. destruct (proj1 (wp_run _ _ _) (listen_ok reuse ssl (mk_answers false false false false true) v Hv Hs)) as (r&v'&Hr&->&_).
    exists v'. rewrite Hr. unfold refused. cbn. by rewrite andb_false_r.
Qed.

(** ** The theorems at work *)
Module ServerDemo.
Import Demo PeerDemo.
Abbreviation happens := (happen LittleEndian true conf 0).
Abbreviation running := (ServerRun.runs LittleEndian true conf 0).
Abbreviation may := (possible_event LittleEndian true conf 0).

(** Two services, four threads, an acceptor and one for SSL; a connection that gets a
    key and sends the first byte of a new value; another that sets the same key; then
    a flush over HTTP and the timer. *)
Definition fine : Server.answers := mk_answers false false false false false.
Definition connectors : list (Connector * Server.answers) :=
  [(mk_connector (Stats.literal "0.0.0.0") 7788 false true, fine); (mk_connector (Stats.literal "0.0.0.0") 8443 true false, fine)].
Definition nothing : system := mk_system (mk_server (Pool.create 2 4) 0 0 [] [] false [] 0 [] false) state ∅ [] 1%positive.
Definition booted : system :=
  from_option (default nothing) nothing (boot 2 4 connectors false false (64 * 1024 * 1024) (5 * 1024 * 1024) 48 five_quarters 1000).
Definition help_memory : bytes := replicate 1025 0.
Definition whole : bytes := wire set_key1 ++ key1 ++ [49; 50; 51; 52].
Definition accept_of (got : bytes) : event := Accepted 0 false false false help_memory got memory.
Definition after (ev : event) (y : system) : system := from_option snd y (happens ev y).
Definition one : system := after (accept_of first_bytes) booted.
Definition two : system := after (accept_of whole) one.
Definition three : system := after (Called (Flush_group 3)) two.
Definition four : system := after (Timer 2000) three.

Definition is_unhurried (s : Cache_Mgr) : bool := bool_decide (map_Forall (fun _ it => ref_count it + 68 < 2 ^ 15) (heap s)).
Lemma unhurried_check s : is_unhurried s = true -> unhurried s.
Proof. intros Hb%bool_decide_eq_true p it Hp. exact (Hb p it Hp). Qed.
Lemma happened ev y : PeerDemo.runs (happens ev y) = true -> happens ev y = Some (tt, after ev y).
Proof. unfold after. by destruct (happens ev y) as [[[] y']|]. Qed.

Lemma booted_runs : running booted.
Proof.
  eapply (runs_boot _ _ _ _ 2 4 connectors false false (64 * 1024 * 1024) (5 * 1024 * 1024) 48 five_quarters 1000).
  - unfold booted. destruct (boot _ _ _ _ _ _ _ _ _ _) as [[y|]|] eqn:E; [done|by vm_compute in E..].
  - by vm_compute.
  - by apply Z.leb_le; vm_compute.
  - by apply Z.leb_le; vm_compute.
  - lia.
Qed.

(** A connection whose first bytes are those of a peer that can start. *)
Definition begun (got : bytes) (y : system) : node :=
  from_option snd (node_of (cache_ y) (fresh_conn memory)) (Peer.create (next_ y) memory (node_of (cache_ y) (fresh_conn memory))).
Definition can_begin (got : bytes) (y : system) : bool :=
  let al := Server.alive (<[next_ y := Caching (fresh_conn memory)]> (conns_ y)) in
  is_cool (begun got y) && benign_run LittleEndian true al conf (next_ y) 0 (with_data got (begun got y)).
Lemma accept_may got y a : accepts_ (server_ y) !! 0%nat = Some a -> stop_flag_ (server_ y) = false ->
  (Z.of_nat (length got) <=? 1024) = true -> forallb (fun x => (0 <=? x) && (x <? 256)) got = true -> can_begin got y = true -> may (accept_of got) y.
Proof.
  intros Ha Hs Hl Hg Hc. exists a. split; [exact Ha|]. intros _. split_and!; [exact Hs|done|unfold Help.BUF_SIZE; lia|by apply all_bytes|].
  intros _ _. apply andb_prop in Hc as [Hc Hb]. unfold dispatch. case_bool_decide; [|by destruct (_ || _ || _)]. split; [done|].
  intros n Hn. assert (begun got y = n) as <- by (unfold begun; by rewrite Hn). split; [by apply cool_check|exact Hb].
Qed.

Lemma one_may : may (accept_of first_bytes) booted.
Proof. eapply accept_may; by vm_compute. Qed.
Lemma one_runs : running one.
Proof. eapply (runs_event _ _ _ _ booted); [apply booted_runs|apply one_may|]. apply happened. by vm_compute. Qed.
Lemma two_may : may (accept_of whole) one.
Proof. eapply accept_may; by vm_compute. Qed.
Lemma three_may : may (Called (Flush_group 3)) two.
Proof. split; [done|]. apply unhurried_check. by vm_compute. Qed.
Lemma four_may : may (Timer 2000) three.
Proof. split; [done|]. apply unhurried_check. by vm_compute. Qed.
Lemma meantime : meanwhile LittleEndian true conf 0 1%positive one four.
Proof.
  eapply (meanwhile_event _ _ _ _ _ one three four (Timer 2000)); [|apply four_may|done|apply happened; by vm_compute].
  eapply (meanwhile_event _ _ _ _ _ one two three (Called (Flush_group 3))); [|apply three_may|done|apply happened; by vm_compute].
  eapply (meanwhile_event _ _ _ _ _ one one two (accept_of whole)); [apply meanwhile_none|apply two_may|by vm_compute|apply happened; by vm_compute].
Qed.


(** The connection that receives. *)
Definition busy : cache_conn := match conns_ one !! 1%positive with Some (Caching c) => c | _ => fresh_conn memory end.
Lemma busy_there : conns_ one !! 1%positive = Some (Caching busy).
Proof. vm_compute. reflexivity. Qed.
Definition its_item : ptr := default 1%positive (receiving (cc_peer busy)).
Lemma busy_receives : receiving (cc_peer busy) = Some its_item.
Proof. vm_compute. reflexivity. Qed.
Definition item_now : Cache_Item := default (Item.init []) (heap (cache_ one) !! its_item).
Lemma item_there : heap (cache_ one) !! its_item = Some item_now.
Proof. unfold item_now. by destruct (heap (cache_ one) !! its_item) as [it|] eqn:E; [|vm_compute in E]. Qed.

Lemma server_accounts_witness : mem_used_ (cache_ one) <= mem_limit_ (cache_ one) /\
  exists it, heap (cache_ one) !! its_item = Some it /\ ref_count it = 1 /\ its_item ∉ web_ one.
Proof.
  destruct (server_accounts LittleEndian true conf 0 one all_blocks one_runs) as (_&Hm&_&Hc). split; [exact Hm|].
  destruct (proj2 (Hc 1%positive busy busy_there) its_item busy_receives) as (it&off&Hh&Hr&_&_&Hw&_). exists it. by split_and!.
Defined.

Lemma body_undisturbed_witness : heap (cache_ four) !! its_item = Some item_now /\ heap (cache_ four) <> heap (cache_ one).
Proof.
  split.
  - apply (body_undisturbed LittleEndian true conf 0 one four 1%positive busy its_item item_now all_blocks one_runs meantime).
    + exact busy_there.
    + exact busy_receives.
    + exact item_there.
  - intros E. apply (f_equal size) in E. vm_compute in E. discriminate.
Defined.

Lemma accepts_kept_witness : listening (server_ one) = [0%nat; 1%nat] /\
  under_way 0 (accepts_ (server_ one)) = 4%nat /\ under_way 1 (accepts_ (server_ one)) = 4%nat.
Proof.
  destruct (accepts_kept LittleEndian true conf 0 one all_blocks one_runs) as [Hk _].
  destruct Hk as [Hk _]; [by vm_compute|]. split; [by vm_compute|]. split.
  - rewrite (Hk 0%nat); [by vm_compute|]. apply list_elem_of_In. vm_compute. auto.
  - rewrite (Hk 1%nat); [by vm_compute|]. apply list_elem_of_In. vm_compute. auto.
Defined.

(** A url byte by byte. *)
Lemma first_bytes_dispatch_witness :
  feed false (Help.create 0 0 help_memory) (map (fun b => [b]) (Stats.literal "GET /")) = Some (Starts_http (Stats.literal "GET ")).
Proof.
  destruct (created_helps 0 0 help_memory eq_refl) as [Hh _].
  destruct (first_bytes_dispatch false (Help.create 0 0 help_memory) (map (fun b => [b]) (Stats.literal "GET /")) Hh) as (f&Hf&Hd&_).
  - repeat (constructor; [split; [by vm_compute|by apply all_bytes]|]). constructor.
  - rewrite decide_False in Hd by by vm_compute. destruct Hd as [Hp (n&Hn)]. vm_compute in Hp.
    rewrite Hf. destruct f; try done.
Defined.

Lemma handler_memory_exclusive_witness : NoDup [Handler_Allocator.new_ 5; Handler_Allocator.buffer_].
Proof.
  apply (handler_memory_exclusive true [Handler_Allocator.new_ 5; Handler_Allocator.buffer_]).
  eapply (handler_alloc true [Handler_Allocator.buffer_] 100 5); [|set_solver|by vm_compute].
  eapply (handler_alloc false [] 100 4); [constructor|set_solver|by vm_compute].
Defined.

Lemma server_shortcomings_witness : exists v', Svr.close_acceptors (server_ booted) = Some (tt, v') /\ Svr.handle_accept 0 false v' = None.
Proof.
  destruct (runs_ok LittleEndian true conf 0 all_blocks booted booted_runs) as (lost&[_ _ _ Hv]).
  destruct (server_shortcomings (server_ booted) 0 (mk_accept 0 1 false)) as [Hc _].
  destruct Hc as (v'&Hv'&_&Hn).
  - exact Hv.
  - vm_compute. reflexivity.
  - apply list_elem_of_In. vm_compute. auto.
  - exists v'. by split.
Defined.
End ServerDemo.
