(* ===== verification/Main.v ===== *)
(** * The process, [src/src/main.cpp]

    The command line, the configuration, the server over its cache: what [main] comes
    to.  What the operating system knows - directories, files, ports - is a
    [world].  SIGINT, SIGHUP, SIGQUIT and SIGTERM are the event [Stopped] of the
    running system; the console of Windows is the same. *)

From Stdlib Require Import SpecFloat.
From S2P Require Import Prelude XixiList XixiHashMap Lookup3 Util CurrTime Pdu Stats Watch Slab Cache CacheInv CacheRun CacheProps Buffers Auth Settings Peer PeerProps Server ServerRun.

(** ** The command line *)

(** [strncmp] of the C library: 0 if the texts are the same up to [n] characters. *)
Fixpoint strncmp (n : nat) (x y : bytes) : Z :=
  match n with
  | O => 0
  | S n => let a := hd 0 x in let b := hd 0 y in
      if a =? b then if a =? 0 then 0 else strncmp n (tl x) (tl y) else a - b
  end.
(** Line 159; the size of a literal counts its 0. *)
Definition cmdcmp (x : bytes) (const_str : string) : Z := strncmp (S (String.length const_str)) x (Stats.literal const_str).

(** Why [main] is left, and with which text. *)
Inductive reason :=
  | Usage | License | Illegal_argument (arg : bytes) | No_home (homedir : bytes) | Bad_configuration (text : bytes) | Not_started.

Module Main.
(** Lines 162-177. *)
Fixpoint parse_args (args : list bytes) (homedir : bytes) : reason + bytes :=
  match args with
  | [] => inr homedir
  | arg :: rest =>
      if cmdcmp arg "-h" =? 0 then inl Usage
      else if cmdcmp arg "-i" =? 0 then inl License
      else match rest with
           | dir :: rest => if cmdcmp arg "-homedir" =? 0 then parse_args rest dir else inl (Illegal_argument arg)
           | [] => inl (Illegal_argument arg)
           end
  end.

(** What the program finds: the directory above the current one, the directories
    there are, the documents of XML files, what is answered to each connector, the
    errors of the certificate and of its key, the clock. *)
Record world := mk_world {
  parent_path : option bytes;
  directory : bytes -> option bytes;
  document : bytes -> option (option xml_node);
  answers_of : nat -> Server.answers;
  bad_chain : bool;
  bad_key : bool;
  now : Z
}.
Inductive outcome := Leaves (status : Z) (why : reason) | Serves (st : Settings) (threads : list nat) (y : system).

Section main.
Context (e : endian) `{Table_Malloc} `{C_Library} (malloc_data : Z -> bool).

(** [settings_.init], lines 44-61 of [settings.cpp]. *)
Definition settings_init (w : world) (homedir : bytes) : option Settings :=
  Conf.init (match homedir with [] => parent_path w | _ => directory w homedir end).
(** [settings_.load_conf], lines 94-105 there and the first of [load_conf_web]. *)
Definition settings_load (w : world) (st : Settings) : option ((bytes + unit) * Settings) :=
  Conf.load_conf e malloc_data (document w (home_dir st ++ Stats.literal "conf/server.xml"))
    (document w (home_dir st ++ Stats.literal "conf/web.xml")) st.
(** Lines 208-212: [start], and [run], which is a thread per service. *)
Definition serve (w : world) (st : Settings) : option outcome :=
  y ← boot (Z.to_nat (pool_size st)) (Z.to_nat (num_threads_ st)) (imap (fun i c => (c, answers_of w i)) (connectors st))
        (bad_chain w) (bad_key w) (max_bytes_ st) (item_size_max st) (item_size_min st) (factor st) (now w);
  match y with
  | Some y => threads ← Svr.run (server_ y); Some (Serves st threads y)
  | None => Some (Leaves 0 Not_started)
  end.

Definition EXIT_SUCCESS : Z := 0.
Definition EXIT_FAILURE : Z := 1.
(** Lines 161-223. *)
Definition main (w : world) (args : list bytes) : option outcome :=
  match parse_args args [] with
  | inl why => Some (Leaves (match why with Illegal_argument _ => EXIT_FAILURE | _ => EXIT_SUCCESS end) why)
  | inr homedir =>
      match settings_init w homedir with
      | None => Some (Leaves (-1) (No_home homedir))
      | Some st =>
          '(r, st) ← settings_load w st;
          match r with
          | inl text => Some (Leaves (-1) (Bad_configuration text))
          | inr _ => serve w st
          end
      end
  end.
End main.
End Main.

(** ** The command line *)
Lemma strncmp_diff n x y : 0 ∉ x -> 0 ∉ y -> (length y < n)%nat -> strncmp n x y = 0 <-> x = y.
Proof.
  revert x y. induction n as [|n IH]; intros x y Hx Hy Hn; [lia|].
  change (strncmp (S n) x y) with (if hd 0 x =? hd 0 y then if hd 0 x =? 0 then 0 else strncmp n (tl x) (tl y) else hd 0 x - hd 0 y).
  assert (forall z l, 0 ∉ z :: l -> z <> 0 /\ 0 ∉ l) as Hz by set_solver.
  destruct (Z.eqb_spec (hd 0 x) (hd 0 y)) as [E|E].
  - destruct x as [|a x], y as [|b y]; cbn [hd] in E; subst; [done|by destruct (Hz _ _ Hy)|by destruct (Hz _ _ Hx)|].
    destruct (Hz _ _ Hx) as [Hb Hx'], (Hz _ _ Hy) as [_ Hy']. cbn [hd tl]. rewrite (proj2 (Z.eqb_neq _ _) Hb), IH by (done || cbn in Hn; lia).
    split; congruence.
  - split; [lia|]. by intros ->.
Qed.
Lemma literal_length s : length (Stats.literal s) = String.length s.
Proof. induction s; cbn; lia. Qed.
Lemma cmdcmp_spec x lit : 0 ∉ x -> 0 ∉ Stats.literal lit -> (cmdcmp x lit =? 0) = bool_decide (x = Stats.literal lit).
Proof.
  intros Hx Hl. apply eq_true_iff_eq. rewrite Z.eqb_eq, bool_decide_eq_true. apply strncmp_diff; [done..|].
  rewrite literal_length. lia.
Qed.

(** The options that are understood; a directory may be given many times. *)
Definition homedirs (ds : list bytes) : list bytes := concat (map (fun d => [Stats.literal "-homedir"; d]) ds).
Lemma parse_args_step arg rest d : 0 ∉ arg -> Main.parse_args (arg :: rest) d =
  if bool_decide (arg = Stats.literal "-h") then inl Usage else if bool_decide (arg = Stats.literal "-i") then inl License
  else match rest with
       | dir :: rest => if bool_decide (arg = Stats.literal "-homedir") then Main.parse_args rest dir else inl (Illegal_argument arg)
       | [] => inl (Illegal_argument arg)
       end.
Proof.
  intros Ha. cbn [Main.parse_args]. by rewrite !cmdcmp_spec by (done || by apply (bool_decide_unpack _); vm_compute).
Qed.
(** What is read after [ds]. *)
Lemma parse_homedirs ds rest d : Forall (fun x => 0 ∉ x) ds -> Main.parse_args (homedirs ds ++ rest) d = Main.parse_args rest (default d (last ds)).
Proof.
  revert d. induction ds as [|x ds IH]; intros d Hz; [done|]. apply Forall_cons in Hz as [Hx Hz]. change (homedirs (x :: ds) ++ rest) with
    (Stats.literal "-homedir" :: x :: homedirs ds ++ rest). rewrite parse_args_step by (by apply (bool_decide_unpack _); vm_compute).
  do 2 rewrite bool_decide_false by (by intros [=]). rewrite bool_decide_true by done. rewrite IH, last_cons by done. by destruct (last ds).
Qed.
Lemma parse_args_split args : Forall (fun x => 0 ∉ x) args -> exists ds rest, args = homedirs ds ++ rest /\ Forall (fun x => 0 ∉ x) ds /\
  match rest with
  | [] => True
  | arg :: rest => arg = Stats.literal "-homedir" -> rest = []
  end.
Proof.
  assert (forall n args, (length args <= n)%nat -> Forall (fun x => 0 ∉ x) args -> exists ds rest, args = homedirs ds ++ rest /\
    Forall (fun x => 0 ∉ x) ds /\ match rest with [] => True | arg :: rest => arg = Stats.literal "-homedir" -> rest = [] end) as Hgo.
  { clear. induction n as [|n IH]; intros args Hn Hz; [destruct args; [by exists [], []|cbn in Hn; lia]|].
    destruct args as [|a [|x args]]; [by exists [], []|by exists [], [a]|].
    destruct (decide (a = Stats.literal "-homedir")) as [->|Ha]; [|by exists [], (a :: x :: args)].
    apply Forall_cons in Hz as [_ [Hx Hz]%Forall_cons]. destruct (IH args) as (ds&rest&->&Hds&Hr); [cbn in Hn; lia|done|].
    exists (x :: ds), rest. split; [done|]. split; [by constructor|done]. }
  intros Hz. by apply (Hgo (length args)).
Qed.

(** ** The server's start *)
Lemma run_defined v : server_ok v -> is_Some (Svr.run v).
Proof.
  intros Hv. apply mapM_is_Some, Forall_forall. intros t _. apply lookup_lt_is_Some. pose proof (vo_pool _ Hv).
  apply Nat.mod_upper_bound. lia.
Qed.
(** What [boot] comes to: nothing if something was refused; if not, and if the sizes of
    the items make a table of classes, a server with an acceptor for every connector
    over a new cache; without a table it writes past it. *)
Lemma boot_spec pool_size thread_size l bad_chain bad_key limit mx mn f t :
  let o := boot pool_size thread_size l bad_chain bad_key limit mx mn f t in
  if forallb granted l && negb bad_chain && negb bad_key
  then match Slab.init mx mn f Slab.start with
       | Some _ => exists s v, o = Some (Some (mk_system v s ∅ [] 1%positive)) /\ Mgr.start limit mx mn f t = Some s /\ server_ok v /\
           length (listening v) = length l
       | None => o = None
       end
  else o = Some None.
Proof.
  cbv zeta. unfold boot. destruct (create_server_ok pool_size thread_size) as (v&->&Hv&Hs&Hl0). cbn [mbind option_bind].
  destruct (proj1 (wp_run _ _ _) (start_server_ok l bad_chain bad_key v Hv Hs)) as (r&v'&->&->&Hv'&_&Hl).
  destruct (_ && _); [|done]. unfold Mgr.start. destruct (Slab.init _ _ _ _); [|done]. cbn. eexists _, v'.
  split; [done|]. split; [done|]. split; [done|]. by rewrite Hl, Hl0.
Qed.

(** ** Properties *)
Section properties.
Context (e : endian) `{Table_Malloc} `{C_Library} (malloc_data : Z -> bool).
Implicit Types (w : Main.world) (args : list bytes).

(** The command line is read as meant: it names a directory exactly if it is
    [-homedir] with a directory, any number of times, of which the last counts; with
    anything else, the first argument that is not understood is told, unless [-h] or
    [-i] comes before it. *)
Theorem command_line_read args : Forall (fun x => 0 ∉ x) args ->
  exists ds rest, args = homedirs ds ++ rest /\
  Main.parse_args args [] = match rest with
    | [] => inr (default [] (last ds))
    | arg :: _ => if decide (arg = Stats.literal "-h") then inl Usage else if decide (arg = Stats.literal "-i") then inl License
                  else inl (Illegal_argument arg)
    end /\
  match rest with [] => True | arg :: rest => arg = Stats.literal "-homedir" -> rest = [] end.
Proof.
  intros Hz. destruct (parse_args_split args Hz) as (ds&rest&->&Hds&Hr). exists ds, rest. split; [done|]. split; [|done].
  rewrite parse_homedirs by done. destruct rest as [|arg rest]; [done|]. apply Forall_app in Hz as [_ [Ha _]%Forall_cons].
  rewrite parse_args_step by done. do 2 (case_bool_decide; [by rewrite decide_True|rewrite decide_False by done]).
  destruct rest as [|dir rest]; [done|]. rewrite bool_decide_false; [done|]. by intros E%Hr.
Qed.

(** Whether the sizes of the items make a table of classes; if not, [Cache_Mgr::init]
    writes past its end or converts what is no number. *)
Definition sized st : bool := bool_decide (is_Some (Slab.init (item_size_max st) (item_size_min st) (factor st) Slab.start)).
(** The numbers that the theorems on the server need. *)
Record workable st y : Prop := {
  wk_slab : slab_ok (slab_ (cache_ y)) = true;
  wk_least : sizeof_Cache_Item <= size_of (slab_ (cache_ y)) 1;
  wk_most : size_of (slab_ (cache_ y)) (class_id_max_ (slab_ (cache_ y))) <= 2 ^ 30;
  wk_limit : max_bytes_ st <= 2 ^ 35
}.
(** Whether the system grants the connectors, the certificate and its key. *)
Definition grants w st : bool :=
  forallb granted (imap (fun i c => (c, Main.answers_of w i)) (connectors st)) && negb (Main.bad_chain w) && negb (Main.bad_key w).

(** C22. What the process comes to, whatever the command line is, whatever the files say
    - documents of less than 2^29 characters and nodes - and whatever the system answers:
    it ends with an error and says why, or it serves, or, if the file asks for more
    classes of items than the table has, it has no defined behaviour.  It serves exactly
    if the files were read, the classes fit, and the system refused nothing that
    [start] looks at; then there is an open acceptor for every connector - what the
    system says to [listen] itself is not looked at - and, if the sizes are within the
    bounds of [workable], the state is one of those of the theorems on the server.  A
    server that cannot start ends like one that was stopped, with the status 0. *)
Theorem main_ends little `{Item_Malloc} `{Buffer_Malloc} `{Block_Malloc} `{Auth_Library} conf unassigned w args :
  (forall path root, Main.document w path = Some (Some root) -> small root) ->
  let o := Main.main e malloc_data w args in
  match Main.parse_args args [] with
  | inl why => o = Some (Main.Leaves (match why with Illegal_argument _ => 1 | _ => 0 end) why)
  | inr homedir =>
      match Main.settings_init w homedir with
      | None => o = Some (Main.Leaves (-1) (No_home homedir))
      | Some st0 => exists r st, Main.settings_load e malloc_data w st0 = Some (r, st) /\ conf_wf e st /\
          match r with
          | inl text => o = Some (Main.Leaves (-1) (Bad_configuration text))
          | inr _ => Double.leb (factor st) Conf.one = false /\
              if grants w st
              then if sized st
                   then exists threads y, o = Some (Main.Serves st threads y) /\ length (listening (server_ y)) = length (connectors st) /\
                          (workable st y -> runs e little conf unassigned y)
                   else o = None
              else o = Some (Main.Leaves 0 Not_started)
          end
      end
  end.
Proof.
  intros Hsmall. cbv zeta. unfold Main.main. destruct (Main.parse_args args []) as [why|homedir] eqn:Ep; [done|].
  destruct (Main.settings_init w homedir) as [st0|] eqn:Ei; [|done]. apply init_ready with (e := e) in Ei.
  set (path := home_dir st0 ++ Stats.literal "conf/web.xml").
  destruct (proj1 (wp_run _ _ _) (load_conf_spec e malloc_data (Main.document w (home_dir st0 ++ Stats.literal "conf/server.xml")) (Main.document w path) st0 Ei
    (fun root => Hsmall path root))) as (r&st&Hl&Hw&Hr).
  change (Main.settings_load e malloc_data w st0 = Some (r, st)) in Hl. exists r, st. split; [done|]. split; [done|]. rewrite Hl. cbn [mbind option_bind].
  destruct r as [text|[]]; [done|]. split; [by apply Hr|]. unfold Main.serve. set (l := imap _ (connectors st)).
  pose proof (boot_spec (Z.to_nat (pool_size st)) (Z.to_nat (num_threads_ st)) l (Main.bad_chain w) (Main.bad_key w)
    (max_bytes_ st) (item_size_max st) (item_size_min st) (factor st) (Main.now w)) as Hy. cbv zeta in Hy.
  change (forallb granted l && _ && _) with (grants w st) in Hy. unfold sized.
  destruct (grants w st); [|by rewrite Hy]. destruct (Slab.init _ _ _ _); [|by rewrite Hy].
  rewrite bool_decide_true by done. destruct Hy as (m&v&Hb&_&Hv&Hlen). rewrite Hb. cbn [mbind option_bind server_].
  destruct (run_defined v Hv) as [threads Ht]. rewrite Ht. eexists threads, _. split; [done|]. split.
  - cbn [server_]. rewrite Hlen. apply length_imap.
  - intros []. eapply runs_boot; [exact Hb|done..|]. split; [apply (cw_bytes _ _ Hw)|done].
Qed.
End properties.

(** ** The shipped configuration at work *)
Module MainDemo.
Import Demo PeerDemo SettingsDemo.
(** The numbers of the demonstration. *)
#[local] Instance library : C_Library := fun t =>
  if decide (t = Stats.literal "1.25") then Double.div (Double.of_Z 5) (Double.of_Z 4)
  else if decide (t = Stats.literal "1.01") then Double.div (Double.of_Z 101) (Double.of_Z 100) else Double.of_Z 2.
(** [conf/server.xml]. *)
Definition shipped : xml_node :=
  Element (Stats.literal "server") []
    [Element (Stats.literal "connector") [(Stats.literal "address", Stats.literal "0.0.0.0"); (Stats.literal "port", Stats.literal "7788");
                                          (Stats.literal "reuse-address", Stats.literal "true")] [];
     Element (Stats.literal "connector") [(Stats.literal "port", Stats.literal "8443"); (Stats.literal "SSLEnabled", Stats.literal "true")] [];
     Element (Stats.literal "key-value") []
       [text "max-bytes" "805306368"; text "max-conns" "9999"; text "factor" "1.25"; text "min-item-size" "48"; text "max-item-size" "10485760"];
     Other_node (Stats.literal " 0 trace "); text "log" "2"; text "core-number" "2"; text "thread-number" "4"].
Definition fine : Server.answers := mk_answers false false false false false.
Definition taken : Server.answers := mk_answers false false false true false.
Definition here (bound : Server.answers) : Main.world :=
  Main.mk_world (Some (Stats.literal "/srv")) (fun d => if decide (d = Stats.literal "/none") then None else Some d)
    (fun path => if decide (path = Stats.literal "/srv/conf/server.xml") then Some (Some shipped)
                 else if decide (path = Stats.literal "/srv/conf/web.xml") then Some (Some web) else None)
    (fun i => match i with 1%nat => bound | _ => fine end) false false 1000.
Definition home : list bytes := [Stats.literal "-homedir"; Stats.literal "/srv"].
Abbreviation ends := (Main.main LittleEndian SettingsDemo.granted).

Lemma command_line_read_witness : exists ds rest, home ++ [Stats.literal "-p"; Stats.literal "-h"] = homedirs ds ++ rest /\
  Main.parse_args (home ++ [Stats.literal "-p"; Stats.literal "-h"]) [] = inl (Illegal_argument (Stats.literal "-p")).
Proof.
  destruct (command_line_read (home ++ [Stats.literal "-p"; Stats.literal "-h"])) as (ds&rest&Hr&_&_).
  - apply (bool_decide_unpack _). by vm_compute.
  - exists ds, rest. split; [exact Hr|by vm_compute].
Defined.

Definition settings_of (o : option Main.outcome) : option Settings := match o with Some (Main.Serves st _ _) => Some st | _ => None end.
Definition system_of (o : option Main.outcome) : option (list nat * system) := match o with Some (Main.Serves _ t y) => Some (t, y) | _ => None end.
Definition is_workable (o : option Main.outcome) : bool :=
  match o with
  | Some (Main.Serves st threads y) =>
      slab_ok (slab_ (cache_ y)) && (sizeof_Cache_Item <=? size_of (slab_ (cache_ y)) 1) &&
      (size_of (slab_ (cache_ y)) (class_id_max_ (slab_ (cache_ y))) <=? 2 ^ 30) && (max_bytes_ st <=? 2 ^ 35)
  | _ => false
  end.
Lemma workable_check st threads y : is_workable (Some (Main.Serves st threads y)) = true -> workable st y.
Proof. cbn [is_workable]. intros Hb. do 3 (apply andb_prop in Hb as [Hb ?]). split; [done|lia..]. Qed.
Example shipped_works : is_workable (ends (here fine) home) = true /\ is_workable (ends (here fine) []) = true.
Proof. split; vm_compute; reflexivity. Qed.
Lemma here_small bound path root : Main.document (here bound) path = Some (Some root) -> small root.
Proof. cbn. case_decide; [intros [= <-]; by vm_compute|]. case_decide; [intros [= <-]; by vm_compute|done]. Qed.
(** A factor of 1.01: the loaded settings ask for more classes than there are. *)
Definition slow_factor : xml_node :=
  Element (Stats.literal "server") []
    [Element (Stats.literal "connector") [(Stats.literal "port", Stats.literal "7788")] [];
     Element (Stats.literal "key-value") [] [text "factor" "1.01"; text "min-item-size" "48"; text "max-item-size" "10485760"]].
Definition slow : Main.world :=
  Main.mk_world (Some (Stats.literal "/srv")) (fun d => Some d)
    (fun path => if decide (path = Stats.literal "/srv/conf/server.xml") then Some (Some slow_factor)
                 else if decide (path = Stats.literal "/srv/conf/web.xml") then Some (Some web) else None)
    (fun _ => fine) false false 1000.
(** The shipped configuration serves; with a port that is taken the status is 0; with
    a slow factor the table of classes is written past its end. *)
Lemma main_ends_witness :
  (exists st threads y, ends (here fine) home = Some (Main.Serves st threads y) /\ length (listening (server_ y)) = 2%nat /\
     ServerRun.runs LittleEndian true Demo.conf 0 y) /\
  ends (here taken) home = Some (Main.Leaves 0 Not_started) /\
  ends slow home = None.
Proof.
  split; [|split; by vm_compute].
  pose proof (main_ends LittleEndian SettingsDemo.granted true Demo.conf 0 (here fine) home (here_small fine)) as Hm. cbv zeta in Hm.
  assert (Main.parse_args home [] = inr (Stats.literal "/srv")) as Hp by by vm_compute. rewrite Hp in Hm.
  pose proof (proj1 shipped_works) as Hk. destruct (ends (here fine) home) as [[|st threads y]|] eqn:Ho; [done| |done]. exists st, threads, y. split; [done|].
  destruct (Main.settings_init _ _) as [st0|]; [|done]. destruct Hm as (r&st'&_&_&Hr). destruct r as [text|u]; [done|].
  destruct Hr as [_ Hr]. destruct (grants _ _); [|done]. destruct (sized _); [|done]. destruct Hr as (threads'&y'&[= <- <- <-]&Hlen&Hruns).
  split; [|apply Hruns; by apply (workable_check st threads)].
  rewrite Hlen. enough (length <$> (connectors <$> settings_of (ends (here fine) home)) = Some 2%nat) as E by (rewrite Ho in E; by injection E).
  by vm_compute.
Defined.
End MainDemo.
