(* ===== verification/Http.v ===== *)
(** * A connection of the HTTP protocol, class [Peer_Http] of [src/src/peer_http.h]
    and [src/src/peer_http.cpp]

    The same cache over HTTP: the texts of requests are parsed by hand, in the
    memory they were received in, and the responses are written with [snprintf].  A
    C string is the list of its bytes, and what follows a terminating 0 is not part
    of it; a pointer into received text is what can be read from there.  Where the
    code would read or write outside of its memory a computation is [None]. *)

From S2P Require Import Prelude XixiList XixiHashMap Lookup3 Util CurrTime Pdu Stats Watch Slab Cache CacheInv CacheSpec CacheOps CacheData CacheStore Buffers Settings Peer.
Import Cache_Watch.

(** What a C string is, at a place where it is read, and a search in it. *)
Fixpoint cstr (b : bytes) : bytes :=
  match b with [] => [] | c :: b => if c =? 0 then [] else c :: cstr b end.
Definition memchr (c : Z) (b : bytes) : option nat := fst <$> list_find (fun x => x = c) b.
Definition crlf : bytes := [13; 10].
Definition quote : bytes := [34].

(** [Http_Request], [peer_http.h] lines 42-73; a pointer and its length are the
    bytes, with a 0 behind them. *)
Record Http_Request := mk_http_request {
  http_11 : bool;
  keepalive : bool;
  accept_gzip : bool;
  method : Z;
  uri : bytes;
  content_type : bytes;
  entity_tag : bytes;
  boundary : bytes
}.
Definition HEAD_METHOD : Z := 72.
Definition GET_METHOD : Z := 71.
Definition POST_METHOD : Z := 80.
Definition no_request : Http_Request := mk_http_request false false false 0 [] [] [] [].

(** A buffer to write: a text of the program, a piece of [request_buf_] with the
    bytes that were written to it, or a part of an item's memory. *)
Inductive web_buffer :=
  | Static (b : bytes)
  | Piece (written : bytes) (size : Z)
  | Item_part (p : ptr) (off size : Z).

(** A pointer with a length: what can be read from it, and as a C string. *)
Record span := mk_span { span_mem : bytes; span_len : Z }.
Definition no_span : span := mk_span [] 0.
Definition span_bytes (p : span) : option bytes := mem_read 0 (span_len p) (span_mem p).
Definition span_string (p : span) : bytes := cstr (span_mem p).
(** Bytes with a 0 behind them. *)
Definition terminated (b : bytes) : span := mk_span (b ++ [0]) (Z.of_nat (length b)).

(** The members; [post_data_] is the memory it points to. *)
Record Peer_Http := mk_peer_http {
  state_ : peer_state;
  next_state_ : peer_state;
  next_data_len_ : Z;
  http_request_ : Http_Request;
  group_id_ : Z;
  watch_id_ : Z;
  cache_id_ : Z;
  key_ : span;
  value_ : span;
  value_content_type_ : bytes;
  post_data_ : bytes;
  content_length_ : Z;
  flags_ : Z;
  expiration_ : Z;
  touch_flag_ : bool;
  delta_ : Z;
  ack_sequence_ : Z;
  interval_ : Z;
  timeout_ : Z;
  sub_op_ : Z;
  write_buf_total_ : Z;
  read_item_buf_ : option Z;
  cache_item_ : option ptr;
  request_buf_ : Cache_Buffer.buffer;
  read_buffer_ : Receive_Buffer.buffer;
  write_buf_ : list web_buffer;
  timer_ : list (Z * bool);
  timer_flag_ : bool;
  op_count_ : Z;
  self_ : bool
}.
Record web_node := mk_web_node {
  http : Peer_Http;
  web_cache : Cache_Mgr;
  web_socket : list bytes;
  web_reading : bool;
  web_writing : option (list web_buffer)
}.
Abbreviation W := (ST web_node).

(** What the file system says of a path below [webapps], what [fopen] and [fread]
    find there, and how the library splits a path. *)
Inductive web_entry := Absent | Directory | Regular | Fails.
Class Web_Files := { path_parts : bytes -> list bytes; kind_of : bytes -> web_entry; file_content : bytes -> option bytes }.
(** zlib: what [deflate] makes of all of the data, or [None] if [deflateInit2] fails;
    and the check sum. *)
Class Zlib := { deflated : bytes -> option bytes; crc32 : bytes -> Z }.

(** ** The texts *)
Module Texts.
Definition HTTP_SERVER : bytes := Stats.literal "Xixibase/0.7".
Definition head (status : string) (keep : bool) : bytes :=
  Stats.literal "HTTP/1.1 " ++ Stats.literal status ++ crlf ++ Stats.literal "Server: " ++ HTTP_SERVER ++ crlf ++
  Stats.literal "Connection: " ++ Stats.literal (if keep then "Keep-Alive" else "close") ++ crlf ++ Stats.literal "Content-Type: ".
Definition html : bytes := Stats.literal "text/html" ++ crlf ++ Stats.literal "Content-Length: ".
(** Lines 27-55. *)
Definition DEFAULT_RES_200 (keep : bool) : bytes := head "200 OK" keep ++ html.
Definition GET_RES_200 (keep : bool) : bytes := head "200 OK" keep.
Definition GET_RES_304 (keep : bool) : bytes := head "304 Not Modified" keep.
Definition GET_RES_301 (keep : bool) : bytes := head "301 Moved Permanently" keep ++ html.
Definition DELETE_RES_200 (keep : bool) : bytes := head "200 OK" keep ++ html ++ Stats.literal "0" ++ crlf ++ crlf.
Definition error_res (status : string) (keep : bool) : bytes :=
  let body := Stats.literal "<H1>" ++ Stats.literal status ++ Stats.literal "</H1>" in
  head status keep ++ html ++ Parse.decimal (Z.of_nat (length body)) ++ crlf ++ crlf ++ body.
Definition ERROR_RES_400 := error_res "400 Bad Request".
Definition ERROR_RES_401 := error_res "401 Unauthorized".
Definition ERROR_RES_404 := error_res "404 Not Found".
Definition ERROR_RES_413 := error_res "413 Request Entity Too Large".
Definition ERROR_RES_500 := error_res "500 Internal Server Error".

(** Lines 303-360: the text for each reason; the size of one is another's. *)
Definition error_text (reason : xixi_reason) (keep : bool) : bytes :=
  match reason with
  | XIXI_REASON_NOT_FOUND => ERROR_RES_404 keep
  | XIXI_REASON_TOO_LARGE =>
      if keep then ERROR_RES_413 true else take (length (ERROR_RES_413 false)) (ERROR_RES_413 true)
  | XIXI_REASON_AUTH_ERROR => ERROR_RES_401 keep
  | XIXI_REASON_OUT_OF_MEMORY => ERROR_RES_500 keep
  | _ => ERROR_RES_400 keep
  end.
End Texts.

(** ** Decoding *)
Module Decode.
(** A digit of an escape, as lines 163-170 and 174-181 compute it in a [char]. *)
Definition hex (c : Z) : Z :=
  if (48 <=? c) && (c <=? 57) then c - 48
  else if (97 <=? c) && (c <=? 102) then c - 97 + 10 else c - 65 + 10.
(** Lines 151-191: what is written to the new buffer; an escape needs two bytes
    behind it. *)
Fixpoint uri_bytes (s : bytes) : bytes :=
  match s with
  | [] => []
  | 0 :: _ => []
  | 43 :: s => 32 :: uri_bytes s
  | 37 :: c1 :: c2 :: s => u8 (Z.shiftl (hex c1) 4 + Z.land (hex c2) 0xF) :: uri_bytes s
  | c :: s => c :: uri_bytes s
  end.
(** Lines 123-144: the argument up to the next ampersand, and what follows. *)
Definition get_arg (s : bytes) : option (bytes * bytes) :=
  match memchr 38 s with
  | Some i => Some (take i s, drop (S i) s)
  | None => if decide (s = []) then None else Some (s, [])
  end.
End Decode.

Module Http.
Section http.
Context (e : endian) `{Table_Malloc} `{Item_Malloc} `{Buffer_Malloc} `{Block_Malloc} `{Web_Files} `{Zlib}.
Context (alive : sink -> bool) (web : Settings) (self : sink) (unassigned : Z).

Definition in_http (f : Peer_Http -> Peer_Http) : W unit := modify (fun n => n <| http ::= f |>).
Definition my {A} (f : Peer_Http -> A) : W A := gets (fun n => f (http n)).
Definition set_state (st : peer_state) : W unit := in_http (fun p => p <| state_ := st |>).
Definition set_next_state (st : peer_state) : W unit := in_http (fun p => p <| next_state_ := st |>).

(** Lines 215-248. *)
Definition DEFAULT_SIZE : Z := 2048.
Definition HIGHWAT_SIZE : Z := 8192.
Definition init (memory : bytes) : Peer_Http :=
  mk_peer_http PEER_STATE_NEW_CMD PEER_STATE_NEW_CMD XIXI_PDU_HEAD_LENGTH no_request 0 0 0 no_span no_span [] [] 0 0 0 false
    1 0 120 30 0 0 None None Cache_Buffer.init (Receive_Buffer.init DEFAULT_SIZE memory) [] [] false 0 true.

(** Lines 1610-1619, and what it does to the peer that calls the cache. *)
Definition cancel (p : Peer_Http) : Peer_Http := p <| timer_ ::= map (fun w => (w.1, true)) |>.
Definition on_cache_watch_notify (p : Peer_Http) : Peer_Http :=
  if timer_flag_ p then cancel p else p <| timer_flag_ := true |>.
Definition cache {A} (m : M A) : W A := fun n =>
  match m (web_cache n) with
  | Some (a, s) =>
      let calls := drop (length (notified_ (web_cache n))) (notified_ s) in
      let mine := base.filter (fun c => c.1 = self) calls in
      Some (a, n <| web_cache := s |> <| http ::= Nat.iter (length mine) on_cache_watch_notify |>)
  | None => None
  end.

(** [request_buf_.prepare]: whether there is memory. *)
Definition prepare (size : Z) : W bool := fun n =>
  let r := Cache_Buffer.prepare 2048 malloc_block size (request_buf_ (http n)) in
  Some (match r.1 with Some _ => true | None => false end, n <| http ::= fun p => p <| request_buf_ := r.2 |> |>).
(** A piece that is used without a check. *)
Definition must_prepare (size : Z) : W unit := b ← prepare size; assert_ b.
(** [add_write_buf], lines 164-167 of the header. *)
Definition buffer_size (b : web_buffer) : Z :=
  match b with Static b => Z.of_nat (length b) | Piece _ n | Item_part _ _ n => n end.
Definition add_write_buf (b : web_buffer) : W unit :=
  in_http (fun p => p <| write_buf_ ::= fun l => l ++ [b] |> <| write_buf_total_ ::= fun t => u32 (t + buffer_size b) |>).
(** [_snprintf] of a text into [room] bytes: what fits is written, with a 0; the
    result is the size of the text. *)
Definition snprintf (room : Z) (text : bytes) : W web_buffer :=
  must_prepare room;; mret (Piece (take (Z.to_nat (room - 1)) text ++ [0]) (Z.of_nat (length text))).
Definition to_write : W unit := set_state PEER_STATUS_WRITE;; set_next_state PEER_STATE_NEW_CMD.
Definition keep : W bool := my (fun p => keepalive (http_request_ p)).

(** Lines 302-363. *)
Definition write_error (reason : xixi_reason) : W unit :=
  k ← keep; add_write_buf (Static (Texts.error_text reason k));; to_write.

(** The end of most handlers: a text in [room] bytes, behind its length in
    [header_room]. *)
Definition respond (room header_room : Z) (text : bytes) : W unit :=
  body ← snprintf room text;
  header ← snprintf header_room (Parse.decimal (buffer_size body) ++ crlf ++ crlf);
  k ← keep;
  add_write_buf (Static (Texts.DEFAULT_RES_200 k));; add_write_buf header;; add_write_buf body;; to_write.
Definition quoted (name : string) : bytes := quote ++ Stats.literal name ++ quote ++ Stats.literal ":".
Definition braces (b : bytes) : bytes := Stats.literal "{" ++ b ++ Stats.literal "}".
Definition comma : bytes := Stats.literal ",".

(** ** The items *)

(** Lines 1073-1100: the mime type, as bytes; [%s] takes it for a C string. *)
Definition the_key : W bytes := k ← my key_; the (span_bytes k).
Definition get_mime_type (it : Cache_Item) : W bytes :=
  if (ext_size it >? 0) && (ext_size it <=? MAX_MIME_TYPE_LENGTH) then
    must_prepare (ext_size it + 1);;
    the (Item.get_ext it)
  else
    key ← the_key;
    match Str.get_suffix key (Z.of_nat (length key)) with
    | Some (o, n) =>
        match Conf.get_mime_type e web (take (Z.to_nat n) (drop (Z.to_nat o) key)) with
        | Some m =>
            if Z.of_nat (length m) <=? MAX_MIME_TYPE_LENGTH then must_prepare (Z.of_nat (length m) + 1);; mret m
            else mret (default_mime_type web)
        | None => mret (default_mime_type web)
        end
    | None => mret (default_mime_type web)
    end.

(** The look-up that lines 1104-1109 and 1178-1183 share: the item, the reason and
    [expiration]; without an item that is left as it was. *)
Definition look_up (key : bytes) (is_base : bool) (expiration : Z) : W (option ptr * xixi_reason * Z) :=
  touch ← my touch_flag_; g ← my group_id_; w ← my watch_id_;
  if touch : bool then
    x ← my expiration_;
    r ← cache (Mgr.get_touch e g key w x);
    mret (r.1, r.2, x)
  else
    r ← cache (Mgr.get e alive g key w is_base);
    match r.1 with
    | Some (p, x) => mret (Some p, r.2, x)
    | None => mret (None, r.2, expiration)
    end.
(** [load_from_file], which opens the key as a C string; [expiration] of lines
    1149-1151. *)
Definition file_expiration (expiration : Z) : W Z :=
  touch ← my touch_flag_; mret (if touch : bool then expiration else default_cache_expiration web).
Definition load (key string : bytes) (expiration : Z) : W (option ptr * xixi_reason) :=
  g ← my group_id_; w ← my watch_id_;
  cache (Mgr.load_from_file e (fun _ => file_content string) (Conf.get_mime_type e web) g key w expiration).

(** Lines 1167-1200. *)
Fixpoint welcome_loop (files : list bytes) (is_base : bool) (r : option ptr * xixi_reason * Z) : W (option ptr * xixi_reason * Z) :=
  match files with
  | [] => mret r
  | f :: files =>
      key ← the_key;
      let new_key := key ++ f in
      must_prepare (u32 (Z.of_nat (length new_key) + 1));;
      r ← look_up new_key is_base r.2;
      match r.1.1 with
      | Some p => mret (Some p, XIXI_REASON_SUCCESS, r.2)
      | None =>
          x ← file_expiration r.2;
          l ← load new_key (cstr new_key) x;
          if decide (l.2 = XIXI_REASON_NOT_FOUND) then welcome_loop files is_base (l.1, l.2, x)
          else mret (l.1, l.2, x)
      end
  end.
Definition get_welcome_file (is_base : bool) (expiration : Z) : W (option ptr * xixi_reason * Z) :=
  welcome_loop (welcome_file_list web) is_base (None, XIXI_REASON_NOT_FOUND, expiration).

(** Lines 1113-1132: whether the parts of a path stay below its start. *)
Fixpoint stays_below (parts : list bytes) (count : Z) : bool :=
  match parts with
  | [] => true
  | part :: parts =>
      if decide (part = [46; 46]) then if count <=? 1 then false else stays_below parts (u32 (count - 1))
      else if decide (part = [46]) then stays_below parts count
      else stays_below parts (u32 (count + 1))
  end.

(** Lines 1102-1165. *)
Definition get_cache_item (is_base : bool) : W (option ptr * xixi_reason * Z) :=
  key ← the_key;
  r ← look_up key is_base unassigned;
  match r.1.1, key with
  | None, 47 :: _ =>
      string ← my (fun p => span_string (key_ p));
      if negb (stays_below (path_parts string) 0) then mret (None, XIXI_REASON_NOT_FOUND, r.2)
      else
        match kind_of string with
        | Absent | Fails => mret (None, XIXI_REASON_NOT_FOUND, r.2)
        | Directory =>
            if decide (last key = Some 47) then get_welcome_file is_base r.2
            else mret (None, XIXI_REASON_MOVED_PERMANENTLY, r.2)
        | Regular =>
            x ← file_expiration r.2;
            l ← load key string x;
            mret (l.1, l.2, x)
        end
  | _, _ => mret r
  end.

(** Lines 1778-1875: the pieces of the compressed data and their size; a size of 0
    tells that they are not to be used.  A call of [deflate] fills the room it is
    given or is the last, so the last one leaves some. *)
Definition gzip_header : bytes := [31; 139; 8; 0; 0; 0; 0; 0; 0; 3].
Definition out_uint32 (x : Z) : bytes := [u8 x; u8 (Z.shiftr x 8); u8 (Z.shiftr x 16); u8 (Z.shiftr x 24)].
Fixpoint gzip_chunks (fuel : nat) (chunk_size : Z) (out : bytes) : W (option (list web_buffer)) :=
  match fuel with
  | O => the None
  | S fuel =>
      ok ← prepare chunk_size;
      if negb ok then mret None
      else if Z.of_nat (length out) <? chunk_size then mret (Some [Piece out (Z.of_nat (length out))])
      else
        rest ← gzip_chunks fuel chunk_size (drop (Z.to_nat chunk_size) out);
        mret ((fun l => Piece (take (Z.to_nat chunk_size) out) chunk_size :: l) <$> rest)
  end.
Definition gzip_encode (data : bytes) : W (Z * list web_buffer) :=
  if decide (data = []) then mret (0, [])
  else
    match deflated data with
    | None => mret (0, [])
    | Some out =>
        let size := Z.of_nat (length data) in
        let chunk_size := if size <? 4096 then size else 4096 in
        chunks ← gzip_chunks (S (length out)) chunk_size out;
        match chunks with
        | None => mret (0, [Static gzip_header])
        | Some chunks =>
            ok ← prepare 8;
            if negb ok then mret (0, Static gzip_header :: chunks)
            else
              let l := Static gzip_header :: chunks ++ [Piece (out_uint32 (crc32 data) ++ out_uint32 (u32 size)) 8] in
              mret (u32 (foldr Z.add 0 (map buffer_size l)), l)
        end
    end.

(** ** The commands *)

(** The lines of a header that lines 986-989, 1014-1017 and 1021-1024 write. *)
Definition item_lines (it : Cache_Item) (expiration : Z) (etag : bytes) : bytes :=
  Stats.literal "CacheID: " ++ Parse.decimal (cache_id it) ++ crlf ++ Stats.literal "Flags: " ++ Parse.decimal (flags it) ++ crlf ++
  Stats.literal "Expiration: " ++ Parse.decimal expiration ++ crlf ++ Stats.literal "ETag: " ++ etag ++ crlf ++ crlf.
Definition etag_of (it : Cache_Item) : bytes := quote ++ Parse.decimal (cache_id it) ++ quote.

(** Lines 978-1042: the response for an item; [gzip] are the pieces to send in place
    of its data. *)
Definition not_modified (it : Cache_Item) (mime : bytes) (expiration : Z) : W unit :=
  header ← snprintf 200 (cstr mime ++ crlf ++ item_lines it expiration (etag_of it));
  k ← keep; add_write_buf (Static (Texts.GET_RES_304 k));; add_write_buf header.
Definition compress (it : Cache_Item) (mime : bytes) : W (Z * list web_buffer) :=
  r ← my http_request_;
  if negb (method r =? HEAD_METHOD) && accept_gzip r && (data_size it >=? min_gzip_size web) && (data_size it <=? max_gzip_size web) &&
     Conf.is_gzip_mime_type e web mime
  then
    d ← the (Item.get_data it);
    z ← gzip_encode d;
    mret (if u32 (z.1 + 50) >=? data_size it then 0 else z.1, z.2)
  else mret (0, []).
Definition send_item (p : ptr) (it : Cache_Item) (mime : bytes) (expiration : Z) : W unit :=
  z ← compress it mime;
  let encoding := if z.1 >? 0 then Stats.literal "Content-Encoding: gzip" ++ crlf else [] in
  let size := if z.1 >? 0 then z.1 else data_size it in
  header ← snprintf 300 (cstr mime ++ crlf ++ encoding ++ Stats.literal "Content-Length: " ++ Parse.decimal size ++ crlf ++
                         item_lines it expiration (etag_of it));
  r ← my http_request_;
  add_write_buf (Static (Texts.GET_RES_200 (keepalive r)));; add_write_buf header;;
  if negb (method r =? HEAD_METHOD) then
    if z.1 >? 0 then for_each add_write_buf z.2 else add_write_buf (Item_part p (Item.data_at it) (data_size it))
  else mret tt.
(** Lines 1047-1070, and the whole of lines 971-1071. *)
Definition moved : W unit :=
  key ← my key_;
  let key_length := span_len key in
  body ← snprintf (u32 (150 + key_length))
    (Stats.literal "<HTML><HEAD><TITLE>301 Moved</TITLE></HEAD><BODY><H1>301 Moved</H1>The document has moved<A HREF=" ++ quote ++
     span_string key ++ Stats.literal "/" ++ quote ++ Stats.literal ">here</A>.</BODY></HTML>");
  header ← snprintf (u32 (35 + key_length))
    (Parse.decimal (buffer_size body) ++ crlf ++ Stats.literal "Location: " ++ span_string key ++ Stats.literal "/" ++ crlf ++ crlf);
  k ← keep;
  add_write_buf (Static (Texts.GET_RES_301 k));; add_write_buf header;; add_write_buf body;; to_write.
Definition process_get : W unit :=
  r ← get_cache_item false;
  match r.1.1 with
  | Some p =>
      in_http (fun x => x <| cache_item_ := Some p |>);;
      it ← cache (Mgr.item p);
      mime ← get_mime_type it;
      tag ← my (fun x => entity_tag (http_request_ x));
      (if decide (etag_of it = tag) then not_modified it mime r.2 else send_item p it mime r.2);;
      to_write
  | None => if decide (r.1.2 = XIXI_REASON_MOVED_PERMANENTLY) then moved else write_error r.1.2
  end.

(** Lines 1318-1353. *)
Definition process_get_base : W unit :=
  r ← get_cache_item true;
  match r.1.1 with
  | Some p =>
      it ← cache (Mgr.item p);
      mime ← get_mime_type it;
      let text := braces (quoted "cacheid" ++ Parse.decimal (cache_id it) ++ comma ++ quoted "flags" ++ Parse.decimal (flags it) ++ comma ++
        quoted "expiration" ++ Parse.decimal r.2 ++ comma ++ quoted "mime_type" ++ quote ++ cstr mime ++ quote ++ comma ++
        quoted "size" ++ Parse.decimal (data_size it)) in
      body ← snprintf 200 text;
      cache (Mgr.release_reference p);;
      header ← snprintf 30 (Parse.decimal (buffer_size body) ++ crlf ++ crlf);
      k ← keep;
      add_write_buf (Static (Texts.DEFAULT_RES_200 k));; add_write_buf header;; add_write_buf body;; to_write
  | None => write_error r.1.2
  end.

(** Lines 1202-1267, and the text of a version that handlers share. *)
Definition cacheid_text (id : Z) : bytes := braces (quoted "cacheid" ++ Parse.decimal id).
Definition process_update (sub_op : Z) : W unit :=
  g ← my group_id_; key ← my key_; fl ← my flags_; x ← my expiration_; v ← my value_; ct ← my value_content_type_;
  expected ← my cache_id_; w ← my watch_id_;
  new ← cache (Store.begin_update g (span_len key) fl x (span_len v) (Z.of_nat (length ct)));
  match new with
  | inr reason => in_http (fun p => p <| cache_item_ := None |>);; write_error reason
  | inl p =>
      in_http (fun x => x <| cache_item_ := Some p |>);;
      key ← the (span_bytes key);
      cache (Mgr.update_opt p (Item.write 0 key));;
      v ← the (span_bytes v);
      cache (Mgr.update_opt p (fun it => Item.write (Item.data_at it) v it));;
      cache (Mgr.update_opt p (Item_Key.set_ext ct));;
      cache (Mgr.update_opt p (Item_Key.calc_hash_value e));;
      cache (Mgr.update p (fun it => it <| cache_id := expected |>));;
      r ← cache (Store.dispatch alive sub_op p w);
      (if decide (r.1 = XIXI_REASON_SUCCESS) then respond 50 30 (cacheid_text (default unassigned r.2)) else write_error r.1);;
      cache (Mgr.release_reference p);;
      in_http (fun x => x <| cache_item_ := None |>)
  end.

(** Lines 1269-1287. *)
Definition process_delete : W unit :=
  g ← my group_id_; key ← the_key; id ← my cache_id_;
  reason ← cache (Mgr.remove e alive g key id);
  if decide (reason = XIXI_REASON_SUCCESS) then k ← keep; add_write_buf (Static (Texts.DELETE_RES_200 k));; to_write
  else write_error reason.

(** Lines 1289-1316: [cache_id_] is expected and told. *)
Definition process_delta (incr : bool) : W unit :=
  g ← my group_id_; key ← the_key; id ← my cache_id_; d ← my delta_;
  r ← cache (Mgr.delta e alive g key incr d id);
  in_http (fun p => p <| cache_id_ := r.1.2 |>);;
  if decide (r.1.1 = XIXI_REASON_SUCCESS) then
    respond 100 50 (braces (quoted "value" ++ Mgr.print_i64 r.2 ++ comma ++ quoted "cacheid" ++ Parse.decimal r.1.2))
  else write_error r.1.1.

(** Lines 1355-1388 and 1390-1422. *)
Definition respond_base (r : bool * Z) : W unit :=
  if r.1 then respond 50 50 (cacheid_text r.2)
  else if negb (r.2 =? 0) then write_error XIXI_REASON_MISMATCH
  else write_error XIXI_REASON_NOT_FOUND.
Definition process_update_flags : W unit :=
  g ← my group_id_; key ← the_key; id ← my cache_id_; fl ← my flags_;
  r ← cache (Mgr.update_flags e alive g key id fl); respond_base r.
Definition process_touch : W unit :=
  g ← my group_id_; key ← the_key; id ← my cache_id_; x ← my expiration_;
  r ← cache (Mgr.update_expiration e g key id x); respond_base r.

(** Lines 1439-1459. *)
Definition process_create_watch : W unit :=
  g ← my group_id_; i ← my interval_;
  id ← cache (Mgr.create_watch g i);
  respond 50 50 (braces (quoted "watchid" ++ Parse.decimal id)).

(** Lines 1461-1519: the ids in pieces of 2000 bytes, behind two buffers that are
    filled in at the end; [update_write_buf] counts from the first buffer there
    is. *)
Definition update_write_buf (i : nat) (b : web_buffer) : W unit :=
  in_http (fun p =>
    if (i <? length (write_buf_ p))%nat
    then p <| write_buf_ ::= <[i := b]> |> <| write_buf_total_ ::= fun t => u32 (t + buffer_size b) |>
    else p).
Definition pop_write_buf (n : nat) : W unit :=
  in_http (fun p => p <| write_buf_ ::= fun l => take (length l - n) l |>).
(** The loop: the text of the piece at hand, the size of all, and the buffers that
    were added; [None] for a piece there was no memory for. *)
Fixpoint encode_ids (ids : list Z) (is_begin : bool) (piece : bytes) (total : Z) (count : nat) : W (option (bytes * Z) * nat) :=
  match ids with
  | [] => mret (Some (piece, total), count)
  | id :: ids =>
      let text := (if is_begin then [] else comma) ++ Parse.decimal id in
      let piece := piece ++ text in
      let total := u32 (total + Z.of_nat (length text)) in
      if Z.of_nat (length piece) + 30 >? 2000 then
        add_write_buf (Piece piece (Z.of_nat (length piece)));;
        ok ← prepare 2000;
        if ok : bool then encode_ids ids false [] total (S count) else mret (None, S count)
      else encode_ids ids false piece total count
  end.
Definition encode_update_list (ids : list Z) : W unit :=
  ok ← prepare 2000;
  if negb ok then write_error XIXI_REASON_OUT_OF_MEMORY
  else
    add_write_buf (Static []);; add_write_buf (Static []);;
    r ← encode_ids ids true [] 0 2;
    match r.1 with
    | None => pop_write_buf r.2;; write_error XIXI_REASON_OUT_OF_MEMORY
    | Some (piece, total) =>
        (if decide (piece = []) then mret tt else add_write_buf (Piece piece (Z.of_nat (length piece))));;
        size ← snprintf 50 (Parse.decimal total ++ crlf ++ crlf);
        k ← keep;
        update_write_buf 0 (Static (Texts.DEFAULT_RES_200 k));; update_write_buf 1 size;;
        to_write
    end.

(** Lines 1521-1559. *)
Definition process_watch : W unit :=
  in_http (fun p => p <| timer_flag_ := false |>);;
  g ← my group_id_; w ← my watch_id_; ack ← my ack_sequence_; i ← my interval_;
  a ← cache (Mgr.check_watch_and_set_callback alive (Some self) g w ack i no_answer);
  match a with
  | None => write_error XIXI_REASON_WATCH_NOT_FOUND
  | Some a =>
      if (0 <? length (updated_list a))%nat then encode_update_list (updated_list a)
      else
        in_http (fun p => (cancel p) <| timer_ ::= fun l => l ++ [(w, false)] |>);;
        flag ← my timer_flag_;
        (if flag : bool then in_http cancel else in_http (fun p => p <| timer_flag_ := true |>));;
        set_state PEER_STATUS_ASYNC_WAIT
  end.

(** Lines 1561-1582. *)
Definition process_flush : W unit :=
  g ← my group_id_;
  r ← cache (Mgr.flush alive g);
  respond 50 50 (braces (quoted "flushcount" ++ Parse.decimal r.1 ++ comma ++ quoted "flushsize" ++ Parse.decimal r.2)).

(** Lines 1584-1608; the class is not set. *)
Definition process_stats : W unit :=
  g ← my group_id_; sub_op ← my sub_op_;
  let pdu := Stats_Req.mk (u8 sub_op) unassigned g in
  result ← cache (Mgr.stats_cmd (cache_settings web) (Stats_Req.sub_op pdu) (Stats_Req.group_id pdu) (Stats_Req.class_id pdu));
  let size := u32 (Z.of_nat (length result)) in
  header ← snprintf 50 (Parse.decimal size ++ crlf ++ crlf);
  must_prepare size;;
  k ← keep;
  add_write_buf (Static (Texts.DEFAULT_RES_200 k));; add_write_buf header;;
  add_write_buf (Piece (take (Z.to_nat size) result) size);;
  to_write.

(** ** What a request asks for *)

(** Lines 684-762: the command behind [manager_base_url].  Line 744 compares ten bytes
    with the six of a literal and reads past them if those agree, so that nothing
    calls [process_watch]. *)
Definition is_command (cmd : bytes) (name : string) : bool :=
  bool_decide (take (length (Stats.literal name)) cmd = Stats.literal name).
Definition run_command (cmd_length : Z) (cmd : bytes) : W unit :=
  let bad := write_error XIXI_REASON_INVALID_PARAMETER in
  if cmd_length =? 3 then
    if is_command cmd "get" then process_get
    else if is_command cmd "set" then process_update 0
    else if is_command cmd "add" then process_update 1
    else if is_command cmd "del" then process_delete
    else bad
  else if cmd_length =? 4 then
    if is_command cmd "incr" then process_delta true
    else if is_command cmd "decr" then process_delta false
    else bad
  else if cmd_length =? 5 then
    if is_command cmd "flush" then process_flush
    else if is_command cmd "touch" then process_touch
    else if is_command cmd "flags" then process_update_flags
    else if is_command cmd "stats" then process_stats
    else bad
  else if cmd_length =? 6 then
    if is_command cmd "append" then process_update 3 else bad
  else if cmd_length =? 7 then
    if is_command cmd "replace" then process_update 2
    else if is_command cmd "prepend" then process_update 4
    else if is_command cmd "getbase" then process_get_base
    else bad
  else if cmd_length =? 10 then
    if bool_decide (take 6 cmd = Stats.literal "watch" ++ [0]) then the None else bad
  else if cmd_length =? 11 then
    if is_command cmd "createwatch" then process_create_watch else bad
  else bad.

(** ** Reading a request *)

(** Lines 780-843 and 901-958: a number goes to the member its letter names; [false]
    if it is none. *)
Definition put_number (parse : option bytes -> Z -> option (option Z)) (text : span) (put : Z -> Peer_Http -> Peer_Http) : W bool :=
  r ← the (parse (Some (span_mem text)) (span_len text));
  match r with Some n => in_http (put n);; mret true | None => mret false end.
Definition number_arg (name : Z) (text : span) : W bool :=
  if name =? 103 then put_number Parse.safe_toui32 text (fun n p => p <| group_id_ := n |>)
  else if name =? 119 then put_number Parse.safe_toui32 text (fun n p => p <| watch_id_ := n |>)
  else if name =? 102 then put_number Parse.safe_toui32 text (fun n p => p <| flags_ := n |>)
  else if name =? 99 then put_number Parse.safe_toui64 text (fun n p => p <| cache_id_ := n |>)
  else if name =? 100 then put_number Parse.safe_toi64 text (fun n p => p <| delta_ := n |>)
  else if name =? 101 then in_http (fun p => p <| touch_flag_ := true |>);; put_number Parse.safe_toui32 text (fun n p => p <| expiration_ := n |>)
  else if name =? 97 then put_number Parse.safe_toui32 text (fun n p => p <| ack_sequence_ := n |>)
  else if name =? 105 then put_number Parse.safe_toui32 text (fun n p => p <| interval_ := n |>)
  else if name =? 116 then put_number Parse.safe_toui32 text (fun n p => p <| timeout_ := n |>)
  else if name =? 115 then put_number Parse.safe_toui32 text (fun n p => p <| sub_op_ := n |>)
  else mret true.

(** Lines 146-193: the decoded copy, or [None] without memory for it. *)
Definition decode_uri (s : bytes) : W (option span) :=
  ok ← prepare (u32 (Z.of_nat (length s) + 1));
  mret (if ok : bool then Some (terminated (Decode.uri_bytes s)) else None).

(** Lines 779-844, for one argument; [false] is the return of an error. *)
Definition request_arg (arg : bytes) : W bool :=
  match arg with
  | name :: 61 :: text =>
      if name =? 107 then
        key ← decode_uri text;
        match key with
        | Some key => in_http (fun p => p <| key_ := key |>);; mret true
        | None => in_http (fun p => p <| key_ := no_span |>);; write_error XIXI_REASON_OUT_OF_MEMORY;; mret false
        end
      else if name =? 118 then
        value ← decode_uri text;
        match value with
        | Some value => in_http (fun p => p <| value_ := value |>);; mret true
        | None => in_http (fun p => p <| value_ := no_span |>);; write_error XIXI_REASON_OUT_OF_MEMORY;; mret false
        end
      else
        ok ← number_arg name (terminated text);
        if ok : bool then mret true else write_error XIXI_REASON_INVALID_PARAMETER;; mret false
  | _ => mret true
  end.
(** Lines 770-847, on the C string that follows. *)
Fixpoint request_args (fuel : nat) (args : bytes) : W bool :=
  match fuel with
  | O => the None
  | S fuel =>
      match Decode.get_arg args with
      | None => mret true
      | Some (arg, args) => ok ← request_arg arg; if ok : bool then request_args fuel args else mret false
      end
  end.
Definition process_request_arg (args : bytes) : W bool := request_args (S (length args)) args.

(** Lines 669-768. *)
Definition strrchr (c : Z) (s : bytes) : option nat := (fun i => length s - S i)%nat <$> memchr c (reverse s).
Definition process_command : W unit :=
  r ← my http_request_;
  let base := manager_base_url web in
  let base_size := Z.of_nat (length base) in
  if negb (method r =? HEAD_METHOD) && (Z.of_nat (length (uri r)) >=? base_size) && bool_decide (take (length base) (uri r) = base) then
    let cmd := drop (length base) (uri r) in
    match strrchr 63 (cstr (uri r)) with
    | Some i =>
        ok ← process_request_arg (drop (S i) (cstr (uri r)));
        if ok : bool then run_command (u32 (Z.of_nat i - base_size)) cmd else mret tt
    | None => run_command (u32 (Z.of_nat (length (uri r)) - base_size)) cmd
    end
  else
    in_http (fun p => p <| key_ := terminated (uri r) |>);;
    process_get.

(** ** The body of a POST *)

(** [strstr] from a place in the post data, which a 0 ends, and [memfind] from there
    to its end: the place of what is found.  There is nothing to search outside. *)
Definition strstr (post : bytes) (o : Z) (sub : bytes) : option (option Z) :=
  if (0 <=? o) && (o <=? Z.of_nat (length post)) then
    Some ((fun i => o + i) <$> Str.memfind (cstr (drop (Z.to_nat o) post)) sub)
  else None.
Definition find_from (post : bytes) (o : Z) (sub : bytes) : option (option Z) :=
  if (0 <=? o) && (o <=? Z.of_nat (length post)) then
    Some ((fun i => o + i) <$> Str.memfind (drop (Z.to_nat o) post) sub)
  else None.
Fixpoint skip_blanks (s : bytes) : bytes := match s with 32 :: s => skip_blanks s | _ => s end.

(** Lines 873-889: the content type of the value. *)
Definition part_content_type (post : bytes) (name : Z) : W unit :=
  found ← the (strstr post (name + 2) (crlf ++ Stats.literal "Content-Type:"));
  match found with
  | None => mret tt
  | Some i =>
      let text := skip_blanks (drop (Z.to_nat (i + 15)) post) in
      match Str.memfind (cstr text) crlf with
      | None => mret tt
      | Some size =>
          if size <? 128 then in_http (fun p => p <| value_content_type_ := take (Z.to_nat size) text |>) else mret tt
      end
  end.
(** Lines 900-959: what the part from [value] to [next], the boundary behind it, sets. *)
Definition put_part (post : bytes) (name_length name value next : Z) : W bool :=
  let text := mk_span (drop (Z.to_nat value) post ++ [0]) (u32 (u32 (next - value) - 4)) in
  if name_length =? 1 then
    let c := default 0 (post !! Z.to_nat name) in
    if c =? 107 then in_http (fun p => p <| key_ := text |>);; mret true
    else if c =? 118 then in_http (fun p => p <| value_ := text |>);; mret true
    else
      ok ← number_arg c text;
      if ok : bool then mret true else write_error XIXI_REASON_INVALID_PARAMETER;; mret false
  else mret true.
(** Lines 862-963: one part and those behind it, from the boundary at [buf]; [false]
    is the return of an error. *)
Fixpoint process_parts (fuel : nat) (post boundary : bytes) (buf : Z) : W bool :=
  match fuel with
  | O => the None
  | S fuel =>
      found ← the (strstr post (buf + Z.of_nat (length boundary) + 2) (Stats.literal " name=" ++ quote));
      match found with
      | None => mret true
      | Some i =>
          let name := i + 7 in
          closing ← the (strstr post name quote);
          let name_length := match closing with Some j => j - name | None => 0 end in
          (if (name_length =? 1) && bool_decide (post !! Z.to_nat name = Some 118) then part_content_type post name else mret tt);;
          blank ← the (strstr post (name + 2) (crlf ++ crlf));
          value ← the ((fun j => j + 4) <$> blank);
          next ← the (find_from post value boundary);
          match next with
          | None => mret true
          | Some next => ok ← put_part post name_length name value next; if ok : bool then process_parts fuel post boundary next else mret false
          end
      end
  end.
Definition process_multipart (post boundary : bytes) : W bool :=
  match Str.memfind post boundary with
  | Some buf => process_parts (S (length post)) post boundary buf
  | None => mret true
  end.

(** Lines 849-969. *)
Definition same_text (a : bytes) (b : string) : bool :=
  (length a =? length (Stats.literal b))%nat && (Str.strcasecmp a (Stats.literal b) =? 0).
Definition process_post : W unit :=
  r ← my http_request_; post ← my post_data_;
  if same_text (content_type r) "application/x-www-form-urlencoded" then
    ok ← process_request_arg (cstr post); if ok : bool then process_command else mret tt
  else if same_text (content_type r) "multipart/form-data" && (0 <? length (boundary r))%nat then
    ok ← process_multipart post (boundary r); if ok : bool then process_command else mret tt
  else write_error XIXI_REASON_INVALID_PARAMETER.

(** ** The header *)
Definition in_request (f : Http_Request -> Http_Request) : W unit := in_http (fun p => p <| http_request_ ::= f |>).

(** Lines 612-667. *)
Definition copy_value (value : bytes) : W bool := prepare (u32 (Z.of_nat (length value) + 1)).
Definition content_type_field (value : bytes) : W unit :=
  let n := Z.of_nat (length value) in
  if (n >? 33) && (Str.strcasecmp (take 33 value) (Stats.literal "application/x-www-form-urlencoded") =? 0) then
    in_request (fun r => r <| content_type := take 33 value |>)
  else if (n >? 30) && (Str.strcasecmp (take 19 value) (Stats.literal "multipart/form-data") =? 0) then
    let rest := drop 19 value in
    in_request (fun r => r <| content_type := take 19 value |>
      <| boundary ::= fun old => match Str.memfind (cstr rest) (Stats.literal "boundary=") with
                                 | Some i => drop (Z.to_nat (i + 9)) rest
                                 | None => old
                                 end |>)
  else in_request (fun r => r <| content_type := value |>).
Definition handle_request_header_field (name value : bytes) : W bool :=
  if same_text name "Connection" then
    (if (10 <=? length value)%nat && (Str.strcasecmp (take 10 value) (Stats.literal "Keep-Alive") =? 0)
     then in_request (fun r => r <| keepalive := true |>) else mret tt);;
    mret true
  else if same_text name "content-type" then
    if (0 <? length value)%nat then
      ok ← copy_value value; if ok : bool then content_type_field value;; mret true else mret false
    else mret true
  else if same_text name "if-none-match" then
    ok ← copy_value value;
    if ok : bool then in_request (fun r => r <| entity_tag := value |>);; mret true else mret false
  else if same_text name "content-length" then
    put_number Parse.safe_toui32 (terminated value) (fun n p => p <| content_length_ := n |>)
  else if same_text name "Accept-Encoding" then
    in_request (fun r => r <| accept_gzip := bool_decide (is_Some (Str.memfind value (Stats.literal "gzip"))) |>);;
    mret true
  else mret true.

(** Lines 570-610, from the name of a field on. *)
Fixpoint header_fields (fuel : nat) (text : bytes) : W bool :=
  match fuel with
  | O => the None
  | S fuel =>
      match memchr 58 text with
      | None => mret true
      | Some i =>
          let name := take i text in
          let value := skip_blanks (drop (S i) text) in
          match memchr 10 value with
          | None => handle_request_header_field name value
          | Some j =>
              let n := if bool_decide (value !! (j - 1)%nat = Some 13) && (0 <? j)%nat then (j - 1)%nat else j in
              ok ← handle_request_header_field name (take n value);
              if ok : bool then header_fields fuel (drop (S j) value) else mret false
          end
      end
  end.
Definition process_request_header_fields (text : bytes) : W bool := header_fields (S (length text)) text.

(** Lines 504-528: the method of a request line and where its uri starts. *)
Definition method_of (line : bytes) : option (Z * nat) :=
  if decide (take 4 line = Stats.literal "GET ") then Some (GET_METHOD, 4%nat)
  else if decide (take 4 line = Stats.literal "POST") then Some (POST_METHOD, 5%nat)
  else if decide (take 4 line = Stats.literal "HEAD") then Some (HEAD_METHOD, 5%nat)
  else None.
(** Lines 537-560. *)
Definition expect_body : W unit :=
  n ← my content_length_;
  if n >? u32 (item_size_max web * 3) then write_error XIXI_REASON_TOO_LARGE
  else
    ok ← prepare (u32 (n + 1));
    if negb ok then write_error XIXI_REASON_OUT_OF_MEMORY
    else
      assert_ (n + 1 <? 2 ^ 32);;
      in_http (fun p => p <| post_data_ := [] |> <| read_item_buf_ := Some 0 |> <| next_data_len_ := n |>);;
      set_state PEER_STATE_READ_BODY_EXTRAS;;
      r ← my http_request_;
      must_prepare (u32 (Z.of_nat (length (uri r)) + 1)).
(** Lines 486-568. *)
Definition process_request_header (header : bytes) : W unit :=
  let '(line, fields) := match Str.memfind header crlf with
                         | Some i => (take (Z.to_nat i) header, drop (Z.to_nat (i + 2)) header)
                         | None => (header, [])
                         end in
  if (6 <=? length line)%nat then
    (if decide (drop (length line - 3) line = Stats.literal "1.1")
     then in_request (fun r => r <| http_11 := true |> <| keepalive := true |>) else mret tt);;
    match method_of line with
    | None => write_error XIXI_REASON_INVALID_PARAMETER
    | Some (m, offset) =>
        let target := drop offset line in
        in_request (fun r => r <| method := m |> <| uri := match memchr 32 target with Some i => take i target | None => target end |>);;
        ok ← process_request_header_fields fields;
        if negb ok then write_error XIXI_REASON_INVALID_PARAMETER
        else
          n ← my content_length_;
          if (m =? POST_METHOD) && (n >? 0) then expect_body else process_command
    end
  else write_error XIXI_REASON_INVALID_PARAMETER.
(** Lines 464-484: how much of the data it took. *)
Definition try_read_command (data : bytes) : W Z :=
  let data_len := Z.of_nat (length data) in
  match Str.memfind data (crlf ++ crlf) with
  | Some i => process_request_header (take (Z.to_nat i) data);; mret (i + 4)
  | None =>
      if data_len >=? 8192 then write_error XIXI_REASON_TOO_LARGE;; mret data_len
      else set_state PEER_STATE_READ_HEADER;; mret 0
  end.

(** ** The state machine *)

(** Lines 250-282. *)
Definition reset_for_new_cmd : W unit :=
  it ← my cache_item_;
  match it with Some p => cache (Mgr.release_reference p);; in_http (fun p => p <| cache_item_ := None |>) | None => mret tt end;;
  in_http (fun p => p <| group_id_ := 0 |> <| watch_id_ := 0 |> <| cache_id_ := 0 |> <| key_ := no_span |> <| value_ := no_span |>
    <| value_content_type_ := [] |> <| post_data_ := [] |> <| content_length_ := 0 |> <| flags_ := 0 |> <| expiration_ := 0 |>
    <| touch_flag_ := false |> <| delta_ := 1 |> <| ack_sequence_ := 0 |> <| interval_ := 120 |> <| timeout_ := 30 |> <| sub_op_ := 0 |>
    <| http_request_ := no_request |> <| request_buf_ ::= Cache_Buffer.reset |> <| write_buf_total_ := 0 |> <| read_item_buf_ := None |>
    <| next_data_len_ := XIXI_PDU_HEAD_LENGTH |>);;
  set_state PEER_STATE_READ_HEADER.

(** Lines 1750-1757: what is there, up to [length] bytes. *)
Definition read_some (length : Z) : W bytes := fun n =>
  match web_socket n with
  | [] => Some ([], n)
  | b :: rest =>
      let got := take (Z.to_nat length) b in
      let left := drop (Z.to_nat length) b in
      Some (got, n <| web_socket := if decide (left = []) then rest else left :: rest |>)
  end.
Definition on_read_buffer (f : Receive_Buffer.buffer -> option Receive_Buffer.buffer) : W unit :=
  b ← my read_buffer_; b ← the (f b); in_http (fun p => p <| read_buffer_ := b |>).
Definition consume (n : Z) : W unit := on_read_buffer (fun b => Some (Receive_Buffer.processed n b)).
Definition handle_processed : W unit := on_read_buffer (Receive_Buffer.handle_processed DEFAULT_SIZE HIGHWAT_SIZE).
(** The copy of bytes to [read_item_buf_], which moves on; it must stay inside of
    [post_data_], before the 0 at its end. *)
Definition to_post (b : bytes) : W unit :=
  at_ ← my read_item_buf_;
  at_ ← the at_;
  size ← my content_length_;
  assert_ (at_ + Z.of_nat (length b) <=? size);;
  in_http (fun p => p <| post_data_ ::= fun d => take (Z.to_nat at_) d ++ b |> <| read_item_buf_ := Some (at_ + Z.of_nat (length b)) |>
                      <| next_data_len_ ::= fun n => u32 (n - Z.of_nat (length b)) |>).

(** Lines 382-398, 400-419 and 425-440: a round of the loop; [count] is
    [process_reqest_count], and the result is [run] and the count. *)
Definition data_size : W Z := my (fun p => Receive_Buffer.read_data_size_ (read_buffer_ p)).
Definition read_header (count : Z) : W (bool * Z) :=
  d ← my (fun p => Receive_Buffer.data (read_buffer_ p));
  tmp ← try_read_command d;
  if tmp >? 0 then consume tmp;; mret (true, u32 (count + 1))
  else
    handle_processed;;
    size ← my (fun p => Receive_Buffer.get_read_buf_size (read_buffer_ p));
    got ← read_some size;
    on_read_buffer (Receive_Buffer.received got);;
    mret (negb (bool_decide (got = [])), count).
Definition read_body : W bool :=
  size ← data_size; next ← my next_data_len_;
  if next =? 0 then process_post;; mret true
  else if size >? 0 then
    let tmp := if size >? next then next else size in
    d ← my (fun p => Receive_Buffer.data (read_buffer_ p));
    to_post (take (Z.to_nat tmp) d);; consume tmp;; mret true
  else
    got ← read_some next;
    if bool_decide (got = []) then mret false else to_post got;; mret true.
Definition status_write (count : Z) : W bool :=
  k ← keep;
  (if k : bool then mret tt else set_next_state PEER_STATE_CLOSING);;
  next ← my next_state_;
  set_state next;; set_next_state PEER_STATE_NEW_CMD;;
  if bool_decide (next = PEER_STATE_NEW_CMD) && (count <? 1) then
    size ← data_size;
    if size >=? 10 then set_state PEER_STATE_READ_HEADER;; mret true else mret false
  else mret false.
Definition round (count : Z) : W (bool * Z) :=
  let same (m : W bool) : W (bool * Z) := run ← m; mret (run, count) in
  st ← my state_;
  match st with
  | PEER_STATE_NEW_CMD => same (reset_for_new_cmd;; mret true)
  | PEER_STATE_READ_HEADER => read_header count
  | PEER_STATE_READ_BODY_EXTRAS => same read_body
  | PEER_STATUS_ASYNC_WAIT => mret (false, count)
  | PEER_STATUS_WRITE => same (status_write count)
  | PEER_STATE_CLOSING => same (set_state PEER_STATE_CLOSED;; mret false)
  | PEER_STATE_CLOSED => mret (false, count)
  | _ => the None
  end.
(** Lines 365-457.  The fuel is more than the rounds there can be, as for
    [Peer.process]. *)
Definition weight (n : web_node) : Z :=
  Receive_Buffer.read_data_size_ (read_buffer_ (http n)) + 2 * Z.of_nat (length (concat (web_socket n))).
Definition process_fuel (n : web_node) : nat := Z.to_nat (8 * weight n + 8).
Fixpoint process_loop (fuel : nat) (count : Z) : W unit :=
  match fuel with
  | O => the None
  | S fuel => r ← round count; if r.1 : bool then process_loop fuel r.2 else mret tt
  end.
Definition process : W unit := fuel ← gets process_fuel; process_loop fuel 0.

(** ** The handlers of asio's completions *)

(** Lines 1706-1725 and 1727-1748. *)
Definition try_read : W unit :=
  count ← my op_count_;
  if count =? 0 then
    in_http (fun p => p <| op_count_ ::= fun c => c + 1 |>);;
    handle_processed;;
    modify (fun n => n <| web_reading := true |>)
  else mret tt.
Definition try_write : W bool :=
  count ← my op_count_; bufs ← my write_buf_;
  if (count =? 0) && negb (bool_decide (length bufs = 0%nat)) then
    in_http (fun p => p <| op_count_ ::= fun c => c + 1 |>);;
    modify (fun n => n <| web_writing := Some bufs |>);;
    in_http (fun p => p <| write_buf_ := [] |>);;
    mret true
  else mret false.

(** What is written: the bytes the buffers point to. *)
Definition fetch (n : web_node) (b : web_buffer) : option bytes :=
  match b with
  | Static b => Some b
  | Piece written size => mem_read 0 size written
  | Item_part p off size => match heap (web_cache n) !! p with Some it => mem_read off size (body it) | None => None end
  end.
Definition gather (n : web_node) (l : list web_buffer) : option bytes := (fun l => concat l) <$> mapM (fetch n) l.

(** Lines 284-300, 209-213 and 195-207. *)
Definition cleanup : W unit :=
  it ← my cache_item_;
  match it with Some p => cache (Mgr.release_reference p);; in_http (fun p => p <| cache_item_ := None |>) | None => mret tt end;;
  in_http (fun p => p <| timer_ := [] |>).
Definition stats_conn (m : ST stats unit) : W unit := cache (on stats_ (fun st s => s <| stats_ := st |>) m).
Definition destroy : W unit :=
  cleanup;; stats_conn Stats.close_conn;; in_http (fun p => p <| self_ := false |>).
Definition create (memory : bytes) : W unit := in_http (fun _ => init memory);; stats_conn Stats.new_conn.

(** Lines 1627-1637, which the handlers share, and 1641-1646. *)
Definition process_and_go_on : W unit :=
  process;;
  st ← my state_;
  if bool_decide (st = PEER_STATUS_ASYNC_WAIT) then try_write;; mret tt
  else if bool_decide (st = PEER_STATE_CLOSED) then mret tt
  else written ← try_write; if written : bool then mret tt else try_read.
Definition close_when_idle : W unit :=
  count ← my op_count_; st ← my state_;
  if (count =? 0) && negb (bool_decide (st = PEER_STATUS_ASYNC_WAIT)) then destroy else mret tt.
(** Lines 1621-1647, 1649-1678 and 1680-1704. *)
Definition start (d : bytes) : W unit :=
  room ← my (fun p => Receive_Buffer.get_read_buf_size (read_buffer_ p));
  (if room >=? Z.of_nat (length d) then on_read_buffer (Receive_Buffer.received d);; process_and_go_on else mret tt);;
  close_when_idle.
Definition handle_read (got : option bytes) : W unit :=
  modify (fun n => n <| web_reading := false |>);;
  in_http (fun p => p <| op_count_ ::= fun c => c - 1 |>);;
  match got with
  | Some d => on_read_buffer (Receive_Buffer.received d);; process_and_go_on
  | None => mret tt
  end;;
  close_when_idle.
Definition handle_write (ok : bool) : W unit :=
  modify (fun n => n <| web_writing := None |>);;
  in_http (fun p => p <| op_count_ ::= fun c => c - 1 |>);;
  (if ok then process_and_go_on else mret tt);;
  close_when_idle.
(** Lines 1759-1776, for the first wait. *)
Definition handle_timer : W unit :=
  waits ← my timer_; w ← the (head waits);
  in_http (fun p => p <| timer_ ::= tail |>);;
  a ← cache (Mgr.check_watch_and_clear_callback alive (Some self) w.1 no_answer);
  match a with
  | None => write_error XIXI_REASON_WATCH_NOT_FOUND
  | Some a => encode_update_list (updated_list a)
  end;;
  try_write;; mret tt.
End http.
End Http.
