(* ===== verification/HttpParse.v ===== *)
(** * The texts of HTTP requests, parsed

    A printer of requests for a client of the server - percent-encoded arguments, a
    request line, header lines - and that the connection reads back what it prints. *)

From S2P Require Import Prelude XixiList XixiHashMap Lookup3 Util CurrTime Pdu Stats Watch Slab Cache CacheInv CacheSpec CacheOps CacheData CacheStore Buffers Settings Peer Http.

(** ** Searching *)
(** [memfind] by recursion on the data. *)
Lemma memfind_cons c t sub : sub <> [] -> ~ sub `prefix_of` c :: t -> Str.memfind (c :: t) sub = Z.succ <$> Str.memfind t sub.
Proof.
  intros Hs Hp. pose proof (memfind_spec (c :: t) sub) as H1. pose proof (memfind_spec t sub) as H2.
  assert (forall i, occurs (c :: t) sub (Z.succ i) <-> i = -1 /\ sub `prefix_of` c :: t \/ occurs t sub i) as Ho.
  { intros i. unfold occurs. destruct (Z.eq_dec i (-1)) as [->|]; [cbn; naive_solver lia|].
    split; [intros (?&Hl&Hd); right|intros [[-> ?]|(?&Hl&Hd)]; [done|]].
    - replace (Z.to_nat (Z.succ i)) with (S (Z.to_nat i)) in * by lia. cbn in *. split_and!; [lia..|done].
    - replace (Z.to_nat (Z.succ i)) with (S (Z.to_nat i)) by lia. cbn. split_and!; [lia..|done]. }
  assert (forall j, occurs (c :: t) sub j -> occurs t sub (j - 1)) as Hpred.
  { intros j Hj. replace j with (Z.succ (j - 1)) in Hj by lia. apply Ho in Hj as [[_ ?]|?]; done. }
  destruct (Str.memfind (c :: t) sub) as [i|], (Str.memfind t sub) as [j|]; cbn; [| | |done].
  - destruct H1 as [Hi Hmi], H2 as [Hj Hmj]. f_equal. specialize (Hmj _ (Hpred _ Hi)).
    assert (i <= Z.succ j) by (apply Hmi, Ho; by right). lia.
  - by destruct (H2 (i - 1)); apply Hpred, H1.
  - destruct (H1 (Z.succ j)). apply Ho. right. apply H2.
Qed.
Lemma memfind_here t sub : sub `prefix_of` t -> Str.memfind t sub = Some 0.
Proof.
  intros Hp. pose proof (memfind_spec t sub) as Hs. assert (occurs t sub 0) as H0.
  { unfold occurs. cbn. rewrite drop_0. apply prefix_length in Hp as ?. split_and!; [lia..|done]. }
  destruct (Str.memfind t sub) as [i|]; [|by destruct (Hs 0)]. destruct Hs as [[Hi _] Hm]. specialize (Hm 0 H0). f_equal. lia.
Qed.
(** Behind bytes that do not begin what is searched. *)
Lemma memfind_skip a x sub t : x ∉ a -> Str.memfind (a ++ t) (x :: sub) = (fun i => Z.of_nat (length a) + i) <$> Str.memfind t (x :: sub).
Proof.
  induction a as [|c a IH]; intros Hx.
  - cbn [app length]. destruct (Str.memfind t _) as [i|]; cbn [fmap option_fmap option_map]; [f_equal; lia|done].
  - apply not_elem_of_cons in Hx as [Hc Hx]. cbn [app]. rewrite memfind_cons, IH; [|done|done|by intros ?%prefix_cons_inv_1].
    destruct (Str.memfind t _) as [i|]; cbn; [f_equal; lia|done].
Qed.

Lemma memchr_skip a c t : c ∉ a -> memchr c (a ++ c :: t) = Some (length a).
Proof.
  intros Hc. unfold memchr. assert (list_find (fun x => x = c) (a ++ c :: t) = Some (length a, c)) as ->; [|done].
  apply list_find_Some. split_and!; [by rewrite lookup_app_r, Nat.sub_diag by lia|done|].
  intros j y Hj Hlt. rewrite lookup_app_l in Hj by done. intros ->. by apply Hc, list_elem_of_lookup_2 with j.
Qed.
Lemma memchr_none c t : c ∉ t -> memchr c t = None.
Proof. intros Hc. unfold memchr. rewrite (proj2 (list_find_None _ _)); [done|]. apply Forall_forall. by intros x Hx ->. Qed.
Lemma strrchr_last a c t : c ∉ t -> Http.strrchr c (a ++ c :: t) = Some (length a).
Proof.
  intros Hc. unfold Http.strrchr. rewrite reverse_app, reverse_cons, <- (assoc_L (++)). cbn [app].
  rewrite memchr_skip by (by rewrite elem_of_reverse). cbn. f_equal. rewrite length_app, length_reverse. cbn. lia.
Qed.
Lemma strrchr_none c t : c ∉ t -> Http.strrchr c t = None.
Proof. intros Hc. unfold Http.strrchr. by rewrite memchr_none by (by rewrite elem_of_reverse). Qed.

Lemma cstr_app a b : 0 ∉ a -> cstr (a ++ b) = a ++ cstr b.
Proof.
  induction a as [|c a IH]; intros Ha; [done|]. apply not_elem_of_cons in Ha as [Hc Ha]. cbn [app cstr].
  destruct (Z.eqb_spec c 0); [by subst|]. by rewrite IH.
Qed.
Lemma cstr_id a : 0 ∉ a -> cstr a = a.
Proof. intros Ha. rewrite <- (app_nil_r a) at 1. by rewrite cstr_app, app_nil_r. Qed.
Lemma cstr_terminated a : 0 ∉ a -> span_string (terminated a) = a.
Proof. intros Ha. unfold span_string, terminated. cbn. by rewrite cstr_app, app_nil_r. Qed.
Lemma span_bytes_terminated b : span_bytes (terminated b) = Some b.
Proof.
  unfold span_bytes, terminated. cbn [span_mem span_len]. rewrite mem_read_region by (rewrite ?length_app; cbn; lia).
  unfold region. change (Z.to_nat 0) with 0%nat. by rewrite drop_0, Nat2Z.id, take_app_length.
Qed.

(** ** Percent encoding *)
Definition hex_digit (d : Z) : Z := if d <? 10 then 48 + d else 65 + d - 10.
(** Letters and digits as they are, a space as a plus, the rest escaped. *)
Definition unreserved (c : Z) : bool := Parse.isdigit c || ((65 <=? c) && (c <=? 90)) || ((97 <=? c) && (c <=? 122)).
Definition encode_byte (c : Z) : bytes :=
  if unreserved c then [c] else if c =? 32 then [43] else [37; hex_digit (c / 16); hex_digit (c mod 16)].
Definition encode_uri (s : bytes) : bytes := concat (map encode_byte s).

Lemma hex_digit_ok d : 0 <= d < 16 -> Decode.hex (hex_digit d) = d.
Proof.
  intros Hd. unfold hex_digit, Decode.hex. destruct (Z.ltb_spec d 10).
  - rewrite (proj2 (Z.leb_le 48 _)), (proj2 (Z.leb_le (48 + d) _)) by lia. cbn [andb]. lia.
  - rewrite (proj2 (Z.leb_gt (65 + d - 10) 57)), andb_false_r, (proj2 (Z.leb_gt 97 _)) by lia. cbn [andb]. lia.
Qed.
Lemma decode_byte c t : is_byte c -> Decode.uri_bytes (encode_byte c ++ t) = c :: Decode.uri_bytes t.
Proof.
  intros Hc. unfold is_byte in Hc. unfold encode_byte. destruct (unreserved c) eqn:E.
  - cbn [app]. assert (c <> 0 /\ c <> 43 /\ c <> 37) as (?&?&?) by (unfold unreserved, Parse.isdigit in E; lia).
    cbn. repeat case_match; try done; lia.
  - destruct (Z.eqb_spec c 32) as [->|]; [done|]. cbn [app Decode.uri_bytes].
    pose proof (Z.div_mod c 16 ltac:(lia)). pose proof (Z.mod_pos_bound c 16 ltac:(lia)).
    assert (0 <= c / 16 < 16) by (split; [apply Z.div_pos; lia|apply Z.div_lt_upper_bound; lia]).
    rewrite !hex_digit_ok by done. f_equal. rewrite Z.shiftl_mul_pow2 by lia.
    change 15 with (Z.ones 4). rewrite Z.land_ones, (Z.mod_small (c mod 16)) by lia. rewrite wrap_small by lia. lia.
Qed.
Lemma decode_encode s : Forall is_byte s -> Decode.uri_bytes (encode_uri s) = s.
Proof.
  induction 1 as [|c s Hc _ IH]; [done|]. unfold encode_uri. cbn [map concat]. rewrite decode_byte by done. f_equal. exact IH.
Qed.

(** What an encoding consists of. *)
Definition plain (c : Z) : bool := unreserved c || (c =? 37) || (c =? 43) || (c =? 45) || (c =? 61) || (c =? 38) || (c =? 47).
Lemma plain_hex d : 0 <= d < 16 -> plain (hex_digit d) = true.
Proof. intros Hd. unfold hex_digit, plain, unreserved, Parse.isdigit. case_match; lia. Qed.
Lemma encode_plain s : Forall is_byte s -> Forall (fun c => plain c = true /\ c <> 38) (encode_uri s).
Proof.
  induction 1 as [|c s Hc _ IH]; [by apply Forall_nil|]. unfold encode_uri. cbn [map concat]. apply Forall_app. split; [|exact IH].
  unfold encode_byte. destruct (unreserved c) eqn:E; [|destruct (c =? 32)].
  - apply Forall_singleton. unfold plain. rewrite E. split; [done|]. unfold unreserved, Parse.isdigit in E. lia.
  - by apply Forall_singleton.
  - unfold is_byte in Hc. pose proof (Z.div_mod c 16 ltac:(lia)). pose proof (Z.mod_pos_bound c 16 ltac:(lia)).
    assert (0 <= c / 16 < 16) by (split; [apply Z.div_pos; lia|apply Z.div_lt_upper_bound; lia]).
    repeat (apply Forall_cons; split); [done| | |by apply Forall_nil]; (split; [by apply plain_hex|]);
      unfold hex_digit; case_match; lia.
Qed.

(** ** Numbers *)
Lemma decimal_loop_digits fuel : forall n acc k, 0 <= n < 10 ^ Z.of_nat (S k) -> (length (Parse.decimal_loop fuel n acc) <= length acc + S k)%nat.
Proof.
  induction fuel as [|f IH]; intros n acc k Hn; cbn [Parse.decimal_loop]; [lia|].
  destruct (Z.ltb_spec n 10); [cbn; lia|]. destruct k as [|k]; [change (10 ^ Z.of_nat 1) with 10 in Hn; lia|].
  assert (0 <= n / 10 < 10 ^ Z.of_nat (S k)) as Hd.
  { split; [apply Z.div_pos; lia|]. apply Z.div_lt_upper_bound; [lia|]. rewrite <- Z.pow_succ_r by lia. rewrite <- Nat2Z.inj_succ. lia. }
  etrans; [by apply (IH _ _ k)|]. cbn [length]. lia.
Qed.
Lemma decimal_length n k : 0 <= n < 10 ^ Z.of_nat (S k) -> (length (Parse.decimal n) <= S k)%nat.
Proof. intros Hn. unfold Parse.decimal. by apply (decimal_loop_digits _ n [] k). Qed.
Lemma decimal_length32 n : 0 <= n < 2 ^ 32 -> (length (Parse.decimal n) <= 10)%nat.
Proof. intros Hn. apply decimal_length. lia. Qed.
Lemma decimal_length64 n : 0 <= n < 2 ^ 64 -> (length (Parse.decimal n) <= 20)%nat.
Proof. intros Hn. apply decimal_length. lia. Qed.

Lemma unsigned_text w n : 0 < w <= 64 -> 0 <= n < 2 ^ w ->
  Parse.safe_to false w (Some (Parse.decimal n ++ [0])) (Z.of_nat (length (Parse.decimal n))) = Some (Some n).
Proof.
  intros Hw Hn. assert (2 ^ w <= 2 ^ 64) by (apply Z.pow_le_mono_r; lia). pose proof (decimal_length64 n ltac:(lia)).
  apply (safe_to_decimal false w [] NoSign n [0]); [lia|by apply Forall_nil|done|exact Hn|cbn [app sign_bytes length]; lia].
Qed.
Lemma signed_text n : - 2 ^ 63 < n < 2 ^ 63 ->
  Parse.safe_toi64 (Some (Mgr.print_i64 n ++ [0])) (Z.of_nat (length (Mgr.print_i64 n))) = Some (Some n).
Proof.
  intros Hn. unfold Mgr.print_i64, Parse.safe_toi64. destruct (Z.ltb_spec n 0).
  - pose proof (decimal_length64 (- n) ltac:(lia)). replace n with (- - n) at 3 by lia.
    apply (safe_to_decimal true 64 [] Minus (- n) [0]); [lia|by apply Forall_nil|done|unfold limit; lia|cbn [app sign_bytes length]; lia].
  - pose proof (decimal_length64 n ltac:(lia)).
    apply (safe_to_decimal true 64 [] NoSign n [0]); [lia|by apply Forall_nil|done|unfold limit; lia|cbn [app sign_bytes length]; lia].
Qed.
Lemma decimal_plain n : 0 <= n -> Forall (fun c => plain c = true /\ c <> 38) (Parse.decimal n).
Proof.
  intros Hn. destruct (decimal_spec n Hn) as (Hd&_&_). eapply Forall_impl; [exact Hd|]. cbn. intros c Hc.
  unfold plain, unreserved. rewrite Hc. split; [done|]. intros ->. done.
Qed.
Lemma print_i64_plain n : Forall (fun c => plain c = true /\ c <> 38) (Mgr.print_i64 n).
Proof.
  unfold Mgr.print_i64. destruct (Z.ltb_spec n 0); [|apply decimal_plain; lia]. apply Forall_cons. split; [done|]. apply decimal_plain. lia.
Qed.

(** ** The arguments of a request *)
Inductive web_arg :=
  | Arg_group (n : Z) | Arg_watch (n : Z) | Arg_flags (n : Z) | Arg_cache_id (n : Z) | Arg_delta (n : Z) | Arg_expiration (n : Z)
  | Arg_ack (n : Z) | Arg_interval (n : Z) | Arg_timeout (n : Z) | Arg_sub_op (n : Z)
  | Arg_key (b : bytes) | Arg_value (b : bytes).
Definition arg_wf (a : web_arg) : Prop :=
  match a with
  | Arg_cache_id n => 0 <= n < 2 ^ 64
  | Arg_delta n => - 2 ^ 63 < n < 2 ^ 63
  | Arg_key b | Arg_value b => Forall is_byte b
  | Arg_group n | Arg_watch n | Arg_flags n | Arg_expiration n | Arg_ack n | Arg_interval n | Arg_timeout n | Arg_sub_op n => 0 <= n < 2 ^ 32
  end.
Definition arg_letter (a : web_arg) : Z :=
  match a with
  | Arg_group _ => 103 | Arg_watch _ => 119 | Arg_flags _ => 102 | Arg_cache_id _ => 99 | Arg_delta _ => 100 | Arg_expiration _ => 101
  | Arg_ack _ => 97 | Arg_interval _ => 105 | Arg_timeout _ => 116 | Arg_sub_op _ => 115 | Arg_key _ => 107 | Arg_value _ => 118
  end.
Definition arg_text (a : web_arg) : bytes :=
  match a with
  | Arg_delta n => Mgr.print_i64 n
  | Arg_key b | Arg_value b => encode_uri b
  | Arg_group n | Arg_watch n | Arg_flags n | Arg_cache_id n | Arg_expiration n | Arg_ack n | Arg_interval n | Arg_timeout n | Arg_sub_op n =>
      Parse.decimal n
  end.
(** What it is for. *)
Definition arg_set (a : web_arg) (p : Peer_Http) : Peer_Http :=
  match a with
  | Arg_group n => p <| group_id_ := n |> | Arg_watch n => p <| watch_id_ := n |> | Arg_flags n => p <| flags_ := n |>
  | Arg_cache_id n => p <| cache_id_ := n |> | Arg_delta n => p <| delta_ := n |>
  | Arg_expiration n => p <| touch_flag_ := true |> <| expiration_ := n |> | Arg_ack n => p <| ack_sequence_ := n |>
  | Arg_interval n => p <| interval_ := n |> | Arg_timeout n => p <| timeout_ := n |> | Arg_sub_op n => p <| sub_op_ := n |>
  | Arg_key b => p <| key_ := terminated b |> | Arg_value b => p <| value_ := terminated b |>
  end.
Definition print_arg (a : web_arg) : bytes := arg_letter a :: 61 :: arg_text a.
Fixpoint print_args (l : list web_arg) : bytes :=
  match l with
  | [] => []
  | [a] => print_arg a
  | a :: l => print_arg a ++ 38 :: print_args l
  end.
Definition args_set (l : list web_arg) (p : Peer_Http) : Peer_Http := foldl (fun p a => arg_set a p) p l.

Lemma arg_plain a : arg_wf a -> Forall (fun c => plain c = true /\ c <> 38) (print_arg a).
Proof.
  intros Ha. unfold print_arg. apply Forall_cons. split; [by destruct a|]. apply Forall_cons. split; [done|].
  destruct a; cbn in Ha |- *; try (apply decimal_plain; lia); [apply print_i64_plain|by apply encode_plain..].
Qed.
Lemma args_plain l : Forall arg_wf l -> Forall (fun c => plain c = true) (print_args l).
Proof.
  assert (forall a, arg_wf a -> Forall (fun c => plain c = true) (print_arg a)) as Ha.
  { intros a Ha. eapply Forall_impl; [by apply arg_plain|]. by intros c []. }
  induction 1 as [|a l Hw Hl IH]; [by apply Forall_nil|]. destruct l as [|b l]; [by apply Ha|].
  cbn [print_args]. apply Forall_app. split; [by apply Ha|]. apply Forall_cons. by split.
Qed.

Lemma args_length l : (length l <= length (print_args l))%nat.
Proof.
  induction l as [|x l IH]; [done|]. destruct l as [|y l]; [cbn; lia|].
  change (print_args (x :: y :: l)) with (print_arg x ++ 38 :: print_args (y :: l)). rewrite length_app. unfold print_arg. cbn [length] in IH |- *. lia.
Qed.

Section parse.
Context (e : endian) `{Table_Malloc} `{Item_Malloc} `{Buffer_Malloc} `{Block_Malloc} `{Web_Files} `{Zlib}.
Context (alive : sink -> bool) (web : Settings) (self : sink) (unassigned : Z).
Context (blocks : forall n, malloc_block n = true).
Implicit Types (n : web_node).

(** While there is memory, [prepare] only moves on in [request_buf_]. *)
Definition with_pieces (b : Cache_Buffer.buffer) n : web_node := n <| http ::= fun p => p <| request_buf_ := b |> |>.
Lemma prepare_ok size n : exists b, Http.prepare size n = Some (true, with_pieces b n).
Proof.
  unfold Http.prepare. set (r := Cache_Buffer.prepare _ _ _ _). exists r.2.
  assert (exists p, r.1 = Some p) as [p ->]; [|done]. unfold r, Cache_Buffer.prepare. rewrite blocks. repeat case_match; cbn; eauto.
Qed.
Lemma web_prepare size n Q : (forall b, Q true (with_pieces b n)) -> wp (Http.prepare size) n Q.
Proof. intros HQ. destruct (prepare_ok size n) as [b E]. unfold wp. rewrite E. apply HQ. Qed.
Lemma wp_must_prepare size n Q : (forall b, Q tt (with_pieces b n)) -> wp (Http.must_prepare size) n Q.
Proof. intros HQ. apply wp_bind, web_prepare. intros b. by apply wp_assert. Qed.

Lemma with_pieces_twice b c n : with_pieces b (with_pieces c n) = with_pieces b n.
Proof. done. Qed.

(** An argument sets what it names. *)
Lemma wp_put_number parse text put x n Q :
  parse (Some (span_mem text)) (span_len text) = Some (Some x) -> Q true (n <| http ::= put x |>) -> wp (Http.put_number parse text put) n Q.
Proof. intros Hp HQ. apply wp_bind. eapply wp_the; [exact Hp|]. apply wp_bind, wp_modify, wp_ret, HQ. Qed.
Lemma request_arg_ok a n : arg_wf a ->
  wp (Http.request_arg (print_arg a)) n (fun ok n' => ok = true /\ exists b, n' = with_pieces b (n <| http ::= arg_set a |>)).
Proof.
  intros Ha. unfold Http.request_arg, print_arg. set (Q := fun ok n' => _).
  assert (forall (m : ST web_node bool) x, Q true (x : web_node) -> wp m n (fun ok n' => ok = true /\ n' = x) ->
    wp (ok ← m; if ok : bool then mret true else Http.write_error XIXI_REASON_INVALID_PARAMETER;; mret false) n Q) as Hnum.
  { intros m x HQ Hm. apply wp_bind. eapply wp_mono; [exact Hm|]. intros ok n' [-> ->]. by apply wp_ret. }
  assert (forall f, (forall b, Q true (with_pieces b (n <| http ::= f |>))) -> Q true (n <| http ::= f |>)) as Hpieces.
  { intros f Hf. specialize (Hf (request_buf_ (f (http n)))). unfold with_pieces in Hf. cbn in Hf.
    replace (n <| http ::= f |>) with (n <| http ::= f |> <| http ::= fun p => p <| request_buf_ := request_buf_ (f (http n)) |> |>); [done|].
    destruct n as [h c s r w]. unfold set. cbn. f_equal. by destruct (f h). }
  assert (forall b, Q true (with_pieces b (n <| http ::= arg_set a |>))) as HQ by (intros b; split; [done|by exists b]).
  destruct a; cbn [arg_letter arg_text Z.eqb Pos.eqb arg_wf] in *;
    try (eapply Hnum; [apply Hpieces, HQ|]; unfold Http.number_arg; cbn [Z.eqb Pos.eqb];
         try (apply wp_bind, wp_modify);
         eapply wp_put_number; [first [by apply signed_text|by apply unsigned_text]|by split]).
  all: apply wp_bind; unfold Http.decode_uri; apply wp_bind, web_prepare; intros c; apply wp_ret;
    rewrite decode_encode by done; apply wp_bind, wp_modify, wp_ret; split; [done|by exists c].
Qed.

Lemma args_set_pieces l : forall p b, args_set l (p <| request_buf_ := b |>) = (args_set l p) <| request_buf_ := b |>.
Proof. induction l as [|x l IH]; intros p b; [done|]. unfold args_set in *. cbn [foldl]. rewrite <- IH. f_equal. by destruct x, p. Qed.
Lemma with_pieces_args l b n : (with_pieces b n) <| http ::= args_set l |> = with_pieces b (n <| http ::= args_set l |>).
Proof. destruct n as [h s k r w]. unfold with_pieces. change (mk_web_node (args_set l (h <| request_buf_ := b |>)) s k r w =
  mk_web_node ((args_set l h) <| request_buf_ := b |>) s k r w). by rewrite args_set_pieces. Qed.

(** The arguments of a request come back from their text, each in its member. *)
Lemma request_args_ok l : forall fuel n, Forall arg_wf l -> (length l < fuel)%nat ->
  wp (Http.request_args fuel (print_args l)) n (fun ok n' => ok = true /\ exists b, n' = with_pieces b (n <| http ::= args_set l |>)).
Proof.
  induction l as [|a l IH]; intros fuel n Hl Hf; (destruct fuel as [|fuel]; [cbn in Hf; lia|]); cbn [Http.request_args].
  { apply wp_ret. split; [done|]. exists (request_buf_ (http n)). by destruct n as [[]]. }
  apply Forall_cons in Hl as [Ha Hl].
  assert (exists rest, Decode.get_arg (print_args (a :: l)) = Some (print_arg a, rest) /\ rest = print_args l) as (rest&->&->).
  { pose proof (arg_plain a Ha) as Hp. assert (38 ∉ print_arg a) as H38 by (intros [_ ?]%(proj1 (Forall_forall _ _) Hp); done).
    unfold Decode.get_arg. destruct l as [|a' l].
    - cbn [print_args]. rewrite memchr_none by done. by exists [].
    - cbn [print_args]. rewrite memchr_skip by done. eexists. rewrite take_app_length. split; [done|].
      rewrite <- (Nat.add_1_r (length _)), <- drop_drop. by rewrite drop_app_length. }
  apply wp_bind. eapply wp_mono; [by apply request_arg_ok|]. intros ok n1 [-> [b ->]].
  eapply wp_mono; [apply IH; [done|cbn in Hf; lia]|]. intros ok n' [-> [c ->]]. split; [done|]. exists c.
  rewrite with_pieces_args. done.
Qed.

(** ** The header lines *)
Inductive web_header := If_none_match (tag : bytes) | Accept_encoding (v : bytes) | Any_header (name v : bytes).
Definition header_name (h : web_header) : bytes :=
  match h with If_none_match _ => Stats.literal "If-None-Match" | Accept_encoding _ => Stats.literal "Accept-Encoding" | Any_header name _ => name end.
Definition header_value (h : web_header) : bytes := match h with If_none_match v | Accept_encoding v | Any_header _ v => v end.
(** The names, in any case, that [handle_request_header_field] knows beside
    [Connection]: those of a body and the two that have a constructor. *)
Definition own_names : list string := ["content-type"; "content-length"; "if-none-match"; "Accept-Encoding"]%string.
(** A name and a value that keep to their line; any other header has none of those
    names. *)
Definition header_wf (h : web_header) : Prop :=
  58 ∉ header_name h /\ 13 ∉ header_name h /\ 13 ∉ header_value h /\ 10 ∉ header_value h /\ head (header_value h) <> Some 32 /\
  Z.of_nat (length (header_value h)) < 2 ^ 32 - 1 /\
  match h with Any_header name _ => Forall (fun t => Http.same_text name t = false) own_names | _ => True end.
Definition keeps_alive (name v : bytes) : bool :=
  Http.same_text name "Connection" && ((10 <=? length v)%nat && (Str.strcasecmp (take 10 v) (Stats.literal "Keep-Alive") =? 0)).
Definition header_set (h : web_header) (r : Http_Request) : Http_Request :=
  match h with
  | If_none_match v => r <| entity_tag := v |>
  | Accept_encoding v => r <| accept_gzip := bool_decide (is_Some (Str.memfind v (Stats.literal "gzip"))) |>
  | Any_header name v => if keeps_alive name v then r <| keepalive := true |> else r
  end.
Definition headers_set (hs : list web_header) (r : Http_Request) : Http_Request := foldl (fun r h => header_set h r) r hs.
Definition print_header (h : web_header) : bytes := header_name h ++ 58 :: 32 :: header_value h.
Fixpoint print_headers (hs : list web_header) : bytes :=
  match hs with
  | [] => []
  | [h] => print_header h
  | h :: hs => print_header h ++ crlf ++ print_headers hs
  end.

Definition requested (f : Http_Request -> Http_Request) n : web_node := n <| http ::= fun p => p <| http_request_ ::= f |> |>.

Lemma header_handled h n : header_wf h ->
  wp (Http.handle_request_header_field (header_name h) (header_value h)) n (fun ok n' =>
    ok = true /\ exists b, n' = with_pieces b (requested (header_set h) n)).
Proof.
  assert (forall f, exists b, requested f n = with_pieces b (requested f n)) as Hp.
  { intros f. exists (request_buf_ (http n)). destruct n as [[]]; done. }
  intros (_&_&_&_&_&Hl&Hn). unfold Http.handle_request_header_field. destruct h as [tag|v|name v]; cbn [header_name header_value] in *.
  - change (Http.same_text (Stats.literal "If-None-Match") "Connection") with false. change (Http.same_text (Stats.literal "If-None-Match") "content-type") with false.
    change (Http.same_text (Stats.literal "If-None-Match") "if-none-match") with true. cbv beta iota.
    apply wp_bind. unfold Http.copy_value. apply web_prepare. intros b. apply wp_bind, wp_modify, wp_ret. split; [done|]. by exists b.
  - change (Http.same_text (Stats.literal "Accept-Encoding") "Connection") with false. change (Http.same_text (Stats.literal "Accept-Encoding") "content-type") with false.
    change (Http.same_text (Stats.literal "Accept-Encoding") "if-none-match") with false. change (Http.same_text (Stats.literal "Accept-Encoding") "content-length") with false.
    change (Http.same_text (Stats.literal "Accept-Encoding") "Accept-Encoding") with true. cbv beta iota.
    apply wp_bind, wp_modify, wp_ret. split; [done|]. apply (Hp (header_set (Accept_encoding v))).
  - assert (exists b, n = with_pieces b (requested id n)) as Hid by (exists (request_buf_ (http n)); by destruct n as [[]]).
    unfold header_set, keeps_alive. destruct (Http.same_text name "Connection"); cbn [andb].
    { apply wp_bind. destruct (_ && _); [apply wp_modify, wp_ret|apply wp_ret, wp_ret]; (split; [done|]); [apply Hp|exact Hid]. }
    do 4 (apply Forall_cons in Hn as [Hne Hn]; rewrite Hne; clear Hne).
    apply wp_ret. split; [done|exact Hid].
Qed.

Lemma skip_blanks_id v : head v <> Some 32 -> Http.skip_blanks v = v.
Proof. destruct v as [|c v]; [done|]. intros Hc. cbn in *. repeat (case_match; try done). Qed.
Lemma skip_blanks_app v t : head v <> Some 32 -> head t <> Some 32 -> Http.skip_blanks (v ++ t) = v ++ t.
Proof. intros Hv Ht. apply skip_blanks_id. by destruct v. Qed.

Lemma requested_pieces f b n : requested f (with_pieces b n) = with_pieces b (requested f n).
Proof. by destruct n as [[]]. Qed.
Lemma header_fields_ok hs : forall fuel n, Forall header_wf hs -> (length hs < fuel)%nat ->
  wp (Http.header_fields fuel (print_headers hs)) n (fun ok n' =>
    ok = true /\ exists b, n' = with_pieces b (requested (headers_set hs) n)).
Proof.
  induction hs as [|h hs IH]; intros fuel n Hw Hf; (destruct fuel as [|fuel]; [cbn in Hf; lia|]); cbn [Http.header_fields].
  { apply wp_ret. split; [done|]. exists (request_buf_ (http n)). by destruct n as [[]]. }
  apply Forall_cons in Hw as [Hh Hw]. pose proof Hh as (H58&_&H13&H10&Hb&_).
  assert (forall t, head t <> Some 32 -> memchr 58 (print_header h ++ t) = Some (length (header_name h)) /\
    take (length (header_name h)) (print_header h ++ t) = header_name h /\
    Http.skip_blanks (drop (S (length (header_name h))) (print_header h ++ t)) = header_value h ++ t) as Hparts.
  { intros t Ht. unfold print_header. rewrite <- (assoc_L (++)). cbn [app]. rewrite memchr_skip, take_app_length by done. split_and!; [done..|].
    rewrite <- (Nat.add_1_r (length _)), <- drop_drop, drop_app_length. change (drop 1 ?x) with (tail x). cbn [tail Http.skip_blanks].
    by apply skip_blanks_app. }
  destruct hs as [|h' hs].
  - cbn [print_headers]. specialize (Hparts [] ltac:(done)). rewrite app_nil_r in Hparts. destruct Hparts as (->&->&->).
    rewrite app_nil_r, memchr_none by done. by apply header_handled.
  - set (t := print_headers (h' :: hs)) in *. change (print_headers (h :: h' :: hs)) with (print_header h ++ crlf ++ t).
    destruct (Hparts (crlf ++ t) ltac:(done)) as (->&->&->).
    change (header_value h ++ crlf ++ t) with (header_value h ++ [13] ++ 10 :: t). rewrite (assoc_L (++)), memchr_skip by set_solver.
    replace (length (header_value h ++ [13])) with (S (length (header_value h))) by (rewrite length_app; cbn; lia).
    replace (S (length (header_value h)) - 1)%nat with (length (header_value h)) by lia.
    rewrite bool_decide_eq_true_2 by (rewrite <- (assoc_L (++)), lookup_app_r, Nat.sub_diag; done). cbn [andb Nat.ltb Nat.leb].
    rewrite <- (assoc_L (++)), take_app_length. apply wp_bind. eapply wp_mono; [by apply header_handled|]. intros ok n1 [-> [b ->]].
    replace (drop _ _) with t.
    2:{ rewrite (assoc_L (++)), <- (Nat.add_1_r (S _)), <- drop_drop. rewrite drop_app_length' by (rewrite length_app; cbn; lia). done. }
    eapply wp_mono; [apply IH; [done|cbn in Hf |- *; lia]|]. intros ok n' [-> [c ->]]. split; [done|]. exists c.
    rewrite requested_pieces. by destruct n as [[]].
Qed.

(** ** The request *)
Inductive web_command :=
  | Cmd_get | Cmd_set | Cmd_add | Cmd_del | Cmd_incr | Cmd_decr | Cmd_flush | Cmd_touch | Cmd_flags | Cmd_stats
  | Cmd_append | Cmd_replace | Cmd_prepend | Cmd_getbase | Cmd_createwatch.
Definition command_text (c : web_command) : bytes :=
  Stats.literal
  match c with
  | Cmd_get => "get" | Cmd_set => "set" | Cmd_add => "add" | Cmd_del => "del" | Cmd_incr => "incr" | Cmd_decr => "decr"
  | Cmd_flush => "flush" | Cmd_touch => "touch" | Cmd_flags => "flags" | Cmd_stats => "stats" | Cmd_append => "append"
  | Cmd_replace => "replace" | Cmd_prepend => "prepend" | Cmd_getbase => "getbase" | Cmd_createwatch => "createwatch"
  end.
Definition handler (c : web_command) : W unit :=
  match c with
  | Cmd_get => Http.process_get e alive web self unassigned
  | Cmd_set => Http.process_update e alive self unassigned 0
  | Cmd_add => Http.process_update e alive self unassigned 1
  | Cmd_replace => Http.process_update e alive self unassigned 2
  | Cmd_append => Http.process_update e alive self unassigned 3
  | Cmd_prepend => Http.process_update e alive self unassigned 4
  | Cmd_del => Http.process_delete e alive self
  | Cmd_incr => Http.process_delta e alive self true
  | Cmd_decr => Http.process_delta e alive self false
  | Cmd_flush => Http.process_flush alive self
  | Cmd_touch => Http.process_touch e self
  | Cmd_flags => Http.process_update_flags e alive self
  | Cmd_stats => Http.process_stats web self unassigned
  | Cmd_getbase => Http.process_get_base e alive web self unassigned
  | Cmd_createwatch => Http.process_create_watch self
  end.
Definition command_uri (c : web_command) (args : list web_arg) : bytes :=
  manager_base_url web ++ command_text c ++ match args with [] => [] | _ => 63 :: print_args args end.
(** A manager url that a request line can hold and no query hides in. *)
Definition url_ok : Prop :=
  Forall (fun c => c ∉ [0; 10; 13; 32; 63]) (manager_base_url web) /\ Z.of_nat (length (manager_base_url web)) < 2 ^ 31.
Implicit Types (c : web_command) (args : list web_arg).

Lemma run_command_text c rest : Http.run_command e alive web self unassigned (Z.of_nat (length (command_text c))) (command_text c ++ rest) = handler c.
Proof. by destruct c. Qed.
Lemma command_plain c : Forall (fun x => plain x = true) (command_text c).
Proof. destruct c; apply (bool_decide_unpack _); by vm_compute. Qed.
Lemma plain_ok x : plain x = true -> x ∉ [0; 10; 13; 32; 63].
Proof. intros Hp Hx. repeat (apply elem_of_cons in Hx as [->|Hx]; [by vm_compute in Hp|]). by apply elem_of_nil in Hx. Qed.
Lemma uri_ok c args : url_ok -> Forall arg_wf args -> Forall (fun x => x ∉ [0; 10; 13; 32]) (command_uri c args).
Proof.
  intros [Hb _] Ha. assert (forall x, x ∉ [0; 10; 13; 32; 63] -> x ∉ [0; 10; 13; 32]) as Hsub by (intros; set_solver).
  assert (forall l, Forall (fun x => plain x = true) l -> Forall (fun x => x ∉ [0; 10; 13; 32]) l) as Hp.
  { intros l Hl. eapply Forall_impl; [exact Hl|]. intros x Hx. by apply Hsub, plain_ok. }
  unfold command_uri. apply Forall_app. split; [eapply Forall_impl; [exact Hb|exact Hsub]|].
  apply Forall_app. split; [apply Hp, command_plain|]. destruct args as [|a args]; [by apply Forall_nil|].
  apply Forall_cons. split; [set_solver|]. by apply Hp, args_plain.
Qed.

(** The handler of a command runs with the members its arguments name. *)
Lemma process_command_ok c args n Q :
  url_ok -> Forall arg_wf args -> method (http_request_ (http n)) <> HEAD_METHOD -> uri (http_request_ (http n)) = command_uri c args ->
  (forall b, wp (handler c) (with_pieces b (n <| http ::= args_set args |>)) Q) ->
  wp (Http.process_command e alive web self unassigned) n Q.
Proof.
  intros Hu Ha Hm Huri HQ. pose proof (uri_ok c args Hu Ha) as Hok. destruct Hu as [Hb Hl].
  assert (0 ∉ command_uri c args) as Hz by (intros Hi; eapply Forall_forall in Hok; [|exact Hi]; set_solver).
  unfold Http.process_command. apply wp_bind, wp_gets. rewrite Huri, (cstr_id _ Hz).
  destruct (Z.eqb_spec (method (http_request_ (http n))) HEAD_METHOD) as [|_]; [done|]. cbn [negb andb].
  assert (forall t, bool_decide (take (length (manager_base_url web)) (manager_base_url web ++ t) = manager_base_url web) = true) as Ht.
  { intros t. by apply bool_decide_eq_true_2, take_app_length. }
  unfold command_uri at 1 2. rewrite Ht, length_app, (proj2 (Z.geb_le _ _)) by lia. cbn [andb].
  assert (63 ∉ manager_base_url web) as Hbq by (intros Hi; eapply Forall_forall in Hb; [|exact Hi]; set_solver).
  assert (63 ∉ command_text c) as Hcq by (intros Hi; pose proof (command_plain c) as Hp; eapply Forall_forall in Hp; [|exact Hi]; done).
  assert (Z.of_nat (length (command_text c)) <= 11) as Hlc by (by destruct c; vm_compute).
  destruct args as [|a args].
  - unfold command_uri. rewrite app_nil_r, strrchr_none by (by rewrite not_elem_of_app). rewrite drop_app_length, length_app.
    replace (u32 _) with (Z.of_nat (length (command_text c))) by (rewrite wrap_small; lia).
    rewrite <- (app_nil_r (command_text c)) at 2. rewrite run_command_text.
    specialize (HQ (request_buf_ (http n))). by destruct n as [[]].
  - assert (63 ∉ print_args (a :: args)) as Haq.
    { intros Hi. pose proof (args_plain _ Ha) as Hp. eapply Forall_forall in Hp; [|exact Hi]. done. }
    unfold command_uri. rewrite (assoc_L (++)), strrchr_last by done.
    rewrite <- (Nat.add_1_r (length (_ ++ command_text c))), <- (drop_drop _ 1), drop_app_length.
    change (drop 1 ?x) with (tail x). cbn [tail]. apply wp_bind. unfold Http.process_request_arg.
    eapply wp_mono; [apply request_args_ok; [done|]|].
    { pose proof (args_length (a :: args)). lia. }
    intros ok n1 [-> [b ->]]. rewrite length_app. replace (u32 _) with (Z.of_nat (length (command_text c))) by (rewrite wrap_small; lia).
    rewrite <- (assoc_L (++)), drop_app_length, run_command_text. apply HQ.
Qed.

(** ** The request line and the end of the header *)
Definition print_method (m : Z) : bytes := Stats.literal (if m =? HEAD_METHOD then "HEAD " else "GET ").
Definition request_line (m : Z) (target : bytes) : bytes := print_method m ++ target ++ 32 :: Stats.literal "HTTP/1.1".
Definition request_head (m : Z) (target : bytes) (hs : list web_header) : bytes :=
  request_line m target ++ match hs with [] => [] | _ => crlf ++ print_headers hs end.
Definition print_request (m : Z) (target : bytes) (hs : list web_header) : bytes := request_head m target hs ++ crlf ++ crlf.
(** What the connection knows of a request when its command runs. *)
Definition request_read (m : Z) (target : bytes) (hs : list web_header) (r : Http_Request) : Http_Request :=
  headers_set hs (r <| http_11 := true |> <| keepalive := true |> <| method := m |> <| uri := target |>).
Implicit Types (hs : list web_header) (target : bytes).

Lemma memfind_line l t x : 13 ∉ l -> x <> 13 ->
  Str.memfind (l ++ crlf ++ x :: t) (crlf ++ crlf) = (fun i => Z.of_nat (length l) + 2 + i) <$> Str.memfind (x :: t) (crlf ++ crlf).
Proof.
  intros Hl Hx. change (crlf ++ crlf) with [13; 10; 13; 10]. rewrite memfind_skip by done. unfold crlf. cbn [app].
  rewrite memfind_cons; [|done|].
  2:{ intros Hp. apply prefix_cons_inv_2, prefix_cons_inv_2, prefix_cons_inv_1 in Hp. done. }
  rewrite memfind_cons; [|done|by intros ?%prefix_cons_inv_1]. destruct (Str.memfind (x :: t) _); cbn; [f_equal; lia|done].
Qed.
Lemma memfind_end l rest : 13 ∉ l -> Str.memfind (l ++ crlf ++ crlf ++ rest) (crlf ++ crlf) = Some (Z.of_nat (length l)).
Proof.
  intros Hl. change (crlf ++ crlf) with [13; 10; 13; 10]. rewrite memfind_skip by done.
  rewrite memfind_here by (eexists; reflexivity). cbn. f_equal. lia.
Qed.
Lemma print_header_line h : header_wf h -> 13 ∉ print_header h /\ exists x t, print_header h = x :: t.
Proof.
  intros (_&Hn&Hv&_). unfold print_header. split; [set_solver|]. destruct (header_name h); eauto.
Qed.
Lemma headers_start hs : Forall header_wf hs -> hs <> [] -> exists x t, print_headers hs = x :: t /\ x <> 13.
Proof.
  intros Hw Hne. destruct hs as [|h hs]; [done|]. apply Forall_cons in Hw as [Hh _]. destruct (print_header_line h Hh) as [H13 (x&t&E)].
  assert (x <> 13) by (intros ->; rewrite E in H13; set_solver). destruct hs; cbn [print_headers]; rewrite E; cbn [app]; eauto.
Qed.
Lemma block_end hs rest : Forall header_wf hs -> hs <> [] ->
  Str.memfind (print_headers hs ++ crlf ++ crlf ++ rest) (crlf ++ crlf) = Some (Z.of_nat (length (print_headers hs))).
Proof.
  intros Hw Hne. induction Hw as [|h hs Hh Hw IH]; [done|]. destruct (print_header_line h Hh) as [H13 _].
  destruct hs as [|h' hs]; [by apply memfind_end|].
  specialize (IH ltac:(done)). change (print_headers (h :: h' :: hs)) with (print_header h ++ crlf ++ print_headers (h' :: hs)).
  destruct (headers_start (h' :: hs) Hw ltac:(done)) as (x&t&E&Hx). rewrite E in *. rewrite <- !(assoc_L (++)). cbn [app] in IH |- *.
  rewrite memfind_line, IH by done. cbn. f_equal. rewrite length_app. cbn. lia.
Qed.

Definition target_ok target : Prop := Forall (fun x => x ∉ [0; 10; 13; 32]) target.
Lemma request_line_line m target : target_ok target -> 13 ∉ request_line m target.
Proof.
  intros Ht Hi. unfold request_line in Hi. apply elem_of_app in Hi as [Hi|Hi].
  - unfold print_method in Hi. destruct (m =? HEAD_METHOD); vm_compute in Hi; set_solver.
  - apply elem_of_app in Hi as [Hi|Hi]; [eapply Forall_forall in Ht; [|exact Hi]; set_solver|]. vm_compute in Hi. set_solver.
Qed.
Lemma head_end m target hs rest : target_ok target -> Forall header_wf hs ->
  Str.memfind (print_request m target hs ++ rest) (crlf ++ crlf) = Some (Z.of_nat (length (request_head m target hs))).
Proof.
  intros Ht Hw. pose proof (request_line_line m target Ht) as H13. unfold print_request, request_head. destruct hs as [|h hs].
  - rewrite app_nil_r, <- !(assoc_L (++)). by apply memfind_end.
  - rewrite <- !(assoc_L (++)). pose proof (block_end (h :: hs) rest Hw ltac:(done)) as E.
    destruct (headers_start (h :: hs) Hw ltac:(done)) as (x&t&Ex&Hx). rewrite Ex in *. cbn [app] in E |- *.
    rewrite memfind_line, E by done. cbn. f_equal. rewrite length_app. cbn. lia.
Qed.
Lemma head_split m target hs : target_ok target -> Forall header_wf hs ->
  match Str.memfind (request_head m target hs) crlf with
  | Some i => (take (Z.to_nat i) (request_head m target hs), drop (Z.to_nat (i + 2)) (request_head m target hs))
  | None => (request_head m target hs, [])
  end = (request_line m target, print_headers hs).
Proof.
  intros Ht Hw. pose proof (request_line_line m target Ht) as H13. unfold request_head. destruct hs as [|h hs].
  - rewrite app_nil_r. unfold crlf. assert (Str.memfind (request_line m target) [13; 10] = None) as ->; [|done].
    rewrite <- (app_nil_r (request_line m target)). by rewrite memfind_skip.
  - change crlf with [13; 10]. rewrite memfind_skip by done. rewrite memfind_here by (eexists; reflexivity). cbn [fmap option_fmap option_map].
    rewrite Z.add_0_r, Nat2Z.id, take_app_length. f_equal. rewrite Z2Nat.inj_add, Nat2Z.id, <- drop_drop by lia.
    by rewrite drop_app_length.
Qed.

Lemma method_line m target : m = GET_METHOD \/ m = HEAD_METHOD -> target_ok target ->
  exists o, Http.method_of (request_line m target) = Some (m, o) /\
  match memchr 32 (drop o (request_line m target)) with Some i => take i (drop o (request_line m target)) | None => drop o (request_line m target) end = target.
Proof.
  intros Hm Ht. assert (32 ∉ target) as H32 by (intros Hi; eapply Forall_forall in Ht; [|exact Hi]; set_solver).
  exists (length (print_method m)). unfold request_line. rewrite drop_app_length, memchr_skip, take_app_length by done. split; [|done].
  by destruct Hm as [-> | ->].
Qed.
Lemma line_version m target : (6 <=? length (request_line m target))%nat = true /\
  drop (length (request_line m target) - 3) (request_line m target) = Stats.literal "1.1".
Proof.
  unfold request_line. rewrite !length_app. cbn [length]. set (a := print_method m). change (32 :: Stats.literal "HTTP/1.1") with (([32] ++ Stats.literal "HTTP/") ++ Stats.literal "1.1").
  rewrite !(assoc_L (++)). split; [apply Nat.leb_le; vm_compute (length (Stats.literal _)); lia|].
  rewrite drop_app_length'; [done|]. rewrite !length_app. vm_compute (length (Stats.literal _)). cbn [length]. lia.
Qed.

Lemma headers_length hs : (length hs <= length (print_headers hs))%nat.
Proof.
  induction hs as [|h hs IH]; [done|]. assert (1 <= length (print_header h))%nat by (unfold print_header; rewrite length_app; cbn; lia).
  destruct hs as [|h' hs]; [done|]. change (print_headers (h :: h' :: hs)) with (print_header h ++ crlf ++ print_headers (h' :: hs)).
  rewrite length_app, length_app. cbn [length] in *. lia.
Qed.
Lemma with_pieces_id n : n = with_pieces (request_buf_ (http n)) n.
Proof. by destruct n as [[]]. Qed.

(** A whole request is read at once, and its command runs. *)
Lemma web_try_read_ok m target hs rest n (Q : Z -> web_node -> Prop) :
  m = GET_METHOD \/ m = HEAD_METHOD -> target_ok target -> Forall header_wf hs ->
  (forall b, wp (Http.process_command e alive web self unassigned) (with_pieces b (requested (request_read m target hs) n))
     (fun _ n' => Q (Z.of_nat (length (print_request m target hs))) n')) ->
  wp (Http.try_read_command e alive web self unassigned (print_request m target hs ++ rest)) n Q.
Proof.
  intros Hm Ht Hw HQ. unfold Http.try_read_command. rewrite head_end by done. rewrite Nat2Z.id.
  assert (take (length (request_head m target hs)) (print_request m target hs ++ rest) = request_head m target hs) as ->.
  { unfold print_request. by rewrite <- (assoc_L (++)), take_app_length. }
  apply wp_bind. unfold Http.process_request_header. rewrite head_split by done. destruct (line_version m target) as [-> ->].
  rewrite decide_True by done. apply wp_bind. unfold Http.in_request, Http.in_http. apply wp_modify.
  destruct (method_line m target Hm Ht) as (o&->&->). apply wp_bind, wp_modify, wp_bind. unfold Http.process_request_header_fields.
  eapply wp_mono; [apply header_fields_ok; [done|]|].
  { pose proof (headers_length hs). lia. }
  intros ok n' [-> [b ->]]. cbn [negb]. apply wp_bind, wp_gets. assert (m =? POST_METHOD = false) as -> by (by destruct Hm as [-> | ->]).
  cbn [andb]. eapply wp_mono; [apply (HQ b)|]. intros [] n' Hn. apply wp_ret. unfold print_request in Hn. rewrite length_app in Hn.
  replace (_ + 4) with (Z.of_nat (length (request_head m target hs) + length (crlf ++ crlf))) by (cbn; lia). exact Hn.
Qed.
End parse.
