(* ===== verification/HttpServe.v ===== *)
(** * The requests of an HTTP connection, served

    From the bytes of a request in the receive buffer to the pages that are handed to
    the socket: a request is parsed, done as the reference does it, and its reply is
    rendered with the length of what follows. *)

From S2P Require Import Prelude XixiList XixiHashMap Lookup3 Util CurrTime Pdu Stats Watch Slab Cache CacheInv CacheSpec CacheOps CacheData CacheSweep CacheStore CacheRun Buffers Settings Peer PeerFacts PeerRun Http HttpParse.

#[local] Arguments Stats.literal : simpl never.
#[local] Arguments Parse.decimal : simpl never.
#[local] Arguments Texts.DEFAULT_RES_200 : simpl never.
#[local] Arguments Texts.GET_RES_200 : simpl never.
#[local] Arguments Texts.GET_RES_304 : simpl never.
#[local] Arguments Texts.error_text : simpl never.
#[local] Arguments Texts.DELETE_RES_200 : simpl never.

(** ** Pages *)

(** A response with a text of its own, its length in front. *)
Definition page (k : bool) (text : bytes) : bytes :=
  Texts.DEFAULT_RES_200 k ++ Parse.decimal (Z.of_nat (length text)) ++ crlf ++ crlf ++ text.
Definition watchid_text (id : Z) : bytes := Http.braces (Http.quoted "watchid" ++ Parse.decimal id).
Definition value_text (v id : Z) : bytes :=
  Http.braces (Http.quoted "value" ++ Mgr.print_i64 v ++ Http.comma ++ Http.quoted "cacheid" ++ Parse.decimal id).
Definition flush_text (count size : Z) : bytes :=
  Http.braces (Http.quoted "flushcount" ++ Parse.decimal count ++ Http.comma ++ Http.quoted "flushsize" ++ Parse.decimal size).

(** The numbers of a reply are of their types, and its text of a length that can be told. *)
Definition is_u32 (n : Z) : bool := (0 <=? n) && (n <? 2 ^ 32).
Definition is_u64 (n : Z) : bool := (0 <=? n) && (n <? 2 ^ 64).
Definition is_s64 (n : Z) : bool := (- 2 ^ 63 <? n) && (n <? 2 ^ 63).

(** The length of a text, with those of its literals. *)
Ltac text_length :=
  rewrite ?length_app;
  repeat match goal with
    | |- context [length (Stats.literal ?s)] => let l := eval vm_compute in (length (Stats.literal s)) in change (length (Stats.literal s)) with l
    | |- context [length (Http.quoted ?s)] => let l := eval vm_compute in (length (Http.quoted s)) in change (length (Http.quoted s)) with l
    end;
  change (length crlf) with 2%nat; change (length quote) with 1%nat; change (length Http.comma) with 1%nat; cbn [length].

Section serve.
Context (e : endian) `{Table_Malloc} `{Item_Malloc} `{!Item_Malloc_Ok} `{Buffer_Malloc} `{Block_Malloc} `{Web_Files} `{Zlib}.
Context (alive : sink -> bool) (web : Settings) (self : sink) (unassigned : Z).
Context (blocks : forall n, malloc_block n = true).
Implicit Types (n : web_node) (h : holds) (k : bool).

(** ** Calls and buffers *)
Definition stirred (t : list (Z * bool)) (b : bool) n : web_node := n <| http ::= fun p => p <| timer_ := t |> <| timer_flag_ := b |> |>.
Lemma notified_web p i : exists t b, Nat.iter i Http.on_cache_watch_notify p = p <| timer_ := t |> <| timer_flag_ := b |>.
Proof.
  induction i as [|i (t&b&IH)]; [exists (timer_ p), (timer_flag_ p); by destruct p|].
  rewrite Nat.iter_succ, IH. unfold Http.on_cache_watch_notify. destruct p, b; cbn; eauto.
Qed.
(** A call of the cache changes the cache, and may set off the timer. *)
Lemma wp_call {A} (m : M A) n (Q : A -> web_node -> Prop) :
  wp m (web_cache n) (fun a s => forall t b, Q a (stirred t b (n <| web_cache := s |>))) -> wp (Http.cache self m) n Q.
Proof.
  unfold wp, Http.cache. destruct (m (web_cache n)) as [[a s]|]; [|done]. intros HQ.
  set (i := length _). destruct (notified_web (http n) i) as (t&b&Hk). unfold set. cbn. rewrite Hk. apply HQ.
Qed.

Lemma fetch_piece n room text : Z.of_nat (length text) < room ->
  Http.fetch n (Piece (take (Z.to_nat (room - 1)) text ++ [0]) (Z.of_nat (length text))) = Some text.
Proof. intros Hr. rewrite firstn_all2 by lia. cbn. apply (span_bytes_terminated text). Qed.

Lemma gather_nil n : Http.gather n [] = Some [].
Proof. done. Qed.
Lemma gather_cons n b l x y : Http.fetch n b = Some x -> Http.gather n l = Some y -> Http.gather n (b :: l) = Some (x ++ y).
Proof. unfold Http.gather. intros Hb Hl. cbn [mapM]. rewrite Hb. cbn. destruct (mapM _ l); [|done]. cbn in Hl |- *. by injection Hl as <-. Qed.

Lemma gather_static n b : Http.gather n [Static b] = Some b.
Proof. unfold Http.gather. cbn. by rewrite app_nil_r. Qed.
(** The buffers of a response, one by one. *)
Ltac gather_all := repeat first [apply gather_nil | apply gather_cons; [first [by apply fetch_piece | reflexivity]|]].

(** What a request set that a handler relies on. *)
Definition arguments (p : Peer_Http) := (key_ p, value_ p, value_content_type_ p, (expiration_ p, touch_flag_ p)).
(** The buffers a handler adds to those that wait, and the response they hold. *)
Record answers (bufs : list web_buffer) n n' : Prop := {
  wr_state : state_ (http n') = PEER_STATUS_WRITE;
  wr_next : next_state_ (http n') = PEER_STATE_NEW_CMD;
  wr_buffer : read_buffer_ (http n') = read_buffer_ (http n);
  wr_request : http_request_ (http n') = http_request_ (http n);
  wr_socket : web_socket n' = web_socket n;
  wr_ops : op_count_ (http n') = op_count_ (http n);
  wr_arguments : arguments (http n') = arguments (http n);
  wr_bufs : write_buf_ (http n') = write_buf_ (http n) ++ bufs;
  wr_some : bufs <> []
}.
(** [fits] is what the code relies on for the sizes of its buffers. *)
Definition web_responds (fits : Prop) (resp : bytes) n n' : Prop := exists bufs, answers bufs n n' /\ (fits -> Http.gather n' bufs = Some resp).
(** One that does not depend on the items of the cache. *)
Definition web_writes (fits : Prop) (resp : bytes) n n' : Prop := exists bufs, answers bufs n n' /\ (fits -> forall n2, Http.gather n2 bufs = Some resp).
(** Parts of the peer that handlers of requests only read. *)
Record same_web n n' : Prop := {
  sm_request : http_request_ (http n') = http_request_ (http n);
  sm_buffer : read_buffer_ (http n') = read_buffer_ (http n);
  sm_socket : web_socket n' = web_socket n;
  sm_ops : op_count_ (http n') = op_count_ (http n);
  sm_write : write_buf_ (http n') = write_buf_ (http n);
  sm_arguments : arguments (http n') = arguments (http n)
}.
Lemma same_answers bufs n n1 n' : same_web n n1 -> answers bufs n1 n' -> answers bufs n n'.
Proof. intros [Hr Hb Hs Ho Hw Ha] [Hst Hnx Hb' Hr' Hs' Ho' Ha' Hw' Hn]. split; congruence. Qed.
Lemma same_writes fits resp n n1 n' : same_web n n1 -> web_writes fits resp n1 n' -> web_writes fits resp n n'.
Proof. intros Hs (bufs&Ha&Hg). exists bufs. eauto using same_answers. Qed.
Lemma writes_responds fits resp n n' : web_writes fits resp n n' -> web_responds fits resp n n'.
Proof. intros (bufs&Ha&Hg). exists bufs. split; [done|]. intros Hf. by apply Hg. Qed.
Definition keeps n : bool := keepalive (http_request_ (http n)).

(** A response, and the cache and the item of the peer as they were. *)
Definition renders (resp : bytes) (fits : Prop) n n' : Prop :=
  web_cache n' = web_cache n /\ cache_item_ (http n') = cache_item_ (http n) /\ web_writes fits resp n n'.
Lemma wp_snprintf room text n Q :
  (forall b, Q (Piece (take (Z.to_nat (room - 1)) text ++ [0]) (Z.of_nat (length text))) (with_pieces b n)) -> wp (Http.snprintf room text) n Q.
Proof. intros HQ. apply wp_bind, wp_must_prepare; [done|]. intros b. apply wp_ret, HQ. Qed.
Lemma respond_renders room hroom text n : 30 <= hroom -> room <= 2 ^ 31 ->
  wp (Http.respond room hroom text) n (fun _ => renders (page (keeps n) text) (Z.of_nat (length text) < room) n).
Proof.
  intros Hh Hr. unfold Http.respond. apply wp_bind, wp_snprintf. intros b. apply wp_bind, wp_snprintf. intros c.
  cbn [Http.buffer_size]. set (head := Parse.decimal _ ++ _).
  apply wp_bind, wp_gets, wp_bind, wp_modify, wp_bind, wp_modify, wp_bind, wp_modify, wp_bind, wp_modify, wp_modify.
  split_and!; [done..|]. eexists. split; [split; [done..|cbn; by rewrite <- !(assoc_L (++))|done]|]. intros Hl n2.
  assert (Z.of_nat (length head) < hroom) as Hlh.
  { unfold head. rewrite length_app. pose proof (decimal_length32 (Z.of_nat (length text)) ltac:(lia)).
    change (length (crlf ++ crlf)) with 4%nat. lia. }
  replace (page (keeps n) text) with (Texts.DEFAULT_RES_200 (keeps n) ++ head ++ text ++ []).
  - gather_all.
  - unfold page, head. by rewrite app_nil_r, <- !(assoc_L (++)).
Qed.
Lemma error_renders reason n : wp (Http.write_error reason) n (fun _ => renders (Texts.error_text reason (keeps n)) True n).
Proof.
  unfold Http.write_error. apply wp_bind, wp_gets, wp_bind, wp_modify, wp_bind, wp_modify, wp_modify. split_and!; [done..|].
  eexists. split; [by split|]. intros _ n2. apply gather_static.
Qed.
Lemma renders_weaken resp (fits fits' : Prop) n n' : (fits' -> fits) -> renders resp fits n n' -> renders resp fits' n n'.
Proof. intros Hf (Hs&Hi&bufs&Ha&Hg). split_and!; [done..|]. exists bufs. auto. Qed.

(** ** What a request asks the cache for, and how its reply reads *)
Definition the_bytes (t : span) : bytes := default [] (span_bytes t).
Definition span_ok (t : span) : Prop := is_Some (span_bytes t).
Definition the_place (p : Peer_Http) : key := (group_id_ p, the_bytes (key_ p)).
Definition put_of (sub_op : Z) (p : Peer_Http) : put_request :=
  mk_put sub_op (group_id_ p) (the_bytes (key_ p)) (the_bytes (value_ p)) (flags_ p) (expiration_ p) (cache_id_ p) (watch_id_ p) (value_content_type_ p).
Definition lookup_at (key : bytes) (is_base : bool) (p : Peer_Http) : request :=
  if touch_flag_ p then Get_touch (group_id_ p, key) (watch_id_ p) (expiration_ p) else Get (group_id_ p, key) (watch_id_ p) is_base.
Definition lookup_of (is_base : bool) (p : Peer_Http) : request := lookup_at (the_bytes (key_ p)) is_base p.
Definition web_request (c : web_command) (p : Peer_Http) : request :=
  match c with
  | Cmd_get => lookup_of false p
  | Cmd_getbase => lookup_of true p
  | Cmd_set => Put (put_of 0 p)
  | Cmd_add => Put (put_of 1 p)
  | Cmd_replace => Put (put_of 2 p)
  | Cmd_append => Put (put_of 3 p)
  | Cmd_prepend => Put (put_of 4 p)
  | Cmd_del => Delete (the_place p) (cache_id_ p)
  | Cmd_incr => Delta (the_place p) true (delta_ p) (cache_id_ p)
  | Cmd_decr => Delta (the_place p) false (delta_ p) (cache_id_ p)
  | Cmd_flush => Flush_group (group_id_ p)
  | Cmd_touch => Update_expiration (the_place p) (cache_id_ p) (expiration_ p)
  | Cmd_flags => Update_flags (the_place p) (cache_id_ p) (flags_ p)
  | Cmd_stats => Stats_cmd (Stats_Req.sub_op (Stats_Req.mk (u8 (sub_op_ p)) unassigned (group_id_ p))) (group_id_ p) unassigned
  | Cmd_createwatch => Create_watch (group_id_ p) (interval_ p)
  end.

(** The type of an entry: its own, or that of the suffix of the key. *)
Definition mime_of (key : bytes) (en : entry) : bytes :=
  let n := Z.of_nat (length (e_ext en)) in
  if (n >? 0) && (n <=? MAX_MIME_TYPE_LENGTH) then e_ext en
  else
    match Str.get_suffix key (Z.of_nat (length key)) with
    | Some (o, n) =>
        match Conf.get_mime_type e web (take (Z.to_nat n) (drop (Z.to_nat o) key)) with
        | Some m => if Z.of_nat (length m) <=? MAX_MIME_TYPE_LENGTH then m else default_mime_type web
        | None => default_mime_type web
        end
    | None => default_mime_type web
    end.
Definition etag_text (en : entry) : bytes := quote ++ Parse.decimal (e_cache_id en) ++ quote.
Definition entry_lines (en : entry) (x : Z) : bytes :=
  Stats.literal "CacheID: " ++ Parse.decimal (e_cache_id en) ++ crlf ++ Stats.literal "Flags: " ++ Parse.decimal (e_flags en) ++ crlf ++
  Stats.literal "Expiration: " ++ Parse.decimal x ++ crlf ++ Stats.literal "ETag: " ++ etag_text en ++ crlf ++ crlf.
(** The data as it is sent: compressed, if that is asked for and pays. *)
Definition gzip_of (data : bytes) : option bytes :=
  out ← deflated data; mret (Http.gzip_header ++ out ++ Http.out_uint32 (crc32 data) ++ Http.out_uint32 (u32 (Z.of_nat (length data)))).
Definition wants_gzip (r : Http_Request) (mime : bytes) (en : entry) : bool :=
  let n := Z.of_nat (length (e_data en)) in
  negb (method r =? HEAD_METHOD) && accept_gzip r && (n >=? min_gzip_size web) && (n <=? max_gzip_size web) && Conf.is_gzip_mime_type e web mime.
Definition encoded (r : Http_Request) (mime : bytes) (en : entry) : option bytes :=
  if wants_gzip r mime en && negb (bool_decide (e_data en = [])) then
    z ← gzip_of (e_data en);
    if Z.of_nat (length z) + 50 >=? Z.of_nat (length (e_data en)) then None else Some z
  else None.
Definition header_of_item (mime : bytes) (en : entry) (x : Z) (encoding : bytes) (size : nat) : bytes :=
  cstr mime ++ crlf ++ encoding ++ Stats.literal "Content-Length: " ++ Parse.decimal (Z.of_nat size) ++ crlf ++ entry_lines en x.
Definition item_page (r : Http_Request) (key : bytes) (en : entry) (x : Z) : bytes :=
  let mime := mime_of key en in
  if decide (etag_text en = entity_tag r) then Texts.GET_RES_304 (keepalive r) ++ cstr mime ++ crlf ++ entry_lines en x
  else
    let encoding := match encoded r mime en with Some _ => Stats.literal "Content-Encoding: gzip" ++ crlf | None => [] end in
    let sent := default (e_data en) (encoded r mime en) in
    Texts.GET_RES_200 (keepalive r) ++ header_of_item mime en x encoding (length sent) ++ (if method r =? HEAD_METHOD then [] else sent).
Definition base_text (key : bytes) (en : entry) (x : Z) : bytes :=
  Http.braces (Http.quoted "cacheid" ++ Parse.decimal (e_cache_id en) ++ Http.comma ++ Http.quoted "flags" ++ Parse.decimal (e_flags en) ++ Http.comma ++
    Http.quoted "expiration" ++ Parse.decimal x ++ Http.comma ++ Http.quoted "mime_type" ++ quote ++ cstr (mime_of key en) ++ quote ++ Http.comma ++
    Http.quoted "size" ++ Parse.decimal (Z.of_nat (length (e_data en)))).
(** The time that is told of what is found: with a new one, that. *)
Definition told_time (p : Peer_Http) (x : Z) : Z := if touch_flag_ p then expiration_ p else x.

Definition web_reply (c : web_command) (p : Peer_Http) (a : reply) : bytes :=
  let r := http_request_ p in
  let k := keepalive r in
  let text t := page k t in
  let failed reason := Texts.error_text reason k in
  match a with
  | Updated XIXI_REASON_SUCCESS id => text (Http.cacheid_text (default unassigned id))
  | Removed XIXI_REASON_SUCCESS => Texts.DELETE_RES_200 k
  | Counted XIXI_REASON_SUCCESS id v => text (value_text v id)
  | Updated reason _ | Removed reason | Counted reason _ _ | Found reason None => failed reason
  | Based true id => text (Http.cacheid_text id)
  | Based false id => failed (if id =? 0 then XIXI_REASON_NOT_FOUND else XIXI_REASON_MISMATCH)
  | Flushed count size => text (flush_text count size)
  | Watched id => text (watchid_text id)
  | Text b => text b
  | Found _ (Some (en, x)) =>
      match c with
      | Cmd_getbase => text (base_text (the_bytes (key_ p)) en (told_time p x))
      | _ => item_page r (the_bytes (key_ p)) en (told_time p x)
      end
  | _ => []
  end.

(** The numbers of a reply are of their types; what else the code relies on for its
    buffers: the two numbers of a flush have at most 21 digits, and a type of an
    entry that is told or not modified is not longer than 91 bytes. *)
Definition entry_shown (en : entry) (x : Z) : bool := is_u64 (e_cache_id en) && is_u32 (e_flags en) && is_u32 x && is_u32 (Z.of_nat (length (e_data en))).
Definition small_gzip (data : bytes) : bool := match gzip_of data with Some z => Z.of_nat (length z) + 50 <? 2 ^ 32 | None => true end.
Definition short_mime (key : bytes) (en : entry) : bool := Z.of_nat (length (mime_of key en)) <=? 91.
Definition item_shown (c : web_command) (p : Peer_Http) (en : entry) (x : Z) : bool :=
  let key := the_bytes (key_ p) in
  entry_shown en x && (Z.of_nat (length (default_mime_type web)) <=? MAX_MIME_TYPE_LENGTH) &&
  match c with
  | Cmd_getbase => short_mime key en
  | _ => if decide (etag_text en = entity_tag (http_request_ p)) then short_mime key en else small_gzip (e_data en)
  end.
Definition shown (c : web_command) (p : Peer_Http) (a : reply) : bool :=
  match a with
  | Updated _ id => is_u64 (default unassigned id)
  | Counted _ id v => is_u64 id && is_s64 v
  | Based _ id => is_u64 id
  | Flushed count size => is_u32 count && (0 <=? size) && (size <? 10 ^ 11)
  | Watched id => is_u32 id
  | Text b => is_u32 (Z.of_nat (length b))
  | Found _ (Some (en, x)) => item_shown c p en (told_time p x)
  | _ => true
  end.

(** ** The lengths of the texts *)
Lemma is_u32_length x : is_u32 x = true -> (length (Parse.decimal x) <= 10)%nat.
Proof. unfold is_u32. intros. apply decimal_length32. lia. Qed.
Lemma is_u64_length x : is_u64 x = true -> (length (Parse.decimal x) <= 20)%nat.
Proof. unfold is_u64. intros. apply decimal_length64. lia. Qed.
Lemma is_s64_length x : is_s64 x = true -> (length (Mgr.print_i64 x) <= 20)%nat.
Proof.
  unfold is_s64, Mgr.print_i64. intros Hx. destruct (Z.ltb_spec x 0).
  - cbn [length]. pose proof (decimal_length (- x) 18 ltac:(lia)). lia.
  - pose proof (decimal_length x 18 ltac:(lia)). lia.
Qed.

(** The length of a text of a reply. *)
Ltac text_fits := match goal with |- context [length ?t] =>
  unfold Http.cacheid_text, watchid_text, value_text, flush_text, base_text, Http.braces end; text_length.

Lemma cacheid_fits id : is_u64 id = true -> Z.of_nat (length (Http.cacheid_text id)) < 50.
Proof. intros ?%is_u64_length. text_fits. lia. Qed.
Lemma watchid_fits id : is_u32 id = true -> Z.of_nat (length (watchid_text id)) < 50.
Proof. intros ?%is_u32_length. text_fits. lia. Qed.
Lemma value_fits v id : is_s64 v = true -> is_u64 id = true -> Z.of_nat (length (value_text v id)) < 100.
Proof. intros ?%is_s64_length ?%is_u64_length. text_fits. lia. Qed.
Lemma flush_fits count size : is_u32 count = true -> 0 <= size < 10 ^ 11 -> Z.of_nat (length (flush_text count size)) < 50.
Proof. intros ?%is_u32_length Hs. pose proof (decimal_length size 10 ltac:(lia)). text_fits. lia. Qed.

(** ** The handlers *)

(** The reference of the peer to the item it sends. *)
Definition with_item n h : holds := match cache_item_ (http n) with Some p => give p 1 h | None => h end.
(** What a handler leaves of all references: it keeps the item of the peer, or forgets
    it, and may lose a reference; or it takes one to a new item. *)
Definition item_kept n n' h total : Prop :=
  (cache_item_ (http n') = cache_item_ (http n) \/ cache_item_ (http n') = None) /\ grown h total \/
  exists p, cache_item_ (http n') = Some p /\ total = give p 1 h.
Lemma kept_alone n n' s h total : cache_item_ (http n) = None -> item_kept n n' h total -> inv e s total ->
  exists others, inv e s (with_item n' others) /\ grown h others.
Proof.
  intros Hn [[Hi Hg]|(p&Hi&->)] Hs; unfold with_item; [exists total|exists h; rewrite Hi; by split; [|apply grown_refl]].
  assert (cache_item_ (http n') = None) as -> by (destruct Hi; congruence). done.
Qed.
(** A request was done: what the reference does, the references that are left, and
    the page of the reply. *)
Definition done_web (c : web_command) (q : request) (p : Peer_Http) h n n' : Prop := exists a total,
  spec_step alive (time_of (web_cache n)) q a (model_of (web_cache n)) (model_of (web_cache n')) /\
  inv e (web_cache n') total /\ item_kept n n' h total /\ web_responds (shown c p a = true) (web_reply c p a) n n'.
Definition may n h q : Prop := inv e (web_cache n) h /\ roomy h /\ allowed (web_cache n) h q.
Definition same_reply n p : Prop := http_request_ (http n) = http_request_ p.

(** A handler that is one call of the cache and one response. *)
Lemma web_call_done {A} c p (q : request) (m : M A) (reply_of : A -> reply) (f : A -> W unit) h n :
  run_request e alive (cache_settings web) q = (x ← m; mret (reply_of x, None)) -> (forall p, q <> Release p) -> may n h q -> same_reply n p ->
  (forall a n2, same_reply n2 p -> wp (f a) n2 (fun _ => renders (web_reply c p (reply_of a)) (shown c p (reply_of a) = true) n2)) ->
  wp (a ← Http.cache self m; f a) n (fun _ => done_web c q p h n).
Proof.
  intros Heq Hn (Hi&Hr&Hal) Hp Hk. pose proof (run_request_ok e alive (cache_settings web) (web_cache n) h q Hi Hr Hal) as Hok. rewrite Heq in Hok.
  apply wp_bind_inv in Hok. apply wp_bind, wp_call. apply (wp_mono _ _ _ _ Hok). intros a s [Hstep _ (h'&Ho&Hi')] t b. cbn [fst snd] in *.
  eapply wp_mono; [by apply Hk|]. intros [] n' (Hs&Hci&Hresp). exists (reply_of a), h'. rewrite Hs.
  destruct (owns_safe e q _ _ _ _ _ _ Hn Ho Hi') as (_&Hg&_). split_and!; try done; [by left; split; [left|]|].
  eapply writes_responds, same_writes; [|by apply Hresp]. done.
Qed.

Lemma page_renders c p a room hroom text n : same_reply n p -> 30 <= hroom -> room <= 2 ^ 31 -> web_reply c p a = page (keepalive (http_request_ p)) text ->
  (shown c p a = true -> Z.of_nat (length text) < room) ->
  wp (Http.respond room hroom text) n (fun _ => renders (web_reply c p a) (shown c p a = true) n).
Proof.
  intros Hp Hh Hr -> Hl. eapply wp_mono; [by apply respond_renders|]. intros [] n' Hn. unfold keeps in Hn. rewrite Hp in Hn.
  by eapply renders_weaken.
Qed.
Lemma failed_renders c p a reason n : same_reply n p -> web_reply c p a = Texts.error_text reason (keepalive (http_request_ p)) ->
  wp (Http.write_error reason) n (fun _ => renders (web_reply c p a) (shown c p a = true) n).
Proof.
  intros Hp ->. eapply wp_mono; [by apply error_renders|]. intros [] n' Hn. unfold keeps in Hn. rewrite Hp in Hn.
  eapply renders_weaken; [|exact Hn]. done.
Qed.
Lemma base_renders c p (r : bool * Z) n : same_reply n p ->
  wp (Http.respond_base r) n (fun _ => renders (web_reply c p (Based r.1 r.2)) (shown c p (Based r.1 r.2) = true) n).
Proof.
  intros Hp. unfold Http.respond_base. destruct r as [[] id]; cbn [fst snd].
  - eapply page_renders; [done|lia|lia|done|]. apply cacheid_fits.
  - destruct (Z.eqb_spec id 0) as [->|Hne]; cbn [negb]; eapply failed_renders; try done.
    unfold web_reply. by rewrite (proj2 (Z.eqb_neq _ _) Hne).
Qed.

Lemma wp_the_key n Q : span_ok (key_ (http n)) -> Q (the_bytes (key_ (http n))) n -> wp Http.the_key n Q.
Proof. intros [b Hb] HQ. apply wp_bind, wp_gets. unfold the_bytes in HQ. rewrite Hb in HQ. by eapply wp_the. Qed.

(** The handlers that are one call and one page. *)
Definition is_plain (c : web_command) : bool :=
  match c with Cmd_del | Cmd_incr | Cmd_decr | Cmd_flush | Cmd_touch | Cmd_flags | Cmd_stats | Cmd_createwatch => true | _ => false end.
Lemma delta_done c incr h n : web_request c (http n) = Delta (the_place (http n)) incr (delta_ (http n)) (cache_id_ (http n)) ->
  span_ok (key_ (http n)) -> may n h (web_request c (http n)) ->
  wp (Http.process_delta e alive self incr) n (fun _ => done_web c (web_request c (http n)) (http n) h n).
Proof.
  intros -> Hk Hm. apply wp_bind, wp_gets, wp_bind, wp_the_key; [done|]. apply wp_bind, wp_gets, wp_bind, wp_gets.
  eapply (web_call_done _ _ _ _ (fun r => Counted r.1.1 r.1.2 r.2)); [reflexivity|done|exact Hm|done|]. intros [[reason id] v] n2 Hp. cbn [fst snd].
  apply wp_bind, wp_modify. set (n3 := set http _ n2).
  apply (wp_mono _ _ (fun _ => renders (web_reply c (http n) (Counted reason id v)) (shown c (http n) (Counted reason id v) = true) n3)).
  2:{ intros _ n' (Hs&Hci&Hr). split_and!; [done..|]. eapply same_writes; [|by apply Hr]. done. }
  case_decide as Hd; [subst reason|by destruct reason; try done; eapply failed_renders].
  eapply page_renders; [done|lia|lia|done|]. unfold shown. intros [? ?]%andb_prop. by apply value_fits.
Qed.
Lemma stats_done h n : may n h (web_request Cmd_stats (http n)) ->
  wp (Http.process_stats web self unassigned) n (fun _ => done_web Cmd_stats (web_request Cmd_stats (http n)) (http n) h n).
Proof.
  cbn [web_request]. intros Hm. apply wp_bind, wp_gets, wp_bind, wp_gets. eapply web_call_done; [reflexivity|done|exact Hm|done|]. intros b n2 Hp. cbv zeta.
  apply wp_bind, wp_snprintf. intros c. apply wp_bind, wp_must_prepare; [done|]. intros d. set (size := u32 _). set (head := Parse.decimal _ ++ _).
  apply wp_bind, wp_gets, wp_bind, wp_modify, wp_bind, wp_modify, wp_bind, wp_modify, wp_bind, wp_modify, wp_modify.
  split_and!; [done..|]. eexists. split; [split; [done..|cbn; by rewrite <- !(assoc_L (++))|done]|].
  unfold shown, is_u32. intros Hl n3. assert (size = Z.of_nat (length b)) as Es by (apply wrap_small; lia).
  assert (Z.of_nat (length head) < 50) as Hlh.
  { unfold head. rewrite Es, length_app. pose proof (decimal_length32 (Z.of_nat (length b)) ltac:(lia)). change (length (crlf ++ crlf)) with 4%nat. lia. }
  rewrite Hp. unfold web_reply. set (k := keepalive (http_request_ (http n))).
  replace (page k b) with (Texts.DEFAULT_RES_200 k ++ head ++ b ++ []).
  - apply gather_cons; [done|]. apply gather_cons; [by apply fetch_piece|]. apply gather_cons; [|done].
    rewrite Es, Nat2Z.id, firstn_all. cbn [Http.fetch]. rewrite mem_read_region by lia. unfold region. change (Z.to_nat 0) with 0%nat.
    by rewrite drop_0, Nat2Z.id, firstn_all.
  - unfold page, head. by rewrite Es, app_nil_r, <- !(assoc_L (++)).
Qed.
Lemma plain_done c h n : is_plain c = true -> span_ok (key_ (http n)) -> may n h (web_request c (http n)) ->
  wp (handler e alive web self unassigned c) n (fun _ => done_web c (web_request c (http n)) (http n) h n).
Proof.
  intros Hc Hk Hm. destruct c; try discriminate Hc; clear Hc; cbn [handler].
  2,3: by apply delta_done.
  5: by apply stats_done.
  all: cbn [web_request] in *; apply wp_bind, wp_gets.
  - apply wp_bind, wp_the_key; [done|]. apply wp_bind, wp_gets. eapply web_call_done; [reflexivity|done|exact Hm|done|].
    intros reason n2 Hp. case_decide as Hd; [subst reason|by destruct reason; try done; eapply failed_renders].
    apply wp_bind, wp_gets, wp_bind, wp_modify, wp_bind, wp_modify, wp_modify. split_and!; [done..|].
    eexists. split; [by split|]. intros _ n3. rewrite Hp. apply gather_static.
  - eapply web_call_done; [reflexivity|done|exact Hm|done|]. intros [a b] n2 Hp. eapply page_renders; [done|lia|lia|done|].
    unfold shown. intros [[? ?]%andb_prop ?]%andb_prop. apply flush_fits; [done|lia].
  - apply wp_bind, wp_the_key; [done|]. apply wp_bind, wp_gets, wp_bind, wp_gets. eapply web_call_done; [reflexivity|done|exact Hm|done|].
    intros r n2 Hp. by apply base_renders.
  - apply wp_bind, wp_the_key; [done|]. apply wp_bind, wp_gets, wp_bind, wp_gets. eapply web_call_done; [reflexivity|done|exact Hm|done|].
    intros r n2 Hp. by apply base_renders.
  - apply wp_bind, wp_gets. eapply web_call_done; [reflexivity|done|exact Hm|done|]. intros id n2 Hp. eapply page_renders; [done|lia|lia|done|].
    apply watchid_fits.
Qed.

(** ** The updates *)

(** Bytes that are written in two parts. *)
Lemma mem_write_parts off a b m m2 : mem_write off (a ++ b) m = Some m2 ->
  exists m1, mem_write off a m = Some m1 /\ mem_write (off + Z.of_nat (length a)) b m1 = Some m2.
Proof.
  unfold mem_write. rewrite length_app. destruct (Z.leb_spec 0 off), (Z.leb_spec (off + Z.of_nat (length a + length b)) (Z.of_nat (length m))); try done.
  intros [= <-]. destruct (Z.leb_spec (off + Z.of_nat (length a)) (Z.of_nat (length m))); [|lia]. eexists. split; [reflexivity|]. cbn [andb].
  set (l := take (Z.to_nat off) m ++ a). assert (length l = Z.to_nat off + length a)%nat as Hl by (unfold l; rewrite length_app, length_take; lia).
  rewrite (assoc_L (++) (take _ m) a). fold l. rewrite !length_app, length_drop, (proj2 (Z.leb_le 0 _)), (proj2 (Z.leb_le _ _)) by lia. cbn [andb].
  f_equal. rewrite take_app_length' by lia. rewrite drop_app_ge, drop_drop, Hl by lia. unfold l. rewrite <- !(assoc_L (++)).
  do 4 f_equal. lia.
Qed.
Lemma update_opt_run p f it it' s : heap s !! p = Some it -> f it = Some it' -> Mgr.update_opt p f s = Some (tt, touch p it' s).
Proof. intros Hp Hf. unfold Mgr.update_opt, Mgr.item, mbind, ST_bind, gets, the. rewrite Hp. cbn. by rewrite Hf. Qed.
Lemma web_touch p it it' s : touch p it' (touch p it s) = touch p it' s.
Proof. unfold touch, set. cbn. by rewrite insert_insert_eq. Qed.

(** The key, the data and the type are copied to the item of an update one by one. *)
Definition room_for (key data ext : bytes) (it : Cache_Item) : Prop :=
  key_length it = Z.of_nat (length key) /\ Cache.data_size it = Z.of_nat (length data) /\ ext_size it = Z.of_nat (length ext).
Lemma web_fill_item p key v data ext it (rest : W unit) n Q :
  heap (web_cache n) !! p = Some it -> room_for key data ext it -> span_bytes v = Some data ->
  wp (Mgr.update_opt p (Item.write 0 (key ++ data ++ ext))) (web_cache n) (fun _ s => forall t b, wp rest (stirred t b (n <| web_cache := s |>)) Q) ->
  wp (Http.cache self (Mgr.update_opt p (Item.write 0 key));;
      v ← the (span_bytes v);
      Http.cache self (Mgr.update_opt p (fun it => Item.write (Item.data_at it) v it));;
      Http.cache self (Mgr.update_opt p (Item_Key.set_ext ext));; rest) n Q.
Proof.
  intros Hp (Hk&Hd&Hx) Hv HQ. set (s := web_cache n) in *. unfold wp in HQ at 1. unfold Mgr.update_opt, Mgr.item, mbind, ST_bind, gets, the in HQ. rewrite Hp in HQ.
  cbn in HQ. unfold Item.write in HQ. destruct (mem_write 0 (key ++ data ++ ext) (body it)) as [m3|] eqn:E; [|done]. cbn in HQ.
  apply mem_write_parts in E as (m1&E1&E2). apply mem_write_parts in E2 as (m2&E2&E3). rewrite Z.add_0_l in E2, E3.
  apply wp_bind, wp_call. fold s. eapply wp_update_opt; [exact Hp|unfold Item.write; by rewrite E1|]. intros t b.
  apply wp_bind. eapply wp_the; [exact Hv|]. apply wp_bind, wp_call. eapply wp_update_opt; [apply lookup_insert_eq| |].
  { unfold Item.write, Item.data_at. cbn -[mem_write]. by rewrite Hk, E2. }
  intros t' b'. apply wp_bind, wp_call. eapply wp_update_opt; [apply lookup_insert_eq| |].
  { unfold Item_Key.set_ext, Item.write, Item.ext_at. cbn -[mem_write mem_read]. rewrite mem_read_region, region_all by lia.
    rewrite Hk, Hd. by rewrite E3. }
  intros t2 b2. specialize (HQ t2 b2).
  change (wp rest (stirred t2 b2 (n <| web_cache :=
    touch p (it <| body := m3 |>) (touch p (it <| body := m2 |>) (touch p (it <| body := m1 |>) s)) |>)) Q).
  rewrite !web_touch. exact HQ.
Qed.

(** What [begin_update] finds room for. *)
Lemma begin_update_room s h g key fl x data ext :
  inv e s h -> Z.of_nat (length key) < 2 ^ 16 -> Z.of_nat (length data) <= 2 ^ 31 -> Z.of_nat (length ext) < 2 ^ 8 -> 0 <= x ->
  wp (Store.begin_update g (Z.of_nat (length key)) fl x (Z.of_nat (length data)) (Z.of_nat (length ext))) s (fun new s' =>
    match new with inl p => exists it, heap s' !! p = Some it /\ room_for key data ext it | inr reason => reason <> XIXI_REASON_SUCCESS end).
Proof.
  intros Hi Hk Hd Hl Hx. eapply begin_update_spec; [apply _|done|lia|lia|lia|done|unfold sizeof_Cache_Item; lia| |].
  - intros p it s' _ _ [Hp _ _] _ _ _ [_ Hk' _ _ Hd' Hx' _ _] _. by exists it.
  - intros s' _ _. by case_match.
Qed.
Lemma the_bytes_length t b : span_bytes t = Some b -> span_len t = Z.of_nat (length b).
Proof.
  unfold span_bytes, mem_read. destruct (_ && _) eqn:E; [|done]. intros [= <-]. apply andb_prop in E as [E1 E2]. rewrite length_take, length_drop. lia.
Qed.

Lemma refused_renders c p reason n : same_reply n p -> reason <> XIXI_REASON_SUCCESS ->
  wp (Http.write_error reason) n (fun _ => renders (web_reply c p (Updated reason None)) (shown c p (Updated reason None) = true) n).
Proof. intros Hp Hr. eapply failed_renders; [done|]. by destruct reason. Qed.
Lemma updated_renders c p reason id n : same_reply n p ->
  wp (if decide (reason = XIXI_REASON_SUCCESS) then Http.respond 50 30 (Http.cacheid_text (default unassigned id)) else Http.write_error reason) n (fun _ =>
    renders (web_reply c p (Updated reason id)) (shown c p (Updated reason id) = true) n).
Proof.
  intros Hp. case_decide as Hd; [subst reason|].
  - eapply page_renders; [done|lia|lia|done|]. apply cacheid_fits.
  - eapply failed_renders; [done|]. by destruct reason.
Qed.
Lemma update_done c op h n : web_request c (http n) = Put (put_of op (http n)) ->
  span_ok (key_ (http n)) -> span_ok (value_ (http n)) -> may n h (web_request c (http n)) ->
  wp (Http.process_update e alive self unassigned op) n (fun _ => done_web c (web_request c (http n)) (http n) h n).
Proof.
  intros Hreq [key Hk] [v Hv] (Hi&Hr&Hal). rewrite Hreq in *.
  pose proof (run_request_ok e alive (cache_settings web) (web_cache n) h _ Hi Hr Hal) as Hok.
  unfold put_of, the_bytes in Hok, Hal. rewrite Hk, Hv in Hok, Hal. cbn [default from_option id run_request] in Hok.
  destruct Hal as (Hkl&Hvl&Hxl&Hx). cbn [put_key put_data put_ext put_expiration put_group put_flags put_sub_op put_expected put_watch] in *.
  apply wp_bind_inv in Hok. unfold put in Hok. apply wp_bind_inv in Hok.
  cbn [put_key put_data put_ext put_expiration put_group put_flags put_sub_op put_expected put_watch] in Hok.
  pose proof (wp_and _ _ _ _ (begin_update_room (web_cache n) h (group_id_ (http n)) key (flags_ (http n)) (expiration_ (http n)) v
    (value_content_type_ (http n)) Hi Hkl Hvl Hxl Hx) Hok) as Hb. clear Hok.
  unfold Http.process_update. do 8 apply wp_bind, wp_gets. rewrite (the_bytes_length _ _ Hk), (the_bytes_length _ _ Hv).
  apply wp_bind, wp_call. apply (wp_mono _ _ _ _ Hb). clear Hb. intros [p|reason] s1 [Hroom Hok] t b.
  - destruct Hroom as (it&Hp&Hroom). apply wp_bind_inv in Hok.
    apply wp_bind, wp_modify. set (n1 := set http _ _). apply wp_bind. eapply wp_the; [exact Hk|].
    refine (web_fill_item p key (value_ (http n)) v _ it _ n1 _ Hp Hroom Hv _).
    apply (wp_mono _ _ _ _ Hok). clear Hok. intros [] s2 Hok t2 b2. unfold Store.end_update in Hok.
    apply wp_bind_inv in Hok. apply wp_bind, wp_call. apply (wp_mono _ _ _ _ Hok). clear Hok. intros [] s3 Hok t3 b3.
    apply wp_bind_inv in Hok. apply wp_bind, wp_call. apply (wp_mono _ _ _ _ Hok). clear Hok. intros [] s4 Hok t4 b4.
    apply wp_bind_inv in Hok. apply wp_bind, wp_call. apply (wp_mono _ _ _ _ Hok). clear Hok. intros [reason id] s5 Hok t5 b5. cbn [fst snd].
    set (n5 := stirred t5 b5 _). apply wp_bind. apply (wp_mono _ _ (fun _ => renders (web_reply c (http n) (Updated reason id)) (shown c (http n) (Updated reason id) = true) n5)).
    { by apply updated_renders. }
    intros [] n6 (Hs6&_&Hw6). apply wp_bind_inv in Hok. apply wp_bind, wp_call. rewrite Hs6.
    apply (wp_mono _ _ _ _ Hok). clear Hok. intros [] s7 [Hstep _ (h'&Ho&Hi')] t7 b7. apply wp_modify. cbn [fst snd] in *.
    exists (Updated reason id), h'. destruct (owns_safe e (Put _) _ _ _ _ _ _ ltac:(done) Ho Hi') as (_&Hg&_). split_and!; try done.
    + unfold put_of, the_bytes. rewrite Hk, Hv. exact Hstep.
    + left. by split; [right|].
    + destruct Hw6 as (bufs&[] &Hg6). exists bufs. split; [by split|]. intros Hsh. by apply Hg6.
  - apply wp_bind, wp_modify. set (n1 := set http _ _). unfold wp, mret, ST_ret in Hok. destruct Hok as [Hstep _ (h'&Ho&Hi')]. cbn [fst snd] in *.
    apply (wp_mono _ _ (fun _ => renders (web_reply c (http n) (Updated reason None)) (shown c (http n) (Updated reason None) = true) n1)).
    { by apply refused_renders. }
    intros [] n6 (Hs6&Hc6&Hw6). exists (Updated reason None), h'. rewrite Hs6.
    destruct (owns_safe e (Put _) _ _ _ _ _ _ ltac:(done) Ho Hi') as (_&Hg&_). split_and!; try done.
    + unfold put_of, the_bytes. rewrite Hk, Hv. exact Hstep.
    + left. by split; [right|].
    + eapply writes_responds, same_writes; [|by apply Hw6]. done.
Qed.

(** ** The look-ups *)

(** A look-up of the cache: what is found is read and held. *)
Lemma found_ok {A} (q : request) (m : M A) (f : A -> option (ptr * Z) * xixi_reason) s h :
  run_request e alive (cache_settings web) q = (x ← m; read_found (f x)) -> (forall p, q <> Release p) -> (forall a m, leaked q a m = None) ->
  inv e s h -> roomy h -> allowed s h q -> wp m s (fun a s' =>
    match (f a).1 with
    | Some (p, x) => exists it, heap s' !! p = Some it /\ item_wf (slab_ s') it /\ inv e s' (give p 1 h) /\
        spec_step alive (time_of s) q (Found (f a).2 (Some (entry_of it, x))) (model_of s) (model_of s')
    | None => inv e s' h /\ curr_time_ s' = spec_clock q (curr_time_ s) /\ spec_step alive (time_of s) q (Found (f a).2 None) (model_of s) (model_of s')
    end).
Proof.
  intros Heq Hn Hlk Hi Hr Hal. pose proof (run_request_ok e alive (cache_settings web) s h q Hi Hr Hal) as Hok. rewrite Heq in Hok.
  apply wp_bind_inv in Hok. apply (wp_mono _ _ _ _ Hok). intros a s' Ho. unfold read_found in Ho. destruct (f a) as [[[p x]|] reason]; cbn [fst snd] in *.
  - apply wp_bind_inv in Ho. apply wp_run in Ho as (it&s2&Hit&Ho). unfold Mgr.item, mbind, ST_bind, gets, the in Hit.
    destruct (heap s' !! p) eqn:E; [|done]. cbn in Hit. injection Hit as -> <-. destruct Ho as [Hstep _ (h'&Ho&Hi')]. cbn [fst snd] in *.
    destruct (owns_safe e q _ _ _ _ _ _ Hn Ho Hi') as (_&_&Hg). rewrite (Hg p eq_refl) in Hi'. pose proof (inv_core e _ _ Hi') as Hc.
    destruct (held_heap e s' _ p Hc) as (it'&Hit'&Hfree); [rewrite give_eq; pose proof (c_held _ _ _ (inv_core e _ _ Hi) p); lia|].
    exists it. split_and!; [done| |done..]. by apply (c_item _ _ _ Hc p it E).
  - destruct Ho as [Hstep Hck (h'&Ho&Hi')]. cbn [fst snd] in *. split; [|done]. assert (h' = h) as ->; [|done].
    unfold owns in Ho. destruct q; try (rewrite Hlk in Ho; exact Ho). by destruct (Hn p).
Qed.

Record looked_up (q : request) h n (r : option ptr * xixi_reason * Z) n' : Prop := {
  lu_same : exists t f, n' = stirred t f (n <| web_cache := web_cache n' |>);
  lu_found :
    match r.1.1 with
    | Some p => exists it x, heap (web_cache n') !! p = Some it /\ item_wf (slab_ (web_cache n')) it /\ inv e (web_cache n') (give p 1 h) /\
        r.2 = told_time (http n) x /\ spec_step alive (time_of (web_cache n)) q (Found r.1.2 (Some (entry_of it, x)))
          (model_of (web_cache n)) (model_of (web_cache n'))
    | None => inv e (web_cache n') h /\ curr_time_ (web_cache n') = curr_time_ (web_cache n) /\
        (touch_flag_ (http n) = true -> r.2 = expiration_ (http n)) /\
        spec_step alive (time_of (web_cache n)) q (Found r.1.2 None) (model_of (web_cache n)) (model_of (web_cache n'))
    end
}.
Lemma look_up_ok key b x h n : may n h (lookup_at key b (http n)) ->
  wp (Http.look_up e alive self key b x) n (looked_up (lookup_at key b (http n)) h n).
Proof.
  intros (Hi&Hr&Hal). unfold lookup_at, Http.look_up in *. do 3 apply wp_bind, wp_gets. destruct (touch_flag_ (http n)) eqn:Et.
  - apply wp_bind, wp_gets, wp_bind, wp_call.
    pose proof (found_ok (Get_touch (group_id_ (http n), key) (watch_id_ (http n)) (expiration_ (http n)))
      (Mgr.get_touch e (group_id_ (http n)) key (watch_id_ (http n)) (expiration_ (http n)))
      (fun r => ((fun p => (p, 0)) <$> r.1, r.2)) (web_cache n) h eq_refl ltac:(done) ltac:(done) Hi Hr Hal) as Hok.
    apply (wp_mono _ _ _ _ Hok). intros [o reason] s Hf t f. apply wp_ret. split; [by exists t, f|]. cbn [fst snd] in *.
    destruct o as [p|]; cbn [fmap option_fmap option_map] in *; [|destruct Hf as (?&?&?); by split_and!].
    unfold told_time. rewrite Et. destruct Hf as (it&?&?&?&?). exists it, 0. by split_and!.
  - apply wp_bind, wp_call. pose proof (found_ok (Get (group_id_ (http n), key) (watch_id_ (http n)) b)
      (Mgr.get e alive (group_id_ (http n)) key (watch_id_ (http n)) b) id (web_cache n) h eq_refl ltac:(done) ltac:(done) Hi Hr Hal) as Hok.
    apply (wp_mono _ _ _ _ Hok). intros [[[p y]|] reason] s Hf t f; cbn [id fst snd] in *; apply wp_ret; (split; [by exists t, f|]);
      cbn [fst snd]; [|destruct Hf as (?&?&?); split_and!; (done || congruence)].
    unfold told_time. rewrite Et. destruct Hf as (it&?&?&?&?). exists it, y. by split_and!.
Qed.
(** A key that names no file. *)
Lemma get_cache_item_ok b h n : span_ok (key_ (http n)) -> head (the_bytes (key_ (http n))) <> Some 47 -> may n h (lookup_of b (http n)) ->
  wp (Http.get_cache_item e alive web self unassigned b) n (looked_up (lookup_of b (http n)) h n).
Proof.
  intros Hk Hf Hm. unfold Http.get_cache_item. apply wp_bind, wp_the_key; [done|]. apply wp_bind. pose proof (look_up_ok _ b unassigned h n Hm) as Hlook.
  fold (lookup_of b (http n)) in Hlook. apply (wp_mono _ _ _ _ Hlook).
  intros [[[p|] reason] x] n' Hl; cbn [fst snd]; [by apply wp_ret|]. revert Hf. destruct (the_bytes (key_ (http n))) as [|z key]; [by intros _; apply wp_ret|].
  intros Hz. assert (z <> 47) by (cbn in Hz; congruence). destruct z as [|z|z]; try by apply wp_ret.
  repeat (destruct z as [z|z|]; try by apply wp_ret).
Qed.

(** ** The pages of items *)

Lemma wp_mime it n sl Q : span_ok (key_ (http n)) -> item_wf sl it ->
  (forall b, Q (mime_of (the_bytes (key_ (http n))) (entry_of it)) (with_pieces b n)) -> wp (Http.get_mime_type e web it) n Q.
Proof.
  intros Hk Hw HQ. destruct (get_ext_wf _ _ Hw) as [Hx Hl]. unfold Http.get_mime_type, mime_of in *. cbn [e_ext entry_of] in HQ. rewrite Hl in HQ.
  assert (forall a, (forall b, Q a (with_pieces b n)) -> Q a n) as Hsame by (intros a Ha; rewrite (with_pieces_id n); apply Ha).
  destruct (_ && _).
  - apply wp_bind, wp_must_prepare; [done|]. intros b. by eapply wp_the.
  - apply wp_bind, wp_the_key; [done|]. set (key := the_bytes _) in *.
    destruct (Str.get_suffix key (Z.of_nat (length key))) as [[o s]|]; [|by apply wp_ret, Hsame].
    destruct (Conf.get_mime_type _ _ _) as [m|]; [|by apply wp_ret, Hsame].
    destruct (Z.of_nat (length m) <=? MAX_MIME_TYPE_LENGTH); [|by apply wp_ret, Hsame].
    apply wp_bind, wp_must_prepare; [done|]. intros b. apply wp_ret, HQ.
Qed.
Lemma mime_length key en : Z.of_nat (length (default_mime_type web)) <= MAX_MIME_TYPE_LENGTH -> Z.of_nat (length (mime_of key en)) <= MAX_MIME_TYPE_LENGTH.
Proof.
  intros Hd. unfold mime_of. destruct (_ && _) eqn:E; [lia|]. destruct (Str.get_suffix _ _) as [[o s]|]; [|done].
  destruct (Conf.get_mime_type _ _ _) as [m|]; [|done]. destruct (Z.leb_spec (Z.of_nat (length m)) MAX_MIME_TYPE_LENGTH); done.
Qed.
Lemma cstr_length b : (length (cstr b) <= length b)%nat.
Proof. induction b as [|c b IH]; [done|]. cbn. case_match; cbn; lia. Qed.

Lemma gather_app n l l2 x y : Http.gather n l = Some x -> Http.gather n l2 = Some y -> Http.gather n (l ++ l2) = Some (x ++ y).
Proof.
  revert x. induction l as [|b l IH]; intros x Hl Hk; [by injection Hl as <-|]. unfold Http.gather in Hl. cbn [mapM] in Hl.
  destruct (Http.fetch n b) as [z|] eqn:Ef; [|done]. cbn in Hl. destruct (mapM _ l) as [ls|] eqn:El; [|done]. injection Hl as <-. cbn [concat app].
  rewrite <- (assoc_L (++)). apply gather_cons; [done|]. apply IH; [|done]. unfold Http.gather. by rewrite El.
Qed.

(** Compressed data: the pieces hold all of it, between the header and the check sum. *)
Definition sizes (l : list web_buffer) : Z := foldr Z.add 0 (map Http.buffer_size l).
Definition holds_bytes (l : list web_buffer) (b : bytes) : Prop := (forall n, Http.gather n l = Some b) /\ sizes l = Z.of_nat (length b).
Lemma holds_cons b l x y : (forall n, Http.fetch n b = Some x) -> Http.buffer_size b = Z.of_nat (length x) -> holds_bytes l y -> holds_bytes (b :: l) (x ++ y).
Proof.
  intros Hf Hs [Hg Hl]. split; [intros n; by apply gather_cons|]. unfold sizes in *. cbn [map foldr]. rewrite Hl, Hs, length_app. lia.
Qed.
Lemma holds_nil : holds_bytes [] [].
Proof. by split. Qed.
Lemma fetch_exact b n : Http.fetch n (Piece b (Z.of_nat (length b))) = Some b.
Proof.
  cbn. rewrite mem_read_region by lia. unfold region. change (Z.to_nat 0) with 0%nat. by rewrite drop_0, Nat2Z.id, firstn_all.
Qed.
Lemma gzip_chunks_ok fuel size : forall out n, 0 < size -> (length out < fuel)%nat ->
  wp (Http.gzip_chunks fuel size out) n (fun r n' => exists l b, r = Some l /\ n' = with_pieces b n /\ holds_bytes l out).
Proof.
  induction fuel as [|fuel IH]; intros out n Hs Hf; [lia|]. cbn [Http.gzip_chunks]. apply wp_bind, web_prepare; [done|]. intros b. cbn [negb].
  destruct (Z.ltb_spec (Z.of_nat (length out)) size).
  - apply wp_ret. eexists _, b. split_and!; [done..|]. rewrite <- (app_nil_r out) at 3. apply holds_cons; [intros; apply fetch_exact|done|apply holds_nil].
  - apply wp_bind. eapply wp_mono; [apply IH; [done|rewrite length_drop; lia]|]. intros r n' (l&c&->&->&Hh). apply wp_ret. cbn.
    eexists _, c. split_and!; [done..|]. rewrite <- (take_drop (Z.to_nat size) out) at 2. set (x := take _ out) in *.
    assert (size = Z.of_nat (length x)) as Ex by (unfold x; rewrite length_take; lia).
    apply holds_cons; [intros m; rewrite Ex; apply fetch_exact|exact Ex|exact Hh].
Qed.
Lemma gzip_encode_ok data n : wp (Http.gzip_encode data) n (fun z n' => (exists b, n' = with_pieces b n) /\
  match gzip_of data with
  | Some g => if bool_decide (data = []) then z.1 = 0 else z.1 = u32 (Z.of_nat (length g)) /\ forall m, Http.gather m z.2 = Some g
  | None => z.1 = 0
  end).
Proof.
  unfold Http.gzip_encode, gzip_of. case_decide as Hd.
  { apply wp_ret. split; [eexists; apply with_pieces_id|]. rewrite bool_decide_eq_true_2 by done. by destruct (deflated data). }
  rewrite bool_decide_eq_false_2 by done. destruct (deflated data) as [out|]; [|apply wp_ret; split; [eexists; apply with_pieces_id|done]].
  cbv zeta. apply wp_bind. eapply wp_mono; [apply gzip_chunks_ok; [|lia]|].
  { destruct data; [done|]. cbn [length]. destruct (_ <? 4096); lia. }
  intros r n' (l&b&->&->&Hh). apply wp_bind, web_prepare; [done|]. intros c. cbn [negb]. apply wp_ret. split; [by exists c|].
  set (tail := Http.out_uint32 (crc32 data) ++ _). change (mbind _ (Some out)) with (Some (Http.gzip_header ++ out ++ tail)). cbn [fst snd].
  assert (holds_bytes (Static Http.gzip_header :: l ++ [Piece tail 8]) (Http.gzip_header ++ out ++ tail)) as [Hg Hs]; [|split; [by rewrite <- Hs|done]].
  apply holds_cons; [done..|]. destruct Hh as [Hg Hs]. split.
  - intros m. apply gather_app; [done|]. rewrite <- (app_nil_r tail) at 2. apply gather_cons; [|done]. apply (fetch_exact tail).
  - unfold sizes in *. rewrite map_app, foldr_app, length_app. cbn [map foldr Http.buffer_size]. change (length tail) with 8%nat.
    assert (forall i ls, foldr Z.add i ls = foldr Z.add 0 ls + i) as -> by (intros i ls; induction ls; cbn; lia). lia.
Qed.

(** The data of an entry is compressed as [encoded] tells. *)
Lemma compress_ok it mime n sl : item_wf sl it ->
  wp (Http.compress e web it mime) n (fun z n' => (exists b, n' = with_pieces b n) /\ (small_gzip (data_of it) = true ->
    match encoded (http_request_ (http n)) mime (entry_of it) with
    | Some g => 0 < z.1 /\ z.1 = Z.of_nat (length g) /\ forall m, Http.gather m z.2 = Some g
    | None => z.1 = 0
    end)).
Proof.
  intros Hw. destruct (get_data_wf _ _ Hw) as [Hd Hl]. unfold Http.compress, encoded. apply wp_bind, wp_gets.
  change (e_data (entry_of it)) with (data_of it). unfold wants_gzip. change (e_data (entry_of it)) with (data_of it). rewrite <- Hl.
  destruct (_ && Conf.is_gzip_mime_type e web mime); cbn [andb]; [|apply wp_ret; split; [eexists; apply with_pieces_id|done]].
  apply wp_bind. eapply wp_the; [exact Hd|]. apply wp_bind. eapply wp_mono; [apply gzip_encode_ok|]. intros [z l] n' [Hp Hz]. apply wp_ret.
  split; [exact Hp|]. unfold small_gzip. destruct (gzip_of (data_of it)) as [g|] eqn:Eg; cbn [fst snd] in *.
  - case_bool_decide as Ed; cbn [negb] in *; intros Hg%Z.ltb_lt; cbn -[Z.geb u32].
    { rewrite Hz, Ed. by vm_compute. }
    destruct Hz as [-> Hg']. rewrite !wrap_small by (rewrite ?wrap_small; lia). destruct (_ >=? _); [done|].
    split_and!; [|done..]. unfold gzip_of in Eg. destruct (deflated _); [|done]. injection Eg as <-. cbn [length]. lia.
  - intros _. assert ((if negb (bool_decide (data_of it = [])) then None else None) = @None bytes) as Hn by (by case_match).
    destruct (negb _); cbn; rewrite Hz; by case_match.
Qed.

(** Buffers that were added, without a change of state. *)
Record added (bufs : list web_buffer) n n' : Prop := {
  ad_same : same_web n (n' <| http ::= fun p => p <| write_buf_ := write_buf_ (http n) |> |>);
  ad_item : cache_item_ (http n') = cache_item_ (http n);
  ad_bufs : write_buf_ (http n') = write_buf_ (http n) ++ bufs;
  ad_cache : web_cache n' = web_cache n
}.
Lemma added_refl n : added [] n n.
Proof. split; [by split|done|by rewrite app_nil_r|done]. Qed.
Lemma added_trans l1 l2 n1 n2 n3 : added l1 n1 n2 -> added l2 n2 n3 -> added (l1 ++ l2) n1 n3.
Proof.
  intros [[] Hi Hb Hc] [[] Hi' Hb' Hc']. split; [split; unfold arguments in *; cbn in *; congruence|congruence| |congruence]. by rewrite Hb', Hb, <- (assoc_L (++)).
Qed.
Lemma added_one b n Q : (forall n', added [b] n n' -> Q tt n') -> wp (Http.add_write_buf b) n Q.
Proof. intros HQ. apply wp_modify, HQ. by split. Qed.
Lemma added_all l : forall n, wp (for_each Http.add_write_buf l) n (fun _ => added l n).
Proof.
  induction l as [|b l IH]; intros n; [apply wp_ret, added_refl|]. apply wp_bind, added_one. intros n1 Ha.
  eapply wp_mono; [apply IH|]. intros [] n'. by apply (added_trans [b]).
Qed.
Lemma added_pieces l b n n' : added l (with_pieces b n) n' -> added l n n'.
Proof. by intros [[] ? ? ?]. Qed.

(** The numbers of an entry, in its lines. *)
Lemma lines_length en x : entry_shown en x = true -> (length (entry_lines en x) <= 106)%nat.
Proof.
  unfold entry_shown. intros [[[?%is_u64_length ?%is_u32_length]%andb_prop ?%is_u32_length]%andb_prop _]%andb_prop.
  unfold entry_lines, etag_text. text_length. lia.
Qed.
Definition not_modified_text (it : Cache_Item) (mime : bytes) (x : Z) : bytes := cstr mime ++ crlf ++ Http.item_lines it x (Http.etag_of it).
Definition not_modified_bufs (k : bool) (text : bytes) : list web_buffer :=
  [Static (Texts.GET_RES_304 k); Piece (take (Z.to_nat (200 - 1)) text ++ [0]) (Z.of_nat (length text))].
Lemma not_modified_run it mime x n :
  wp (Http.not_modified it mime x) n (fun _ => added (not_modified_bufs (keeps n) (not_modified_text it mime x)) n).
Proof.
  unfold Http.not_modified. apply wp_bind, wp_snprintf. intros b. apply wp_bind, wp_gets, wp_bind, added_one. intros n1 H1'.
  apply added_one. intros n2 H2'. apply (added_pieces _ b), (added_trans [_] _ _ _ _ H1' H2').
Qed.
Lemma not_modified_adds it mime x n : let en := entry_of it in let r := http_request_ (http n) in
  wp (Http.not_modified it mime x) n (fun _ n' => exists bufs, bufs <> [] /\ added bufs n n' /\
    (entry_shown en x = true -> Z.of_nat (length mime) <= 91 -> forall m, Http.gather m bufs = Some (Texts.GET_RES_304 (keepalive r) ++ cstr mime ++ crlf ++ entry_lines en x))).
Proof.
  intros en r. eapply wp_mono; [apply not_modified_run|]. intros [] n' Ha. eexists. split; [|split; [exact Ha|]]; [done|].
  intros Hs Hm m. rewrite <- (app_nil_r (cstr mime ++ crlf ++ entry_lines en x)). apply gather_cons; [done|]. apply gather_cons; [|done].
  apply fetch_piece. pose proof (lines_length en x Hs). pose proof (cstr_length mime). unfold not_modified_text.
  change (Http.item_lines it x (Http.etag_of it)) with (entry_lines en x). text_length. lia.
Qed.

(** An item, whole or compressed, or only its header. *)
Definition sent_page (r : Http_Request) (mime : bytes) (en : entry) (x : Z) : bytes :=
  let encoding := match encoded r mime en with Some _ => Stats.literal "Content-Encoding: gzip" ++ crlf | None => [] end in
  let sent := default (e_data en) (encoded r mime en) in
  Texts.GET_RES_200 (keepalive r) ++ header_of_item mime en x encoding (length sent) ++ (if method r =? HEAD_METHOD then [] else sent).
Lemma header_fits mime en x encoding size : entry_shown en x = true -> Z.of_nat (length mime) <= MAX_MIME_TYPE_LENGTH ->
  (length encoding <= 24)%nat -> (size <= length (e_data en))%nat -> Z.of_nat (length (header_of_item mime en x encoding size)) < 300.
Proof.
  intros Hs Hm He Hz. pose proof (lines_length en x Hs). pose proof (cstr_length mime). unfold MAX_MIME_TYPE_LENGTH in Hm.
  assert (Z.of_nat size < 2 ^ 32) by (unfold entry_shown, is_u32 in Hs; lia). pose proof (decimal_length32 (Z.of_nat size) ltac:(lia)).
  unfold header_of_item. text_length. lia.
Qed.
Lemma encoded_shorter r mime en g : encoded r mime en = Some g -> (length g <= length (e_data en))%nat.
Proof.
  unfold encoded. destruct (_ && _); [|done]. destruct (gzip_of _) as [z|]; [|done]. cbn. case_match eqn:E; [done|]. intros [= ->]. lia.
Qed.
Lemma fetch_data p it n sl : heap (web_cache n) !! p = Some it -> item_wf sl it ->
  Http.fetch n (Item_part p (Item.data_at it) (data_size it)) = Some (data_of it).
Proof. intros Hp Hw. destruct (get_data_wf _ _ Hw) as [Hd _]. cbn. by rewrite Hp. Qed.
Lemma send_item_adds p it mime x n sl : heap (web_cache n) !! p = Some it -> item_wf sl it -> let en := entry_of it in let r := http_request_ (http n) in
  wp (Http.send_item e web p it mime x) n (fun _ n' => exists bufs, bufs <> [] /\ added bufs n n' /\
    (entry_shown en x = true -> Z.of_nat (length mime) <= MAX_MIME_TYPE_LENGTH -> small_gzip (e_data en) = true ->
     Http.gather n' bufs = Some (sent_page r mime en x))).
Proof.
  intros Hp Hw en r. destruct (get_data_wf _ _ Hw) as [_ Hl]. unfold Http.send_item. apply wp_bind. eapply wp_mono; [by apply (compress_ok it mime n sl)|].
  intros [z l] n1 [[b ->] Hz]. cbn [fst snd] in *. cbv zeta. apply wp_bind, wp_snprintf. intros c. apply wp_bind, wp_gets.
  apply wp_bind, added_one. intros n2 H2'. apply wp_bind, added_one. intros n3 H3'.
  pose proof (added_trans _ _ _ _ _ H2' H3') as H23. apply added_pieces, added_pieces in H23. cbn [app] in H23. change (http_request_ (http (with_pieces c (with_pieces b n)))) with r in *.
  change (http_request_ (http n)) with r in Hz. change (data_of it) with (e_data en) in Hz, Hl. fold en in Hz.
  match type of H3' with added [Piece (take _ ?t ++ _) _] _ _ => set (text := t) in * end.
  assert (entry_shown en x = true -> Z.of_nat (length mime) <= MAX_MIME_TYPE_LENGTH -> small_gzip (e_data en) = true ->
    text = header_of_item mime en x (match encoded r mime en with Some _ => Stats.literal "Content-Encoding: gzip" ++ crlf | None => [] end)
      (length (default (e_data en) (encoded r mime en))) /\ Z.of_nat (length text) < 300) as Htext.
  { intros Hs Hm Hg. specialize (Hz Hg). assert (text = header_of_item mime en x (match encoded r mime en with Some _ => Stats.literal "Content-Encoding: gzip" ++ crlf | None => [] end)
      (length (default (e_data en) (encoded r mime en)))) as E.
    { unfold text, header_of_item. destruct (encoded r mime en) as [g|]; cbn [default from_option id].
      - destruct Hz as (Hz0&Hzl&_). rewrite (proj2 (Z.gtb_lt _ _)) by lia. rewrite Hzl. reflexivity.
      - rewrite Hz, Hl. reflexivity. }
    split; [exact E|]. rewrite E. apply header_fits; [done..| |].
    - destruct (encoded r mime en); vm_compute; lia.
    - destruct (encoded r mime en) as [g|] eqn:Ee; cbn [default from_option id]; [exact (encoded_shorter _ _ _ _ Ee)|lia]. }
  assert (forall m more rest, Http.gather m more = Some rest -> entry_shown en x = true -> Z.of_nat (length mime) <= MAX_MIME_TYPE_LENGTH -> small_gzip (e_data en) = true ->
    (if method r =? HEAD_METHOD then [] else default (e_data en) (encoded r mime en)) = rest ->
    Http.gather m (Static (Texts.GET_RES_200 (keepalive r)) :: Piece (take (Z.to_nat (300 - 1)) text ++ [0]) (Z.of_nat (length text)) :: more) =
      Some (sent_page r mime en x)) as Hpage.
  { intros m more rest Hm Hs Hmm Hg Hr. destruct (Htext Hs Hmm Hg) as [E Hlt]. unfold sent_page. rewrite Hr, <- E.
    apply gather_cons; [done|]. apply gather_cons; [by apply fetch_piece|done]. }
  destruct (method r =? HEAD_METHOD) eqn:Eh; cbn [negb].
  { apply wp_ret. eexists. split; [|split; [exact H23|]]; [done|]. intros Hs Hm Hg. by eapply Hpage. }
  destruct (Z.gtb_spec z 0) as [Hz0|Hz0].
  - eapply wp_mono; [apply added_all|]. intros [] n4 H4'. eexists. split; [|split; [exact (added_trans _ _ _ _ _ H23 H4')|]]; [done|]. intros Hs Hm Hg. cbn [app].
    specialize (Hz Hg). destruct (encoded r mime en) as [g|] eqn:Ee; [|lia]. by eapply Hpage; [apply Hz|..].
  - apply added_one. intros n4 H4'. eexists. split; [|split; [exact (added_trans _ _ _ _ _ H23 H4')|]]; [done|]. intros Hs Hm Hg. cbn [app].
    specialize (Hz Hg). destruct (encoded r mime en) as [g|] eqn:Ee; [lia|]. eapply Hpage; [|done..].
    rewrite <- (app_nil_r (default _ _)). apply gather_cons; [|done]. eapply fetch_data; [|exact Hw].
    rewrite (ad_cache _ _ _ H4'), (ad_cache _ _ _ H23). exact Hp.
Qed.

(** ** What is looked up, sent *)
Lemma added_write bufs n n' Q : bufs <> [] -> added bufs n n' ->
  (forall n2, answers bufs n n2 -> web_cache n2 = web_cache n' -> cache_item_ (http n2) = cache_item_ (http n') -> (forall l, Http.gather n2 l = Http.gather n' l) -> Q tt n2) ->
  wp Http.to_write n' Q.
Proof.
  intros Hne [[] Hi Hb Hc] HQ. apply wp_bind, wp_modify, wp_modify, HQ; [by split|done..].
Qed.
Lemma lookup_reason b p t reason en m m' : spec_step alive t (lookup_of b p) (Found reason en) m m' -> reason <> XIXI_REASON_MOVED_PERMANENTLY.
Proof.
  unfold lookup_of, lookup_at. destruct (touch_flag_ p); cbn; intros (r&en'&[= -> ->]&Hs); [unfold spec_get_touch in Hs|unfold spec_get in Hs]; repeat case_match; by injection Hs as -> _ _.
Qed.
(** The end of [process_get] and of [process_get_base], for an item that was found. *)
Definition show_item (p : ptr) (x : Z) : W unit :=
  Http.in_http (fun y => y <| cache_item_ := Some p |>);;
  it ← Http.cache self (Mgr.item p);
  mime ← Http.get_mime_type e web it;
  tag ← Http.my (fun y => entity_tag (http_request_ y));
  (if decide (Http.etag_of it = tag) then Http.not_modified it mime x else Http.send_item e web p it mime x);;
  Http.to_write.
Lemma show_item_ok p it sl x n : span_ok (key_ (http n)) -> heap (web_cache n) !! p = Some it -> item_wf sl it ->
  wp (show_item p x) n (fun _ n' => web_cache n' = web_cache n /\ cache_item_ (http n') = Some p /\
    web_responds (item_shown Cmd_get (http n) (entry_of it) x = true) (item_page (http_request_ (http n)) (the_bytes (key_ (http n))) (entry_of it) x) n n').
Proof.
  intros Hk Hp Hw. apply wp_bind, wp_modify. set (n2 := set http _ _). apply wp_bind, wp_call.
  eapply wp_item; [exact Hp|]. intros t2 f2. set (n3 := stirred t2 f2 _). apply wp_bind.
  apply (wp_mime it n3 sl); [done..|]. intros b. set (n4 := with_pieces b n3). change (key_ (http n3)) with (key_ (http n)).
  set (key := the_bytes (key_ (http n))) in *. set (mime := mime_of key (entry_of it)).
  apply wp_bind, wp_gets. change (entity_tag (http_request_ (http n4))) with (entity_tag (http_request_ (http n))).
  assert (same_web n n4) as Hs4 by done.
  assert (forall bufs n5, bufs <> [] -> added bufs n4 n5 -> (item_shown Cmd_get (http n) (entry_of it) x = true ->
      Http.gather n5 bufs = Some (item_page (http_request_ (http n)) key (entry_of it) x)) ->
    wp Http.to_write n5 (fun _ n' => web_cache n' = web_cache n /\ cache_item_ (http n') = Some p /\
      web_responds (item_shown Cmd_get (http n) (entry_of it) x = true) (item_page (http_request_ (http n)) key (entry_of it) x) n n')) as Hend.
  { intros bufs n5 Hne Ha Hg. eapply added_write; [exact Hne|exact Ha|]. intros n6 H6' Hc6 Hi6 Hg6.
    split; [by rewrite Hc6, (ad_cache _ _ _ Ha)|]. split; [by rewrite Hi6, (ad_item _ _ _ Ha)|].
    exists bufs. rewrite Hg6. split; [by eapply same_answers|done]. }
  apply wp_bind. change (Http.etag_of it) with (etag_text (entry_of it)).
  case_decide as Hd.
  - eapply wp_mono; [apply not_modified_adds|]. intros [] n5 (bufs&Hne&Ha&Hg). apply (Hend bufs n5 Hne Ha).
    unfold item_shown, item_page. fold key mime. rewrite !decide_True by done. intros [[Hs _]%andb_prop Hsm]%andb_prop. apply Hg; [done|]. unfold short_mime in Hsm. fold mime in Hsm. lia.
  - eapply wp_mono; [by apply (send_item_adds p it mime x n4 sl)|]. intros [] n5 (bufs&Hne&Ha&Hg). apply (Hend bufs n5 Hne Ha).
    unfold item_shown, item_page. fold key mime. rewrite !decide_False by done. intros [[Hs Hdm]%andb_prop Hsm]%andb_prop. apply Hg; [done| |done]. apply mime_length. lia.
Qed.
Lemma get_done h n : span_ok (key_ (http n)) -> head (the_bytes (key_ (http n))) <> Some 47 -> may n h (web_request Cmd_get (http n)) ->
  wp (Http.process_get e alive web self unassigned) n (fun _ => done_web Cmd_get (web_request Cmd_get (http n)) (http n) h n).
Proof.
  intros Hk Hf Hm. unfold Http.process_get. apply wp_bind. eapply wp_mono; [exact (get_cache_item_ok _ h n Hk Hf Hm)|].
  intros [[[p|] reason] x] n1 [(t&f&->) Hl]; cbn [fst snd] in *; set (s := web_cache n1) in *; clearbody s.
  - destruct Hl as (it&y&Hp&Hw&Hi&->&Hstep). eapply wp_mono; [by apply (show_item_ok p it (slab_ s))|]. intros [] n' (Hc&Hci&Hr).
    exists (Found reason (Some (entry_of it, y))), (give p 1 h). rewrite Hc. split_and!; [exact Hstep|exact Hi|right; by exists p|].
    destruct Hr as (bufs&Ha&Hg). exists bufs. split; [eapply same_answers; [|exact Ha]; done|exact Hg].
  - destruct Hl as (Hi&_&_&Hstep). rewrite decide_False by (by eapply lookup_reason). eapply wp_mono; [apply error_renders|].
    intros [] n2 (Hc&Hci&Hr). exists (Found reason None), h. rewrite Hc. split_and!; [done|done|left; split; [by left|apply grown_refl]|]. destruct Hr as (bufs&Ha&Hw). exists bufs. split; [eapply same_answers; [|exact Ha]; done|]. intros _. by apply Hw.
Qed.

Lemma base_fits key en x : entry_shown en x = true -> short_mime key en = true -> Z.of_nat (length (base_text key en x)) < 200.
Proof.
  unfold entry_shown, short_mime. intros [[[?%is_u64_length ?%is_u32_length]%andb_prop ?%is_u32_length]%andb_prop ?%is_u32_length]%andb_prop Hm.
  pose proof (cstr_length (mime_of key en)). text_fits. lia.
Qed.
Definition show_base (p : ptr) (x : Z) : W unit :=
  it ← Http.cache self (Mgr.item p);
  mime ← Http.get_mime_type e web it;
  let text := Http.braces (Http.quoted "cacheid" ++ Parse.decimal (cache_id it) ++ Http.comma ++ Http.quoted "flags" ++ Parse.decimal (flags it) ++ Http.comma ++
    Http.quoted "expiration" ++ Parse.decimal x ++ Http.comma ++ Http.quoted "mime_type" ++ quote ++ cstr mime ++ quote ++ Http.comma ++
    Http.quoted "size" ++ Parse.decimal (data_size it)) in
  body ← Http.snprintf 200 text;
  Http.cache self (Mgr.release_reference p);;
  header ← Http.snprintf 30 (Parse.decimal (Http.buffer_size body) ++ crlf ++ crlf);
  k ← Http.keep;
  Http.add_write_buf (Static (Texts.DEFAULT_RES_200 k));; Http.add_write_buf header;; Http.add_write_buf body;; Http.to_write.
Lemma show_base_ok p it x h n : span_ok (key_ (http n)) -> heap (web_cache n) !! p = Some it -> item_wf (slab_ (web_cache n)) it ->
  inv e (web_cache n) (give p 1 h) -> roomy h -> (forall q, 0 <= h q) ->
  wp (show_base p x) n (fun _ n' => inv e (web_cache n') h /\ model_of (web_cache n') = model_of (web_cache n) /\ cache_item_ (http n') = cache_item_ (http n) /\
    web_responds (item_shown Cmd_getbase (http n) (entry_of it) x = true)
      (page (keepalive (http_request_ (http n))) (base_text (the_bytes (key_ (http n))) (entry_of it) x)) n n').
Proof.
  intros Hk Hp Hw Hi Hroomy Hge. apply wp_bind, wp_call. eapply wp_item; [exact Hp|]. intros t2 f2. set (n3 := stirred t2 f2 _).
  apply wp_bind, (wp_mime it n3 (slab_ (web_cache n))); [done..|]. intros b. change (key_ (http n3)) with (key_ (http n)). cbv zeta.
  destruct (get_data_wf _ _ Hw) as [_ Hl]. rewrite <- Hl.
  match goal with |- context [Http.snprintf 200 ?t] => change t with (base_text (the_bytes (key_ (http n))) (entry_of it) x) end.
  set (text := base_text _ _ _). apply wp_bind, wp_snprintf. intros c. apply wp_bind, wp_call.
  eapply (wp_release_old e _ h p it); [exact Hi| |done|exact Hp|].
  { intros q. pose proof (Hroomy q). lia. }
  intros s' Hi' Hw' Hv _ _ _ _ _ t4 f4. apply wp_bind, wp_snprintf. intros d. cbn [Http.buffer_size].
  set (head := Parse.decimal _ ++ _). apply wp_bind, wp_gets, wp_bind, wp_modify, wp_bind, wp_modify, wp_bind, wp_modify, wp_bind, wp_modify, wp_modify.
  split; [exact Hi'|]. split; [exact (model_world _ s' Hw' Hv)|]. split; [done|].
  set (k := keepalive (http_request_ (http n))). eexists. split; [split; [done..|cbn -[text head]; by rewrite <- !(assoc_L (++))|done]|].
  unfold item_shown. intros [[Hs _]%andb_prop Hsm]%andb_prop. pose proof (base_fits _ _ _ Hs Hsm) as Hfit. fold text in Hfit.
  assert (Z.of_nat (length head) < 30) as Hlh.
  { unfold head. rewrite length_app. pose proof (decimal_length32 (Z.of_nat (length text)) ltac:(lia)). change (length (crlf ++ crlf)) with 4%nat. lia. }
  replace (page k text) with (Texts.DEFAULT_RES_200 k ++ head ++ text ++ []); [gather_all|].
  unfold page, head. by rewrite app_nil_r, <- !(assoc_L (++)).
Qed.
Lemma base_done h n : span_ok (key_ (http n)) -> head (the_bytes (key_ (http n))) <> Some 47 -> may n h (web_request Cmd_getbase (http n)) ->
  wp (Http.process_get_base e alive web self unassigned) n (fun _ => done_web Cmd_getbase (web_request Cmd_getbase (http n)) (http n) h n).
Proof.
  intros Hk Hf Hm. pose proof Hm as (Hi0&Hroomy&_). pose proof (c_held _ _ _ (inv_core e _ _ Hi0)) as Hge. unfold Http.process_get_base.
  apply wp_bind. eapply wp_mono; [exact (get_cache_item_ok _ h n Hk Hf Hm)|].
  intros [[[p|] reason] x] n1 [(t&f&->) Hl]; cbn [fst snd] in *; set (s := web_cache n1) in *; clearbody s.
  - destruct Hl as (it&y&Hp&Hw&Hi&->&Hstep). eapply wp_mono; [by apply (show_base_ok p it _ h)|]. intros [] n' (Hi'&Hmod&Hci&Hr).
    exists (Found reason (Some (entry_of it, y))), h. rewrite Hmod. split_and!; [exact Hstep|exact Hi'|left; split; [by left|apply grown_refl]|].
    destruct Hr as (bufs&Ha&Hg). exists bufs. split; [eapply same_answers; [|exact Ha]; done|exact Hg].
  - destruct Hl as (Hi&_&_&Hstep). eapply wp_mono; [apply error_renders|].
    intros [] n2 (Hc&Hci&Hr). exists (Found reason None), h. rewrite Hc. split_and!; [done|done|left; split; [by left|apply grown_refl]|]. destruct Hr as (bufs&Ha&Hw). exists bufs. split; [eapply same_answers; [|exact Ha]; done|]. intros _. by apply Hw.
Qed.

(** Every command of the manager, with a key that names no file. *)
Definition no_file (c : web_command) (p : Peer_Http) : Prop :=
  match c with Cmd_get | Cmd_getbase => head (the_bytes (key_ p)) <> Some 47 | _ => True end.
Lemma handler_done c h n : span_ok (key_ (http n)) -> span_ok (value_ (http n)) -> no_file c (http n) -> may n h (web_request c (http n)) ->
  wp (handler e alive web self unassigned c) n (fun _ => done_web c (web_request c (http n)) (http n) h n).
Proof.
  intros Hk Hv Hf Hm. destruct c; [by apply get_done|by apply update_done|by apply update_done|try by apply plain_done..].
  all: try by apply update_done. by apply base_done.
Qed.
End serve.
