(* ===== verification/HttpFiles.v ===== *)
(** * The files of an HTTP server

    A path that is no key of the cache and names a file below [webapps] is served from
    there: [get_cache_item] loads the file, or the first welcome file of a directory
    that there is, and [process_get] sends the item as any other. *)

From S2P Require Import Prelude XixiList XixiHashMap Lookup3 Util CurrTime Pdu Stats Watch Slab Cache CacheInv CacheSpec CacheOps CacheData CacheSweep CacheStore CacheLoad CacheRun Buffers Settings Peer PeerFacts PeerRun Http HttpParse HttpServe.

#[local] Arguments Stats.literal : simpl never.

Section files.
Context (e : endian) `{Table_Malloc} `{Item_Malloc} `{!Item_Malloc_Ok} `{Buffer_Malloc} `{Block_Malloc} `{Web_Files} `{Zlib}.
Context (alive : sink -> bool) (web : Settings) (self : sink) (unassigned : Z).
Context (blocks : forall n, malloc_block n = true).
Implicit Types (n : web_node) (h : holds).

(** What the server relies on: the sizes of its files and the lengths of its types fit
    the fields of an item, and the expiration of files is none or in the future. *)
Record files_fit : Prop := {
  ff_size : forall path content, file_content path = Some content -> Z.of_nat (length content) <= 2 ^ 31;
  ff_types : Forall (fun it => Z.of_nat (length (default [] (Simple_Data.data (mime_type it)))) < 2 ^ 8) (ext_mime_list web);
  ff_expiration : 0 <= default_cache_expiration web
}.
Context (fits : files_fit).
Lemma type_fits suffix : Z.of_nat (length (default [] (Conf.get_mime_type e web suffix))) < 2 ^ 8.
Proof.
  unfold Conf.get_mime_type, item_at. destruct (Buckets.find _ _ _) as [p|]; [|done]. cbn.
  destruct (ext_mime_list web !! _) as [it|] eqn:E; [|done]. cbn. pose proof (Forall_lookup_1 _ _ _ _ (ff_types fits) E) as Ht. cbn in Ht.
  destruct (Simple_Data.data (mime_type it)) as [d|]; [|done]. cbn in *. rewrite length_take. lia.
Qed.
Definition short_key (key : bytes) : Prop := Z.of_nat (length key) < 2 ^ 16.
Definition short_paths (key : bytes) : Prop := short_key key /\ Forall (fun f => short_key (key ++ f)) (welcome_file_list web).

(** The node and the cache of a look-up. *)
Definition may_look n h : Prop :=
  inv e (web_cache n) h /\ roomy h /\ (touch_flag_ (http n) = true -> 0 <= expiration_ (http n)).
Lemma look_allowed n h key b : may_look n h -> may e n h (lookup_at key b (http n)).
Proof. intros (Hi&Hr&Hx). split_and!; [done..|]. unfold lookup_at. destruct (touch_flag_ (http n)); [by apply Hx|done]. Qed.

(** What a file makes of an entry. *)
Definition file_entry (t x : Z) (key content : bytes) : entry :=
  mk_entry 0 (Current_Time.realtime t x) 0 content (default [] (Conf.get_mime_type e web (suffix_of key))) [].
Definition the_cache n n' : Prop := exists t f b, n' = stirred t f (with_pieces b (n <| web_cache := web_cache n' |>)).
Lemma the_cache_refl n : the_cache n n.
Proof. exists (timer_ (http n)), (timer_flag_ (http n)), (request_buf_ (http n)). by destruct n as [[]]. Qed.
Lemma the_cache_trans n1 n2 n3 : the_cache n1 n2 -> the_cache n2 n3 -> the_cache n1 n3.
Proof. intros (t&f&b&->) (t'&f'&b'&->). by exists t', f', b'. Qed.
Lemma the_cache_may n n' h : the_cache n n' -> inv e (web_cache n') h -> may_look n h -> may_look n' h.
Proof. intros (t&f&b&->) Hi (_&Hr&Hx). by split_and!. Qed.

Lemma load_ok key path x h n : inv e (web_cache n) h -> roomy h -> short_key key -> 0 <= x ->
  wp (Http.load e web self key path x) n (fun l n' => the_cache n n' /\ match file_content path with
    | None => l = (None, XIXI_REASON_NOT_FOUND) /\ web_cache n' = web_cache n
    | Some content =>
        match l.1 with
        | Some p => l.2 = XIXI_REASON_SUCCESS /\ loaded_item e (web_cache n) h (group_id_ (http n), key) (file_entry (time_of (web_cache n)) x key content) (watch_id_ (http n)) p (web_cache n')
        | None => inv e (web_cache n') h /\ view (web_cache n') = view (web_cache n) /\
            l.2 ∈ [XIXI_REASON_OUT_OF_MEMORY; XIXI_REASON_TOO_LARGE; XIXI_REASON_WATCH_NOT_FOUND]
        end
    end).
Proof.
  intros Hi Hr Hk Hx. unfold Http.load. apply wp_bind, wp_gets, wp_bind, wp_gets, wp_call.
  assert (forall s t b, the_cache n (stirred t b (n <| web_cache := s |>))) as Hsame.
  { intros s t b. by exists t, b, (request_buf_ (http n)). }
  destruct (file_content path) as [content|] eqn:E.
  - pose proof (load_spec e (fun _ => file_content path) (Conf.get_mime_type e web) (web_cache n) h (group_id_ (http n)) key (watch_id_ (http n)) x content
      Hi Hr E Hk (ff_size fits _ _ E) (type_fits _) Hx) as Hl.
    rewrite E in Hl. apply (wp_mono _ _ _ _ Hl). intros [[p|] reason] s (_&Hl') t b; cbn [fst snd] in *; (split; [by apply Hsame|]); [apply Hl'|exact Hl'].
  - apply wp_ret. intros t b. split; [by apply Hsame|]. done.
Qed.

(** ** What [get_cache_item] hands out *)
Record obtained h n (r : option ptr * xixi_reason * Z) n' : Prop := {
  ob_same : the_cache n n';
  ob_item :
    match r.1.1 with
    | Some p => inv e (web_cache n') (give p 1 h) /\ exists it, heap (web_cache n') !! p = Some it /\ item_wf (slab_ (web_cache n')) it
    | None => inv e (web_cache n') h
    end
}.
Lemma obtained_after h n1 n2 r n3 : the_cache n1 n2 -> obtained h n2 r n3 -> obtained h n1 r n3.
Proof. intros Hs [Hs' Hi]. split; [by eapply the_cache_trans|done]. Qed.
Lemma looked_obtained h n r n' q : looked_up e alive q h n r n' -> obtained h n r n'.
Proof.
  intros [(t&f&Hn) Hf]. split; [exists t, f, (request_buf_ (http n)); exact Hn|]. destruct r.1.1 as [p|]; [|apply Hf].
  destruct Hf as (it&y&?&?&?&_). split; [done|by exists it].
Qed.
Lemma loaded_obtained h n (l : option ptr * xixi_reason) x n' path key en w : inv e (web_cache n) h -> the_cache n n' ->
  match file_content path with
  | None => l = (None, XIXI_REASON_NOT_FOUND) /\ web_cache n' = web_cache n
  | Some content => match l.1 with
                    | Some p => l.2 = XIXI_REASON_SUCCESS /\ loaded_item e (web_cache n) h key (en content) w p (web_cache n')
                    | None => inv e (web_cache n') h /\ view (web_cache n') = view (web_cache n) /\
                        l.2 ∈ [XIXI_REASON_OUT_OF_MEMORY; XIXI_REASON_TOO_LARGE; XIXI_REASON_WATCH_NOT_FOUND]
                    end
  end -> obtained h n (l.1, l.2, x) n'.
Proof.
  intros Hi Hs Hl. split; [done|]. cbn [fst]. destruct (file_content path) as [content|].
  - destruct l.1 as [p|]; [|apply Hl]. destruct Hl as [_ [Hi' (it&Hp&Hlk&_)]]. split; [done|]. exists it. split; [done|].
    by destruct (linked_item e _ _ p it (inv_core e _ _ Hi') Hlk Hp).
  - destruct Hl as [-> ->]. done.
Qed.

Lemma wp_file_expiration x n Q : (touch_flag_ (http n) = true -> 0 <= x) ->
  (0 <= (if touch_flag_ (http n) then x else default_cache_expiration web) -> Q (if touch_flag_ (http n) then x else default_cache_expiration web) n) ->
  wp (Http.file_expiration web x) n Q.
Proof.
  intros Hx HQ. apply wp_bind, wp_gets, wp_ret, HQ. destruct (touch_flag_ (http n)); [by apply Hx|apply (ff_expiration fits)].
Qed.
(** ** The welcome files of a directory *)

(** The expiration of a file, and what a request comes to: the page of an entry with
    the time that is told of it, or the text of a reason. *)
Definition told n : Z := if touch_flag_ (http n) then expiration_ (http n) else default_cache_expiration web.
Inductive served := Shown (en : entry) (x : Z) | Refused (reason : xixi_reason).
(** The cache with a file that was read, unless its key was there. *)
Definition with_file (k : key) (en : entry) (m : cache) : cache := match m !! k with Some _ => m | None => <[k := en]> m end.
(** The names are tried in their order, each behind the path: as a key of the cache,
    as the reference looks it up, and if it finds none as a file; the first one that
    is there is used.  [v] is the cache that is left. *)
Fixpoint welcomed (b : bool) n (files : list bytes) (m : model) (a : served) (v : cache) : Prop :=
  match files with
  | [] => a = Refused XIXI_REASON_NOT_FOUND /\ v = m.1
  | f :: files =>
      let t := time_of (web_cache n) in
      let key := the_bytes (key_ (http n)) ++ f in
      let k := (group_id_ (http n), key) in
      exists reason found m1, spec_step alive t (lookup_at key b (http n)) (Found reason found) m m1 /\
      match found, file_content (cstr key) with
      | Some (en, y), _ => a = Shown en (told_time (http n) y) /\ v = m1.1
      | None, None => welcomed b n files m1 a v
      | None, Some content =>
          (exists id en, v = with_file k (stored id (watch_id_ (http n)) (file_entry t (told n) key content)) m1.1 /\
             v !! k = Some en /\ a = Shown en (told n)) \/
          exists reason, a = Refused reason /\ v = m1.1 /\ reason ∈ [XIXI_REASON_OUT_OF_MEMORY; XIXI_REASON_TOO_LARGE; XIXI_REASON_WATCH_NOT_FOUND]
      end
  end.
Lemma welcomed_same b n n' files m a v : the_cache n n' -> curr_time_ (web_cache n') = curr_time_ (web_cache n) ->
  welcomed b n' files m a v -> welcomed b n files m a v.
Proof.
  intros (t&f&p&En) Ht. assert (http n' = (http n) <| request_buf_ := p |> <| timer_ := t |> <| timer_flag_ := f |>) as Eh by (by rewrite En).
  clear En. revert m. induction files as [|g files IH]; intros m; cbn [welcomed]; [done|]. unfold told, time_of. rewrite Ht, Eh.
  intros (reason&found&m1&Hs&Hw). exists reason, found, m1. split; [exact Hs|]. cbn in Hw. revert Hw.
  destruct found as [[en y]|]; [done|]. destruct (file_content _) as [content|]; [done|apply IH].
Qed.
(** What is handed out is the entry that is shown. *)
Definition hands_out (r : option ptr * xixi_reason * Z) (a : served) n' : Prop :=
  match r.1.1 with
  | Some p => exists it, heap (web_cache n') !! p = Some it /\ a = Shown (entry_of it) r.2
  | None => a = Refused r.1.2
  end.
Definition walked b files h n r n' : Prop := obtained h n r n' /\ exists a, welcomed b n files (model_of (web_cache n)) a (view (web_cache n')) /\ hands_out r a n'.
Lemma file_walked b f files h n n2 (l : option ptr * xixi_reason) n3 reason2 content :
  let key := the_bytes (key_ (http n)) ++ f in
  spec_step alive (time_of (web_cache n)) (lookup_at key b (http n)) (Found reason2 None) (model_of (web_cache n)) (model_of (web_cache n2)) ->
  file_content (cstr key) = Some content -> curr_time_ (web_cache n2) = curr_time_ (web_cache n) ->
  match l.1 with
  | Some p => l.2 = XIXI_REASON_SUCCESS /\ loaded_item e (web_cache n2) h (group_id_ (http n), key)
                (file_entry (time_of (web_cache n2)) (told n) key content) (watch_id_ (http n)) p (web_cache n3)
  | None => inv e (web_cache n3) h /\ view (web_cache n3) = view (web_cache n2) /\
      l.2 ∈ [XIXI_REASON_OUT_OF_MEMORY; XIXI_REASON_TOO_LARGE; XIXI_REASON_WATCH_NOT_FOUND]
  end ->
  exists a, welcomed b n (f :: files) (model_of (web_cache n)) a (view (web_cache n3)) /\ hands_out (l.1, l.2, told n) a n3.
Proof.
  intros key Hs Hc Ht Hl. assert (time_of (web_cache n2) = time_of (web_cache n)) as Et by (unfold time_of; by rewrite Ht).
  rewrite Et in Hl. destruct l as [[p|] reason]; cbn [fst snd] in *.
  - destruct Hl as (_&_&it&Hp&_&_&Hv&Hen). exists (Shown (entry_of it) (told n)). split; [|by exists it].
    cbn [welcomed]. exists reason2, None, (model_of (web_cache n2)). split; [exact Hs|]. fold key. rewrite Hc. left.
    eexists _, (entry_of it). split; [exact Hv|]. split; [exact Hen|done].
  - destruct Hl as (_&Hv&Hr). exists (Refused reason). split; [|done].
    cbn [welcomed]. exists reason2, None, (model_of (web_cache n2)). split; [exact Hs|]. fold key. rewrite Hc. right. by exists reason.
Qed.
Lemma welcome_ok b files : forall r h n, span_ok (key_ (http n)) -> may_look n h -> r.1 = (None, XIXI_REASON_NOT_FOUND) ->
  (touch_flag_ (http n) = true -> 0 <= r.2) ->
  Forall (fun f => short_key (the_bytes (key_ (http n)) ++ f)) files -> wp (Http.welcome_loop e alive web self files b r) n (walked b files h n).
Proof.
  induction files as [|f files IH]; intros [[o reason] x0] h n Hk Hm Ho Hx Hs; cbn [Http.welcome_loop fst snd] in *.
  { injection Ho as -> ->. apply wp_ret. split; [split; [apply the_cache_refl|apply Hm]|]. by exists (Refused XIXI_REASON_NOT_FOUND). }
  apply Forall_cons in Hs as [Hs1 Hs]. apply wp_bind, wp_the_key; [done|]. cbv zeta. apply wp_bind, wp_must_prepare; [done|]. intros b1.
  set (n1 := with_pieces b1 n). assert (the_cache n n1) as H01 by (exists (timer_ (http n)), (timer_flag_ (http n)), b1; by destruct n as [[]]).
  apply wp_bind. pose proof (look_up_ok e alive web self (the_bytes (key_ (http n)) ++ f) b x0 h n1 (look_allowed n1 h _ b Hm)) as Hlook.
  apply (wp_mono _ _ _ _ Hlook). clear Hlook. intros r n2 Hl. pose proof (looked_obtained _ _ _ _ _ Hl) as [H12 Hi2]. destruct Hl as [_ Hl].
  pose proof (the_cache_trans _ _ _ H01 H12) as H02. destruct r as [[[p|] reason2] x2]; cbn [fst snd] in *.
  { apply wp_ret. split; [by split|]. destruct Hl as (it&y&Hp&_&_&->&Hstep). exists (Shown (entry_of it) (told_time (http n) y)).
    split; [|by exists it]. cbn [welcomed]. exists reason2, (Some (entry_of it, y)), (model_of (web_cache n2)). by split; [exact Hstep|]. }
  destruct Hl as (_&Hck&Hx2&Hstep). pose proof (the_cache_may _ _ _ H02 Hi2 Hm) as Hm2.
  assert (http_request_ (http n2) = http_request_ (http n) /\ key_ (http n2) = key_ (http n) /\ touch_flag_ (http n2) = touch_flag_ (http n) /\
    group_id_ (http n2) = group_id_ (http n) /\ watch_id_ (http n2) = watch_id_ (http n)) as (Er&Ek&Et&Eg&Ew).
  { destruct H02 as (?&?&?&->). done. }
  apply wp_bind, wp_file_expiration.
  { rewrite Et. intros Htf. rewrite (Hx2 Htf). by apply Hm. }
  rewrite Et. assert ((if touch_flag_ (http n) then x2 else default_cache_expiration web) = told n) as ->.
  { unfold told. destruct (touch_flag_ (http n)) eqn:E; [by apply Hx2|done]. }
  intros Hx3. apply wp_bind.
  eapply wp_mono; [apply load_ok; [apply Hm2|apply Hm2|done|exact Hx3]|]. intros l n3 (H23&Hl3).
  pose proof (loaded_obtained h n2 l (told n) n3 _ _ _ _ ltac:(apply Hm2) H23 Hl3) as Hob. rewrite Eg, Ew in Hl3.
  change (curr_time_ (web_cache n2) = curr_time_ (web_cache n)) in Hck.
  destruct (file_content _) as [content|] eqn:Ec.
  - assert (l.2 <> XIXI_REASON_NOT_FOUND) as Hne.
    { destruct l.1; [destruct Hl3 as [Hl3 _]; congruence|]. destruct Hl3 as (_&_&Hin). intros E. rewrite E in Hin. set_solver. }
    rewrite decide_False by done. apply wp_ret. split; [by eapply obtained_after|].
    by eapply (file_walked b f files h n n2 l n3 reason2 content).
  - destruct Hl3 as [-> Hc3]. cbn [fst snd]. rewrite decide_True by done. destruct Hob as [_ Hi3]. cbn [fst] in Hi3.
    pose proof (the_cache_trans _ _ _ H02 H23) as H03. assert (key_ (http n3) = key_ (http n) /\ touch_flag_ (http n3) = touch_flag_ (http n)) as (Ek3&Et3).
    { destruct H03 as (?&?&?&->). done. }
    eapply wp_mono; [apply IH; [by rewrite Ek3|by eapply the_cache_may|done| |by rewrite Ek3]|].
    { cbn [snd]. rewrite Et3. unfold told in *. intros Htf. by rewrite Htf in *. }
    intros r n4 [Hob (a&Hw&Ha)]. split; [by eapply obtained_after|]. exists a. split; [|exact Ha].
    cbn [welcomed]. exists reason2, None, (model_of (web_cache n3)). rewrite Ec. split; [rewrite Hc3; exact Hstep|].
    eapply welcomed_same; [exact H03|by rewrite Hc3|exact Hw].
Qed.

(** The first byte of a key decides what [get_cache_item] does with one that is not
    found. *)
Lemma slash_first {A} (key : bytes) (a b : A) :
  (head key = Some 47 -> (match key with 47 :: _ => a | _ => b end) = a) /\ (head key <> Some 47 -> (match key with 47 :: _ => a | _ => b end) = b).
Proof.
  destruct key as [|z key]; [done|]. split; [by intros [= ->]|]. intros Hz. assert (z <> 47) by (cbn in Hz; congruence).
  destruct z as [|z|z]; try done. repeat (destruct z as [z|z|]; try done).
Qed.
(** Lines 1133-1164, of a path that is no key of the cache. *)
Definition find_file (b : bool) (key : bytes) (x : Z) : W (option ptr * xixi_reason * Z) :=
  string ← Http.my (fun p => span_string (key_ p));
  if negb (Http.stays_below (path_parts string) 0) then mret (None, XIXI_REASON_NOT_FOUND, x)
  else
    match kind_of string with
    | Absent | Fails => mret (None, XIXI_REASON_NOT_FOUND, x)
    | Directory =>
        if decide (last key = Some 47) then Http.get_welcome_file e alive web self b x
        else mret (None, XIXI_REASON_MOVED_PERMANENTLY, x)
    | Regular =>
        x ← Http.file_expiration web x;
        l ← Http.load e web self key string x;
        mret (l.1, l.2, x)
    end.
Lemma find_file_ok b x h n : span_ok (key_ (http n)) -> may_look n h -> short_paths (the_bytes (key_ (http n))) ->
  (touch_flag_ (http n) = true -> 0 <= x) -> wp (find_file b (the_bytes (key_ (http n))) x) n (obtained h n).
Proof.
  intros Hk Hm [Hs1 Hs] Hx. assert (forall reason y, obtained h n (None, reason, y) n) as Hnone.
  { intros reason y. split; [apply the_cache_refl|apply Hm]. }
  apply wp_bind, wp_gets. set (path := span_string _). destruct (negb _); [by apply wp_ret|]. destruct (kind_of path).
  - by apply wp_ret.
  - case_decide; [|by apply wp_ret]. eapply wp_mono; [by apply welcome_ok|]. by intros r n' [].
  - apply wp_bind, wp_file_expiration; [done|]. intros Hx2. set (x2 := if touch_flag_ (http n) then x else _) in *. apply wp_bind.
    eapply wp_mono; [apply load_ok; [apply Hm|apply Hm|done|exact Hx2]|]. intros l n3 (H3'&Hl). apply wp_ret.
    eapply loaded_obtained; [apply Hm|done|exact Hl].
  - by apply wp_ret.
Qed.
Lemma get_cache_item_obtains b h n : span_ok (key_ (http n)) -> may_look n h -> short_paths (the_bytes (key_ (http n))) ->
  wp (Http.get_cache_item e alive web self unassigned b) n (obtained h n).
Proof.
  intros Hk Hm Hs. unfold Http.get_cache_item. apply wp_bind, wp_the_key; [done|]. apply wp_bind.
  pose proof (look_up_ok e alive web self (the_bytes (key_ (http n))) b unassigned h n (look_allowed n h _ b Hm)) as Hlook.
  apply (wp_mono _ _ _ _ Hlook). clear Hlook. intros r n1 Hl. pose proof (looked_obtained _ _ _ _ _ Hl) as Hob. destruct Hl as [_ Hl].
  destruct r as [[[p|] reason] x]; cbn [fst snd] in *; [by apply wp_ret|]. destruct Hob as [H01 Hi1]. cbn [fst] in Hi1. 
  assert (key_ (http n1) = key_ (http n) /\ touch_flag_ (http n1) = touch_flag_ (http n)) as (Ek&Et) by (by destruct H01 as (?&?&?&->)).
  destruct Hl as (_&_&Hx&_). pose proof (the_cache_may _ _ _ H01 Hi1 Hm) as Hm1.
  set (key := the_bytes (key_ (http n))) in *. destruct (decide (head key = Some 47)) as [Hh|Hh].
  - rewrite (proj1 (slash_first key _ _) Hh). eapply wp_mono; [|intros r n2; by apply obtained_after].
    unfold key. rewrite <- Ek. apply (find_file_ok b x h n1); [by rewrite Ek|done|by rewrite Ek|].
    rewrite Et. intros Htf. rewrite (Hx Htf). by apply Hm.
  - rewrite (proj2 (slash_first key _ _) Hh). apply wp_ret. split; [done|exact Hi1].
Qed.

(** ** The answers *)

(** The page of a directory that is asked for without its last slash. *)
Definition moved_text (path : bytes) : bytes :=
  Stats.literal "<HTML><HEAD><TITLE>301 Moved</TITLE></HEAD><BODY><H1>301 Moved</H1>The document has moved<A HREF=" ++ quote ++
    path ++ Stats.literal "/" ++ quote ++ Stats.literal ">here</A>.</BODY></HTML>".
Definition moved_page (k : bool) (path : bytes) : bytes :=
  Texts.GET_RES_301 k ++ Parse.decimal (Z.of_nat (length (moved_text path))) ++ crlf ++ Stats.literal "Location: " ++ path ++ Stats.literal "/" ++ crlf ++ crlf ++
  moved_text path.
Lemma moved_renders n : let path := span_string (key_ (http n)) in
  wp Http.moved n (fun _ => renders (moved_page (keeps n) path) (Z.of_nat (length path) <= span_len (key_ (http n)) < 2 ^ 31) n).
Proof.
  intros path. unfold Http.moved. apply wp_bind, wp_gets. fold path. fold (moved_text path).
  apply wp_bind, (wp_snprintf blocks). intros b. apply wp_bind, (wp_snprintf blocks). intros c. cbn [Http.buffer_size].
  set (body := moved_text _). set (line := Parse.decimal _ ++ _).
  apply wp_bind, wp_gets, wp_bind, wp_modify, wp_bind, wp_modify, wp_bind, wp_modify, wp_bind, wp_modify, wp_modify.
  split_and!; [done..|]. eexists. split; [split; [done..|cbn -[body line]; by rewrite <- !(assoc_L (++))|done]|]. intros Hl n2.
  assert (Z.of_nat (length body) < u32 (150 + span_len (key_ (http n)))) as Hb.
  { rewrite wrap_small by lia. unfold body, moved_text. text_length. lia. }
  assert (Z.of_nat (length line) < u32 (35 + span_len (key_ (http n)))) as Hln.
  { rewrite wrap_small in * by lia. unfold line. text_length. pose proof (decimal_length32 (Z.of_nat (length body)) ltac:(lia)). lia. }
  replace (moved_page (keeps n) path) with (Texts.GET_RES_301 (keeps n) ++ line ++ body ++ []).
  - apply gather_cons; [done|]. apply gather_cons; [by apply fetch_piece|]. apply gather_cons; [by apply fetch_piece|done].
  - unfold moved_page, line. by rewrite app_nil_r, <- !(assoc_L (++)).
Qed.

(** A command was dealt with: the references that are left, and a response. *)
Definition settled h n n' : Prop :=
  exists total bufs, inv e (web_cache n') total /\ item_kept n n' h total /\ answers bufs n n'.
Lemma done_settled c q p h n n' : done_web e alive web unassigned c q p h n n' -> settled h n n'.
Proof. intros (a&total&_&Hi&Hk&bufs&Ha&_). by exists total, bufs. Qed.
Lemma renders_settled resp fit h n n' : inv e (web_cache n) h -> renders resp fit n n' -> settled h n n'.
Proof. intros Hi (Hc&Hci&bufs&Ha&_). exists h, bufs. rewrite Hc. split_and!; [done| |done]. left. split; [by left|apply grown_refl]. Qed.
Lemma same_settled h n1 n2 n' : same_web n1 n2 -> cache_item_ (http n2) = cache_item_ (http n1) -> settled h n2 n' -> settled h n1 n'.
Proof.
  intros Hs Hc (total&bufs&Hi&Hk&Ha). exists total, bufs. split_and!; [done| |by eapply same_answers]. unfold item_kept in *. by rewrite <- Hc.
Qed.
Lemma the_cache_same n n' : the_cache n n' -> same_web n n' /\ cache_item_ (http n') = cache_item_ (http n).
Proof. by intros (?&?&?&->). Qed.

Lemma get_settles h n : span_ok (key_ (http n)) -> may_look n h -> short_paths (the_bytes (key_ (http n))) ->
  wp (Http.process_get e alive web self unassigned) n (fun _ => settled h n).
Proof.
  intros Hk Hm Hs. unfold Http.process_get. apply wp_bind. eapply wp_mono; [by apply get_cache_item_obtains|].
  intros [[o reason] x] n1 [H01 Hi1]; cbn [fst snd] in *. pose proof (the_cache_same _ _ H01) as [Hsm Hci].
  assert (forall m, wp m n1 (fun _ => settled h n1) -> wp m n1 (fun _ : unit => settled h n)) as Hend.
  { intros m Hw. eapply wp_mono; [exact Hw|]. intros [] n2. by apply same_settled. }
  assert (span_ok (key_ (http n1))) as Hk1 by (by destruct H01 as (?&?&?&->)).
  apply Hend. destruct o as [p|].
  - destruct Hi1 as [Hi1 (it&Hp&Hw)]. eapply wp_mono; [by apply (show_item_ok e web self blocks p it (slab_ (web_cache n1)))|].
    intros [] n2 (Hc&Hci2&bufs&Ha&_). exists (give p 1 h), bufs. rewrite Hc. split_and!; [done| |done]. right. by exists p.
  - case_decide; [eapply wp_mono; [apply moved_renders|]|eapply wp_mono; [apply error_renders|]]; intros [] n2; by apply renders_settled.
Qed.
Lemma base_settles h n : span_ok (key_ (http n)) -> may_look n h -> short_paths (the_bytes (key_ (http n))) ->
  wp (Http.process_get_base e alive web self unassigned) n (fun _ => settled h n).
Proof.
  intros Hk Hm Hs. unfold Http.process_get_base. apply wp_bind. eapply wp_mono; [by apply get_cache_item_obtains|].
  intros [[o reason] x] n1 [H01 Hi1]; cbn [fst snd] in *. pose proof (the_cache_same _ _ H01) as [Hsm Hci].
  assert (span_ok (key_ (http n1))) as Hk1 by (by destruct H01 as (?&?&?&->)).
  apply (wp_mono _ _ (fun _ => settled h n1)); [|intros [] n2; by apply same_settled]. destruct o as [p|].
  - destruct Hi1 as [Hi1 (it&Hp&Hw)]. eapply wp_mono; [apply (show_base_ok e web self blocks p it x h); try done|].
    { apply Hm. } { apply (c_held _ _ _ (inv_core e _ _ (proj1 Hm))). }
    intros [] n2 (Hi2&_&Hci2&bufs&Ha&_). exists h, bufs. split_and!; [done| |done]. left. split; [by left|apply grown_refl].
  - eapply wp_mono; [apply error_renders|]; intros [] n2; by apply renders_settled.
Qed.

(** ** A path that is no key of the cache *)
Lemma absent_model key b p t reason en m m' : m.1 !! (group_id_ p, key) = None ->
  spec_step alive t (lookup_at key b p) (Found reason en) m m' -> reason = XIXI_REASON_NOT_FOUND /\ en = None /\ m' = m.
Proof.
  intros Hv. unfold lookup_at. destruct (touch_flag_ p); cbn; intros (r&en'&[= -> ->]&Hs); [unfold spec_get_touch in Hs|unfold spec_get in Hs];
    rewrite Hv in Hs; by injection Hs as -> -> ->.
Qed.
(** Nothing changes, and a page is sent; or the file is in the cache, and sent. *)
Definition refused h n n' (page : bytes) : Prop :=
  inv e (web_cache n') h /\ view (web_cache n') = view (web_cache n) /\ web_responds True page n n'.
Definition file_sent h n n' (content : bytes) : Prop := exists p id,
  let key := the_bytes (key_ (http n)) in
  let en := stored id (watch_id_ (http n)) (file_entry (time_of (web_cache n)) (told n) key content) in
  cache_item_ (http n') = Some p /\ inv e (web_cache n') (give p 1 h) /\ view (web_cache n') = <[the_place (http n) := en]> (view (web_cache n)) /\
  web_responds (item_shown e web Cmd_get (http n) en (told n) = true) (item_page e web (http_request_ (http n)) key en (told n)) n n'.
(** The page of what the welcome files come to. *)
Definition serves h n n' (a : served) (v : cache) : Prop :=
  view (web_cache n') = v /\
  match a with
  | Shown en x => exists p, cache_item_ (http n') = Some p /\ inv e (web_cache n') (give p 1 h) /\
      web_responds (item_shown e web Cmd_get (http n) en x = true) (item_page e web (http_request_ (http n)) (the_bytes (key_ (http n))) en x) n n'
  | Refused reason => inv e (web_cache n') h /\ web_responds True (Texts.error_text reason (keeps n)) n n'
  end.
Lemma welcomed_reason b n files m a v : welcomed b n files m a v -> a <> Refused XIXI_REASON_MOVED_PERMANENTLY.
Proof.
  revert m. induction files as [|f files IH]; intros m; cbn [welcomed]; [by intros [-> _]|].
  intros (reason&found&m1&_&Hw). destruct found as [[en y]|]; [by destruct Hw as [-> _]|]. destruct (file_content _); [|by eapply IH].
  destruct Hw as [(id&en&_&_&->)|(reason'&->&_&Hr)]; [done|]. intros [= ->]. set_solver.
Qed.
Lemma handed_served h n n2 r a : span_ok (key_ (http n)) -> the_cache n n2 -> obtained h n r n2 -> hands_out r a n2 ->
  a <> Refused XIXI_REASON_MOVED_PERMANENTLY ->
  wp (match r.1.1 with
      | Some p => show_item e web self p r.2
      | None => if decide (r.1.2 = XIXI_REASON_MOVED_PERMANENTLY) then Http.moved else Http.write_error r.1.2
      end) n2 (fun _ n' => serves h n n' a (view (web_cache n2))).
Proof.
  intros Hk Hs [_ Hi] Ha Hne. pose proof (the_cache_same _ _ Hs) as [Hsm _]. unfold hands_out in Ha.
  assert (http_request_ (http n2) = http_request_ (http n) /\ key_ (http n2) = key_ (http n) /\ keeps n2 = keeps n /\
    forall en x, item_shown e web Cmd_get (http n2) en x = item_shown e web Cmd_get (http n) en x) as (Er&Ek&Ekp&Eit).
  { destruct Hs as (?&?&?&->). done. }
  destruct r as [[[p|] reason] x]; cbn [fst snd] in *.
  - destruct Hi as [Hi (it&Hp&Hwf)], Ha as (it'&Hp'&->). assert (it' = it) as -> by congruence.
    eapply wp_mono; [apply (show_item_ok e web self blocks p it (slab_ (web_cache n2)) x n2); [by rewrite Ek|exact Hp|exact Hwf]|].
    intros [] n3 (Hc3&Hci3&bufs&Hb&Hg). split; [by rewrite Hc3|]. exists p. split; [done|]. split; [by rewrite Hc3|].
    exists bufs. split; [by eapply same_answers|]. rewrite Eit, Er, Ek in Hg. exact Hg.
  - subst a. rewrite decide_False by congruence. eapply wp_mono; [apply error_renders|]. intros [] n3 (Hc3&_&Hw3).
    split; [by rewrite Hc3|]. split; [by rewrite Hc3|]. rewrite Ekp in Hw3. by eapply writes_responds, same_writes.
Qed.
Definition path_answered h n n' : Prop :=
  let path := span_string (key_ (http n)) in
  let k := keeps n in
  let missing := refused h n n' (Texts.error_text XIXI_REASON_NOT_FOUND k) in
  if negb (Http.stays_below (path_parts path) 0) then missing
  else
    match kind_of path with
    | Absent | Fails => missing
    | Directory =>
        if decide (last (the_bytes (key_ (http n))) = Some 47) then
          exists a v, welcomed false n (welcome_file_list web) (model_of (web_cache n)) a v /\ serves h n n' a v
        else inv e (web_cache n') h /\ view (web_cache n') = view (web_cache n) /\
        web_responds (Z.of_nat (length path) <= span_len (key_ (http n)) < 2 ^ 31) (moved_page k path) n n'
    | Regular =>
        match file_content path with
        | None => missing
        | Some content => file_sent h n n' content \/ exists reason, refused h n n' (Texts.error_text reason k) /\
            reason ∈ [XIXI_REASON_OUT_OF_MEMORY; XIXI_REASON_TOO_LARGE; XIXI_REASON_WATCH_NOT_FOUND]
        end
    end.
Lemma path_answers h n : let key := the_bytes (key_ (http n)) in
  span_ok (key_ (http n)) -> may_look n h -> short_paths key -> head key = Some 47 -> view (web_cache n) !! the_place (http n) = None ->
  wp (Http.process_get e alive web self unassigned) n (fun _ => path_answered h n).
Proof.
  intros key Hk Hm [Hs Hsw] Hh Hv. unfold Http.process_get, Http.get_cache_item. apply wp_bind, wp_bind, wp_the_key; [done|]. apply wp_bind.
  pose proof (look_up_ok e alive web self key false unassigned h n (look_allowed n h _ _ Hm)) as Hlook. fold key.
  apply (wp_mono _ _ _ _ Hlook). clear Hlook. intros [[o reason] x] n1 Hl. pose proof (looked_obtained _ _ _ _ _ Hl) as [H01 Hi1].
  destruct Hl as [_ Hl]. cbn [fst snd] in *. assert (o = None) as ->.
  { destruct o as [p|]; [|done]. destruct Hl as (it&y&_&_&_&_&Hstep). apply absent_model in Hstep as (_&?&_); done. }
  destruct Hl as (_&Hck&Hx&Hstep). apply absent_model in Hstep as (->&_&Hmod); [|done]. injection Hmod as Hvw Hws.
  rewrite (proj1 (slash_first key _ _) Hh). apply wp_bind, wp_gets. unfold path_answered.
  pose proof H01 as Hsame. destruct H01 as (t&f&b&En). assert (key_ (http n1) = key_ (http n) /\ keeps n1 = keeps n /\ touch_flag_ (http n1) = touch_flag_ (http n) /\
    group_id_ (http n1) = group_id_ (http n) /\ watch_id_ (http n1) = watch_id_ (http n) /\ http_request_ (http n1) = http_request_ (http n)) as (Ek&Ekp&Et&Eg&Ew&Er) by (by rewrite En).
  pose proof (the_cache_same n n1 ltac:(by exists t, f, b)) as [Hsm Hci]. rewrite Ek. set (path := span_string (key_ (http n))) in *.
  assert (forall n2 reason, inv e (web_cache n2) h -> view (web_cache n2) = view (web_cache n) -> same_web n n2 -> keeps n2 = keeps n ->
    wp (Http.write_error reason) n2 (fun _ n' => refused h n n' (Texts.error_text reason (keeps n)))) as Herr.
  { intros n2 reason Hi2 Hv2 Hs2 Hk2. eapply wp_mono; [apply error_renders|]. intros [] n3 (Hc3&_&Hw3). split; [by rewrite Hc3|]. split; [by rewrite Hc3|].
    rewrite Hk2 in Hw3. by eapply writes_responds, same_writes. }
  destruct (negb _); [apply wp_ret; by apply Herr|]. destruct (kind_of path) eqn:Hkind.
  - apply wp_ret. by apply Herr.
  - fold key. destruct (decide (last key = Some 47)) as [Hd|Hd].
    { pose proof (welcome_ok false (welcome_file_list web) (None, XIXI_REASON_NOT_FOUND, x) h n1) as Hw. rewrite Ek in Hw.
      apply (wp_mono _ _ _ _ (Hw Hk (the_cache_may _ _ _ Hsame Hi1 Hm) eq_refl ltac:(cbn [snd]; rewrite Et; intros Htf; rewrite (Hx Htf); by apply Hm) Hsw)).
      intros r n2 [Hob (a&Hwl&Ha)]. pose proof (ob_same _ _ _ _ Hob) as H12. assert (model_of (web_cache n1) = model_of (web_cache n)) as Emod.
      { unfold model_of. congruence. }
      rewrite Emod in Hwl. eapply wp_mono; [apply (handed_served h n n2 r a); [done|by eapply the_cache_trans|by eapply obtained_after|done|by eapply welcomed_reason]|].
      intros [] n3 Hs3. exists a, (view (web_cache n2)). split; [|exact Hs3]. by eapply welcomed_same. }
    apply wp_ret. cbn [fst snd]. rewrite decide_True by done. eapply wp_mono; [apply moved_renders|].
    intros [] n2 (Hc2&_&Hw2). rewrite Hc2, Ekp in *. rewrite Ek in Hw2. split; [done|]. split; [done|]. by eapply writes_responds, same_writes.
  - apply wp_bind, wp_file_expiration.
    { rewrite Et. intros Htf. rewrite (Hx Htf). by apply Hm. }
    rewrite Et. assert ((if touch_flag_ (http n) then x else default_cache_expiration web) = told n) as ->.
    { unfold told. destruct (touch_flag_ (http n)); [by apply Hx|done]. }
    intros Hx2. apply wp_bind. eapply wp_mono; [apply load_ok; [exact Hi1|apply Hm|done|exact Hx2]|]. intros l n2 (H12&Hl2).
    apply wp_ret. cbn [fst snd]. pose proof (the_cache_trans n n1 n2 ltac:(by exists t, f, b) H12) as H02.
    pose proof (the_cache_same _ _ H02) as [Hsm2 _]. rewrite Eg, Ew in Hl2. assert (time_of (web_cache n1) = time_of (web_cache n)) as Etm by (unfold time_of; by rewrite Hck).
    rewrite Etm, Hvw in Hl2. destruct H02 as (t2&f2&b2&En2).
    assert (keeps n2 = keeps n /\ key_ (http n2) = key_ (http n)) as [Ekp2 Ek2] by (by rewrite En2).
    destruct (file_content path) as [content|]; [|destruct Hl2 as [-> Hc2]; cbn [fst snd]; apply Herr; [by rewrite Hc2|by rewrite Hc2|done|done]].
    destruct l as [[p|] reason]; cbn [fst snd] in *.
    + destruct Hl2 as (_&Hi2&it&Hp&Hlk&Hkey&Hv2&Hen). change (group_id_ (http n), key) with (the_place (http n)) in *. rewrite Hvw, Hv in Hv2.
      destruct (linked_item e _ _ p it (inv_core e _ _ Hi2) Hlk Hp) as [Hwf _]. set (id := next_id _) in *.
      assert (entry_of it = stored id (watch_id_ (http n)) (file_entry (time_of (web_cache n)) (told n) key content)) as Een.
      { rewrite Hv2, lookup_insert_eq in Hen. congruence. }
      eapply wp_mono; [apply (show_item_ok e web self blocks p it (slab_ (web_cache n2)) (told n) n2); [by rewrite Ek2|exact Hp|exact Hwf]|].
      intros [] n3 (Hc3&Hci3&Hw3). left. exists p, id. cbv zeta. fold key. rewrite <- Een. split; [done|]. rewrite Hc3. split; [done|].
      split; [by rewrite Een|]. destruct Hw3 as (bufs&Ha&Hg). exists bufs. split; [by eapply same_answers|].
      assert (item_shown e web Cmd_get (http n2) (entry_of it) (told n) = item_shown e web Cmd_get (http n) (entry_of it) (told n)) as <- by (by rewrite En2).
      assert (http_request_ (http n2) = http_request_ (http n)) as <- by (by rewrite En2). rewrite Ek2 in Hg. exact Hg.
    + destruct Hl2 as (Hi2&Hv2&Hr2). rewrite decide_False by (intros ->; set_solver). eapply wp_mono; [by apply Herr|]. intros [] n3 H3'. right. by exists reason.
  - apply wp_ret. by apply Herr.
Qed.
End files.

#[global] Instance short_key_dec key : Decision (short_key key).
Proof. unfold short_key. apply _. Defined.
#[global] Instance short_paths_dec web key : Decision (short_paths web key).
Proof. unfold short_paths. apply _. Defined.
#[global] Typeclasses Opaque short_key short_paths.
