(* ===== verification/HttpRun.v ===== *)
(** * An exchange over HTTP: a request, its page, and the next request

    A request that arrives whole is parsed, done and answered by [handle_read];
    [handle_write], when the page is sent, makes the connection as it was. *)

From S2P Require Import Prelude XixiList XixiHashMap Lookup3 Util CurrTime Pdu Stats Watch Slab Cache CacheInv CacheSpec CacheOps CacheData CacheSweep CacheStore CacheRun Buffers Settings Peer PeerFacts PeerRun Http HttpParse HttpServe.

#[local] Arguments Stats.literal : simpl never.

(** ** What a request depends on *)

(** The members that a request sets, and those that answering reads. *)
Definition members (p : Peer_Http) :=
  (http_request_ p, (group_id_ p, watch_id_ p, cache_id_ p), (key_ p, value_ p, value_content_type_ p),
   (flags_ p, expiration_ p, touch_flag_ p, delta_ p), (interval_ p, sub_op_ p)).
Lemma arg_set_members a p p' : members p = members p' -> members (arg_set a p) = members (arg_set a p').
Proof. destruct p, p'. unfold members. cbn. intros [= -> -> -> -> -> -> -> -> -> -> -> -> ->]. by destruct a. Qed.
Lemma args_set_members l : forall p p', members p = members p' -> members (args_set l p) = members (args_set l p').
Proof. induction l as [|a l IH]; intros p p' Hp; [done|]. by apply IH, arg_set_members. Qed.
Lemma requested_members f p p' : members p = members p' -> members (p <| http_request_ ::= f |>) = members (p' <| http_request_ ::= f |>).
Proof. destruct p, p'. unfold members. cbn. by intros [= -> -> -> -> -> -> -> -> -> -> -> -> ->]. Qed.
(** Those it does not. *)
Definition frame (p : Peer_Http) := (cache_item_ p, write_buf_ p, op_count_ p, read_buffer_ p, http_request_ p).
Lemma args_frame l : forall p, frame (args_set l p) = frame p.
Proof. induction l as [|a l IH]; intros p; [done|]. unfold args_set in *. cbn [foldl]. rewrite IH. by destruct a. Qed.
Lemma headers_keep hs r : http_11 (headers_set hs r) = http_11 r /\ (keepalive r = true -> keepalive (headers_set hs r) = true) /\
  method (headers_set hs r) = method r /\ uri (headers_set hs r) = uri r.
Proof.
  revert r. induction hs as [|h hs IH]; intros r; [done|]. unfold headers_set in *. cbn [foldl]. destruct (IH (header_set h r)) as (->&Hk&->&->).
  destruct h as [| |name v]; [by split_and!..|]. cbn [header_set] in *. destruct (keeps_alive name v); split_and!; try done; auto.
Qed.

(** What a request with these arguments and headers asks a new peer. *)
Definition fresh_peer : Peer_Http := Http.init [].
Definition asked_of (base : bytes) (c : web_command) (args : list web_arg) (hs : list web_header) : Peer_Http :=
  args_set args (fresh_peer <| http_request_ := request_read GET_METHOD (base ++ command_text c ++ match args with [] => [] | _ => 63 :: print_args args end) hs no_request |>).

Section members.
Context (e : endian) `{Zlib} (web : Settings) (unassigned : Z).
Lemma request_members c p p' : members p = members p' -> web_request unassigned c p = web_request unassigned c p'.
Proof. destruct p, p'. unfold members. cbn. by intros [= -> -> -> -> -> -> -> -> -> -> -> -> ->]. Qed.
Lemma reply_members c a p p' : members p = members p' -> web_reply e web unassigned c p a = web_reply e web unassigned c p' a.
Proof. destruct p, p'. unfold members. cbn. by intros [= -> -> -> -> -> -> -> -> -> -> -> -> ->]. Qed.
Lemma shown_members c a p p' : members p = members p' -> shown e web unassigned c p a = shown e web unassigned c p' a.
Proof. destruct p, p'. unfold members. cbn. by intros [= -> -> -> -> -> -> -> -> -> -> -> -> ->]. Qed.
Lemma file_members c p p' : members p = members p' -> no_file c p -> no_file c p'.
Proof. destruct p, p'. unfold members. cbn. by intros [= -> -> -> -> -> -> -> -> -> -> -> -> ->]. Qed.
End members.

Section exchange.
Context (e : endian) `{Table_Malloc} `{Item_Malloc} `{!Item_Malloc_Ok} `{Buffer_Malloc} `{!Buffer_Malloc_Ok} `{Block_Malloc} `{Web_Files} `{Zlib}.
Context (alive : sink -> bool) (web : Settings) (self : sink) (unassigned : Z).
Context (blocks : forall n, malloc_block n = true).
Implicit Types (n : web_node) (h others : holds).
Abbreviation round := (Http.round e alive web self unassigned).
Abbreviation process_loop := (Http.process_loop e alive web self unassigned).
Abbreviation wf := (Receive_Buffer.wf Http.DEFAULT_SIZE).

(** ** The receive buffer *)
Definition with_buffer (b : Receive_Buffer.buffer) n : web_node := n <| http ::= fun p => p <| read_buffer_ := b |> |>.
Abbreviation buffered n := (Receive_Buffer.data (read_buffer_ (http n))).
Lemma wp_web_received d n Q : wf (read_buffer_ (http n)) -> Z.of_nat (length d) <= Receive_Buffer.get_read_buf_size (read_buffer_ (http n)) ->
  (forall b, wf b -> Receive_Buffer.data b = buffered n ++ d -> Q tt (with_buffer b n)) -> wp (Http.on_read_buffer (Receive_Buffer.received d)) n Q.
Proof.
  intros Hw Hd HQ. destruct (Receive_BufferFacts.received_spec Http.DEFAULT_SIZE d _ Hw Hd) as (b&Hb&Hwb&Hdb&_).
  apply wp_bind, wp_gets, wp_bind. eapply wp_the; [exact Hb|]. by apply wp_modify, HQ.
Qed.
Lemma wp_web_consume i n Q : wf (read_buffer_ (http n)) -> 0 <= i <= Z.of_nat (length (buffered n)) ->
  (forall b, wf b -> Receive_Buffer.data b = drop (Z.to_nat i) (buffered n) -> Q tt (with_buffer b n)) -> wp (Http.consume i) n Q.
Proof.
  intros Hw Hi HQ. rewrite (Receive_BufferFacts.data_length Http.DEFAULT_SIZE _ Hw) in Hi.
  destruct (Receive_BufferFacts.processed_spec Http.DEFAULT_SIZE i _ Hw Hi) as (Hwb&Hdb&_).
  apply wp_bind, wp_gets, wp_bind. eapply wp_the; [done|]. by apply wp_modify, HQ.
Qed.
Lemma wp_web_compact n Q : wf (read_buffer_ (http n)) ->
  (forall b, wf b -> Receive_Buffer.data b = buffered n -> Q tt (with_buffer b n)) -> wp Http.handle_processed n Q.
Proof.
  intros Hw HQ. destruct (Receive_BufferFacts.handle_processed_spec Http.DEFAULT_SIZE Http.HIGHWAT_SIZE ltac:(done) ltac:(done) ltac:(done) _ Hw) as (b&Hb&Hwb&Hdb&_).
  apply wp_bind, wp_gets, wp_bind. eapply wp_the; [exact Hb|]. by apply wp_modify, HQ.
Qed.

Lemma wp_loop fuel c n Q : wp (round c) n (fun r n' => wp (if r.1 : bool then process_loop fuel r.2 else mret tt) n' Q) -> wp (process_loop (S fuel) c) n Q.
Proof. apply wp_bind. Qed.

(** ** A connection that waits for a request *)
Record web_idle n : Prop := {
  wi_state : state_ (http n) = PEER_STATE_READ_HEADER;
  wi_members : members (http n) = members fresh_peer;
  wi_item : cache_item_ (http n) = None;
  wi_write : write_buf_ (http n) = [];
  wi_ops : op_count_ (http n) = 1;
  wi_buffer : wf (read_buffer_ (http n));
  wi_data : buffered n = [];
  wi_socket : web_socket n = []
}.
(** And one whose response is on its way. *)
Record web_sent n : Prop := {
  wt_state : state_ (http n) = PEER_STATE_NEW_CMD;
  wt_write : write_buf_ (http n) = [];
  wt_ops : op_count_ (http n) = 1;
  wt_buffer : wf (read_buffer_ (http n));
  wt_data : buffered n = [];
  wt_socket : web_socket n = []
}.

(** ** The request *)
Definition request_text (c : web_command) (args : list web_arg) (hs : list web_header) : bytes :=
  print_request GET_METHOD (command_uri web c args) hs.
Abbreviation asked := (asked_of (manager_base_url web)).
Record request_ok (c : web_command) (args : list web_arg) (hs : list web_header) : Prop := {
  ro_url : url_ok web;
  ro_args : Forall arg_wf args;
  ro_headers : Forall header_wf hs;
  ro_file : no_file c (asked c args hs)
}.
Lemma spans_ok l : forall p, span_ok (key_ p) -> span_ok (value_ p) -> span_ok (key_ (args_set l p)) /\ span_ok (value_ (args_set l p)).
Proof.
  induction l as [|a l IH]; intros p Hk Hv; [done|]. unfold args_set in *. cbn [foldl].
  assert (forall b, span_ok (terminated b)) as Ht by (intros b; exists b; apply span_bytes_terminated).
  apply IH; destruct a; cbn; done.
Qed.

(** The round that reads a request runs its command. *)
Lemma request_round c args hs i others n : request_ok c args hs ->
  state_ (http n) = PEER_STATE_READ_HEADER -> members (http n) = members fresh_peer -> cache_item_ (http n) = None ->
  wf (read_buffer_ (http n)) -> buffered n = request_text c args hs ->
  inv e (web_cache n) others -> roomy others -> allowed (web_cache n) others (web_request unassigned c (asked c args hs)) ->
  wp (round i) n (fun r n' => r = (true, u32 (i + 1)) /\ wf (read_buffer_ (http n')) /\ buffered n' = [] /\ web_socket n' = web_socket n /\
    op_count_ (http n') = op_count_ (http n) /\ keepalive (http_request_ (http n')) = true /\
    state_ (http n') = PEER_STATUS_WRITE /\ next_state_ (http n') = PEER_STATE_NEW_CMD /\
    exists a others' bufs, 
      spec_step alive (time_of (web_cache n)) (web_request unassigned c (asked c args hs)) a (model_of (web_cache n)) (model_of (web_cache n')) /\
      inv e (web_cache n') (with_item n' others') /\ grown others others' /\
      write_buf_ (http n') = write_buf_ (http n) ++ bufs /\ bufs <> [] /\
      (shown e web unassigned c (asked c args hs) a = true -> Http.gather n' bufs = Some (web_reply e web unassigned c (asked c args hs) a))).
Proof.
  intros [Hu Ha Hh Hf] Hst Hmem Hci Hwf Hd Hi Hr Hal. set (q := web_request _ _ _) in *. unfold Http.round. apply wp_bind, wp_gets. rewrite Hst.
  unfold Http.read_header. apply wp_bind, wp_gets. rewrite Hd. unfold request_text. rewrite <- (app_nil_r (print_request _ _ _)).
  set (uri := command_uri web c args). pose proof (uri_ok alive web self blocks c args Hu Ha) as Huri. fold uri in Huri.
  apply wp_bind. apply (web_try_read_ok e alive web self unassigned blocks); [by left|done|done|]. intros b. set (n1 := with_pieces b _).
  destruct (headers_keep hs ((http_request_ (http n)) <| http_11 := true |> <| keepalive := true |> <| method := GET_METHOD |> <| Http.uri := uri |>)) as (_&Hka&Hme&Hur).
  assert (http_request_ (http n1) = headers_set hs ((http_request_ (http n)) <| http_11 := true |> <| keepalive := true |> <| method := GET_METHOD |> <| Http.uri := uri |>)) as Hreq by done.
  apply (process_command_ok e alive web self unassigned blocks c args); [done|done|by rewrite Hreq, Hme|by rewrite Hreq, Hur|]. intros b2. set (n2 := with_pieces b2 _).
  assert (members (http n2) = members (asked c args hs)) as Hm2.
  { unfold n2. change (members (http (with_pieces b2 (n1 <| http ::= args_set args |>)))) with (members (args_set args (http n1))). unfold asked_of.
    apply args_set_members. exact (requested_members (request_read GET_METHOD uri hs) (http n) fresh_peer Hmem). }
  assert (web_request unassigned c (http n2) = q) as Hq by (by apply request_members).
  destruct (spans_ok args (fresh_peer <| http_request_ := request_read GET_METHOD uri hs no_request |>)) as [Hk Hv]; [by exists []..|].
  change (args_set args (set http_request_ _ fresh_peer)) with (asked c args hs) in Hk, Hv.
  assert (key_ (http n2) = key_ (asked c args hs) /\ value_ (http n2) = value_ (asked c args hs)) as [Ek Ev] by (by injection Hm2).
  assert (frame (http n2) = frame (http n1)) as Hfr by exact (args_frame args (http n1)).
  assert (cache_item_ (http n2) = None) as Eci by (rewrite <- Hci; exact (f_equal (fun x => x.1.1.1.1) Hfr)).
  assert (write_buf_ (http n2) = write_buf_ (http n)) as Ewb by exact (f_equal (fun x => x.1.1.1.2) Hfr).
  assert (op_count_ (http n2) = op_count_ (http n)) as Eop by exact (f_equal (fun x => x.1.1.2) Hfr).
  assert (read_buffer_ (http n2) = read_buffer_ (http n)) as Erb by exact (f_equal (fun x => x.1.2) Hfr).
  assert (keepalive (http_request_ (http n2)) = true) as Erq by (etrans; [exact (f_equal (fun x => keepalive x.2) Hfr)|exact (Hka eq_refl)]).
  eapply wp_mono; [apply (handler_done e alive web self unassigned blocks c others n2)|].
  { by rewrite Ek. }
  { by rewrite Ev. }
  { by eapply file_members. }
  { rewrite Hq. by split_and!. }
  rewrite Hq. intros [] n3 (a&total&Hstep&Htot&Hkept&bufs&[Hst3 Hnx3 Hb3 Hr3 Hso3 Hop3 _ Hw3 Hne3]&Hg3).
  destruct (kept_alone e n2 n3 _ _ _ Eci Hkept Htot) as (others'&Hinv&Hgr).
  assert (read_buffer_ (http n3) = read_buffer_ (http n)) as Erb3 by (rewrite Hb3; exact Erb).
  set (len := Z.of_nat (length (print_request GET_METHOD uri hs))).
  assert (0 < len) as Hlen by (unfold len, print_request; rewrite length_app; change (length (crlf ++ crlf)) with 4%nat; lia).
  rewrite (proj2 (Z.gtb_lt _ _)) by done. apply wp_bind. eapply wp_web_consume; [by rewrite Erb3|rewrite Erb3, Hd; unfold request_text; fold uri; lia|].
  intros b3 Hwb3 Hdb3. apply wp_ret. split_and!; [done|done| |exact Hso3|by rewrite <- Eop|by rewrite <- Erq, <- Hr3|done|done|].
  { cbn. rewrite Hdb3, Erb3, Hd. unfold len, request_text. fold uri. by rewrite Nat2Z.id, drop_all. }
  exists a, others', bufs. split_and!; [exact Hstep|exact Hinv|done|by rewrite <- Ewb|done|].
  intros Hs. rewrite (shown_members e web unassigned c a _ (http n2)) in Hs by done. rewrite (reply_members e web unassigned c a _ (http n2)) by done.
  exact (Hg3 Hs).
Qed.

(** ** The completions *)
Lemma fuel_two n : wf (read_buffer_ (http n)) -> exists f, Http.process_fuel n = S (S f).
Proof.
  intros [_ Hd _ _ _]. unfold Http.process_fuel, Http.weight. exists (Z.to_nat (8 * (Receive_Buffer.read_data_size_ (read_buffer_ (http n)) +
    2 * Z.of_nat (length (concat (web_socket n)))) + 6)). lia.
Qed.
Lemma close_busy n Q : op_count_ (http n) = 1 -> Q tt n -> wp (Http.close_when_idle self) n Q.
Proof. intros Ho HQ. apply wp_bind, wp_gets, wp_bind, wp_gets. rewrite Ho. apply wp_ret, HQ. Qed.

(** The request is read, done and its page handed to the socket. *)
Lemma web_read c args hs others n : web_idle n -> request_ok c args hs ->
  Z.of_nat (length (request_text c args hs)) <= Receive_Buffer.get_read_buf_size (read_buffer_ (http n)) ->
  inv e (web_cache n) others -> roomy others -> allowed (web_cache n) others (web_request unassigned c (asked c args hs)) ->
  wp (Http.handle_read e alive web self unassigned (Some (request_text c args hs))) n (fun _ n' => web_sent n' /\
    exists a others' bufs,
      spec_step alive (time_of (web_cache n)) (web_request unassigned c (asked c args hs)) a (model_of (web_cache n)) (model_of (web_cache n')) /\
      inv e (web_cache n') (with_item n' others') /\ grown others others' /\ web_writing n' = Some bufs /\
      (shown e web unassigned c (asked c args hs) a = true -> Http.gather n' bufs = Some (web_reply e web unassigned c (asked c args hs) a))).
Proof.
  intros [Hst Hmem Hci Hwr Hop Hwf Hd Hso] Hok Hlen Hi Hr Hal. unfold Http.handle_read. apply wp_bind, wp_modify, wp_bind, wp_modify, wp_bind.
  apply wp_bind, wp_web_received; [exact Hwf|exact Hlen|]. intros b Hwb Hdb. set (n1 := with_buffer b _).
  change (Receive_Buffer.data b = buffered n ++ request_text c args hs) in Hdb. rewrite Hd in Hdb. cbn [app] in Hdb.
  unfold Http.process_and_go_on. apply wp_bind. unfold Http.process. apply wp_bind, wp_gets. destruct (fuel_two n1 Hwb) as [f ->].
  apply wp_loop. eapply wp_mono; [by apply (request_round c args hs 0 others n1)|].
  intros r n2 (->&Hwf2&Hd2&Hso2&Hop2&Hk2&Hst2&Hnx2&a&others'&bufs&Hstep&Hinv&Hgr&Hw2&Hne&Hg2). cbn [fst snd].
  change (web_socket n1) with (web_socket n) in Hso2. change (op_count_ (http n1)) with (op_count_ (http n) - 1) in Hop2. rewrite Hop in Hop2.
  change (write_buf_ (http n1)) with (write_buf_ (http n)) in Hw2. rewrite Hwr in Hw2. cbn [app] in Hw2.
  apply wp_loop. unfold Http.round. apply wp_bind, wp_gets. rewrite Hst2. apply wp_bind. unfold Http.status_write. apply wp_bind, wp_gets. rewrite Hk2.
  apply wp_bind, wp_ret, wp_bind, wp_gets. rewrite Hnx2. apply wp_bind, wp_modify, wp_bind, wp_modify. apply wp_ret, wp_ret. cbn [fst snd].
  match goal with |- wp _ ?m _ => set (n3 := m) end.
  apply wp_ret, wp_bind, wp_gets. change (state_ (http n3)) with PEER_STATE_NEW_CMD. cbn [bool_decide]. apply wp_bind. unfold Http.try_write.
  apply wp_bind, wp_gets, wp_bind, wp_gets. change (write_buf_ (http n3)) with (write_buf_ (http n2)). rewrite Hw2. assert ((op_count_ (http n3) =? 0) && negb (bool_decide (length bufs = 0%nat)) = true) as ->.
  { change (op_count_ (http n3)) with (op_count_ (http n2)). rewrite Hop2. rewrite bool_decide_eq_false_2; [done|]. by destruct bufs. }
  apply wp_bind, wp_modify, wp_bind, wp_modify, wp_bind, wp_modify, wp_ret, wp_ret. apply close_busy.
  { cbn. by rewrite Hop2. }
  split; [split; try done; cbn; by rewrite ?Hop2, ?Hso2, ?Hso|]. exists a, others', bufs. split_and!; try done.
Qed.

(** The item of the last response is given back. *)
Definition give_item : W unit :=
  it ← Http.my cache_item_;
  match it with
  | Some p => Http.cache self (Mgr.release_reference p);; Http.in_http (fun p => p <| cache_item_ := None |>)
  | None => mret tt
  end.
Lemma give_item_ok others n Q : inv e (web_cache n) (with_item n others) -> roomy others -> (forall p, 0 <= others p) ->
  (forall s t b, inv e s others -> model_of s = model_of (web_cache n) -> curr_time_ s = curr_time_ (web_cache n) ->
    Q tt ((stirred t b (n <| web_cache := s |>)) <| http ::= fun p => p <| cache_item_ := None |> |>)) -> wp give_item n Q.
Proof.
  intros Hi Hr Hge HQ. apply wp_bind, wp_gets. unfold with_item in Hi. destruct (cache_item_ (http n)) as [p|] eqn:Eci.
  - apply wp_bind, wp_call. destruct (held_heap e _ _ p (inv_core e _ _ Hi)) as (it&Hit&_); [rewrite give_eq; pose proof (Hge p); lia|].
    eapply (wp_release_old e _ others p it); [exact Hi|by apply roomy_room|done|exact Hit|].
    intros s Hi' Hw' Hv' _ _ _ _ _ t b. apply wp_modify, HQ; [done|by apply model_world|apply Hw'].
  - apply wp_ret. specialize (HQ (web_cache n) (timer_ (http n)) (timer_flag_ (http n)) Hi eq_refl eq_refl).
    destruct n as [[] ? ? ? ?]. cbn in *. by rewrite Eci.
Qed.

(** [reset_for_new_cmd] begins with it. *)
Definition forget : W unit :=
  Http.in_http (fun p => p <| group_id_ := 0 |> <| watch_id_ := 0 |> <| cache_id_ := 0 |> <| key_ := no_span |> <| value_ := no_span |>
    <| value_content_type_ := [] |> <| post_data_ := [] |> <| content_length_ := 0 |> <| flags_ := 0 |> <| expiration_ := 0 |>
    <| touch_flag_ := false |> <| delta_ := 1 |> <| ack_sequence_ := 0 |> <| interval_ := 120 |> <| timeout_ := 30 |> <| sub_op_ := 0 |>
    <| http_request_ := no_request |> <| request_buf_ ::= Cache_Buffer.reset |> <| write_buf_total_ := 0 |> <| read_item_buf_ := None |>
    <| next_data_len_ := XIXI_PDU_HEAD_LENGTH |>);;
  Http.set_state PEER_STATE_READ_HEADER.
Lemma wp_reset n Q : wp give_item n (fun _ n' => wp forget n' Q) -> wp (Http.reset_for_new_cmd self) n Q.
Proof.
  intros Hg. apply wp_bind, wp_gets, wp_bind. unfold give_item in Hg. apply wp_bind_inv in Hg. unfold wp, gets, Http.my in Hg.
  exact Hg.
Qed.

(** When the page is sent, the connection gives back the item and waits again. *)
Lemma web_written others n : web_sent n -> inv e (web_cache n) (with_item n others) -> roomy others -> (forall p, 0 <= others p) ->
  wp (Http.handle_write e alive web self unassigned true) n (fun _ n' => web_idle n' /\ web_reading n' = true /\ inv e (web_cache n') others /\
    model_of (web_cache n') = model_of (web_cache n) /\ curr_time_ (web_cache n') = curr_time_ (web_cache n)).
Proof.
  intros [Hst Hwr Hop Hwf Hd Hso] Hi Hr Hge. unfold Http.handle_write. apply wp_bind, wp_modify, wp_bind, wp_modify, wp_bind.
  set (n1 := set http _ _). unfold Http.process_and_go_on. apply wp_bind. unfold Http.process. apply wp_bind, wp_gets.
  destruct (fuel_two n1 Hwf) as [f ->]. apply wp_loop. unfold Http.round at 1. apply wp_bind, wp_gets. change (state_ (http n1)) with (state_ (http n)).
  rewrite Hst. apply wp_bind, wp_bind.
  apply (wp_mono _ _ (fun _ n' => state_ (http n') = PEER_STATE_READ_HEADER /\ members (http n') = members fresh_peer /\ cache_item_ (http n') = None /\
    write_buf_ (http n') = [] /\ op_count_ (http n') = 0 /\ read_buffer_ (http n') = read_buffer_ (http n) /\ web_socket n' = [] /\
    inv e (web_cache n') others /\ model_of (web_cache n') = model_of (web_cache n) /\ curr_time_ (web_cache n') = curr_time_ (web_cache n))).
  { apply wp_reset. eapply (give_item_ok others n1); [exact Hi|done..|]. intros s t b Hi' Hmo Hck. apply wp_bind, wp_modify, wp_modify.
    split_and!; try done. cbn. lia. }
  intros [] n2 (Hst2&Hm2&Hci2&Hw2&Hop2&Hb2&Hso2&Hi2&Hmo2&Ht2). apply wp_ret, wp_ret. cbn [fst snd].
  apply wp_loop. unfold Http.round. apply wp_bind, wp_gets. rewrite Hst2. unfold Http.read_header. apply wp_bind, wp_gets. rewrite Hb2, Hd.
  apply wp_bind. unfold Http.try_read_command. change (Str.memfind [] (crlf ++ crlf)) with (@None Z). change (Z.of_nat (length []) >=? 8192) with false. cbv beta iota.
  apply wp_bind, wp_modify, wp_ret. change (0 >? 0) with false. cbv beta iota. set (n3 := set http _ _).
  apply wp_bind, wp_web_compact; [by rewrite <- Hb2 in Hwf|]. intros b Hwb Hdb. apply wp_bind, wp_gets, wp_bind. unfold Http.read_some, wp at 1.
  change (web_socket (with_buffer b n3)) with (web_socket n2). rewrite Hso2. apply wp_bind, wp_web_received; [exact Hwb| |].
  { pose proof (Receive_BufferFacts.free_size Http.DEFAULT_SIZE _ Hwb). destruct Hwb. cbn. lia. }
  intros b4 Hwb4 Hdb4. apply wp_ret. cbn [fst snd]. rewrite bool_decide_eq_true_2 by done. cbn [negb]. apply wp_ret.
  assert (Receive_Buffer.data b4 = []) as Hd4.
  { rewrite Hdb4. change (buffered (with_buffer b n3)) with (Receive_Buffer.data b). rewrite Hdb. change (buffered n3) with (buffered n2). by rewrite Hb2, Hd. }
  match goal with |- wp _ ?m _ => set (n4 := m) end. apply wp_bind, wp_gets. change (state_ (http n4)) with PEER_STATE_READ_HEADER. apply wp_bind.
  cbn [bool_decide]. unfold Http.try_write. apply wp_bind, wp_gets, wp_bind, wp_gets. change (write_buf_ (http n4)) with (write_buf_ (http n2)).
  rewrite Hw2. change (negb (bool_decide (length [] = 0%nat))) with false. rewrite andb_false_r. apply wp_ret. unfold Http.try_read. apply wp_bind, wp_gets.
  change (op_count_ (http n4)) with (op_count_ (http n2)). rewrite Hop2. apply wp_bind, wp_modify, wp_bind, wp_web_compact; [exact Hwb4|].
  intros b5 Hwb5 Hdb5. apply wp_modify. apply close_busy; [cbn; by rewrite Hop2|]. split_and!; try done.
  split; try done; cbn; [by rewrite Hop2|]. rewrite Hdb5. exact Hd4.
Qed.
End exchange.
