(* ===== verification/HttpReads.v ===== *)
(** * Every HTTP request is read

    The parsers of a request - its header, its arguments, the parts of its body -
    come to an end for any bytes that a client sends, and leave the members that a
    handler relies on in range.  The exceptions are named: a [delta] that overflows
    while it is parsed, and a multipart body that ends within a part. *)

From S2P Require Import Prelude XixiList XixiHashMap Lookup3 Util CurrTime Pdu Stats Watch Slab Cache CacheInv CacheSpec CacheOps CacheData CacheSweep CacheStore CacheRun Buffers Settings Peer PeerFacts PeerRun Http HttpParse HttpServe.

#[local] Arguments Stats.literal : simpl never.

(** ** What a parser leaves *)

(** The members that handlers rely on. *)
Record args_ok (p : Peer_Http) : Prop := {
  ao_key : span_ok (key_ p);
  ao_value : span_ok (value_ p);
  ao_type : Z.of_nat (length (value_content_type_ p)) < 2 ^ 8;
  ao_expiration : 0 <= expiration_ p
}.
Lemma args_same p p' : arguments p' = arguments p -> args_ok p -> args_ok p'.
Proof. unfold arguments. intros [= E1 E2 E3 E4 E5] []. split; congruence. Qed.
Record parsed (n n' : web_node) : Prop := {
  pa_cache : web_cache n' = web_cache n;
  pa_socket : web_socket n' = web_socket n;
  pa_item : cache_item_ (http n') = cache_item_ (http n);
  pa_buffer : read_buffer_ (http n') = read_buffer_ (http n);
  pa_ops : op_count_ (http n') = op_count_ (http n);
  pa_args : args_ok (http n) -> args_ok (http n')
}.
(** A parser goes on, in the state it found, or has refused the request. *)
Definition at_reply (n : web_node) : Prop := state_ (http n) = PEER_STATUS_WRITE /\ next_state_ (http n) = PEER_STATE_NEW_CMD.
Definition parses (n : web_node) (ok : bool) (n' : web_node) : Prop :=
  parsed n n' /\ if ok then state_ (http n') = state_ (http n) /\ next_state_ (http n') = next_state_ (http n) else at_reply n'.

Lemma parsed_refl n : parsed n n.
Proof. by split. Qed.
Lemma parsed_trans n1 n2 n3 : parsed n1 n2 -> parsed n2 n3 -> parsed n1 n3.
Proof. intros [] []. split; try congruence. auto. Qed.
Lemma parses_after n1 n2 ok n3 : parses n1 true n2 -> parses n2 ok n3 -> parses n1 ok n3.
Proof. intros [Hp [Hs Hn]] [Hp' Hs']. split; [by eapply parsed_trans|]. destruct ok; [|done]. destruct Hs'. split; congruence. Qed.
Lemma parsed_pieces b n : parsed n (with_pieces b n).
Proof. split; try done. by intros []. Qed.
Lemma span_terminated b : span_ok (terminated b).
Proof. exists b. apply span_bytes_terminated. Qed.

Section reads.
Context (e : endian) `{Table_Malloc} `{Item_Malloc} `{Buffer_Malloc} `{Block_Malloc} `{Web_Files} `{Zlib}.
Context (alive : sink -> bool) (web : Settings) (self : sink) (unassigned : Z).
Context (blocks : forall n, malloc_block n = true).
Implicit Types (n : web_node).

Lemma refuses reason n : wp (Http.write_error reason) n (fun _ n' => parsed n n' /\ at_reply n').
Proof. apply wp_bind, wp_gets, wp_bind, wp_modify, wp_bind, wp_modify, wp_modify. split; [|done]. split; try done. by intros []. Qed.
Lemma refused_false reason n n1 : parsed n n1 -> wp (Http.write_error reason ;; mret false) n1 (parses n).
Proof.
  intros Hp. apply wp_bind. eapply wp_mono; [apply refuses|]. intros [] n' [Hn Hs]. apply wp_ret. split; [by eapply parsed_trans|exact Hs].
Qed.

(** ** Numbers *)
Definition delta_fits (text : span) : Prop := is_Some (Parse.safe_toi64 (Some (span_mem text)) (span_len text)).
Lemma put_number_reads w t len put n :
  0 < w -> (forall x, 0 <= x < 2 ^ w -> parses n true (n <| http ::= put x |>)) ->
  wp (Http.put_number (Parse.safe_to false w) (mk_span (t ++ [0]) len) put) n (fun ok n' => if ok : bool then parses n true n' else n' = n).
Proof.
  intros Hw Hput. destruct (safe_to_total w t len Hw) as (r&Hr&Hx). apply wp_bind. eapply wp_the; [exact Hr|].
  destruct r as [x|]; [|by apply wp_ret]. apply wp_bind, wp_modify, wp_ret. by apply Hput, Hx.
Qed.
Lemma number_reads c t len n : (c = 100 -> delta_fits (mk_span (t ++ [0]) len)) ->
  wp (Http.number_arg c (mk_span (t ++ [0]) len)) n (fun ok n' => if ok : bool then parses n true n' else parsed n n').
Proof.
  intros Hd. unfold Http.number_arg.
  assert (forall w put m, 0 < w -> parses n true m -> (forall x, 0 <= x < 2 ^ w -> parses m true (m <| http ::= put x |>)) ->
    wp (Http.put_number (Parse.safe_to false w) (mk_span (t ++ [0]) len) put) m (fun ok n' => if ok : bool then parses n true n' else parsed n n')) as Hu.
  { intros w put m Hw Hm Hput. eapply wp_mono; [by apply put_number_reads|]. intros [] m'; [by apply parses_after|]. intros ->. apply Hm. }
  assert (forall m : web_node, parses m true m) as Hr by (intros m; split; [apply parsed_refl|done]).
  repeat case_match; try (apply Hu; [done|apply Hr|]; intros x Hx; split; [|done]; split; try done; intros []; by split).
  - destruct (Hd ltac:(lia)) as [r Hr']. apply wp_bind. eapply wp_the; [exact Hr'|]. destruct r as [x|]; [|by apply wp_ret].
    apply wp_bind, wp_modify, wp_ret. split; [|done]. split; try done. by intros [].
  - apply wp_bind, wp_modify. apply Hu; [done| |].
    + split; [|done]. split; try done. by intros [].
    + intros x Hx. split; [|done]. split; try done. intros []; split; try done. cbn. lia.
  - apply wp_ret. apply Hr.
Qed.

(** ** Arguments *)
Definition arg_fits (arg : bytes) : Prop := take 2 arg = [100; 61] -> delta_fits (terminated (drop 2 arg)).
Fixpoint args_fit (fuel : nat) (args : bytes) : Prop :=
  match fuel with
  | O => True
  | S fuel => match Decode.get_arg args with Some (arg, args) => arg_fits arg /\ args_fit fuel args | None => True end
  end.
Definition query_fits (args : bytes) : Prop := args_fit (S (length args)) args.

Lemma memchr_lt c b i : memchr c b = Some i -> (i < length b)%nat.
Proof.
  unfold memchr. destruct (list_find _ b) as [[j x]|] eqn:E; [|done]. intros [= <-]. apply list_find_Some in E as (E&_&_). by eapply lookup_lt_Some.
Qed.
Lemma get_arg_shorter args arg rest : Decode.get_arg args = Some (arg, rest) -> (length rest < length args)%nat.
Proof.
  unfold Decode.get_arg. destruct (memchr 38 args) as [i|] eqn:E.
  - apply memchr_lt in E. intros [= _ <-]. rewrite length_drop. lia.
  - case_decide as Ha; [done|]. intros [= _ <-]. destruct args; [done|]. cbn. lia.
Qed.
Lemma decode_reads s n : wp (Http.decode_uri s) n (fun t n' => exists b, n' = with_pieces b n /\ t = Some (terminated (Decode.uri_bytes s))).
Proof. apply wp_bind, web_prepare; [done|]. intros b. apply wp_ret. by exists b. Qed.
Lemma request_arg_reads arg n : arg_fits arg -> wp (Http.request_arg arg) n (parses n).
Proof.
  intros Hf. assert (parses n true n) as Hr by (split; [apply parsed_refl|done]). unfold Http.request_arg.
  destruct arg as [|name [|c text]]; try by apply wp_ret. destruct (decide (c = 61)) as [->|Hc].
  2:{ destruct c as [|c|c]; try by apply wp_ret. repeat (destruct c as [c|c|]; try by apply wp_ret). }
  destruct (Z.eqb_spec name 107) as [->|_]; [|destruct (Z.eqb_spec name 118) as [->|_]].
  - apply wp_bind. eapply wp_mono; [apply decode_reads|]. intros t n1 (b&->&->). apply wp_bind, wp_modify, wp_ret.
    split; [|done]. split; try done. intros []. split; try done. apply span_terminated.
  - apply wp_bind. eapply wp_mono; [apply decode_reads|]. intros t n1 (b&->&->). apply wp_bind, wp_modify, wp_ret.
    split; [|done]. split; try done. intros []. split; try done. apply span_terminated.
  - apply wp_bind. eapply wp_mono; [apply (number_reads name text (Z.of_nat (length text)))|].
    { intros ->. by apply Hf. }
    intros [] n1 H1'; [by apply wp_ret|by apply refused_false].
Qed.
Lemma request_args_read fuel : forall args n, args_fit fuel args -> (length args < fuel)%nat -> wp (Http.request_args fuel args) n (parses n).
Proof.
  induction fuel as [|fuel IH]; intros args n Hf Hl; [lia|]. cbn [Http.request_args args_fit] in *.
  destruct (Decode.get_arg args) as [[arg rest]|] eqn:E; [|apply wp_ret; split; [apply parsed_refl|done]].
  apply get_arg_shorter in E. destruct Hf as [Ha Hf]. apply wp_bind. eapply wp_mono; [by apply request_arg_reads|].
  intros [] n1 H1'; [|by apply wp_ret]. eapply wp_mono; [apply IH; [done|lia]|]. intros ok n2. by apply parses_after.
Qed.
Lemma query_reads args n : query_fits args -> wp (Http.process_request_arg args) n (parses n).
Proof. intros Hf. apply request_args_read; [done|lia]. Qed.

(** ** Header fields *)
Lemma skip_blanks_length s : (length (Http.skip_blanks s) <= length s)%nat.
Proof.
  induction s as [|c s IH]; [done|]. cbn [Http.skip_blanks]. destruct c as [|c|c]; try done.
  repeat (destruct c as [c|c|]; try done). cbn [length]. lia.
Qed.
Lemma requested_reads f n : parses n true (n <| http ::= fun p => p <| http_request_ ::= f |> |>).
Proof. split; [|done]. split; try done. by intros []. Qed.
Lemma pieces_read b n n' : parses (with_pieces b n) true n' -> parses n true n'.
Proof. apply parses_after. split; [apply parsed_pieces|done]. Qed.
Lemma field_reads name value n : wp (Http.handle_request_header_field name value) n (fun _ => parses n true).
Proof.
  assert (forall m : web_node, parses m true m) as Hr by (intros m; split; [apply parsed_refl|done]).
  unfold Http.handle_request_header_field, Http.in_request, Http.in_http, Http.copy_value. destruct (Http.same_text name "Connection").
  { destruct (_ && _); [apply wp_bind, wp_modify, wp_ret, requested_reads|apply wp_bind, wp_ret, wp_ret, Hr]. }
  destruct (Http.same_text name "content-type").
  { destruct (0 <? length value)%nat; [|apply wp_ret, Hr]. apply wp_bind, web_prepare; [done|]. intros b. apply wp_bind.
    unfold Http.content_type_field, Http.in_request, Http.in_http. destruct (_ && _); [|destruct (_ && _)];
      apply wp_modify, wp_ret, (pieces_read b), requested_reads. }
  destruct (Http.same_text name "if-none-match").
  { apply wp_bind, web_prepare; [done|]. intros b. apply wp_bind, wp_modify, wp_ret, (pieces_read b), requested_reads. }
  destruct (Http.same_text name "content-length").
  { eapply wp_mono; [apply (put_number_reads 32 value); [done|]|]. 
    - intros x Hx. split; [|done]. split; try done. by intros [].
    - intros [] n'; [done|]. intros ->. apply Hr. }
  destruct (Http.same_text name "Accept-Encoding"); [|apply wp_ret, Hr]. apply wp_bind, wp_modify, wp_ret, requested_reads.
Qed.
Lemma fields_read fuel : forall text n, (length text < fuel)%nat -> wp (Http.header_fields fuel text) n (fun _ => parses n true).
Proof.
  induction fuel as [|fuel IH]; intros text n Hl; [lia|]. cbn [Http.header_fields].
  destruct (memchr 58 text) as [i|] eqn:Ei; [|apply wp_ret; split; [apply parsed_refl|done]]. apply memchr_lt in Ei.
  pose proof (skip_blanks_length (drop (S i) text)) as Hv. rewrite length_drop in Hv. set (value := Http.skip_blanks _) in *. cbv zeta.
  destruct (memchr 10 value) as [j|] eqn:Ej; [|apply field_reads]. apply memchr_lt in Ej.
  apply wp_bind. eapply wp_mono; [apply field_reads|]. intros [] n1 H1'; [|by apply wp_ret].
  eapply wp_mono; [apply IH; rewrite length_drop; lia|]. intros ok n2. by apply parses_after.
Qed.
Lemma header_reads text n : wp (Http.process_request_header_fields text) n (fun _ => parses n true).
Proof. apply fields_read. lia. Qed.

(** ** The parts of a body *)
Notation part_name := (Stats.literal " name=" ++ quote).
Fixpoint parts_fit (fuel : nat) (post boundary : bytes) (buf : Z) : Prop :=
  match fuel with
  | O => True
  | S fuel =>
      match Http.strstr post (buf + Z.of_nat (length boundary) + 2) part_name with
      | None => False
      | Some None => True
      | Some (Some i) =>
          match Http.strstr post (i + 7 + 2) (crlf ++ crlf) with
          | Some (Some j) =>
              match Http.find_from post (j + 4) boundary with
              | Some (Some next) =>
                  j + 8 <= next /\
                  (default 0 (post !! Z.to_nat (i + 7)) = 100 ->
                   delta_fits (mk_span (drop (Z.to_nat (j + 4)) post ++ [0]) (u32 (u32 (next - (j + 4)) - 4)))) /\
                  parts_fit fuel post boundary next
              | _ => True
              end
          | _ => False
          end
      end
  end.
(** The body has no part that is cut off: its name and its blank line are there, and
    the next boundary is behind the two ends of line that belong to it. *)
Definition multipart_fits (post boundary : bytes) : Prop :=
  match Str.memfind post boundary with Some buf => parts_fit (S (length post)) post boundary buf | None => True end.

Lemma memfind_within b sub i : Str.memfind b sub = Some i -> 0 <= i /\ i + Z.of_nat (length sub) <= Z.of_nat (length b).
Proof. intros Hf. pose proof (memfind_spec b sub) as Hs. rewrite Hf in Hs. destruct Hs as [(?&?&_) _]. lia. Qed.
Lemma strstr_inside post o sub r : Http.strstr post o sub = Some r -> 0 <= o <= Z.of_nat (length post).
Proof. unfold Http.strstr. destruct (Z.leb_spec 0 o), (Z.leb_spec o (Z.of_nat (length post))); cbn; (done || lia). Qed.
Lemma strstr_within post o sub i : Http.strstr post o sub = Some (Some i) -> 0 <= o <= i /\ i + Z.of_nat (length sub) <= Z.of_nat (length post).
Proof.
  intros Hs. pose proof (strstr_inside _ _ _ _ Hs) as Ho. unfold Http.strstr in Hs. rewrite (proj2 (Z.leb_le _ _)), (proj2 (Z.leb_le _ _)) in Hs by lia.
  cbn [andb] in Hs. destruct (Str.memfind _ _) as [k|] eqn:E; [|done]. injection Hs as <-. apply memfind_within in E.
  pose proof (cstr_length (drop (Z.to_nat o) post)) as Hc. rewrite length_drop in Hc. lia.
Qed.
Lemma strstr_some post o sub : 0 <= o <= Z.of_nat (length post) -> exists r, Http.strstr post o sub = Some r.
Proof. intros Ho. unfold Http.strstr. rewrite (proj2 (Z.leb_le _ _)), (proj2 (Z.leb_le _ _)) by lia. by eexists. Qed.
Lemma find_some post o sub : 0 <= o <= Z.of_nat (length post) ->
  exists r, Http.find_from post o sub = Some r /\ forall i, r = Some i -> o <= i <= Z.of_nat (length post).
Proof.
  intros Ho. unfold Http.find_from. rewrite (proj2 (Z.leb_le _ _)), (proj2 (Z.leb_le _ _)) by lia. eexists. split; [done|].
  intros i. destruct (Str.memfind _ _) as [k|] eqn:E; [|done]. intros [= <-]. apply memfind_within in E. rewrite length_drop in E. lia.
Qed.

Lemma content_type_reads post name n : 0 <= name + 2 <= Z.of_nat (length post) -> wp (Http.part_content_type post name) n (fun _ => parses n true).
Proof.
  intros Hn. destruct (strstr_some post (name + 2) (crlf ++ Stats.literal "Content-Type:") Hn) as [r Hr].
  apply wp_bind. eapply wp_the; [exact Hr|]. assert (parses n true n) as Hsame by (split; [apply parsed_refl|done]).
  destruct r as [i|]; [|by apply wp_ret]. cbv zeta. destruct (Str.memfind _ _) as [size|]; [|by apply wp_ret].
  destruct (Z.ltb_spec size 128); [|by apply wp_ret]. apply wp_modify. split; [|done]. split; try done.
  intros []. split; try done. cbn. rewrite length_take. lia.
Qed.
Lemma part_span_ok post value next : 0 <= value -> value + 4 <= next <= Z.of_nat (length post) ->
  span_ok (mk_span (drop (Z.to_nat value) post ++ [0]) (u32 (u32 (next - value) - 4))).
Proof.
  intros Hv Hn. unfold span_ok, span_bytes. cbn [span_mem span_len]. set (len := u32 _).
  assert (0 <= len <= next - value) as Hl.
  { pose proof (wrap_range 32 (u32 (next - value) - 4) ltac:(lia)). unfold len. destruct (Z.lt_ge_cases (next - value) (2 ^ 32)); [|lia].
    rewrite !wrap_small; rewrite ?wrap_small; lia. }
  unfold mem_read. rewrite length_app, length_drop. cbn [length]. rewrite (proj2 (Z.leb_le 0 _)), (proj2 (Z.leb_le 0 _)), (proj2 (Z.leb_le _ _)) by lia.
  by eexists.
Qed.
Lemma put_part_reads post k name value next n : 0 <= value -> value + 4 <= next <= Z.of_nat (length post) ->
  (default 0 (post !! Z.to_nat name) = 100 -> delta_fits (mk_span (drop (Z.to_nat value) post ++ [0]) (u32 (u32 (next - value) - 4)))) ->
  wp (Http.put_part post k name value next) n (parses n).
Proof.
  intros Hv Hn Hd. pose proof (part_span_ok post value next Hv Hn) as Hs. assert (parses n true n) as Hsame by (split; [apply parsed_refl|done]).
  unfold Http.put_part. cbv zeta. destruct (k =? 1); [|by apply wp_ret].
  destruct (_ =? 107); [|destruct (_ =? 118)].
  - apply wp_bind, wp_modify, wp_ret. split; [|done]. split; try done. intros []. by split.
  - apply wp_bind, wp_modify, wp_ret. split; [|done]. split; try done. intros []. by split.
  - apply wp_bind. eapply wp_mono; [by apply number_reads|]. intros [] n1 H1'; [by apply wp_ret|by apply refused_false].
Qed.
Lemma parts_read fuel post boundary : forall buf n, 0 <= buf <= Z.of_nat (length post) -> Z.of_nat (length post) - buf < Z.of_nat fuel ->
  parts_fit fuel post boundary buf -> wp (Http.process_parts fuel post boundary buf) n (parses n).
Proof.
  induction fuel as [|fuel IH]; intros buf n Hb Hl Hf; [lia|]. cbn [Http.process_parts parts_fit] in *.
  destruct (Http.strstr post _ part_name) as [[i|]|] eqn:Ei; [| |done].
  2:{ apply wp_bind. eapply wp_the; [done|]. apply wp_ret. split; [apply parsed_refl|done]. }
  apply strstr_within in Ei as Hi. change (Z.of_nat (length part_name)) with 7 in Hi.
  destruct (Http.strstr post (i + 7 + 2) _) as [[j|]|] eqn:Ej; [|done|done].
  apply strstr_within in Ej as Hj. change (Z.of_nat (length (crlf ++ crlf))) with 4 in Hj.
  destruct (find_some post (j + 4) boundary ltac:(lia)) as (r&Er&Hr). rewrite Er in Hf.
  apply wp_bind. eapply wp_the; [done|]. cbv zeta. destruct (strstr_some post (i + 7) quote ltac:(lia)) as [cl Ecl].
  apply wp_bind. eapply wp_the; [exact Ecl|]. apply wp_bind. set (k := match cl with Some _ => _ | None => _ end).
  apply (wp_mono _ _ (fun _ => parses n true)).
  { destruct (_ && _); [apply content_type_reads; lia|apply wp_ret; split; [apply parsed_refl|done]]. }
  intros [] n1 H1'. apply wp_bind. eapply wp_the; [exact Ej|]. apply wp_bind. eapply wp_the; [done|]. apply wp_bind. eapply wp_the; [exact Er|].
  destruct r as [next|]; [|by apply wp_ret]. specialize (Hr next eq_refl). destruct Hf as (Hn&Hd&Hf).
  apply wp_bind. eapply wp_mono; [apply put_part_reads; [lia|lia|exact Hd]|]. intros [] n2 H2'.
  - eapply wp_mono; [apply IH; [lia|lia|done]|]. intros ok n3 H3'. eapply parses_after; [exact H1'|]. by eapply parses_after.
  - apply wp_ret. by eapply parses_after.
Qed.
Lemma multipart_reads post boundary n : multipart_fits post boundary -> wp (Http.process_multipart post boundary) n (parses n).
Proof.
  unfold multipart_fits, Http.process_multipart. destruct (Str.memfind post boundary) as [buf|] eqn:E.
  - apply memfind_within in E. intros Hf. apply parts_read; [lia|lia|done].
  - intros _. apply wp_ret. split; [apply parsed_refl|done].
Qed.
End reads.

(** What is asked of a request can be decided. *)
#[global] Instance delta_fits_dec text : Decision (delta_fits text).
Proof. unfold delta_fits. apply _. Defined.
#[global] Instance args_fit_dec fuel args : Decision (args_fit fuel args).
Proof.
  revert args. induction fuel as [|fuel IH]; intros args; cbn [args_fit]; [apply _|]. destruct (Decode.get_arg args) as [[arg rest]|]; [|apply _].
  unfold arg_fits. apply _.
Defined.
#[global] Instance query_fits_dec args : Decision (query_fits args) := args_fit_dec _ args.
#[global] Instance parts_fit_dec fuel post boundary buf : Decision (parts_fit fuel post boundary buf).
Proof.
  revert buf. induction fuel as [|fuel IH]; intros buf; cbn [parts_fit]; [apply _|].
  repeat match goal with |- Decision (match ?o with Some _ => _ | None => _ end) => destruct o; [|apply _] end. apply _.
Defined.
#[global] Instance multipart_fits_dec post boundary : Decision (multipart_fits post boundary).
Proof. unfold multipart_fits. destruct (Str.memfind post boundary); apply _. Defined.
#[global] Typeclasses Opaque delta_fits args_fit query_fits parts_fit multipart_fits.
