(* ===== verification/HttpLife.v ===== *)
(** * The life of an HTTP connection

    The loop of [process] ends for all that a client sends but what [benign] names, and
    so do the completions of asio, from [start] to the destruction of the peer: nothing
    fails, the cache keeps its invariant, and the references of the others stay. *)

From S2P Require Import Prelude XixiList XixiHashMap Lookup3 Util CurrTime Pdu Stats Watch Slab Cache CacheInv CacheSpec CacheOps CacheData CacheSweep CacheStore CacheRun Buffers Settings Peer PeerFacts PeerRun Http HttpParse HttpServe HttpFiles HttpRun HttpReads.

#[local] Arguments Stats.literal : simpl never.

Section commands.
Context (e : endian) `{Table_Malloc} `{Item_Malloc} `{!Item_Malloc_Ok} `{Buffer_Malloc} `{!Buffer_Malloc_Ok} `{Block_Malloc} `{Web_Files} `{Zlib}.
Context (alive : sink -> bool) (web : Settings) (self : sink) (unassigned : Z).
Context (blocks : forall n, malloc_block n = true) (fits : files_fit web).
Implicit Types (n : web_node) (others h : holds).

(** ** What a client must not ask for *)

(** The number of an entry and that of the request can be added. *)
Definition sum_fits (incr : bool) n : Prop :=
  let p := http n in
  match view (web_cache n) !! the_place p with
  | Some en => matches (cache_id_ p) en = true -> is_Some (delta_of incr (delta_ p) (e_data en))
  | None => True
  end.
(** Keys and values fit the fields of an item, and a number that is added to does not
    overflow; nothing else of a command is restricted. *)
Definition benign_as (c : web_command) n : Prop :=
  let p := http n in
  match c with
  | Cmd_get | Cmd_getbase => short_paths web (the_bytes (key_ p))
  | Cmd_set | Cmd_add | Cmd_replace | Cmd_append | Cmd_prepend =>
      short_key (the_bytes (key_ p)) /\ Z.of_nat (length (the_bytes (value_ p))) <= 2 ^ 31
  | Cmd_incr => sum_fits true n
  | Cmd_decr => sum_fits false n
  | _ => True
  end.
Definition all_commands : list web_command :=
  [Cmd_get; Cmd_set; Cmd_add; Cmd_del; Cmd_incr; Cmd_decr; Cmd_flush; Cmd_touch; Cmd_flags; Cmd_stats; Cmd_append; Cmd_replace; Cmd_prepend;
   Cmd_getbase; Cmd_createwatch].
Lemma all_commands_all c : c ∈ all_commands.
Proof. unfold all_commands. rewrite !elem_of_cons. destruct c; tauto. Qed.
Definition names (cmd_length : Z) (cmd : bytes) (c : web_command) : Prop :=
  cmd_length = Z.of_nat (length (command_text c)) /\ take (length (command_text c)) cmd = command_text c.
(** [watch] is compared with more bytes than it has. *)
Definition is_watch (cmd_length : Z) (cmd : bytes) : Prop := cmd_length = 10 /\ take 6 cmd = Stats.literal "watch" ++ [0].
Definition benign_manager (cmd_length : Z) (cmd : bytes) n : Prop :=
  ~ is_watch cmd_length cmd /\ Forall (fun c => names cmd_length cmd c -> benign_as c n) all_commands.
(** What holds when a parser goes on. *)
Definition goes_on_to (m : W bool) (P : web_node -> Prop) n : Prop := match m n with Some (true, n1) => P n1 | _ => True end.
(** What [process_command] meets. *)
Definition benign_command n : Prop :=
  let r := http_request_ (http n) in
  let base := manager_base_url web in
  let base_size := Z.of_nat (length base) in
  if negb (method r =? HEAD_METHOD) && (Z.of_nat (length (uri r)) >=? base_size) && bool_decide (take (length base) (uri r) = base) then
    let cmd := drop (length base) (uri r) in
    match Http.strrchr 63 (cstr (uri r)) with
    | Some i =>
        let query := drop (S i) (cstr (uri r)) in
        query_fits query /\ goes_on_to (Http.process_request_arg query) (benign_manager (u32 (Z.of_nat i - base_size)) cmd) n
    | None => benign_manager (u32 (Z.of_nat (length (uri r)) - base_size)) cmd n
    end
  else short_paths web (uri r).
(** What [process_post] meets. *)
Definition benign_post n : Prop :=
  let r := http_request_ (http n) in
  let post := post_data_ (http n) in
  if Http.same_text (content_type r) "application/x-www-form-urlencoded" then
    query_fits (cstr post) /\ goes_on_to (Http.process_request_arg (cstr post)) benign_command n
  else if Http.same_text (content_type r) "multipart/form-data" && (0 <? length (boundary r))%nat then
    multipart_fits post (boundary r) /\ goes_on_to (Http.process_multipart post (boundary r)) benign_command n
  else True.

(** ** The commands *)

(** What is left after a command: the references are those there were, with at most
    one more, and a response waits. *)
Definition more_by (k : Z) others n others' n' : Prop :=
  (forall q, others q <= others' q) /\ forall q, with_item n' others' q <= with_item n others q + k.
Record commanded others n n' : Prop := {
  co_inv : exists others', inv e (web_cache n') (with_item n' others') /\ more_by 1 others n others' n';
  co_buffer : read_buffer_ (http n') = read_buffer_ (http n);
  co_socket : web_socket n' = web_socket n;
  co_args : args_ok (http n');
  co_reply : at_reply n'
}.
Lemma with_item_ge n h q : h q <= with_item n h q <= h q + 1.
Proof. unfold with_item, give. repeat case_match; lia. Qed.
Lemma kept_more others n n' total : item_kept n n' (with_item n others) total -> inv e (web_cache n') total ->
  exists others', inv e (web_cache n') (with_item n' others') /\ more_by 1 others n others' n'.
Proof.
  intros Hk Hi. pose proof (with_item_ge n others) as Hge. destruct Hk as [[[Hc|Hc] Hg]|(p&Hc&->)].
  - exists (fun q => others q + (total q - with_item n others q)).
    assert (forall q, with_item n' (fun q => others q + (total q - with_item n others q)) q = total q) as Ht.
    { intros q. unfold with_item. rewrite Hc. destruct (cache_item_ (http n)) as [p|]; unfold give; repeat case_decide; lia. }
    split; [by eapply inv_held; [exact Ht|]|]. split; intros q; [|rewrite Ht]; destruct (Hg q); lia.
  - assert (forall h, with_item n' h = h) as Hw by (intros h; unfold with_item; by rewrite Hc).
    exists total. unfold more_by. rewrite Hw. split; [done|]. split; intros q; destruct (Hg q), (Hge q); lia.
  - assert (forall h, with_item n' h = give p 1 h) as Hw by (intros h; unfold with_item; by rewrite Hc).
    exists (with_item n others). unfold more_by. rewrite Hw. split; [done|].
    split; intros q; destruct (Hge q); unfold give; [lia|]. case_decide; lia.
Qed.
Lemma settled_commanded others n n' : args_ok (http n) -> settled e (with_item n others) n n' -> commanded others n n'.
Proof.
  intros Ha (total&bufs&Hi&Hk&[]). split; try done; [by eapply kept_more|].
  by eapply args_same.
Qed.
Lemma refused_commanded others n n' : inv e (web_cache n) (with_item n others) -> args_ok (http n) -> parsed n n' -> at_reply n' -> commanded others n n'.
Proof.
  intros Hi Ha [] Hr. split; try done; [|by auto]. exists others. unfold more_by, with_item. rewrite pa_cache, pa_item. split; [exact Hi|].
  split; intros q; lia.
Qed.
Lemma commanded_after others n n1 n' : parsed n n1 -> commanded others n1 n' -> commanded others n n'.
Proof.
  intros [] [(o&Hi&Ho&Hm)]. split; try congruence. exists o. split; [done|]. split; [done|]. unfold with_item in *. by rewrite <- pa_item.
Qed.

(** The node of a command. *)
Record ready others n : Prop := {
  rd_inv : inv e (web_cache n) (with_item n others);
  rd_room : roomy (with_item n others);
  rd_args : args_ok (http n)
}.
Lemma ready_parsed others n n1 : parsed n n1 -> ready others n -> ready others n1.
Proof. intros [] []. split; unfold with_item in *; rewrite ?pa_cache, ?pa_item; auto. Qed.
Lemma ready_look others n : ready others n -> may_look e n (with_item n others).
Proof. intros [Hi Hr []]. by split_and!. Qed.

Lemma handler_commanded c others n : ready others n -> benign_as c n ->
  wp (handler e alive web self unassigned c) n (fun _ => commanded others n).
Proof.
  intros Hrd Hb. pose proof (ready_look _ _ Hrd) as Hl. destruct Hrd as [Hi Hr Ha]. pose proof Ha as [Hk Hv Ht Hx].
  apply (wp_mono _ _ (fun _ => settled e (with_item n others) n)); [|intros [] n'; by apply (settled_commanded others n n' Ha)].
  assert (forall c, is_plain c = true -> allowed (web_cache n) (with_item n others) (web_request unassigned c (http n)) ->
    wp (handler e alive web self unassigned c) n (fun _ => settled e (with_item n others) n)) as Hplain.
  { intros c' Hc' Hal. eapply wp_mono; [apply (plain_done e alive web self unassigned blocks c' (with_item n others)); done|].
    intros [] n'. apply done_settled. }
  assert (forall c op, web_request unassigned c (http n) = Put (put_of op (http n)) -> short_key (the_bytes (key_ (http n))) /\ Z.of_nat (length (the_bytes (value_ (http n)))) <= 2 ^ 31 ->
    wp (Http.process_update e alive self unassigned op) n (fun _ => settled e (with_item n others) n)) as Hput.
  { intros c' op Hq [Hsk Hsv]. eapply wp_mono; [apply (update_done e alive web self unassigned blocks c' op (with_item n others)); [done|done|done|]|].
    - split; [done|]. split; [done|]. rewrite Hq. by split_and!.
    - intros [] n'. apply done_settled. }
  destruct c; cbn [benign_as] in Hb.
  all: try (apply Hplain; [done|]; first [exact I|exact Hx|by intros en Hen; unfold sum_fits in Hb; rewrite Hen in Hb]).
  - by apply get_settles.
  - by apply (Hput Cmd_set 0).
  - by apply (Hput Cmd_add 1).
  - by apply (Hput Cmd_append 3).
  - by apply (Hput Cmd_replace 2).
  - by apply (Hput Cmd_prepend 4).
  - by apply base_settles.
Qed.
Lemma run_command_cases len cmd : ~ is_watch len cmd ->
  (exists c, names len cmd c /\ Http.run_command e alive web self unassigned len cmd = handler e alive web self unassigned c) \/
  Http.run_command e alive web self unassigned len cmd = Http.write_error XIXI_REASON_INVALID_PARAMETER.
Proof.
  intros Hw. unfold Http.run_command. cbv zeta.
  repeat match goal with
    | |- context [if ?x =? ?y then _ else _] => destruct (Z.eqb_spec x y) as [->|]
    | |- context [if Http.is_command ?c ?s then _ else _] => let E := fresh "E" in destruct (Http.is_command c s) eqn:E; [apply bool_decide_eq_true in E|]
    end; try (by right).
  - by left; exists Cmd_get.
  - by left; exists Cmd_set.
  - by left; exists Cmd_add.
  - by left; exists Cmd_del.
  - by left; exists Cmd_incr.
  - by left; exists Cmd_decr.
  - by left; exists Cmd_flush.
  - by left; exists Cmd_touch.
  - by left; exists Cmd_flags.
  - by left; exists Cmd_stats.
  - by left; exists Cmd_append.
  - by left; exists Cmd_replace.
  - by left; exists Cmd_prepend.
  - by left; exists Cmd_getbase.
  - case_bool_decide; [by destruct Hw|by right].
  - by left; exists Cmd_createwatch.
Qed.
Lemma manager_commanded len cmd others n : ready others n -> benign_manager len cmd n ->
  wp (Http.run_command e alive web self unassigned len cmd) n (fun _ => commanded others n).
Proof.
  intros Hrd [Hw Hb]. destruct (run_command_cases len cmd Hw) as [(c&Hc&->)| ->].
  - apply handler_commanded; [done|]. by apply (proj1 (Forall_forall _ _) Hb c (all_commands_all c)).
  - eapply wp_mono; [by apply refuses|]. intros [] n' [Hp Hr]. destruct Hrd. by apply refused_commanded.
Qed.
(** A parser, and what follows it. *)
Lemma parse_then (m : W bool) k others n : ready others n -> wp m n (parses n) ->
  (forall n1, m n = Some (true, n1) -> ready others n1 -> wp k n1 (fun _ => commanded others n1)) ->
  wp (ok ← m; if ok : bool then k else mret tt) n (fun _ => commanded others n).
Proof.
  intros Hrd Hm Hk. apply wp_run in Hm as (ok&n1&Hr&Hp&Hs). apply wp_bind. unfold wp at 1. rewrite Hr. destruct ok.
  - eapply wp_mono; [apply Hk; [done|by eapply ready_parsed]|]. intros [] n2. by apply commanded_after.
  - apply wp_ret. destruct Hrd. by apply refused_commanded.
Qed.
Lemma command_commanded others n : ready others n -> benign_command n ->
  wp (Http.process_command e alive web self unassigned) n (fun _ => commanded others n).
Proof.
  intros Hrd Hb. unfold Http.process_command. apply wp_bind, wp_gets. cbv zeta. unfold benign_command in Hb. cbv zeta in Hb.
  destruct (_ && _).
  - destruct (Http.strrchr 63 _) as [i|]; [|by apply manager_commanded]. destruct Hb as [Hq Hb].
    apply parse_then; [done|by apply query_reads|]. intros n1 Hr Hrd1. unfold goes_on_to in Hb. rewrite Hr in Hb. by apply manager_commanded.
  - apply wp_bind, wp_modify. set (n1 := set http _ n). set (key := uri (http_request_ (http n))) in *.
    assert (parsed n n1) as Hp by (split; try done; intros []; split; try done; apply span_terminated).
    assert (the_bytes (key_ (http n1)) = key) as Ek by (unfold the_bytes, n1; cbn -[terminated]; by rewrite span_bytes_terminated).
    apply (wp_mono _ _ (fun _ => commanded others n1)); [|intros [] n2; by apply commanded_after].
    apply (handler_commanded Cmd_get); [by eapply ready_parsed|]. cbn [benign_as]. by rewrite Ek.
Qed.
Lemma post_commanded others n : ready others n -> benign_post n ->
  wp (Http.process_post e alive web self unassigned) n (fun _ => commanded others n).
Proof.
  intros Hrd Hb. unfold Http.process_post. apply wp_bind, wp_gets, wp_bind, wp_gets. unfold benign_post in Hb. cbv zeta in Hb.
  destruct (Http.same_text _ _); [|destruct (_ && _)].
  - destruct Hb as [Hq Hb]. apply parse_then; [done|by apply query_reads|]. intros n1 Hr Hrd1. unfold goes_on_to in Hb. rewrite Hr in Hb. by apply command_commanded.
  - destruct Hb as [Hq Hb]. apply parse_then; [done|by apply multipart_reads|]. intros n1 Hr Hrd1. unfold goes_on_to in Hb. rewrite Hr in Hb. by apply command_commanded.
  - eapply wp_mono; [by apply refuses|]. intros [] n' [Hp Hr]. destruct Hrd. by apply refused_commanded.
Qed.

(** ** The header *)

(** What [process_request_header] does before it knows the command. *)
Definition start_request (line : bytes) (m : Z) (offset : nat) (fields : bytes) : W bool :=
  (if decide (drop (length line - 3) line = Stats.literal "1.1")
   then Http.in_request (fun r => r <| http_11 := true |> <| keepalive := true |>) else mret tt);;
  let target := drop offset line in
  Http.in_request (fun r => r <| method := m |> <| uri := match memchr 32 target with Some i => take i target | None => target end |>);;
  Http.process_request_header_fields fields.
Definition split_header (header : bytes) : bytes * bytes :=
  match Str.memfind header crlf with
  | Some i => (take (Z.to_nat i) header, drop (Z.to_nat (i + 2)) header)
  | None => (header, [])
  end.
Definition benign_header (header : bytes) n : Prop :=
  let line := (split_header header).1 in
  match Http.method_of line with
  | Some (m, offset) => goes_on_to (start_request line m offset (split_header header).2)
      (fun n1 => (m =? POST_METHOD) && (content_length_ (http n1) >? 0) = false -> benign_command n1) n
  | None => True
  end.

(** A body is expected. *)
Record expected n n' : Prop := {
  ex_parsed : parsed n n';
  ex_state : state_ (http n') = PEER_STATE_READ_BODY_EXTRAS;
  ex_next : next_state_ (http n') = next_state_ (http n);
  ex_at : read_item_buf_ (http n') = Some 0;
  ex_len : 0 <= next_data_len_ (http n') < 2 ^ 32;
  ex_rest : next_data_len_ (http n') = content_length_ (http n')
}.
Context (bodies : u32 (item_size_max web * 3) < 2 ^ 32 - 1).
Lemma body_expected n : 0 < content_length_ (http n) ->
  wp (Http.expect_body web) n (fun _ n' => expected n n' \/ parsed n n' /\ at_reply n').
Proof.
  intros Hc. unfold Http.expect_body. apply wp_bind, wp_gets. destruct (Z.gtb_spec (content_length_ (http n)) (u32 (item_size_max web * 3))) as [Hl|Hl].
  { eapply wp_mono; [by apply refuses|]. intros [] n' Hn. by right. }
  apply wp_bind, web_prepare; [done|]. intros b. cbn [negb]. apply wp_bind, wp_assert; [lia|].
  apply wp_bind, wp_modify, wp_bind, wp_modify, wp_bind, wp_gets, wp_must_prepare; [done|]. intros c. left. split; try done; [|cbn; lia].
  split; try done. by intros [].
Qed.
Definition headed others n n' : Prop := commanded others n n' \/ expected n n'.
Lemma headed_after others n n1 n' : parsed n n1 -> next_state_ (http n1) = next_state_ (http n) -> headed others n1 n' -> headed others n n'.
Proof.
  intros Hp Hn [Hc|[]]; [left; by eapply commanded_after|right]. split; try done; [by eapply parsed_trans|congruence].
Qed.
Lemma header_headed header others n : ready others n -> benign_header header n ->
  wp (Http.process_request_header e alive web self unassigned header) n (fun _ => headed others n).
Proof.
  intros Hrd Hb. unfold benign_header in Hb. unfold Http.process_request_header. fold (split_header header).
  destruct (split_header header) as [line fields]. cbn [fst snd] in Hb.
  assert (forall m, parsed n m -> wp (Http.write_error XIXI_REASON_INVALID_PARAMETER) m (fun _ => headed others n)) as Hbad.
  { intros m Hp. eapply wp_mono; [by apply refuses|]. intros [] n' [Hp' Hr]. left. destruct Hrd.
    apply refused_commanded; try done. by eapply parsed_trans. }
  destruct (6 <=? length line)%nat; [|by apply Hbad, parsed_refl].
  apply wp_bind. apply (wp_mono _ _ (fun _ n' => parses n true n' /\ (if decide (drop (length line - 3) line = Stats.literal "1.1")
   then Http.in_request (fun r => r <| http_11 := true |> <| keepalive := true |>) else mret tt) n = Some (tt, n'))).
  { destruct (decide _); [apply wp_modify; split; [apply requested_reads|done]|apply wp_ret; split; [split; [apply parsed_refl|done]|done]]. }
  intros [] n1 [H1' Hr1]. destruct (Http.method_of line) as [[m offset]|] eqn:Em; [|apply Hbad, H1'].
  cbv zeta. apply wp_bind, wp_modify. set (n2 := set http _ n1). assert (parses n true n2) as H2' by (eapply parses_after; [exact H1'|apply requested_reads]).
  pose proof (header_reads blocks fields n2) as Hf. apply wp_run in Hf as (ok&n3&Hr3&H3'). apply wp_bind. unfold wp at 1. rewrite Hr3.
  destruct ok; cbn [negb]; [|apply Hbad; eapply parsed_trans; [apply H2'|apply H3']].
  assert (parses n true n3) as Hp3 by (by eapply parses_after).
  assert (start_request line m offset fields n = Some (true, n3)) as Hstart.
  { unfold start_request. unfold mbind at 1, ST_bind at 1. rewrite Hr1. exact Hr3. }
  unfold goes_on_to in Hb. rewrite Hstart in Hb. apply wp_bind, wp_gets. destruct Hp3 as [Hp3 [Hs3 Hn3]].
  destruct (_ && _) eqn:Ec.
  - apply andb_prop in Ec as [_ Ec]. eapply wp_mono; [apply body_expected; lia|]. intros [] n4 [Hx|[Hp4 Hr4]].
    + by eapply headed_after; [..|right].
    + left. destruct Hrd. apply refused_commanded; try done. by eapply parsed_trans.
  - eapply wp_mono; [apply command_commanded; [by eapply ready_parsed|by apply Hb]|]. intros [] n4 H4'. left. by eapply commanded_after.
Qed.
(** [try_read_command] takes the header, or all of what cannot be one, or waits. *)
Lemma try_read_headed data others n : ready others n ->
  match Str.memfind data (crlf ++ crlf) with Some i => benign_header (take (Z.to_nat i) data) n | None => True end ->
  wp (Http.try_read_command e alive web self unassigned data) n (fun tmp n' =>
    0 < tmp <= Z.of_nat (length data) /\ headed others n n' \/
    tmp = 0 /\ n' = n <| http ::= fun p => p <| state_ := PEER_STATE_READ_HEADER |> |>).
Proof.
  intros Hrd Hb. unfold Http.try_read_command. cbv zeta. destruct (Str.memfind data (crlf ++ crlf)) as [i|] eqn:Ei.
  - apply memfind_within in Ei as Hi. change (Z.of_nat (length (crlf ++ crlf))) with 4 in Hi. apply wp_bind.
    eapply wp_mono; [apply header_headed; [done|by apply Hb]|]. intros [] n' Hn. apply wp_ret. left. split; [lia|done].
  - destruct (Z.geb_spec (Z.of_nat (length data)) 8192); [|apply wp_bind, wp_modify, wp_ret; by right].
    apply wp_bind. eapply wp_mono; [by apply refuses|]. intros [] n' [Hp Hr]. apply wp_ret. left. split; [lia|]. left. destruct Hrd. by apply refused_commanded.
Qed.
End commands.

(** ** The invariant *)
Definition web_received (n : web_node) : Z := Receive_Buffer.read_data_size_ (read_buffer_ (http n)).
Definition web_waiting (n : web_node) : Z := Z.of_nat (length (concat (web_socket n))).
(** Only the input is another. *)
Definition input_of (b : Receive_Buffer.buffer) (sk : list bytes) (n : web_node) : web_node :=
  n <| web_socket := sk |> <| http ::= fun p => p <| read_buffer_ := b |> |>.

(** What is left to do, as for the connections of clients. *)
Definition web_rank (st : peer_state) : Z :=
  match st with
  | PEER_STATE_READ_HEADER => 1 | PEER_STATE_NEW_CMD => 2 | PEER_STATUS_WRITE => 4 | PEER_STATE_READ_BODY_EXTRAS => 6 | _ => 0
  end.
Definition web_measure (n : web_node) : Z := 8 * Http.weight n + web_rank (state_ (http n)).
(** The commands that a run of [process] still meets, when it has counted [c]. *)
Definition to_come (st : peer_state) (c : Z) : Z :=
  (if c =? 0 then 1 else 0) + match st with PEER_STATE_READ_BODY_EXTRAS => 1 | _ => 0 end.
Definition counted (st : peer_state) (c : Z) : Prop :=
  c = 0 \/ c = 1 /\ (st = PEER_STATE_READ_BODY_EXTRAS \/ st = PEER_STATUS_WRITE).

Section rounds.
Context (e : endian) `{Table_Malloc} `{Item_Malloc} `{!Item_Malloc_Ok} `{Buffer_Malloc} `{!Buffer_Malloc_Ok} `{Block_Malloc} `{Web_Files} `{Zlib}.
Context (alive : sink -> bool) (web : Settings) (self : sink) (unassigned : Z).
Context (blocks : forall n, malloc_block n = true) (fits : files_fit web) (bodies : u32 (item_size_max web * 3) < 2 ^ 32 - 1).
Implicit Types (n : web_node) (others h : holds).
Abbreviation wf := (Receive_Buffer.wf Http.DEFAULT_SIZE).
Abbreviation buffered n := (Receive_Buffer.data (read_buffer_ (http n))).

Definition at_stage n : Prop :=
  match state_ (http n) with
  | PEER_STATE_NEW_CMD | PEER_STATE_READ_HEADER | PEER_STATUS_WRITE | PEER_STATE_CLOSING | PEER_STATE_CLOSED => True
  | PEER_STATE_READ_BODY_EXTRAS => 0 <= next_data_len_ (http n) < 2 ^ 32 /\
      exists at_, read_item_buf_ (http n) = Some at_ /\ at_ + next_data_len_ (http n) = content_length_ (http n)
  | _ => False
  end.
Record web_ok others n : Prop := {
  wo_inv : inv e (web_cache n) (with_item n others);
  wo_args : args_ok (http n);
  wo_buffer : wf (read_buffer_ (http n));
  wo_next : state_ (http n) = PEER_STATUS_WRITE -> next_state_ (http n) = PEER_STATE_NEW_CMD;
  wo_stage : at_stage n
}.
(** A state in which [process] does not do what it is not made for. *)
Definition benign n : Prop :=
  match state_ (http n) with
  | PEER_STATE_READ_HEADER =>
      match Str.memfind (buffered n) (crlf ++ crlf) with
      | Some i => benign_header web (take (Z.to_nat i) (buffered n)) n
      | None => True
      end
  | PEER_STATE_READ_BODY_EXTRAS => next_data_len_ (http n) = 0 -> benign_post web n
  | _ => True
  end.

(** What a round does: references may be lost, no more than commands are met; if the
    loop goes on, less is left to do. *)
Record stepped others n c (r : bool * Z) n' : Prop := {
  sd_ok : exists others', web_ok others' n' /\ more_by (to_come (state_ (http n)) c - (if r.1 then to_come (state_ (http n')) r.2 else 0)) others n others' n';
  sd_less : r.1 = true -> web_measure n' < web_measure n;
  sd_count : r.1 = true -> counted (state_ (http n')) r.2
}.
Lemma to_come_ge st c : 0 <= to_come st c <= 2.
Proof. unfold to_come. destruct (c =? 0), st; lia. Qed.
Lemma more_refl k others n n' : 0 <= k -> cache_item_ (http n') = cache_item_ (http n) -> more_by k others n others n'.
Proof. intros Hk Hc. unfold more_by, with_item. rewrite Hc. split; intros q; lia. Qed.
Lemma web_received_ge n : wf (read_buffer_ (http n)) -> 0 <= web_received n.
Proof. intros []. done. Qed.
Lemma buffered_length n : wf (read_buffer_ (http n)) -> Z.of_nat (length (buffered n)) = web_received n.
Proof. apply Receive_BufferFacts.data_length. Qed.
Lemma web_waiting_ge n : 0 <= web_waiting n.
Proof. unfold web_waiting. lia. Qed.
Lemma web_weight n : Http.weight n = web_received n + 2 * web_waiting n.
Proof. done. Qed.

(** Reading from the socket: at most as much as is asked for. *)
Lemma wp_web_read len n Q : 0 <= len ->
  (forall got sk, Z.of_nat (length got) <= len -> Z.of_nat (length (concat sk)) = web_waiting n - Z.of_nat (length got) -> Q got (n <| web_socket := sk |>)) ->
  wp (Http.read_some len) n Q.
Proof.
  intros Hl HQ. unfold wp, Http.read_some. unfold web_waiting in HQ. destruct (web_socket n) as [|b rest] eqn:E.
  - specialize (HQ [] []). cbn in HQ. replace (n <| web_socket := [] |>) with n in HQ by (rewrite <- E; by destruct n). apply HQ; lia.
  - apply HQ; [rewrite length_take; lia|]. cbn [concat]. rewrite length_app, length_take. pose proof (length_drop b (Z.to_nat len)) as Hl3.
    case_decide as Hd; [rewrite Hd in Hl3; cbn in Hl3; lia|cbn [concat]; rewrite length_app; lia].
Qed.

(** [NEW_CMD]. *)
Lemma new_cmd_round others n c : web_ok others n -> (forall q, 0 <= others q) -> (forall q, with_item n others q < 2 ^ 15) ->
  state_ (http n) = PEER_STATE_NEW_CMD -> counted (state_ (http n)) c ->
  wp (run ← (Http.reset_for_new_cmd self;; mret true); mret (run, c)) n (stepped others n c).
Proof.
  intros [Hi Ha Hb _ _] Hge Hr Hst Hc. assert (roomy others) as Hro by (intros q; pose proof (with_item_ge n others q); specialize (Hr q); lia).
  apply wp_bind, wp_bind, wp_reset. apply (give_item_ok e self others n); [done..|]. intros s t b Hi' _ _. apply wp_bind, wp_modify, wp_modify, wp_ret, wp_ret.
  match goal with |- stepped _ _ _ _ ?m => set (n' := m) end. split; cbn [fst snd].
  - exists others. split.
    + split; [exact Hi'| |exact Hb|done|exact I]. split; cbn; [by exists []|by exists []|lia|lia].
    + rewrite Hst. change (state_ (http n')) with PEER_STATE_READ_HEADER. unfold more_by. split; intros q; [lia|].
      change (with_item n' others q) with (others q). pose proof (with_item_ge n others q). unfold to_come. destruct (c =? 0); lia.
  - intros _. unfold web_measure. rewrite Hst. change (Http.weight n') with (Http.weight n). change (state_ (http n')) with PEER_STATE_READ_HEADER. cbn. lia.
  - intros _. rewrite Hst in Hc. destruct Hc as [->|[_ [?|?]]]; [by left|done..].
Qed.

(** [READ_HEADER]. *)
Lemma enough_ready others n : web_ok others n -> (forall q, with_item n others q < 2 ^ 15) -> ready e others n.
Proof. intros [] Hr. by split. Qed.
Lemma commanded_ok others n n' b : commanded e others n n' -> wf b ->
  exists others', web_ok others' (with_buffer b n') /\ more_by 1 others n others' (with_buffer b n').
Proof. intros [(o&Hi&Hm) _ _ Ha [Hs Hn]] Hb. exists o. split; [|done]. split; try done; [by apply (args_same (http n'))|]. unfold at_stage. cbn. by rewrite Hs. Qed.
Lemma expected_ok others n n' b : web_ok others n -> expected n n' -> wf b ->
  web_ok others (with_buffer b n') /\ cache_item_ (http n') = cache_item_ (http n).
Proof.
  intros [Hi Ha _ _ _] [[] Hs Hn Hat Hl Hc] Hb. split; [|done]. split; cbn.
  - unfold with_item in *. cbn. by rewrite pa_item, pa_cache.
  - by apply (args_same (http n')); [|apply pa_args].
  - done.
  - by rewrite Hs.
  - unfold at_stage. cbn. rewrite Hs. split; [done|by exists 0].
Qed.
Lemma read_header_round others n c : web_ok others n -> (forall q, with_item n others q < 2 ^ 15) -> benign n ->
  state_ (http n) = PEER_STATE_READ_HEADER -> counted (state_ (http n)) c ->
  wp (Http.read_header e alive web self unassigned c) n (stepped others n c).
Proof.
  intros Hok Hr Hb Hst Hc. assert (c = 0) as -> by (rewrite Hst in Hc; destruct Hc as [->|[_ [?|?]]]; done).
  pose proof Hok as [Hi Ha Hwf _ _]. pose proof (buffered_length n Hwf) as Hlen. unfold benign in Hb. rewrite Hst in Hb.
  unfold Http.read_header. apply wp_bind, wp_gets, wp_bind. eapply wp_mono; [apply (try_read_headed e alive web self unassigned blocks fits bodies _ others n); [by apply enough_ready|exact Hb]|].
  intros tmp n1 [[Ht Hh]|[-> ->]].
  - rewrite (proj2 (Z.gtb_lt _ _)) by lia. assert (read_buffer_ (http n1) = read_buffer_ (http n) /\ web_socket n1 = web_socket n) as [Eb Es].
    { destruct Hh as [[]|[[]]]; done. }
    apply wp_bind, wp_web_consume; [by rewrite Eb|rewrite Eb; lia|]. intros b Hwb Hdb. apply wp_ret. change (u32 (0 + 1)) with 1.
    assert (web_received (with_buffer b n1) = web_received n - tmp) as Er.
    { unfold web_received. cbn. rewrite <- (Receive_BufferFacts.data_length Http.DEFAULT_SIZE b Hwb), Hdb, Eb, length_drop. unfold web_received in Hlen. lia. }
    assert (web_waiting (with_buffer b n1) = web_waiting n) as Ew by (unfold web_waiting; cbn; by rewrite Es).
    assert (forall st, state_ (http n1) = st -> web_rank st <= 6 -> web_measure (with_buffer b n1) < web_measure n) as Hmeas.
    { intros st Hs1 Hrk. unfold web_measure. rewrite Hst, !web_weight, Er, Ew. cbn [with_buffer http state_]. change (state_ (http (with_buffer b n1))) with (state_ (http n1)).
      rewrite Hs1. cbn [web_rank]. lia. }
    destruct Hh as [Hco|Hex].
    + pose proof (co_reply _ _ _ _ Hco) as [Hs1 _]. destruct (commanded_ok _ _ _ b Hco Hwb) as (o&Hok'&Hm).
      split; cbn [fst snd]; [|intros _; by eapply Hmeas|intros _; right; change (state_ (http (with_buffer b n1))) with (state_ (http n1)); by auto].
      exists o. split; [done|]. change (state_ (http (with_buffer b n1))) with (state_ (http n1)). rewrite Hst, Hs1. exact Hm.
    + pose proof (ex_state _ _ Hex) as Hs1. destruct (expected_ok others n n1 b Hok Hex Hwb) as [Hok' Hci].
      split; cbn [fst snd]; [|intros _; by eapply Hmeas|intros _; right; change (state_ (http (with_buffer b n1))) with (state_ (http n1)); by auto].
      exists others. split; [done|]. change (state_ (http (with_buffer b n1))) with (state_ (http n1)). rewrite Hst, Hs1. by apply more_refl.
  - change (0 >? 0) with false. cbv iota. set (n1 := set http _ n). apply wp_bind, wp_web_compact; [done|]. intros b1 Hwb1 Hdb1.
    apply wp_bind, wp_gets, wp_bind. set (n2 := with_buffer b1 n1). apply wp_web_read; [apply wrap_range; lia|]. intros got sk Hgl Hsk.
    apply wp_bind, wp_web_received; [exact Hwb1|exact Hgl|]. intros b2 Hwb2 Hdb2. apply wp_ret.
    match goal with |- stepped _ _ _ _ ?m => set (n3 := m) end.
    assert (web_received n3 = web_received n + Z.of_nat (length got)) as Er.
    { unfold web_received. cbn. rewrite <- (Receive_BufferFacts.data_length Http.DEFAULT_SIZE b2 Hwb2), Hdb2. cbn. rewrite Hdb1, length_app.
      change (buffered n1) with (buffered n). unfold web_received in Hlen. lia. }
    assert (web_waiting n3 = web_waiting n - Z.of_nat (length got)) as Ew by exact Hsk.
    split; cbn [fst snd].
    + exists others. split; [|change (state_ (http n3)) with PEER_STATE_READ_HEADER; rewrite Hst; apply more_refl; [destruct (negb _); by vm_compute|done]].
      split; [exact Hi|by apply (args_same (http n))|exact Hwb2|done|exact I].
    + intros Hrun. assert (0 < Z.of_nat (length got)) by (destruct got; [done|cbn; lia]). unfold web_measure. rewrite !web_weight, Er, Ew, Hst.
      change (state_ (http n3)) with PEER_STATE_READ_HEADER. lia.
    + intros _. by left.
Qed.

(** [READ_BODY_EXTRAS]. *)
Lemma to_post_ok others n b Q : web_ok others n -> state_ (http n) = PEER_STATE_READ_BODY_EXTRAS -> Z.of_nat (length b) <= next_data_len_ (http n) ->
  (forall n', web_ok others n' -> state_ (http n') = PEER_STATE_READ_BODY_EXTRAS -> cache_item_ (http n') = cache_item_ (http n) ->
     read_buffer_ (http n') = read_buffer_ (http n) -> web_socket n' = web_socket n -> Q tt n') -> wp (Http.to_post b) n Q.
Proof.
  intros [Hi Ha Hwf Hn Hs] Hst Hb HQ. unfold at_stage in Hs. rewrite Hst in Hs. destruct Hs as (Hl&a&Hat&Hc).
  apply wp_bind, wp_gets, wp_bind. eapply wp_the; [exact Hat|]. apply wp_bind, wp_gets, wp_bind, wp_assert; [lia|]. apply wp_modify. apply HQ; try done.
  split; [exact Hi|by apply (args_same (http n))|exact Hwf|exact Hn|]. unfold at_stage. cbn. rewrite Hst.
  rewrite wrap_small by lia. split; [lia|]. eexists. split; [done|]. lia.
Qed.
Lemma body_round others n c : web_ok others n -> (forall q, with_item n others q < 2 ^ 15) -> benign n ->
  state_ (http n) = PEER_STATE_READ_BODY_EXTRAS -> counted (state_ (http n)) c ->
  wp (Http.read_body e alive web self unassigned) n (fun run => stepped others n c (run, c)).
Proof.
  intros Hok Hr Hb Hst Hc. pose proof Hok as [Hi Ha Hwf _ Hs]. pose proof (buffered_length n Hwf) as Hlen. pose proof (web_received_ge n Hwf) as Hge.
  unfold at_stage in Hs. rewrite Hst in Hs. destruct Hs as [Hl _]. unfold benign in Hb. rewrite Hst in Hb.
  assert (0 <= c <= 1) as Hcr by (destruct Hc as [?|[? _]]; lia).
  assert (forall n', web_ok others n' -> state_ (http n') = PEER_STATE_READ_BODY_EXTRAS -> cache_item_ (http n') = cache_item_ (http n) ->
    Http.weight n' < Http.weight n -> stepped others n c (true, c) n') as Hgo.
  { intros n' Hok' Hst' Hci Hw. split; cbn [fst snd]; [|intros _; unfold web_measure; rewrite Hst, Hst'; lia|intros _; by rewrite Hst', <- Hst].
    exists others. split; [done|]. rewrite Hst, Hst'. apply more_refl; [lia|done]. }
  unfold Http.read_body. apply wp_bind, wp_gets, wp_bind, wp_gets. fold (web_received n). destruct (Z.eqb_spec (next_data_len_ (http n)) 0) as [Hz|Hnz].
  - apply wp_bind. eapply wp_mono; [apply (post_commanded e alive web self unassigned blocks fits others n); [by apply enough_ready|by apply Hb]|].
    intros [] n1 Hco. apply wp_ret. pose proof Hco as [_ Hb1 Hs1 _ [Hst1 _]].
    destruct (commanded_ok others n n1 (read_buffer_ (http n1)) Hco ltac:(by rewrite Hb1)) as (o&Hok1&Hm1).
    assert (with_buffer (read_buffer_ (http n1)) n1 = n1) as Esame by (by destruct n1 as [[] ? ? ? ?]). rewrite Esame in *.
    split; cbn [fst snd].
    + exists o. split; [done|]. rewrite Hst, Hst1. unfold to_come. replace (_ + 1 - _) with 1 by lia. exact Hm1.
    + intros _. unfold web_measure. rewrite Hst, Hst1, !web_weight. unfold web_received, web_waiting. rewrite Hb1, Hs1. cbn. lia.
    + intros _. rewrite Hst1. destruct (Z.eq_dec c 0); [by left|right]. split; [lia|by right].
  - destruct (Z.gtb_spec (web_received n) 0) as [Hp|Hnp].
    + set (tmp := if web_received n >? next_data_len_ (http n) then next_data_len_ (http n) else web_received n).
      assert (0 < tmp <= web_received n /\ tmp <= next_data_len_ (http n)) as [Ht1 Ht2].
      { unfold tmp. destruct (Z.gtb_spec (web_received n) (next_data_len_ (http n))); lia. }
      apply wp_bind, wp_gets, wp_bind. eapply to_post_ok; [done|done|rewrite length_take; lia|].
      intros n1 Hok1 Hst1 Hci1 Hb1 Hs1. apply wp_bind, wp_web_consume; [by rewrite Hb1|rewrite Hb1; lia|].
      intros b Hwb Hdb. apply wp_ret. apply Hgo; [|exact Hst1|exact Hci1|].
      * destruct Hok1 as [Hi1 Ha1 _ Hn1 Hs1']. split; [exact Hi1|by apply (args_same (http n1))|exact Hwb|exact Hn1|exact Hs1'].
      * rewrite !web_weight. unfold web_received, web_waiting. cbn. rewrite Hs1.
        rewrite <- (Receive_BufferFacts.data_length Http.DEFAULT_SIZE b Hwb), Hdb, Hb1, length_drop. unfold web_received in *. lia.
    + apply wp_bind, wp_web_read; [lia|]. intros got sk Hgl Hsk. set (n1 := set web_socket _ n).
      assert (web_ok others n1) as Hok1 by (split; try done; apply Hok).
      case_bool_decide as Hg.
      * apply wp_ret. split; cbn [fst snd]; [|done..]. exists others. split; [done|]. apply more_refl; [pose proof (to_come_ge (state_ (http n)) c); lia|done].
      * apply wp_bind. eapply (to_post_ok others n1); [done|done|exact Hgl|]. intros n2 Hok2 Hst2 Hci2 Hb2 Hs2. apply wp_ret.
        apply Hgo; [done|done|done|]. rewrite !web_weight. unfold web_received, web_waiting in *. rewrite Hb2, Hs2. cbn. rewrite Hsk.
        destruct got; [done|]. cbn. lia.
Qed.

(** [WRITE]. *)
Lemma write_round others n c : web_ok others n -> state_ (http n) = PEER_STATUS_WRITE -> counted (state_ (http n)) c ->
  wp (Http.status_write c) n (fun run => stepped others n c (run, c)).
Proof.
  intros [Hi Ha Hwf Hn _] Hst Hc. specialize (Hn Hst). pose proof (to_come_ge (state_ (http n)) c) as Htc.
  assert (forall n' run, web_cache n' = web_cache n -> cache_item_ (http n') = cache_item_ (http n) -> read_buffer_ (http n') = read_buffer_ (http n) ->
    web_socket n' = web_socket n -> arguments (http n') = arguments (http n) ->
    state_ (http n') = PEER_STATE_READ_HEADER /\ c = 0 \/ (state_ (http n') = PEER_STATE_NEW_CMD \/ state_ (http n') = PEER_STATE_CLOSING) /\ run = false ->
    stepped others n c (run, c) n') as Hend.
  { intros n' run E1 E2 E3 E4 E5 Hs. split; cbn [fst snd].
    - exists others. split; [|apply more_refl; [|exact E2]].
      + split; [unfold with_item in *; by rewrite E1, E2|by eapply args_same|by rewrite E3|destruct Hs as [[-> _]|[[-> | ->] _]]; done|].
        unfold at_stage. by destruct Hs as [[-> _]|[[-> | ->] _]].
      + destruct Hs as [[-> ->]|[_ ->]]; [|lia]. rewrite Hst. by destruct run.
    - intros ->. destruct Hs as [[Hs _]|[_ ?]]; [|done]. unfold web_measure. rewrite Hs, Hst, !web_weight. unfold web_received, web_waiting.
      rewrite E3, E4. cbn. lia.
    - intros ->. destruct Hs as [[_ ->]|[_ ?]]; [by left|done]. }
  unfold Http.status_write. apply wp_bind, wp_gets. destruct (keepalive (http_request_ (http n))).
  - apply wp_bind, wp_ret, wp_bind, wp_gets. rewrite Hn. apply wp_bind, wp_modify, wp_bind, wp_modify. rewrite bool_decide_eq_true_2 by done. cbn [andb].
    destruct (Z.ltb_spec c 1); [|apply wp_ret, Hend; try done; right; split; [by left|done]].
    apply wp_bind, wp_gets. destruct (_ >=? _); [|apply wp_ret, Hend; try done; right; split; [by left|done]].
    apply wp_bind, wp_modify, wp_ret, Hend; try done. left. split; [done|]. destruct Hc as [?|[? _]]; lia.
  - apply wp_bind, wp_modify, wp_bind, wp_gets, wp_bind, wp_modify, wp_bind, wp_modify. apply wp_ret, Hend; try done. right. split; [by right|done].
Qed.

(** Every round. *)
Lemma web_stepped others n c : web_ok others n -> (forall q, 0 <= others q) -> (forall q, with_item n others q < 2 ^ 15) -> benign n ->
  counted (state_ (http n)) c -> wp (Http.round e alive web self unassigned c) n (stepped others n c).
Proof.
  intros Hok Hge Hr Hb Hc. unfold Http.round. apply wp_bind, wp_gets. pose proof (wo_stage _ _ Hok) as Hs. unfold at_stage in Hs.
  pose proof (to_come_ge (state_ (http n)) c) as Htc.
  assert (stepped others n c (false, c) n) as Hstop.
  { split; cbn [fst snd]; [|done..]. exists others. split; [done|]. apply more_refl; [lia|done]. }
  destruct (state_ (http n)) eqn:Hst; try done; rewrite <- Hst in Hc.
  - by apply new_cmd_round.
  - by apply read_header_round.
  - by apply wp_bind, body_round.
  - by apply wp_bind, write_round.
  - apply wp_bind, wp_bind, wp_modify, wp_ret, wp_ret. split; cbn [fst snd]; [|done..]. exists others. split; [|apply more_refl; [rewrite Hst; lia|done]].
    destruct Hok as [Hi Ha Hw _ _]. split; [exact Hi|by apply (args_same (http n))|exact Hw|done|exact I].
Qed.

(** ** The loop *)

(** No round of a run meets what [process] is not made for. *)
Fixpoint benign_loop (fuel : nat) (c : Z) n : Prop :=
  benign n /\
  match fuel with
  | O => True
  | S fuel => match Http.round e alive web self unassigned c n with Some ((true, c), n) => benign_loop fuel c n | _ => True end
  end.
Definition benign_run n : Prop := benign_loop (Http.process_fuel n) 0 n.

Lemma more_trans j k others o1 o2 n n1 n2 : more_by j others n o1 n1 -> more_by k o1 n1 o2 n2 -> more_by (j + k) others n o2 n2.
Proof. intros [Ho1 Hm1] [Ho2 Hm2]. split; intros q; [specialize (Ho1 q); specialize (Ho2 q)|specialize (Hm1 q); specialize (Hm2 q)]; lia. Qed.
Lemma more_le j k others o1 n n1 : j <= k -> more_by j others n o1 n1 -> more_by k others n o1 n1.
Proof. intros Hjk [Ho Hm]. split; [done|]. intros q. specialize (Hm q). lia. Qed.
Lemma web_loop_ends fuel : forall others n c, web_ok others n -> (forall q, 0 <= others q) ->
  (forall q, with_item n others q + to_come (state_ (http n)) c < 2 ^ 15) -> counted (state_ (http n)) c -> benign_loop fuel c n ->
  web_measure n < Z.of_nat fuel ->
  wp (Http.process_loop e alive web self unassigned fuel c) n (fun _ n' => exists others', web_ok others' n' /\ more_by (to_come (state_ (http n)) c) others n others' n').
Proof.
  induction fuel as [|fuel IH]; intros others n c Hok Hge Hr Hc Hb Hm; cbn [Http.process_loop benign_loop] in *.
  { unfold web_measure in Hm. rewrite web_weight in Hm. pose proof (web_received_ge n (wo_buffer _ _ Hok)). pose proof (web_waiting_ge n).
    destruct (state_ (http n)); cbn in Hm; lia. }
  destruct Hb as [Hb Hbl]. apply wp_bind. pose proof (to_come_ge (state_ (http n)) c) as Htc.
  assert (wp (Http.round e alive web self unassigned c) n (stepped others n c)) as Hrd.
  { apply web_stepped; try done. intros q. specialize (Hr q). lia. }
  apply wp_run in Hrd as ([run c1]&n1&Hrun&[(o1&Hok1&Hm1) Hl1 Hc1]). unfold wp at 1. rewrite Hrun in *. cbn [fst snd] in *. destruct run.
  - eapply wp_mono; [apply (IH o1 n1 c1); auto|].
    + intros q. pose proof (Hge q). destruct Hm1 as [Ho1 _]. specialize (Ho1 q). lia.
    + intros q. specialize (Hr q). destruct Hm1 as [_ Hq]. specialize (Hq q). lia.
    + specialize (Hl1 eq_refl). lia.
    + intros [] n2 (o2&Hok2&Hm2). exists o2. split; [done|]. eapply more_le; [|by eapply more_trans]. lia.
  - exists o1. split; [done|]. eapply more_le; [|exact Hm1]. lia.
Qed.
Lemma web_process_ends others n : web_ok others n -> (forall q, 0 <= others q) -> (forall q, with_item n others q + 2 < 2 ^ 15) -> benign_run n ->
  wp (Http.process e alive web self unassigned) n (fun _ n' => exists others', web_ok others' n' /\ more_by 2 others n others' n').
Proof.
  intros Hok Hge Hr Hb. unfold Http.process. apply wp_bind, wp_gets. pose proof (to_come_ge (state_ (http n)) 0) as Htc.
  eapply wp_mono; [apply (web_loop_ends _ others); try done|].
  - intros q. specialize (Hr q). lia.
  - by left.
  - unfold web_measure, Http.process_fuel. pose proof (web_received_ge n (wo_buffer _ _ Hok)). pose proof (web_waiting_ge n). rewrite web_weight.
    destruct (state_ (http n)); cbn; lia.
  - intros [] n' (o&Hok'&Hm). exists o. split; [done|]. eapply more_le; [|exact Hm]. lia.
Qed.

(** ** The completions *)

(** What a completion leaves: the invariant, or a peer that is gone and the references
    of the others. *)
Definition web_left (k : Z) others n n' : Prop := exists others', more_by k others n others' n' /\
  (web_ok others' n' \/ self_ (http n') = false /\ inv e (web_cache n') (with_item n' others')).
Lemma left_after j k others o1 n n1 n' : more_by j others n o1 n1 -> web_left k o1 n1 n' -> web_left (j + k) others n n'.
Proof. intros Hm (o2&Hm2&Hl). exists o2. split; [by eapply more_trans|done]. Qed.
(** A change of members that the invariant does not speak of. *)
Record io_only n n' : Prop := {
  io_cache : web_cache n' = web_cache n;
  io_item : cache_item_ (http n') = cache_item_ (http n);
  io_buffer : read_buffer_ (http n') = read_buffer_ (http n);
  io_args : arguments (http n') = arguments (http n);
  io_state : state_ (http n') = state_ (http n);
  io_next : next_state_ (http n') = next_state_ (http n);
  io_at : read_item_buf_ (http n') = read_item_buf_ (http n);
  io_len : next_data_len_ (http n') = next_data_len_ (http n);
  io_size : content_length_ (http n') = content_length_ (http n)
}.
Lemma io_only_ok others n n' : io_only n n' -> web_ok others n -> web_ok others n' /\ more_by 0 others n others n'.
Proof.
  intros [Ec Ei Eb Ea Es Ex Et El En] [Hi Ha Hw Hn Hs]. split; [|by apply more_refl]. split.
  - unfold with_item in *. by rewrite Ec, Ei.
  - by eapply args_same.
  - by rewrite Eb.
  - by rewrite Es, Ex.
  - unfold at_stage in *. by rewrite Es, Et, El, En.
Qed.
Lemma web_try_write n : wp Http.try_write n (fun _ => io_only n).
Proof.
  apply wp_bind, wp_gets, wp_bind, wp_gets. destruct (_ && _); [|by apply wp_ret].
  by apply wp_bind, wp_modify, wp_bind, wp_modify, wp_bind, wp_modify, wp_ret.
Qed.
Lemma buffer_ok others n b : web_ok others n -> wf b -> web_ok others (with_buffer b n) /\ more_by 0 others n others (with_buffer b n).
Proof. intros [Hi Ha Hw Hn Hs] Hb. split; [|by apply more_refl]. split; try done. by apply (args_same (http n)). Qed.
Lemma web_try_read others n : web_ok others n -> wp Http.try_read n (fun _ n' => web_ok others n' /\ more_by 0 others n others n').
Proof.
  intros Hok. apply wp_bind, wp_gets. destruct (_ =? 0); [|apply wp_ret; split; [done|by apply more_refl]].
  apply wp_bind, wp_modify, wp_bind. set (n1 := set http _ n). destruct (io_only_ok others n n1 ltac:(done) Hok) as [Hok1 _].
  apply wp_web_compact; [apply Hok1|]. intros b Hwb _. apply wp_modify. destruct (buffer_ok others n1 b Hok1 Hwb) as [Hok2 _].
  match goal with |- web_ok _ ?m /\ _ => destruct (io_only_ok others (with_buffer b n1) m ltac:(done) Hok2) as [Hok3 _] end.
  split; [exact Hok3|by apply more_refl].
Qed.
Lemma web_go_on others n : web_ok others n -> (forall q, 0 <= others q) -> (forall q, with_item n others q + 2 < 2 ^ 15) -> benign_run n ->
  wp (Http.process_and_go_on e alive web self unassigned) n (fun _ n' => exists others', web_ok others' n' /\ more_by 2 others n others' n').
Proof.
  intros Hok Hge Hr Hb. apply wp_bind. eapply wp_mono; [by apply web_process_ends|]. intros [] n1 (o&Hok1&Hm).
  assert (forall n2, io_only n1 n2 -> exists others', web_ok others' n2 /\ more_by 2 others n others' n2) as Hio.
  { intros n2 Hn2. destruct (io_only_ok o n1 n2 Hn2 Hok1) as [Hok2 Hm2]. exists o. split; [done|]. exact (more_trans 2 0 _ _ _ _ _ _ Hm Hm2). }
  apply wp_bind, wp_gets. case_bool_decide; [|case_bool_decide; [apply wp_ret; by exists o|]].
  - apply wp_bind. eapply wp_mono; [apply web_try_write|]. intros b n2 Hn2. by apply wp_ret, Hio.
  - apply wp_bind. eapply wp_mono; [apply web_try_write|]. intros [] n2 Hn2; [by apply wp_ret, Hio|].
    destruct (io_only_ok o n1 n2 Hn2 Hok1) as [Hok2 Hm2]. eapply wp_mono; [by apply web_try_read|]. intros [] n3 [Hok3 Hm3].
    exists o. split; [done|]. exact (more_trans 2 0 _ _ _ _ _ _ Hm (more_trans 0 0 _ _ _ _ _ _ Hm2 Hm3)).
Qed.

(** The end of a peer: its item is given back. *)
Lemma wp_web_stats (f : stats -> stats) m n Q : (forall st, m st = Some (tt, f st)) ->
  (forall t b, Q tt (stirred t b (n <| web_cache ::= fun s => s <| stats_ := f (stats_ s) |> |>))) -> wp (Http.stats_conn self m) n Q.
Proof. intros Hm HQ. apply wp_call, wp_on. unfold wp. rewrite Hm. exact HQ. Qed.
Lemma web_destroy others n : web_ok others n -> (forall q, 0 <= others q) -> (forall q, with_item n others q < 2 ^ 15) ->
  wp (Http.destroy self) n (fun _ => web_left 0 others n).
Proof.
  intros [Hi _ _ _ _] Hge Hr. assert (roomy others) as Hro by (intros q; pose proof (with_item_ge n others q); specialize (Hr q); lia).
  unfold Http.destroy, Http.cleanup. apply wp_bind.
  assert (wp (give_item self;; Http.in_http (fun p => p <| timer_ := [] |>)) n (fun _ n' => inv e (web_cache n') others /\ cache_item_ (http n') = None)) as Hc.
  { apply wp_bind, (give_item_ok e self others n); [done..|]. intros s t b Hi' _ _. by apply wp_modify. }
  unfold give_item in Hc. apply (wp_mono _ _ _ _ Hc). intros [] n1 (Hi1&Hc1). apply wp_bind. eapply wp_web_stats; [done|].
  intros t b. apply wp_modify. exists others. split.
  - unfold more_by. split; intros q; [lia|]. unfold with_item at 1. cbn. rewrite Hc1. pose proof (with_item_ge n others q). lia.
  - right. split; [done|]. unfold with_item. cbn -[Stats.close_conn]. rewrite Hc1. by apply inv_stats, (s_stats _ (proj2 Hi1)).
Qed.
End rounds.

(** ** A life *)
Inductive web_completion := Web_started (d : bytes) | Web_read (got : option bytes) | Web_written (ok : bool).
(** The node that has received bytes, and that of a completed read or write. *)
Definition web_data (d : bytes) (n : web_node) : web_node :=
  with_buffer (default (read_buffer_ (http n)) (Receive_Buffer.received d (read_buffer_ (http n)))) n.
Definition web_read_done (n : web_node) : web_node := n <| web_reading := false |> <| http ::= fun p => p <| op_count_ ::= fun c => c - 1 |> |>.
Definition web_write_done (n : web_node) : web_node := n <| web_writing := None |> <| http ::= fun p => p <| op_count_ ::= fun c => c - 1 |> |>.

Section life.
Context (e : endian) `{Table_Malloc} `{Item_Malloc} `{!Item_Malloc_Ok} `{Buffer_Malloc} `{!Buffer_Malloc_Ok} `{Block_Malloc} `{Web_Files} `{Zlib}.
Context (alive : sink -> bool) (web : Settings) (self : sink) (unassigned : Z).
Implicit Types (n : web_node) (others h : holds).
Abbreviation wf := (Receive_Buffer.wf Http.DEFAULT_SIZE).

Definition web_handle (c : web_completion) : W unit :=
  match c with
  | Web_started d => Http.start e alive web self unassigned d
  | Web_read got => Http.handle_read e alive web self unassigned got
  | Web_written ok => Http.handle_write e alive web self unassigned ok
  end.
Definition fits_in (d : bytes) n : Prop := Z.of_nat (length d) <= Receive_Buffer.get_read_buf_size (read_buffer_ (http n)).
(** The completions there can be: no item is near the bound of its [ref_count], the
    bytes fit, and nothing is asked for that the code is not made for. *)
Definition web_possible (c : web_completion) n : Prop :=
  (forall p it, heap (web_cache n) !! p = Some it -> ref_count it + 2 < 2 ^ 15) /\
  match c with
  | Web_started d => fits_in d n -> benign_run e alive web self unassigned (web_data d n)
  | Web_read got => forall d, got = Some d -> fits_in d n /\ benign_run e alive web self unassigned (web_data d (web_read_done n))
  | Web_written ok => ok = true -> benign_run e alive web self unassigned (web_write_done n)
  end.
(** A connection on a cache that others share: between its completions they may do
    with it what keeps its invariant and the reference of this peer. *)
Inductive web_lives : holds -> web_node -> Prop :=
  | web_created others memory s n :
      inv e s others -> Z.of_nat (length memory) = Http.DEFAULT_SIZE ->
      Http.create self memory (mk_web_node (Http.init memory) s [] false None) = Some (tt, n) -> web_lives others n
  | web_arrives others n d : web_lives others n -> web_lives others (n <| web_socket ::= fun l => l ++ [d] |>)
  | web_shares others others' n s : web_lives others n -> inv e s (with_item n others') -> (forall q, 0 <= others' q) -> web_lives others' (n <| web_cache := s |>)
  | web_handles others others' n c n' :
      web_lives others n -> self_ (http n) = true -> web_possible c n -> web_handle c n = Some (tt, n') ->
      inv e (web_cache n') (with_item n' others') -> (forall q, 0 <= others' q) -> web_lives others' n'.

Context (blocks : forall size, malloc_block size = true) (fits : files_fit web) (bodies : u32 (item_size_max web * 3) < 2 ^ 32 - 1).
Abbreviation web_ok := (web_ok e).

Lemma web_few others n : inv e (web_cache n) (with_item n others) -> (forall p it, heap (web_cache n) !! p = Some it -> ref_count it + 2 < 2 ^ 15) ->
  forall q, with_item n others q + 2 < 2 ^ 15.
Proof.
  intros [Hc _] Hcool p. pose proof (c_held _ _ _ Hc p) as H0'. destruct (decide (0 < with_item n others p)) as [Hp|Hp]; [|lia].
  destruct (held_heap e _ _ p Hc Hp) as (it&Hit&Hf). pose proof (Hcool p it Hit).
  destruct (c_item _ _ _ Hc p it Hit Hf) as (_&Hr&_). unfold refs in Hr. repeat case_decide; lia.
Qed.
Lemma web_close others n n1 : (forall q, 0 <= others q) -> (forall q, with_item n others q + 2 < 2 ^ 15) ->
  (exists o, web_ok o n1 /\ more_by 2 others n o n1) -> wp (Http.close_when_idle self) n1 (fun _ => web_left e 2 others n).
Proof.
  intros Hge Hr (o&Hok&Hm). unfold Http.close_when_idle. apply wp_bind, wp_gets, wp_bind, wp_gets. destruct (_ && _).
  - eapply wp_mono; [apply (web_destroy e self o n1 Hok)|].
    + intros q. destruct Hm as [Ho _]. specialize (Hge q). specialize (Ho q). lia.
    + intros q. destruct Hm as [_ Hq]. specialize (Hq q). specialize (Hr q). lia.
    + intros [] n2 Hl. exact (left_after e 2 0 _ _ _ _ _ Hm Hl).
  - apply wp_ret. exists o. split; [done|by left].
Qed.
Lemma web_take others n d Q : web_ok others n -> fits_in d n ->
  (web_ok others (web_data d n) -> more_by 0 others n others (web_data d n) -> Q tt (web_data d n)) -> wp (Http.on_read_buffer (Receive_Buffer.received d)) n Q.
Proof.
  intros Hok Hl HQ. destruct (Receive_BufferFacts.received_spec Http.DEFAULT_SIZE d _ (wo_buffer _ _ _ Hok) Hl) as (b&Hb&Hwb&_&_).
  assert (web_data d n = with_buffer b n) as Ed by (unfold web_data; by rewrite Hb).
  destruct (buffer_ok e others n b Hok Hwb) as [Hok' Hm']. apply wp_bind, wp_gets, wp_bind. eapply wp_the; [exact Hb|]. apply wp_modify.
  rewrite Ed in HQ. by apply HQ.
Qed.
Lemma go_on_close others n n1 : web_ok others n1 -> more_by 0 others n others n1 -> (forall q, 0 <= others q) -> (forall q, with_item n others q + 2 < 2 ^ 15) ->
  benign_run e alive web self unassigned n1 ->
  wp (Http.process_and_go_on e alive web self unassigned ;; Http.close_when_idle self) n1 (fun _ => web_left e 2 others n).
Proof.
  intros Hok Hm Hge Hr Hb. apply wp_bind. eapply wp_mono; [apply (web_go_on e alive web self unassigned blocks fits bodies others n1); try done|].
  - intros q. destruct Hm as [_ Hq]. specialize (Hq q). specialize (Hr q). lia.
  - intros [] n2 (o&Hok2&Hm2). apply web_close; [done..|]. exists o. split; [done|]. exact (more_trans 0 2 _ _ _ _ _ _ Hm Hm2).
Qed.
Lemma web_handle_ok others n c : web_ok others n -> (forall q, 0 <= others q) -> web_possible c n -> wp (web_handle c) n (fun _ => web_left e 2 others n).
Proof.
  intros Hok Hge [Hcool Hp]. pose proof (web_few others n (wo_inv _ _ _ Hok) Hcool) as Hr. 
  assert (forall n1, io_only n n1 -> web_ok others n1 /\ more_by 0 others n others n1) as Hio by (intros n1 Hn1; by apply io_only_ok).
  assert (forall n1, io_only n n1 -> wp (Http.close_when_idle self) n1 (fun _ => web_left e 2 others n)) as Hstop.
  { intros n1 Hn1. destruct (Hio n1 Hn1) as [Hok1 Hm1]. apply web_close; [done..|]. exists others. split; [done|]. eapply more_le; [|exact Hm1]. lia. }
  destruct c as [d|got|ok]; cbn [web_handle].
  - unfold Http.start. apply wp_bind, wp_gets. rewrite Z.geb_leb.
    destruct (Z.leb_spec (Z.of_nat (length d)) (Receive_Buffer.get_read_buf_size (read_buffer_ (http n)))) as [Hl|_]; [|apply wp_bind, wp_ret, Hstop; done].
    apply wp_bind, wp_bind, (web_take others); [done..|]. intros Hok1 Hm1.
    apply (wp_bind_inv _ (fun _ => Http.close_when_idle self)), go_on_close; [done..|by apply Hp].
  - unfold Http.handle_read. apply wp_bind, wp_modify, wp_bind, wp_modify, wp_bind. change (set http _ _) with (web_read_done n).
    destruct (Hio (web_read_done n) ltac:(done)) as [Hok1 Hm1]. destruct got as [d|]; [|by apply wp_ret, Hstop].
    destruct (Hp d eq_refl) as [Hl Hb]. apply wp_bind, (web_take others); [done..|]. intros Hok2 Hm2.
    apply (wp_bind_inv _ (fun _ => Http.close_when_idle self)), go_on_close; [done| |done..]. exact (more_trans 0 0 _ _ _ _ _ _ Hm1 Hm2).
  - unfold Http.handle_write. apply wp_bind, wp_modify, wp_bind, wp_modify, wp_bind. change (set http _ _) with (web_write_done n).
    destruct (Hio (web_write_done n) ltac:(done)) as [Hok1 Hm1]. destruct ok; [|by apply wp_ret, Hstop].
    apply (wp_bind_inv _ (fun _ => Http.close_when_idle self)), go_on_close; try done. by apply Hp.
Qed.

(** A life keeps the invariant, until the peer has gone. *)
Lemma web_created_ok others memory s : inv e s others -> Z.of_nat (length memory) = Http.DEFAULT_SIZE ->
  wp (Http.create self memory) (mk_web_node (Http.init memory) s [] false None) (fun _ => web_ok others).
Proof.
  intros Hi Hm. apply wp_bind, wp_modify. eapply wp_web_stats; [done|]. intros t b. split; try done.
  - by apply inv_stats, (s_stats _ (proj2 Hi)).
  - split; cbn; [by exists []|by exists []|lia|lia].
Qed.
Lemma web_lives_ok others n : web_lives others n -> (forall q, 0 <= others q) /\
  (web_ok others n \/ self_ (http n) = false /\ inv e (web_cache n) (with_item n others)).
Proof.
  assert (forall (Q : Prop) o1 o2 n', web_ok o1 n' -> inv e (web_cache n') (with_item n' o2) -> web_ok o2 n' \/ Q) as Hother.
  { intros Q o1 o2 n' [_ Ha Hw Hn Hs] Hi. left. by split. }
  induction 1 as [others memory s n Hi Hm Hcr|others n d _ (Hge&Hn)|others others' n s _ (Hge&Hn) Hi Hge'|others others' n c n' _ (Hge&Hn) Hself Hp Hst Hi Hge'].
  - split; [apply (c_held _ _ _ (inv_core e _ _ Hi))|]. left. pose proof (web_created_ok others memory s Hi Hm) as Hwp. unfold wp in Hwp. by rewrite Hcr in Hwp.
  - split; [done|]. destruct Hn as [[? ? ? ? ?]|Hn]; [by left|by right].
  - split; [done|]. destruct Hn as [[? ? ? ? ?]|[Hs _]]; [by left|right; split; [exact Hs|exact Hi]].
  - split; [done|]. destruct Hn as [Hn|[Hf _]]; [|congruence]. pose proof (web_handle_ok others n c Hn Hge Hp) as Hwp. unfold wp in Hwp. rewrite Hst in Hwp.
    destruct Hwp as (o'&_&[Hok|[Hs _]]); [by eapply Hother|by right].
Qed.
End life.

(** ** Deciding what a client may ask for *)
#[global] Instance goes_on_to_dec m (P : web_node -> Prop) `{!forall n, Decision (P n)} n : Decision (goes_on_to m P n).
Proof. unfold goes_on_to. destruct (m n) as [[[] ?]|]; apply _. Defined.
Section decide.
Context (e : endian) `{Table_Malloc} `{Item_Malloc} `{Buffer_Malloc} `{Block_Malloc} `{Web_Files} `{Zlib}.
Context (alive : sink -> bool) (web : Settings) (self : sink) (unassigned : Z).
#[global] Instance benign_as_dec c n : Decision (benign_as web c n).
Proof. unfold benign_as, sum_fits. destruct c; first [apply _|destruct (_ !! _); apply _]. Defined.
#[global] Instance benign_manager_dec len cmd n : Decision (benign_manager web len cmd n).
Proof. unfold benign_manager, is_watch, names. apply _. Defined.
#[global] Instance benign_command_dec n : Decision (benign_command web n).
Proof. unfold benign_command. cbv zeta. destruct (_ && _); [destruct (Http.strrchr _ _)|]; apply _. Defined.
#[global] Instance benign_post_dec n : Decision (benign_post web n).
Proof. unfold benign_post. cbv zeta. repeat case_match; apply _. Defined.
#[global] Instance benign_header_dec header n : Decision (benign_header web header n).
Proof. unfold benign_header. cbv zeta. destruct (Http.method_of _) as [[]|]; apply _. Defined.
#[global] Instance benign_dec n : Decision (benign web n).
Proof. unfold benign. destruct (state_ (http n)); first [apply _|destruct (Str.memfind _ _); apply _]. Defined.
#[global] Instance benign_run_dec n : Decision (benign_run e alive web self unassigned n).
Proof.
  unfold benign_run. generalize (Http.process_fuel n), 0 at 1. intros fuel. revert n. induction fuel as [|fuel IH]; intros n c; cbn [benign_loop]; [apply _|].
  destruct (Http.round _ _ _ _ _ _ _) as [[[[] ?] ?]|]; apply _.
Defined.
End decide.
#[global] Typeclasses Opaque benign_run benign benign_header benign_post benign_command benign_manager benign_as goes_on_to.
