(* ===== verification/HttpProps.v ===== *)
(** * What the HTTP interface promises

    A request that a client prints is read, done as the reference of the cache does
    it and answered with the page of the reply; pages are framed so that a client can
    tell where they end; nothing outside of the directory is served; compressed data
    can be restored; and what the code does that it should not. *)

From S2P Require Import Prelude XixiList XixiHashMap Lookup3 Util CurrTime Pdu Stats Watch Slab Cache CacheInv CacheSpec CacheOps CacheData CacheSweep CacheStore CacheRun CacheProps Buffers Settings Peer PeerFacts PeerRun PeerProps Http HttpParse HttpServe HttpFiles HttpRun HttpReads HttpLife.

#[local] Arguments Stats.literal : simpl never.

(** ** A client *)

(** It reads a response: the header up to the empty line, and as many bytes of a body
    as the header tells; what is left is the next response. *)
Fixpoint digits_of (b : bytes) : bytes :=
  match b with [] => [] | c :: b => if Parse.isdigit c then c :: digits_of b else [] end.
Definition content_length (header : bytes) : option Z :=
  i ← Str.memfind header (Stats.literal "Content-Length: ");
  let d := digits_of (drop (Z.to_nat (i + 16)) header) in
  mjoin (Parse.safe_toui32 (Some (d ++ [0])) (Z.of_nat (length d))).
Definition client_reads (resp : bytes) : option (bytes * bytes) :=
  i ← Str.memfind resp (crlf ++ crlf);
  n ← content_length (take (Z.to_nat i) resp);
  let body := drop (Z.to_nat (i + 4)) resp in
  if n <=? Z.of_nat (length body) then Some (take (Z.to_nat n) body, drop (Z.to_nat n) body) else None.

(** A text in which no empty line begins. *)
Definition no_empty_line (l : bytes) : bool :=
  forallb (fun i => negb (default 0 (l !! i) =? 13) || match l !! (i + 2)%nat with Some y => negb (y =? 13) | None => false end) (seq 0 (length l)).
Lemma memfind_text l t : no_empty_line l = true ->
  Str.memfind (l ++ t) (crlf ++ crlf) = (fun i => Z.of_nat (length l) + i) <$> Str.memfind t (crlf ++ crlf).
Proof.
  intros Hl. assert (forall i, l !! i = Some 13 -> exists y, l !! (i + 2)%nat = Some y /\ y <> 13) as Hc.
  { intros i Hi. unfold no_empty_line in Hl. rewrite forallb_forall in Hl.
    assert (In i (seq 0 (length l))) as Hin by (apply in_seq; apply lookup_lt_Some in Hi; lia). specialize (Hl i Hin). rewrite Hi in Hl.
    cbn [default from_option id negb orb] in Hl. change (negb (13 =? 13)) with false in Hl. cbn [orb] in Hl.
    destruct (l !! (i + 2)%nat) as [y|]; [|done]. exists y. split; [done|]. by intros ->. }
  clear Hl. induction l as [|c l IH]; [cbn [app]; destruct (Str.memfind t _); cbn; [f_equal; lia|done]|].
  cbn [app]. change (crlf ++ crlf) with [13; 10; 13; 10] in *. rewrite memfind_cons; [|done|].
  - rewrite IH by (intros i Hi; apply (Hc (S i)), Hi). destruct (Str.memfind t _); cbn; [f_equal; lia|done].
  - intros Hp. apply prefix_cons_inv_1 in Hp as ?. subst c. destruct (Hc 0%nat eq_refl) as (y&Hy&Hne). cbn in Hy.
    destruct l as [|a [|b l]]; [done..|]. cbn in Hy. injection Hy as ->. by apply prefix_cons_inv_2, prefix_cons_inv_2, prefix_cons_inv_1 in Hp.
Qed.
(** What is found first stays first, whatever follows. *)
Lemma memfind_app t u sub i : Str.memfind t sub = Some i -> Str.memfind (t ++ u) sub = Some i.
Proof.
  intros Hi. pose proof (memfind_spec t sub) as H1. rewrite Hi in H1. destruct H1 as [(H0&Hl&Hp) Hm].
  assert (occurs (t ++ u) sub i) as Ho.
  { split_and!; [done|rewrite length_app; lia|]. rewrite drop_app_le by lia. by apply prefix_app_r. }
  pose proof (memfind_spec (t ++ u) sub) as H2. destruct (Str.memfind (t ++ u) sub) as [j|]; [|by destruct (H2 i)].
  destruct H2 as [(Hj0&Hjl&Hjp) Hjm]. specialize (Hjm i Ho). f_equal. enough (i <= j) by lia. apply Hm. split_and!; [done|lia|].
  rewrite drop_app_le in Hjp by lia. destruct Hjp as [k Hk]. exists (take (length (drop (Z.to_nat j) t) - length sub) k).
  apply (f_equal (take (length (drop (Z.to_nat j) t)))) in Hk. rewrite take_app_length in Hk.
  etrans; [exact Hk|]. apply take_app_ge. rewrite length_drop. lia.
Qed.
Lemma digits_all d : Forall (fun c => Parse.isdigit c = true) d -> digits_of d = d.
Proof. induction 1 as [|c d Hc _ IH]; [done|]. cbn. by rewrite Hc, IH. Qed.
Lemma page_read k text more : Z.of_nat (length text) < 2 ^ 32 -> client_reads (page k text ++ more) = Some (text, more).
Proof.
  intros Hl. unfold client_reads, page. set (head := Texts.DEFAULT_RES_200 k). set (d := Parse.decimal _). rewrite <- !(assoc_L (++)).
  destruct (decimal_spec (Z.of_nat (length text)) ltac:(lia)) as (Hd&_&_). fold d in Hd.
  assert (no_empty_line head = true) as Hh by (unfold head; by destruct k; vm_compute).
  rewrite memfind_text by done. rewrite memfind_end.
  2:{ intros Hi. eapply Forall_forall in Hd; [|exact Hi]. by vm_compute in Hd. }
  cbn [fmap option_fmap option_map mbind option_bind].
  replace (Z.to_nat (Z.of_nat (length head) + Z.of_nat (length d))) with (length (head ++ d)) by (rewrite length_app; lia).
  rewrite (assoc_L (++) head), take_app_length.
  assert (Str.memfind head (Stats.literal "Content-Length: ") = Some (Z.of_nat (length head) - 16)) as Hf by (unfold head; by destruct k; vm_compute).
  assert (content_length (head ++ d) = Some (Z.of_nat (length text))) as ->.
  { unfold content_length. rewrite (memfind_app _ _ _ _ Hf). cbn [mbind option_bind].
    replace (Z.to_nat (Z.of_nat (length head) - 16 + 16)) with (length head) by lia. rewrite drop_app_length, digits_all by done.
    unfold d, Parse.safe_toui32. by rewrite (unsigned_text 32) by lia. }
  cbn [mbind option_bind]. set (m := Z.to_nat _).
  assert (drop m ((head ++ d) ++ crlf ++ crlf ++ text ++ more) = text ++ more) as ->.
  { rewrite !(assoc_L (++)), <- (assoc_L (++) _ text more). apply drop_app_length'. unfold m. rewrite !length_app. change (length crlf) with 2%nat. lia. }
  rewrite length_app, (proj2 (Z.leb_le _ _)) by lia. by rewrite Nat2Z.id, take_app_length, drop_app_length.
Qed.

(** ** Paths *)

(** Where a path leads below its start: the names that are left, or nothing if it
    goes above. *)
Fixpoint resolve (parts stack : list bytes) : option (list bytes) :=
  match parts with
  | [] => Some stack
  | part :: parts =>
      if decide (part = [46; 46]) then match stack with [] => None | _ :: stack => resolve parts stack end
      else if decide (part = [46]) then resolve parts stack
      else resolve parts (part :: stack)
  end.
Lemma stays_resolve parts : forall stack, Z.of_nat (length stack) + Z.of_nat (length parts) + 1 < 2 ^ 32 ->
  Http.stays_below parts (Z.of_nat (length stack) + 1) = bool_decide (is_Some (resolve parts stack)).
Proof.
  induction parts as [|part parts IH]; intros stack Hl; cbn [Http.stays_below resolve length] in *.
  { by rewrite bool_decide_eq_true_2. }
  case_decide as H1; [|case_decide as H2].
  - destruct stack as [|x stack]; [by rewrite bool_decide_eq_false_2 by (by intros [? ?])|]. cbn [length] in *.
    destruct (Z.leb_spec (Z.of_nat (S (length stack)) + 1) 1); [lia|]. rewrite <- IH by lia. f_equal. rewrite wrap_small by lia. lia.
  - apply IH. lia.
  - rewrite <- (IH (part :: stack)) by (cbn [length]; lia). f_equal. cbn [length]. rewrite wrap_small by lia. lia.
Qed.

(** ** Compressed data *)

(** A client that has zlib: the header, the data, the check sum and the size. *)
Definition gunzip `{Zlib} (inflated : bytes -> option bytes) (g : bytes) : option bytes :=
  let body := drop 10 g in
  let n := (length body - 8)%nat in
  d ← inflated (take n body);
  if decide (take 10 g = Http.gzip_header /\ drop n body = Http.out_uint32 (crc32 d) ++ Http.out_uint32 (u32 (Z.of_nat (length d)))) then Some d else None.
Lemma gunzip_gzip `{Zlib} (inflated : bytes -> option bytes) data g :
  (forall d out, deflated d = Some out -> inflated out = Some d) -> gzip_of data = Some g -> gunzip inflated g = Some data.
Proof.
  intros Hinf Hg. unfold gzip_of in Hg. destruct (deflated data) as [out|] eqn:Ed; [|done]. apply Hinf in Ed.
  set (tail := Http.out_uint32 (crc32 data) ++ Http.out_uint32 (u32 (Z.of_nat (length data)))) in *.
  assert (g = Http.gzip_header ++ out ++ tail) as -> by (by injection Hg as <-). unfold gunzip.
  change 10%nat with (length Http.gzip_header). rewrite drop_app_length, take_app_length.
  replace (length (out ++ tail) - 8)%nat with (length out) by (rewrite length_app; change (length tail) with 8%nat; lia).
  rewrite take_app_length, drop_app_length, Ed. cbn [mbind option_bind]. by rewrite decide_True.
Qed.

(** A text that does not fit its buffer cannot be sent. *)
Lemma gather_short n b room text : room < Z.of_nat (length text) -> 1 <= room -> 
  Http.gather n [Static b; Piece (take (Z.to_nat (room - 1)) text ++ [0]) (Z.of_nat (length text))] = None.
Proof.
  intros Hl Hr. unfold Http.gather. cbn [mapM mbind option_bind].
  assert (Http.fetch n (Piece (take (Z.to_nat (room - 1)) text ++ [0]) (Z.of_nat (length text))) = None) as ->; [|done].
  cbn [Http.fetch]. unfold mem_read. rewrite length_app, length_take. change (length [0]) with 1%nat.
  by rewrite (proj2 (Z.leb_gt (0 + _) _)), andb_false_r by lia.
Qed.

Section properties.
Context (e : endian) `{Table_Malloc} `{Item_Malloc} `{!Item_Malloc_Ok} `{Buffer_Malloc} `{!Buffer_Malloc_Ok} `{Block_Malloc} `{Web_Files} `{Zlib}.
Context (alive : sink -> bool) (web : Settings) (self : sink) (unassigned : Z).
Context (blocks : forall n, malloc_block n = true).
Implicit Types (n : web_node) (others : holds).

(** C5. An exchange over HTTP.  At a connection that waits there arrives, in one
    piece that fits its buffer, the text of a request of HTTP/1.1 in a url: GET, any of
    the fifteen commands, arguments percent-encoded ([arg_wf]), and headers of any names
    but those of a body, each on its line ([header_wf]).  If the cache is made for the
    request ([allowed]) and the key of a get does not start with a slash, it is read,
    done as the reference of the cache does it, and what is handed to the socket is
    the page of the reply, if the numbers of the reply are of their types and its
    texts fit their buffers ([shown]); when it is sent, the connection waits again -
    even if a header asks to close it, which the code does not look at - with no item
    held but those that a mismatch loses. *)
Theorem web_request_served c args hs others n :
  web_idle n -> request_ok web c args hs ->
  Z.of_nat (length (request_text web c args hs)) <= Receive_Buffer.get_read_buf_size (read_buffer_ (http n)) ->
  let p := asked_of (manager_base_url web) c args hs in
  inv e (web_cache n) others -> (forall q, others q + 1 < 2 ^ 15) -> allowed (web_cache n) others (web_request unassigned c p) ->
  exists n1 n2 a bufs others',
    Http.handle_read e alive web self unassigned (Some (request_text web c args hs)) n = Some (tt, n1) /\
    web_writing n1 = Some bufs /\
    (shown e web unassigned c p a = true -> Http.gather n1 bufs = Some (web_reply e web unassigned c p a)) /\
    Http.handle_write e alive web self unassigned true n1 = Some (tt, n2) /\ web_idle n2 /\ web_reading n2 = true /\
    spec_step alive (time_of (web_cache n)) (web_request unassigned c p) a (model_of (web_cache n)) (model_of (web_cache n2)) /\
    inv e (web_cache n2) others' /\ grown others others'.
Proof.
  intros Hn Hok Hl p Hi Hr Hal. assert (roomy others) as Hroom by (intros q; specialize (Hr q); lia).
  destruct (proj1 (wp_run _ _ _) (web_read e alive web self unassigned blocks c args hs others n Hn Hok Hl Hi Hroom Hal))
    as ([]&n1&H1'&Hs&a&others'&bufs&Hstep&Hi1&Hg&Hw&Hpage).
  assert (roomy others' /\ forall q, 0 <= others' q) as [Hr' Hge].
  { split; intros q; pose proof (Hg q); pose proof (Hr q); pose proof (c_held _ _ _ (inv_core e _ _ Hi) q); lia. }
  destruct (proj1 (wp_run _ _ _) (web_written e alive web self unassigned others' n1 Hs Hi1 Hr' Hge)) as ([]&n2&H2'&Hid&Hrd&Hi2&Hm&_).
  exists n1, n2, a, bufs, others'. rewrite Hm. by split_and!.
Qed.

(** C25. Arguments come back from their text: the query of a url sets each member that
    an argument names to its value, keys and values byte by byte. *)
Theorem web_args_roundtrip l n : Forall arg_wf l ->
  exists b, Http.process_request_arg (print_args l) n = Some (true, n <| http ::= fun p => (args_set l p) <| request_buf_ := b |> |>).
Proof.
  intros Hl. unfold Http.process_request_arg.
  destruct (proj1 (wp_run _ _ _) (request_args_ok blocks l (S (length (print_args l))) n Hl ltac:(pose proof (args_length l); lia))) as (ok&n'&Hr&->&b&->).
  exists b. rewrite Hr. done.
Qed.

(** Pages end where they say: what [respond] queues for a text that fits is read by
    a client as that text, and the bytes behind it are the next response. *)
Theorem respond_framed room header_room text n : 30 <= header_room -> Z.of_nat (length text) < room -> room <= 2 ^ 31 ->
  exists n' bufs resp, Http.respond room header_room text n = Some (tt, n') /\ write_buf_ (http n') = write_buf_ (http n) ++ bufs /\
    Http.gather n' bufs = Some resp /\ forall more, client_reads (resp ++ more) = Some (text, more).
Proof.
  intros Hh Hl Hr. destruct (proj1 (wp_run _ _ _) (respond_renders blocks room header_room text n Hh Hr)) as ([]&n'&Hresp&_&_&bufs&Ha&Hg).
  exists n', bufs, (page (keeps n) text). split_and!; [done|apply Ha|by apply Hg|]. intros more. apply page_read. lia.
Qed.

(** C6. No file outside of the directory: a path that leads above its start, and is no
    key of the cache, is answered "not found", whatever there is on the disk. *)
Theorem path_stays_below b parts others n :
  span_ok (key_ (http n)) -> head (the_bytes (key_ (http n))) = Some 47 -> view (web_cache n) !! the_place (http n) = None ->
  path_parts (span_string (key_ (http n))) = [47] :: parts -> Z.of_nat (length parts) + 2 < 2 ^ 32 -> resolve parts [] = None ->
  may e n others (lookup_of b (http n)) ->
  exists x n', Http.get_cache_item e alive web self unassigned b n = Some ((None, XIXI_REASON_NOT_FOUND, x), n').
Proof.
  intros Hk Hh Hv Hp Hl Hres Hm. pose proof (look_up_ok e alive web self (the_bytes (key_ (http n))) b unassigned others n Hm) as Hlook.
  assert (wp (Http.get_cache_item e alive web self unassigned b) n (fun r _ => r.1 = (None, XIXI_REASON_NOT_FOUND))) as Hwp.
  { unfold Http.get_cache_item. apply wp_bind, wp_the_key; [done|]. apply wp_bind. apply (wp_mono _ _ _ _ Hlook). clear Hlook.
    intros [[o reason] x] n1 [(t&f&En) Hf]; cbn [fst snd] in *. assert (o = None) as ->.
    { destruct o as [p|]; [|done]. destruct Hf as (it&y&_&_&_&_&Hs). unfold lookup_at in Hs.
      destruct (touch_flag_ (http n)); cbn in Hs; destruct Hs as (r&en&[= -> He]&Hs); unfold spec_get_touch, spec_get in Hs; cbn [fst model_of] in Hs;
        fold (the_place (http n)) in Hs; rewrite Hv in Hs; by injection Hs as -> -> _. }
    destruct (the_bytes (key_ (http n))) as [|z key]; [done|]. injection Hh as ->.
    apply wp_bind, wp_gets. assert (key_ (http n1) = key_ (http n)) as -> by (by rewrite En). rewrite Hp.
    assert (Http.stays_below ([47] :: parts) 0 = false) as ->; [|by apply wp_ret].
    change (Http.stays_below parts (u32 (0 + 1)) = false). change (u32 (0 + 1)) with (Z.of_nat (length (@nil bytes)) + 1).
    rewrite stays_resolve by (cbn [length]; lia). rewrite Hres. apply bool_decide_eq_false. by intros [? ?]. }
  apply wp_run in Hwp as ([[o reason] x]&n'&Hg&[= -> ->]). by exists x, n'.
Qed.

(** C9. An HTTP connection does not fail or hang on what it is made for.  From every
    state of its life - whatever others do with the cache between its completions - a
    completion of asio that is [web_possible] runs to its end and leaves such a state:
    headers, queries and bodies are parsed or refused, no body is written past the block
    made for it, every command is done and answered, files and welcome files are loaded,
    an item that is sent is given back with the next request or at the end, and no
    reference of the others is lost; a run takes at most two to an item.  The bytes may
    come in whatever parts.  Excluded, by a decidable test of the run at hand
    ([benign_run]), are the number of a delta that does not end in its text or
    overflows; a multipart body with a part that is cut off, such as one without an empty
    line; the command of ten bytes that is compared with "watch"; keys and values past the fields of an item; a delta
    that over-reads or overflows.  The files are within [files_fit], three times the
    largest item is not 2^32 - 1, items have less than 2^15 - 2 references, and every block of
    [Cache_Buffer] is found. *)
Theorem web_never_fails others n c :
  files_fit web -> u32 (item_size_max web * 3) < 2 ^ 32 - 1 ->
  web_lives e alive web self unassigned others n -> self_ (http n) = true -> web_possible e alive web self unassigned c n ->
  exists n' others', web_handle e alive web self unassigned c n = Some (tt, n') /\
    web_lives e alive web self unassigned others' n' /\ more_by 2 others n others' n'.
Proof.
  intros Hf Hb Hl Hs Hp. destruct (web_lives_ok e alive web self unassigned blocks Hf Hb others n Hl) as [Hge [Hok|[Hf' _]]]; [|congruence].
  destruct (proj1 (wp_run _ _ _) (web_handle_ok e alive web self unassigned blocks Hf Hb others n c Hok Hge Hp)) as ([]&n'&Hr&o&Hm&Hleft).
  exists n', o. split; [done|]. split; [|done]. assert (inv e (web_cache n') (with_item n' o)) as Hi by (destruct Hleft as [[]|[_ ?]]; done).
  apply (web_handles _ _ _ _ _ others o n c n'); try done. intros q. destruct Hm as [Ho _]. specialize (Ho q). specialize (Hge q). lia.
Qed.

(** C7. A GET of a path that starts with a slash and is no key of the cache.  If it
    leads above the start, or names nothing, it is not found; a directory without its
    last slash is moved; with it, the welcome files are tried in their order, each as
    a key of the cache and then as a file, and the first that is there is sent, or not
    found if none is ([welcomed]); a file is read into the cache under its path, with the
    type of its suffix and the configured expiration, or that of the request, and sent.
    Where a file is read, the cache may refuse it - too large, no memory, no such watch -
    and that reason is told.  The server relies on [files_fit] (contents of at most 2^31
    bytes, types of less than 2^8, an expiration that is not negative) and on keys, with
    the names of welcome files, of less than 2^16 bytes; the pages are right where their
    numbers and texts fit ([item_shown]). *)
Theorem path_served h n :
  files_fit web -> span_ok (key_ (http n)) -> head (the_bytes (key_ (http n))) = Some 47 -> short_paths web (the_bytes (key_ (http n))) ->
  may_look e n h -> view (web_cache n) !! the_place (http n) = None ->
  exists n', Http.process_get e alive web self unassigned n = Some (tt, n') /\ path_answered e alive web h n n'.
Proof.
  intros Hf Hk Hh Hs Hm Hv.
  destruct (proj1 (wp_run _ _ _) (path_answers e alive web self unassigned blocks Hf h n Hk Hm Hs Hh Hv)) as ([]&n'&Hr&Ha).
  by exists n'.
Qed.

(** C26. Compressed data can be restored: if zlib can, what [gzip_encode] makes of data
    is a gzip member that decompresses to it, of the size that is told. *)
Theorem gzip_roundtrip inflated data n :
  (forall d out, deflated d = Some out -> inflated out = Some d) -> data <> [] -> is_Some (deflated data) ->
  exists z n' g, Http.gzip_encode data n = Some (z, n') /\ z.1 = u32 (Z.of_nat (length g)) /\ Http.gather n' z.2 = Some g /\
    gunzip inflated g = Some data.
Proof.
  intros Hinf Hd [out Ho]. destruct (proj1 (wp_run _ _ _) (gzip_encode_ok blocks data n)) as (z&n'&Hz&_&Hg).
  destruct (gzip_of data) as [g|] eqn:Eg; [|unfold gzip_of in Eg; by rewrite Ho in Eg]. rewrite bool_decide_eq_false_2 in Hg by done.
  destruct Hg as [Hs Hg]. exists z, n', g. split_and!; [done|done|apply Hg|]. by eapply gunzip_gzip.
Qed.

(** C40. A response "not modified" has a buffer of 200 bytes, and a mime type can have
    128: when the header is longer than that, what is queued cannot be sent without
    reading behind the buffer. *)
Theorem not_modified_overflows it mime expiration n : write_buf_ (http n) = [] ->
  200 < Z.of_nat (length (cstr mime ++ crlf ++ Http.item_lines it expiration (Http.etag_of it))) ->
  exists n', Http.not_modified it mime expiration n = Some (tt, n') /\ Http.gather n' (write_buf_ (http n')) = None.
Proof.
  intros Hw Hl. destruct (proj1 (wp_run _ _ _) (not_modified_run blocks it mime expiration n)) as ([]&n'&Hr&Ha). exists n'. split; [exact Hr|].
  rewrite (ad_bufs _ _ _ Ha), Hw. cbn [app]. unfold not_modified_bufs. fold (not_modified_text it mime expiration) in Hl.
  by apply gather_short.
Qed.

(** A request that was received while the response of a POST was finished is read
    without a reset: it has the arguments of the one before, as far as it does not
    name them again. *)
Theorem pipelined_keeps_members n :
  state_ (http n) = PEER_STATUS_WRITE -> next_state_ (http n) = PEER_STATE_NEW_CMD -> keepalive (http_request_ (http n)) = true ->
  10 <= Receive_Buffer.read_data_size_ (read_buffer_ (http n)) ->
  exists n', Http.round e alive web self unassigned 0 n = Some ((true, 0), n') /\ state_ (http n') = PEER_STATE_READ_HEADER /\
    members (http n') = members (http n) /\ content_length_ (http n') = content_length_ (http n).
Proof.
  intros Hst Hnx Hk Hd.
  assert (wp (Http.round e alive web self unassigned 0) n (fun r n' => r = (true, 0) /\ state_ (http n') = PEER_STATE_READ_HEADER /\
    members (http n') = members (http n) /\ content_length_ (http n') = content_length_ (http n))) as Hwp.
  { unfold Http.round. apply wp_bind, wp_gets. rewrite Hst. apply wp_bind. unfold Http.status_write. apply wp_bind, wp_gets. rewrite Hk.
    apply wp_bind, wp_ret, wp_bind, wp_gets. rewrite Hnx. apply wp_bind, wp_modify, wp_bind, wp_modify. rewrite bool_decide_eq_true_2 by done.
    change (0 <? 1) with true. cbn [andb]. apply wp_bind, wp_gets.
    match goal with |- context [Receive_Buffer.read_data_size_ ?b >=? 10] => change b with (read_buffer_ (http n)) end.
    rewrite (proj2 (Z.geb_le _ _)) by done. apply wp_bind, wp_modify, wp_ret, wp_ret. done. }
  apply wp_run in Hwp as ([r c]&n'&Hr&[= -> ->]&?&?&?). by exists n'.
Qed.
End properties.

(** ** The theorems at work *)
Module HttpDemo.
Import Demo PeerDemo.
(** The parts of a path, as the library gives them: the root, and what is between slashes. *)
Fixpoint split (b part : bytes) : list bytes :=
  match b with
  | [] => if decide (part = []) then [] else [part]
  | c :: b => if c =? 47 then (if decide (part = []) then split b [] else part :: split b []) else split b (part ++ [c])
  end.
#[global] Instance files : Web_Files := {
  path_parts := fun b => match b with 47 :: b => [47] :: split b [] | _ => split b [] end;
  kind_of := fun path => if decide (last path = Some 47) then Directory else Regular;
  file_content := fun _ => Some (Stats.literal "secret")
}.
(** Blocks that are stored, and a sum. *)
#[global] Instance zlib : Zlib := {
  deflated := fun d => Some (0 :: d);
  crc32 := fun d => u32 (foldr Z.add 0 d)
}.
Definition conf : Settings := SettingsDemo.load SettingsDemo.server SettingsDemo.web.
Definition nobody : holds := fun _ => 0.

(** A connection of which nothing was read, as [start] leaves it. *)
Definition node0 : web_node := mk_web_node (Http.init memory) (left_by requests) [] false None.
Definition node_of (p : Peer_Http) : web_node := mk_web_node p (left_by requests) [] true None.
Definition idle_peer : Peer_Http := (Http.init memory) <| state_ := PEER_STATE_READ_HEADER |> <| op_count_ := 1 |>.
Definition idle : web_node := node_of idle_peer.
Lemma idle_started : (fun r => http r.2) <$> Http.start LittleEndian alive conf me 0 [] node0 = Some (http idle).
Proof. vm_compute. reflexivity. Qed.

Lemma is_wf_http b : is_wf b = true -> Receive_Buffer.wf Http.DEFAULT_SIZE b.
Proof. unfold is_wf. intros Hb. repeat (apply andb_prop in Hb as [Hb ?]). change Peer.DEFAULT_SIZE with Http.DEFAULT_SIZE in *. split; lia. Qed.
Lemma idle_idle : web_idle idle.
Proof. split; try (vm_compute; reflexivity). apply is_wf_http. by vm_compute. Qed.
Lemma left_inv : inv LittleEndian (left_by requests) nobody.
Proof. apply (reaches_inv LittleEndian alive Demo.conf _ _ _ demo_reaches). Qed.
Lemma node_inv p : inv LittleEndian (web_cache (node_of p)) nobody.
Proof. exact left_inv. Qed.

(** The entry under a key, with headers that mean nothing to the server. *)
Definition get_args : list web_arg := [Arg_group 3; Arg_key key1].
Definition get_headers : list web_header := [Any_header (Stats.literal "User-Agent") (Stats.literal "x"); Any_header (Stats.literal "Accept-Language") (Stats.literal "en");
  Any_header (Stats.literal "Connection") (Stats.literal "close")].
Definition asked : Peer_Http := asked_of (manager_base_url conf) Cmd_get get_args get_headers.
Lemma get_ok : request_ok conf Cmd_get get_args get_headers.
Proof.
  split.
  - split; [|by vm_compute]. apply (bool_decide_unpack _). by vm_compute.
  - apply Forall_cons. split; [by vm_compute|]. apply Forall_cons. split; [by apply all_bytes|by apply Forall_nil].
  - repeat (apply Forall_cons; split; [split_and!; try (apply (bool_decide_unpack _); by vm_compute); by vm_compute|]). by apply Forall_nil.
  - by vm_compute.
Qed.
Lemma web_request_served_witness :
  exists n1 n2 a bufs others',
    Http.handle_read LittleEndian alive conf me 0 (Some (request_text conf Cmd_get get_args get_headers)) idle = Some (tt, n1) /\
    web_writing n1 = Some bufs /\
    (shown LittleEndian conf 0 Cmd_get asked a = true -> Http.gather n1 bufs = Some (web_reply LittleEndian conf 0 Cmd_get asked a)) /\
    Http.handle_write LittleEndian alive conf me 0 true n1 = Some (tt, n2) /\ web_idle n2 /\ web_reading n2 = true /\
    spec_step alive (time_of (web_cache idle)) (Get (3, key1) 0 false) a (model_of (web_cache idle)) (model_of (web_cache n2)) /\
    inv LittleEndian (web_cache n2) others' /\ grown nobody others'.
Proof.
  apply (web_request_served LittleEndian alive conf me 0 all_blocks Cmd_get get_args get_headers nobody idle).
  - exact idle_idle.
  - exact get_ok.
  - vm_compute. discriminate.
  - exact (node_inv idle_peer).
  - intros q. unfold nobody. lia.
  - vm_compute. exact I.
Defined.
Lemma web_args_roundtrip_witness :
  exists b, Http.process_request_arg (print_args get_args) idle = Some (true, idle <| http ::= fun p => (args_set get_args p) <| request_buf_ := b |> |>).
Proof.
  apply (web_args_roundtrip all_blocks get_args idle).
  apply Forall_cons. split; [by vm_compute|]. apply Forall_cons. split; [by apply all_bytes|by apply Forall_nil].
Defined.
Lemma respond_framed_witness :
  exists n' bufs resp, Http.respond 50 30 (Stats.literal "hello") idle = Some (tt, n') /\ write_buf_ (http n') = write_buf_ (http idle) ++ bufs /\
    Http.gather n' bufs = Some resp /\ forall more, client_reads (resp ++ more) = Some (Stats.literal "hello", more).
Proof. apply (respond_framed all_blocks); [lia|by vm_compute|lia]. Defined.

(** A path from the root to the directory above. *)
Definition above_peer : Peer_Http := idle_peer <| key_ := terminated (Stats.literal "/a/../../etc/passwd") |>.
Definition above : web_node := node_of above_peer.
Lemma path_stays_below_witness :
  exists x n', Http.get_cache_item LittleEndian alive conf me 0 false above = Some ((None, XIXI_REASON_NOT_FOUND, x), n').
Proof.
  apply (path_stays_below LittleEndian alive conf me 0 false (map Stats.literal ["a"; ".."; ".."; "etc"; "passwd"]%string) nobody above).
  - by eexists.
  - by vm_compute.
  - by vm_compute.
  - by vm_compute.
  - by vm_compute.
  - by vm_compute.
  - split; [exact (node_inv above_peer)|]. split; [|by vm_compute]. intros q. unfold nobody. lia.
Defined.
Lemma conf_files : files_fit conf.
Proof.
  split.
  - intros path content [= <-]. by vm_compute.
  - apply (bool_decide_unpack _). by vm_compute.
  - by vm_compute.
Qed.
(** The root, with a welcome file. *)
Definition welcoming : Settings := conf <| welcome_file_list := [Stats.literal "index.html"] |>.
Lemma welcoming_files : files_fit welcoming.
Proof. by destruct conf_files. Qed.
Definition root_peer : Peer_Http := idle_peer <| key_ := terminated (Stats.literal "/") |>.
Example root_loads : (fun r => e_data <$> view (web_cache r.2) !! (0, Stats.literal "/index.html")) <$>
  Http.process_get LittleEndian alive welcoming me 0 (node_of root_peer) = Some (Some (Stats.literal "secret")).
Proof. vm_compute. reflexivity. Qed.
Lemma path_served_witness :
  exists n', Http.process_get LittleEndian alive welcoming me 0 (node_of root_peer) = Some (tt, n') /\ path_answered LittleEndian alive welcoming nobody (node_of root_peer) n'.
Proof.
  apply (path_served LittleEndian alive welcoming me 0 all_blocks).
  - exact welcoming_files.
  - by eexists.
  - by vm_compute.
  - split; apply (bool_decide_unpack _); by vm_compute.
  - split; [exact (node_inv root_peer)|]. split; [|by vm_compute]. intros q. unfold nobody. lia.
  - by vm_compute.
Defined.
(** A form that sets an entry, sent in one piece. *)
Definition form : bytes := Stats.literal "g=3&k=ab&v=x%79z&e=60".
Definition form_request : bytes :=
  Stats.literal "POST " ++ manager_base_url conf ++ Stats.literal "set HTTP/1.1" ++ crlf ++
  Stats.literal "Content-Type: application/x-www-form-urlencoded" ++ crlf ++
  Stats.literal "Content-Length: " ++ Parse.decimal (Z.of_nat (length form)) ++ crlf ++ crlf ++ form.
Definition web_born : web_node := from_option snd node0 (Http.create me memory node0).
Abbreviation web_life := (web_lives LittleEndian alive conf me 0).
Lemma web_ran (r : option (unit * web_node)) n : runs r = true -> r = Some (tt, from_option snd n r).
Proof. by destruct r as [[[] n']|]. Qed.
Lemma web_born_created : Http.create me memory (mk_web_node (Http.init memory) (left_by requests) [] false None) = Some (tt, web_born).
Proof. apply web_ran. by vm_compute. Qed.
Lemma memory_size : Z.of_nat (length memory) = Http.DEFAULT_SIZE.
Proof. by vm_compute. Qed.
Lemma web_born_lives : web_life nobody web_born.
Proof. exact (web_created LittleEndian alive conf me 0 nobody memory (left_by requests) web_born left_inv memory_size web_born_created). Qed.
Lemma form_possible : web_possible LittleEndian alive conf me 0 (Web_started form_request) web_born.
Proof.
  split.
  - intros p it Hp. assert (map_Forall (fun _ it => ref_count it + 2 < 2 ^ 15) (heap (web_cache web_born))) as Hc by (apply (bool_decide_unpack _); by vm_compute).
    exact (Hc p it Hp).
  - intros _. apply (bool_decide_unpack _). by vm_compute.
Qed.
Lemma web_never_fails_witness :
  exists n' others', web_handle LittleEndian alive conf me 0 (Web_started form_request) web_born = Some (tt, n') /\
    web_life others' n' /\ more_by 2 nobody web_born others' n'.
Proof.
  apply (web_never_fails LittleEndian alive conf me 0 all_blocks).
  - exact conf_files.
  - by vm_compute.
  - exact web_born_lives.
  - by vm_compute.
  - exact form_possible.
Defined.
(** What it set. *)
Lemma form_set : (fun r => e_data <$> view (web_cache r.2) !! (3, Stats.literal "ab")) <$>
  web_handle LittleEndian alive conf me 0 (Web_started form_request) web_born = Some (Some (Stats.literal "xyz")).
Proof. vm_compute. reflexivity. Qed.
Lemma gzip_roundtrip_witness :
  exists z n' g, Http.gzip_encode (Stats.literal "hello") idle = Some (z, n') /\ z.1 = u32 (Z.of_nat (length g)) /\ Http.gather n' z.2 = Some g /\
    gunzip (fun b => Some (tail b)) g = Some (Stats.literal "hello").
Proof.
  apply (gzip_roundtrip all_blocks).
  - by intros d out [= <-].
  - by vm_compute.
  - by eexists.
Defined.

(** A type of 128 bytes, and numbers of ten digits. *)
Definition long_item : Cache_Item := (Item.init []) <| cache_id := 4000000000 |> <| flags := 4000000000 |>.
Lemma not_modified_overflows_witness :
  exists n', Http.not_modified long_item (replicate 128 97) 0 idle = Some (tt, n') /\ Http.gather n' (write_buf_ (http n')) = None.
Proof. apply (not_modified_overflows all_blocks); [by vm_compute|by vm_compute]. Defined.
(** Ten bytes behind a POST that set the group to 7. *)
Definition posted : web_node := idle <| http ::= fun p => p <| group_id_ := 7 |> <| state_ := PEER_STATUS_WRITE |> <| next_state_ := PEER_STATE_NEW_CMD |>
  <| http_request_ ::= fun r => r <| keepalive := true |> |>
  <| read_buffer_ ::= fun b => default b (Receive_Buffer.received (Stats.literal "GET /admin") b) |> |>.
Lemma pipelined_keeps_members_witness :
  exists n', Http.round LittleEndian alive conf me 0 0 posted = Some ((true, 0), n') /\ group_id_ (http n') = 7.
Proof.
  destruct (pipelined_keeps_members LittleEndian alive conf me 0 posted) as (n'&Hr&_&Hm&_); [by vm_compute..|].
  exists n'. split; [exact Hr|]. by injection Hm.
Defined.
End HttpDemo.
